(* ===== verification/_CoqProject ===== *)
-Q . S2P
Prelude.v
GoStrings.v
GoTime.v
GoPath.v
GoNet.v
StatefulSet.v
Datastructures.v
GaleraState.v
Conditions.v
MariaDBTypes.v
GaleraConfig.v
MaxScaleTypes.v
RecoveryStatus.v
Concurrency.v
Kube.v
Wait.v
Sql.v
Health.v
Backup.v
ConditionSetters.v
PhysicalBackup.v
PhysicalBackupSafety.v
SqlResources.v
Pki.v
PkiExample.v
Certificate.v
MariaDBTLS.v
CertificateSafety.v
Version.v
Replication.v
Switchover.v
Failover.v
Updates.v
Status.v
StorageResize.v
MariaDBDefaults.v
MariaDBInit.v
MariaDBInitSafety.v
MariaDBServices.v
MariaDBPhases.v
MariaDBPhasesSafety.v
MaxScaleDefaults.v
MaxScaleClient.v
MaxScaleConfig.v
MaxScale.v
MaxScalePhase.v
MaxScaleSafety.v
GaleraMonitor.v
GaleraRecovery.v
GaleraSafety.v
MariaDBReconcile.v
MariaDBReconcileSafety.v
GaleraNode.v
GaleraNodeSafety.v
Inmutable.v
SpecValues.v
MariaDBWebhook.v
MariaDBWebhookSafety.v
WebhookDefaults.v
WebhookPatch.v
ResourceWebhooks.v
MaxScaleWebhook.v
