(* ===== verification/Prelude.v ===== *)
(** * A verification development of mariadb-operator

    ** The program

    mariadb-operator is a Kubernetes operator, written in Go, that runs MariaDB
    clusters.  A user describes a cluster in a MariaDB resource; controllers compare
    its spec with what they observe and act on the Kubernetes API, on the databases
    (SQL) and on an agent that runs beside every Galera node (HTTP).  The core logic,
    and the part where a mistake loses data, is high availability:
    - the replication controller (src/pkg/controller/replication) configures a primary
      and its replicas and moves the primary role in a switchover;
    - the Pod controllers (src/internal/controller/pod_controller.go and the two
      controllers it calls) start a switchover when a primary fails;
    - an init container and an agent (src/cmd/init, src/cmd/agent, src/pkg/galera)
      configure and watch every Galera node from the inside;
    - the Galera monitor (src/internal/controller/statefulset_galera_controller.go)
      notices a cluster that has lost its quorum, and the Galera controller
      (src/pkg/controller/galera) recovers it from the most advanced node;
    - the MariaDB reconciler (src/internal/controller/mariadb_controller.go and the
      files _status and _update beside it) runs its phases in order, reports the
      status and rolls updates through the Pods.
    The controllers meet in the MariaDB object: the failover writes the primary
    wanted to the spec, the switchover brings the databases there and then writes the
    status; the monitor writes a condition, the recovery waits for it.

    Around it are the parts that keep data and access safe over time:
    - backups: the PhysicalBackup controller (src/internal/controller,
      physicalbackup_controller.go and the files _job and _snapshot) schedules Jobs and
      volume snapshots, and the commands in the Jobs (src/cmd/backup, src/pkg/backup)
      store, expire and choose backup files;
    - SQL resources: users, grants and databases, reconciled by one template
      (src/pkg/controller/sql) with a finalizer for each;
    - certificates: the TLS phase (src/internal/controller/mariadb_controller_tls.go)
      keeps CAs, certificates and the bundle the Pods trust, with the certificate
      reconciler (src/pkg/controller/certificate) over src/pkg/pki;
    - initialization: a cluster is created empty or from a backup
      (mariadb_controller_init.go, src/pkg/controller/galera/init.go), and the phases
      after it create its Services, its users and its monitoring;
    - storage: the storage phase (src/internal/controller/mariadb_controller_storage.go)
      sets the volumes of a cluster in use to the size of the spec;
    - MaxScale: a proxy in front of a cluster, which the MaxScale reconciler
      (src/internal/controller/maxscale_controller.go and the files beside it) deploys and
      configures over its REST API (src/pkg/maxscale/client); a MariaDB follows the primary
      its MaxScale reports.
    Before any of them sees a resource, the admission webhooks (src/internal/webhook/v1alpha1)
    validate its creation and its updates, the patches of the operator itself included, and keep
    the fields that are tagged as immutable (src/pkg/webhook).

    The renewal of certificates and the resizing of storage meet the rest in the
    StatefulSet: the first changes annotations that roll an update through the Pods, the
    second deletes and creates it without its Pods.

    ** The files

    Foundations:
    - Prelude.v: Go errors and results; reconcilers as programs over operations of an
      environment, their traces, weakest preconditions and the tactics on them.
    - GoStrings.v, GoTime.v, GoPath.v, GoNet.v: the functions of strings, strconv, bufio,
      sort, time, path/filepath and net (ParseIP) that are used.
    - Concurrency.v: goroutines (a select on an error channel, an errgroup), and what
      holds of all interleavings.
    - Kube.v: the operations on the API server, the databases and the agents, and the
      Kubernetes objects they carry.
    - Wait.v: polling (src/pkg/wait).
    Data and decisions:
    - StatefulSet.v (src/pkg/statefulset), Datastructures.v (src/pkg/datastructures),
      Version.v (src/pkg/version, src/pkg/docker), GaleraState.v
      (src/pkg/galera/recovery);
    - Conditions.v and ConditionSetters.v (src/api/v1alpha1/condition_types.go,
      src/pkg/condition);
    - MariaDBTypes.v (src/api/v1alpha1/mariadb_types.go and the types for replication,
      Galera and keys beside it; src/pkg/environment);
    - MaxScaleTypes.v (src/api/v1alpha1/maxscale_types.go and maxscale_keys.go,
      src/pkg/maxscale/state) and MaxScaleDefaults.v (the defaults of maxscale_types.go);
    - RecoveryStatus.v (src/pkg/controller/galera/recovery_status.go);
    - GaleraConfig.v (src/pkg/galera/config): the configuration file of a Galera node and
      its provider options;
    - Sql.v (src/pkg/sql), Health.v (src/pkg/health, src/pkg/pod, src/pkg/job);
    - Backup.v (src/pkg/backup, src/pkg/time and the commands of src/cmd/backup);
    - Pki.v (src/pkg/pki), with a small concrete format for its witnesses in PkiExample.v.
    Controllers:
    - Replication.v (src/pkg/controller/replication, src/pkg/sqlset), with its
      properties in Switchover.v;
    - Failover.v (the Pod controllers), Updates.v (mariadb_controller_update.go),
      Status.v (mariadb_controller_status.go),
      GaleraMonitor.v (statefulset_galera_controller.go);
    - GaleraRecovery.v (src/pkg/controller/galera and src/pkg/galera/client), with its
      properties in GaleraSafety.v;
    - GaleraNode.v (src/cmd/init, the handlers, router and probes of the agent in
      src/cmd/agent and src/pkg/galera/agent, src/pkg/galera/filemanager and the
      authentication of src/pkg/kubernetes/auth), with its properties in
      GaleraNodeSafety.v;
    - PhysicalBackup.v (the PhysicalBackup resource and its controller,
      src/pkg/volumesnapshot and the reconcilers of PVCs and service accounts), with its
      properties in PhysicalBackupSafety.v;
    - SqlResources.v: the template as a program over a type class [SqlResource], its
      promise to the database as a class [SqlContract], and the instances for User, Grant
      and Database (user_controller.go, grant_controller.go, database_controller.go and
      their _finalizer files);
    - Certificate.v (src/pkg/controller/certificate) over the class [CertHandler], and
      MariaDBTLS.v (mariadb_controller_tls.go) with the handler of MariaDB, with their
      properties in CertificateSafety.v;
    - StorageResize.v (mariadb_controller_storage.go, src/pkg/pvc, the StatefulSet of
      src/pkg/builder/statefulset_builder.go and src/pkg/controller/statefulset);
    - MariaDBDefaults.v: MariaDB.SetDefaults with the Spec phase that persists it;
    - MariaDBInit.v (mariadb_controller_init.go, src/pkg/controller/galera/init.go), with
      its properties in MariaDBInitSafety.v;
    - MariaDBServices.v: the reconcilers of Services, Endpoints, PodDisruptionBudgets and
      Pod labels (src/pkg/controller/service, endpoints, the phases that call them);
    - MariaDBPhases.v: the Secret, ConfigMap, RBAC, Restore, SQL, Metrics and Connection
      phases with the object reconcilers below them (src/pkg/controller/secret,
      configmap, rbac, auth, deployment, servicemonitor), with their properties in
      MariaDBPhasesSafety.v;
    - MaxScaleClient.v (src/pkg/maxscale/client and the type maxScaleAPI of
      maxscale_controller_api.go), MaxScaleConfig.v (src/pkg/maxscale/config), MaxScale.v
      (maxscale_controller.go with _api, _status, _tls and _metrics: the phases and the loop
      over them) and MaxScalePhase.v (src/pkg/controller/maxscale), with properties in
      MaxScaleSafety.v;
    - MariaDBReconcile.v (MariaDBReconciler.Reconcile of mariadb_controller.go): all the
      phases above in their order, over the union of their operations, and the loop over
      them, with its properties in MariaDBReconcileSafety.v.
    Admission webhooks:
    - Inmutable.v (src/pkg/webhook/inmutable_webhook.go): the traversal of an old and a new
      spec, as trees of what package reflect shows of them, and SpecValues.v: the trees of
      the specs, with the tags of their fields;
    - MariaDBWebhook.v (mariadb_webhook.go, webhook.go), with its properties in
      MariaDBWebhookSafety.v; WebhookDefaults.v and WebhookPatch.v: what it says of the
      defaults the operator patches into a MariaDB;
    - ResourceWebhooks.v (user_webhook.go, grant_webhook.go, database_webhook.go,
      physicalbackup_webhook.go) and MaxScaleWebhook.v (maxscale_webhook.go), with the trees
      of their specs.
    A definition has the name of the Go function it translates, with the type or
    package in front where two would clash.

    ** How Go code is modelled

    A function that only computes is a function.  A method that acts on the outside is
    a value of [M S op A]: it has a state [S] (the objects in memory), performs
    operations [op] of the environment one after the other, and ends with a [result].
    The environment answers every operation as it likes: [wpM p s Q] says that [Q]
    holds of the trace of operations and answers, the final state and the result, for
    every sequence of answers and every choice of the scheduler; [wpM_sound] connects
    it with the executable interpreter [run], which the witnesses evaluate.  The
    property "nothing of kind [P] happens before [Q] was seen" is [guarded P Q].

    Bounds.  Every loop of the code is over a list, except polling, which repeats until
    its context ends: [poll_loop] has one attempt per second of the timeout and the
    first as its fuel, which is the number of attempts the library makes at most; the
    runtime may end a context earlier, after any failed attempt.  The loop over the PEM
    blocks of a file has one unit of fuel per byte, which is enough since pem.Decode
    consumes at least one ([pem_loop_terminates]).  The init container waits for the
    previous Pod without a bound: the number of its attempts is an argument, and its
    properties hold for every number.  All programs are therefore total, and
    no property depends on the amount of fuel.

    Conventions:
    - a record keeps the fields of a Go struct that modelled code reads or writes; a
      pointer is an option, a duration a number of nanoseconds; a slice is a list, which
      does not tell nil from empty, except where the code asks for nil (the servers of a
      MaxScale are an option of a list);
    - integers keep their width where the code parses or converts them ([Atoi],
      sequence numbers, replica counts); indices of loops are within the replicas;
    - a failed call gives an error and no value; an error keeps its identity unless it
      is formatted with %v, as almost all are, and then only its text remains.  The
      formatted arguments of an error text are left out;
    - a Patch sends the object in memory and its copy from before the change; after it
      the object in memory is the one sent;
    - reading the defaulting accessor Replication() does not change the object of the
      model: in the code it also stores the defaults in the spec in memory, which
      changes nothing for any later reader ([replication_defaulting] in
      MariaDBTypes.v); where the code writes through it, the defaults are stored;
    - Go maps that two structs share are modelled as shared where a claim depends on it
      (GaleraRecovery.v);
    - a goroutine that is still running after its caller has returned an error is not
      followed further; mutexes make the methods that take them atomic;
    - logs, Kubernetes events and metrics are not operations.

    Code outside the repository is a parameter with its documented laws: the
    conditions of apimachinery ([StatusConditions]), the iteration order of Go maps
    ([MapRange]), sort.Slice ([SliceSort]), percentages ([ScaledValue]), image
    references and versions ([VersionLib]), cron expressions ([Cron]), crypto/x509 and
    encoding/pem ([X509]), references of images ([DockerReference]), the digest of
    annotations and of configurations ([Hash]), the digests of parts of the spec of a
    MaxScale, uuid.Parse, the constructor of the agent's
    client, and the rate limiter and basic authentication of the agent's router.  Each class has an instance, and the witnesses use it.  Files and
    buckets, like the API server, answer as they like.

    ** What the theorems show

    - Switchover.v: no server becomes writable before the old primary is fenced or seen
      not ready, and only the new primary does; the status names it only after every
      phase is done; a replica counts as synced only for the primary's GTID; the exact
      statements that configure primaries and replicas; which errors come out.
    - RecoveryStatus.v, GaleraSafety.v: the Pod a Galera cluster is bootstrapped from is
      the most advanced one; it alone is told to bootstrap, and when the Galera phase
      restarts Pods, it is restarted first and synced again before another one is; recovery Jobs only run without Pods on the volumes; when
      a recovery counts as finished; the states a recovery fetched may be lost.
    - GaleraMonitor.v: a recovery starts only on evidence from the cluster that the
      StatefulSet belongs to.
    - Failover.v, Health.v: a primary is replaced only after it failed for the configured
      delay, by a healthy configured replica; what a failed patch leaves behind.
    - GaleraNodeSafety.v: a node bootstraps only a new cluster, and only as its first Pod,
      every other one waits for the one before it; the agent serves only callers it
      trusts, and its probes report what the database says.
    - MariaDBDefaults.v, MariaDBInitSafety.v: defaulting is idempotent; a cluster that was
      initialized is not initialized again, and data is only put on volumes that are new.
    - MariaDBServices.v, MariaDBPhasesSafety.v: the primary Service never selects a
      secondary, what reconcilers keep of the objects they find, passwords are generated
      once, users are created in order, and what an interrupted restore leaves behind.
    - Updates.v: at most one stale Pod at a time, the primary last.
    - Status.v, ConditionSetters.v: what the status phase may change, when a MariaDB is
      reported ready, and what is recorded of a Pod that cannot be read.
    - GaleraState.v, StatefulSet.v, Datastructures.v, MariaDBTypes.v: round trips of the
      text formats and names, set difference independent of map order, defaulting and
      validation.
    - SqlResources.v: a resource is ready only once it was applied on a ready server, it
      of a MariaDB is forgotten only once it was cleaned up, no statement is sent before; and the
      statements of a Grant refine a change of the set of its privileges.
    - CertificateSafety.v, Pki.v: when CAs and certificates are rewritten, that a
      certificate is renewed only when all Pods trust its issuer, that what is written can
      be read, that bundling CAs drops none that is valid; when the arithmetic of renewal
      overflows, and how a renewal waits for ever.
    - PhysicalBackupSafety.v, Backup.v: when Jobs and snapshots are taken and removed, the
      lock around a snapshot, that the schedule does not stop silently; the names of
      backups, which file a restore takes and which files the retention deletes.
    - StorageResize.v: a spec that asks for less is refused, every listed volume is set to
      the size of the spec and to nothing else, a claim that is already larger is thereby
      patched down ([larger_claim_shrinks]), and when a resize is reported as done.
    - MaxScaleSafety.v: the reconciliation of servers, services and listeners refines the
      spec, for every REST API that does what it is documented to do with a request (the
      class [MaxScaleREST], whose laws name the path, the query and the body of a request,
      with the instance [documented_rest]); what is destroyed and why, what the status may
      say, and how the whole reconciliation ends: in which order its phases ran, which
      failures it skips, what it does about the others and what it reports.  MaxScaleDefaults.v, MaxScalePhase.v: defaults settle, and a MariaDB
      never overwrites what is set in its MaxScale.
    - MariaDBReconcileSafety.v: how a reconciliation ends: after all phases in a literal
      order ([phase_order]), or where a phase asked to be called again, or with the failure
      of a phase, which is then in the status and in the error; a MariaDB that is set aside is only observed; which phases move the
      primary, and where to.
    - Inmutable.v: the webhook accepts exactly the updates in which every field that its
      traversal compares respects its tag.  MariaDBWebhookSafety.v: what holds of a MariaDB
      after any history of accepted updates, and what a switchover freezes.  WebhookPatch.v:
      for which accepted MariaDBs the one patch of the Spec phase, the defaults together with
      the source it takes from a backup, is accepted, objects whose patch is refused, and
      that the patch of a failover is accepted.  ResourceWebhooks.v, MaxScaleWebhook.v: an accepted
      update leaves the object in the database what it was, and an accepted MaxScale is well
      formed.
    Theorems about a failure of the code are stated as such, with a concrete run.

    ** What is not modelled

    The transfer of backups over the network, the TLS server of the agent and start-up
    code are I/O; the builders of Pods, Jobs and Deployments translate resources field by
    field; deep copies are generated; the HTTP transport below the clients of the agent and of
    MaxScale is I/O.  Not modelled either: the controllers of logical backups, restores,
    connections, SqlJobs and external MariaDBs, the webhooks of Backup, Restore, SqlJob and
    Connection, and the certificates of the webhooks.  The tree of a spec has the fields that
    the model has, so the tagged fields that no modelled code reads (image pull secrets, volumes
    and their mounts, priority classes, the names of the Secrets of connections, the restart
    policy of a backup) are not compared; a part kept as an opaque text, as the S3 source of a
    backup, is compared as a whole.  The value that field.Invalid prints beside its reason is
    left out. *)

From stdpp Require Export base gmap strings list sorting.
From Stdlib Require Export ZArith Lia.

(** ** Go errors

    [fmt.Errorf("ctx: %v", err)] keeps the text of [err] but not its identity, so
    [apierrors.IsNotFound] and [errors.Is] do not see through it: [ErrWrap] records the
    context and the cause.  The few wrappers with %w, which they do see through, are
    [ErrWrapW]. *)
Inductive api_error := NotFound | Conflict | Interrupted | OtherApi (msg : string).

Inductive sentinel :=
  | ErrSkipReconciliationPhase
  | ErrDelayAutomaticFailover
  | ErrWaitReplicaTimeout
  | ErrNoHealthyInstancesAvailable
  | ErrNotFoundInIndex
  | ErrMariaDBAnnotationNotFound
  | errPhysicalBackupNoTargetPodsAvailable
  | ErrSecretKeyNotFound
  | ErrMasterServerNotFound
  | ErrSkipCertRenewal
  | errConnHealthCheck
  | errNoEndpointsAvailable
  | os_ErrNotExist.

Inductive error :=
  | ErrNew (msg : string)
  | ErrApi (e : api_error)
  | ErrSentinel (s : sentinel)
  | ErrHttp (code : Z) (msg : string)
  | ErrWrap (ctx : string) (cause : error)
  | ErrWrapW (ctx : string) (cause : error).

#[export] Instance api_error_eq_dec : EqDecision api_error.
Proof. solve_decision. Defined.
#[export] Instance sentinel_eq_dec : EqDecision sentinel.
Proof. solve_decision. Defined.
#[export] Instance error_eq_dec : EqDecision error.
Proof. solve_decision. Defined.

(** The error at the end of the chain of %w wrappers: what [errors.Is] and [errors.As]
    look at. *)
Fixpoint unwrap (e : error) : error :=
  match e with ErrWrapW _ cause => unwrap cause | _ => e end.

Definition IsNotFound (e : error) : bool := bool_decide (unwrap e = ErrApi NotFound).
Definition IsConflict (e : error) : bool := bool_decide (unwrap e = ErrApi Conflict).
Definition errors_Is (e : error) (s : sentinel) : bool := bool_decide (unwrap e = ErrSentinel s).
Definition os_IsNotExist (e : error) : bool := errors_Is e os_ErrNotExist.

(** [err.Error()]: the text of an error; the formatted arguments of a context are
    not part of the model. *)
Fixpoint Error (e : error) : string :=
  match e with
  | ErrNew msg => msg
  | ErrApi NotFound => "not found"
  | ErrApi Conflict => "conflict"
  | ErrApi Interrupted => "interrupted"
  | ErrApi (OtherApi msg) => msg
  | ErrSentinel ErrSkipReconciliationPhase => "skipping reconciliation phase"
  | ErrSentinel ErrDelayAutomaticFailover => "delaying automatic failover"
  | ErrSentinel ErrWaitReplicaTimeout => "timeout waiting for replica to be synced"
  | ErrSentinel ErrNoHealthyInstancesAvailable => "no healthy instances available"
  | ErrSentinel ErrNotFoundInIndex => "not found in index"
  | ErrSentinel ErrMariaDBAnnotationNotFound => "MariaDB annotation not found"
  | ErrSentinel errPhysicalBackupNoTargetPodsAvailable => "no target Pods available"
  | ErrSentinel ErrSecretKeyNotFound => "secret key not found"
  | ErrSentinel ErrMasterServerNotFound => "master server not found"
  | ErrSentinel ErrSkipCertRenewal => "skipping certificate renewal"
  | ErrSentinel errConnHealthCheck => "error checking connection health"
  | ErrSentinel errNoEndpointsAvailable => "no endpoints available"
  | ErrSentinel os_ErrNotExist => "file does not exist"
  | ErrHttp _ msg => msg
  | ErrWrap ctx cause | ErrWrapW ctx cause => ctx +:+ ": " +:+ Error cause
  end.

(** [p != nil] *)
Definition is_some {A} (p : option A) : bool := match p with Some _ => true | None => false end.

(** ** Results: a Go [(T, error)] pair whose value is meaningless on error *)
Inductive result (A : Type) :=
  | Ok (a : A)
  | Err (e : error).
Arguments Ok {A} a.
Arguments Err {A} e.

#[export] Instance result_eq_dec `{EqDecision A} : EqDecision (result A).
Proof. solve_decision. Defined.
#[export] Instance result_ret : MRet result := @Ok.
#[export] Instance result_bind : MBind result := λ A B f r,
  match r with Ok a => f a | Err e => Err e end.
#[export] Instance result_fmap : FMap result := λ A B f r, r ≫= λ a, Ok (f a).

Definition is_ok {A} (r : result A) : bool :=
  match r with Ok _ => true | Err _ => false end.
Definition wrap_err {A} (ctx : string) (r : result A) : result A :=
  match r with Ok a => Ok a | Err e => Err (ErrWrap ctx e) end.

(** [multierror.Append] of two errors and [ErrorOrNil]: the bundle is nil exactly when both
    are; only the texts of its errors are kept. *)
Definition multierror (r1 r2 : result unit) : result unit :=
  match r1, r2 with
  | Ok _, r => r
  | Err e, Ok _ => Err e
  | Err e, Err e' => Err (ErrNew (Error e +:+ Error e'))
  end.
Definition err_of {A} (r : result A) : result unit := r ≫= λ _, Ok tt.

Lemma result_bind_Ok {A B} (r : result A) (f : A → result B) b :
  r ≫= f = Ok b ↔ ∃ a, r = Ok a ∧ f a = Ok b.
Proof. destruct r; cbn; naive_solver. Qed.
Lemma result_fmap_Ok {A B} (f : A → B) (r : result A) b : f <$> r = Ok b ↔ ∃ a, r = Ok a ∧ b = f a.
Proof. destruct r; cbn; naive_solver. Qed.
Lemma wrap_err_Ok {A} ctx (r : result A) a : wrap_err ctx r = Ok a ↔ r = Ok a.
Proof. by destruct r. Qed.

(** The answer of a server that fails with a text of its own, which is never an
    error of the Kubernetes API, or because the context of the call is done. *)
Inductive failure := FailText (msg : string) | FailDeadline.
Inductive reply (A : Type) :=
  | Reply (a : A)
  | Fail (f : failure).
Arguments Reply {A} a.
Arguments Fail {A} f.
Definition of_failure (f : failure) : error :=
  match f with FailText msg => ErrNew msg | FailDeadline => ErrApi Interrupted end.
Definition of_reply {A} (r : reply A) : result A :=
  match r with Reply a => Ok a | Fail f => Err (of_failure f) end.

(** ** Effectful programs

    A program either returns, performs an operation of its interface [E] and
    continues with the answer of the environment, or resolves a choice the Go
    runtime makes (the goroutine scheduled next, the order of a map range). *)
Inductive prog (E : Type → Type) (A : Type) : Type :=
  | Ret (a : A)
  | Vis (X : Type) (e : E X) (k : X → prog E A)
  | Choose (k : bool → prog E A).
Arguments Ret {E A} a.
Arguments Vis {E A X} e k.
Arguments Choose {E A} k.

(** An operation of a run together with its answer. *)
Record event (E : Type → Type) := Ev {
  ev_ty : Type;
  ev_op : E ev_ty;
  ev_ans : ev_ty
}.
Arguments Ev {E ev_ty} ev_op ev_ans.
Arguments ev_ty {E} _.
Arguments ev_op {E} _.
Arguments ev_ans {E} _.

(** An environment answers an operation, and resolves a choice, from the
    history of the run so far. *)
Record env (E : Type → Type) := Env {
  answer : ∀ X, list (event E) → E X → X;
  choice : list (event E) → bool
}.
Arguments answer {E} _ {X}.
Arguments choice {E} _.

Section prog.
Context {E : Type → Type}.

Fixpoint bind_prog {A B} (p : prog E A) (f : A → prog E B) : prog E B :=
  match p with
  | Ret a => f a
  | Vis e k => Vis e (λ x, bind_prog (k x) f)
  | Choose k => Choose (λ b, bind_prog (k b) f)
  end.

Fixpoint run {A} (σ : env E) (p : prog E A) (h : list (event E)) :
    list (event E) * A :=
  match p with
  | Ret a => ([], a)
  | Vis e k =>
      let x := answer σ h e in
      let '(t, a) := run σ (k x) (h ++ [Ev e x]) in (Ev e x :: t, a)
  | Choose k => run σ (k (choice σ h)) h
  end.

(** [wp p Q]: whatever the environment answers and however the runtime
    resolves its choices, [p] ends with a trace and a value satisfying [Q]. *)
Fixpoint wp {A} (p : prog E A) (Q : list (event E) → A → Prop) : Prop :=
  match p with
  | Ret a => Q [] a
  | Vis e k => ∀ x, wp (k x) (λ t a, Q (Ev e x :: t) a)
  | Choose k => ∀ b, wp (k b) Q
  end.

Lemma wp_sound {A} (p : prog E A) Q :
  wp p Q → ∀ σ h, Q (run σ p h).1 (run σ p h).2.
Proof.
  revert Q; induction p as [a|X e k IH|k IH]; simpl; intros Q HQ σ h; [done| |].
  - specialize (IH _ _ (HQ (answer σ h e)) σ (h ++ [Ev e (answer σ h e)])).
    by destruct (run σ _ _).
  - by apply IH.
Qed.

Lemma wp_mono {A} (p : prog E A) (Q Q' : list (event E) → A → Prop) :
  (∀ t a, Q t a → Q' t a) → wp p Q → wp p Q'.
Proof.
  revert Q Q'; induction p as [a|X e k IH|k IH]; simpl; intros Q Q' HQ Hp; auto.
  - intros x. eapply IH; [|apply Hp]. auto.
  - intros b. eapply IH; [|apply Hp]. auto.
Qed.

Lemma wp_bind {A B} (p : prog E A) (f : A → prog E B) Q :
  wp p (λ t a, wp (f a) (λ t' b, Q (t ++ t') b)) → wp (bind_prog p f) Q.
Proof.
  revert Q; induction p as [a|X e k IH|k IH]; simpl; intros Q Hp; auto.
Qed.

Lemma wp_conj {A} (p : prog E A) Q Q' :
  wp p Q → wp p Q' → wp p (λ t a, Q t a ∧ Q' t a).
Proof.
  revert Q Q'; induction p as [a|X e k IH|k IH]; simpl; intros Q Q' H1 H2; auto.
Qed.

Lemma wp_true {A} (p : prog E A) (Q : list (event E) → A → Prop) :
  (∀ t a, Q t a) → wp p Q.
Proof. revert Q; induction p; simpl; intros; auto. Qed.
End prog.

(** ** Operations of a part of the environment as operations of the whole *)
Section hoist.
Context {E F : Type → Type} (f : ∀ X, E X → F X).

Fixpoint hoist_prog {A} (p : prog E A) : prog F A :=
  match p with
  | Ret a => Ret a
  | Vis e k => Vis (f _ e) (λ x, hoist_prog (k x))
  | Choose k => Choose (λ b, hoist_prog (k b))
  end.

Definition hoist_event (e : event E) : event F := Ev (f _ (ev_op e)) (ev_ans e).

Lemma wp_hoist {A} (p : prog E A) Q :
  wp p (λ t a, Q (hoist_event <$> t) a) → wp (hoist_prog p) Q.
Proof.
  revert Q. induction p as [a|X e k IH|k IH]; cbn; intros Q Hp; [done| |].
  - intros x. by apply IH.
  - intros b. by apply IH.
Qed.
End hoist.

(** ** The reconciler monad

    Controller code threads the object it reconciles (a Go pointer it mutates)
    through operations that may fail: state passing over [prog] with a Go error
    as early return.  The state reached before the error is kept, as in Go. *)
Definition M (S : Type) (E : Type → Type) (A : Type) := S → prog E (S * result A).

Section reconciler.
Context {S : Type} {E : Type → Type}.

Definition ret {A} (a : A) : M S E A := λ s, Ret (s, Ok a).
Definition throw {A} (e : error) : M S E A := λ s, Ret (s, Err e).
Definition bind {A B} (m : M S E A) (f : A → M S E B) : M S E B := λ s,
  bind_prog (m s) (λ '(s', r),
    match r with Ok a => f a s' | Err e => Ret (s', Err e) end).
(** Run [m] and hand its error to the continuation instead of returning it. *)
Definition try {A} (m : M S E A) : M S E (result A) := λ s,
  bind_prog (m s) (λ '(s', r), Ret (s', Ok r)).
Definition wrap {A} (ctx : string) (m : M S E A) : M S E A := λ s,
  bind_prog (m s) (λ '(s', r), Ret (s', wrap_err ctx r)).
Definition get : M S E S := λ s, Ret (s, Ok s).
Definition modify (f : S → S) : M S E unit := λ s, Ret (f s, Ok tt).
(** An operation whose answer is a value. *)
Definition ask {X} (e : E X) : M S E X := λ s, Vis e (λ x, Ret (s, Ok x)).
(** An operation whose answer is a Go [(T, error)] pair. *)
Definition call {X} (e : E (result X)) : M S E X := λ s, Vis e (λ r, Ret (s, r)).
(** An operation of a server that fails with a text. *)
Definition call_reply {X} (e : E (reply X)) : M S E X := λ s, Vis e (λ r, Ret (s, of_reply r)).
Definition lift {A} (r : result A) : M S E A := λ s, Ret (s, r).
Definition choose : M S E bool := λ s, Choose (λ b, Ret (s, Ok b)).

Fixpoint for_each {A} (l : list A) (f : A → M S E unit) : M S E unit :=
  match l with
  | [] => ret tt
  | x :: l' => bind (f x) (λ _, for_each l' f)
  end.

(** Postconditions of a reconciler started in [s]. *)
Definition wpM {A} (m : M S E A) (s : S)
    (Q : list (event E) → S → result A → Prop) : Prop :=
  wp (m s) (λ t sr, Q t sr.1 sr.2).

Lemma wpM_ret {A} (a : A) s (Q : list (event E) → S → result A → Prop) :
  Q [] s (Ok a) → wpM (ret a) s Q.
Proof. done. Qed.

Lemma wpM_throw {A} e s (Q : list (event E) → S → result A → Prop) :
  Q [] s (Err e) → wpM (throw e) s Q.
Proof. done. Qed.

Lemma wpM_lift {A} (r : result A) s Q : Q [] s r → wpM (lift r) s Q.
Proof. done. Qed.

Lemma wpM_get s (Q : list (event E) → S → result S → Prop) :
  Q [] s (Ok s) → wpM get s Q.
Proof. done. Qed.

Lemma wpM_modify f s (Q : list (event E) → S → result unit → Prop) :
  Q [] (f s) (Ok tt) → wpM (modify f) s Q.
Proof. done. Qed.

Lemma wpM_ask {X} (e : E X) s Q :
  (∀ x, Q [Ev e x] s (Ok x)) → wpM (ask e) s Q.
Proof. done. Qed.

Lemma wpM_call {X} (e : E (result X)) s Q :
  (∀ r, Q [Ev e r] s r) → wpM (call e) s Q.
Proof. done. Qed.

Lemma wpM_call_reply {X} (e : E (reply X)) s Q :
  (∀ r, Q [Ev e r] s (of_reply r)) → wpM (call_reply e) s Q.
Proof. done. Qed.

Lemma wpM_choose s (Q : list (event E) → S → result bool → Prop) :
  (∀ b, Q [] s (Ok b)) → wpM choose s Q.
Proof. done. Qed.

Lemma wpM_bind {A B} (m : M S E A) (f : A → M S E B) s Q :
  wpM m s (λ t s' r,
    match r with
    | Ok a => wpM (f a) s' (λ t' s'' r', Q (t ++ t') s'' r')
    | Err e => Q t s' (Err e)
    end) →
  wpM (bind m f) s Q.
Proof.
  unfold wpM, bind. intros H. apply wp_bind.
  eapply wp_mono; [|exact H]. intros t [s' [a|e]]; simpl; [done|].
  by rewrite app_nil_r.
Qed.

Lemma wpM_try {A} (m : M S E A) s Q :
  wpM m s (λ t s' r, Q t s' (Ok r)) → wpM (try m) s Q.
Proof.
  unfold wpM, try. intros H. apply wp_bind.
  eapply wp_mono; [|exact H]. intros t [s' r]; simpl. by rewrite app_nil_r.
Qed.

Lemma wpM_wrap {A} ctx (m : M S E A) s Q :
  wpM m s (λ t s' r, Q t s' (wrap_err ctx r)) → wpM (wrap ctx m) s Q.
Proof.
  unfold wpM, wrap. intros H. apply wp_bind.
  eapply wp_mono; [|exact H]. intros t [s' r]; simpl. by rewrite app_nil_r.
Qed.

Lemma wpM_mono {A} (m : M S E A) s (Q Q' : list (event E) → S → result A → Prop) :
  (∀ t s' r, Q t s' r → Q' t s' r) → wpM m s Q → wpM m s Q'.
Proof. intros HQ. apply wp_mono. intros t [s' r]; apply HQ. Qed.

Lemma wpM_True {A} (m : M S E A) s : wpM m s (λ _ _ _, True).
Proof. by apply wp_true. Qed.

Lemma wpM_sound {A} (m : M S E A) s Q :
  wpM m s Q → ∀ σ h, Q (run σ (m s) h).1 (run σ (m s) h).2.1 (run σ (m s) h).2.2.
Proof. intros H σ h. exact (wp_sound _ _ H σ h). Qed.

(** Skip over a step whose trace and state do not matter for the postcondition. *)
Lemma wpM_skip {A B} (m : M S E A) (f : A → M S E B) s (Q : S → result B → Prop) :
  (∀ a s', wpM (f a) s' (λ _ s'' r, Q s'' r)) → (∀ e s', Q s' (Err e)) →
  wpM (bind m f) s (λ _ s' r, Q s' r).
Proof. intros Hf He. apply wpM_bind. apply wp_true. intros t [s' [a|e]]; [apply Hf|apply He]. Qed.

(** A loop keeps an invariant of the trace and the state it has reached. *)
Lemma wpM_for_each {A} (l : list A) (f : A → M S E unit) s
    (I : list A → list (event E) → S → Prop) (Q : list (event E) → S → result unit → Prop) :
  I l [] s →
  (∀ x l' t s', I (x :: l') t s' →
     wpM (f x) s' (λ t' s'' r,
       match r with Ok _ => I l' (t ++ t') s'' | Err e => Q (t ++ t') s'' (Err e) end)) →
  (∀ t s', I [] t s' → Q t s' (Ok tt)) →
  wpM (for_each l f) s Q.
Proof.
  intros H0 Hstep Hend.
  assert (∀ l t s, I l t s →
    wpM (for_each l f) s (λ t' s' r, Q (t ++ t') s' r)) as Hl; [|by apply (Hl l [])].
  clear l s H0. induction l as [|x l IH]; intros t s Hs; simpl.
  - apply wpM_ret. rewrite app_nil_r. auto.
  - apply wpM_bind. eapply wpM_mono; [|exact (Hstep x l t s Hs)].
    intros t' s' [[]|e] H; [|done].
    eapply wpM_mono; [|exact (IH _ _ H)]. intros t'' s'' r. by rewrite (assoc_L (++)).
Qed.

(** [okM m Q]: from any state, a run of [m] that returns [a] has a trace
    satisfying [Q a]. *)
Definition okM {A} (m : M S E A) (Q : A → list (event E) → Prop) : Prop :=
  ∀ s, wpM m s (λ t _ r, ∀ a, r = Ok a → Q a t).

Lemma okM_mono {A} (m : M S E A) (Q Q' : A → list (event E) → Prop) :
  (∀ a t, Q a t → Q' a t) → okM m Q → okM m Q'.
Proof. intros HQ Hm s. eapply wpM_mono; [|apply Hm]. naive_solver. Qed.
Lemma okM_true {A} (m : M S E A) (Q : A → list (event E) → Prop) : (∀ a t, Q a t) → okM m Q.
Proof. intros HQ s. apply wp_true. auto. Qed.
Lemma okM_ret {A} (a : A) (Q : A → list (event E) → Prop) : Q a [] → okM (ret a) Q.
Proof. intros HQ s. apply wpM_ret. by intros ? [= <-]. Qed.
Lemma okM_throw {A} e (Q : A → list (event E) → Prop) : okM (throw e) Q.
Proof. intros s. by apply wpM_throw. Qed.
Lemma okM_lift {A} (r : result A) (Q : A → list (event E) → Prop) :
  (∀ a, r = Ok a → Q a []) → okM (lift r) Q.
Proof. intros HQ s. by apply wpM_lift. Qed.
Lemma okM_call {X} (e : E (result X)) (Q : X → list (event E) → Prop) :
  (∀ a, Q a [Ev e (Ok a)]) → okM (call e) Q.
Proof. intros HQ s. apply wpM_call. by intros [b|?] a [= <-]. Qed.
Lemma okM_call_reply {X} (e : E (reply X)) (Q : X → list (event E) → Prop) :
  (∀ a, Q a [Ev e (Reply a)]) → okM (call_reply e) Q.
Proof. intros HQ s. apply wpM_call_reply. by intros [b|?] a [= <-]. Qed.
Lemma okM_wrap {A} ctx (m : M S E A) Q : okM m Q → okM (wrap ctx m) Q.
Proof. intros Hm s. apply wpM_wrap. eapply wpM_mono; [|apply Hm]. by intros t s' [a|e]. Qed.
Lemma okM_bind {A B} (m : M S E A) (f : A → M S E B) P Q :
  okM m P → (∀ a t, P a t → okM (f a) (λ b t', Q b (t ++ t'))) → okM (bind m f) Q.
Proof.
  intros Hm Hf s. apply wpM_bind. eapply wpM_mono; [|apply Hm].
  intros t s' [a|e] Ht; [|done]. by apply Hf, Ht.
Qed.
Lemma okM_bind_lift {A B} (r : result A) (f : A → M S E B) Q :
  (∀ a, r = Ok a → okM (f a) Q) → okM (bind (lift r) f) Q.
Proof. intros Hf s. apply wpM_bind, wpM_lift. destruct r; [by apply Hf|done]. Qed.
End reconciler.

(** A reconciler over a part of the environment, as a reconciler over the whole. *)
Definition hoistM {S} {E F : Type → Type} (f : ∀ X, E X → F X) {A} (m : M S E A) : M S F A :=
  λ s, hoist_prog f (m s).

Lemma wpM_hoist {S} {E F : Type → Type} (f : ∀ X, E X → F X) {A} (m : M S E A) s Q :
  wpM m s (λ t s' r, Q (hoist_event f <$> t) s' r) → wpM (hoistM f m) s Q.
Proof. apply (wp_hoist f (m s) (λ t sr, Q t sr.1 sr.2)). Qed.

Declare Scope go_scope.
Delimit Scope go_scope with go.
Notation "x <- m ;; k" := (bind m (λ x, k))
  (at level 100, m at next level, right associativity) : go_scope.
Notation "m ;;; k" := (bind m (λ _, k))
  (at level 100, right associativity) : go_scope.

(** Decompose the weakest precondition of a reconciler one operation at a time. *)
Create HintDb wpM discriminated.
#[export] Hint Resolve wpM_ret wpM_throw wpM_lift wpM_get wpM_modify wpM_ask wpM_call
  wpM_call_reply wpM_choose wpM_bind wpM_try wpM_wrap : wpM.

Ltac wp_step :=
  lazymatch goal with
  | |- wpM (bind _ _) _ _ => apply wpM_bind
  | |- wpM (wrap _ _) _ _ => apply wpM_wrap
  | |- wpM (try _) _ _ => apply wpM_try
  | |- wpM (ret _) _ _ => apply wpM_ret
  | |- wpM (throw _) _ _ => apply wpM_throw
  | |- wpM (lift _) _ _ => apply wpM_lift
  | |- wpM get _ _ => apply wpM_get
  | |- wpM (modify _) _ _ => apply wpM_modify
  | |- wpM (ask _) _ _ => apply wpM_ask; intros ?
  | |- wpM (call _) _ _ => apply wpM_call; intros [?|?]
  | |- wpM (call_reply _) _ _ => apply wpM_call_reply; intros [?|?]
  | |- wpM choose _ _ => apply wpM_choose; intros ?
  | |- wpM (if ?b then _ else _) _ _ => destruct b eqn:?
  | |- wpM (match ?x with _ => _ end) _ _ => destruct x eqn:?
  | |- match wrap_err _ ?r with Ok _ => _ | Err _ => _ end => destruct r eqn:?
  | |- match ?r with Ok _ => _ | Err _ => _ end => destruct r eqn:?
  end; cbn [wrap_err of_reply app].
Ltac wp_auto := repeat wp_step.
