(* ===== verification/GoStrings.v ===== *)
(** * The Go standard library used by the operator: strings, strconv, bufio, sort

    Go strings are byte strings; they are modelled by [string], one [ascii] per
    byte.  The functions below follow the documented behaviour of the packages
    [strings], [strconv], [bufio] and [sort] on the arguments the operator
    passes (a separator is never empty). *)

From Stdlib Require Import Ascii.
From stdpp Require Import pretty.
From S2P Require Import Prelude.

Local Open Scope Z_scope.

(** ** Machine integers: Go's [int] is 64 bits wide on the supported platforms *)
Definition int_min : Z := - 2 ^ 63.
Definition int_max : Z := 2 ^ 63 - 1.
Definition in_int (z : Z) : bool := bool_decide (int_min ≤ z) && bool_decide (z ≤ int_max).
(** Two's complement wrap-around *)
Definition int_wrap (z : Z) : Z := (z - int_min) mod 2 ^ 64 + int_min.

(** ** Characters *)
Fixpoint str_In (c : ascii) (s : string) : Prop :=
  match s with EmptyString => False | String d s' => c = d ∨ str_In c s' end.

#[export] Instance str_In_dec c s : Decision (str_In c s).
Proof. induction s; simpl; apply _. Defined.

Fixpoint str_all (P : ascii → bool) (s : string) : bool :=
  match s with EmptyString => true | String c s' => P c && str_all P s' end.

Definition is_digit (c : ascii) : bool :=
  bool_decide (48 ≤ Z.of_N (N_of_ascii c)) && bool_decide (Z.of_N (N_of_ascii c) ≤ 57).

Fixpoint str_last (s : string) : option ascii :=
  match s with
  | EmptyString => None
  | String c EmptyString => Some c
  | String _ s' => str_last s'
  end.

(** ** strings.HasPrefix, strings.HasSuffix, strings.TrimPrefix *)
Definition HasPrefix (s p : string) : bool := String.prefix p s.
Definition HasSuffix (s p : string) : bool := String.prefix (String.rev p) (String.rev s).

Fixpoint str_drop (n : nat) (s : string) : string :=
  match n, s with
  | O, _ => s
  | S n', String _ s' => str_drop n' s'
  | S _, EmptyString => EmptyString
  end.
Definition TrimPrefix (s p : string) : string :=
  if HasPrefix s p then str_drop (String.length p) s else s.

(** ** strings.Split, strings.SplitN(_, _, 2), strings.Join *)
Definition push (c : ascii) (ws : list string) : list string :=
  match ws with [] => [String c ""] | w :: ws' => String c w :: ws' end.

(** [skip] counts the bytes of a separator just matched that are still to be
    passed over. *)
Fixpoint Split_from (sep : string) (skip : nat) (s : string) : list string :=
  match s with
  | EmptyString => [""]
  | String c s' =>
      match skip with
      | S n => Split_from sep n s'
      | O => if HasPrefix s sep
             then "" :: Split_from sep (pred (String.length sep)) s'
             else push c (Split_from sep 0 s')
      end
  end.
Definition Split (s sep : string) : list string := Split_from sep 0 s.

(** [SplitN s sep 2] for a one-byte separator: at most one cut. *)
Fixpoint SplitN2 (s : string) (sep : ascii) : list string :=
  match s with
  | EmptyString => [""]
  | String c s' => if bool_decide (c = sep) then [""; s'] else push c (SplitN2 s' sep)
  end.

Fixpoint Join (l : list string) (sep : string) : string :=
  match l with
  | [] => ""
  | [w] => w
  | w :: l' => w +:+ sep +:+ Join l' sep
  end.

(** ** strings.TrimSpace

    The white space runes of Unicode in their UTF-8 encodings. *)
Definition byte (c : ascii) : N := N_of_ascii c.
Definition is_space1 (a : ascii) : bool := Ascii.is_space a.
Definition is_space2 (a b : ascii) : bool :=
  bool_decide (byte a = 194%N) && (bool_decide (byte b = 133%N) || bool_decide (byte b = 160%N)).
Definition is_space3 (a b c : ascii) : bool :=
  match byte a, byte b with
  | 225%N, 154%N => bool_decide (byte c = 128%N)
  | 226%N, 128%N =>
      (bool_decide (128 ≤ byte c)%N && bool_decide (byte c ≤ 138)%N)
      || bool_decide (byte c = 168%N) || bool_decide (byte c = 169%N)
      || bool_decide (byte c = 175%N)
  | 226%N, 129%N => bool_decide (byte c = 159%N)
  | 227%N, 128%N => bool_decide (byte c = 128%N)
  | _, _ => false
  end.

Fixpoint trim_left (s : string) : string :=
  match s with
  | String a s1 =>
      if is_space1 a then trim_left s1 else
      match s1 with
      | String b s2 =>
          if is_space2 a b then trim_left s2 else
          match s2 with
          | String c s3 => if is_space3 a b c then trim_left s3 else s
          | EmptyString => s
          end
      | EmptyString => s
      end
  | EmptyString => s
  end.

(** Trims a reversed string: the bytes of an encoding come last byte first. *)
Fixpoint trim_left_rev (s : string) : string :=
  match s with
  | String a s1 =>
      if is_space1 a then trim_left_rev s1 else
      match s1 with
      | String b s2 =>
          if is_space2 b a then trim_left_rev s2 else
          match s2 with
          | String c s3 => if is_space3 c b a then trim_left_rev s3 else s
          | EmptyString => s
          end
      | EmptyString => s
      end
  | EmptyString => s
  end.

Definition TrimSpace (s : string) : string :=
  String.rev (trim_left_rev (String.rev (trim_left s))).

(** ** strconv.Atoi and the %d verb *)
Definition digit_val (c : ascii) : option Z :=
  if is_digit c then Some (Z.of_N (N_of_ascii c) - 48) else None.

Fixpoint parse_digits (acc : Z) (s : string) : option Z :=
  match s with
  | EmptyString => Some acc
  | String c s' => d ← digit_val c; parse_digits (acc * 10 + d) s'
  end.

Definition parse_nat (s : string) : option Z :=
  match s with EmptyString => None | _ => parse_digits 0 s end.

Definition Atoi (s : string) : result Z :=
  let r := match s with
           | String "-" s' => Z.opp <$> parse_nat s'
           | String "+" s' => parse_nat s'
           | _ => parse_nat s
           end in
  match r with
  | None => Err (ErrNew "strconv.Atoi: invalid syntax")
  | Some z => if in_int z then Ok z else Err (ErrNew "strconv.Atoi: value out of range")
  end.

Definition Itoa (z : Z) : string := pretty z.

(** ** bufio.Scanner with ScanLines

    A line ends at a newline; one trailing carriage return is dropped; a last
    line without newline is delivered when it is not empty.  The scanner's
    buffer holds 64 KiB: a line whose bytes and newline do not fit stops the
    scan with [bufio.ErrTooLong], which [Err()] reports. *)
Definition max_line : Z := 65535.

Definition drop_cr (s : string) : string :=
  match String.rev s with String "013" r => String.rev r | _ => s end.

Fixpoint take_until (limit : Z) (lines : list string) : list string * bool :=
  match lines with
  | [] => ([], true)
  | l :: ls =>
      if bool_decide (Z.of_nat (String.length l) ≤ limit)
      then let '(r, ok) := take_until limit ls in (drop_cr l :: r, ok)
      else ([], false)
  end.

Definition drop_last_empty (ls : list string) : list string :=
  match last ls with Some "" => removelast ls | _ => ls end.

Definition newline : string := String "010" "".

Definition ScanLines (s : string) : list string * bool :=
  take_until max_line (drop_last_empty (Split s newline)).

(** ** sort.Strings: byte-wise lexicographic order, a total order *)
(** [strings.Contains] *)
Fixpoint Contains (s sub : string) : bool :=
  HasPrefix s sub ||
  match s with EmptyString => false | String _ s' => Contains s' sub end.

Definition sort_Strings : list string → list string := merge_sort String.le.

(** ** Lemmas: append, reverse, prefixes *)
Lemma str_app_nil_r s : s +:+ "" = s.
Proof. induction s as [|c s IH]; [done|]. change (String c (s +:+ "") = String c s). by rewrite IH. Qed.

Lemma str_app_cons c s s' : String c s +:+ s' = String c (s +:+ s').
Proof. done. Qed.

Lemma str_app_assoc s1 s2 s3 : s1 +:+ (s2 +:+ s3) = (s1 +:+ s2) +:+ s3.
Proof. induction s1 as [|c s1 IH]; [done|]. by rewrite !str_app_cons, IH. Qed.

Lemma rev_app_spec s1 s2 : String.rev_app s1 s2 = String.rev s1 +:+ s2.
Proof.
  unfold String.rev. revert s2. induction s1 as [|c s1 IH]; intros s2; [done|].
  simpl. rewrite IH, (IH (String c "")), <-str_app_assoc. done.
Qed.

Lemma rev_cons c s : String.rev (String c s) = String.rev s +:+ String c "".
Proof. unfold String.rev at 1. simpl. apply rev_app_spec. Qed.

Lemma rev_app s1 s2 : String.rev (s1 +:+ s2) = String.rev s2 +:+ String.rev s1.
Proof.
  induction s1 as [|c s1 IH]; [by rewrite str_app_nil_r|].
  rewrite str_app_cons, !rev_cons, IH. by rewrite str_app_assoc.
Qed.

Lemma rev_rev s : String.rev (String.rev s) = s.
Proof. induction s as [|c s IH]; [done|]. by rewrite rev_cons, rev_app, IH. Qed.

Lemma rev_last s : str_last s = match String.rev s with String c _ => Some c | _ => None end.
Proof.
  induction s as [|c s IH]; [done|]. rewrite rev_cons. destruct s as [|d s]; [done|].
  change (str_last (String c (String d s))) with (str_last (String d s)). rewrite IH.
  rewrite rev_cons. by destruct (String.rev s).
Qed.

Lemma prefix_nil s : String.prefix "" s = true.
Proof. by destruct s. Qed.

Lemma prefix_cons c d p s :
  String.prefix (String c p) (String d s) = bool_decide (c = d) && String.prefix p s.
Proof. simpl. by destruct (ascii_dec c d) as [->|H]; case_bool_decide. Qed.

Lemma HasPrefix_app p s : HasPrefix (p +:+ s) p = true.
Proof.
  unfold HasPrefix. induction p as [|c p IH]; [apply prefix_nil|].
  rewrite str_app_cons, prefix_cons, IH. by case_bool_decide.
Qed.

Lemma HasPrefix_spec s p : HasPrefix s p = true ↔ ∃ r, s = p +:+ r.
Proof.
  split; [|intros [r ->]; apply HasPrefix_app].
  unfold HasPrefix. revert s. induction p as [|c p IH]; intros s; [by exists s|].
  destruct s as [|d s]; [done|]. rewrite prefix_cons, andb_true_iff, bool_decide_eq_true.
  intros [-> [r ->]%IH]. by exists r.
Qed.

Lemma HasSuffix_app p s : HasSuffix (s +:+ p) p = true.
Proof. unfold HasSuffix. rewrite rev_app. apply HasPrefix_app. Qed.

Lemma TrimPrefix_app p s : TrimPrefix (p +:+ s) p = s.
Proof.
  unfold TrimPrefix. rewrite HasPrefix_app.
  induction p as [|c p IH]; [done|]. by rewrite str_app_cons.
Qed.

(** ** Lemmas: Split and Join with a one-byte separator *)
Lemma str_In_app c s1 s2 : str_In c (s1 +:+ s2) ↔ str_In c s1 ∨ str_In c s2.
Proof. induction s1 as [|d s1 IH]; [simpl; tauto|]. rewrite str_app_cons. simpl. tauto. Qed.

Lemma Split_cons c d s :
  Split (String d s) (String c "") =
    if bool_decide (c = d) then "" :: Split s (String c "") else push d (Split s (String c "")).
Proof.
  unfold Split. cbn [Split_from]. unfold HasPrefix. rewrite prefix_cons, prefix_nil, andb_true_r.
  by case_bool_decide.
Qed.

Lemma push_app c ws ws' : ws ≠ [] → push c (ws ++ ws') = push c ws ++ ws'.
Proof. by destruct ws. Qed.

Lemma push_nonempty c ws : push c ws ≠ [].
Proof. by destruct ws. Qed.

Lemma Split_nonempty s c : Split s (String c "") ≠ [].
Proof.
  destruct s as [|d s]; [done|]. rewrite Split_cons.
  case_bool_decide; [done|apply push_nonempty].
Qed.

Lemma Split_app a b c :
  Split (a +:+ String c b) (String c "") = Split a (String c "") ++ Split b (String c "").
Proof.
  induction a as [|d a IH].
  - change ("" +:+ String c b) with (String c b). rewrite Split_cons. by case_bool_decide.
  - rewrite str_app_cons, !Split_cons, IH. case_bool_decide; [done|].
    by rewrite push_app by apply Split_nonempty.
Qed.

Lemma Split_no_sep s c : ¬ str_In c s → Split s (String c "") = [s].
Proof.
  induction s as [|d s IH]; [done|]. intros Hin. rewrite Split_cons, IH; [|simpl in *; tauto].
  case_bool_decide; [simpl in *; tauto|done].
Qed.

Lemma Split_app_sep a b c :
  ¬ str_In c a → Split (a +:+ String c b) (String c "") = a :: Split b (String c "").
Proof. intros H. by rewrite Split_app, Split_no_sep. Qed.

Lemma Split_Join l c :
  l ≠ [] → Forall (λ w, ¬ str_In c w) l → Split (Join l (String c "")) (String c "") = l.
Proof.
  intros Hne. induction 1 as [|w l Hw Hl IH]; [done|]. destruct l as [|w' l].
  - simpl. by apply Split_no_sep.
  - change (Join (w :: w' :: l) (String c "")) with
      (w +:+ String c (Join (w' :: l) (String c ""))).
    rewrite Split_app_sep by done. by rewrite IH.
Qed.

Lemma Join_snoc l w sep : l ≠ [] → Join (l ++ [w]) sep = Join l sep +:+ sep +:+ w.
Proof.
  induction l as [|v l IH]; [done|]. intros _. destruct l as [|v' l]; [done|].
  change (Join ((v :: v' :: l) ++ [w]) sep) with (v +:+ sep +:+ Join ((v' :: l) ++ [w]) sep).
  rewrite IH by done. change (Join (v :: v' :: l) sep) with (v +:+ sep +:+ Join (v' :: l) sep).
  by rewrite <- !str_app_assoc.
Qed.

Lemma Join_push c d ws : ws ≠ [] → Join (push d ws) (String c "") = String d (Join ws (String c "")).
Proof. by destruct ws as [|w [|w' ws]]. Qed.

Lemma Join_Split s c : Join (Split s (String c "")) (String c "") = s.
Proof.
  induction s as [|d s IH]; [done|]. rewrite Split_cons. case_bool_decide as Hc.
  - subst d. pose proof (Split_nonempty s c) as Hne.
    destruct (Split s (String c "")) as [|w ws]; [done|].
    change (String c (Join (w :: ws) (String c "")) = String c s). by rewrite IH.
  - rewrite Join_push by apply Split_nonempty. by rewrite IH.
Qed.

Lemma Split_parts s c : Forall (λ w, ¬ str_In c w) (Split s (String c "")).
Proof.
  induction s as [|d s IH]; [by constructor; [simpl; tauto|]|]. rewrite Split_cons.
  case_bool_decide; [constructor; [simpl; tauto|done]|].
  destruct (Split s _) as [|w ws]; cbn [push].
  - constructor; [simpl; tauto|done].
  - apply Forall_cons in IH as [Hw Hws]. constructor; [simpl; tauto|done].
Qed.

Lemma SplitN2_app a b c : ¬ str_In c a → SplitN2 (a +:+ String c b) c = [a; b].
Proof.
  induction a as [|d a IH]; intros Hin.
  - change ("" +:+ String c b) with (String c b). simpl. by case_bool_decide.
  - rewrite str_app_cons. simpl. simpl in Hin. case_bool_decide; [naive_solver|].
    rewrite IH by tauto. done.
Qed.

Lemma SplitN2_no_sep s c : ¬ str_In c s → SplitN2 s c = [s].
Proof.
  induction s as [|d s IH]; simpl; intros Hin; [done|].
  case_bool_decide; [naive_solver|]. rewrite IH by tauto. done.
Qed.

(** ** Lemmas: TrimSpace leaves a string without outer white space alone *)
Definition plain (c : ascii) : bool := bool_decide (byte c < 128)%N && negb (Ascii.is_space c).

Definition trimmed (s : string) : bool :=
  match s with
  | EmptyString => true
  | String c _ => plain c && match str_last s with Some d => plain d | None => true end
  end.

Lemma plain_not_space2 a b : plain a = true ∨ plain b = true → is_space2 a b = false.
Proof.
  unfold plain, is_space2. rewrite !andb_true_iff, !bool_decide_eq_true.
  intros H. repeat case_bool_decide; simpl; try done; lia.
Qed.

Lemma plain_not_space3 a b c : plain a = true ∨ plain c = true → is_space3 a b c = false.
Proof.
  unfold plain. rewrite !andb_true_iff, !bool_decide_eq_true. intros H.
  destruct (is_space3 a b c) eqn:E; [|done]. exfalso. unfold is_space3 in E.
  repeat case_match; repeat case_bool_decide; try done; lia.
Qed.

Lemma trim_left_id c s : plain c = true → trim_left (String c s) = String c s.
Proof.
  intros H. assert (is_space1 c = false) as H1.
  { unfold plain in H. unfold is_space1. by destruct (Ascii.is_space c), (bool_decide _). }
  destruct s as [|b [|d s]]; cbn [trim_left]; rewrite H1;
    rewrite ?plain_not_space2, ?plain_not_space3 by auto; done.
Qed.

Lemma trim_left_rev_id c s : plain c = true → trim_left_rev (String c s) = String c s.
Proof.
  intros H. assert (is_space1 c = false) as H1.
  { unfold plain in H. unfold is_space1. by destruct (Ascii.is_space c), (bool_decide _). }
  destruct s as [|b [|d s]]; cbn [trim_left_rev]; rewrite H1;
    rewrite ?plain_not_space2, ?plain_not_space3 by auto; done.
Qed.

Lemma TrimSpace_trimmed s : trimmed s = true → TrimSpace s = s.
Proof.
  destruct s as [|c s]; [done|]. unfold trimmed, TrimSpace. rewrite andb_true_iff. intros [Hc Hl].
  rewrite trim_left_id by done. rewrite rev_last in Hl.
  destruct (String.rev (String c s)) as [|d r] eqn:Hr.
  - apply (f_equal String.rev) in Hr. by rewrite rev_rev in Hr.
  - rewrite trim_left_rev_id by done. by rewrite <-Hr, rev_rev.
Qed.

(** ** Lemmas: Atoi inverts the %d verb on machine integers *)
Lemma digit_val_pretty n : (n < 10)%N → digit_val (pretty_N_char n) = Some (Z.of_N n).
Proof.
  intros H. assert (n = 0 ∨ n = 1 ∨ n = 2 ∨ n = 3 ∨ n = 4 ∨ n = 5 ∨ n = 6 ∨ n = 7 ∨ n = 8 ∨ n = 9)%N
    as Hn by lia. by destruct_or!; subst.
Qed.

Lemma parse_digits_pretty x s :
  parse_digits 0 (pretty_N_go x s) = parse_digits (Z.of_N x) s.
Proof.
  revert s. induction (N.lt_wf_0 x) as [x _ IH]; intros s.
  destruct (decide (0 < x)%N) as [Hx|Hx].
  - rewrite pretty_N_go_step by done. rewrite IH; [|apply N.div_lt; lia].
    cbn [parse_digits]. rewrite digit_val_pretty by (by apply N.mod_lt). cbn.
    f_equal. pose proof (N.div_mod' x 10). lia.
  - replace x with 0%N by lia. by rewrite pretty_N_go_0.
Qed.

Lemma parse_nat_pretty x : parse_nat (pretty x) = Some (Z.of_N x).
Proof.
  unfold pretty, pretty_N. case_decide; [by subst|].
  pose proof (parse_digits_pretty x "") as H1. simpl in H1.
  destruct (pretty_N_go x "") eqn:E; [|done]. simpl in H1. injection H1. lia.
Qed.

Lemma is_digit_pretty n : (n < 10)%N → is_digit (pretty_N_char n) = true.
Proof.
  intros H. pose proof (digit_val_pretty n H). unfold digit_val in *. by destruct (is_digit _).
Qed.

Lemma str_all_pretty_go x s : str_all is_digit s = true → str_all is_digit (pretty_N_go x s) = true.
Proof.
  revert s. induction (N.lt_wf_0 x) as [x _ IH]; intros s Hs.
  destruct (decide (0 < x)%N) as [Hx|Hx].
  - rewrite pretty_N_go_step by done. apply IH; [apply N.div_lt; lia|].
    cbn [str_all]. by rewrite is_digit_pretty, Hs by (by apply N.mod_lt).
  - replace x with 0%N by lia. by rewrite pretty_N_go_0.
Qed.

Lemma str_all_pretty (x : N) : str_all is_digit (pretty x) = true.
Proof. unfold pretty, pretty_N. case_decide; [done|]. by apply str_all_pretty_go. Qed.

Lemma pretty_Z_alt z :
  Itoa z = if bool_decide (z < 0) then String "-" (pretty (Z.to_N (- z))) else pretty (Z.to_N z).
Proof.
  destruct z as [|p|p].
  - done.
  - by rewrite bool_decide_eq_false_2 by lia.
  - by rewrite bool_decide_eq_true_2 by lia.
Qed.

Lemma parse_nat_digits s : str_all is_digit s = true → s ≠ "" →
  Atoi s = match parse_nat s with
           | Some z => if in_int z then Ok z else Err (ErrNew "strconv.Atoi: value out of range")
           | None => Err (ErrNew "strconv.Atoi: invalid syntax")
           end.
Proof.
  intros Hs Hne. destruct s as [|c s]; [done|]. unfold Atoi.
  simpl in Hs. apply andb_true_iff in Hs as [Hc _].
  destruct (decide (c = "-"%char)) as [->|]; [done|].
  destruct (decide (c = "+"%char)) as [->|]; [done|].
  assert (match String c s with
          | String "-" s' => Z.opp <$> parse_nat s'
          | String "+" s' => parse_nat s'
          | _ => parse_nat (String c s)
          end = parse_nat (String c s)) as ->; [|done].
  repeat case_match; congruence.
Qed.

Lemma pretty_N_nonempty (x : N) : pretty x ≠ "".
Proof. intros H. pose proof (parse_nat_pretty x) as H1. by rewrite H in H1. Qed.

(** Parsing what the %d verb prints gives the integer back, over the whole
    range of the machine type. *)
Lemma Atoi_Itoa z : in_int z = true → Atoi (Itoa z) = Ok z.
Proof.
  intros Hz. rewrite pretty_Z_alt. case_bool_decide as Hneg.
  - unfold Atoi. rewrite parse_nat_pretty. cbn. rewrite Z2N.id by lia.
    by rewrite Z.opp_involutive, Hz.
  - rewrite parse_nat_digits; [|apply str_all_pretty|apply pretty_N_nonempty].
    rewrite parse_nat_pretty, Z2N.id by lia. by rewrite Hz.
Qed.

Lemma Atoi_range s z : Atoi s = Ok z → in_int z = true.
Proof. unfold Atoi. intros H. repeat case_match; simplify_eq; done. Qed.

Lemma Itoa_inj z z' : Itoa z = Itoa z' → z = z'.
Proof. unfold Itoa. apply (inj pretty). Qed.

(** The bytes %d can print: digits and the minus sign. *)
Definition is_int_byte (c : ascii) : bool := is_digit c || bool_decide (c = "-"%char).

Lemma str_all_weaken (P Q : ascii → bool) s :
  (∀ c, P c = true → Q c = true) → str_all P s = true → str_all Q s = true.
Proof.
  intros HPQ. induction s as [|c s IH]; simpl; [done|].
  rewrite !andb_true_iff. intros [??]; auto.
Qed.

Lemma str_all_In (P : ascii → bool) s c : str_all P s = true → str_In c s → P c = true.
Proof.
  induction s as [|d s IH]; simpl; [done|]. rewrite andb_true_iff.
  intros [? ?] [->|?]; auto.
Qed.

Lemma str_all_app P s1 s2 : str_all P (s1 +:+ s2) = str_all P s1 && str_all P s2.
Proof.
  induction s1 as [|c s1 IH]; [done|]. rewrite str_app_cons. simpl. by rewrite IH, andb_assoc.
Qed.

Lemma str_all_Itoa z : str_all is_int_byte (Itoa z) = true.
Proof.
  rewrite pretty_Z_alt. assert (∀ x : N, str_all is_int_byte (pretty x) = true) as H.
  { intros x. eapply str_all_weaken; [|apply str_all_pretty].
    intros c Hc. unfold is_int_byte. by rewrite Hc. }
  case_bool_decide; [|apply H]. cbn [str_all]. by rewrite H.
Qed.

Lemma Itoa_not_In z c : is_int_byte c = false → ¬ str_In c (Itoa z).
Proof. intros Hc Hin. pose proof (str_all_In _ _ _ (str_all_Itoa z) Hin). congruence. Qed.

Lemma Itoa_no_dash z : 0 ≤ z → ¬ str_In "-" (Itoa z).
Proof.
  intros Hz Hin. rewrite pretty_Z_alt in Hin. case_bool_decide; [lia|].
  by pose proof (str_all_In _ _ _ (str_all_pretty _) Hin).
Qed.

Lemma str_last_all (P : ascii → bool) s c : str_all P s = true → str_last s = Some c → P c = true.
Proof.
  induction s as [|d s IH]; [done|]. cbn [str_all]. rewrite andb_true_iff. intros [Hd Hs].
  destruct s; [naive_solver|]. by apply IH.
Qed.

Lemma plain_int_byte c : is_int_byte c = true → plain c = true.
Proof.
  destruct c as [[][][][][][][][]]; vm_compute; done.
Qed.

Lemma Itoa_nonempty z : Itoa z ≠ "".
Proof. rewrite pretty_Z_alt. case_bool_decide; [done|apply pretty_N_nonempty]. Qed.

Lemma plain_trimmed s : str_all plain s = true → trimmed s = true.
Proof.
  destruct s as [|c s]; [done|]. intros H. unfold trimmed. pose proof H as H'.
  cbn [str_all] in H'. apply andb_true_iff in H' as [-> _]. rewrite andb_true_l.
  destruct (str_last (String c s)) eqn:E; [|done]. exact (str_last_all _ _ _ H E).
Qed.

Lemma Itoa_trimmed z : trimmed (Itoa z) = true.
Proof.
  apply plain_trimmed. eapply str_all_weaken; [apply plain_int_byte|apply str_all_Itoa].
Qed.

Create HintDb gostr discriminated.
#[export] Hint Resolve Itoa_trimmed Itoa_no_dash Split_nonempty TrimSpace_trimmed : gostr.

(** ** Lemmas: sort.Strings sorts and permutes *)
Lemma sort_Strings_Permutation l : sort_Strings l ≡ₚ l.
Proof. apply merge_sort_Permutation. Qed.

Lemma sort_Strings_sorted l : StronglySorted String.le (sort_Strings l).
Proof. by apply (StronglySorted_merge_sort String.le). Qed.

(** ** Lemmas: scanning the lines of a joined text *)
Lemma str_last_app s1 s2 : s2 ≠ "" → str_last (s1 +:+ s2) = str_last s2.
Proof.
  intros H. induction s1 as [|c s1 IH]; [done|]. rewrite str_app_cons.
  assert (s1 +:+ s2 ≠ "") by (destruct s1; done).
  destruct (s1 +:+ s2) as [|d r] eqn:E; [done|]. exact IH.
Qed.

Lemma trimmed_last s : trimmed s = true → s ≠ "" → ∃ d, str_last s = Some d ∧ plain d = true.
Proof.
  destruct s as [|c s]; [done|]. unfold trimmed. rewrite andb_true_iff. intros [_ Hl] _.
  destruct (str_last (String c s)) as [d|] eqn:E; [by exists d|].
  rewrite rev_last, rev_cons in E. by destruct (String.rev s).
Qed.

Lemma trimmed_enclosed c s d : plain c = true → plain d = true →
  trimmed (String c (s +:+ String d "")) = true.
Proof.
  intros Hc Hd. cbn [trimmed]. rewrite Hc, <-str_app_cons, str_last_app by done. exact Hd.
Qed.

Lemma trimmed_app a b : trimmed a = true → trimmed b = true → trimmed (a +:+ b) = true.
Proof.
  intros Ha Hb. destruct (decide (b = "")) as [->|Hne]; [by rewrite str_app_nil_r|].
  destruct a as [|c a]; [done|]. destruct (trimmed_last b) as (d & Hd & Hpd); [done..|].
  rewrite str_app_cons. cbn [trimmed] in Ha |- *. apply andb_true_iff in Ha as [-> _].
  by rewrite <-str_app_cons, str_last_app, Hd.
Qed.

Lemma trimmed_Join l sep : trimmed sep = true → Forall (λ w, trimmed w = true) l →
  trimmed (Join l sep) = true.
Proof.
  intros Hsep. induction 1 as [|w l Hw Hl IH]; [done|]. cbn [Join]. destruct l; [done|].
  by repeat apply trimmed_app.
Qed.

Lemma drop_cr_id s : str_last s ≠ Some "013"%char → drop_cr s = s.
Proof.
  rewrite rev_last. unfold drop_cr. intros H.
  destruct (String.rev s) as [|c r]; [done|].
  destruct (decide (c = "013"%char)) as [->|]; [done|].
  repeat case_match; congruence.
Qed.

Definition line_ok (l : string) : Prop :=
  ¬ str_In "010" l ∧ Z.of_nat (String.length l) ≤ max_line ∧ str_last l ≠ Some "013"%char.

Lemma take_until_ok ls : Forall line_ok ls → take_until max_line ls = (ls, true).
Proof.
  induction 1 as [|l ls (_ & Hlen & Hcr) _ IH]; [done|]. cbn [take_until].
  rewrite bool_decide_eq_true_2 by done. by rewrite IH, drop_cr_id.
Qed.

Lemma ScanLines_Join ls :
  Forall line_ok ls → ls ≠ [] → last ls ≠ Some "" → ScanLines (Join ls newline) = (ls, true).
Proof.
  intros Hls Hne Hlast. unfold ScanLines.
  assert (Split (Join ls newline) newline = ls) as ->.
  { apply Split_Join; [done|]. eapply Forall_impl; [exact Hls|]. by intros l (? & _). }
  assert (drop_last_empty ls = ls) as ->.
  { unfold drop_last_empty. destruct (last ls) as [[|]|]; done. }
  by apply take_until_ok.
Qed.

(** A text file: every line, the last one too, ends with a newline. *)
Lemma ScanLines_text ls : Forall line_ok ls → ls ≠ [] → ScanLines (Join ls newline +:+ newline) = (ls, true).
Proof.
  intros Hls Hne. unfold ScanLines.
  assert (Join ls newline +:+ newline = Join (ls ++ [""]) newline) as ->.
  { clear Hls. induction ls as [|l [|l' ls] IH]; [done|done|].
    change (Join (l :: l' :: ls) newline) with (l +:+ newline +:+ Join (l' :: ls) newline).
    rewrite <-!str_app_assoc, IH by done. done. }
  assert (Split (Join (ls ++ [""]) newline) newline = ls ++ [""]) as ->.
  { apply Split_Join; [by destruct ls|]. apply Forall_app. split; [|by apply Forall_singleton; intros []].
    eapply Forall_impl; [exact Hls|]. by intros l (? & _). }
  unfold drop_last_empty. rewrite last_snoc, removelast_last. by apply take_until_ok.
Qed.

Lemma TrimSpace_space s : TrimSpace (String " " s) = TrimSpace s.
Proof. done. Qed.

Lemma str_length_app s1 s2 : String.length (s1 +:+ s2) = (String.length s1 + String.length s2)%nat.
Proof. induction s1 as [|c s1 IH]; [done|]. rewrite str_app_cons. simpl. by rewrite IH. Qed.

Lemma pretty_N_go_length n x s :
  (x < 10 ^ N.of_nat n)%N → (String.length (pretty_N_go x s) ≤ n + String.length s)%nat.
Proof.
  revert x s. induction n as [|n IH]; intros x s Hx.
  - change (10 ^ N.of_nat 0)%N with 1%N in Hx. replace x with 0%N by lia. by rewrite pretty_N_go_0.
  - destruct (decide (0 < x)%N) as [Hp|Hp].
    + rewrite pretty_N_go_step by done. etrans; [apply IH|simpl; lia].
      rewrite Nat2N.inj_succ, N.pow_succ_r' in Hx. apply N.Div0.div_lt_upper_bound. lia.
    + replace x with 0%N by lia. rewrite pretty_N_go_0. simpl. lia.
Qed.

Lemma Itoa_length z : in_int z = true → Z.of_nat (String.length (Itoa z)) ≤ 20.
Proof.
  unfold in_int, int_min, int_max. rewrite andb_true_iff, !bool_decide_eq_true. intros Hz.
  assert (∀ x : N, (x < 10 ^ N.of_nat 19)%N → (String.length (pretty x) ≤ 19)%nat) as H.
  { intros x Hx. unfold pretty, pretty_N. case_decide; [simpl; lia|].
    pose proof (pretty_N_go_length 19 x "" Hx) as Hl. simpl in Hl |- *. lia. }
  rewrite pretty_Z_alt. change (10 ^ N.of_nat 19)%N with 10000000000000000000%N in H.
  case_bool_decide; [cbn [String.length]|];
    (match goal with |- context [pretty ?x] => specialize (H x) end); lia.
Qed.
