(* ===== verification/GoTime.v ===== *)
(** * The Go standard library used by the operator: time and path

    A [time.Time] is an instant: a number of nanoseconds since the Unix epoch.  The
    calendar is the proleptic Gregorian one; [time.Parse] is modelled for the two
    layouts of the operator, RFC 3339 and the compact one of pkg/time, with the
    leniency of the library (an hour of one digit, a fraction after the seconds,
    offsets up to 24:60).  [time.Sub] saturates, as in the library. *)

From Stdlib Require Import Ascii.
From S2P Require Import Prelude GoStrings.

Local Open Scope Z_scope.

Definition nsec : Z := 10 ^ 9.

(** ** Calendar *)
Definition is_leap (y : Z) : bool :=
  bool_decide (y mod 4 = 0) && (negb (bool_decide (y mod 100 = 0)) || bool_decide (y mod 400 = 0)).

(** Days from 0001-01-01 to the first day of year [y]. *)
Definition days_before_year (y : Z) : Z :=
  365 * (y - 1) + (y - 1) / 4 - (y - 1) / 100 + (y - 1) / 400.

Definition days_before_month (leap : bool) (m : Z) : Z :=
  nth (Z.to_nat (m - 1)) [0; 31; 59; 90; 120; 151; 181; 212; 243; 273; 304; 334] 365 +
  (if bool_decide (2 < m) && leap then 1 else 0).

Definition daysIn (leap : bool) (m : Z) : Z :=
  if bool_decide (m = 2) && leap then 29
  else nth (Z.to_nat (m - 1)) [31; 28; 31; 30; 31; 30; 31; 31; 30; 31; 30; 31] 0.

(** Days from 0001-01-01 to the Unix epoch. *)
Definition epoch_day : Z := 719162.

(** [Time.abs]: the year of a day, by 400, 100 and 4 years; [n - n >> 2] keeps the last
    day of a long period in it. *)
Definition year_of_day (d : Z) : Z :=
  let n400 := d / 146097 in
  let d := d - 146097 * n400 in
  let n100 := d / 36524 in
  let n100 := n100 - n100 / 4 in
  let d := d - 36524 * n100 in
  let n4 := d / 1461 in
  let d := d - 1461 * n4 in
  let n1 := d / 365 in
  let n1 := n1 - n1 / 4 in
  400 * n400 + 100 * n100 + 4 * n4 + n1 + 1.

Definition month_of_yday (leap : bool) (yday : Z) : Z :=
  Z.of_nat (length (filter (λ m, days_before_month leap m ≤ yday) (seqZ 1 12))).

Record Civil := mkCivil {
  c_year : Z; c_month : Z; c_day : Z; c_hour : Z; c_min : Z; c_sec : Z; c_nsec : Z
}.

Definition civil_of_time (t : Z) : Civil :=
  let s := t / nsec in
  let d := s / 86400 + epoch_day in
  let y := year_of_day d in
  let yday := d - days_before_year y in
  let m := month_of_yday (is_leap y) yday in
  let r := s mod 86400 in
  mkCivil y m (yday - days_before_month (is_leap y) m + 1) (r / 3600) (r mod 3600 / 60) (r mod 60) (t mod nsec).

(** [time.Date(..., time.UTC)] of fields in their ranges. *)
Definition Date (c : Civil) : Z :=
  let d := days_before_year (c_year c) + days_before_month (is_leap (c_year c)) (c_month c) + c_day c - 1 in
  ((d - epoch_day) * 86400 + c_hour c * 3600 + c_min c * 60 + c_sec c) * nsec + c_nsec c.

(** ** Durations *)
Definition saturate (d : Z) : Z := Z.max int_min (Z.min int_max d).
Definition Time_Sub (t u : Z) : Z := saturate (t - u).
Definition Duration_Abs (d : Z) : Z :=
  if bool_decide (0 ≤ d) then d else if bool_decide (d = int_min) then int_max else - d.

(** ** Formatting: [appendInt], digits with a minimal width *)
Definition digit_char (d : Z) : ascii := ascii_of_N (Z.to_N (48 + d)).

Fixpoint pad_nat (width : nat) (z : Z) : string :=
  match width with
  | O => if bool_decide (z = 0) then "" else Itoa z
  | S w => pad_nat w (z / 10) +:+ String (digit_char (z mod 10)) ""
  end.
Definition pad (width : nat) (z : Z) : string :=
  if bool_decide (z < 0) then "-" +:+ pad_nat width (- z) else pad_nat width z.

(** Layout 20060102150405 *)
Definition format_compact (t : Z) : string :=
  let c := civil_of_time t in
  pad 4 (c_year c) +:+ pad 2 (c_month c) +:+ pad 2 (c_day c) +:+
  pad 2 (c_hour c) +:+ pad 2 (c_min c) +:+ pad 2 (c_sec c).

(** Layout 2006-01-02T15:04:05Z07:00 of an instant in UTC *)
Definition format_rfc3339 (t : Z) : string :=
  let c := civil_of_time t in
  pad 4 (c_year c) +:+ "-" +:+ pad 2 (c_month c) +:+ "-" +:+ pad 2 (c_day c) +:+ "T" +:+
  pad 2 (c_hour c) +:+ ":" +:+ pad 2 (c_min c) +:+ ":" +:+ pad 2 (c_sec c) +:+ "Z".

(** ** Parsing: one function per element of a layout, each returns the rest *)
Definition parser (A : Type) := string → option (A * string).

Definition skip_char (c : ascii) (s : string) : option string :=
  match s with String d s' => if bool_decide (c = d) then Some s' else None | EmptyString => None end.

Definition getnum (fixed : bool) : parser Z := λ s,
  match s with
  | EmptyString => None
  | String a s1 =>
      d1 ← digit_val a;
      match s1 with
      | String b s2 =>
          match digit_val b with
          | Some d2 => Some (d1 * 10 + d2, s2)
          | None => if fixed then None else Some (d1, s1)
          end
      | EmptyString => if fixed then None else Some (d1, s1)
      end
  end.

Definition get_in (lo hi : Z) (fixed : bool) : parser Z := λ s,
  '(n, s') ← getnum fixed s;
  if bool_decide (lo ≤ n < hi) then Some (n, s') else None.

Definition get_year : parser Z := λ s,
  match s with
  | String a (String b (String c (String d s'))) =>
      n ← parse_digits 0 (String a (String b (String c (String d ""))));
      Some (n, s')
  | _ => None
  end.

Fixpoint span_digits (s : string) : string * string :=
  match s with
  | String c s' => if is_digit c then let '(a, b) := span_digits s' in (String c a, b) else ("", s)
  | EmptyString => ("", "")
  end.

Fixpoint str_take (n : nat) (s : string) : string :=
  match n, s with
  | S n', String c s' => String c (str_take n' s')
  | _, _ => ""
  end.

(** A fraction that the layout does not mention is accepted after the seconds; digits
    beyond the ninth are dropped. *)
Definition get_fraction : parser Z := λ s,
  match s with
  | String p s1 =>
      if bool_decide (p = ","%char) || bool_decide (p = "."%char) then
        match span_digits s1 with
        | ("", _) => Some (0, s)
        | (ds, rest) =>
            let ds := str_take 9 ds in
            n ← parse_digits 0 ds;
            Some (n * 10 ^ (9 - Z.of_nat (String.length ds)), rest)
        end
      else Some (0, s)
  | EmptyString => Some (0, s)
  end.

(** Z07:00 *)
Definition get_zone : parser Z := λ s,
  match s with
  | EmptyString => None
  | String sign s1 =>
      if bool_decide (sign = "Z"%char) then Some (0, s1) else
      match s1 with
      | String a (String b (String colon (String c (String d s')))) =>
          if negb (bool_decide (colon = ":"%char)) then None else
          '(hr, _) ← getnum true (String a (String b ""));
          '(mm, _) ← getnum true (String c (String d ""));
          if bool_decide (24 < hr) || bool_decide (60 < mm) then None
          else if bool_decide (sign = "+"%char) then Some ((hr * 60 + mm) * 60, s')
          else if bool_decide (sign = "-"%char) then Some (- ((hr * 60 + mm) * 60), s')
          else None
      | _ => None
      end
  end.

(** The date must exist; nothing may follow it. *)
Definition finish (c : Civil) (offset : Z) (rest : string) : option Z :=
  if bool_decide (rest = "") && bool_decide (1 ≤ c_day c ≤ daysIn (is_leap (c_year c)) (c_month c))
  then Some (Date c - offset * nsec) else None.

Definition parse_compact (s : string) : option Z :=
  '(y, s) ← get_year s;
  '(mo, s) ← get_in 1 13 true s;
  '(d, s) ← getnum true s;
  '(h, s) ← get_in 0 24 false s;
  '(mi, s) ← get_in 0 60 true s;
  '(se, s) ← get_in 0 60 true s;
  '(ns, s) ← get_fraction s;
  finish (mkCivil y mo d h mi se ns) 0 s.

Definition parse_rfc3339 (s : string) : option Z :=
  '(y, s) ← get_year s;
  s ← skip_char "-" s; '(mo, s) ← get_in 1 13 true s;
  s ← skip_char "-" s; '(d, s) ← getnum true s;
  s ← skip_char "T" s; '(h, s) ← get_in 0 24 false s;
  s ← skip_char ":" s; '(mi, s) ← get_in 0 60 true s;
  s ← skip_char ":" s; '(se, s) ← get_in 0 60 true s;
  '(ns, s) ← get_fraction s;
  '(off, s) ← get_zone s;
  finish (mkCivil y mo d h mi se ns) off s.

Definition of_parse (o : option Z) : result Z :=
  match o with Some t => Ok t | None => Err (ErrNew "parsing time") end.

(** ** Lemmas: the calendar *)
(** Four periods of [p] days and one more: the last day belongs to the fourth. *)
Lemma period_step p d : 0 < p → 0 ≤ d ≤ 4 * p →
  let n := d / p - d / p / 4 in
  0 ≤ n ≤ 3 ∧ p * n ≤ d ∧ (d < p * n + p ∨ n = 3).
Proof.
  intros Hp Hd. cbv zeta. pose proof (Z.div_mod d p ltac:(lia)). pose proof (Z.mod_pos_bound d p ltac:(lia)).
  remember (d / p) as q eqn:Hq. remember (d mod p) as r eqn:Hr. clear Hq Hr.
  assert (q = 0 ∨ q = 1 ∨ q = 2 ∨ q = 3 ∨ q = 4) as [->|[->|[->|[->| ->]]]] by nia.
  all: match goal with |- context [?a - ?a / 4] =>
    let v := eval vm_compute in (a - a / 4) in change (a - a / 4) with v end; lia.
Qed.

(** The position of day [d] in the cycle of 400 years. *)
Lemma year_decompose d : ∃ n400 n100 n4 n1 r,
  year_of_day d = 400 * n400 + 100 * n100 + 4 * n4 + n1 + 1 ∧
  d = 146097 * n400 + 36524 * n100 + 1461 * n4 + 365 * n1 + r ∧
  0 ≤ n100 ≤ 3 ∧ 0 ≤ n4 ≤ 24 ∧ 0 ≤ n1 ≤ 3 ∧ 0 ≤ r ∧
  (r < 365 ∨ (r = 365 ∧ n1 = 3 ∧ (n4 < 24 ∨ n100 = 3))).
Proof.
  unfold year_of_day. cbv zeta.
  pose proof (Z.mod_eq d 146097 ltac:(lia)) as Hm. pose proof (Z.mod_pos_bound d 146097 ltac:(lia)) as B1.
  rewrite <- Hm. remember (d mod 146097) as d1 eqn:Hd1. clear Hd1.
  destruct (period_step 36524 d1 ltac:(lia) ltac:(lia)) as (H1 & H2 & H3).
  remember (d1 / 36524 - d1 / 36524 / 4) as n100 eqn:E. clear E.
  remember (d1 - 36524 * n100) as d2 eqn:Hd2.
  pose proof (Z.mod_eq d2 1461 ltac:(lia)) as Hm2. pose proof (Z.mod_pos_bound d2 1461 ltac:(lia)) as B2.
  rewrite <- Hm2. remember (d2 mod 1461) as d3 eqn:Hd3. clear Hd3.
  destruct (period_step 365 d3 ltac:(lia) ltac:(lia)) as (H4 & H5 & H6).
  remember (d3 / 365 - d3 / 365 / 4) as n1 eqn:E. clear E.
  exists (d / 146097), n100, (d2 / 1461), n1, (d3 - 365 * n1). split; [reflexivity|].
  remember (d / 146097) as a. remember (d2 / 1461) as b. clear Heqa Heqb. lia.
Qed.

Lemma year_of_day_spec d :
  days_before_year (year_of_day d) ≤ d < days_before_year (year_of_day d + 1).
Proof.
  destruct (year_decompose d) as (a & b & c & e & r & -> & -> & Hb & Hc & He & Hr & Hlast).
  unfold days_before_year.
  replace (400 * a + 100 * b + 4 * c + e + 1 - 1) with (400 * a + 100 * b + 4 * c + e) by lia.
  replace (400 * a + 100 * b + 4 * c + e + 1 + 1 - 1) with (400 * a + 100 * b + 4 * c + e + 1) by lia.
  assert ((400 * a + 100 * b + 4 * c + e) / 4 = 100 * a + 25 * b + c) as -> by (Z.to_euclidean_division_equations; lia).
  assert ((400 * a + 100 * b + 4 * c + e) / 100 = 4 * a + b) as -> by (Z.to_euclidean_division_equations; lia).
  assert ((400 * a + 100 * b + 4 * c + e) / 400 = a) as -> by (Z.to_euclidean_division_equations; lia).
  Z.to_euclidean_division_equations. lia.
Qed.

Lemma is_leap_days y :
  days_before_year (y + 1) - days_before_year y = if is_leap y then 366 else 365.
Proof.
  unfold days_before_year, is_leap. replace (y + 1 - 1) with y by lia.
  destruct (decide (y mod 4 = 0)), (decide (y mod 100 = 0)), (decide (y mod 400 = 0));
    rewrite ?bool_decide_true, ?bool_decide_false by done; cbn;
    Z.to_euclidean_division_equations; lia.
Qed.

Definition month_fits (leap : bool) (yday : Z) : Prop :=
  let m := month_of_yday leap yday in
  1 ≤ m ≤ 12 ∧ days_before_month leap m ≤ yday < days_before_month leap m + daysIn leap m.

#[local] Instance month_fits_dec leap yday : Decision (month_fits leap yday).
Proof. unfold month_fits. apply _. Defined.

Lemma month_of_yday_spec (leap : bool) (yday : Z) :
  0 ≤ yday < (if leap then 366 else 365) → month_fits leap yday.
Proof.
  intros Hy. assert (Forall (month_fits leap) (seqZ 0 (if leap then 366 else 365))) as Hall.
  { destruct leap; refine (bool_decide_unpack _ _); vm_compute; exact I. }
  rewrite Forall_forall in Hall. apply Hall, elem_of_seqZ. lia.
Qed.

(** The fields of an instant are in their ranges, and name it. *)
Lemma civil_of_time_spec t : let c := civil_of_time t in
  Date c = t ∧ 1 ≤ c_month c ≤ 12 ∧ 1 ≤ c_day c ≤ daysIn (is_leap (c_year c)) (c_month c) ∧
  0 ≤ c_hour c < 24 ∧ 0 ≤ c_min c < 60 ∧ 0 ≤ c_sec c < 60 ∧ 0 ≤ c_nsec c < nsec.
Proof.
  unfold civil_of_time. set (s := t / nsec). set (d := s / 86400 + epoch_day).
  pose proof (year_of_day_spec d) as Hy. set (y := year_of_day d) in *.
  pose proof (is_leap_days y) as Hl.
  destruct (month_of_yday_spec (is_leap y) (d - days_before_year y)) as [Hm Hd]; [destruct (is_leap y); lia|].
  set (m := month_of_yday _ _) in *. cbn. unfold Date. cbn.
  assert (t = s * nsec + t mod nsec) by (unfold s; pose proof (Z.div_mod t nsec); unfold nsec in *; lia).
  assert (0 ≤ t mod nsec < nsec) by (apply Z.mod_pos_bound; unfold nsec; lia).
  set (r := s mod 86400). assert (s = (d - epoch_day) * 86400 + r) as Hs.
  { unfold d, r. pose proof (Z.div_mod s 86400). lia. }
  assert (0 ≤ r < 86400) by (apply Z.mod_pos_bound; lia).
  assert (r = r / 3600 * 3600 + r mod 3600 / 60 * 60 + r mod 60) as Hr
    by (Z.to_euclidean_division_equations; lia).
  split_and!; try lia; try (Z.to_euclidean_division_equations; lia).
Qed.

(** ** Lemmas: printing and parsing *)
Lemma digit_val_char d : 0 ≤ d < 10 → digit_val (digit_char d) = Some d.
Proof.
  intros Hd. assert (d ∈ seqZ 0 10) as Hin by (apply elem_of_seqZ; lia).
  assert (Forall (λ d, digit_val (digit_char d) = Some d) (seqZ 0 10)) as Hall
    by (refine (bool_decide_unpack _ _); vm_compute; exact I).
  rewrite Forall_forall in Hall. by apply Hall.
Qed.

Lemma pad2_eq n : 0 ≤ n < 100 →
  pad 2 n = String (digit_char (n / 10)) (String (digit_char (n mod 10)) "").
Proof.
  intros Hn. unfold pad. rewrite bool_decide_false by lia. cbn [pad_nat].
  assert (n / 10 / 10 = 0) as -> by (Z.to_euclidean_division_equations; lia).
  rewrite bool_decide_true by done. by rewrite (Z.mod_small (n / 10)) by (Z.to_euclidean_division_equations; lia).
Qed.
Lemma pad4_eq n : 0 ≤ n < 10000 →
  pad 4 n = String (digit_char (n / 1000)) (String (digit_char (n / 100 mod 10))
    (String (digit_char (n / 10 mod 10)) (String (digit_char (n mod 10)) ""))).
Proof.
  intros Hn. unfold pad. rewrite bool_decide_false by lia. cbn [pad_nat].
  assert (n / 10 / 10 / 10 / 10 = 0) as -> by (Z.to_euclidean_division_equations; lia).
  rewrite bool_decide_true by done.
  replace (n / 10 / 10) with (n / 100) by (Z.to_euclidean_division_equations; lia).
  replace (n / 100 / 10) with (n / 1000) by (Z.to_euclidean_division_equations; lia).
  by rewrite (Z.mod_small (n / 1000)) by (Z.to_euclidean_division_equations; lia).
Qed.

Lemma getnum_pad fixed n s : 0 ≤ n < 100 → getnum fixed (pad 2 n +:+ s) = Some (n, s).
Proof.
  intros Hn. rewrite pad2_eq, !str_app_cons by done. unfold getnum.
  change ("" +:+ s) with s.
  rewrite !digit_val_char by (Z.to_euclidean_division_equations; lia). cbn.
  do 2 f_equal. Z.to_euclidean_division_equations. lia.
Qed.
Lemma get_in_pad lo hi fixed n s : 0 ≤ n < 100 → lo ≤ n < hi →
  get_in lo hi fixed (pad 2 n +:+ s) = Some (n, s).
Proof. intros Hn Hr. unfold get_in. rewrite getnum_pad by done. cbn. by rewrite bool_decide_true. Qed.
Lemma get_year_pad n s : 0 ≤ n < 10000 → get_year (pad 4 n +:+ s) = Some (n, s).
Proof.
  intros Hn. rewrite pad4_eq, !str_app_cons by done. change ("" +:+ s) with s. cbn.
  rewrite digit_val_char by (Z.to_euclidean_division_equations; lia). cbn.
  rewrite digit_val_char by (Z.to_euclidean_division_equations; lia). cbn.
  rewrite digit_val_char by (Z.to_euclidean_division_equations; lia). cbn.
  rewrite digit_val_char by (Z.to_euclidean_division_equations; lia). cbn.
  do 2 f_equal. Z.to_euclidean_division_equations. lia.
Qed.

(** An instant in the years the layouts can write. *)
Definition printable (t : Z) : Prop := 0 ≤ c_year (civil_of_time t) < 10000.
#[export] Instance printable_dec t : Decision (printable t).
Proof. unfold printable. apply _. Defined.

Lemma daysIn_le leap m : daysIn leap m ≤ 31.
Proof.
  unfold daysIn. destruct (bool_decide (m = 2) && leap); [lia|].
  set (l := [31; 28; 31; 30; 31; 30; 31; 31; 30; 31; 30; 31]).
  assert (∀ v, In v l → v ≤ 31) as Hl.
  { intros v Hv. unfold l in Hv. cbn in Hv. lia. }
  destruct (nth_in_or_default (Z.to_nat (m - 1)) l 0) as [Hin| ->]; [by apply Hl|lia].
Qed.

Lemma finish_civil t off : finish (civil_of_time t) off "" = Some (t - off * nsec).
Proof.
  destruct (civil_of_time_spec t) as (Hd & Hm & Hday & _). unfold finish.
  rewrite !bool_decide_true by done. cbn. by rewrite Hd.
Qed.

(** The instant a layout without fractions can name. *)
Definition truncate_sec (t : Z) : Z := t / nsec * nsec.

Lemma civil_truncate t : let c := civil_of_time t in
  mkCivil (c_year c) (c_month c) (c_day c) (c_hour c) (c_min c) (c_sec c) 0 = civil_of_time (truncate_sec t).
Proof.
  unfold civil_of_time, truncate_sec. cbn.
  rewrite Z.div_mul by done. by rewrite Z.mod_mul by done.
Qed.

Lemma parse_format_compact t : printable t → parse_compact (format_compact t) = Some (truncate_sec t).
Proof.
  intros Hy. destruct (civil_of_time_spec t) as (_ & Hm & Hday & Hh & Hmi & Hs & _).
  pose proof (daysIn_le (is_leap (c_year (civil_of_time t))) (c_month (civil_of_time t))).
  unfold parse_compact, format_compact. rewrite get_year_pad by done. cbn [mbind option_bind].
  rewrite get_in_pad by lia. cbn [mbind option_bind]. rewrite getnum_pad by lia. cbn [mbind option_bind].
  rewrite get_in_pad by lia. cbn [mbind option_bind]. rewrite get_in_pad by lia. cbn [mbind option_bind].
  rewrite <- (str_app_nil_r (pad 2 (c_sec _))), get_in_pad by lia. cbn [mbind option_bind get_fraction].
  rewrite civil_truncate, finish_civil. f_equal. lia.
Qed.

Lemma is_digit_char d : 0 ≤ d < 10 → is_digit (digit_char d) = true.
Proof.
  intros Hd. assert (d ∈ seqZ 0 10) as Hin by (apply elem_of_seqZ; lia).
  assert (Forall (λ d, is_digit (digit_char d) = true) (seqZ 0 10)) as Hall
    by (refine (bool_decide_unpack _ _); vm_compute; exact I).
  rewrite Forall_forall in Hall. by apply Hall.
Qed.
Lemma pad2_digits n : 0 ≤ n < 100 → str_all is_digit (pad 2 n) = true.
Proof.
  intros Hn. rewrite pad2_eq by done. cbn.
  by rewrite !is_digit_char by (Z.to_euclidean_division_equations; lia).
Qed.
Lemma pad4_digits n : 0 ≤ n < 10000 → str_all is_digit (pad 4 n) = true.
Proof.
  intros Hn. rewrite pad4_eq by done. cbn [str_all].
  rewrite !is_digit_char by (Z.to_euclidean_division_equations; lia). done.
Qed.
Lemma format_compact_digits t : printable t → str_all is_digit (format_compact t) = true.
Proof.
  intros Hy. destruct (civil_of_time_spec t) as (_ & Hm & Hday & Hh & Hmi & Hs & _).
  pose proof (daysIn_le (is_leap (c_year (civil_of_time t))) (c_month (civil_of_time t))).
  unfold format_compact. rewrite !str_all_app, pad4_digits, !pad2_digits by (done || lia). done.
Qed.

Lemma skip_char_app c s : skip_char c (String c "" +:+ s) = Some s.
Proof. rewrite str_app_cons. cbn. by rewrite bool_decide_true. Qed.

Lemma parse_format_rfc3339 t : printable t → parse_rfc3339 (format_rfc3339 t) = Some (truncate_sec t).
Proof.
  intros Hy. destruct (civil_of_time_spec t) as (_ & Hm & Hday & Hh & Hmi & Hs & _).
  pose proof (daysIn_le (is_leap (c_year (civil_of_time t))) (c_month (civil_of_time t))).
  unfold parse_rfc3339, format_rfc3339. rewrite get_year_pad by done.
  repeat (cbn [mbind option_bind];
    first [rewrite skip_char_app | rewrite get_in_pad by lia | rewrite getnum_pad by lia]).
  cbn [mbind option_bind]. assert (get_fraction "Z" = Some (0, "Z")) as -> by reflexivity. cbn [mbind option_bind].
  assert (get_zone "Z" = Some (0, "")) as -> by reflexivity. cbn [mbind option_bind].
  rewrite civil_truncate, finish_civil. f_equal. lia.
Qed.

(** ** Lemmas: how a parsed date ends *)
Definition leaves_suffix {A} (p : parser A) : Prop :=
  ∀ s a s', p s = Some (a, s') → ∃ pre, s = pre +:+ s'.

Lemma getnum_suffix fixed : leaves_suffix (getnum fixed).
Proof.
  intros [|a s1] n s'; cbn; [done|]. destruct (digit_val a) as [d1|]; cbn; [|done].
  destruct s1 as [|b s2].
  - destruct fixed; [done|]. intros [= _ <-]. by exists (String a "").
  - destruct (digit_val b) as [d2|].
    + intros [= _ <-]. by exists (String a (String b "")).
    + destruct fixed; [done|]. intros [= _ <-]. by exists (String a "").
Qed.
Lemma get_in_suffix lo hi fixed : leaves_suffix (get_in lo hi fixed).
Proof.
  intros s a s'. unfold get_in. destruct (getnum fixed s) as [[n r]|] eqn:E; cbn; [|done].
  case_bool_decide; [|done]. intros [= <- <-]. by eapply getnum_suffix.
Qed.
Lemma get_year_suffix : leaves_suffix get_year.
Proof.
  intros s n s'. unfold get_year. destruct s as [|a [|b [|c [|d r]]]]; try done.
  destruct (parse_digits _ _); cbn; [|done]. intros [= _ <-]. by exists (String a (String b (String c (String d "")))).
Qed.
Lemma skip_char_suffix c s s' : skip_char c s = Some s' → ∃ pre, s = pre +:+ s'.
Proof. destruct s as [|d r]; cbn; [done|]. case_bool_decide; [|done]. intros [= <-]. by exists (String d ""). Qed.
Lemma span_digits_app s : s = (span_digits s).1 +:+ (span_digits s).2.
Proof.
  induction s as [|c s IH]; [done|]. cbn. destruct (is_digit c); [|done].
  destruct (span_digits s) as [a b]. cbn in *. rewrite str_app_cons. congruence.
Qed.
Lemma get_fraction_suffix : leaves_suffix get_fraction.
Proof.
  intros [|p s] n s'; cbn; [intros [= _ <-]; by exists ""|].
  destruct (_ || _); [|intros [= _ <-]; by exists ""].
  pose proof (span_digits_app s) as Hs. destruct (span_digits s) as [[|c ds] r]; cbn [fst snd] in Hs.
  { intros [= _ <-]. by exists "". }
  destruct (parse_digits _ _); cbn; [|done]. intros [= _ <-]. exists (String p (String c ds)).
  rewrite str_app_cons. by rewrite Hs.
Qed.

Lemma digit_val_is_digit c d : digit_val c = Some d → is_digit c = true.
Proof. unfold digit_val. by destruct (is_digit c). Qed.

(** A zone ends with its Z or with a digit. *)
Lemma get_zone_last s off : get_zone s = Some (off, "") →
  ∃ c, str_last s = Some c ∧ (c = "Z"%char ∨ is_digit c = true).
Proof.
  destruct s as [|z s]; [done|]. cbn [get_zone]. case_bool_decide as Hz.
  { intros [= _ ->]. subst z. eexists. by split; [|left]. }
  destruct s as [|a [|b [|colon [|c [|d s']]]]]; try done.
  destruct (negb _); [done|]. destruct (getnum true (String a _)) as [[hr ?]|]; [|done]. cbn [mbind option_bind].
  destruct (getnum true (String c _)) as [[mm ?]|] eqn:Hmm; [|done]. cbn [mbind option_bind]. intros Hs.
  assert (s' = "") as -> by (repeat case_match; simplify_eq; done). clear Hs.
  exists d. split; [done|right]. unfold getnum in Hmm. destruct (digit_val c); [|done]. cbn in Hmm.
  destruct (digit_val d) eqn:Hd; [|done]. by eapply digit_val_is_digit.
Qed.

Lemma parse_rfc3339_last s t : parse_rfc3339 s = Some t →
  ∃ c, str_last s = Some c ∧ (c = "Z"%char ∨ is_digit c = true).
Proof.
  unfold parse_rfc3339. intros Hp.
  assert (∃ pre z off, s = pre +:+ z ∧ get_zone z = Some (off, "")) as (pre & z & off & -> & Hz).
  { repeat (match type of Hp with
      | (get_year _ ≫= _) = _ => let E := fresh "E" in destruct (get_year _) as [[? ?]|] eqn:E; [|done];
          apply get_year_suffix in E as [? ->]
      | (skip_char _ _ ≫= _) = _ => let E := fresh "E" in destruct (skip_char _ _) eqn:E; [|done];
          apply skip_char_suffix in E as [? ->]
      | (get_in _ _ _ _ ≫= _) = _ => let E := fresh "E" in destruct (get_in _ _ _ _) as [[? ?]|] eqn:E; [|done];
          apply get_in_suffix in E as [? ->]
      | (getnum _ _ ≫= _) = _ => let E := fresh "E" in destruct (getnum _ _) as [[? ?]|] eqn:E; [|done];
          apply getnum_suffix in E as [? ->]
      | (get_fraction _ ≫= _) = _ => let E := fresh "E" in destruct (get_fraction _) as [[? ?]|] eqn:E; [|done];
          apply get_fraction_suffix in E as [? ->]
      end; cbn [mbind option_bind] in Hp).
    destruct (get_zone _) as [[off rest]|] eqn:E; [|done]. cbn [mbind option_bind] in Hp.
    unfold finish in Hp. case_bool_decide as Hr; [subst rest|done].
    rewrite !str_app_assoc. eauto. }
  destruct z as [|c z]; [done|]. destruct (get_zone_last _ _ Hz) as (d & Hd & Hc).
  exists d. split; [|done]. by rewrite str_last_app.
Qed.
