(* ===== verification/GoPath.v ===== *)
(** * The Go standard library used by the operator: path and path/filepath

    Slash-separated paths, lexically processed.  [filepath] behaves as [path] on the
    systems the operator runs on. *)

From Stdlib Require Import Ascii.
From S2P Require Import Prelude GoStrings.

Local Open Scope Z_scope.

Definition slash : ascii := "/".

Definition IsAbs (p : string) : bool := HasPrefix p "/".

Fixpoint strip_slashes (s : string) : string :=
  match s with
  | String c s' => if bool_decide (c = slash) then strip_slashes s' else s
  | EmptyString => ""
  end.

(** The part after the last slash. *)
Definition last_element (s : string) : string := default "" (last (Split s "/")).

(** [path.Base]: trailing slashes are dropped first. *)
Definition Base (p : string) : string :=
  if bool_decide (p = "") then "."
  else
    let q := String.rev (strip_slashes (String.rev p)) in
    if bool_decide (q = "") then "/" else last_element q.

(** [path.Clean]: one pass over the elements with a stack of those kept. *)
Fixpoint clean_elements (rooted : bool) (stack : list string) (l : list string) : list string :=
  match l with
  | [] => rev stack
  | e :: l' =>
      if bool_decide (e = "") || bool_decide (e = ".") then clean_elements rooted stack l'
      else if bool_decide (e = "..") then
        match stack with
        | top :: stack' =>
            if bool_decide (top = "..") then clean_elements rooted (".." :: stack) l'
            else clean_elements rooted stack' l'
        | [] => clean_elements rooted (if rooted then [] else [".."]) l'
        end
      else clean_elements rooted (e :: stack) l'
  end.

Definition Clean (p : string) : string :=
  let rooted := IsAbs p in
  let body := Join (clean_elements rooted [] (Split p "/")) "/" in
  if rooted then "/" +:+ body else if bool_decide (body = "") then "." else body.

(** [path.Join] of two elements; empty ones are ignored. *)
Definition path_Join (a b : string) : string :=
  match filter (λ s, s ≠ "") [a; b] with
  | [] => ""
  | l => Clean (Join l "/")
  end.

(** ** Lemmas *)
Lemma last_element_no_slash s : ¬ str_In slash s → last_element s = s.
Proof. intros Hs. unfold last_element. change "/" with (String slash "").
  by rewrite Split_no_sep. Qed.

Lemma strip_slashes_head c s : c ≠ slash → strip_slashes (String c s) = String c s.
Proof. intros Hc. cbn. by rewrite bool_decide_false. Qed.

Lemma str_In_rev c s : str_In c (String.rev s) ↔ str_In c s.
Proof.
  induction s as [|d s IH]; [done|]. rewrite rev_cons, str_In_app, IH. cbn. tauto.
Qed.

(** A name without a slash is its own base. *)
Lemma Base_name s : s ≠ "" → ¬ str_In slash s → Base s = s.
Proof.
  intros Hne Hs. unfold Base. rewrite bool_decide_false by done.
  assert (strip_slashes (String.rev s) = String.rev s) as ->.
  { destruct (String.rev s) as [|c r] eqn:Hr; [done|]. apply strip_slashes_head. intros ->.
    apply Hs, str_In_rev. rewrite Hr. by left. }
  rewrite rev_rev, bool_decide_false by done. by apply last_element_no_slash.
Qed.

Lemma last_element_app q n : ¬ str_In slash n → last_element (q +:+ String slash n) = n.
Proof.
  intros Hn. unfold last_element. change "/" with (String slash "").
  rewrite Split_app, (Split_no_sep n) by done. by rewrite last_snoc.
Qed.

(** The base of a prefixed name. *)
Lemma Base_app q n : n ≠ "" → ¬ str_In slash n → Base (q +:+ String slash n) = n.
Proof.
  intros Hne Hn. unfold Base. rewrite bool_decide_false by by destruct q.
  assert (strip_slashes (String.rev (q +:+ String slash n)) = String.rev (q +:+ String slash n)) as ->.
  { rewrite rev_app, rev_cons. destruct (String.rev n) as [|c r] eqn:Hr.
    - assert (n = "") by (by rewrite <- (rev_rev n), Hr). done.
    - rewrite !str_app_cons. apply strip_slashes_head. intros ->. apply Hn, str_In_rev. rewrite Hr. by left. }
  rewrite rev_rev, bool_decide_false by by destruct q. by apply last_element_app.
Qed.

(** A name of a file, without a directory. *)
Definition plain_name (n : string) : bool :=
  negb (bool_decide (n = "")) && negb (bool_decide (n = ".")) && negb (bool_decide (n = "..")) &&
  bool_decide (¬ str_In slash n).

Lemma clean_elements_snoc rooted n : plain_name n = true → ∀ l stack,
  clean_elements rooted stack (l ++ [n]) = clean_elements rooted stack l ++ [n].
Proof.
  unfold plain_name. rewrite !andb_true_iff, !negb_true_iff, !bool_decide_eq_false.
  intros [[[Hn Hd] Hdd] _]. induction l as [|e l IH]; intros stack; cbn.
  - by rewrite !bool_decide_false by done.
  - destruct (bool_decide (e = "") || bool_decide (e = ".")); [apply IH|].
    destruct (bool_decide (e = "..")); [|apply IH].
    destruct stack as [|top stack]; [apply IH|]. destruct (bool_decide (top = "..")); apply IH.
Qed.

(** A file joined to a directory keeps its name. *)
Lemma last_element_path_Join dir n : plain_name n = true → last_element (path_Join dir n) = n.
Proof.
  intros Hp. pose proof Hp as Hp'. unfold plain_name in Hp'.
  rewrite !andb_true_iff, !negb_true_iff, !bool_decide_eq_false, bool_decide_eq_true in Hp'.
  destruct Hp' as [[[Hn Hd] Hdd] Hs].
  assert (∀ p, (∃ l, Split p "/" = l ++ [n]) → last_element (Clean p) = n) as Hclean.
  { intros p [l Hl]. unfold Clean. rewrite Hl, clean_elements_snoc by done.
    set (els := clean_elements (IsAbs p) [] l).
    assert (∃ q, Join (els ++ [n]) "/" = n ∨ Join (els ++ [n]) "/" = q +:+ String slash n) as [q Hq].
    { destruct els as [|e els]; [by exists ""; left|]. exists (Join (e :: els) "/"). right.
      apply Join_snoc. done. }
    destruct (IsAbs p).
    - destruct Hq as [->| ->]; [apply (last_element_app "" n Hs)|].
      apply (last_element_app ("/" +:+ q) n Hs).
    - rewrite bool_decide_false by (destruct Hq as [->| ->]; [done|by destruct q]).
      destruct Hq as [->| ->]; [by apply last_element_no_slash|by apply last_element_app]. }
  unfold path_Join. destruct (decide (dir = "")) as [->|Hdir].
  - rewrite filter_cons_False by auto. rewrite filter_cons_True by done. apply Hclean.
    exists []. cbn. change "/" with (String slash ""). by apply Split_no_sep.
  - rewrite filter_cons_True by done. rewrite filter_cons_True by done. apply Hclean.
    exists (Split dir "/"). change (filter _ []) with (@nil string).
    change (Join [dir; n] "/") with (dir +:+ String slash n). change "/" with (String slash "").
    by rewrite Split_app, (Split_no_sep n).
Qed.
