(* ===== verification/GoNet.v ===== *)
(** * Package net: textual IP addresses

    [net.ParseIP]: dotted IPv4, and IPv6 with "::" and an embedded IPv4 address, no zones.
    An address is its eight 16-bit groups, an IPv4 address in its IPv6-mapped form. *)

From Stdlib Require Import Ascii.
From S2P Require Import Prelude GoStrings.

Local Open Scope Z_scope.

(** ** IPv4 *)
(** One octet: no leading zero, at most 255. *)
Definition parse_octet (s : string) : option Z :=
  match s with
  | EmptyString => None
  | String "0" EmptyString => Some 0
  | String "0" _ => None
  | _ => n ← parse_nat s; guard (n ≤ 255);; Some n
  end.

Definition parse_ipv4 (s : string) : option (list Z) :=
  match Split s "." with
  | [a; b; c; d] =>
      a ← parse_octet a; b ← parse_octet b; c ← parse_octet c; d ← parse_octet d;
      Some [a * 256 + b; c * 256 + d]
  | _ => None
  end.

(** ** IPv6 *)
Definition hex_val (c : ascii) : option Z :=
  let n := Z.of_N (byte c) in
  if bool_decide (48 ≤ n ≤ 57) then Some (n - 48)
  else if bool_decide (97 ≤ n ≤ 102) then Some (n - 87)
  else if bool_decide (65 ≤ n ≤ 70) then Some (n - 55)
  else None.

(** The longest prefix of hexadecimal digits, as their values, and the rest. *)
Fixpoint span_hex (s : string) : list Z * string :=
  match s with
  | EmptyString => ([], "")
  | String c s' =>
      match hex_val c with
      | Some d => let '(ds, r) := span_hex s' in (d :: ds, r)
      | None => ([], s)
      end
  end.
Definition hex_group (ds : list Z) : Z := foldl (λ acc d, acc * 16 + d) 0 ds.

(** The loop over the groups: those read so far, and how many came before a "::".  Each
    iteration adds a group and there is room for eight. *)
Fixpoint parse_ipv6_loop (room : nat) (groups : list Z) (ellipsis : option nat) (s : string) :
    option (list Z * option nat) :=
  match room with
  | O => if s is EmptyString then Some (groups, ellipsis) else None
  | S room =>
      let '(ds, rest) := span_hex s in
      if bool_decide (ds = []) || bool_decide (4 < length ds)%nat then None else
      let groups' := groups ++ [hex_group ds] in
      match rest with
      | EmptyString => Some (groups', ellipsis)
      | String "." _ =>
          if (bool_decide (ellipsis = None) && negb (bool_decide (length groups = 6%nat))) ||
             bool_decide (6 < length groups)%nat then None
          else v4 ← parse_ipv4 s; Some (groups ++ v4, ellipsis)
      | String ":" EmptyString => None
      | String ":" (String ":" rest) =>
          if ellipsis is Some _ then None
          else if rest is EmptyString then Some (groups', Some (length groups'))
          else parse_ipv6_loop room groups' (Some (length groups')) rest
      | String ":" rest => parse_ipv6_loop room groups' ellipsis rest
      | _ => None
      end
  end.

(** The zeros of "::", at least one group. *)
Definition expand (p : list Z * option nat) : option (list Z) :=
  let '(groups, ellipsis) := p in
  match ellipsis with
  | None => guard (length groups = 8%nat);; Some groups
  | Some n =>
      guard (length groups < 8)%nat;;
      Some (take n groups ++ replicate (8 - length groups) 0 ++ drop n groups)
  end.

Definition parse_ipv6 (s : string) : option (list Z) :=
  if HasPrefix s "::" then
    let s := TrimPrefix s "::" in
    if bool_decide (s = "") then Some (replicate 8 0) else parse_ipv6_loop 8 [] (Some 0%nat) s ≫= expand
  else parse_ipv6_loop 8 [] None s ≫= expand.

(** ** ParseIP *)
(** The first of '.', ':' and '%' tells the kind of address. *)
Fixpoint ip_kind (s : string) : option ascii :=
  match s with
  | EmptyString => None
  | String c s' => if bool_decide (c = "."%char ∨ c = ":"%char ∨ c = "%"%char) then Some c else ip_kind s'
  end.

(** An address with a zone is read by netip.ParseAddr and refused by ParseIP: both end in nil. *)
Definition ParseIP (s : string) : option (list Z) :=
  match ip_kind s with
  | Some "."%char => ([0; 0; 0; 0; 0; 65535] ++.) <$> parse_ipv4 s
  | Some ":"%char => parse_ipv6 s
  | _ => None
  end.

(** [ip.To4() != nil] *)
Definition To4 (ip : list Z) : bool := bool_decide (take 6 ip = [0; 0; 0; 0; 0; 65535]).

(** ** The text of an address has only digits, dots and colons *)
Definition ip_byte (c : ascii) : bool :=
  bool_decide (is_Some (hex_val c)) || bool_decide (c = "."%char) || bool_decide (c = ":"%char).

Lemma ip_byte_plain c : ip_byte c = true →
  plain c = true ∧ c ≠ "010"%char ∧ c ≠ "034"%char ∧ c ≠ ";"%char ∧ c ≠ "="%char.
Proof. destruct c as [[][][][][][][][]]; vm_compute; intros H; try discriminate; done. Qed.

Lemma digit_ip_byte c : is_digit c = true → ip_byte c = true.
Proof. destruct c as [[][][][][][][][]]; vm_compute; done. Qed.

Lemma parse_digits_all acc s n : parse_digits acc s = Some n → str_all is_digit s = true.
Proof.
  revert acc. induction s as [|c s IH]; intros acc; [done|]. cbn.
  intros (d & Hd & H%IH)%bind_Some. rewrite H, andb_true_r.
  unfold digit_val in Hd. by destruct (is_digit c).
Qed.

Lemma parse_octet_bytes s n : parse_octet s = Some n → str_all ip_byte s = true.
Proof.
  intros H. eapply str_all_weaken; [apply digit_ip_byte|].
  destruct (parse_nat s) as [m|] eqn:Hm; [destruct s; [done|by eapply parse_digits_all]|].
  destruct s as [|c s]; [done|]. cbn -[parse_nat] in H. rewrite Hm in H.
  repeat case_match; naive_solver.
Qed.

Lemma str_all_Join (P : ascii → bool) l c : P c = true → Forall (λ w, str_all P w = true) l →
  str_all P (Join l (String c "")) = true.
Proof.
  intros Hc. induction 1 as [|w l Hw Hl IH]; [done|]. cbn [Join]. destruct l; [done|].
  rewrite !str_all_app, Hw, IH. cbn. by rewrite Hc.
Qed.

Lemma parse_ipv4_bytes s v : parse_ipv4 s = Some v → str_all ip_byte s = true.
Proof.
  unfold parse_ipv4. intros H. rewrite <-(Join_Split s "."). apply str_all_Join; [done|].
  destruct (Split s ".") as [|a [|b [|c [|d [|]]]]]; try done.
  repeat (apply bind_Some in H as (? & ?%parse_octet_bytes & H)). by repeat constructor.
Qed.

Lemma span_hex_spec s : let '(ds, rest) := span_hex s in
  ∃ hex, s = hex +:+ rest ∧ str_all ip_byte hex = true.
Proof.
  induction s as [|c s IH]; [by exists ""|]. cbn. destruct (hex_val c) eqn:Hc.
  - destruct (span_hex s) as [ds rest], IH as (hex & -> & Hh). exists (String c hex). split; [done|].
    cbn. rewrite Hh. unfold ip_byte. by rewrite Hc.
  - by exists "".
Qed.

Lemma parse_ipv6_loop_bytes room groups ellipsis s p :
  parse_ipv6_loop room groups ellipsis s = Some p → str_all ip_byte s = true.
Proof.
  revert groups ellipsis s. induction room as [|room IH]; intros groups ellipsis s; [by destruct s|].
  cbn. pose proof (span_hex_spec s) as Hs.
  destruct (span_hex s) as [ds rest] eqn:Hrest, Hs as (hex & Hs & Hh).
  assert (str_all ip_byte rest = true → str_all ip_byte s = true) as Hall.
  { intros Hr. by rewrite Hs, str_all_app, Hh. }
  case_match; [done|]. intros Hp. destruct rest as [|c rest]; [by apply Hall|].
  destruct (decide (c = "."%char)) as [->|Hdot].
  { case_match; [done|]. apply bind_Some in Hp as (v & Hv & _). by eapply parse_ipv4_bytes. }
  destruct (decide (c = ":"%char)) as [->|Hcolon]; [|repeat case_match; congruence].
  apply Hall. cbn. destruct rest as [|d rest]; [done|].
  destruct (decide (d = ":"%char)) as [->|Hd].
  - destruct ellipsis; [done|]. destruct rest as [|a rest]; [done|]. exact (IH _ _ _ Hp).
  - assert (parse_ipv6_loop room (groups ++ [hex_group ds]) ellipsis (String d rest) = Some p) as H'
      by (repeat case_match; congruence).
    exact (IH _ _ _ H').
Qed.

Lemma ParseIP_bytes s ip : ParseIP s = Some ip → str_all ip_byte s = true ∧ s ≠ "".
Proof.
  unfold ParseIP. intros H. split; [|by intros ->].
  destruct (ip_kind s) as [c|]; [|done].
  destruct (decide (c = "."%char)) as [->|].
  { apply fmap_Some in H as (v & Hv & _). by eapply parse_ipv4_bytes. }
  destruct (decide (c = ":"%char)) as [->|]; [|repeat case_match; congruence].
  assert (∀ e s, parse_ipv6_loop 8 [] e s ≫= expand = Some ip → str_all ip_byte s = true) as Hloop.
  { intros e s' (p & Hp & _)%bind_Some. by eapply parse_ipv6_loop_bytes. }
  unfold parse_ipv6 in H. destruct (HasPrefix s "::") eqn:Hcolons; [|by eapply Hloop].
  apply HasPrefix_spec in Hcolons as [r ->]. rewrite TrimPrefix_app in H.
  rewrite str_all_app. case_bool_decide; [by subst|by rewrite (Hloop _ _ H)].
Qed.

Example ParseIP_ex :
  ParseIP "10.244.0.32" = Some [0; 0; 0; 0; 0; 65535; 2804; 32] ∧ ParseIP "10.244.00.32" = None ∧
  ParseIP "2001:db8::a1" = Some [8193; 3512; 0; 0; 0; 0; 0; 161] ∧ ParseIP "1:2:3:4:5:6:7::8" = None ∧
  ParseIP "::ffff:10.0.0.1" = Some [0; 0; 0; 0; 0; 65535; 2560; 1] ∧ ParseIP "fe80::1%eth0" = None ∧
  ParseIP "::" = Some (replicate 8 0) ∧ ParseIP "" = None.
Proof. by vm_compute. Qed.
