(* ===== verification/StatefulSet.v ===== *)
(** * pkg/statefulset: names of Pods and Services

    The names the operator derives from a MariaDB or MaxScale object: Pod names
    with their ordinal, the DNS names of Pods and Services, the inverse
    [PodIndex] and the validation of a Pod name given by a user. *)

From Stdlib Require Import Ascii.
From S2P Require Import Prelude GoStrings.

Local Open Scope Z_scope.

(** The fields of [metav1.ObjectMeta] the operator's own code reads. *)
Record ObjectMeta := mkObjectMeta {
  Name : string;
  Namespace : string;
  UID : string;
  Annotations : gmap string string;
  Labels : gmap string string
}.

Section names.
(** The process environment variable CLUSTER_NAME, empty when unset. *)
Variable CLUSTER_NAME : string.

Definition clusterName : string :=
  if bool_decide (CLUSTER_NAME = "") then "cluster.local" else CLUSTER_NAME.

Definition HeadlessServiceNameVariants (meta : ObjectMeta) (pod service : string) : list string :=
  [ pod +:+ "." +:+ service +:+ "." +:+ Namespace meta +:+ ".svc." +:+ clusterName;
    pod +:+ "." +:+ service +:+ "." +:+ Namespace meta +:+ ".svc";
    pod +:+ "." +:+ service +:+ "." +:+ Namespace meta;
    pod +:+ "." +:+ service ].

Definition ServiceFQDNWithService (meta : ObjectMeta) (service : string) : string :=
  service +:+ "." +:+ Namespace meta +:+ ".svc." +:+ clusterName.

Definition ServiceNameVariants (meta : ObjectMeta) (service : string) : list string :=
  [ ServiceFQDNWithService meta service;
    service +:+ "." +:+ Namespace meta +:+ ".svc";
    service +:+ "." +:+ Namespace meta;
    service ].

Definition ServiceFQDN (meta : ObjectMeta) : string := ServiceFQDNWithService meta (Name meta).

Definition PodName (meta : ObjectMeta) (podIndex : Z) : string :=
  Name meta +:+ "-" +:+ Itoa podIndex.

Definition PodFQDNWithService (meta : ObjectMeta) (podIndex : Z) (service : string) : string :=
  PodName meta podIndex +:+ "." +:+ ServiceFQDNWithService meta service.

Definition PodShortFQDNWithService (meta : ObjectMeta) (podIndex : Z) (service : string) : string :=
  PodName meta podIndex +:+ "." +:+ service.
End names.

Definition PodIndex (podName : string) : result Z :=
  let parts := Split podName "-" in
  match last parts with
  | None => Err (ErrNew "invalid Pod name")
  | Some part =>
      match Atoi part with
      | Ok index => Ok index
      | Err e => Err (ErrWrap "invalid Pod name" e)
      end
  end.

Definition ValidPodName (meta : ObjectMeta) (replicas : Z) (podName : string) : result unit :=
  if bool_decide (replicas < 0) then Err (ErrNew "replicas must be positive") else
  match PodIndex podName with
  | Err e => Err (ErrWrap "invalid Pod index" e)
  | Ok index =>
      if bool_decide (index < 0) || bool_decide (replicas ≤ index)
      then Err (ErrNew "index out of replicas range")
      else if HasPrefix podName (Name meta)
           then Ok tt
           else Err (ErrNew "invalid Pod name: must start with the object name")
  end.

(** [GetStorageSize]: the storage request of the first volume claim template
    with the given name.  Quantities are opaque here, [zero] being the zero
    value a Go map lookup yields for a missing key. *)
Record VolumeClaimTemplate (Q : Type) := mkVct { vct_name : string; vct_requests : gmap string Q }.
Arguments vct_name {Q} _.
Arguments vct_requests {Q} _.

Fixpoint GetStorageSize {Q} (zero : Q) (templates : list (VolumeClaimTemplate Q))
    (storageVolume : string) : option Q :=
  match templates with
  | [] => None
  | vctpl :: rest =>
      if bool_decide (vct_name vctpl = storageVolume)
      then Some (default zero (vct_requests vctpl !! "storage"))
      else GetStorageSize zero rest storageVolume
  end.

(** ** Lemmas *)
Lemma PodIndex_of_PodName meta i : 0 ≤ i ≤ int_max → PodIndex (PodName meta i) = Ok i.
Proof.
  intros Hi. unfold PodIndex, PodName.
  change (Name meta +:+ "-" +:+ Itoa i) with (Name meta +:+ String "-" (Itoa i)).
  rewrite Split_app, (Split_no_sep (Itoa i)) by (apply Itoa_no_dash; lia).
  rewrite last_snoc, Atoi_Itoa; [done|].
  unfold in_int, int_min, int_max in *. by rewrite !bool_decide_eq_true_2 by lia.
Qed.

Lemma PodName_inj meta i j : PodName meta i = PodName meta j → i = j.
Proof.
  unfold PodName. intros H. apply (inj (String.app (Name meta))) in H.
  apply Itoa_inj. change ("-" +:+ ?x) with (String "-" x) in H. by injection H.
Qed.

(** Two Pods of any two objects share a name only if they are the same Pod. *)
Lemma PodName_inj_meta meta meta' i j :
  0 ≤ i → 0 ≤ j → PodName meta i = PodName meta' j → Name meta = Name meta' ∧ i = j.
Proof.
  intros Hi Hj H. unfold PodName in H.
  change (?n +:+ "-" +:+ Itoa ?k) with (n +:+ String "-" (Itoa k)) in H.
  apply (f_equal (λ s, Split s "-")) in H.
  rewrite !Split_app, (Split_no_sep (Itoa i)), (Split_no_sep (Itoa j)) in H
    by (apply Itoa_no_dash; lia).
  apply app_inj_2 in H as [Hn Hij]; [|done]. injection Hij as Hij%Itoa_inj.
  split; [|done].
  by rewrite <-(Join_Split (Name meta) "-"), Hn, Join_Split.
Qed.

Lemma ValidPodName_Ok meta replicas podName :
  ValidPodName meta replicas podName = Ok tt ↔
    ∃ i, PodIndex podName = Ok i ∧ 0 ≤ i < replicas ∧ HasPrefix podName (Name meta) = true.
Proof.
  unfold ValidPodName. case_bool_decide as Hr.
  { split; [done|]. intros (i & _ & ? & _); lia. }
  destruct (PodIndex podName) as [i|e].
  - case_bool_decide; simpl.
    { split; [done|]. intros (? & ? & ? & _). simplify_eq; lia. }
    case_bool_decide; simpl.
    { split; [done|]. intros (? & ? & ? & _). simplify_eq; lia. }
    destruct (HasPrefix _ _) eqn:Hp.
    + split; [|done]. intros _. exists i. split; [done|]. split; [lia|done].
    + split; [done|]. intros (? & _ & _ & ?). congruence.
  - split; [done|]. intros (? & ? & _). done.
Qed.

(** ** Properties *)

(** The ordinal parsed from a Pod name is the ordinal the name was built
    from, whatever the name of the object (which may itself contain dashes), for
    every ordinal a Go int can hold. *)
Theorem pod_index_roundtrip meta i :
  0 ≤ i ≤ int_max → PodIndex (PodName meta i) = Ok i.
Proof. apply PodIndex_of_PodName. Qed.

Definition meta_ex : ObjectMeta := mkObjectMeta "mariadb-galera" "default" "0" ∅ ∅.

Lemma pod_index_roundtrip_witness : PodIndex (PodName meta_ex 11) = Ok 11.
Proof. apply (pod_index_roundtrip meta_ex 11). unfold int_max. lia. Defined.

(** Validation of the Pod that forcefully bootstraps a cluster accepts every
    Pod of the cluster, and what it accepts carries the object's name as a prefix
    and an ordinal below the number of replicas. *)
Theorem valid_pod_name_complete meta replicas podName :
  ((∃ i, 0 ≤ i < replicas ∧ replicas ≤ int_max ∧ podName = PodName meta i) →
     ValidPodName meta replicas podName = Ok tt) ∧
  (ValidPodName meta replicas podName = Ok tt →
     ∃ i rest, podName = Name meta +:+ rest ∧ PodIndex podName = Ok i ∧ 0 ≤ i < replicas).
Proof.
  split.
  - intros (i & Hi & Hr & ->). apply ValidPodName_Ok. exists i.
    split; [apply PodIndex_of_PodName; lia|]. split; [done|]. apply HasPrefix_app.
  - intros (i & Hp & Hi & [rest ->]%HasPrefix_spec)%ValidPodName_Ok. by exists i, rest.
Qed.

(** The validation is not sound for the Pods of the cluster: it also accepts
    names of Pods that do not belong to the object, such as those of another
    object whose name extends this one's. *)
Theorem valid_pod_name_accepts_foreign_pod :
  ∃ meta podName, ValidPodName meta 3 podName = Ok tt ∧
    ∀ i, 0 ≤ i → podName ≠ PodName meta i.
Proof.
  exists (mkObjectMeta "mariadb" "default" "0" ∅ ∅), (PodName meta_ex 1).
  split; [by vm_compute|]. intros i Hi H.
  apply PodName_inj_meta in H as [Hn _]; [|lia|lia]. by vm_compute in Hn.
Qed.
