(* ===== verification/Datastructures.v ===== *)
(** * pkg/datastructures: indexes, set difference and slices

    An [Index] is a Go map from string keys.  Ranging over a map visits its keys
    in an order the runtime chooses: the interface [MapRange] states what the
    code may rely on, and every operation that ranges over a map is proved
    against it. *)

From S2P Require Import Prelude GoStrings.

Abbreviation Index := (gmap string).

(** The keys of a map in the order a [for k := range m] loop visits them. *)
Class MapRange := {
  range_keys : ∀ {A}, Index A → list string;
  range_keys_perm : ∀ {A} (m : Index A), range_keys m ≡ₚ (map_to_list m).*1
}.

#[export] Program Instance map_to_list_range : MapRange := {|
  range_keys A m := (map_to_list m).*1
|}.
Next Obligation. done. Qed.

Section index.
Context {T : Type}.

Definition NewIndex (items : list T) (getID : T → string) : Index T :=
  foldl (λ idx item, <[getID item := item]> idx) ∅ items.

Definition Get (idx : Index T) (key : string) : result T :=
  match idx !! key with
  | Some found => Ok found
  | None => Err (ErrSentinel ErrNotFoundInIndex)
  end.

Definition Keys `{MapRange} (idx : Index T) : list string := range_keys idx.

Fixpoint AllExists (idx : Index T) (keys : list string) : bool :=
  match keys with
  | [] => true
  | id :: keys' => if idx !! id is Some _ then AllExists idx keys' else false
  end.

Definition Has (idx : Index T) (key : string) : bool := AllExists idx [key].
End index.

Definition Filter `{MapRange} {T} (idx : Index T) (keys : list string) : Index T :=
  let filterIdx := NewIndex keys (λ s, s) in
  foldl (λ newIdx k,
    match idx !! k with
    | Some v => if filterIdx !! k is Some _ then <[k := v]> newIdx else newIdx
    | None => newIdx
    end) ∅ (range_keys idx).

Record DiffResult := mkDiff { Added : list string; Deleted : list string; Rest : list string }.

Definition Diff `{MapRange} {C P} (current : Index C) (previous : Index P) : DiffResult :=
  let '(added, processed) :=
    foldl (λ '(added, processed) k,
      match previous !! k with
      | None => (added ++ [k], processed)
      | Some _ => (added, <[k := tt]> processed)
      end) ([], ∅ : Index unit) (range_keys current) in
  let '(deleted, processed) :=
    foldl (λ '(deleted, processed) k,
      match current !! k with
      | None => (deleted ++ [k], processed)
      | Some _ => (deleted, <[k := tt]> processed)
      end) ([], processed) (range_keys previous) in
  let rest := range_keys processed in
  mkDiff (sort_Strings added) (sort_Strings deleted) (sort_Strings rest).

Section slices.
Context {T : Type}.

Definition Merge (slices : list (list T)) : list T := foldl (++) [] slices.

Definition Unique `{Countable T} (elements : list T) : list T :=
  (foldl (λ '(index, result) e,
    if decide (e ∈ index) then (index, result)
    else ({[ e ]} ∪ index, result ++ [e])) (∅ : gset T, []) elements).2.

Fixpoint Find (elements : list T) (fn : T → bool) : option T :=
  match elements with
  | [] => None
  | el :: elements' => if fn el then Some el else Find elements' fn
  end.

Definition Any (elements : list T) (fn : T → bool) : bool :=
  if Find elements fn is Some _ then true else false.

Definition Remove (elements : list T) (fn : T → bool) : list T :=
  foldl (λ result elem, if fn elem then result else result ++ [elem]) [] elements.
End slices.

(** ** Lemmas *)
Lemma range_keys_elem `{MapRange} {A} (m : Index A) k : k ∈ range_keys m ↔ is_Some (m !! k).
Proof.
  rewrite (range_keys_perm m), list_elem_of_fmap. split.
  - intros ([k' v] & -> & Hv%elem_of_map_to_list). by exists v.
  - intros [v Hv]. exists (k, v). by rewrite elem_of_map_to_list.
Qed.

Lemma range_keys_NoDup `{MapRange} {A} (m : Index A) : NoDup (range_keys m).
Proof. rewrite (range_keys_perm m). apply NoDup_fst_map_to_list. Qed.

Lemma NewIndex_lookup_app {T} (items : list T) (getID : T → string) (idx : Index T) (k : string) :
  foldl (λ idx item, <[getID item := item]> idx) idx items !! k =
    match last (filter (λ item, getID item = k) items) with
    | Some item => Some item
    | None => idx !! k
    end.
Proof.
  revert idx. induction items as [|x items IH]; intros idx; [done|].
  simpl. rewrite IH. destruct (decide (getID x = k)) as [Hx|Hx].
  - rewrite filter_cons_True by done. rewrite last_cons.
    destruct (last (filter _ items)); [done|]. by rewrite Hx, lookup_insert_eq.
  - rewrite filter_cons_False by done.
    destruct (last (filter _ items)); [done|]. by rewrite lookup_insert_ne.
Qed.

Lemma Find_Some {T} (l : list T) fn x : Find l fn = Some x → x ∈ l ∧ fn x = true.
Proof.
  induction l as [|y l IH]; simpl; [done|]. destruct (fn y) eqn:E.
  - intros [= ->]. split; [left|done].
  - intros [? ?]%IH. split; [by right|done].
Qed.

Lemma Find_None {T} (l : list T) fn : Find l fn = None ↔ ∀ x, x ∈ l → fn x = false.
Proof.
  induction l as [|y l IH]; simpl; [by split; [intros _ x Hx%elem_of_nil|]|].
  destruct (fn y) eqn:E.
  - split; [done|]. intros H. specialize (H y). rewrite E in H. discriminate H. by left.
  - rewrite IH. setoid_rewrite elem_of_cons. naive_solver.
Qed.

Lemma Find_is_Some {T} (l : list T) fn x : x ∈ l → fn x = true → is_Some (Find l fn).
Proof.
  intros Hx Hf. destruct (Find l fn) eqn:E; [by eexists|].
  rewrite Find_None in E. rewrite (E x Hx) in Hf. done.
Qed.

(** The loop bodies of [Diff]: keys absent from the other map are collected in
    order, the others are recorded as processed. *)
Definition diff_loop {P} (previous : Index P) (acc : list string * Index unit) (ks : list string) :=
  foldl (λ '(added, processed) k,
    match previous !! k with
    | None => (added ++ [k], processed)
    | Some _ => (added, <[k := tt]> processed)
    end) acc ks.

Lemma diff_loop_spec {P} (previous : Index P) added processed ks :
  (diff_loop previous (added, processed) ks).1
    = added ++ filter (λ k, previous !! k = None) ks ∧
  ∀ k, is_Some ((diff_loop previous (added, processed) ks).2 !! k) ↔
    is_Some (processed !! k) ∨ (k ∈ ks ∧ is_Some (previous !! k)).
Proof.
  revert added processed. induction ks as [|x ks IH]; intros added processed; simpl.
  - rewrite app_nil_r. split; [done|]. intros k. rewrite elem_of_nil. tauto.
  - destruct (previous !! x) as [p|] eqn:Hx.
    + destruct (IH added (<[x:=tt]> processed)) as [H1 H2]. split.
      * rewrite H1, filter_cons_False by congruence. done.
      * intros k. rewrite H2. rewrite elem_of_cons, lookup_insert. case_decide; subst.
        -- rewrite Hx. split; [naive_solver|]. intros _. left. by eexists.
        -- naive_solver.
    + destruct (IH (added ++ [x]) processed) as [H1 H2]. split.
      * rewrite H1, filter_cons_True by done. by rewrite <-(assoc_L (++)).
      * intros k. rewrite H2, elem_of_cons. split; [naive_solver|].
        intros [?|[[->|?] ?]]; [by left| |by right]. rewrite Hx in *. by destruct (is_Some_None (A:=P)).
Qed.

Lemma Diff_loops `{MapRange} {C P} (current : Index C) (previous : Index P) :
  let l1 := diff_loop previous ([], ∅) (range_keys current) in
  let l2 := diff_loop current ([], l1.2) (range_keys previous) in
  Diff current previous =
    mkDiff (sort_Strings l1.1) (sort_Strings l2.1) (sort_Strings (range_keys l2.2)).
Proof.
  unfold Diff, diff_loop. simpl. destruct (foldl _ _ (range_keys current)) as [a p]. simpl.
  by destruct (foldl _ _ (range_keys previous)).
Qed.

Lemma Unique_loop_spec `{Countable T} (l : list T) (index : gset T) (result : list T) :
  (∀ x, x ∈ index ↔ x ∈ result) → NoDup result →
  let r := foldl (λ '(index, result) e,
      if decide (e ∈ index) then (index, result)
      else ({[ e ]} ∪ index, result ++ [e])) (index, result) l in
  (∀ x, x ∈ r.2 ↔ x ∈ result ∨ x ∈ l) ∧ NoDup r.2 ∧ result `prefix_of` r.2 ∧ sublist r.2 (result ++ l).
Proof.
  revert index result. induction l as [|y l IH]; intros index result Hidx Hnd; cbn zeta; simpl.
  - rewrite app_nil_r. split; [intros x; rewrite elem_of_nil; tauto|]. by split_and!.
  - destruct (decide (y ∈ index)) as [Hy|Hy].
    + destruct (IH index result Hidx Hnd) as (H1 & H2 & H3 & H4). split_and!; [|done|done|].
      * intros x. rewrite H1, elem_of_cons. rewrite Hidx in Hy. naive_solver.
      * etrans; [exact H4|]. apply sublist_app; [done|]. by apply sublist_cons.
    + destruct (IH ({[y]} ∪ index) (result ++ [y])) as (H1 & H2 & H3 & H4).
      { intros x. rewrite elem_of_union, elem_of_singleton, elem_of_app, list_elem_of_singleton, Hidx.
        tauto. }
      { apply NoDup_app. split_and!; [done| |apply NoDup_singleton].
        intros x Hx ->%list_elem_of_singleton. by apply Hy, Hidx. }
      split_and!; [|done| |].
      * intros x. rewrite H1, elem_of_app, list_elem_of_singleton, elem_of_cons. tauto.
      * etrans; [|exact H3]. by eexists.
      * by rewrite <-(assoc_L (++)) in H4.
Qed.

Lemma sort_Strings_elem k l : k ∈ sort_Strings l ↔ k ∈ l.
Proof. by rewrite (sort_Strings_Permutation l). Qed.

Lemma sort_Strings_NoDup l : NoDup l → NoDup (sort_Strings l).
Proof. by rewrite (sort_Strings_Permutation l). Qed.

(** Lists sorted in the total order of strings are determined by their elements. *)
Lemma sort_Strings_ext l l' :
  NoDup l → NoDup l' → (∀ k, k ∈ l ↔ k ∈ l') → sort_Strings l = sort_Strings l'.
Proof.
  intros Hl Hl' Hk. apply (StronglySorted_unique String.le); try apply sort_Strings_sorted.
  rewrite !sort_Strings_Permutation. by apply NoDup_Permutation.
Qed.

Section diff.
Context `{MapRange} {C P : Type} (current : Index C) (previous : Index P).
Let l1 := diff_loop previous ([], ∅) (range_keys current).
Let l2 := diff_loop current ([], l1.2) (range_keys previous).

Lemma diff_added k : k ∈ l1.1 ↔ is_Some (current !! k) ∧ previous !! k = None.
Proof.
  unfold l1. destruct (diff_loop_spec previous [] ∅ (range_keys current)) as [-> _].
  rewrite app_nil_l, list_elem_of_filter, range_keys_elem. tauto.
Qed.

Lemma diff_deleted k : k ∈ l2.1 ↔ is_Some (previous !! k) ∧ current !! k = None.
Proof.
  unfold l2. destruct (diff_loop_spec current [] l1.2 (range_keys previous)) as [-> _].
  rewrite app_nil_l, list_elem_of_filter, range_keys_elem. tauto.
Qed.

Lemma diff_rest k : k ∈ range_keys l2.2 ↔ is_Some (current !! k) ∧ is_Some (previous !! k).
Proof.
  rewrite range_keys_elem. unfold l2.
  destruct (diff_loop_spec current [] l1.2 (range_keys previous)) as [_ ->].
  unfold l1. destruct (diff_loop_spec previous [] ∅ (range_keys current)) as [_ ->].
  rewrite lookup_empty, !range_keys_elem.
  pose proof (is_Some_None (A:=unit)). tauto.
Qed.

Lemma diff_NoDup : NoDup l1.1 ∧ NoDup l2.1.
Proof.
  unfold l1, l2. split.
  - destruct (diff_loop_spec previous [] ∅ (range_keys current)) as [-> _].
    apply NoDup_filter, range_keys_NoDup.
  - destruct (diff_loop_spec current [] l1.2 (range_keys previous)) as [-> _].
    apply NoDup_filter, range_keys_NoDup.
Qed.
End diff.

(** ** Properties *)

(** Whatever order the runtime ranges over the two maps in, [Diff] reports in
    [Added] the keys only the current index has, in [Deleted] those only the
    previous one has and in [Rest] those of both, each sorted and without
    duplicates. *)
Theorem diff_correct `{MapRange} {C P} (current : Index C) (previous : Index P) :
  let d := Diff current previous in
  (∀ k, (k ∈ Added d ↔ is_Some (current !! k) ∧ previous !! k = None) ∧
        (k ∈ Deleted d ↔ is_Some (previous !! k) ∧ current !! k = None) ∧
        (k ∈ Rest d ↔ is_Some (current !! k) ∧ is_Some (previous !! k))) ∧
  Forall (λ l, StronglySorted String.le l ∧ NoDup l) [Added d; Deleted d; Rest d].
Proof.
  cbn zeta. rewrite Diff_loops. cbn [Added Deleted Rest].
  destruct (diff_NoDup current previous) as [H1 H2]. split.
  - intros k. by rewrite !sort_Strings_elem, diff_added, diff_deleted, diff_rest.
  - repeat constructor; auto using sort_Strings_sorted, sort_Strings_NoDup, range_keys_NoDup.
Qed.

(** The result of [Diff] does not depend on the iteration order of Go maps. *)
Theorem diff_deterministic (R1 R2 : MapRange) {C P} (current : Index C) (previous : Index P) :
  Diff (H:=R1) current previous = Diff (H:=R2) current previous.
Proof.
  rewrite !Diff_loops. destruct (diff_NoDup (H:=R1) current previous) as [A1 D1].
  destruct (diff_NoDup (H:=R2) current previous) as [A2 D2].
  f_equal; apply sort_Strings_ext; auto using range_keys_NoDup; intros k.
  - by rewrite !diff_added.
  - by rewrite !diff_deleted.
  - by rewrite !diff_rest.
Qed.

(** [Unique] keeps exactly the elements of its arguments, each once, in the
    order in which they occur. *)
Theorem unique_correct `{Countable T} (elements : list T) :
  NoDup (Unique elements) ∧ (∀ x, x ∈ Unique elements ↔ x ∈ elements) ∧
  sublist (Unique elements) elements.
Proof.
  unfold Unique. destruct (Unique_loop_spec elements ∅ []) as (H1 & H2 & _ & H4).
  { intros x. by rewrite elem_of_nil, elem_of_empty. }
  { apply NoDup_nil_2. }
  split_and!; [done| |done]. intros x. rewrite H1, elem_of_nil. tauto.
Qed.
