(* ===== verification/GaleraState.v ===== *)
(** * pkg/galera/recovery: the Galera state file and the recovered position

    Every Galera node keeps a [grastate.dat] file; the agent serves it parsed
    ([GaleraState]), and a recovery Job logs the position it recovered
    ([Bootstrap]).  Both are sources a cluster can be bootstrapped from, behind
    the interface [GaleraRecoverer]. *)

From Stdlib Require Import Ascii.
From S2P Require Import Prelude GoStrings.

Local Open Scope Z_scope.

Record GaleraState := mkGaleraState {
  gs_Version : string;
  gs_UUID : string;
  gs_Seqno : Z;
  gs_SafeToBootstrap : bool
}.

Record Bootstrap := mkBootstrap { bs_UUID : string; bs_Seqno : Z }.

#[export] Instance GaleraState_eq_dec : EqDecision GaleraState.
Proof. solve_decision. Defined.
#[export] Instance Bootstrap_eq_dec : EqDecision Bootstrap.
Proof. solve_decision. Defined.

(** ** The interface GaleraRecoverer and its two implementations *)
Class GaleraRecoverer (T : Type) := {
  GetUUID : T → string;
  GetSeqno : T → Z
}.

#[export] Instance GaleraState_recoverer : GaleraRecoverer GaleraState := {|
  GetUUID := gs_UUID; GetSeqno := gs_Seqno |}.
#[export] Instance Bootstrap_recoverer : GaleraRecoverer Bootstrap := {|
  GetUUID := bs_UUID; GetSeqno := bs_Seqno |}.

(** A value of the interface type, holding one of its implementations. *)
Inductive recoverer := RState (g : GaleraState) | RBootstrap (b : Bootstrap).
#[export] Instance recoverer_recoverer : GaleraRecoverer recoverer := {|
  GetUUID r := match r with RState g => gs_UUID g | RBootstrap b => bs_UUID b end;
  GetSeqno r := match r with RState g => gs_Seqno g | RBootstrap b => bs_Seqno b end
|}.

(** [Compare]: both implementations compare sequence numbers; [None] is the nil
    interface. *)
Definition Compare {T} `{GaleraRecoverer T} (g : T) (other : option recoverer) : Z :=
  match other with
  | None => 1
  | Some o =>
      if bool_decide (GetSeqno g < GetSeqno o) then -1
      else if bool_decide (GetSeqno g > GetSeqno o) then 1
      else 0
  end.

(** ** html/template escaping of a string in a text context *)
Definition html_escape_char (c : ascii) : string :=
  if bool_decide (c = "000"%char) then String "239" (String "191" (String "189" ""))
  else if bool_decide (c = "034"%char) then "&#34;"
  else if bool_decide (c = "&"%char) then "&amp;"
  else if bool_decide (c = "'"%char) then "&#39;"
  else if bool_decide (c = "+"%char) then "&#43;"
  else if bool_decide (c = "<"%char) then "&lt;"
  else if bool_decide (c = ">"%char) then "&gt;"
  else String c "".

Fixpoint html_escape (s : string) : string :=
  match s with
  | EmptyString => ""
  | String c s' => html_escape_char c +:+ html_escape s'
  end.

Definition parseBool (s : string) : result bool :=
  match Atoi s with
  | Err e => Err (ErrWrap "error parsing integer bool" e)
  | Ok i => if bool_decide (i ≠ 0) && bool_decide (i ≠ 1)
            then Err (ErrNew "invalid integer bool")
            else Ok (bool_decide (i = 1))
  end.

Section uuid.
(** [uuid.Parse] of github.com/google/uuid: whether it accepts a string. *)
Variable uuid_Parse : string → bool.

Definition GaleraState_Marshal (g : GaleraState) : result string :=
  if uuid_Parse (gs_UUID g) then
    Ok ("version: " +:+ html_escape (gs_Version g) +:+ newline +:+
        "uuid: " +:+ html_escape (gs_UUID g) +:+ newline +:+
        "seqno: " +:+ Itoa (gs_Seqno g) +:+ newline +:+
        "safe_to_bootstrap: " +:+ Itoa (if gs_SafeToBootstrap g then 1 else 0))
  else Err (ErrNew "invalid uuid").

(** The variables of the parsing loop. *)
Record gs_partial := mkPartial {
  p_version : option string;
  p_uuid : option string;
  p_seqno : option Z;
  p_safe : option bool
}.
Definition gs_partial0 : gs_partial := mkPartial None None None None.

Definition gs_parse_line (acc : gs_partial) (line : string) : result gs_partial :=
  match Split line ":" with
  | [k; v] =>
      let key := TrimSpace k in
      let value := TrimSpace v in
      if bool_decide (key = "version") then
        Ok (mkPartial (Some value) (p_uuid acc) (p_seqno acc) (p_safe acc))
      else if bool_decide (key = "uuid") then
        if uuid_Parse value
        then Ok (mkPartial (p_version acc) (Some value) (p_seqno acc) (p_safe acc))
        else Err (ErrNew "error parsing uuid")
      else if bool_decide (key = "seqno") then
        match Atoi value with
        | Err e => Err (ErrWrap "error parsing seqno" e)
        | Ok i => Ok (mkPartial (p_version acc) (p_uuid acc) (Some i) (p_safe acc))
        end
      else if bool_decide (key = "safe_to_bootstrap") then
        match parseBool value with
        | Err e => Err (ErrWrap "error parsing safe_to_bootstrap" e)
        | Ok b => Ok (mkPartial (p_version acc) (p_uuid acc) (p_seqno acc) (Some b))
        end
      else Ok acc
  | _ => Ok acc
  end.

Fixpoint gs_parse_lines (acc : gs_partial) (lines : list string) : result gs_partial :=
  match lines with
  | [] => Ok acc
  | l :: ls => acc' ← gs_parse_line acc l; gs_parse_lines acc' ls
  end.

Definition GaleraState_Unmarshal (text : string) : result GaleraState :=
  acc ← gs_parse_lines gs_partial0 (ScanLines text).1;
  match p_version acc, p_uuid acc, p_seqno acc, p_safe acc with
  | Some v, Some u, Some n, Some b => Ok (mkGaleraState v u n b)
  | _, _, _, _ => Err (ErrNew "invalid galera state file")
  end.

Definition Bootstrap_Validate (b : Bootstrap) : result unit :=
  if uuid_Parse (bs_UUID b) then Ok tt else Err (ErrNew "invalid uuid").

(** The two fields of a log line that reports a recovered position. *)
Definition recovered_position (line : string) : option (string * string) :=
  match Split line "WSREP: Recovered position: " with
  | [_; rest] => match Split rest ":" with [u; n] => Some (u, n) | _ => None end
  | _ => None
  end.

Definition bs_parse_line (acc : option Bootstrap) (line : string) : result (option Bootstrap) :=
  match recovered_position line with
  | None => Ok acc
  | Some (u, n) =>
      let currentUUID := TrimSpace u in
      if uuid_Parse currentUUID then
        match Atoi (TrimSpace n) with
        | Err e => Err (ErrWrap "error parsing seqno" e)
        | Ok currentSeqno => Ok (Some (mkBootstrap currentUUID currentSeqno))
        end
      else Err (ErrNew "error parsing uuid")
  end.

Fixpoint bs_parse_lines (acc : option Bootstrap) (lines : list string) : result (option Bootstrap) :=
  match lines with
  | [] => Ok acc
  | l :: ls => acc' ← bs_parse_line acc l; bs_parse_lines acc' ls
  end.

Definition Bootstrap_Unmarshal (text : string) : result Bootstrap :=
  acc ← bs_parse_lines None (ScanLines text).1;
  match acc with
  | Some b => Ok b
  | None => Err (ErrNew "unable to find uuid and seqno")
  end.
End uuid.

(** ** Lemmas *)

(** A field of the state file that survives being written and read: no outer
    white space, no colon, no newline, nothing html/template escapes, and short
    enough for the line scanner. *)
Definition html_safe (c : ascii) : bool := bool_decide (html_escape_char c = String c "").
Definition field_ok (s : string) : Prop :=
  trimmed s = true ∧ ¬ str_In ":" s ∧ ¬ str_In "010" s ∧ str_all html_safe s = true ∧
  Z.of_nat (String.length s) ≤ 60000.

#[export] Instance field_ok_dec s : Decision (field_ok s).
Proof. apply _. Defined.

Lemma html_escape_safe s : str_all html_safe s = true → html_escape s = s.
Proof.
  induction s as [|c s IH]; [done|]. cbn [str_all html_escape].
  rewrite andb_true_iff. unfold html_safe at 1. rewrite bool_decide_eq_true.
  intros [-> Hs]. by rewrite IH.
Qed.

Lemma Itoa_field_ok z : in_int z = true → field_ok (Itoa z).
Proof.
  intros Hz. pose proof (Itoa_length z Hz).
  split_and!; [apply Itoa_trimmed|by apply Itoa_not_In|by apply Itoa_not_In| |lia].
  eapply str_all_weaken; [|apply str_all_Itoa]. intros c.
  destruct c as [[][][][][][][][]]; vm_compute; done.
Qed.

(** A line "<key>: <value>" of the state file. *)
Definition kv_line (k v : string) : string := k +:+ ": " +:+ v.

Lemma kv_line_split k v :
  bool_decide (¬ str_In ":" k) = true → ¬ str_In ":" v →
  Split (kv_line k v) ":" = [k; String " " v].
Proof.
  intros Hk%bool_decide_eq_true_1 Hv. unfold kv_line.
  change (k +:+ ": " +:+ v) with (k +:+ String ":" (String " " v)).
  rewrite Split_app_sep, Split_no_sep by (simpl; try tauto; intros [?|?]; done). done.
Qed.

Lemma kv_line_ok k v :
  bool_decide (¬ str_In "010" k) = true → Z.of_nat (String.length k) ≤ 5000 →
  field_ok v → line_ok (kv_line k v).
Proof.
  intros Hk%bool_decide_eq_true_1 Hkl (Ht & _ & Hn & _ & Hl). unfold kv_line. split_and!.
  - rewrite !str_In_app. simpl. intros [?|[[?|[?|?]]|?]]; done.
  - rewrite !str_length_app. simpl. unfold max_line. lia.
  - rewrite str_app_assoc. destruct (decide (v = "")) as [->|Hv].
    + rewrite str_app_nil_r, str_last_app by done. done.
    + rewrite str_last_app by done. destruct (trimmed_last v) as (d & -> & Hd); [done|done|].
      intros [= ->]. done.
Qed.

Lemma kv_line_value v : field_ok v → TrimSpace (String " " v) = v.
Proof. intros (Ht & _). rewrite TrimSpace_space. by apply TrimSpace_trimmed. Qed.

Section lemmas.
Variable uuid_Parse : string → bool.

Lemma gs_parse_version acc v : field_ok v →
  gs_parse_line uuid_Parse acc (kv_line "version" v) =
    Ok (mkPartial (Some v) (p_uuid acc) (p_seqno acc) (p_safe acc)).
Proof.
  intros Hv. unfold gs_parse_line. rewrite kv_line_split by (try done; apply Hv).
  rewrite (kv_line_value v Hv). done.
Qed.

Lemma gs_parse_uuid acc v : field_ok v → uuid_Parse v = true →
  gs_parse_line uuid_Parse acc (kv_line "uuid" v) =
    Ok (mkPartial (p_version acc) (Some v) (p_seqno acc) (p_safe acc)).
Proof.
  intros Hv Hu. unfold gs_parse_line. rewrite kv_line_split by (try done; apply Hv).
  rewrite (kv_line_value v Hv). change (TrimSpace "uuid") with "uuid". simpl. by rewrite Hu.
Qed.

Lemma gs_parse_seqno acc z : in_int z = true →
  gs_parse_line uuid_Parse acc (kv_line "seqno" (Itoa z)) =
    Ok (mkPartial (p_version acc) (p_uuid acc) (Some z) (p_safe acc)).
Proof.
  intros Hz. pose proof (Itoa_field_ok z Hz) as Hf. unfold gs_parse_line.
  rewrite kv_line_split by (try done; apply Hf).
  rewrite (kv_line_value _ Hf). change (TrimSpace "seqno") with "seqno". simpl.
  by rewrite Atoi_Itoa.
Qed.

Lemma gs_parse_safe acc (b : bool) :
  gs_parse_line uuid_Parse acc (kv_line "safe_to_bootstrap" (Itoa (if b then 1 else 0))) =
    Ok (mkPartial (p_version acc) (p_uuid acc) (p_seqno acc) (Some b)).
Proof. by destruct b. Qed.

Lemma GaleraState_Marshal_lines g :
  uuid_Parse (gs_UUID g) = true → field_ok (gs_Version g) → field_ok (gs_UUID g) →
  GaleraState_Marshal uuid_Parse g =
    Ok (Join [kv_line "version" (gs_Version g); kv_line "uuid" (gs_UUID g);
              kv_line "seqno" (Itoa (gs_Seqno g));
              kv_line "safe_to_bootstrap" (Itoa (if gs_SafeToBootstrap g then 1 else 0))] newline).
Proof.
  intros Hu (_ & _ & _ & Hv1 & _) (_ & _ & _ & Hv2 & _). unfold GaleraState_Marshal.
  rewrite Hu, !html_escape_safe by done. unfold Join, kv_line. by rewrite <-!str_app_assoc.
Qed.

(** A state that is written is read back. *)
Lemma GaleraState_Marshal_Unmarshal g text :
  GaleraState_Marshal uuid_Parse g = Ok text →
  field_ok (gs_Version g) → field_ok (gs_UUID g) → in_int (gs_Seqno g) = true →
  GaleraState_Unmarshal uuid_Parse text = Ok g.
Proof.
  intros Ht Hv Hf Hz. assert (uuid_Parse (gs_UUID g) = true) as Hu.
  { unfold GaleraState_Marshal in Ht. by destruct (uuid_Parse (gs_UUID g)). }
  rewrite GaleraState_Marshal_lines in Ht by done. 
  match type of Ht with Ok ?x = _ => assert (text = x) as -> by congruence end.
  assert (in_int (if gs_SafeToBootstrap g then 1 else 0) = true) as Hb
    by (by destruct (gs_SafeToBootstrap g)).
  unfold GaleraState_Unmarshal. rewrite ScanLines_Join; [|repeat apply Forall_cons_2; [..|by apply Forall_nil_2]|done|].
  - cbn [fst gs_parse_lines mbind result_bind].
    rewrite gs_parse_version by done. cbn [mbind result_bind].
    rewrite gs_parse_uuid by done. cbn [mbind result_bind].
    rewrite gs_parse_seqno by done. cbn [mbind result_bind].
    rewrite gs_parse_safe. by destruct g.
  - by apply kv_line_ok.
  - by apply kv_line_ok.
  - by apply kv_line_ok, Itoa_field_ok.
  - by apply kv_line_ok, Itoa_field_ok.
  - by destruct (gs_SafeToBootstrap g).
Qed.

(** A successful loop keeps the last recovered position of the lines read. *)
Lemma bs_parse_lines_last acc lines b :
  bs_parse_lines uuid_Parse acc lines = Ok (Some b) →
  (acc = Some b ∧ Forall (λ l, recovered_position l = None) lines) ∨
  ∃ before line after u n,
    lines = before ++ line :: after ∧
    recovered_position line = Some (u, n) ∧
    Forall (λ l, recovered_position l = None) after ∧
    b = mkBootstrap (TrimSpace u) (bs_Seqno b) ∧
    uuid_Parse (TrimSpace u) = true ∧ Atoi (TrimSpace n) = Ok (bs_Seqno b).
Proof.
  revert acc. induction lines as [|l ls IH]; simpl; intros acc H.
  { left. by simplify_eq. }
  unfold bs_parse_line in H at 1. destruct (recovered_position l) as [[u n]|] eqn:Hl.
  - destruct (uuid_Parse (TrimSpace u)) eqn:Hu; [|done].
    destruct (Atoi (TrimSpace n)) as [z|] eqn:Hz; [|done]. simpl in H.
    destruct (IH _ H) as [[[= <-] Hnone]|(bf & l' & af & u' & n' & -> & ?)].
    + right. exists [], l, ls, u, n. by split_and!.
    + right. by exists (l :: bf), l', af, u', n'.
  - simpl in H. destruct (IH _ H) as [[-> Hnone]|(bf & l' & af & u' & n' & -> & ?)].
    + left. by split; [|constructor].
    + right. by exists (l :: bf), l', af, u', n'.
Qed.
End lemmas.

(** ** Properties *)

(** A Galera state written by [Marshal] is read back unchanged by
    [Unmarshal]: the agent and the operator agree on version, UUID, sequence
    number (any Go int, -1 included) and the safe_to_bootstrap flag. *)
Theorem galera_state_roundtrip (uuid_Parse : string → bool) (g : GaleraState) :
  uuid_Parse (gs_UUID g) = true →
  field_ok (gs_Version g) → field_ok (gs_UUID g) → in_int (gs_Seqno g) = true →
  ∃ text, GaleraState_Marshal uuid_Parse g = Ok text ∧
          GaleraState_Unmarshal uuid_Parse text = Ok g.
Proof.
  intros Hu Hv Hf Hz. eexists. split; [by apply GaleraState_Marshal_lines|].
  apply GaleraState_Marshal_Unmarshal; try done. by apply GaleraState_Marshal_lines.
Qed.

Definition state_ex : GaleraState :=
  mkGaleraState "2.1" "05f061bd-02a3-11ee-857c-aa370ff6666b" (-1) true.

Lemma galera_state_roundtrip_witness : ∃ text,
  GaleraState_Marshal (λ s, bool_decide (String.length s = 36%nat)) state_ex = Ok text ∧
  GaleraState_Unmarshal (λ s, bool_decide (String.length s = 36%nat)) text = Ok state_ex.
Proof.
  apply (galera_state_roundtrip (λ s, bool_decide (String.length s = 36%nat)) state_ex).
  - reflexivity.
  - apply (bool_decide_eq_true_1 (field_ok "2.1")). vm_compute. reflexivity.
  - apply (bool_decide_eq_true_1 (field_ok "05f061bd-02a3-11ee-857c-aa370ff6666b")).
    vm_compute. reflexivity.
  - reflexivity.
Defined.

(** A Bootstrap parsed from the logs of a recovery Job is the last recovered
    position those logs report: its UUID is accepted, its sequence number is the
    parsed one, and no later line reports a position. *)
Theorem bootstrap_unmarshal_last (uuid_Parse : string → bool) (text : string) (b : Bootstrap) :
  Bootstrap_Unmarshal uuid_Parse text = Ok b →
  ∃ before line after u n,
    (ScanLines text).1 = before ++ line :: after ∧
    recovered_position line = Some (u, n) ∧
    Forall (λ l, recovered_position l = None) after ∧
    uuid_Parse (TrimSpace u) = true ∧ Atoi (TrimSpace n) = Ok (bs_Seqno b) ∧
    bs_UUID b = TrimSpace u.
Proof.
  unfold Bootstrap_Unmarshal. intros H.
  destruct (bs_parse_lines uuid_Parse None _) as [[b'|]|e] eqn:E; simplify_eq/=.
  destruct (bs_parse_lines_last _ _ _ _ E)
    as [[? _]|(bf & l & af & u & n & Hl & Hp & Haf & Hb & Hu & Hn)]; [done|].
  exists bf, l, af, u, n. rewrite Hb. by rewrite Hb in Hn.
Qed.

Definition logs_ex : string :=
  "[Note] WSREP: Recovered position: 15d9a0ef-02b1-11ee-9499-decd8e34642e:1" +:+ newline +:+
  "Warning: Memory not freed: 280".

Lemma bootstrap_unmarshal_last_witness : ∃ before line after u n,
  (ScanLines logs_ex).1 = before ++ line :: after ∧
  recovered_position line = Some (u, n) ∧
  Forall (λ l, recovered_position l = None) after ∧
  true = true ∧ Atoi (TrimSpace n) = Ok 1 ∧
  "15d9a0ef-02b1-11ee-9499-decd8e34642e" = TrimSpace u.
Proof.
  apply (bootstrap_unmarshal_last (λ _, true) logs_ex
    (mkBootstrap "15d9a0ef-02b1-11ee-9499-decd8e34642e" 1)).
  vm_compute. reflexivity.
Defined.
