(* ===== verification/Conditions.v ===== *)
(** * Status conditions

    The condition types and reasons of api/v1alpha1/condition_types.go, and the
    functions of k8s.io/apimachinery's package [meta] through which the operator
    reads and writes a list of conditions.  Those functions are not part of the
    repository: the class [StatusConditions] names the behaviour their
    documentation promises, every client is proved against it, and
    [upsert_conditions] is one implementation. *)

From S2P Require Import Prelude.

Inductive ConditionStatus := ConditionTrue | ConditionFalse | ConditionUnknown.
#[export] Instance ConditionStatus_eq_dec : EqDecision ConditionStatus.
Proof. solve_decision. Defined.

(** The fields of [metav1.Condition] the operator sets or reads. *)
Record Condition := mkCondition {
  c_Type : string;
  c_Status : ConditionStatus;
  c_Reason : string;
  c_Message : string
}.
#[export] Instance Condition_eq_dec : EqDecision Condition.
Proof. solve_decision. Defined.

Class StatusConditions := {
  SetStatusCondition : list Condition → Condition → list Condition;
  FindStatusCondition : list Condition → string → option Condition;
  IsStatusConditionTrue : list Condition → string → bool;
  IsStatusConditionFalse : list Condition → string → bool;
  (** the set condition is found under its type *)
  find_set_eq cs c : FindStatusCondition (SetStatusCondition cs c) (c_Type c) = Some c;
  (** and the conditions of other types are untouched *)
  find_set_ne cs c t : t ≠ c_Type c →
    FindStatusCondition (SetStatusCondition cs c) t = FindStatusCondition cs t;
  (** a condition is true (false) when it is present with status True (False) *)
  is_true_find cs t : IsStatusConditionTrue cs t =
    match FindStatusCondition cs t with
    | Some c => bool_decide (c_Status c = ConditionTrue) | None => false
    end;
  is_false_find cs t : IsStatusConditionFalse cs t =
    match FindStatusCondition cs t with
    | Some c => bool_decide (c_Status c = ConditionFalse) | None => false
    end
}.

(** ** The condition types and reasons of the operator *)
Definition ConditionTypeReady : string := "Ready".
Definition ConditionTypeBackupRestored : string := "BackupRestored".
Definition ConditionTypePrimarySwitched : string := "PrimarySwitched".
Definition ConditionTypeGaleraReady : string := "GaleraReady".
Definition ConditionTypeGaleraConfigured : string := "GaleraConfigured".
Definition ConditionTypeGaleraInitialized : string := "GaleraInitialized".
Definition ConditionTypeComplete : string := "Complete".
Definition ConditionTypeStorageResized : string := "StorageResized".
Definition ConditionTypeUpdated : string := "Updated".
Definition ConditionTypeInitialized : string := "Initialized".

Definition ConditionReasonStatefulSetNotReady : string := "StatefulSetNotReady".
Definition ConditionReasonStatefulSetReady : string := "StatefulSetReady".
Definition ConditionReasonRestoreBackup : string := "RestoreBackup".
Definition ConditionReasonRestorePhysicalBackup : string := "RestorePhysicalBackup".
Definition ConditionReasonSwitchPrimary : string := "SwitchPrimary".
Definition ConditionReasonGaleraReady : string := "GaleraReady".
Definition ConditionReasonGaleraNotReady : string := "GaleraNotReady".
Definition ConditionReasonGaleraConfigured : string := "GaleraConfigured".
Definition ConditionReasonGaleraInitialized : string := "GaleraInitialized".
Definition ConditionReasonResizingStorage : string := "ResizingStorage".
Definition ConditionReasonWaitStorageResize : string := "WaitStorageResize".
Definition ConditionReasonStorageResized : string := "StorageResized".
Definition ConditionReasonInitializing : string := "Initializing".
Definition ConditionReasonInitialized : string := "Initialized".
Definition ConditionReasonInitError : string := "InitError".
Definition ConditionReasonPendingUpdate : string := "PendingUpdate".
Definition ConditionReasonUpdating : string := "Updating".
Definition ConditionReasonUpdated : string := "Updated".
Definition ConditionReasonSuspended : string := "Suspended".
Definition ConditionReasonJobComplete : string := "JobComplete".
Definition ConditionReasonJobSuspended : string := "JobSuspended".
Definition ConditionReasonJobFailed : string := "JobFailed".
Definition ConditionReasonJobRunning : string := "JobRunning".
Definition ConditionReasonJobNotComplete : string := "JobNotComplete".
Definition ConditionReasonSnapshotComplete : string := "SnapshotComplete".
Definition ConditionReasonSnapshotSuspended : string := "SnapshotSuspended".
Definition ConditionReasonSnapshotFailed : string := "SnapshotFailed".
Definition ConditionReasonSnapshotInProgress : string := "SnapshotInProgress".
Definition ConditionReasonSnapshotNotComplete : string := "SnapshotNotComplete".
Definition ConditionReasonCronJobScheduled : string := "CronJobScheduled".
Definition ConditionReasonCronJobFailed : string := "CronJobScheduled".
Definition ConditionReasonCronJobRunning : string := "CronJobRunning".
Definition ConditionReasonCronJobSuccess : string := "CronJobSuccess".
Definition ConditionReasonCreated : string := "Created".
Definition ConditionReasonHealthy : string := "Healthy".
Definition ConditionReasonFailed : string := "Failed".

(** ** One implementation of the interface *)
Definition upsert (cs : list Condition) (c : Condition) : list Condition :=
  c :: filter (λ c', c_Type c' ≠ c_Type c) cs.

Definition find_type (cs : list Condition) (t : string) : option Condition :=
  head (filter (λ c, c_Type c = t) cs).

Definition has_status (st : ConditionStatus) (cs : list Condition) (t : string) : bool :=
  match find_type cs t with Some c => bool_decide (c_Status c = st) | None => false end.

Lemma find_type_other cs t t' : t ≠ t' →
  find_type (filter (λ c, c_Type c ≠ t') cs) t = find_type cs t.
Proof.
  intros Hne. unfold find_type. rewrite list_filter_filter_l; [done|].
  intros c <-. congruence.
Qed.

#[export] Program Instance upsert_conditions : StatusConditions := {|
  SetStatusCondition := upsert;
  FindStatusCondition := find_type;
  IsStatusConditionTrue := has_status ConditionTrue;
  IsStatusConditionFalse := has_status ConditionFalse
|}.
Next Obligation. intros cs c. unfold find_type, upsert. by rewrite filter_cons_True. Qed.
Next Obligation.
  intros cs c t Hne. rewrite <- (find_type_other cs t (c_Type c)) by done.
  unfold find_type, upsert. by rewrite filter_cons_False by congruence.
Qed.
Next Obligation. done. Qed.
Next Obligation. done. Qed.

(** ** Reading back a list of conditions after writing one *)
Lemma IsStatusConditionTrue_set `{StatusConditions} cs c t :
  IsStatusConditionTrue (SetStatusCondition cs c) t =
  if bool_decide (t = c_Type c) then bool_decide (c_Status c = ConditionTrue)
  else IsStatusConditionTrue cs t.
Proof.
  rewrite !is_true_find. case_bool_decide as Ht; [subst; by rewrite find_set_eq|].
  by rewrite find_set_ne.
Qed.

Lemma IsStatusConditionFalse_set `{StatusConditions} cs c t :
  IsStatusConditionFalse (SetStatusCondition cs c) t =
  if bool_decide (t = c_Type c) then bool_decide (c_Status c = ConditionFalse)
  else IsStatusConditionFalse cs t.
Proof.
  rewrite !is_false_find. case_bool_decide as Ht; [subst; by rewrite find_set_eq|].
  by rewrite find_set_ne.
Qed.

Lemma FindStatusCondition_set `{StatusConditions} cs c t :
  FindStatusCondition (SetStatusCondition cs c) t =
  if bool_decide (t = c_Type c) then Some c else FindStatusCondition cs t.
Proof. case_bool_decide; [subst; apply find_set_eq|by apply find_set_ne]. Qed.
