(* ===== verification/MariaDBTypes.v ===== *)
(** * api/v1alpha1: the MariaDB resource

    The MariaDB object as the reconcilers use it: the parts of its spec that
    drive high availability, recovery and updates, its status, the accessors and
    predicates of mariadb_types.go, and the defaulting and validation of
    mariadb_replication_types.go and mariadb_galera_types.go.

    A record keeps the fields of the Go struct that the modelled code reads or
    writes.  A pointer is an [option], a Go string enumeration a string, a
    [metav1.Duration] a number of nanoseconds and a [metav1.Time] a number of
    nanoseconds since the epoch. *)

From Stdlib Require Import Ascii.
From coqutil Require Export Datatypes.RecordSetters.
From S2P Require Import Prelude GoStrings StatefulSet Datastructures GaleraState Conditions.
Export OCamlLikeNotations.

Local Open Scope Z_scope.

(** ** time *)
Definition Millisecond : Z := 1000000.
Definition Second : Z := 1000 * Millisecond.
Definition Minute : Z := 60 * Second.
Definition Hour : Z := 60 * Minute.

(** ** References *)
Record SecretKeySelector := mkSecretKeySelector { sks_Name : string; sks_Key : string }.
Record GeneratedSecretKeyRef := mkGeneratedSecretKeyRef {
  gsk_selector : SecretKeySelector;
  gsk_Generate : bool
}.
Record ObjectReference := mkObjectReference { or_Name : string; or_Namespace : string }.
Record NamespacedName := mkNamespacedName { nn_Name : string; nn_Namespace : string }.

#[export] Instance SecretKeySelector_eq_dec : EqDecision SecretKeySelector.
Proof. solve_decision. Defined.
#[export] Instance GeneratedSecretKeyRef_eq_dec : EqDecision GeneratedSecretKeyRef.
Proof. solve_decision. Defined.
#[export] Instance NamespacedName_eq_dec : EqDecision NamespacedName.
Proof. solve_decision. Defined.

(** ** Replication *)
Definition WaitPointAfterSync : string := "AfterSync".
Definition WaitPointAfterCommit : string := "AfterCommit".

Definition WaitPoint_Validate (w : string) : result unit :=
  if bool_decide (w = WaitPointAfterSync) || bool_decide (w = WaitPointAfterCommit)
  then Ok tt else Err (ErrNew "invalid WaitPoint").

Definition WaitPoint_MariaDBFormat (w : string) : result string :=
  if bool_decide (w = WaitPointAfterSync) then Ok "AFTER_SYNC"
  else if bool_decide (w = WaitPointAfterCommit) then Ok "AFTER_COMMIT"
  else Err (ErrNew "invalid WaitPoint").

Definition GtidCurrentPos : string := "CurrentPos".
Definition GtidSlavePos : string := "SlavePos".

Definition Gtid_Validate (g : string) : result unit :=
  if bool_decide (g = GtidCurrentPos) || bool_decide (g = GtidSlavePos)
  then Ok tt else Err (ErrNew "invalid Gtid").

Definition Gtid_MariaDBFormat (g : string) : result string :=
  if bool_decide (g = GtidCurrentPos) then Ok "current_pos"
  else if bool_decide (g = GtidSlavePos) then Ok "slave_pos"
  else Err (ErrNew "invalid Gtid").

Record PrimaryReplication := mkPrimaryReplication {
  pr_PodIndex : option Z;
  pr_AutomaticFailover : option bool;
  pr_AutomaticFailoverDelay : option Z
}.

Record ReplicaReplication := mkReplicaReplication {
  rr_WaitPoint : option string;
  rr_Gtid : option string;
  rr_ReplPasswordSecretKeyRef : option GeneratedSecretKeyRef;
  rr_ConnectionTimeout : option Z;
  rr_ConnectionRetries : option Z;
  rr_SyncTimeout : option Z
}.

(** [Replication] embeds [ReplicationSpec]. *)
Record Replication := mkReplication {
  rep_Primary : option PrimaryReplication;
  rep_Replica : option ReplicaReplication;
  rep_SyncBinlog : option Z;
  rep_ProbesEnabled : option bool;
  rep_Enabled : bool
}.

Definition Replication_zero : Replication := mkReplication None None None None false.

Definition tenSeconds : Z := 10 * Second.

Definition DefaultPrimary : PrimaryReplication := mkPrimaryReplication (Some 0) (Some true) (Some 0).
Definition DefaultReplica : ReplicaReplication :=
  mkReplicaReplication (Some WaitPointAfterSync) (Some GtidCurrentPos) None
    (Some tenSeconds) (Some 10) (Some tenSeconds).
Definition DefaultReplicationSpec : Replication :=
  mkReplication (Some DefaultPrimary) (Some DefaultReplica) (Some 1) (Some false) false.

(** [if x == nil { x = d }] *)
Definition or_default {A} (x d : option A) : option A :=
  match x with Some _ => x | None => d end.

Definition PrimaryReplication_FillWithDefaults (r : PrimaryReplication) : PrimaryReplication :=
  mkPrimaryReplication
    (or_default (pr_PodIndex r) (pr_PodIndex DefaultPrimary))
    (or_default (pr_AutomaticFailover r) (pr_AutomaticFailover DefaultPrimary))
    (or_default (pr_AutomaticFailoverDelay r) (pr_AutomaticFailoverDelay DefaultPrimary)).

Definition ReplicaReplication_FillWithDefaults (r : ReplicaReplication) : ReplicaReplication :=
  mkReplicaReplication
    (or_default (rr_WaitPoint r) (rr_WaitPoint DefaultReplica))
    (or_default (rr_Gtid r) (rr_Gtid DefaultReplica))
    (rr_ReplPasswordSecretKeyRef r)
    (or_default (rr_ConnectionTimeout r) (rr_ConnectionTimeout DefaultReplica))
    (or_default (rr_ConnectionRetries r) (rr_ConnectionRetries DefaultReplica))
    (or_default (rr_SyncTimeout r) (rr_SyncTimeout DefaultReplica)).

Definition ReplicaReplication_Validate (r : ReplicaReplication) : result unit :=
  match rr_WaitPoint r with
  | Some w => wrap_err "invalid WaitPoint" (WaitPoint_Validate w) | None => Ok tt
  end ≫= λ _,
  match rr_Gtid r with
  | Some g => wrap_err "invalid GTID" (Gtid_Validate g) | None => Ok tt
  end.

Definition ReplicationSpec_FillWithDefaults (r : Replication) : Replication :=
  mkReplication
    (match rep_Primary r with
     | None => rep_Primary DefaultReplicationSpec
     | Some p => Some (PrimaryReplication_FillWithDefaults p)
     end)
    (match rep_Replica r with
     | None => rep_Replica DefaultReplicationSpec
     | Some p => Some (ReplicaReplication_FillWithDefaults p)
     end)
    (or_default (rep_SyncBinlog r) (rep_SyncBinlog DefaultReplicationSpec))
    (or_default (rep_ProbesEnabled r) (rep_ProbesEnabled DefaultReplicationSpec))
    (rep_Enabled r).

Definition ReplicationStateMaster : string := "Master".
Definition ReplicationStateSlave : string := "Slave".
Definition ReplicationStateNotConfigured : string := "NotConfigured".

Definition ReplicationStatus := gmap string string.

(** The two loops [for pod, state := range r]. *)
Definition ReplicationStatus_HasConfiguredReplica `{MapRange} (r : ReplicationStatus) : bool :=
  existsb (λ pod, bool_decide (r !! pod = Some ReplicationStateSlave)) (range_keys r).

Definition ReplicationStatus_IsConfiguredReplica `{MapRange} (r : ReplicationStatus)
    (podName : string) : bool :=
  existsb (λ pod, bool_decide (pod = podName) && bool_decide (r !! pod = Some ReplicationStateSlave))
    (range_keys r).

(** ** Galera *)
Definition SSTRsync : string := "rsync".
Definition SSTMariaBackup : string := "mariabackup".
Definition SSTMysqldump : string := "mysqldump".

Definition SST_Validate (s : string) : result unit :=
  if bool_decide (s ∈ [SSTMariaBackup; SSTRsync; SSTMysqldump])
  then Ok tt else Err (ErrNew "invalid SST").

Definition SST_MariaDBFormat (s : string) : result string :=
  if bool_decide (s = SSTRsync) then Ok "rsync"
  else if bool_decide (s = SSTMariaBackup) then Ok "mariabackup"
  else if bool_decide (s = SSTMysqldump) then Ok "mysqldump"
  else Err (ErrNew "invalid SST").

Record PrimaryGalera := mkPrimaryGalera {
  pg_PodIndex : option Z;
  pg_AutomaticFailover : option bool
}.

Definition PrimaryGalera_SetDefaults (r : PrimaryGalera) : PrimaryGalera :=
  mkPrimaryGalera (or_default (pg_PodIndex r) (Some 0))
    (or_default (pg_AutomaticFailover r) (Some true)).

(** [intstr.IntOrString] of k8s.io/apimachinery, with the conversion the
    recovery relies on: an integer is itself, a percentage [p%] is that share of
    the total, rounded up or down. *)
Inductive IntOrString := IntVal (i : Z) | StrVal (s : string).

Class ScaledValue := {
  GetScaledValueFromIntOrPercent : IntOrString → Z → bool → result Z;
  scaled_int i total up : GetScaledValueFromIntOrPercent (IntVal i) total up = Ok i;
  scaled_percent p total (up : bool) : 0 ≤ p ≤ 100 → 0 ≤ total < 2 ^ 31 →
    GetScaledValueFromIntOrPercent (StrVal (Itoa p +:+ "%")) total up =
    Ok (if up then - ((- (p * total)) `div` 100) else (p * total) `div` 100)
}.

Record GaleraRecovery := mkGaleraRecovery {
  gr_Enabled : bool;
  gr_MinClusterSize : option IntOrString;
  gr_ClusterMonitorInterval : option Z;
  gr_ClusterHealthyTimeout : option Z;
  gr_ClusterBootstrapTimeout : option Z;
  gr_ClusterUpscaleTimeout : option Z;
  gr_ClusterDownscaleTimeout : option Z;
  gr_PodRecoveryTimeout : option Z;
  gr_PodSyncTimeout : option Z;
  gr_ForceClusterBootstrapInPod : option string
}.

Definition GaleraRecovery_zero : GaleraRecovery :=
  mkGaleraRecovery false None None None None None None None None None.

Record KubernetesAuth := mkKubernetesAuth { ka_Enabled : bool; ka_AuthDelegatorRoleName : string }.
Record BasicAuth := mkBasicAuth {
  ba_Enabled : bool;
  ba_Username : string;
  ba_PasswordSecretKeyRef : GeneratedSecretKeyRef
}.
Definition KubernetesAuth_zero : KubernetesAuth := mkKubernetesAuth false "".
Definition SecretKeyRef_zero : GeneratedSecretKeyRef :=
  mkGeneratedSecretKeyRef (mkSecretKeySelector "" "") false.
Definition BasicAuth_zero : BasicAuth := mkBasicAuth false "" SecretKeyRef_zero.

Record GaleraAgent := mkGaleraAgent {
  agent_Image : string;
  agent_Port : Z;
  agent_ProbePort : Z;
  agent_KubernetesAuth : option KubernetesAuth;
  agent_BasicAuth : option BasicAuth;
  agent_GracefulShutdownTimeout : option Z
}.
Definition GaleraAgent_zero : GaleraAgent := mkGaleraAgent "" 0 0 None None None.

(** ** Volumes
    A [resource.Quantity] is its value in bytes. *)
Record Metadata := mkMetadata { md_Labels : gmap string string; md_Annotations : gmap string string }.
Definition Metadata_zero : Metadata := mkMetadata ∅ ∅.

(** The API type [VolumeClaimTemplate], with its inline [PersistentVolumeClaimSpec]. *)
Record VolumeClaimTemplateSpec := mkVolumeClaimTemplateSpec {
  vt_Requests : gmap string Z;
  vt_AccessModes : list string;
  vt_StorageClassName : option string;
  vt_Metadata : option Metadata
}.
Definition VolumeClaimTemplateSpec_zero : VolumeClaimTemplateSpec :=
  mkVolumeClaimTemplateSpec ∅ [] None None.
Definition ResourceStorage : string := "storage".
Definition ReadWriteOnce : string := "ReadWriteOnce".

Record Storage := mkStorage {
  sto_Ephemeral : option bool;
  sto_Size : option Z;
  sto_StorageClassName : string;
  sto_ResizeInUseVolumes : option bool;
  sto_WaitForVolumeResize : option bool;
  sto_VolumeClaimTemplate : option VolumeClaimTemplateSpec
}.
Definition Storage_zero : Storage := mkStorage None None "" None None None.

(** The requested size of a claim, if the map has it. *)
Definition vt_size (v : VolumeClaimTemplateSpec) : option Z := vt_Requests v !! ResourceStorage.
#[global] Arguments vt_size _ : simpl never.

Definition GetSize (s : Storage) : option Z :=
  let vctpl := default VolumeClaimTemplateSpec_zero (sto_VolumeClaimTemplate s) in
  match vt_size vctpl with
  | Some storage => Some storage
  | None => sto_Size s
  end.

Definition shouldUpdateVolumeClaimTemplate (s : Storage) : bool :=
  match sto_Size s, sto_VolumeClaimTemplate s with
  | None, _ => false
  | Some _, None => true
  | Some size, Some vctpl =>
      match vt_size vctpl with
      | None => true
      | Some vctplSize =>
          if negb (bool_decide (size = vctplSize)) then true
          else negb (bool_decide (sto_StorageClassName s = "")) &&
               negb (bool_decide (sto_StorageClassName s = default "" (vt_StorageClassName vctpl)))
      end
  end.

Definition Storage_SetDefaults (s : Storage) : Storage :=
  let s := if sto_Ephemeral s is None then { s with sto_Ephemeral := Some false } else s in
  let ephemeral := default false (sto_Ephemeral s) in
  let s := if (if sto_ResizeInUseVolumes s is None then true else false) && negb ephemeral
           then { s with sto_ResizeInUseVolumes := Some true } else s in
  let s := if (if sto_WaitForVolumeResize s is None then true else false) && negb ephemeral
           then { s with sto_WaitForVolumeResize := Some true } else s in
  if shouldUpdateVolumeClaimTemplate s then
    { s with sto_VolumeClaimTemplate := Some (mkVolumeClaimTemplateSpec
        {[ ResourceStorage := default 0 (sto_Size s) ]} [ReadWriteOnce]
        (if negb (bool_decide (sto_StorageClassName s = "")) then Some (sto_StorageClassName s) else None)
        None) }
  else s.

Record GaleraConfig := mkGaleraConfig {
  gc_ReuseStorageVolume : option bool;
  gc_VolumeClaimTemplate : option VolumeClaimTemplateSpec
}.
Definition GaleraConfig_zero : GaleraConfig := mkGaleraConfig None None.

(** [resource.MustParse("100Mi")] *)
Definition galera_config_size : Z := 100 * 2 ^ 20.

Definition GaleraConfig_SetDefaults (g : GaleraConfig) : GaleraConfig :=
  let g := if gc_ReuseStorageVolume g is None then { g with gc_ReuseStorageVolume := Some false } else g in
  match gc_VolumeClaimTemplate g with
  | None =>
      if negb (default false (gc_ReuseStorageVolume g)) then
        { g with gc_VolumeClaimTemplate := Some (mkVolumeClaimTemplateSpec
            {[ ResourceStorage := galera_config_size ]} [ReadWriteOnce] None None) }
      else g
  | Some _ => g
  end.

(** The rest of the container of the init container is opaque, and empty when it is not set. *)
Record GaleraInit := mkGaleraInit {
  gi_ContainerTemplate : string;
  gi_Image : string;
  gi_ImagePullPolicy : string
}.
#[export] Instance GaleraInit_eq_dec : EqDecision GaleraInit.
Proof. solve_decision. Defined.
Definition GaleraInit_zero : GaleraInit := mkGaleraInit "" "" "".

Record Galera := mkGalera {
  ga_Enabled : bool;
  ga_Primary : PrimaryGalera;
  ga_SST : string;
  ga_AvailableWhenDonor : option bool;
  ga_ReplicaThreads : Z;
  ga_ProviderOptions : gmap string string;
  ga_GaleraLibPath : string;
  ga_Agent : GaleraAgent;
  ga_Recovery : option GaleraRecovery;
  ga_InitContainer : GaleraInit;
  ga_Config : GaleraConfig
}.

Definition Galera_zero : Galera :=
  mkGalera false (mkPrimaryGalera None None) "" None 0 ∅ "" GaleraAgent_zero None GaleraInit_zero GaleraConfig_zero.

Record GaleraBootstrapStatus := mkGaleraBootstrapStatus {
  gbs_Time : option Z;
  gbs_Pod : option string
}.

(** A nil map is [None]; its values are pointers, which may be nil. *)
Record GaleraRecoveryStatus := mkGaleraRecoveryStatus {
  grs_State : option (gmap string (option GaleraState));
  grs_Recovered : option (gmap string (option Bootstrap));
  grs_Bootstrap : option GaleraBootstrapStatus;
  grs_PodsRestarted : option bool
}.

Definition GaleraRecoveryStatus_zero : GaleraRecoveryStatus :=
  mkGaleraRecoveryStatus None None None None.

#[export] Instance GaleraBootstrapStatus_eq_dec : EqDecision GaleraBootstrapStatus.
Proof. solve_decision. Defined.
#[export] Instance GaleraRecoveryStatus_eq_dec : EqDecision GaleraRecoveryStatus.
Proof. solve_decision. Defined.

(** ** Sources of backups
    The contents of the storage specifications are the builders' business. *)
Inductive StorageVolumeSource :=
  | PersistentVolumeClaimSource (claimName : string)
  | EmptyDirSource
  | OtherVolumeSource (spec : string).

Record BackupStagingStorage := mkBackupStagingStorage {
  bss_PersistentVolumeClaim : option string;
  bss_Volume : option StorageVolumeSource
}.

Definition BackupStagingStorage_zero : BackupStagingStorage := mkBackupStagingStorage None None.

Definition VolumeOrEmptyDir (s : BackupStagingStorage) (pvcKey : NamespacedName) : StorageVolumeSource :=
  match bss_PersistentVolumeClaim s with
  | Some _ => PersistentVolumeClaimSource (nn_Name pvcKey)
  | None => match bss_Volume s with Some v => v | None => EmptyDirSource end
  end.

Definition BackupContentTypeLogical : string := "Logical".
Definition BackupContentTypePhysical : string := "Physical".
Definition BackupContentType_Validate (b : string) : result unit :=
  if bool_decide (b = BackupContentTypeLogical) || bool_decide (b = BackupContentTypePhysical)
  then Ok tt else Err (ErrNew "invalid backup content type").

Definition BackupKind : string := "Backup".
Definition PhysicalBackupKind : string := "PhysicalBackup".
Record TypedLocalObjectReference := mkTypedLocalObjectReference { tlor_Name : string; tlor_Kind : string }.

(** A local reference is the name; an [S3] and the [RestoreJob] are opaque, but for being set. *)
Record BootstrapFrom := mkBootstrapFrom {
  bf_BackupRef : option TypedLocalObjectReference;
  bf_VolumeSnapshotRef : option string;
  bf_BackupContentType : string;
  bf_S3 : option string;
  bf_Volume : option StorageVolumeSource;
  bf_TargetRecoveryTime : option Z;
  bf_StagingStorage : option BackupStagingStorage;
  bf_RestoreJob : option string
}.
Definition BootstrapFrom_zero : BootstrapFrom := mkBootstrapFrom None None "" None None None None None.

(** The content type that goes with the reference, where the reference names one. *)
Definition BootstrapFrom_Validate (b : BootstrapFrom) : result unit :=
  if negb (is_some (bf_BackupRef b) || is_some (bf_VolumeSnapshotRef b) || is_some (bf_S3 b) ||
           is_some (bf_Volume b))
  then Err (ErrNew "unable to determine bootstrap source")
  else
    let type := bf_BackupContentType b in
    let not_ (t : string) := negb (bool_decide (type = "")) && negb (bool_decide (type = t)) in
    (if negb (bool_decide (type = "")) then
       wrap_err "invalid 'backupContentType'" (BackupContentType_Validate type) else Ok tt) ≫= λ _,
    match bf_BackupRef b with
    | None => Ok tt
    | Some ref =>
        let kind := tlor_Kind ref in
        if bool_decide (kind = "") || bool_decide (kind = BackupKind) then
          if not_ BackupContentTypeLogical
          then Err (ErrNew "inconsistent 'backupRef.kind' and 'backupContentType' fields. Logical type must be set in this case")
          else Ok tt
        else if bool_decide (kind = PhysicalBackupKind) then
          if not_ BackupContentTypePhysical
          then Err (ErrNew "inconsistent 'backupRef.kind' and 'backupContentType' fields. Physical type must be set in this case")
          else Ok tt
        else Err (ErrNew "unsupported backup kind")
    end ≫= λ _,
    if is_some (bf_VolumeSnapshotRef b) then
      if not_ BackupContentTypePhysical
      then Err (ErrNew "inconsistent 'volumeSnapshotRef' and 'backupContentType' fields. Physical type must be set in this case")
      else if is_some (bf_S3 b) || is_some (bf_Volume b) || is_some (bf_RestoreJob b)
      then Err (ErrNew "'s3', 'volume' and 'restoreJob' may not be set when 'volumeSnapshotRef' is set")
      else Ok tt
    else Ok tt.

Definition BootstrapFrom_IsDefaulted (b : BootstrapFrom) : bool :=
  is_some (bf_Volume b) || is_some (bf_VolumeSnapshotRef b).

(** The content type after defaulting. *)
Definition default_BackupContentType (b : BootstrapFrom) : string :=
  let type := bf_BackupContentType b in
  let type :=
    match bf_BackupRef b with
    | Some ref =>
        if bool_decide (type = "") then
          if bool_decide (tlor_Kind ref = BackupKind) then BackupContentTypeLogical
          else if bool_decide (tlor_Kind ref = PhysicalBackupKind) then BackupContentTypePhysical
          else type
        else type
    | None => type
    end in
  let type := if is_some (bf_VolumeSnapshotRef b) && bool_decide (type = "")
              then BackupContentTypePhysical else type in
  if bool_decide (type = "") then BackupContentTypeLogical else type.

(** [stagingPVCKey] is the MariaDB's [PhysicalBackupStagingPVCKey]. *)
Definition BootstrapFrom_SetDefaults (b : BootstrapFrom) (stagingPVCKey : NamespacedName) : BootstrapFrom :=
  let b := { b with bf_BackupContentType := default_BackupContentType b } in
  if bool_decide (bf_BackupContentType b = BackupContentTypePhysical) && is_some (bf_S3 b) then
    { b with bf_Volume :=
        Some (VolumeOrEmptyDir (default BackupStagingStorage_zero (bf_StagingStorage b)) stagingPVCKey) }
  else b.

Definition BootstrapFrom_SetDefaultsWithVolumeSnapshotRef (b : BootstrapFrom) (ref : string) : BootstrapFrom :=
  { b with bf_VolumeSnapshotRef := Some ref }.

Definition BootstrapFrom_TargetRecoveryTimeOrDefault (b : BootstrapFrom) (now : Z) : Z :=
  match bf_TargetRecoveryTime b with Some t => t | None => now end.

(** ** The rest of the spec *)
Record TLS := mkTLS {
  tls_Enabled : bool;
  tls_Required : option bool;
  tls_GaleraSSTEnabled : option bool;
  tls_ServerCASecretRef : option string;
  tls_ServerCertSecretRef : option string;
  (** a reference to an issuer of cert-manager, by name *)
  tls_ServerCertIssuerRef : option string;
  tls_ClientCASecretRef : option string;
  tls_ClientCertSecretRef : option string;
  tls_ClientCertIssuerRef : option string
}.
Definition TLS_zero : TLS := mkTLS false None None None None None None None None.

Definition ReplicasFirstPrimaryLastUpdateType : string := "ReplicasFirstPrimaryLast".
Definition RollingUpdateUpdateType : string := "RollingUpdate".
Definition OnDeleteUpdateType : string := "OnDelete".
Definition NeverUpdateType : string := "Never".

(** The options of the type RollingUpdate are opaque. *)
Record UpdateStrategy := mkUpdateStrategy {
  us_Type : string;
  us_RollingUpdate : option string;
  us_AutoUpdateDataPlane : option bool
}.
#[export] Instance UpdateStrategy_eq_dec : EqDecision UpdateStrategy.
Proof. solve_decision. Defined.
Definition UpdateStrategy_zero : UpdateStrategy := mkUpdateStrategy "" None None.

Definition UpdateStrategy_SetDefaults (u : UpdateStrategy) : UpdateStrategy :=
  mkUpdateStrategy
    (if bool_decide (us_Type u = "") then ReplicasFirstPrimaryLastUpdateType else us_Type u)
    (us_RollingUpdate u)
    (or_default (us_AutoUpdateDataPlane u) (Some false)).

(** Terms of anti-affinity: the label requirements on the other Pods and the topology. *)
Record LabelSelectorRequirement := mkLabelSelectorRequirement {
  lsr_Key : string; lsr_Operator : string; lsr_Values : list string
}.
Record PodAffinityTerm := mkPodAffinityTerm {
  pat_MatchExpressions : list LabelSelectorRequirement; pat_TopologyKey : string
}.

(** The other affinities are opaque. *)
Record AffinityConfig := mkAffinityConfig {
  aff_Affinity : string;
  aff_PodAntiAffinity : option (list PodAffinityTerm);
  aff_AntiAffinityEnabled : option bool
}.

Record Exporter := mkExporter {
  ex_Image : string;
  ex_Port : Z;
  ex_Affinity : option AffinityConfig
}.
Record MariadbMetrics := mkMariadbMetrics {
  mt_Enabled : bool;
  mt_Exporter : Exporter;
  mt_Username : string;
  mt_PasswordSecretKeyRef : GeneratedSecretKeyRef
}.
Definition MariadbMetrics_zero : MariadbMetrics :=
  mkMariadbMetrics false (mkExporter "" 0 None) "" SecretKeyRef_zero.

Record ServicePort := mkServicePort { svp_Name : string; svp_Port : Z }.
Record ServiceTemplate := mkServiceTemplate {
  svt_Type : string;
  svt_Metadata : option Metadata;
  svt_LoadBalancerIP : option string;
  svt_LoadBalancerSourceRanges : list string;
  svt_ExternalTrafficPolicy : option string;
  svt_SessionAffinity : option string;
  svt_AllocateLoadBalancerNodePorts : option bool
}.
Definition ServiceTemplate_zero : ServiceTemplate := mkServiceTemplate "" None None [] None None None.

Record PodDisruptionBudget := mkPodDisruptionBudget {
  pdb_MinAvailable : option IntOrString; pdb_MaxUnavailable : option IntOrString
}.

(** The fields of a template the operator does not read are opaque. *)
Record ConnectionTemplate := mkConnectionTemplate {
  ct_ServiceName : option string; ct_Template : string
}.

Record PasswordPlugin := mkPasswordPlugin {
  pp_PluginNameSecretKeyRef : option SecretKeySelector;
  pp_PluginArgSecretKeyRef : option SecretKeySelector
}.

(** A [ConfigMapKeySelector] is a name and a key, too. *)
Record MariaDBSpec := mkMariaDBSpec {
  sp_Image : string;
  sp_ServiceAccountName : option string;
  sp_Affinity : option AffinityConfig;
  sp_Suspend : bool;
  sp_RootPasswordSecretKeyRef : GeneratedSecretKeyRef;
  sp_RootEmptyPassword : option bool;
  sp_Database : option string;
  sp_Username : option string;
  sp_PasswordSecretKeyRef : option GeneratedSecretKeyRef;
  sp_PasswordHashSecretKeyRef : option SecretKeySelector;
  sp_PasswordPlugin : option PasswordPlugin;
  sp_MyCnf : option string;
  sp_MyCnfConfigMapKeyRef : option SecretKeySelector;
  sp_TimeZone : option string;
  sp_InheritMetadata : option Metadata;
  sp_BootstrapFrom : option BootstrapFrom;
  sp_Storage : Storage;
  sp_Metrics : option MariadbMetrics;
  sp_TLS : option TLS;
  sp_Replication : option Replication;
  sp_Galera : option Galera;
  sp_MaxScaleRef : option ObjectReference;
  (** [Spec.MaxScale.Enabled] *)
  sp_MaxScale : option bool;
  sp_Replicas : Z;
  sp_Port : Z;
  sp_ServicePorts : list ServicePort;
  sp_PodDisruptionBudget : option PodDisruptionBudget;
  sp_UpdateStrategy : UpdateStrategy;
  sp_Service : option ServiceTemplate;
  sp_Connection : option ConnectionTemplate;
  sp_PrimaryService : option ServiceTemplate;
  sp_PrimaryConnection : option ConnectionTemplate;
  sp_SecondaryService : option ServiceTemplate;
  sp_SecondaryConnection : option ConnectionTemplate
}.

(** The status of a certificate, in api/v1alpha1/base_types.go. *)
Record CertificateStatus := mkCertificateStatus {
  cs_NotAfter : Z; cs_NotBefore : Z; cs_Subject : string; cs_Issuer : string
}.

Record MariaDBTLSStatus := mkMariaDBTLSStatus {
  ts_CABundle : list CertificateStatus;
  ts_ServerCert : option CertificateStatus;
  ts_ClientCert : option CertificateStatus
}.

Record MariaDBStatus := mkMariaDBStatus {
  st_Conditions : list Condition;
  st_Replicas : Z;
  st_CurrentPrimaryPodIndex : option Z;
  st_CurrentPrimary : option string;
  st_CurrentPrimaryFailingSince : option Z;
  st_GaleraRecovery : option GaleraRecoveryStatus;
  (** a nil map is [None] *)
  st_ReplicationStatus : option ReplicationStatus;
  st_DefaultVersion : string;
  st_TLS : option MariaDBTLSStatus
}.

(** [m_Deleting]: the deletion timestamp is set. *)
Record MariaDB := mkMariaDB {
  m_meta : ObjectMeta;
  m_Spec : MariaDBSpec;
  m_Status : MariaDBStatus;
  m_Deleting : bool
}.

Definition MariaDBSpec_zero : MariaDBSpec :=
  mkMariaDBSpec "" None None false SecretKeyRef_zero None None None None None None None None None None None
    Storage_zero None None None None None None 0 0 [] None UpdateStrategy_zero None None None None None None.
Definition MariaDBStatus_zero : MariaDBStatus := mkMariaDBStatus [] 0 None None None None None "" None.
Definition MariaDB_zero (meta : ObjectMeta) : MariaDB :=
  mkMariaDB meta MariaDBSpec_zero MariaDBStatus_zero false.

(** ** The environment of the operator *)
Record OperatorEnv := mkOperatorEnv {
  env_MariadbOperatorImage : string;
  env_RelatedMariadbImage : string;
  env_RelatedExporterImage : string;
  env_MariadbOperatorNamespace : string;
  env_MariadbGaleraLibPath : string;
  env_MariadbDefaultVersion : string;
  env_WatchNamespace : string;
  env_RelatedMaxscaleImage : string;
  env_RelatedExporterMaxscaleImage : string
}.

Definition WatchNamespaces (e : OperatorEnv) : result (list string) :=
  if bool_decide (env_WatchNamespace e = "")
  then Err (ErrNew "WATCH_NAMESPACE environment variable not set")
  else if Contains (env_WatchNamespace e) "," then Ok (Split (env_WatchNamespace e) ",")
  else Ok [env_WatchNamespace e].

Definition CurrentNamespaceOnly (e : OperatorEnv) : result bool :=
  if bool_decide (env_WatchNamespace e = "") then Ok false else
  watchNamespaces ← wrap_err "error getting namespaces to watch" (WatchNamespaces e);
  match watchNamespaces with
  | [ns] => Ok (bool_decide (ns = env_MariadbOperatorNamespace e))
  | _ => Ok false
  end.

(** ** Validation and defaulting of the Galera agent *)
Definition AuthDelegatorRoleNameOrDefault (k : KubernetesAuth) (mariadb : MariaDB) : string :=
  if negb (bool_decide (ka_AuthDelegatorRoleName k = "")) then ka_AuthDelegatorRoleName k else
  let name := Name (m_meta mariadb) +:+ "-" +:+ Namespace (m_meta mariadb) in
  match Split (UID (m_meta mariadb)) "-" with
  | part :: _ => name +:+ "-" +:+ part
  | [] => name
  end.

Definition AgentAuthSecretKeyRef (m : MariaDB) : GeneratedSecretKeyRef :=
  mkGeneratedSecretKeyRef (mkSecretKeySelector (Name (m_meta m) +:+ "-agent-auth") "password") true.

Definition BasicAuth_SetDefaults (b : BasicAuth) (mariadb : MariaDB) : BasicAuth :=
  if negb (ba_Enabled b) then b else
  mkBasicAuth (ba_Enabled b)
    (if bool_decide (ba_Username b = "") then "mariadb-operator" else ba_Username b)
    (if bool_decide (ba_PasswordSecretKeyRef b = SecretKeyRef_zero)
     then AgentAuthSecretKeyRef mariadb else ba_PasswordSecretKeyRef b).

(** The authentication methods: a basic authentication is added for an operator of one
    namespace, which cannot review tokens; otherwise one is chosen when there is none. *)
Definition default_auth (currentNamespaceOnly : bool) (r : GaleraAgent) : option KubernetesAuth * option BasicAuth :=
  if currentNamespaceOnly then
    (agent_KubernetesAuth r, or_default (agent_BasicAuth r) (Some (mkBasicAuth true "" SecretKeyRef_zero)))
  else match agent_KubernetesAuth r, agent_BasicAuth r with
       | None, None => (Some (mkKubernetesAuth true ""), None)
       | k, b => (k, b)
       end.

Definition GaleraAgent_SetDefaults (r : GaleraAgent) (mariadb : MariaDB) (env : OperatorEnv) :
    result GaleraAgent :=
  currentNamespaceOnly ← wrap_err "error checking operator watch scope" (CurrentNamespaceOnly env);
  let '(kubernetesAuth, basicAuth) := default_auth currentNamespaceOnly r in
  Ok (mkGaleraAgent
    (if bool_decide (agent_Image r = "") then env_MariadbOperatorImage env else agent_Image r)
    (if bool_decide (agent_Port r = 0) then 5555 else agent_Port r)
    (if bool_decide (agent_ProbePort r = 0) then 5566 else agent_ProbePort r)
    kubernetesAuth ((λ b, BasicAuth_SetDefaults b mariadb) <$> basicAuth)
    (or_default (agent_GracefulShutdownTimeout r) (Some (1 * Second)))).

Definition GaleraAgent_Validate (r : GaleraAgent) : result unit :=
  let kubernetesAuth := default KubernetesAuth_zero (agent_KubernetesAuth r) in
  let basicAuth := default BasicAuth_zero (agent_BasicAuth r) in
  if ka_Enabled kubernetesAuth && ba_Enabled basicAuth
  then Err (ErrNew "only one authentication method must be enabled: kubernetes or basic auth")
  else Ok tt.

(** ** Validation and defaulting of the Galera recovery *)
Definition GaleraRecovery_Validate `{ScaledValue} (g : GaleraRecovery) (mdb : MariaDB) : result unit :=
  if negb (gr_Enabled g) then Ok tt else
  match gr_MinClusterSize g with
  | None => Ok tt
  | Some size =>
      GetScaledValueFromIntOrPercent size 0 false ≫= λ _,
      match size with
      | IntVal minClusterSize =>
          if bool_decide (minClusterSize < 0) ||
             bool_decide (sp_Replicas (m_Spec mdb) < minClusterSize)
          then Err (ErrNew "'spec.galera.recovery.minClusterSize' out of 'spec.replicas' bounds")
          else Ok tt
      | StrVal _ => Ok tt
      end
  end ≫= λ _,
  match gr_ForceClusterBootstrapInPod g with
  | None => Ok tt
  | Some pod =>
      wrap_err "'spec.galera.recovery.forceClusterBootstrapInPod' invalid"
        (ValidPodName (m_meta mdb) (sp_Replicas (m_Spec mdb)) pod)
  end.

Definition GaleraRecovery_SetDefaults (g : GaleraRecovery) : GaleraRecovery :=
  mkGaleraRecovery
    (gr_Enabled g)
    (or_default (gr_MinClusterSize g) (Some (IntVal 1)))
    (or_default (gr_ClusterMonitorInterval g) (Some (10 * Second)))
    (or_default (gr_ClusterHealthyTimeout g) (Some (30 * Second)))
    (or_default (gr_ClusterBootstrapTimeout g) (Some (10 * Minute)))
    (or_default (gr_ClusterUpscaleTimeout g) (Some (5 * Minute)))
    (or_default (gr_ClusterDownscaleTimeout g) (Some (5 * Minute)))
    (or_default (gr_PodRecoveryTimeout g) (Some (5 * Minute)))
    (or_default (gr_PodSyncTimeout g) (Some (5 * Minute)))
    (gr_ForceClusterBootstrapInPod g).

Definition HasMinClusterSize `{ScaledValue} (g : GaleraRecovery) (currentSize : Z) (mdb : MariaDB) :
    result bool :=
  let minClusterSize := default (IntVal 1) (gr_MinClusterSize g) in
  scaled ← GetScaledValueFromIntOrPercent minClusterSize (sp_Replicas (m_Spec mdb)) true;
  Ok (bool_decide (scaled ≤ currentSize)).

(** ** Methods of MariaDBStatus and MariaDB *)
Definition SetCondition `{StatusConditions} (s : MariaDBStatus) (c : Condition) : MariaDBStatus :=
  { s with st_Conditions := SetStatusCondition (st_Conditions s) c }.

Definition UpdateCurrentPrimary (s : MariaDBStatus) (mariadb : MariaDB) (index : Z) : MariaDBStatus :=
  { s with st_CurrentPrimaryPodIndex := Some index;
           st_CurrentPrimary := Some (PodName (m_meta mariadb) index) }.

(** The accessor [Replication()] writes the defaults into the object it reads. *)
Definition MariaDB_Replication (m : MariaDB) : MariaDB * Replication :=
  let r := ReplicationSpec_FillWithDefaults
             (default Replication_zero (sp_Replication (m_Spec m))) in
  ({ m with m_Spec -> sp_Replication := Some r }, r).

(** The value it returns. *)
Definition replication (m : MariaDB) : Replication := (MariaDB_Replication m).2.

(** [*m.Replication().Primary.PodIndex] and the like: the defaulted pointers are
    never nil ([replication_filled]). *)
Definition primary (m : MariaDB) : PrimaryReplication :=
  default DefaultPrimary (rep_Primary (replication m)).
Definition replica (m : MariaDB) : ReplicaReplication :=
  default DefaultReplica (rep_Replica (replication m)).
Definition primary_PodIndex (m : MariaDB) : Z := default 0 (pr_PodIndex (primary m)).

Definition IsGaleraEnabled (m : MariaDB) : bool :=
  ga_Enabled (default Galera_zero (sp_Galera (m_Spec m))).

Definition IsHAEnabled (m : MariaDB) : bool := rep_Enabled (replication m) || IsGaleraEnabled m.

Definition IsMaxScaleEnabled (m : MariaDB) : bool :=
  if sp_MaxScaleRef (m_Spec m) is Some _ then true else false.

Definition IsInitialUserEnabled (m : MariaDB) : bool :=
  let isSome {A} (x : option A) := if x is Some _ then true else false in
  isSome (sp_Username (m_Spec m)) && isSome (sp_Database (m_Spec m)) &&
  (isSome (sp_PasswordSecretKeyRef (m_Spec m)) || isSome (sp_PasswordHashSecretKeyRef (m_Spec m)) ||
   isSome (sp_PasswordPlugin (m_Spec m))).

Definition IsRootPasswordEmpty (m : MariaDB) : bool :=
  match sp_RootEmptyPassword (m_Spec m) with Some b => b | None => false end.

Definition IsRootPasswordDefined (m : MariaDB) : bool :=
  negb (bool_decide (sp_RootPasswordSecretKeyRef (m_Spec m) = SecretKeyRef_zero)).

Definition AreMetricsEnabled (m : MariaDB) : bool :=
  mt_Enabled (default MariadbMetrics_zero (sp_Metrics (m_Spec m))).

Definition IsEphemeralStorageEnabled (m : MariaDB) : bool :=
  default false (sto_Ephemeral (sp_Storage (m_Spec m))).

Definition Storage_Validate (s : Storage) (mdb : MariaDB) : result unit :=
  let isSome {A} (x : option A) := if x is Some _ then true else false in
  let ephemeral := default false (sto_Ephemeral s) in
  if ephemeral && IsHAEnabled mdb
  then Err (ErrNew "ephemeral storage is only compatible with non HA MariaDBs")
  else if ephemeral && (isSome (sto_Size s) || isSome (sto_VolumeClaimTemplate s))
  then Err (ErrNew "either ephemeral or regular storage must be provided")
  else if ephemeral then Ok tt
  else match sto_Size s, sto_VolumeClaimTemplate s with
       | None, None => Err (ErrNew "either storage size or volumeClaimTemplate must be provided")
       | None, Some _ => Ok tt
       | Some size, vctpl =>
           if bool_decide (size = 0) then Err (ErrNew "greater than zero storage size must be provided")
           else match vctpl ≫= vt_size with
                | None => Ok tt
                | Some vctplSize =>
                    if bool_decide (size < vctplSize)
                    then Err (ErrNew "storage size cannot be decreased") else Ok tt
                end
       end.

Definition IsTLSEnabled (m : MariaDB) : bool := tls_Enabled (default TLS_zero (sp_TLS (m_Spec m))).

Definition IsTLSRequired (m : MariaDB) : bool :=
  if negb (IsTLSEnabled m) then false
  else default false (tls_Required (default TLS_zero (sp_TLS (m_Spec m)))).

Definition IsTLSForGaleraSSTEnabled (m : MariaDB) : bool :=
  if negb (IsGaleraEnabled m) || negb (IsTLSEnabled m) then false
  else default false (tls_GaleraSSTEnabled (default TLS_zero (sp_TLS (m_Spec m)))).

Definition IsSuspended (m : MariaDB) : bool := sp_Suspend (m_Spec m).

Definition GetAutomaticFailoverDelay (m : MariaDB) : Z :=
  default (default 0 (pr_AutomaticFailoverDelay DefaultPrimary))
    (pr_AutomaticFailoverDelay
       (default (mkPrimaryReplication None None None) (rep_Primary (replication m)))).

Definition HasConfiguredReplica `{MapRange} (m : MariaDB) : bool :=
  ReplicationStatus_HasConfiguredReplica (default ∅ (st_ReplicationStatus (m_Status m))).
Definition IsConfiguredReplica `{MapRange} (m : MariaDB) (podName : string) : bool :=
  ReplicationStatus_IsConfiguredReplica (default ∅ (st_ReplicationStatus (m_Status m))) podName.

Section conditions.
Context `{StatusConditions} (m : MariaDB).
Let cs := st_Conditions (m_Status m).

Definition IsReady : bool := IsStatusConditionTrue cs ConditionTypeReady.
Definition IsRestoringBackup : bool := IsStatusConditionFalse cs ConditionTypeBackupRestored.
Definition HasRestoredBackup : bool := IsStatusConditionTrue cs ConditionTypeBackupRestored.
Definition IsResizingStorage : bool := IsStatusConditionFalse cs ConditionTypeStorageResized.

(** A condition is present, false and has the given reason. *)
Definition condition_false_because (type reason : string) : bool :=
  match FindStatusCondition cs type with
  | None => false
  | Some c => bool_decide (c_Status c = ConditionFalse) && bool_decide (c_Reason c = reason)
  end.

Definition IsWaitingForStorageResize : bool :=
  condition_false_because ConditionTypeStorageResized ConditionReasonWaitStorageResize.
Definition HasPendingUpdate : bool :=
  condition_false_because ConditionTypeUpdated ConditionReasonPendingUpdate.
Definition IsUpdating : bool :=
  condition_false_because ConditionTypeUpdated ConditionReasonUpdating.

Definition IsInitialized : bool := IsStatusConditionTrue cs ConditionTypeInitialized.
Definition IsInitializing : bool := IsStatusConditionFalse cs ConditionTypeInitialized.

Definition InitError : option error :=
  match FindStatusCondition cs ConditionTypeInitialized with
  | None => None
  | Some c =>
      if bool_decide (c_Status c = ConditionFalse) &&
         bool_decide (c_Reason c = ConditionReasonInitError)
      then Some (ErrNew (c_Message c)) else None
  end.

Definition IsSwitchingPrimary : bool := IsStatusConditionFalse cs ConditionTypePrimarySwitched.
Definition HasGaleraReadyCondition : bool := IsStatusConditionTrue cs ConditionTypeGaleraReady.
Definition HasGaleraNotReadyCondition : bool := IsStatusConditionFalse cs ConditionTypeGaleraReady.
Definition HasGaleraConfiguredCondition : bool :=
  IsStatusConditionTrue cs ConditionTypeGaleraConfigured.
Definition IsGaleraInitialized : bool := IsStatusConditionTrue cs ConditionTypeGaleraInitialized.
Definition IsGaleraInitializing : bool := IsStatusConditionFalse cs ConditionTypeGaleraInitialized.
End conditions.

(** ** Keys *)
Definition InternalServiceName (mariadbName : string) : string := mariadbName +:+ "-internal".
Definition key_with_suffix (m : MariaDB) (suffix : string) : NamespacedName :=
  mkNamespacedName (Name (m_meta m) +:+ suffix) (Namespace (m_meta m)).
Definition InternalServiceKey (m : MariaDB) : NamespacedName :=
  mkNamespacedName (InternalServiceName (Name (m_meta m))) (Namespace (m_meta m)).
Definition PrimaryServiceKey (m : MariaDB) : NamespacedName := key_with_suffix m "-primary".
Definition SecondaryServiceKey (m : MariaDB) : NamespacedName := key_with_suffix m "-secondary".
Definition RecoveryJobKey (m : MariaDB) (podName : string) : NamespacedName :=
  mkNamespacedName (podName +:+ "-recovery") (Namespace (m_meta m)).
Definition TLSCABundleSecretKeyRef (m : MariaDB) : SecretKeySelector :=
  mkSecretKeySelector (Name (m_meta m) +:+ "-ca-bundle") "ca.crt".
Definition TLSConfigMapKeyRef (m : MariaDB) : SecretKeySelector :=
  mkSecretKeySelector (Name (m_meta m) +:+ "-config-tls") "1-tls.cnf".
Definition TLSServerCertSecretKey (m : MariaDB) : NamespacedName :=
  let tls := default TLS_zero (sp_TLS (m_Spec m)) in
  match tls_Enabled tls, tls_ServerCertSecretRef tls with
  | true, Some ref => mkNamespacedName ref (Namespace (m_meta m))
  | _, _ => key_with_suffix m "-server-cert"
  end.
Definition TLSServerCASecretKey (m : MariaDB) : NamespacedName :=
  let tls := default TLS_zero (sp_TLS (m_Spec m)) in
  match tls_Enabled tls, tls_ServerCASecretRef tls, tls_ServerCertIssuerRef tls with
  | true, Some ref, _ => mkNamespacedName ref (Namespace (m_meta m))
  | true, None, Some _ => mkNamespacedName (nn_Name (TLSServerCertSecretKey m)) (Namespace (m_meta m))
  | _, _, _ => key_with_suffix m "-ca"
  end.
Definition TLSClientCertSecretKey (m : MariaDB) : NamespacedName :=
  let tls := default TLS_zero (sp_TLS (m_Spec m)) in
  match tls_Enabled tls, tls_ClientCertSecretRef tls with
  | true, Some ref => mkNamespacedName ref (Namespace (m_meta m))
  | _, _ => key_with_suffix m "-client-cert"
  end.
Definition TLSClientCASecretKey (m : MariaDB) : NamespacedName :=
  let tls := default TLS_zero (sp_TLS (m_Spec m)) in
  match tls_Enabled tls, tls_ClientCASecretRef tls, tls_ClientCertIssuerRef tls with
  | true, Some ref, _ => mkNamespacedName ref (Namespace (m_meta m))
  | true, None, Some _ => mkNamespacedName (nn_Name (TLSClientCertSecretKey m)) (Namespace (m_meta m))
  | _, _, _ => key_with_suffix m "-ca"
  end.
Definition InitKey (m : MariaDB) : NamespacedName := key_with_suffix m "-init".
Definition PhysicalBackupInitJobKey (m : MariaDB) (podIndex : Z) : NamespacedName :=
  mkNamespacedName (PodName (m_meta m) podIndex +:+ "-physicalbackup-init") (Namespace (m_meta m)).
Definition PhysicalBackupStagingPVCKey (m : MariaDB) : NamespacedName :=
  key_with_suffix m "-physicalbackup-staging".
Definition PVCKey (m : MariaDB) (name : string) (index : Z) : NamespacedName :=
  mkNamespacedName (name +:+ "-" +:+ Name (m_meta m) +:+ "-" +:+ Itoa index) (Namespace (m_meta m)).

Definition GetHost (CLUSTER_NAME : string) (m : MariaDB) : string :=
  if IsHAEnabled m
  then ServiceFQDNWithService CLUSTER_NAME (m_meta m) (nn_Name (PrimaryServiceKey m))
  else ServiceFQDN CLUSTER_NAME (m_meta m).

Definition TLSServerDNSNames (CLUSTER_NAME : string) (m : MariaDB) : list string :=
  ServiceNameVariants CLUSTER_NAME (m_meta m) (Name (m_meta m)) ++
  HeadlessServiceNameVariants CLUSTER_NAME (m_meta m) "*" (nn_Name (InternalServiceKey m)) ++
  ServiceNameVariants CLUSTER_NAME (m_meta m) (nn_Name (PrimaryServiceKey m)) ++
  ServiceNameVariants CLUSTER_NAME (m_meta m) (nn_Name (SecondaryServiceKey m)) ++ ["localhost"].
Definition TLSClientNames (m : MariaDB) : list string := [Name (m_meta m) +:+ "-client"].

(** ** An instance of [ScaledValue]: integers and decimal percentages *)
Definition scale_value (v : IntOrString) (total : Z) (up : bool) : result Z :=
  match v with
  | IntVal i => Ok i
  | StrVal s =>
      match Split s "%" with
      | [d; ""] =>
          p ← Atoi d;
          Ok (if up then - ((- (p * total)) `div` 100) else (p * total) `div` 100)
      | _ => Err (ErrNew "invalid value for IntOrString: not a percentage")
      end
  end.

#[export] Program Instance decimal_scaled_value : ScaledValue := {|
  GetScaledValueFromIntOrPercent := scale_value
|}.
Next Obligation. done. Qed.
Next Obligation.
  intros p total up Hp _. unfold scale_value.
  change (Itoa p +:+ "%") with (Itoa p +:+ String "%"%char "").
  rewrite Split_app_sep by (by apply Itoa_not_In).
  cbn [Split Split_from]. rewrite Atoi_Itoa; [done|].
  unfold in_int, int_min, int_max. rewrite andb_true_iff, !bool_decide_eq_true. lia.
Qed.

(** ** Lemmas *)
Lemma or_default_idem {A} (x d : option A) : or_default (or_default x d) d = or_default x d.
Proof. by destruct x, d. Qed.

Lemma PrimaryReplication_FillWithDefaults_idem r :
  PrimaryReplication_FillWithDefaults (PrimaryReplication_FillWithDefaults r) =
  PrimaryReplication_FillWithDefaults r.
Proof. unfold PrimaryReplication_FillWithDefaults; cbn. by rewrite !or_default_idem. Qed.

Lemma ReplicaReplication_FillWithDefaults_idem r :
  ReplicaReplication_FillWithDefaults (ReplicaReplication_FillWithDefaults r) =
  ReplicaReplication_FillWithDefaults r.
Proof. unfold ReplicaReplication_FillWithDefaults; cbn. by rewrite !or_default_idem. Qed.

Lemma ReplicationSpec_FillWithDefaults_idem r :
  ReplicationSpec_FillWithDefaults (ReplicationSpec_FillWithDefaults r) =
  ReplicationSpec_FillWithDefaults r.
Proof.
  unfold ReplicationSpec_FillWithDefaults; cbn. rewrite !or_default_idem.
  by destruct (rep_Primary r), (rep_Replica r); cbn;
    rewrite ?PrimaryReplication_FillWithDefaults_idem, ?ReplicaReplication_FillWithDefaults_idem.
Qed.

(** No pointer the reconcilers dereference after [Replication()] is nil. *)
Lemma replication_filled m :
  rep_Primary (replication m) = Some (primary m) ∧
  rep_Replica (replication m) = Some (replica m) ∧
  is_Some (pr_PodIndex (primary m)) ∧ is_Some (pr_AutomaticFailover (primary m)) ∧
  is_Some (pr_AutomaticFailoverDelay (primary m)) ∧
  is_Some (rr_WaitPoint (replica m)) ∧ is_Some (rr_Gtid (replica m)) ∧
  is_Some (rr_ConnectionTimeout (replica m)) ∧ is_Some (rr_ConnectionRetries (replica m)) ∧
  is_Some (rr_SyncTimeout (replica m)).
Proof.
  unfold primary, replica, replication, MariaDB_Replication. cbn.
  destruct (sp_Replication (m_Spec m)) as [[[[[][][]]|] [[[][]?[][][]]|] ???]|];
    cbn; split_and!; eauto.
Qed.

Lemma primary_PodIndex_Some m : pr_PodIndex (primary m) = Some (primary_PodIndex m).
Proof.
  destruct (replication_filled m) as (_ & _ & [i Hi] & _).
  unfold primary_PodIndex. by rewrite Hi.
Qed.

Lemma HasConfiguredReplica_spec `{MapRange} m :
  HasConfiguredReplica m = true ↔
  ∃ pod, default ∅ (st_ReplicationStatus (m_Status m)) !! pod = Some ReplicationStateSlave.
Proof.
  unfold HasConfiguredReplica, ReplicationStatus_HasConfiguredReplica.
  rewrite existsb_exists. split.
  - intros (pod & _ & Hpod%bool_decide_eq_true). eauto.
  - intros [pod Hpod]. exists pod. rewrite bool_decide_eq_true. split; [|done].
    apply list_elem_of_In, range_keys_elem. eauto.
Qed.

Lemma IsConfiguredReplica_spec `{MapRange} m pod :
  IsConfiguredReplica m pod =
  bool_decide (default ∅ (st_ReplicationStatus (m_Status m)) !! pod = Some ReplicationStateSlave).
Proof.
  unfold IsConfiguredReplica, ReplicationStatus_IsConfiguredReplica.
  apply eq_true_iff_eq. rewrite existsb_exists, bool_decide_eq_true. split.
  - intros (pod' & _ & [->%bool_decide_eq_true ?%bool_decide_eq_true]%andb_true_iff). done.
  - intros Hpod. exists pod. rewrite andb_true_iff, !bool_decide_eq_true. split; [|done].
    apply list_elem_of_In, range_keys_elem. eauto.
Qed.

(** ** Properties *)

(** The defaulting accessor [Replication()] leaves no pointer nil, keeps
    every value the user set, and writing the defaults into the object changes
    nothing for the next reader: calling it again returns the same value and the
    same object. *)
Theorem replication_defaulting m :
  let '(m', r) := MariaDB_Replication m in
  MariaDB_Replication m' = (m', r) ∧
  (∃ p q, rep_Primary r = Some p ∧ rep_Replica r = Some q ∧
     is_Some (pr_PodIndex p) ∧ is_Some (pr_AutomaticFailover p) ∧
     is_Some (pr_AutomaticFailoverDelay p) ∧
     is_Some (rr_WaitPoint q) ∧ is_Some (rr_Gtid q) ∧ is_Some (rr_ConnectionTimeout q) ∧
     is_Some (rr_ConnectionRetries q) ∧ is_Some (rr_SyncTimeout q) ∧
     (∀ u i, sp_Replication (m_Spec m) ≫= rep_Primary = Some u →
        pr_PodIndex u = Some i → pr_PodIndex p = Some i) ∧
     (∀ u b, sp_Replication (m_Spec m) ≫= rep_Primary = Some u →
        pr_AutomaticFailover u = Some b → pr_AutomaticFailover p = Some b) ∧
     (∀ u g, sp_Replication (m_Spec m) ≫= rep_Replica = Some u →
        rr_Gtid u = Some g → rr_Gtid q = Some g)) ∧
  is_Some (rep_SyncBinlog r) ∧ is_Some (rep_ProbesEnabled r) ∧
  rep_Enabled r = default false (rep_Enabled <$> sp_Replication (m_Spec m)).
Proof.
  cbn. split; [|split; [exists (primary m), (replica m)|]].
  - unfold MariaDB_Replication. cbn. by rewrite ReplicationSpec_FillWithDefaults_idem.
  - destruct (replication_filled m) as (Hp & Hq & H). split_and!; try apply H; try done;
      clear Hp Hq H; intros u i Hu Hi;
      unfold primary, replica, replication, MariaDB_Replication; cbn;
      (destruct (sp_Replication (m_Spec m)) as [r|]; [|done]); cbn in *; rewrite Hu; cbn;
      by rewrite Hi.
  - destruct (sp_Replication (m_Spec m)) as [[??[] [] ?]|]; cbn; split_and!; eauto.
Qed.

(** With a minimum cluster size of [p] percent, a cluster of [n] replicas is
    large enough exactly when [currentSize * 100 >= p * n]: the share is rounded
    up, and a size that is not set counts as one replica. *)
Theorem has_min_cluster_size `{ScaledValue} g mdb currentSize :
  (∀ p, gr_MinClusterSize g = Some (StrVal (Itoa p +:+ "%")) →
     0 ≤ p ≤ 100 → 0 ≤ sp_Replicas (m_Spec mdb) < 2 ^ 31 →
     HasMinClusterSize g currentSize mdb =
       Ok (bool_decide (p * sp_Replicas (m_Spec mdb) ≤ currentSize * 100))) ∧
  (∀ i, gr_MinClusterSize g = Some (IntVal i) →
     HasMinClusterSize g currentSize mdb = Ok (bool_decide (i ≤ currentSize))) ∧
  (gr_MinClusterSize g = None →
     HasMinClusterSize g currentSize mdb = Ok (bool_decide (1 ≤ currentSize))).
Proof.
  unfold HasMinClusterSize. split_and!.
  - intros p -> Hp Hn. cbn [default from_option id]. rewrite scaled_percent by done.
    cbn. f_equal. apply bool_decide_ext. set (t := p * _).
    pose proof (Z.div_mod (- t) 100 ltac:(lia)). pose proof (Z.mod_pos_bound (- t) 100 ltac:(lia)). lia.
  - intros i ->. cbn [default from_option id]. by rewrite scaled_int.
  - intros ->. cbn [default from_option id]. by rewrite scaled_int.
Qed.

(** A [minClusterSize] integer that passes validation is reached by a cluster
    with all of its replicas, and a validated [forceClusterBootstrapInPod] has an
    ordinal within the replicas. *)
Theorem galera_recovery_validate_sound `{ScaledValue} g mdb :
  GaleraRecovery_Validate g mdb = Ok tt → gr_Enabled g = true →
  (∀ i, gr_MinClusterSize g = Some (IntVal i) →
     HasMinClusterSize g (sp_Replicas (m_Spec mdb)) mdb = Ok true) ∧
  (∀ pod, gr_ForceClusterBootstrapInPod g = Some pod →
     ∃ i, PodIndex pod = Ok i ∧ 0 ≤ i < sp_Replicas (m_Spec mdb)).
Proof.
  unfold GaleraRecovery_Validate. intros HV HE. rewrite HE in HV. cbn in HV. split.
  - intros i Hi. rewrite Hi, scaled_int in HV. cbn in HV. unfold HasMinClusterSize.
    rewrite Hi. cbn. rewrite scaled_int. cbn. f_equal. apply bool_decide_eq_true.
    destruct (decide (sp_Replicas (m_Spec mdb) < i)); [|lia].
    rewrite (bool_decide_eq_true_2 (_ < i)), orb_true_r in HV by done. done.
  - intros pod Hpod. rewrite Hpod in HV. apply result_bind_Ok in HV as (_ & _ & HV).
    apply wrap_err_Ok, ValidPodName_Ok in HV. naive_solver.
Qed.

Lemma galera_recovery_validate_sound_witness :
  let meta := mkObjectMeta "mariadb" "default" "" ∅ ∅ in
  let mdb := { MariaDB_zero meta with m_Spec -> sp_Replicas := 3 } in
  let g := { GaleraRecovery_zero with gr_Enabled := true; gr_MinClusterSize := Some (IntVal 2);
             gr_ForceClusterBootstrapInPod := Some "mariadb-1" } in
  HasMinClusterSize g 3 mdb = Ok true.
Proof.
  cbn zeta.
  refine (proj1 (galera_recovery_validate_sound
    ({ GaleraRecovery_zero with gr_Enabled := true; gr_MinClusterSize := Some (IntVal 2);
       gr_ForceClusterBootstrapInPod := Some "mariadb-1" })
    ({ MariaDB_zero (mkObjectMeta "mariadb" "default" "" ∅ ∅) with m_Spec -> sp_Replicas := 3 }) _ _) 2 _);
    vm_compute; reflexivity.
Defined.
