(* ===== verification/GaleraConfig.v ===== *)
(** * pkg/galera/config: the configuration file of a Galera node

    The init container of a node renders it from the MariaDB and the environment of the Pod
    ([ConfigFile_Marshal]); when the API server cannot be reached it refreshes the addresses
    of the file that is there ([UpdateConfig]).  The options of the Galera provider are one
    quoted value of that file, a list of key-value pairs of their own. *)

From Stdlib Require Import Ascii.
From S2P Require Import Prelude GoStrings GoNet StatefulSet Datastructures Conditions MariaDBTypes.

Local Open Scope Z_scope.

(** ** pkg/environment: the environment of a Pod *)
Record PodEnvironment := mkPodEnvironment {
  ClusterName : string;
  PodEnv_PodName : string;
  PodNamespace : string;
  PodIP : string;
  MariadbName : string;
  MariadbRootPassword : string;
  MariadbPort : string;
  TLSEnabled : string;
  TLSCACertPath : string;
  TLSServerCertPath : string;
  TLSServerKeyPath : string;
  TLSClientCertPath : string;
  TLSClientKeyPath : string
}.

(** [int32(port)] *)
Definition int32_wrap (z : Z) : Z := (z + 2 ^ 31) mod 2 ^ 32 - 2 ^ 31.
Definition PodEnv_Port (e : PodEnvironment) : result Z := int32_wrap <$> Atoi (MariadbPort e).

(** [strconv.ParseBool] *)
Definition ParseBool (s : string) : result bool :=
  if bool_decide (s ∈ ["1"; "t"; "T"; "TRUE"; "true"; "True"]) then Ok true
  else if bool_decide (s ∈ ["0"; "f"; "F"; "FALSE"; "false"; "False"]) then Ok false
  else Err (ErrNew "strconv.ParseBool: invalid syntax").
Definition FormatBool (b : bool) : string := if b then "true" else "false".

Definition PodEnv_IsTLSEnabled (e : PodEnvironment) : result bool :=
  if bool_decide (TLSEnabled e = "") then Ok false else ParseBool (TLSEnabled e).

(** ** kv_option.go *)
Record kvOption := mkKvOption { kv_key : string; kv_value : string; kv_quoted : bool }.

Definition quote : ascii := "034".
Definition quote_s : string := String quote "".

Definition kvOption_marshal (k : kvOption) : string :=
  if kv_quoted k then kv_key k +:+ "=" +:+ quote_s +:+ kv_value k +:+ quote_s
  else kv_key k +:+ "=" +:+ kv_value k.

(** [value[1 : len(value)-1]] of a value in quotes *)
Fixpoint str_init (s : string) : string :=
  match s with
  | EmptyString => ""
  | String _ EmptyString => ""
  | String c s' => String c (str_init s')
  end.
Definition unquote (value : string) : option string :=
  match value with
  | String q (String _ _ as s) =>
      if bool_decide (q = quote) && bool_decide (str_last s = Some quote) then Some (str_init s) else None
  | _ => None
  end.

Definition kvOption_unmarshal (text : string) : result kvOption :=
  let str := TrimSpace text in
  if bool_decide (str = "") then Err (ErrNew "empty input") else
  match SplitN2 str "=" with
  | [p0; p1] =>
      let key := TrimSpace p0 in
      let value := TrimSpace p1 in
      Ok (match unquote value with
          | Some value => mkKvOption key value true
          | None => mkKvOption key value false
          end)
  | _ => Err (ErrNew "invalid input")
  end.

(** ** provider_options.go *)
Definition providerOptsDelimiter : string := ";".
Abbreviation providerOptions := (gmap string string).

Section provider.
Context `{MapRange}.

Definition providerOptions_marshal (p : providerOptions) : string :=
  let keys := sort_Strings (range_keys p) in
  Join ((λ key, kvOption_marshal (mkKvOption key (default "" (p !! key)) false)) <$> keys)
    providerOptsDelimiter.

Fixpoint unmarshal_opts (p : providerOptions) (opts : list string) : result providerOptions :=
  match opts with
  | [] => Ok p
  | opt :: opts =>
      kvOpt ← wrap_err "error unmarshalling option" (kvOption_unmarshal opt);
      unmarshal_opts (<[kv_key kvOpt := kv_value kvOpt]> p) opts
  end.

Definition providerOptions_unmarshal (p : providerOptions) (text : string) : result providerOptions :=
  let str := TrimSpace text in
  if bool_decide (str = "") then Err (ErrNew "empty input")
  else unmarshal_opts p (Split str providerOptsDelimiter).

(** Later values win. *)
Definition providerOptions_update (p opts : providerOptions) : providerOptions := opts ∪ p.

(** ** config.go: addresses *)
Definition GaleraSSTPort : Z := 4444.
Definition GaleraClusterPort : Z := 4567.
Definition GaleraISTPort : Z := 4568.

Definition WsrepNodeAddressKey : string := "wsrep_node_address".
Definition WsrepSSTReceiveAddressKey : string := "wsrep_sst_receive_address".
Definition WsrepProviderOptionsKey : string := "wsrep_provider_options".
Definition WsrepOptISTRecvAddr : string := "ist.recv_addr".
Definition WsrepOptGmcastListAddr : string := "gmcast.listen_addr".
Definition WsrepOptSocketSSL : string := "socket.ssl".
Definition WsrepOptSocketSSLCert : string := "socket.ssl_cert".
Definition WsrepOptSocketSSLKey : string := "socket.ssl_key".
Definition WsrepOptSocketSSLCA : string := "socket.ssl_ca".
Definition WsrepOptSocketDynamic : string := "socket.dynamic".

Definition wrapIPAddress (ip : string) : result string :=
  match ParseIP ip with
  | None => Err (ErrNew "error in parsing ip address")
  | Some parsedIp => Ok (if To4 parsedIp then ip else "[" +:+ ip +:+ "]")
  end.
Definition thisHostIP (ip : string) : result string :=
  match ParseIP ip with
  | None => Err (ErrNew "error in parsing ip address")
  | Some parsedIp => Ok (if To4 parsedIp then "0.0.0.0" else "::")
  end.

Definition getSSTReceiveAddress (podIP : string) : result string :=
  wrappedPodIP ← wrap_err "error wrapping address" (wrapIPAddress podIP);
  Ok (wrappedPodIP +:+ ":" +:+ Itoa GaleraSSTPort).
Definition getGmcastListenAddress (podIP : string) : result string :=
  gmcastListenAddress ← wrap_err "error getting address" (thisHostIP podIP);
  gmcastListenAddress ← wrap_err "error wrapping address" (wrapIPAddress gmcastListenAddress);
  Ok ("tcp://" +:+ gmcastListenAddress +:+ ":" +:+ Itoa GaleraClusterPort).
Definition getISTReceiveAddress (podIP : string) : result string :=
  wrappedPodIP ← wrap_err "error wrapping address" (wrapIPAddress podIP);
  Ok (wrappedPodIP +:+ ":" +:+ Itoa GaleraISTPort).

(** The provider options that depend on the address of the Pod. *)
Definition address_options (podIP : string) : result providerOptions :=
  gmcastListenAddress ← wrap_err "error getting gcomm listden address" (getGmcastListenAddress podIP);
  istReceiveAddress ← wrap_err "error getting IST receive address" (getISTReceiveAddress podIP);
  Ok {[ WsrepOptGmcastListAddr := gmcastListenAddress; WsrepOptISTRecvAddr := istReceiveAddress ]}.
End provider.

(** ** config.go: rendering the file *)
Section config.
Context `{MapRange} (CLUSTER_NAME : string).

(** The number of replicas is never negative: the API server validates it. *)
Definition clusterAddress (mariadb : MariaDB) : result string :=
  if bool_decide (sp_Replicas (m_Spec mariadb) = 0)
  then Err (ErrNew "at least one replica must be specified to get a valid cluster address")
  else
    let pods := (λ i, PodFQDNWithService CLUSTER_NAME (m_meta mariadb) i
                        (nn_Name (InternalServiceKey mariadb))) <$> seqZ 0 (sp_Replicas (m_Spec mariadb)) in
    Ok ("gcomm://" +:+ Join pods ",").

Definition path_option (key path : string) : providerOptions :=
  if bool_decide (path = "") then ∅ else {[ key := path ]}.
Definition ssl_options (mariadb : MariaDB) (env : PodEnvironment) : providerOptions :=
  if IsTLSEnabled mariadb then
    {[ WsrepOptSocketDynamic := FormatBool (negb (IsTLSRequired mariadb)); WsrepOptSocketSSL := "true" ]} ∪
    path_option WsrepOptSocketSSLCA (TLSCACertPath env) ∪
    path_option WsrepOptSocketSSLCert (TLSServerCertPath env) ∪
    path_option WsrepOptSocketSSLKey (TLSServerKeyPath env)
  else {[ WsrepOptSocketSSL := "false" ]}.

(** The options of the user win. *)
Definition provider_options (mariadb : MariaDB) (env : PodEnvironment) (options : gmap string string) :
    result providerOptions :=
  wsrepOpts ← address_options (PodIP env);
  Ok (options ∪ (ssl_options mariadb env ∪ wsrepOpts)).
Definition getProviderOptions (mariadb : MariaDB) (env : PodEnvironment) (options : gmap string string) :
    result string := providerOptions_marshal <$> provider_options mariadb env options.

Definition quoted_line (key value : string) : string := kvOption_marshal (mkKvOption key value true).

(** The template, line by line. *)
Definition config_lines (mariadb : MariaDB) (galera : Galera) (env : PodEnvironment)
    (clusterAddr sst sstReceiveAddress providerOpts : string) : list string :=
  [ "[mariadb]"; "bind_address=*"; "default_storage_engine=InnoDB"; "binlog_format=row";
    "innodb_autoinc_lock_mode=2"; ""; "# Cluster"; "wsrep_on=ON";
    quoted_line "wsrep_cluster_address" clusterAddr;
    "wsrep_cluster_name=mariadb-operator";
    "wsrep_slave_threads=" +:+ Itoa (ga_ReplicaThreads galera);
    ""; "# Node";
    quoted_line WsrepNodeAddressKey (PodIP env);
    quoted_line "wsrep_node_name" (PodEnv_PodName env);
    ""; "# Provider";
    "wsrep_provider=" +:+ ga_GaleraLibPath galera;
    quoted_line WsrepProviderOptionsKey providerOpts;
    ""; "# SST";
    quoted_line "wsrep_sst_method" sst ] ++
  (if bool_decide (ga_SST galera = SSTMariaBackup) || bool_decide (ga_SST galera = SSTMysqldump)
   then [ quoted_line "wsrep_sst_auth" ("root:" +:+ MariadbRootPassword env) ] else []) ++
  [ quoted_line WsrepSSTReceiveAddressKey sstReceiveAddress ] ++
  (if IsTLSForGaleraSSTEnabled mariadb
   then [ "[sst]"; "encrypt=3"; "tca=" +:+ TLSCACertPath env; "tcert=" +:+ TLSClientCertPath env;
          "tkey=" +:+ TLSClientKeyPath env ] else []).

Definition marshal_lines (mariadb : MariaDB) (podEnv : PodEnvironment) : result (list string) :=
  if negb (IsGaleraEnabled mariadb)
  then Err (ErrNew "MariaDB Galera not enabled, unable to render config file") else
  let galera := default Galera_zero (sp_Galera (m_Spec mariadb)) in
  clusterAddr ← wrap_err "error getting cluster address" (clusterAddress mariadb);
  sst ← wrap_err "error getting SST" (SST_MariaDBFormat (ga_SST galera));
  sstReceiveAddress ← wrap_err "error getting SST receive address" (getSSTReceiveAddress (PodIP podEnv));
  providerOptions ← wrap_err "error getting provider options"
    (getProviderOptions mariadb podEnv (ga_ProviderOptions galera));
  Ok (config_lines mariadb galera podEnv clusterAddr sst sstReceiveAddress providerOptions).

Definition ConfigFile_Marshal (mariadb : MariaDB) (podEnv : PodEnvironment) : result string :=
  (λ ls, Join ls newline +:+ newline) <$> marshal_lines mariadb podEnv.

(** ** config.go: refreshing the file *)
Definition getUpdatedConfigLine (line podIP : string) : result string :=
  if HasPrefix line WsrepNodeAddressKey then Ok (quoted_line WsrepNodeAddressKey podIP)
  else if HasPrefix line WsrepSSTReceiveAddressKey then
    sstReceiveAddress ← getSSTReceiveAddress podIP;
    Ok (quoted_line WsrepSSTReceiveAddressKey sstReceiveAddress)
  else if HasPrefix line WsrepProviderOptionsKey then
    kvOpt ← kvOption_unmarshal line;
    providerOpts ← providerOptions_unmarshal ∅ (kv_value kvOpt);
    wsrepOpts ← address_options podIP;
    Ok (quoted_line WsrepProviderOptionsKey
          (providerOptions_marshal (providerOptions_update providerOpts wsrepOpts)))
  else Ok line.

Definition UpdateConfig (configBytes : string) (podEnv : PodEnvironment) : result string :=
  let '(lines, ok) := ScanLines configBytes in
  updatedLines ← mapM (λ line, getUpdatedConfigLine line (PodIP podEnv)) lines;
  if ok then Ok (Join updatedLines newline) else Err (ErrNew "error reading config").
End config.

(** ** Lemmas: key-value pairs *)
(** A pair that survives: what is not quoted has no white space around it and does not look
    quoted. *)
Definition kv_ok (k : kvOption) : Prop :=
  trimmed (kv_key k) = true ∧ ¬ str_In "=" (kv_key k) ∧
  (kv_quoted k = false → trimmed (kv_value k) = true ∧ unquote (kv_value k) = None).

Lemma str_last_snoc s c : str_last (s +:+ String c "") = Some c.
Proof. by rewrite str_last_app. Qed.

Lemma str_init_snoc s c : str_init (s +:+ String c "") = s.
Proof.
  induction s as [|d s IH]; [done|]. rewrite str_app_cons. cbn [str_init].
  destruct (s +:+ String c "") eqn:E; [by destruct s|]. by rewrite IH.
Qed.

Lemma unquote_quoted v : unquote (quote_s +:+ v +:+ quote_s) = Some v.
Proof.
  change (quote_s +:+ v +:+ quote_s) with (String quote (v +:+ quote_s)).
  destruct (v +:+ quote_s) as [|c s] eqn:E; [by destruct v|].
  assert (str_last (String c s) = Some quote ∧ str_init (String c s) = v) as [Hl Hi].
  { rewrite <-E. split; [apply str_last_snoc|apply str_init_snoc]. }
  cbn [unquote]. by rewrite Hl, Hi, !bool_decide_eq_true_2.
Qed.

Lemma kv_marshal_shape k : kvOption_marshal k =
  kv_key k +:+ String "=" (if kv_quoted k then quote_s +:+ kv_value k +:+ quote_s else kv_value k).
Proof. unfold kvOption_marshal. by destruct (kv_quoted k). Qed.

Lemma trimmed_quoted v : trimmed (quote_s +:+ v +:+ quote_s) = true.
Proof. by apply (trimmed_enclosed quote v quote). Qed.

Lemma kv_value_trimmed k : kv_ok k →
  trimmed (if kv_quoted k then quote_s +:+ kv_value k +:+ quote_s else kv_value k) = true.
Proof. intros (_ & _ & Hv). destruct (kv_quoted k); [apply trimmed_quoted|by apply Hv]. Qed.

Lemma kv_marshal_trimmed k : kv_ok k → trimmed (kvOption_marshal k) = true.
Proof.
  intros Hk. rewrite kv_marshal_shape. apply trimmed_app; [apply Hk|].
  apply (trimmed_app "="); [done|by apply kv_value_trimmed].
Qed.

Lemma kv_unmarshal_marshal k : kv_ok k → kvOption_unmarshal (kvOption_marshal k) = Ok k.
Proof.
  intros Hk. unfold kvOption_unmarshal. rewrite TrimSpace_trimmed by by apply kv_marshal_trimmed.
  rewrite bool_decide_eq_false_2 by (rewrite kv_marshal_shape; by destruct (kv_key k)).
  rewrite kv_marshal_shape, SplitN2_app by apply Hk.
  rewrite (TrimSpace_trimmed (kv_key k)), TrimSpace_trimmed; [|by apply kv_value_trimmed|apply Hk].
  destruct k as [key v [|]]; cbn [kv_quoted kv_key kv_value]; [by rewrite unquote_quoted|].
  destruct Hk as (_ & _ & Hv). destruct (Hv eq_refl) as [_ Hq]. cbn in Hq. by rewrite Hq.
Qed.

(** ** Lemmas: provider options *)
Section provider_lemmas.
Context `{MapRange}.

(** An option that survives in the list. *)
Definition opt_ok (key value : string) : Prop :=
  kv_ok (mkKvOption key value false) ∧ ¬ str_In ";" key ∧ ¬ str_In ";" value.
Definition opt (p : providerOptions) (key : string) : string :=
  kvOption_marshal (mkKvOption key (default "" (p !! key)) false).

Lemma sorted_keys_elem (p : providerOptions) k : k ∈ sort_Strings (range_keys p) ↔ is_Some (p !! k).
Proof.
  rewrite sort_Strings_Permutation, range_keys_perm, list_elem_of_fmap. split.
  - intros ([k' v] & -> & Hk%elem_of_map_to_list). by exists v.
  - intros [v Hv]. exists (k, v). by rewrite elem_of_map_to_list.
Qed.

Lemma sorted_keys_NoDup (p : providerOptions) : NoDup (sort_Strings (range_keys p)).
Proof. rewrite sort_Strings_Permutation, range_keys_perm. apply NoDup_fst_map_to_list. Qed.

Lemma sorted_keys_opts p : map_Forall opt_ok p →
  Forall (λ k, opt_ok k (default "" (p !! k))) (sort_Strings (range_keys p)).
Proof.
  intros Hp. apply Forall_forall. intros k [v Hv]%sorted_keys_elem. cbv beta. rewrite Hv. by apply Hp.
Qed.

Lemma opt_no_delimiter key value : opt_ok key value →
  ¬ str_In ";" (kvOption_marshal (mkKvOption key value false)).
Proof.
  intros (_ & Hk & Hv). rewrite kv_marshal_shape, str_In_app. cbn. intros [?|[?|?]]; done.
Qed.

Lemma unmarshal_opts_keys p q keys : Forall (λ k, opt_ok k (default "" (p !! k))) keys →
  unmarshal_opts q (opt p <$> keys) = Ok (foldl (λ q k, <[k := default "" (p !! k)]> q) q keys).
Proof.
  intros Hks. revert q. induction Hks as [|k keys Hk _ IH]; intros q; [done|].
  rewrite fmap_cons. cbn [unmarshal_opts].
  rewrite (kv_unmarshal_marshal _ (proj1 Hk) : kvOption_unmarshal (opt p k) = _).
  apply IH.
Qed.

Lemma lookup_insert_keys (p q : providerOptions) keys k :
  foldl (λ q k, <[k := default "" (p !! k)]> q) q keys !! k =
    if bool_decide (k ∈ keys) then Some (default "" (p !! k)) else q !! k.
Proof.
  revert q. induction keys as [|k' keys IH]; intros q; cbn [foldl]; [done|]. rewrite IH.
  destruct (decide (k ∈ keys)).
  - rewrite !bool_decide_eq_true_2 by set_solver. done.
  - rewrite (bool_decide_eq_false_2 (k ∈ keys)) by done. destruct (decide (k = k')) as [->|].
    + rewrite bool_decide_eq_true_2 by set_solver. apply lookup_insert_eq.
    + rewrite bool_decide_eq_false_2 by set_solver. by apply lookup_insert_ne.
Qed.

Lemma marshal_opts_trimmed p : map_Forall opt_ok p → trimmed (providerOptions_marshal p) = true.
Proof.
  intros Hp%sorted_keys_opts. apply trimmed_Join; [done|]. apply Forall_fmap.
  eapply Forall_impl; [exact Hp|]. intros k Hk. by apply kv_marshal_trimmed, Hk.
Qed.

Lemma marshal_opts_nonempty p : p ≠ ∅ → providerOptions_marshal p ≠ "".
Proof.
  intros Hp. unfold providerOptions_marshal.
  destruct (map_choose _ Hp) as (k & v & Hk).
  assert (k ∈ sort_Strings (range_keys p)) as Hin by (apply sorted_keys_elem; by exists v).
  destruct (sort_Strings (range_keys p)) as [|k0 keys]; [by apply elem_of_nil in Hin|].
  rewrite fmap_cons. destruct (_ <$> keys); cbn [Join]; rewrite kv_marshal_shape; by destruct k0.
Qed.

Lemma unmarshal_marshal_opts p : p ≠ ∅ → map_Forall opt_ok p →
  providerOptions_unmarshal ∅ (providerOptions_marshal p) = Ok p.
Proof.
  intros Hne Hp. unfold providerOptions_unmarshal.
  rewrite TrimSpace_trimmed, bool_decide_eq_false_2 by auto using marshal_opts_trimmed, marshal_opts_nonempty.
  pose proof (sorted_keys_opts p Hp) as Hks. unfold providerOptions_marshal.
  change (λ key, kvOption_marshal (mkKvOption key (default "" (p !! key)) false)) with (opt p).
  unfold providerOptsDelimiter. rewrite Split_Join.
  - rewrite unmarshal_opts_keys by done. f_equal. apply map_eq. intros k. rewrite lookup_insert_keys.
    pose proof (sorted_keys_elem p k) as Hk. case_bool_decide as Hin.
    + apply Hk in Hin as [v ->]. done.
    + rewrite lookup_empty. symmetry. apply eq_None_not_Some. tauto.
  - destruct (map_choose _ Hne) as (k & v & Hk). intros Hnil%fmap_nil_inv.
    assert (k ∈ sort_Strings (range_keys p)) as Hin by (apply sorted_keys_elem; by exists v).
    rewrite Hnil in Hin. by apply elem_of_nil in Hin.
  - apply Forall_fmap. eapply Forall_impl; [exact Hks|]. intros k. apply opt_no_delimiter.
Qed.
End provider_lemmas.

(** ** Lemmas: refreshing a line *)
Section update_lemmas.
Context `{MapRange} (CLUSTER_NAME : string).

Lemma mapM_Forall2 {A B} (f : A → result B) l k :
  Forall2 (λ x y, f x = Ok y) l k → mapM f l = Ok k.
Proof. induction 1 as [|x y l k Hx _ IH]; [done|]. cbn. by rewrite Hx, IH. Qed.

Lemma mapM_Err {A B} (f : A → result B) l x e : x ∈ l → f x = Err e → ∃ e', mapM f l = Err e'.
Proof.
  induction l as [|y l IH]; [by intros ?%elem_of_nil|]. cbn. intros [->|Hx]%elem_of_cons Hf.
  - rewrite Hf. by exists e.
  - destruct (f y) as [z|e']; [|by exists e']. destruct (IH Hx Hf) as [e' ->]. by exists e'.
Qed.

(** An address that parses gives all the addresses that are derived from it. *)
Lemma address_options_ok ip : is_Some (ParseIP ip) → ∃ sst gm ist,
  getSSTReceiveAddress ip = Ok sst ∧
  address_options ip = Ok {[ WsrepOptGmcastListAddr := gm; WsrepOptISTRecvAddr := ist ]}.
Proof.
  intros [p Hp]. unfold getSSTReceiveAddress, address_options, getGmcastListenAddress,
    getISTReceiveAddress, thisHostIP, wrapIPAddress. rewrite Hp. by destruct (To4 p); do 3 eexists.
Qed.
Lemma getSSTReceiveAddress_err ip : ParseIP ip = None → ∃ e, getSSTReceiveAddress ip = Err e.
Proof. intros Hp. unfold getSSTReceiveAddress, wrapIPAddress. rewrite Hp. by eexists. Qed.

Lemma ssl_options_no_address mariadb env k : k = WsrepOptGmcastListAddr ∨ k = WsrepOptISTRecvAddr →
  ssl_options mariadb env !! k = None.
Proof.
  intros Hk. unfold ssl_options, path_option.
  destruct (IsTLSEnabled mariadb); [|destruct Hk; by subst].
  rewrite !lookup_union_None; repeat case_bool_decide; destruct Hk; subst; split_and!; done.
Qed.

Definition with_ip (env : PodEnvironment) (ip : string) : PodEnvironment := { env with PodIP := ip }.

Lemma update_provider_options mariadb env ip user old new :
  user !! WsrepOptGmcastListAddr = None → user !! WsrepOptISTRecvAddr = None →
  provider_options mariadb env user = Ok old →
  provider_options mariadb (with_ip env ip) user = Ok new →
  address_options ip ≫= (λ a, Ok (providerOptions_update old a)) = Ok new.
Proof.
  unfold provider_options. intros Hg Hi (a & Ha & [= <-])%result_bind_Ok (a' & Ha' & [= <-])%result_bind_Ok.
  change (address_options ip = Ok a') in Ha'. rewrite Ha'. cbn [mbind result_bind]. f_equal. unfold providerOptions_update.
  change (ssl_options mariadb (with_ip env ip)) with (ssl_options mariadb env).
  assert (∀ ip a, address_options ip = Ok a → ∃ gm ist,
    a = {[ WsrepOptGmcastListAddr := gm; WsrepOptISTRecvAddr := ist ]}) as Hshape.
  { intros ip0 a0 H0. unfold address_options in H0.
    apply result_bind_Ok in H0 as (gm & _ & (ist & _ & [= <-])%result_bind_Ok). by eexists _, _. }
  destruct (Hshape _ _ Ha) as (gm & ist & ->), (Hshape _ _ Ha') as (gm' & ist' & ->).
  apply map_eq. intros k. rewrite !lookup_union.
  destruct (decide (k = WsrepOptGmcastListAddr)) as [->|Hkg];
    [by rewrite Hg, ssl_options_no_address, !lookup_insert_eq by auto|].
  destruct (decide (k = WsrepOptISTRecvAddr)) as [->|Hki];
    [by rewrite Hi, ssl_options_no_address, !lookup_insert_ne, !lookup_singleton_eq by auto|].
  rewrite !lookup_insert_ne, !lookup_singleton_ne by done.
  by destruct (user !! k), (ssl_options mariadb env !! k).
Qed.

Lemma update_sst_line recv ip :
  getUpdatedConfigLine (quoted_line WsrepSSTReceiveAddressKey recv) ip =
    (sstReceiveAddress ← getSSTReceiveAddress ip;
     Ok (quoted_line WsrepSSTReceiveAddressKey sstReceiveAddress)).
Proof. done. Qed.

Lemma update_provider_line opts ip : opts ≠ ∅ → map_Forall opt_ok opts →
  getUpdatedConfigLine (quoted_line WsrepProviderOptionsKey (providerOptions_marshal opts)) ip =
    (a ← address_options ip;
     Ok (quoted_line WsrepProviderOptionsKey (providerOptions_marshal (providerOptions_update opts a)))).
Proof.
  intros Hne Hok. unfold getUpdatedConfigLine.
  change (HasPrefix (quoted_line WsrepProviderOptionsKey _) WsrepNodeAddressKey) with false.
  change (HasPrefix (quoted_line WsrepProviderOptionsKey _) WsrepSSTReceiveAddressKey) with false.
  change (HasPrefix (quoted_line WsrepProviderOptionsKey _) WsrepProviderOptionsKey) with true.
  cbn match. assert (∀ v, kvOption_unmarshal (quoted_line WsrepProviderOptionsKey v) =
    Ok (mkKvOption WsrepProviderOptionsKey v true)) as ->.
  { intros v. apply kv_unmarshal_marshal. split_and!; [done| |done].
    refine (bool_decide_unpack _ _). vm_compute. exact I. }
  cbn [mbind result_bind kv_value]. by rewrite unmarshal_marshal_opts.
Qed.

(** The fields of the file contain no line breaks, its lines are not too long for the scanner,
    the options can be written as a list, and the addresses are not options of the user. *)
Definition config_ok (mariadb : MariaDB) (env : PodEnvironment) : Prop :=
  let user := ga_ProviderOptions (default Galera_zero (sp_Galera (m_Spec mariadb))) in
  (∀ ls, marshal_lines CLUSTER_NAME mariadb env = Ok ls → Forall line_ok ls) ∧
  (∀ opts, provider_options mariadb env user = Ok opts → map_Forall opt_ok opts) ∧
  user !! WsrepOptGmcastListAddr = None ∧ user !! WsrepOptISTRecvAddr = None.

Lemma update_lines mariadb env ip ls ls' : config_ok mariadb env →
  marshal_lines CLUSTER_NAME mariadb env = Ok ls →
  marshal_lines CLUSTER_NAME mariadb (with_ip env ip) = Ok ls' →
  Forall2 (λ l l', getUpdatedConfigLine l ip = Ok l') ls ls'.
Proof.
  intros (_ & Hopts & Hg & Hi). unfold marshal_lines. destruct (IsGaleraEnabled mariadb); [|done].
  cbn [negb]. set (galera := default Galera_zero (sp_Galera (m_Spec mariadb))) in *.
  intros (addr & Haddr & (sst & Hsst & (recv & Hrecv & (po & Hpo & [= <-])%result_bind_Ok)%result_bind_Ok)
    %result_bind_Ok)%result_bind_Ok.
  rewrite Haddr, Hsst. cbn [mbind result_bind].
  intros (recv' & Hrecv' & (po' & Hpo' & [= <-])%result_bind_Ok)%result_bind_Ok.
  apply wrap_err_Ok, result_fmap_Ok in Hpo as (opts & Ho & ->).
  apply wrap_err_Ok, result_fmap_Ok in Hpo' as (opts' & Ho' & ->). apply wrap_err_Ok in Hrecv'.
  assert (opts ≠ ∅) as Hne.
  { intros ->. unfold provider_options in Ho. apply result_bind_Ok in Ho as (a & Ha & [= Hnil]).
    apply (f_equal (lookup WsrepOptGmcastListAddr)) in Hnil. unfold address_options in Ha.
    apply result_bind_Ok in Ha as (gm & _ & (ist & _ & [= <-])%result_bind_Ok).
    by rewrite !lookup_union, Hg, ssl_options_no_address, lookup_insert_eq in Hnil by auto. }
  pose proof (update_provider_options mariadb env ip _ opts opts' Hg Hi Ho Ho') as Hupd.
  assert (getUpdatedConfigLine (quoted_line WsrepProviderOptionsKey (providerOptions_marshal opts)) ip =
          Ok (quoted_line WsrepProviderOptionsKey (providerOptions_marshal opts'))) as Hline.
  { rewrite update_provider_line by eauto.
    apply result_bind_Ok in Hupd as (a & -> & [= <-]). done. }
  assert (getUpdatedConfigLine (quoted_line WsrepSSTReceiveAddressKey recv) ip =
          Ok (quoted_line WsrepSSTReceiveAddressKey recv')) as Hsstline.
  { change (getSSTReceiveAddress (PodIP (with_ip env ip))) with (getSSTReceiveAddress ip) in Hrecv'.
    by rewrite update_sst_line, Hrecv'. }
  unfold config_lines.
  repeat first [apply Forall2_app | apply Forall2_cons; split | apply Forall2_nil | exact Hline | exact Hsstline
               | reflexivity | case_match].
Qed.

Lemma marshal_lines_err mariadb env ip ls e : marshal_lines CLUSTER_NAME mariadb env = Ok ls →
  marshal_lines CLUSTER_NAME mariadb (with_ip env ip) = Err e →
  ParseIP ip = None ∧ ∃ recv, quoted_line WsrepSSTReceiveAddressKey recv ∈ ls.
Proof.
  unfold marshal_lines. destruct (IsGaleraEnabled mariadb); [|done]. cbn [negb].
  intros (addr & -> & (sst & -> & (recv & _ & (po & _ & [= <-])%result_bind_Ok)%result_bind_Ok)
    %result_bind_Ok)%result_bind_Ok He.
  split; [|exists recv; unfold config_lines; set_solver].
  apply eq_None_not_Some. intros (recv' & gm & ist & Hrecv & Ha)%address_options_ok.
  cbn [mbind result_bind] in He. change (PodIP (with_ip env ip)) with ip in He.
  unfold getProviderOptions, provider_options in He. change (PodIP (with_ip env ip)) with ip in He.
  by rewrite Hrecv, Ha in He.
Qed.

(** Refreshing a file is as good as rendering it again: when the API server cannot be
    reached, [UpdateConfig] turns the file rendered for the old address of the Pod into the
    one that would be rendered for the new address, up to the newline at its end; and it
    fails exactly when the new address is not one. *)
Theorem update_config_refreshes mariadb env ip text : config_ok mariadb env →
  ConfigFile_Marshal CLUSTER_NAME mariadb env = Ok text →
  match ConfigFile_Marshal CLUSTER_NAME mariadb (with_ip env ip) with
  | Ok text' => ∃ t, UpdateConfig text (with_ip env ip) = Ok t ∧ text' = t +:+ newline
  | Err _ => ∃ e, UpdateConfig text (with_ip env ip) = Err e
  end.
Proof.
  intros Hok (ls & Hls & ->)%result_fmap_Ok. unfold ConfigFile_Marshal, UpdateConfig.
  assert (ls ≠ []) as Hne.
  { unfold marshal_lines in Hls. destruct (negb _); [done|].
    by repeat (apply result_bind_Ok in Hls as (? & _ & Hls)); injection Hls as <-. }
  rewrite ScanLines_text by (done || by apply Hok).
  destruct (marshal_lines CLUSTER_NAME mariadb (with_ip env ip)) as [ls'|e] eqn:Hls'.
  - eexists. split; [|done]. by rewrite (mapM_Forall2 _ _ ls') by (by eapply update_lines).
  - destruct (marshal_lines_err _ _ _ _ _ Hls Hls') as (Hip & recv & Hin).
    destruct (getSSTReceiveAddress_err ip Hip) as [e' He'].
    destruct (mapM_Err (λ line, getUpdatedConfigLine line ip) ls _ e' Hin) as [e'' He''].
    { by rewrite update_sst_line, He'. }
    exists e''. change (PodIP (with_ip env ip)) with ip. by rewrite He''.
Qed.

(** Options that the list can express are read back from it, in whatever order the runtime
    visits the map. *)
Theorem provider_options_round_trip p : p ≠ ∅ → map_Forall opt_ok p →
  providerOptions_unmarshal ∅ (providerOptions_marshal p) = Ok p.
Proof. apply unmarshal_marshal_opts. Qed.
End update_lemmas.

(** ** A cluster with an option of its user *)
#[local] Instance kv_ok_dec k : Decision (kv_ok k).
Proof. unfold kv_ok. apply _. Defined.
#[local] Instance opt_ok_dec k v : Decision (opt_ok k v).
Proof. unfold opt_ok. apply _. Defined.
#[local] Instance line_ok_dec l : Decision (line_ok l).
Proof. unfold line_ok. apply _. Defined.

Definition galera_mdb (user : gmap string string) : MariaDB :=
  { MariaDB_zero (mkObjectMeta "mariadb-galera" "default" "" ∅ ∅) with
    m_Spec -> sp_Replicas := 3;
    m_Spec -> sp_Galera := Some { Galera_zero with ga_Enabled := true; ga_SST := SSTMariaBackup;
      ga_ReplicaThreads := 1; ga_GaleraLibPath := "/usr/lib/galera/libgalera_smm.so";
      ga_ProviderOptions := user } }.
Definition galera_env : PodEnvironment :=
  mkPodEnvironment "" "mariadb-galera-0" "default" "10.244.0.32" "mariadb-galera" "mariadb" "3306" "" "" "" "" "" "".
Definition gcache : gmap string string := {[ "gcache.size" := "1G" ]}.

Example galera_config_ex : marshal_lines "" (galera_mdb gcache) galera_env = Ok
  [ "[mariadb]"; "bind_address=*"; "default_storage_engine=InnoDB"; "binlog_format=row";
    "innodb_autoinc_lock_mode=2"; ""; "# Cluster"; "wsrep_on=ON";
    quoted_line "wsrep_cluster_address" ("gcomm://" +:+
      "mariadb-galera-0.mariadb-galera-internal.default.svc.cluster.local," +:+
      "mariadb-galera-1.mariadb-galera-internal.default.svc.cluster.local," +:+
      "mariadb-galera-2.mariadb-galera-internal.default.svc.cluster.local");
    "wsrep_cluster_name=mariadb-operator"; "wsrep_slave_threads=1"; ""; "# Node";
    quoted_line "wsrep_node_address" "10.244.0.32"; quoted_line "wsrep_node_name" "mariadb-galera-0";
    ""; "# Provider"; "wsrep_provider=/usr/lib/galera/libgalera_smm.so";
    quoted_line "wsrep_provider_options" ("gcache.size=1G;gmcast.listen_addr=tcp://0.0.0.0:4567;" +:+
      "ist.recv_addr=10.244.0.32:4568;socket.ssl=false");
    ""; "# SST"; quoted_line "wsrep_sst_method" "mariabackup";
    quoted_line "wsrep_sst_auth" "root:mariadb";
    quoted_line "wsrep_sst_receive_address" "10.244.0.32:4444" ].
Proof. by vm_compute. Qed.

Lemma config_ok_ex : config_ok "" (galera_mdb gcache) galera_env.
Proof.
  split; [|split; [|split; reflexivity]].
  - intros ls Hls. vm_compute in Hls. injection Hls as <-.
    refine (bool_decide_unpack _ _). vm_compute. exact I.
  - intros opts Ho.
    assert (opts = match provider_options (galera_mdb gcache) galera_env gcache with Ok o => o | Err _ => ∅ end)
      as -> by (change (provider_options (galera_mdb gcache) galera_env gcache = Ok opts) in Ho; by rewrite Ho).
    clear Ho. refine (bool_decide_unpack _ _). vm_compute. exact I.
Defined.

Lemma update_config_refreshes_witness : ∃ text t,
  ConfigFile_Marshal "" (galera_mdb gcache) galera_env = Ok text ∧
  UpdateConfig text (with_ip galera_env "2001:db8::a1") = Ok t.
Proof.
  destruct (ConfigFile_Marshal "" (galera_mdb gcache) galera_env) as [text|] eqn:Htext;
    [|vm_compute in Htext; discriminate].
  pose proof (update_config_refreshes "" _ _ "2001:db8::a1" text config_ok_ex Htext) as H.
  destruct (ConfigFile_Marshal "" (galera_mdb gcache) (with_ip galera_env "2001:db8::a1")) as [text'|] eqn:Htext';
    [|vm_compute in Htext'; discriminate].
  destruct H as (t & Ht & _). by exists text, t.
Defined.

Lemma provider_options_round_trip_witness :
  providerOptions_unmarshal ∅ (providerOptions_marshal {[ "gcache.size" := "1G"; "repl.max_ws_size" := "2G" ]}) =
    Ok {[ "gcache.size" := "1G"; "repl.max_ws_size" := "2G" ]}.
Proof.
  apply provider_options_round_trip; [discriminate|].
  refine (bool_decide_unpack _ _). vm_compute. exact I.
Defined.

(** An address that the user has configured is kept when the file is rendered, and
    replaced when it is refreshed. *)
Example user_address_replaced :
  let mdb := galera_mdb {[ WsrepOptISTRecvAddr := "node.example.com" ]} in
  providerOptions_marshal <$> provider_options mdb galera_env {[ WsrepOptISTRecvAddr := "node.example.com" ]} =
    Ok "gmcast.listen_addr=tcp://0.0.0.0:4567;ist.recv_addr=node.example.com;socket.ssl=false" ∧
  (text ← ConfigFile_Marshal "" mdb galera_env;
   t ← UpdateConfig text galera_env;
   Ok (filter (λ l, HasPrefix l WsrepProviderOptionsKey = true) (Split t newline))) =
    Ok [ quoted_line WsrepProviderOptionsKey
           "gmcast.listen_addr=tcp://0.0.0.0:4567;ist.recv_addr=10.244.0.32:4568;socket.ssl=false" ].
Proof. split; by vm_compute. Qed.
