(* ===== verification/MaxScaleTypes.v ===== *)
(** * The MaxScale resource

    api/v1alpha1/maxscale_types.go and maxscale_keys.go: the fields of the resource that the
    operator reads and writes, its accessors and the names of the objects it owns. *)

From S2P Require Import Prelude GoStrings StatefulSet Datastructures Conditions MariaDBTypes GaleraConfig.

Local Open Scope Z_scope.

(** ** References to a MariaDB: api/v1alpha1/base_types.go and pkg/refresolver *)
Record MariaDBRef := mkMariaDBRef {
  ref_Name : string; ref_Namespace : string; ref_Kind : string; ref_WaitForIt : bool
}.
Definition ref_key (ref : MariaDBRef) (namespace : string) : NamespacedName :=
  mkNamespacedName (ref_Name ref)
    (if negb (bool_decide (ref_Namespace ref = "")) then ref_Namespace ref else namespace).

(** ** The parts of the resource *)
Record MaxScaleServer := mkMaxScaleServer {
  mss_Name : string;
  mss_Address : string;
  mss_Port : Z;
  mss_Protocol : string;
  mss_Maintenance : bool;
  mss_Params : gmap string string
}.
Definition MonitorModuleMariadb : string := "mariadbmon".
Definition MonitorModuleGalera : string := "galeramon".
Definition CooperativeMonitoringMajorityOfAll : string := "majority_of_all".

Record MaxScaleMonitor := mkMaxScaleMonitor {
  mon_Suspend : bool;
  mon_Name : string;
  mon_Module : string;
  mon_Interval : Z;
  mon_CooperativeMonitoring : option string;
  mon_Params : option (gmap string string)
}.
Record MaxScaleListener := mkMaxScaleListener {
  lis_Suspend : bool;
  lis_Name : string;
  lis_Port : Z;
  lis_Protocol : string;
  lis_Params : gmap string string
}.
Definition ServiceRouterReadWriteSplit : string := "readwritesplit".
Record MaxScaleService := mkMaxScaleService {
  msv_Suspend : bool;
  msv_Name : string;
  msv_Router : string;
  msv_Listener : MaxScaleListener;
  msv_Params : gmap string string
}.
Record MaxScaleAdmin := mkMaxScaleAdmin { adm_Port : Z; adm_GuiEnabled : option bool }.
Record MaxScaleConfigSync := mkMaxScaleConfigSync { cs_Database : string; cs_Interval : Z; cs_Timeout : Z }.
Record MaxScaleConfig := mkMaxScaleConfig {
  mxc_Params : gmap string string;
  mxc_VolumeClaimTemplate : VolumeClaimTemplateSpec;
  mxc_Sync : option MaxScaleConfigSync
}.
Record MaxScaleAuth := mkMaxScaleAuth {
  au_Generate : option bool;
  au_AdminUsername : string;
  au_AdminPasswordSecretKeyRef : GeneratedSecretKeyRef;
  au_DeleteDefaultAdmin : option bool;
  au_MetricsUsername : string;
  au_MetricsPasswordSecretKeyRef : GeneratedSecretKeyRef;
  au_ClientUsername : string;
  au_ClientPasswordSecretKeyRef : GeneratedSecretKeyRef;
  au_ClientMaxConnections : Z;
  au_ServerUsername : string;
  au_ServerPasswordSecretKeyRef : GeneratedSecretKeyRef;
  au_ServerMaxConnections : Z;
  au_MonitorUsername : string;
  au_MonitorPasswordSecretKeyRef : GeneratedSecretKeyRef;
  au_MonitorMaxConnections : Z;
  au_SyncUsername : option string;
  au_SyncPasswordSecretKeyRef : option GeneratedSecretKeyRef;
  au_SyncMaxConnections : option Z
}.
Record MaxScaleTLS := mkMaxScaleTLS {
  mtls_Enabled : bool;
  mtls_AdminCASecretRef : option string;
  mtls_AdminCertSecretRef : option string;
  mtls_AdminCertIssuerRef : option string;
  mtls_ListenerCASecretRef : option string;
  mtls_ListenerCertSecretRef : option string;
  mtls_ListenerCertIssuerRef : option string;
  mtls_ServerCASecretRef : option string;
  mtls_ServerCertSecretRef : option string;
  mtls_VerifyPeerCertificate : option bool;
  mtls_VerifyPeerHost : option bool;
  mtls_ReplicationSSLEnabled : option bool
}.
Definition MaxScaleTLS_zero : MaxScaleTLS := mkMaxScaleTLS false None None None None None None None None None None None.
Record MaxScaleMetrics := mkMaxScaleMetrics { mmt_Enabled : bool; mmt_Exporter : Exporter }.
Definition MaxScaleMetrics_zero : MaxScaleMetrics := mkMaxScaleMetrics false (mkExporter "" 0 None).

(** The limits are the values of [Resources.Limits], 0 when there is none; the update strategy is
    opaque. The servers are [None] when the slice is nil: the webhook tells a nil slice from an empty
    one. *)
Record MaxScaleSpec := mkMaxScaleSpec {
  mxs_CPULimit : Z;
  mxs_MemoryLimit : Z;
  mxs_ServiceAccountName : option string;
  mxs_Affinity : option AffinityConfig;
  mxs_Suspend : bool;
  mxs_MariaDBRef : option MariaDBRef;
  mxs_Servers : option (list MaxScaleServer);
  mxs_Image : string;
  mxs_InheritMetadata : option Metadata;
  mxs_Services : list MaxScaleService;
  mxs_Monitor : MaxScaleMonitor;
  mxs_Admin : MaxScaleAdmin;
  mxs_Config : MaxScaleConfig;
  mxs_Auth : MaxScaleAuth;
  mxs_Metrics : option MaxScaleMetrics;
  mxs_TLS : option MaxScaleTLS;
  mxs_Connection : option ConnectionTemplate;
  mxs_Replicas : Z;
  mxs_PodDisruptionBudget : option PodDisruptionBudget;
  mxs_UpdateStrategy : option string;
  mxs_KubernetesService : option ServiceTemplate;
  mxs_GuiKubernetesService : option ServiceTemplate;
  mxs_RequeueInterval : option Z
}.
Record MaxScaleServerStatus := mkMaxScaleServerStatus { ms_Name : string; ms_State : string }.
Record MaxScaleResourceStatus := mkMaxScaleResourceStatus { rs_Name : string; rs_State : string }.
Record MaxScaleConfigSyncStatus := mkMaxScaleConfigSyncStatus { css_MaxScaleVersion : Z; css_DatabaseVersion : Z }.

Record MaxScaleTLSStatus := mkMaxScaleTLSStatus {
  mts_CABundle : list CertificateStatus;
  mts_AdminCert : option CertificateStatus;
  mts_ListenerCert : option CertificateStatus;
  mts_ServerCert : option CertificateStatus
}.

(** [None] for the servers is a nil slice; the digests are of the parts of the spec that were
    applied last. *)
Record MaxScaleStatus := mkMaxScaleStatus {
  mxst_Conditions : list Condition;
  mxst_Replicas : Z;
  mxst_PrimaryServer : option string;
  mxst_Servers : option (list MaxScaleServerStatus);
  mxst_Monitor : option MaxScaleResourceStatus;
  mxst_Services : option (list MaxScaleResourceStatus);
  mxst_Listeners : option (list MaxScaleResourceStatus);
  mxst_ConfigSync : option MaxScaleConfigSyncStatus;
  mxst_TLS : option MaxScaleTLSStatus;
  mxst_MonitorSpec : string;
  mxst_ServersSpec : string;
  mxst_ServicesSpec : string
}.
Record MaxScale := mkMaxScale {
  mx_meta : ObjectMeta;
  mx_Deleting : bool;
  mx_Finalizers : list string;
  mx_Spec : MaxScaleSpec;
  mx_Status : MaxScaleStatus
}.

Definition MaxScaleMonitor_zero : MaxScaleMonitor := mkMaxScaleMonitor false "" "" 0 None None.
Definition MaxScaleListener_zero : MaxScaleListener := mkMaxScaleListener false "" 0 "" ∅.
Definition MaxScaleConfig_zero : MaxScaleConfig := mkMaxScaleConfig ∅ VolumeClaimTemplateSpec_zero None.
Definition MaxScaleAuth_zero : MaxScaleAuth :=
  mkMaxScaleAuth None "" SecretKeyRef_zero None "" SecretKeyRef_zero "" SecretKeyRef_zero 0 "" SecretKeyRef_zero 0
    "" SecretKeyRef_zero 0 None None None.
Definition MaxScaleSpec_zero : MaxScaleSpec :=
  mkMaxScaleSpec 0 0 None None false None None "" None [] MaxScaleMonitor_zero (mkMaxScaleAdmin 0 None) MaxScaleConfig_zero
    MaxScaleAuth_zero None None None 0 None None None None None.
Definition MaxScaleStatus_zero : MaxScaleStatus := mkMaxScaleStatus [] 0 None None None None None None None "" "" "".
Definition MaxScale_zero (meta : ObjectMeta) : MaxScale := mkMaxScale meta false [] MaxScaleSpec_zero MaxScaleStatus_zero.

#[export] Instance Metadata_eq_dec : EqDecision Metadata.
Proof. solve_decision. Defined.
#[export] Instance VolumeClaimTemplateSpec_eq_dec : EqDecision VolumeClaimTemplateSpec.
Proof. solve_decision. Defined.
#[export] Instance MaxScaleMonitor_eq_dec : EqDecision MaxScaleMonitor.
Proof. solve_decision. Defined.
#[export] Instance MaxScaleAdmin_eq_dec : EqDecision MaxScaleAdmin.
Proof. solve_decision. Defined.
#[export] Instance MaxScaleConfigSync_eq_dec : EqDecision MaxScaleConfigSync.
Proof. solve_decision. Defined.
#[export] Instance MaxScaleConfig_eq_dec : EqDecision MaxScaleConfig.
Proof. solve_decision. Defined.
#[export] Instance MaxScaleAuth_eq_dec : EqDecision MaxScaleAuth.
Proof. solve_decision. Defined.

(** ** pkg/maxscale/state *)
Definition state_IsMaster (state : string) : bool := Contains state "Master" && negb (Contains state "Relay Master").
Definition state_IsSlave (state : string) : bool := Contains state "Slave".
Definition state_IsReady (state : string) : bool := state_IsMaster state || state_IsSlave state.
Definition state_InMaintenance (state : string) : bool := Contains state "Maintenance".

(** [MaxScaleStatus.GetPrimaryServer] *)
Definition GetPrimaryServer (s : MaxScaleStatus) : option string :=
  ms_Name <$> head (filter (λ srv, state_IsMaster (ms_State srv) = true) (default [] (mxst_Servers s))).

(** ** Accessors *)
Definition mx_IsHAEnabled (m : MaxScale) : bool := bool_decide (1 < mxs_Replicas (mx_Spec m)).
Definition mx_IsSuspended (m : MaxScale) : bool := mxs_Suspend (mx_Spec m).
Definition mx_AreMetricsEnabled (m : MaxScale) : bool := mmt_Enabled (default MaxScaleMetrics_zero (mxs_Metrics (mx_Spec m))).
Definition mx_tls (m : MaxScale) : MaxScaleTLS := default MaxScaleTLS_zero (mxs_TLS (mx_Spec m)).
Definition mx_IsTLSEnabled (m : MaxScale) : bool := mtls_Enabled (mx_tls m).
Definition ShouldVerifyPeerCertificate (m : MaxScale) : bool :=
  if negb (mx_IsTLSEnabled m) then false else default false (mtls_VerifyPeerCertificate (mx_tls m)).
Definition ShouldVerifyPeerHost (m : MaxScale) : bool :=
  if negb (mx_IsTLSEnabled m) then false else default false (mtls_VerifyPeerHost (mx_tls m)).
Definition IsReplicationSSLEnabled (m : MaxScale) : bool :=
  if negb (mx_IsTLSEnabled m) then false else default false (mtls_ReplicationSSLEnabled (mx_tls m)).

(** The elements of [m.Spec.Servers]. *)
Definition Servers (m : MaxScale) : list MaxScaleServer := default [] (mxs_Servers (mx_Spec m)).
Definition ServerIndex (m : MaxScale) : Index MaxScaleServer := NewIndex (Servers m) mss_Name.
Definition ServerIDs `{MapRange} (m : MaxScale) : list string := Keys (ServerIndex m).
Definition ServiceIndex (m : MaxScale) : Index MaxScaleService := NewIndex (mxs_Services (mx_Spec m)) msv_Name.
Definition ServiceIDs `{MapRange} (m : MaxScale) : list string := Keys (ServiceIndex m).
Definition Listeners (m : MaxScale) : list MaxScaleListener := msv_Listener <$> mxs_Services (mx_Spec m).
Definition ListenerIndex (m : MaxScale) : Index MaxScaleListener := NewIndex (Listeners m) lis_Name.
Definition ListenerIDs `{MapRange} (m : MaxScale) : list string := Keys (ListenerIndex m).
Definition ServiceForListener (m : MaxScale) (listener : string) : result string :=
  match list_find (λ svc, lis_Name (msv_Listener svc) = listener) (mxs_Services (mx_Spec m)) with
  | Some (_, svc) => Ok (msv_Name svc)
  | None => Err (ErrNew "service not found")
  end.
Definition mx_DefaultPort (m : MaxScale) : result Z :=
  match mxs_Services (mx_Spec m) with
  | [] => Err (ErrNew "port not found")
  | svc :: _ => Ok (lis_Port (msv_Listener svc))
  end.
(** An int32: thirty connections per replica. *)
Definition defaultConnections (m : MaxScale) : Z :=
  if bool_decide (0 < mxs_Replicas (mx_Spec m)) then int32_wrap (mxs_Replicas (mx_Spec m) * 30) else 30.

(** ** maxscale_keys.go *)
Definition mx_key (m : MaxScale) (suffix : string) : NamespacedName :=
  mkNamespacedName (Name (mx_meta m) +:+ suffix) (Namespace (mx_meta m)).
Definition mx_password_ref (m : MaxScale) (suffix : string) : GeneratedSecretKeyRef :=
  mkGeneratedSecretKeyRef (mkSecretKeySelector (Name (mx_meta m) +:+ suffix) "password") true.
Definition mx_ObjectKey (m : MaxScale) : NamespacedName := mkNamespacedName (Name (mx_meta m)) (Namespace (mx_meta m)).
Definition mx_InternalServiceKey (m : MaxScale) : NamespacedName := mx_key m "-internal".
Definition GuiServiceKey (m : MaxScale) : NamespacedName := mx_key m "-gui".
Definition ConnectionKey (m : MaxScale) : NamespacedName := mx_key m "-connection".
Definition AdminPasswordSecretKeyRef (m : MaxScale) : GeneratedSecretKeyRef := mx_password_ref m "-admin".
Definition mx_MetricsPasswordSecretKeyRef (m : MaxScale) : GeneratedSecretKeyRef := mx_password_ref m "-metrics".
Definition mx_MetricsConfigSecretKeyRef (m : MaxScale) : GeneratedSecretKeyRef :=
  mkGeneratedSecretKeyRef (mkSecretKeySelector (Name (mx_meta m) +:+ "-metrics-config") "exporter.cnf") true.
Definition mx_MetricsKey (m : MaxScale) : NamespacedName := mx_key m "-metrics".
Definition ConfigSecretKeyRef (m : MaxScale) : GeneratedSecretKeyRef :=
  mkGeneratedSecretKeyRef (mkSecretKeySelector (Name (mx_meta m) +:+ "-config") "maxscale.cnf") true.
Definition mx_TLSCABundleSecretKeyRef (m : MaxScale) : SecretKeySelector :=
  mkSecretKeySelector (Name (mx_meta m) +:+ "-ca-bundle") "ca.crt".

(** The Secret given by the user, or the default one. *)
Definition mx_secret_key (m : MaxScale) (ref : option string) (suffix : string) : NamespacedName :=
  match mx_IsTLSEnabled m, ref with
  | true, Some name => mkNamespacedName name (Namespace (mx_meta m))
  | _, _ => mx_key m suffix
  end.
Definition TLSAdminCertSecretKey (m : MaxScale) : NamespacedName :=
  mx_secret_key m (mtls_AdminCertSecretRef (mx_tls m)) "-admin-cert".
Definition TLSListenerCertSecretKey (m : MaxScale) : NamespacedName :=
  mx_secret_key m (mtls_ListenerCertSecretRef (mx_tls m)) "-listener-cert".
Definition mx_TLSServerCertSecretKey (m : MaxScale) : NamespacedName :=
  mx_secret_key m (mtls_ServerCertSecretRef (mx_tls m)) "-server-cert".
Definition mx_TLSServerCASecretKey (m : MaxScale) : NamespacedName :=
  mx_secret_key m (mtls_ServerCASecretRef (mx_tls m)) "-ca".
(** The CA given by the user, the one cert-manager adds to the certificate, or the default one. *)
Definition mx_ca_key (m : MaxScale) (ref issuer : option string) (certKey : NamespacedName) : NamespacedName :=
  match mx_IsTLSEnabled m, ref, issuer with
  | true, Some name, _ => mkNamespacedName name (Namespace (mx_meta m))
  | true, None, Some _ => mkNamespacedName (nn_Name certKey) (Namespace (mx_meta m))
  | _, _, _ => mx_key m "-ca"
  end.
Definition TLSAdminCASecretKey (m : MaxScale) : NamespacedName :=
  mx_ca_key m (mtls_AdminCASecretRef (mx_tls m)) (mtls_AdminCertIssuerRef (mx_tls m)) (TLSAdminCertSecretKey m).
Definition TLSListenerCASecretKey (m : MaxScale) : NamespacedName :=
  mx_ca_key m (mtls_ListenerCASecretRef (mx_tls m)) (mtls_ListenerCertIssuerRef (mx_tls m)) (TLSListenerCertSecretKey m).

(** ** Names and addresses *)
Section names.
Variable CLUSTER_NAME : string.

Definition apiUrlWithAddress (m : MaxScale) (addr : string) : string :=
  (if mx_IsTLSEnabled m then "https" else "http") +:+ "://" +:+ addr +:+ ":" +:+ Itoa (adm_Port (mxs_Admin (mx_Spec m))).
Definition APIUrl (m : MaxScale) : string :=
  apiUrlWithAddress m (ServiceFQDNWithService CLUSTER_NAME (mx_meta m) (Name (mx_meta m))).
Definition PodAPIUrl (m : MaxScale) (podIndex : Z) : string :=
  apiUrlWithAddress m (PodFQDNWithService CLUSTER_NAME (mx_meta m) podIndex (nn_Name (mx_InternalServiceKey m))).

Definition TLSAdminDNSNames (m : MaxScale) : list string :=
  ServiceNameVariants CLUSTER_NAME (mx_meta m) (Name (mx_meta m)) ++
  ServiceNameVariants CLUSTER_NAME (mx_meta m) (nn_Name (GuiServiceKey m)) ++
  HeadlessServiceNameVariants CLUSTER_NAME (mx_meta m) "*" (nn_Name (mx_InternalServiceKey m)).
Definition TLSListenerDNSNames (m : MaxScale) : list string :=
  ServiceNameVariants CLUSTER_NAME (mx_meta m) (Name (mx_meta m)) ++
  HeadlessServiceNameVariants CLUSTER_NAME (mx_meta m) "*" (nn_Name (mx_InternalServiceKey m)).
End names.
