(* ===== verification/RecoveryStatus.v ===== *)
(** * pkg/controller/galera/recovery_status.go: what a Galera recovery knows

    During a recovery the operator collects, for every Pod, the Galera state file
    ([State]) and the position a recovery Job found ([Recovered]), decides from
    them in which Pod the cluster is bootstrapped, and remembers that it did.
    Every method holds the mutex of the struct from its first to its last line,
    so a method is one atomic step on the inner value; [time.Now()] is an
    argument. *)

From S2P Require Import Prelude GoStrings StatefulSet Datastructures GaleraState Conditions MariaDBTypes.

Local Open Scope Z_scope.

Definition recoveryStatus := GaleraRecoveryStatus.

Record bootstrapSource := mkBootstrapSource {
  src_bootstrap : option Bootstrap;
  src_pod : string
}.

(** [m[k]] on a possibly nil map of pointers: the zero value when absent. *)
Definition map_get {A} (m : option (gmap string (option A))) (k : string) : option A :=
  match m with
  | Some m => match m !! k with Some v => v | None => None end
  | None => None
  end.

(** [v, ok := m[k]] *)
Definition map_get_ok {A} (m : option (gmap string (option A))) (k : string) : option A * bool :=
  match m with
  | Some m => match m !! k with Some v => (v, true) | None => (None, false) end
  | None => (None, false)
  end.

(** [if m == nil { m = make(...) }; m[k] = v] *)
Definition map_set {A} (m : option (gmap string (option A))) (k : string) (v : option A) :
    option (gmap string (option A)) :=
  let m' := match m with Some m => m | None => ∅ end in
  Some (<[k := v]> m').

Definition newRecoveryStatus (mariadb : MariaDB) : recoveryStatus :=
  let inner := GaleraRecoveryStatus_zero in
  let galeraRecovery := default GaleraRecoveryStatus_zero (st_GaleraRecovery (m_Status mariadb)) in
  let inner := if grs_State galeraRecovery is Some s
               then { inner with grs_State := Some s } else inner in
  let inner := if grs_Recovered galeraRecovery is Some r
               then { inner with grs_Recovered := Some r } else inner in
  let inner := if grs_Bootstrap galeraRecovery is Some b
               then { inner with grs_Bootstrap := Some b } else inner in
  if grs_PodsRestarted galeraRecovery is Some p
  then { inner with grs_PodsRestarted := Some p } else inner.

Definition galeraRecoveryStatus (rs : recoveryStatus) : GaleraRecoveryStatus := rs.

Definition setState (rs : recoveryStatus) (pod : string) (state : option GaleraState) : recoveryStatus :=
  { rs with grs_State := map_set (grs_State rs) pod state }.

Definition rs_state (rs : recoveryStatus) (pod : string) : option GaleraState * bool :=
  map_get_ok (grs_State rs) pod.

Definition setRecovered (rs : recoveryStatus) (pod : string) (bootstrap : option Bootstrap) :
    recoveryStatus :=
  { rs with grs_Recovered := map_set (grs_Recovered rs) pod bootstrap }.

Definition rs_recovered (rs : recoveryStatus) (pod : string) : option Bootstrap * bool :=
  map_get_ok (grs_Recovered rs) pod.

Definition reset (rs : recoveryStatus) : recoveryStatus := GaleraRecoveryStatus_zero.

Definition setBootstrapping (now : Z) (rs : recoveryStatus) (pod : string) : recoveryStatus :=
  { rs with grs_Bootstrap := Some (mkGaleraBootstrapStatus (Some now) (Some pod)) }.

Definition isBootstrapping (rs : recoveryStatus) : bool :=
  if grs_Bootstrap rs is Some _ then true else false.

Definition mdb_recovery (mdb : MariaDB) : GaleraRecovery :=
  default GaleraRecovery_zero (ga_Recovery (default Galera_zero (sp_Galera (m_Spec mdb)))).

Definition bootstrapTimeout (now : Z) (rs : recoveryStatus) (mdb : MariaDB) : bool :=
  if negb (isBootstrapping rs) then false else
  match grs_Bootstrap rs ≫= gbs_Time with
  | None => false
  | Some time =>
      let timeout := default (10 * Minute) (gr_ClusterBootstrapTimeout (mdb_recovery mdb)) in
      let deadline := time + timeout in
      bool_decide (deadline < now)
  end.

Definition validSeqno {T} `{GaleraRecoverer T} (recoverer : option T) : bool :=
  match recoverer with
  | None => false
  | Some r => bool_decide (0 ≤ GetSeqno r)
  end.

Definition zeroUUID : string := "00000000-0000-0000-0000-000000000000".

Definition shouldSkipRecoverer {T} `{GaleraRecoverer T} (recoverer : option T) : bool :=
  match recoverer with
  | None => false
  | Some r => bool_decide (GetUUID r = zeroUUID) && bool_decide (GetSeqno r = -1)
  end.

Definition setPodsRestarted (rs : recoveryStatus) (restarted : bool) : recoveryStatus :=
  { rs with grs_PodsRestarted := Some restarted }.

Definition podsRestarted (rs : recoveryStatus) : bool := default false (grs_PodsRestarted rs).

(** [make] panics on a negative length; the CRD only admits replicas >= 0, and a
    negative count yields no Pods here. *)
Definition getPodNames (mdb : MariaDB) : list string :=
  PodName (m_meta mdb) <$> seqZ 0 (sp_Replicas (m_Spec mdb)).

Definition is_safe (state : option GaleraState) : bool :=
  match state with Some s => gs_SafeToBootstrap s | None => false end.

(** The loop of [isComplete]: [None] is the early [return true]. *)
Fixpoint isComplete_loop (rs : recoveryStatus) (pods : list string) (numSkippedPods : nat)
    (isComplete : bool) : option (nat * bool) :=
  match pods with
  | [] => Some (numSkippedPods, isComplete)
  | p :: pods' =>
      let state := map_get (grs_State rs) p in
      let recovered := map_get (grs_Recovered rs) p in
      if is_safe state then None
      else if shouldSkipRecoverer recovered then
        isComplete_loop rs pods' (S numSkippedPods) isComplete
      else if validSeqno state || validSeqno recovered then
        isComplete_loop rs pods' numSkippedPods isComplete
      else isComplete_loop rs pods' numSkippedPods false
  end.

Definition isComplete (rs : recoveryStatus) (mdb : MariaDB) : bool :=
  let pods := getPodNames mdb in
  if bool_decide (length pods = 0%nat) then false else
  match isComplete_loop rs pods 0 true with
  | None => true
  | Some (numSkippedPods, complete) =>
      if bool_decide (numSkippedPods = length pods) then false else complete
  end.

Definition to_bootstrap {T} `{GaleraRecoverer T} (r : T) : Bootstrap :=
  mkBootstrap (GetUUID r) (GetSeqno r).

(** [if validSeqno(r) && r.Compare(currentSource) >= 0 { currentSource, currentPod = r, p }] *)
Definition consider {T} `{GaleraRecoverer T} (inj : T → recoverer) (r : option T) (p : string)
    (cur : option recoverer * string) : option recoverer * string :=
  match r with
  | Some t =>
      if validSeqno r && bool_decide (0 ≤ Compare t cur.1) then (Some (inj t), p) else cur
  | None => cur
  end.

(** [if state != nil && state.SafeToBootstrap { return &bootstrapSource{...} }] *)
Definition safe_source (state : option GaleraState) (p : string) : option bootstrapSource :=
  match state with
  | Some s => if gs_SafeToBootstrap s then Some (mkBootstrapSource (Some (to_bootstrap s)) p) else None
  | None => None
  end.

(** The loop of [bootstrapSource]: [inl] is the early return of a safe Pod. *)
Fixpoint bootstrapSource_loop (rs : recoveryStatus) (pods : list string)
    (cur : option recoverer * string) : bootstrapSource + (option recoverer * string) :=
  match pods with
  | [] => inr cur
  | p :: pods' =>
      let state := map_get (grs_State rs) p in
      let recovered := map_get (grs_Recovered rs) p in
      match safe_source state p with
      | Some src => inl src
      | None =>
          if shouldSkipRecoverer recovered then bootstrapSource_loop rs pods' cur
          else bootstrapSource_loop rs pods'
                 (consider RBootstrap recovered p (consider RState state p cur))
      end
  end.

Definition get_bootstrapSource (rs : recoveryStatus) (mdb : MariaDB)
    (forceBootstrapInPod : option string) : result bootstrapSource :=
  let pods := getPodNames mdb in
  match forceBootstrapInPod with
  | Some force =>
      match Find pods (λ pod, bool_decide (pod = force)) with
      | Some pod => Ok (mkBootstrapSource None pod)
      | None => Err (ErrNew "Pod used to forcefully bootstrap not found")
      end
  | None =>
      if negb (isComplete rs mdb) then Err (ErrNew "recovery status not completed") else
      match bootstrapSource_loop rs pods (None, "") with
      | inl src => Ok src
      | inr (None, _) => Err (ErrNew "bootstrap source not found")
      | inr (Some currentSource, currentPod) =>
          Ok (mkBootstrapSource (Some (to_bootstrap currentSource)) currentPod)
      end
  end.

(** ** What the loops compute *)
Definition pod_safe (rs : recoveryStatus) (p : string) : bool := is_safe (map_get (grs_State rs) p).
Definition pod_skipped (rs : recoveryStatus) (p : string) : bool :=
  shouldSkipRecoverer (map_get (grs_Recovered rs) p).
Definition pod_valid (rs : recoveryStatus) (p : string) : bool :=
  validSeqno (map_get (grs_State rs) p) || validSeqno (map_get (grs_Recovered rs) p).

(** The sources the recovery may bootstrap from in Pod [p], in loop order. *)
Definition pod_sources (rs : recoveryStatus) (p : string) : list recoverer :=
  if pod_skipped rs p then [] else
  filter (λ r, 0 ≤ GetSeqno r)
    (option_list (RState <$> map_get (grs_State rs) p) ++
     option_list (RBootstrap <$> map_get (grs_Recovered rs) p)).

Definition all_sources (rs : recoveryStatus) (pods : list string) : list (string * recoverer) :=
  pods ≫= λ p, pair p <$> pod_sources rs p.

Definition better (cur : option recoverer * string) (c : string * recoverer) :=
  if bool_decide (0 ≤ Compare c.2 cur.1) then (Some c.2, c.1) else cur.

Lemma elem_of_all_sources rs pods p r :
  (p, r) ∈ all_sources rs pods ↔ p ∈ pods ∧ r ∈ pod_sources rs p.
Proof.
  unfold all_sources. rewrite list_elem_of_bind. split.
  - intros (q & (r' & [= -> ->] & Hr)%list_elem_of_fmap & Hq). done.
  - intros [Hp Hr]. exists p. split; [|done]. apply list_elem_of_fmap. eauto.
Qed.

Lemma consider_state p s cur :
  consider RState s p cur = foldl better cur
    (pair p <$> filter (λ r, 0 ≤ GetSeqno r) (option_list (RState <$> s))).
Proof.
  destruct s as [g|]; [|done]. unfold consider, validSeqno.
  change (option_list (RState <$> Some g)) with [RState g]. rewrite filter_cons, filter_nil.
  case_decide as H; cbn in H;
    [by rewrite bool_decide_eq_true_2|by rewrite bool_decide_eq_false_2].
Qed.

Lemma consider_recovered p b cur :
  consider RBootstrap b p cur = foldl better cur
    (pair p <$> filter (λ r, 0 ≤ GetSeqno r) (option_list (RBootstrap <$> b))).
Proof.
  destruct b as [g|]; [|done]. unfold consider, validSeqno.
  change (option_list (RBootstrap <$> Some g)) with [RBootstrap g]. rewrite filter_cons, filter_nil.
  case_decide as H; cbn in H;
    [by rewrite bool_decide_eq_true_2|by rewrite bool_decide_eq_false_2].
Qed.

Lemma safe_source_None rs p :
  pod_safe rs p = false → safe_source (map_get (grs_State rs) p) p = None.
Proof. unfold pod_safe. destruct (map_get _ _) as [s|]; [|done]. cbn. by intros ->. Qed.

Lemma bootstrapSource_loop_unsafe rs pods cur :
  Forall (λ p, pod_safe rs p = false) pods →
  bootstrapSource_loop rs pods cur = inr (foldl better cur (all_sources rs pods)).
Proof.
  intros Hs. revert cur. induction Hs as [|p pods Hp _ IH]; intros cur; [done|].
  cbn [bootstrapSource_loop]. rewrite (safe_source_None _ _ Hp).
  unfold all_sources, pod_sources. cbn [mbind list_bind]. fold (all_sources rs pods).
  unfold pod_skipped. destruct (shouldSkipRecoverer _); [apply IH|].
  by rewrite IH, filter_app, fmap_app, !foldl_app, consider_state, consider_recovered.
Qed.

Lemma bootstrapSource_loop_safe rs pods1 p s pods2 cur :
  Forall (λ p, pod_safe rs p = false) pods1 →
  map_get (grs_State rs) p = Some s → gs_SafeToBootstrap s = true →
  bootstrapSource_loop rs (pods1 ++ p :: pods2) cur =
    inl (mkBootstrapSource (Some (to_bootstrap s)) p).
Proof.
  intros Hs Hp Hsafe. revert cur. induction Hs as [|q pods1 Hq _ IH]; intros cur; cbn.
  - by rewrite Hp; cbn; rewrite Hsafe.
  - rewrite (safe_source_None _ _ Hq). by destruct (shouldSkipRecoverer _).
Qed.

(** Either no Pod is safe to bootstrap or there is a first one. *)
Lemma first_safe rs pods :
  Forall (λ p, pod_safe rs p = false) pods ∨
  ∃ pods1 p s pods2, pods = pods1 ++ p :: pods2 ∧ Forall (λ q, pod_safe rs q = false) pods1 ∧
    map_get (grs_State rs) p = Some s ∧ gs_SafeToBootstrap s = true.
Proof.
  induction pods as [|p pods IH]; [by left|].
  destruct (pod_safe rs p) eqn:Hp.
  - right. unfold pod_safe, is_safe in Hp. destruct (map_get _ p) as [s|] eqn:Hs; [|done].
    exists [], p, s, pods. eauto.
  - destruct IH as [H|(l1 & q & s & l2 & -> & H1 & H2)]; [left; by constructor|].
    right. exists (p :: l1), q, s, l2. split; [done|]. split; [by constructor|done].
Qed.

Lemma better_Some r0 p0 q r :
  better (Some r0, p0) (q, r) =
  if decide (GetSeqno r < GetSeqno r0) then (Some r0, p0) else (Some r, q).
Proof.
  unfold better, Compare. cbn [fst snd]. case_decide as H.
  - by rewrite (bool_decide_eq_true_2 (_ < _)).
  - rewrite (bool_decide_eq_false_2 (_ < _)) by done.
    rewrite (bool_decide_eq_true_2 (0 ≤ _)) by (case_bool_decide; lia). done.
Qed.

Lemma better_last_max l p0 r0 :
  ∃ l1 p r l2, (p0, r0) :: l = l1 ++ (p, r) :: l2 ∧
    foldl better (Some r0, p0) l = (Some r, p) ∧
    Forall (λ c, GetSeqno c.2 ≤ GetSeqno r) l1 ∧ Forall (λ c, GetSeqno c.2 < GetSeqno r) l2.
Proof.
  revert p0 r0. induction l as [|[q r] l IH]; intros p0 r0.
  { exists [], p0, r0, []. repeat split; constructor. }
  cbn [foldl]. rewrite better_Some. case_decide as Hlt.
  - destruct (IH p0 r0) as (l1 & p & r' & l2 & Heq & Hf & H1 & H2). rewrite Hf.
    destruct l1 as [|[p1 r1] l1]; injection Heq; intros; subst.
    + exists [], p, r', ((q, r) :: l2). split_and!; [done..|]. by constructor.
    + inversion H1; subst. exists ((p1, r1) :: (q, r) :: l1), p, r', l2.
      split_and!; [done..| |done]. constructor; [done|]. constructor; [cbn in *; lia|done].
  - destruct (IH q r) as (l1 & p & r' & l2 & Heq & Hf & H1 & H2). rewrite Hf.
    exists ((p0, r0) :: l1), p, r', l2. split_and!; [by rewrite Heq|done| |done].
    constructor; [|done]. cbn.
    destruct l1 as [|[p1 r1] l1]; injection Heq; intros; subst; [cbn in *; lia|].
    inversion H1; subst; cbn in *; lia.
Qed.

Lemma better_last l : l ≠ [] →
  ∃ l1 p r l2, l = l1 ++ (p, r) :: l2 ∧ foldl better (None, "") l = (Some r, p) ∧
    Forall (λ c, GetSeqno c.2 ≤ GetSeqno r) l1 ∧ Forall (λ c, GetSeqno c.2 < GetSeqno r) l2.
Proof. destruct l as [|[p r] l]; [done|]. intros _. apply (better_last_max l p r). Qed.

Lemma isComplete_loop_unsafe rs pods n b :
  Forall (λ p, pod_safe rs p = false) pods →
  isComplete_loop rs pods n b =
    Some ((n + length (filter (λ p, pod_skipped rs p = true) pods))%nat,
          b && forallb (λ p, pod_skipped rs p || pod_valid rs p) pods).
Proof.
  intros Hs. revert n b. induction Hs as [|p pods Hp _ IH]; intros n b.
  { cbn. by rewrite Nat.add_0_r, andb_true_r. }
  rewrite filter_cons. cbn [isComplete_loop forallb].
  change (is_safe _) with (pod_safe rs p). change (shouldSkipRecoverer _) with (pod_skipped rs p).
  change (validSeqno _ || validSeqno _) with (pod_valid rs p).
  rewrite Hp. destruct (pod_skipped rs p); cbn [orb].
  - rewrite IH, decide_True by done. f_equal. f_equal. cbn [length]. lia.
  - rewrite decide_False by done.
    destruct (pod_valid rs p); cbn [andb]; rewrite IH; [done|]. by rewrite andb_false_r.
Qed.

Lemma isComplete_loop_safe rs pods1 p pods2 n b :
  pod_safe rs p = true → isComplete_loop rs (pods1 ++ p :: pods2) n b = None.
Proof.
  intros Hp. revert n b. induction pods1 as [|q pods1 IH]; intros n b; cbn.
  - unfold pod_safe in Hp. by rewrite Hp.
  - by repeat case_match.
Qed.

Lemma pod_sources_nil rs p :
  pod_skipped rs p = false → pod_sources rs p = [] ↔ pod_valid rs p = false.
Proof.
  intros Hs. unfold pod_sources, pod_valid, validSeqno. rewrite Hs.
  destruct (map_get (grs_State rs) p) as [s|], (map_get (grs_Recovered rs) p) as [b|];
    rewrite ?orb_false_iff, ?bool_decide_eq_false; cbn;
    repeat match goal with |- context [decide ?P] => destruct (decide P); cbn end;
    naive_solver.
Qed.

Lemma all_sources_nil rs pods :
  all_sources rs pods = [] ↔ Forall (λ p, pod_sources rs p = []) pods.
Proof.
  unfold all_sources. induction pods as [|p pods IH]; [done|]. cbn.
  rewrite app_nil, IH, Forall_cons. destruct (pod_sources rs p); cbn; naive_solver.
Qed.

Lemma filter_all {A} (P : A → Prop) `{∀ x, Decision (P x)} l :
  length (filter P l) = length l ↔ Forall P l.
Proof.
  induction l as [|x l IH]; [done|]. rewrite filter_cons, Forall_cons.
  pose proof (length_filter P l). case_decide; cbn; [|split; [lia|naive_solver]].
  rewrite <- IH. naive_solver lia.
Qed.

(** When no Pod is safe to bootstrap, the status is complete exactly when every
    Pod is skipped or valid and not all of them are skipped. *)
Lemma isComplete_unsafe rs mdb :
  Forall (λ p, pod_safe rs p = false) (getPodNames mdb) →
  isComplete rs mdb = true ↔
    Forall (λ p, pod_skipped rs p = true ∨ pod_valid rs p = true) (getPodNames mdb) ∧
    ¬ Forall (λ p, pod_skipped rs p = true) (getPodNames mdb).
Proof.
  intros Hs. unfold isComplete. rewrite (isComplete_loop_unsafe _ _ _ _ Hs). cbn.
  set (pods := getPodNames mdb). rewrite <- (filter_all (λ p, pod_skipped rs p = true)).
  assert (forallb (λ p, pod_skipped rs p || pod_valid rs p) pods = true ↔
    Forall (λ p, pod_skipped rs p = true ∨ pod_valid rs p = true) pods) as <-.
  { rewrite forallb_forall, Forall_forall. apply forall_proper; intros x.
    by rewrite list_elem_of_In, orb_true_iff. }
  destruct pods as [|p pods]; [cbn; naive_solver|].
  rewrite (bool_decide_eq_false_2 (length (p :: pods) = 0%nat)) by done.
  case_bool_decide; naive_solver.
Qed.

Lemma all_sources_complete rs mdb :
  Forall (λ p, pod_safe rs p = false) (getPodNames mdb) →
  isComplete rs mdb = true → all_sources rs (getPodNames mdb) ≠ [].
Proof.
  intros Hs [Hall Hsk]%(isComplete_unsafe _ _ Hs) Hnil. apply Hsk.
  rewrite all_sources_nil in Hnil. rewrite Forall_forall in *. intros p Hp.
  destruct (pod_skipped rs p) eqn:Hskip; [done|].
  specialize (Hnil p Hp). apply pod_sources_nil in Hnil; [|done].
  destruct (Hall p Hp); congruence.
Qed.

Lemma isComplete_safe rs mdb pods1 p pods2 :
  getPodNames mdb = pods1 ++ p :: pods2 → pod_safe rs p = true → isComplete rs mdb = true.
Proof.
  intros Hpods Hp. unfold isComplete. rewrite Hpods, isComplete_loop_safe by done.
  rewrite bool_decide_eq_false_2; [done|]. rewrite length_app. cbn. lia.
Qed.

Lemma all_sources_split rs pods l1 p r l2 :
  all_sources rs pods = l1 ++ (p, r) :: l2 →
  ∃ pods1 pods2, pods = pods1 ++ p :: pods2 ∧
    ∀ q r', q ∈ pods2 → r' ∈ pod_sources rs q → (q, r') ∈ l2.
Proof.
  revert l1. induction pods as [|x pods IH]; intros l1 Heq.
  { by destruct l1. }
  unfold all_sources in Heq. cbn [mbind list_bind] in Heq. fold (all_sources rs pods) in Heq.
  apply app_eq_inv in Heq as [(k & H1 & H2)|(k & H1 & H2)].
  - destruct k as [|c k]; [destruct (IH [] (eq_sym H2)) as (p1 & p2 & -> & H); by exists (x :: p1), p2|].
    injection H2 as <- ->. assert (p = x) as ->.
    { assert ((p, r) ∈ pair x <$> pod_sources rs x) as Hin by (rewrite H1; set_solver).
      apply list_elem_of_fmap in Hin as (r' & [= -> ->] & _). done. }
    exists [], pods. split; [done|]. intros q r' Hq Hr. apply elem_of_app. right.
    by apply elem_of_all_sources.
  - destruct (IH k) as (p1 & p2 & -> & H); [done|]. by exists (x :: p1), p2.
Qed.

(** ** Properties *)

(** C25: the Pod chosen to bootstrap the cluster.  If some Pod reports that it is
    safe to bootstrap, the first such Pod is chosen with its own position.
    Otherwise the choice is a Pod that does not need an SST with one of its own
    sources, whose sequence number no source of any Pod exceeds and which is
    strictly ahead of every source of a later Pod. *)
Theorem bootstrap_source_most_advanced rs mdb src :
  get_bootstrapSource rs mdb None = Ok src →
  ∃ pods1 pods2, getPodNames mdb = pods1 ++ src_pod src :: pods2 ∧
  ((∃ s, Forall (λ q, pod_safe rs q = false) pods1 ∧
     map_get (grs_State rs) (src_pod src) = Some s ∧ gs_SafeToBootstrap s = true ∧
     src_bootstrap src = Some (to_bootstrap s)) ∨
   (∃ r, Forall (λ q, pod_safe rs q = false) (getPodNames mdb) ∧
     src_bootstrap src = Some (to_bootstrap r) ∧
     pod_skipped rs (src_pod src) = false ∧ r ∈ pod_sources rs (src_pod src) ∧
     (∀ q r', q ∈ getPodNames mdb → r' ∈ pod_sources rs q → GetSeqno r' ≤ GetSeqno r) ∧
     (∀ q r', q ∈ pods2 → r' ∈ pod_sources rs q → GetSeqno r' < GetSeqno r))).
Proof.
  unfold get_bootstrapSource. destruct (isComplete rs mdb) eqn:Hc; [|done]. cbn [negb].
  destruct (first_safe rs (getPodNames mdb)) as [Hs|(l1 & p & s & l2 & Hpods & H1 & Hp & Hsafe)].
  - rewrite (bootstrapSource_loop_unsafe _ _ _ Hs).
    destruct (better_last _ (all_sources_complete _ _ Hs Hc)) as (l1 & p & r & l2 & Hl & -> & H1 & H2).
    intros [= <-]. cbn.
    destruct (all_sources_split _ _ _ _ _ _ Hl) as (pods1 & pods2 & Hpods & Hlater).
    assert ((p, r) ∈ all_sources rs (getPodNames mdb)) as [Hp Hr]%elem_of_all_sources
      by (rewrite Hl; set_solver).
    exists pods1, pods2. split; [done|]. right. exists r. rewrite Forall_forall in H1, H2.
    split_and!; [done|done| |done| |].
    + unfold pod_sources in Hr. destruct (pod_skipped rs p); [by apply elem_of_nil in Hr|done].
    + intros q r' Hq Hr'. assert ((q, r') ∈ all_sources rs (getPodNames mdb)) as Hin
        by (by apply elem_of_all_sources).
      rewrite Hl in Hin. apply elem_of_app in Hin as [Hin|[[= -> ->]|Hin]%elem_of_cons];
        [by apply (H1 _ Hin)|done|apply H2 in Hin; cbn in *; lia].
    + intros q r' Hq Hr'. by apply (H2 _ (Hlater _ _ Hq Hr')).
  - rewrite Hpods, (bootstrapSource_loop_safe _ _ _ _ _ _ H1 Hp Hsafe). intros [= <-].
    exists l1, l2. split; [done|]. left. eauto.
Qed.

(** Whenever the collected status is complete a bootstrap source is found,
    and only then: the recovery never reports "bootstrap source not found" for a
    complete status. *)
Theorem bootstrap_source_iff_complete rs mdb :
  isComplete rs mdb = true ↔ ∃ src, get_bootstrapSource rs mdb None = Ok src.
Proof.
  unfold get_bootstrapSource. split; [|by destruct (isComplete rs mdb); [|intros [? ?]]].
  intros Hc. rewrite Hc. cbn [negb].
  destruct (first_safe rs (getPodNames mdb)) as [Hs|(l1 & p & s & l2 & -> & H1 & Hp & Hsafe)].
  - rewrite (bootstrapSource_loop_unsafe _ _ _ Hs).
    destruct (better_last _ (all_sources_complete _ _ Hs Hc)) as (l1 & p & r & l2 & _ & -> & _). eauto.
  - rewrite (bootstrapSource_loop_safe _ _ _ _ _ _ H1 Hp Hsafe). eauto.
Qed.

Definition mdb_ex : MariaDB :=
  { MariaDB_zero meta_ex with m_Spec -> sp_Replicas := 3 }.
Definition rs_ex : recoveryStatus :=
  mkGaleraRecoveryStatus
    (Some (<[PodName meta_ex 0 := Some (mkGaleraState "2.1" "a" 7 false)]>
          (<[PodName meta_ex 1 := Some (mkGaleraState "2.1" "a" (-1) false)]>
          (<[PodName meta_ex 2 := Some (mkGaleraState "2.1" zeroUUID (-1) false)]> ∅))))
    (Some (<[PodName meta_ex 1 := Some (mkBootstrap "a" 7)]>
          (<[PodName meta_ex 2 := Some (mkBootstrap zeroUUID (-1))]> ∅)))
    None None.

(** Two Pods at sequence 7, one that needs an SST: the later of the two is chosen. *)
Lemma bootstrap_source_most_advanced_witness :
  ∃ src, get_bootstrapSource rs_ex mdb_ex None = Ok src ∧ src_pod src = PodName meta_ex 1 ∧
  ∃ pods1 pods2, getPodNames mdb_ex = pods1 ++ src_pod src :: pods2.
Proof.
  exists (mkBootstrapSource (Some (mkBootstrap "a" 7)) (PodName meta_ex 1)).
  split; [vm_compute; reflexivity|]. split; [reflexivity|].
  destruct (bootstrap_source_most_advanced rs_ex mdb_ex
    (mkBootstrapSource (Some (mkBootstrap "a" 7)) (PodName meta_ex 1))) as (p1 & p2 & H & _);
    [vm_compute; reflexivity|]. exists p1, p2. exact H.
Defined.

(** A forced bootstrap overrides everything that was collected and succeeds
    exactly for the names of the cluster's Pods, without a position. *)
Theorem bootstrap_source_forced rs mdb pod src :
  get_bootstrapSource rs mdb (Some pod) = Ok src ↔
  (∃ i, 0 ≤ i < sp_Replicas (m_Spec mdb) ∧ pod = PodName (m_meta mdb) i) ∧
  src = mkBootstrapSource None pod.
Proof.
  unfold get_bootstrapSource, getPodNames.
  destruct (Find _ _) as [p|] eqn:Hf.
  - apply Find_Some in Hf as [Hin ->%bool_decide_eq_true].
    apply list_elem_of_fmap in Hin as (i & -> & Hi%elem_of_seqZ). naive_solver lia.
  - split; [done|]. intros [(i & Hi & ->) _]. exfalso.
    rewrite Find_None in Hf. specialize (Hf (PodName (m_meta mdb) i)).
    rewrite bool_decide_eq_true_2 in Hf by done. discriminate Hf. apply list_elem_of_fmap. exists i. split; [done|]. apply elem_of_seqZ. lia.
Qed.

(** The Pods' states are fetched by concurrent goroutines; whatever order
    they finish in, the recovery status is the same. *)
Theorem fetched_states_order_irrelevant (l l' : list (string * option GaleraState)) rs :
  NoDup l.*1 → l ≡ₚ l' →
  foldl (λ rs '(pod, s), setState rs pod s) rs l = foldl (λ rs '(pod, s), setState rs pod s) rs l'.
Proof.
  intros Hnd Hp. revert rs Hnd. induction Hp as [|[p s] l l' Hp IH|[p s] [q u] l|l1 l2 l3 H1 IH1 H2 IH2];
    intros rs Hnd; cbn [foldl]; [done| | |].
  - apply IH. by apply NoDup_cons in Hnd as [_ ?].
  - f_equal. apply NoDup_cons in Hnd as [Hq _]. unfold setState, map_set. cbn.
    rewrite (insert_insert_ne _ p q); [done|]. intros ->. apply Hq. by left.
  - rewrite IH1 by done. apply IH2. by rewrite <- H1.
Qed.

Lemma fetched_states_order_irrelevant_witness :
  foldl (λ rs '(pod, s), setState rs pod s) rs_ex [("a", None); ("b", None)] =
  foldl (λ rs '(pod, s), setState rs pod s) rs_ex [("b", None); ("a", None)].
Proof.
  apply fetched_states_order_irrelevant.
  - apply NoDup_cons; split; [|apply NoDup_singleton].
    intros H%list_elem_of_singleton. discriminate H.
  - apply Permutation_swap.
Defined.

(** A bootstrap started at time [t0] is given up exactly when more than the
    configured timeout (ten minutes if unset) has passed, and a reset status is
    neither bootstrapping, restarted nor complete. *)
Theorem bootstrap_timeout_and_reset rs mdb pod t0 now :
  (bootstrapTimeout now (setBootstrapping t0 rs pod) mdb = true ↔
     t0 + default (10 * Minute) (gr_ClusterBootstrapTimeout (mdb_recovery mdb)) < now) ∧
  isBootstrapping (reset rs) = false ∧ podsRestarted (reset rs) = false ∧
  bootstrapTimeout now (reset rs) mdb = false ∧ isComplete (reset rs) mdb = false.
Proof.
  split; [by cbn; rewrite bool_decide_eq_true|]. split_and!; [done..|].
  apply not_true_is_false. intros [Hall Hsk]%isComplete_unsafe; [|by apply Forall_true].
  apply Hsk. eapply Forall_impl; [exact Hall|]. cbn. naive_solver.
Qed.
