(* ===== verification/Concurrency.v ===== *)
(** * Goroutines that report to one channel

    The operator starts one goroutine per replica and waits, in a [select], for
    the first error, for all of them to finish, or for its context to be done.
    [par] runs a list of programs in an order the runtime chooses, one operation
    at a time, and stops at the first error; [with_ctx] lets the context end
    before any operation.  A goroutine that is still running when the [select]
    has returned an error is not followed any further. *)

From S2P Require Import Prelude.

Section par.
Context {E : Type → Type}.
Abbreviation goroutine := (prog E (result unit)).

(** Two goroutines.  One that failed blocks on the error channel, and the other
    may still run until the error is received. *)
Fixpoint par2 (p : goroutine) : goroutine → goroutine :=
  fix go (q : goroutine) : goroutine :=
    match p with
    | Ret (Ok _) => q
    | Ret (Err e) =>
        match q with
        | Ret (Ok _) => Ret (Err e)
        | Ret (Err e') => Choose (λ b, if b then Ret (Err e) else Ret (Err e'))
        | Vis op k => Choose (λ b, if b then Ret (Err e) else Vis op (λ x, go (k x)))
        | Choose k => Choose (λ b, go (k b))
        end
    | Vis op k =>
        match q with
        | Ret (Ok _) => p
        | Ret (Err e) => Choose (λ b, if b then Ret (Err e) else Vis op (λ x, par2 (k x) q))
        | Vis op' k' =>
            Choose (λ b, if b then Vis op (λ x, par2 (k x) q) else Vis op' (λ x, go (k' x)))
        | Choose k' => Choose (λ b, go (k' b))
        end
    | Choose k => Choose (λ b, par2 (k b) q)
    end.

Fixpoint par (ps : list goroutine) : goroutine :=
  match ps with
  | [] => Ret (Ok tt)
  | p :: ps' => par2 p (par ps')
  end.

(** The case [<-ctx.Done()] of the [select]. *)
Fixpoint with_ctx (p : goroutine) : goroutine :=
  match p with
  | Ret r => Choose (λ b, if b then Ret (Err (ErrNew "context canceled")) else Ret r)
  | Vis op k =>
      Choose (λ b, if b then Ret (Err (ErrNew "context canceled"))
                   else Vis op (λ x, with_ctx (k x)))
  | Choose k => Choose (λ b, with_ctx (k b))
  end.

(** ** What all interleavings have in common *)

(** Every event of every run satisfies [P]. *)
Fixpoint always {A} (P : event E → Prop) (p : prog E A) : Prop :=
  match p with
  | Ret _ => True
  | Vis op k => ∀ x, P (Ev op x) ∧ always P (k x)
  | Choose k => ∀ b, always P (k b)
  end.

(** [interleave t1 t2 t]: [t] shuffles [t1] and [t2]. *)
Inductive interleave {A} : list A → list A → list A → Prop :=
  | interleave_nil : interleave [] [] []
  | interleave_l x t1 t2 t : interleave t1 t2 t → interleave (x :: t1) t2 (x :: t)
  | interleave_r x t1 t2 t : interleave t1 t2 t → interleave t1 (x :: t2) (x :: t).

Lemma interleave_nil_l {A} (t : list A) : interleave [] t t.
Proof. induction t; by constructor. Qed.
Lemma interleave_nil_r {A} (t : list A) : interleave t [] t.
Proof. induction t; by constructor. Qed.
Lemma interleave_perm {A} (t1 t2 t : list A) : interleave t1 t2 t → t ≡ₚ t1 ++ t2.
Proof.
  induction 1 as [|x t1 t2 t _ IH|x t1 t2 t _ IH]; cbn; [done|by rewrite IH|].
  by rewrite IH, Permutation_middle.
Qed.
Lemma interleave_sublist {A} (t1 t2 t : list A) :
  interleave t1 t2 t → sublist t1 t ∧ sublist t2 t.
Proof. induction 1 as [|????? []|????? []]; split; by constructor. Qed.

Lemma always_wp {A} P (p : prog E A) : always P p → wp p (λ t _, Forall P t).
Proof.
  induction p as [a|X op k IH|k IH]; cbn; intros H; auto.
  intros x. destruct (H x) as [Hx Hk]. eapply wp_mono; [|by apply IH].
  intros t a Ht. by constructor.
Qed.

Lemma always_bind {A B} P (p : prog E A) (f : A → prog E B) :
  always P p → (∀ a, always P (f a)) → always P (bind_prog p f).
Proof.
  intros Hp Hf. induction p as [a|X op k IH|k IH]; cbn in *; auto.
  intros x. destruct (Hp x). auto.
Qed.

Lemma always_par2 P (p q : goroutine) : always P p → always P q → always P (par2 p q).
Proof.
  revert q. induction p as [[[]|e]|X op k IH|k IH]; intros q.
  - intros _ Hq. by destruct q.
  - intros _. induction q as [[[]|e']|Y op' k' IH'|k' IH']; cbn; intros Hq; [done|by intros []| |].
    + intros []; [done|]. intros x. destruct (Hq x). auto.
    + auto.
  - intros Hp. induction q as [[[]|e']|Y op' k' IH'|k' IH']; cbn; intros Hq.
    + done.
    + intros []; [done|]. intros x. destruct (Hp x). auto.
    + intros []; intros x; [destruct (Hp x)|destruct (Hq x)]; auto.
    + auto.
  - intros Hp Hq. destruct q; cbn in *; auto.
Qed.

Lemma always_par P ps : Forall (always P) ps → always P (par ps).
Proof. induction 1; cbn; [done|]. by apply always_par2. Qed.

Lemma always_with_ctx P (p : goroutine) : always P p → always P (with_ctx p).
Proof.
  induction p as [r|X op k IH|k IH]; cbn; intros H.
  - by intros [].
  - intros []; [done|]. intros x. destruct (H x). auto.
  - auto.
Qed.

(** A run that ends well is an interleaving of runs that ended well. *)
Definition ok_post (Q : list (event E) → Prop) (t : list (event E)) (r : result unit) : Prop :=
  is_ok r = true → Q t.

Lemma wp_par2 (p q : goroutine) Q1 Q2 :
  wp p (ok_post Q1) → wp q (ok_post Q2) →
  wp (par2 p q) (ok_post (λ t, ∃ t1 t2, interleave t1 t2 t ∧ Q1 t1 ∧ Q2 t2)).
Proof.
  revert q Q1 Q2. induction p as [[[]|e]|X op k IH|k IH]; intros q Q1 Q2.
  - intros H1 H2. assert (par2 (Ret (Ok tt)) q = q) as -> by (by destruct q).
    eapply wp_mono; [|exact H2]. intros t r Ht Hr. exists [], t.
    split_and!; [apply interleave_nil_l|by apply H1|by apply Ht].
  - intros _. revert Q2. induction q as [[[]|e']|Y op' k' IH'|k' IH']; intros Q2 H2; cbn.
    + done.
    + by intros [].
    + intros []; [done|]. intros x. eapply wp_mono; [|apply (IH' x _ (H2 x))].
      intros t r Ht Hr. destruct (Ht Hr) as (t1 & t2 & Hi & HQ1 & HQ2).
      exists t1, (Ev op' x :: t2). split_and!; [by constructor|done..].
    + intros b. apply (IH' b _ (H2 b)).
  - revert Q1 Q2. induction q as [[[]|e']|Y op' k' IH'|k' IH']; intros Q1 Q2 H1 H2; cbn.
    + intros x. eapply wp_mono; [|exact (H1 x)]. intros t r Ht Hr.
      exists (Ev op x :: t), []. split_and!; [apply interleave_nil_r|by apply Ht|by apply H2].
    + intros []; [done|]. intros x. eapply wp_mono; [|apply (IH x _ _ _ (H1 x) H2)].
      intros t r Ht Hr. destruct (Ht Hr) as (t1 & t2 & Hi & HQ1 & HQ2).
      exists (Ev op x :: t1), t2. split_and!; [by constructor|done..].
    + intros []; intros x.
      * eapply wp_mono; [|apply (IH x _ _ _ (H1 x) H2)].
        intros t r Ht Hr. destruct (Ht Hr) as (t1 & t2 & Hi & HQ1 & HQ2).
        exists (Ev op x :: t1), t2. split_and!; [by constructor|done..].
      * eapply wp_mono; [|apply (IH' x _ _ H1 (H2 x))].
        intros t r Ht Hr. destruct (Ht Hr) as (t1 & t2 & Hi & HQ1 & HQ2).
        exists t1, (Ev op' x :: t2). split_and!; [by constructor|done..].
    + intros b. apply (IH' b _ _ H1 (H2 b)).
  - intros H1 H2. destruct q; cbn; intros b; apply (IH b _ _ _ (H1 b) H2).
Qed.

(** One goroutine per element of a list. *)
Lemma wp_par_each {I} (l : list I) (f : I → goroutine) (Q : I → list (event E) → Prop) :
  (∀ i, i ∈ l → wp (f i) (ok_post (Q i))) →
  wp (par (f <$> l)) (ok_post (λ t, ∀ i, i ∈ l → ∃ ti, sublist ti t ∧ Q i ti)).
Proof.
  induction l as [|i l IH]; intros H; cbn.
  - intros _ i Hi. by apply elem_of_nil in Hi.
  - eapply wp_mono; [|apply wp_par2; [apply (H i); by left|apply IH; intros j Hj; apply H; by right]].
    intros t r Ht Hr. destruct (Ht Hr) as (t1 & t2 & [Hs1 Hs2]%interleave_sublist & HQ1 & HQ2).
    intros j [->|Hj]%elem_of_cons; [by exists t1|].
    destruct (HQ2 j Hj) as (tj & ? & ?). exists tj. split; [by etrans|done].
Qed.

Lemma wp_with_ctx (p : goroutine) Q : wp p (ok_post Q) → wp (with_ctx p) (ok_post Q).
Proof.
  revert Q. induction p as [r|X op k IH|k IH]; cbn; intros Q H.
  - by intros [].
  - intros []; [done|]. intros x. apply (IH x (λ t, Q (Ev op x :: t)) (H x)).
  - intros b. by apply IH.
Qed.

(** The errors of the group are the errors of its goroutines. *)
Definition err_post (P : error → Prop) (t : list (event E)) (r : result unit) : Prop :=
  ∀ e, r = Err e → P e.

Lemma wp_par2_err P (p q : goroutine) :
  wp p (err_post P) → wp q (err_post P) → wp (par2 p q) (err_post P).
Proof.
  revert q. induction p as [[[]|e]|X op k IH|k IH]; intros q.
  - intros _ H2. by destruct q.
  - intros H1. induction q as [[[]|e']|Y op' k' IH'|k' IH']; intros H2; cbn.
    + exact H1.
    + by intros [].
    + intros []; [exact H1|]. intros x. apply IH', H2.
    + intros b. apply IH', H2.
  - intros H1. induction q as [[[]|e']|Y op' k' IH'|k' IH']; intros H2; cbn.
    + exact H1.
    + intros []; [exact H2|]. intros x. apply IH; [apply H1|exact H2].
    + intros []; intros x; [apply IH; [apply H1|exact H2]|apply IH', H2].
    + intros b. apply IH', H2.
  - intros H1 H2. destruct q; cbn; intros b; apply IH; first [exact H2 | apply H1].
Qed.

Lemma wp_par_err {I} P (l : list I) (f : I → goroutine) :
  (∀ i, i ∈ l → wp (f i) (err_post P)) → wp (par (f <$> l)) (err_post P).
Proof.
  induction l as [|i l IH]; intros H; cbn; [done|].
  apply wp_par2_err; [apply H; by left|apply IH; intros j Hj; apply H; by right].
Qed.

Lemma wp_with_ctx_err P (p : goroutine) :
  P (ErrNew "context canceled") → wp p (err_post P) → wp (with_ctx p) (err_post P).
Proof.
  intros HP. induction p as [r|X op k IH|k IH]; cbn; intros H.
  - intros []; [|done]. by intros e [= <-].
  - intros []; [by intros e [= <-]|]. intros x. apply IH, H.
  - intros b. apply IH, H.
Qed.
End par.

(** ** errgroup

    [g.Go] starts a goroutine and [g.Wait] waits for all of them; the group has no
    context, so a goroutine that fails does not stop the others, and the error of
    the one that failed first is returned (here: the error of any one that failed). *)
Section join.
Context {E : Type → Type}.

Fixpoint join2 {A B} (p : prog E A) : prog E B → prog E (A * B) :=
  fix go (q : prog E B) : prog E (A * B) :=
    match p with
    | Ret a => bind_prog q (λ b, Ret (a, b))
    | Vis op k =>
        match q with
        | Ret b => Vis op (λ x, join2 (k x) q)
        | Vis op' k' =>
            Choose (λ c, if c then Vis op (λ x, join2 (k x) q) else Vis op' (λ x, go (k' x)))
        | Choose k' => Choose (λ c, go (k' c))
        end
    | Choose k => Choose (λ c, join2 (k c) q)
    end.

Fixpoint join {A} (ps : list (prog E A)) : prog E (list A) :=
  match ps with
  | [] => Ret []
  | p :: ps' => bind_prog (join2 p (join ps')) (λ '(a, l), Ret (a :: l))
  end.

Fixpoint first_error (rs : list (result unit)) : prog E (result unit) :=
  match rs with
  | [] => Ret (Ok tt)
  | Ok _ :: rs' => first_error rs'
  | Err e :: rs' =>
      bind_prog (first_error rs') (λ r,
        match r with
        | Ok _ => Ret (Err e)
        | Err e' => Choose (λ b, if b then Ret (Err e) else Ret (Err e'))
        end)
  end.

Lemma wp_ret_bind {A B} (q : prog E A) (f : A → B) Q :
  wp q (λ t a, Q t (f a)) → wp (bind_prog q (λ a, Ret (f a))) Q.
Proof. intros Hq. apply wp_bind. eapply wp_mono; [|exact Hq]. intros t a. cbn. by rewrite app_nil_r. Qed.

Lemma wp_join2 {A B} (p : prog E A) (q : prog E B) Q1 Q2 :
  wp p Q1 → wp q Q2 →
  wp (join2 p q) (λ t r, ∃ t1 t2, interleave t1 t2 t ∧ Q1 t1 r.1 ∧ Q2 t2 r.2).
Proof.
  revert q Q1 Q2. induction p as [a|X op k IH|k IH]; intros q Q1 Q2 H1 H2.
  - assert (join2 (Ret a) q = bind_prog q (λ b, Ret (a, b))) as -> by (by destruct q).
    apply (wp_ret_bind q (pair a)). eapply wp_mono; [|exact H2]. intros t b Ht.
    exists [], t. split_and!; [apply interleave_nil_l|done..].
  - revert Q1 Q2 H1 H2. induction q as [b|Y op' k' IH'|k' IH']; intros Q1 Q2 H1 H2; cbn.
    + intros x. eapply wp_mono; [|apply (IH x _ _ _ (H1 x) H2)]. intros t r (t1 & t2 & Hi & HQ1 & HQ2).
      exists (Ev op x :: t1), t2. split_and!; [by constructor|done..].
    + intros []; intros x.
      * eapply wp_mono; [|apply (IH x _ _ _ (H1 x) H2)]. intros t r (t1 & t2 & Hi & HQ1 & HQ2).
        exists (Ev op x :: t1), t2. split_and!; [by constructor|done..].
      * eapply wp_mono; [|apply (IH' x _ _ H1 (H2 x))]. intros t r (t1 & t2 & Hi & HQ1 & HQ2).
        exists t1, (Ev op' x :: t2). split_and!; [by constructor|done..].
    + intros b. apply (IH' b _ _ H1 (H2 b)).
  - destruct q; cbn; intros b; apply (IH b _ _ _ (H1 b) H2).
Qed.

(** Every goroutine of a group keeps its postcondition, on its share of the trace. *)
Lemma wp_join {A I} (l : list I) (f : I → prog E A) (Q : I → list (event E) → A → Prop) :
  (∀ i, i ∈ l → wp (f i) (Q i)) →
  wp (join (f <$> l)) (λ t rs, Forall2 (λ i r, ∃ ti, ti ⊆ t ∧ Q i ti r) l rs).
Proof.
  induction l as [|i l IH]; intros Hf; cbn; [by constructor|].
  apply wp_bind. eapply wp_mono; [|apply wp_join2; [apply (Hf i); by left|
    apply IH; intros j Hj; apply Hf; by right]].
  intros t [a rs] (t1 & t2 & [Hs1 Hs2]%interleave_sublist & H1 & H2). cbn in *. rewrite app_nil_r.
  constructor; [exists t1; split; [by apply sublist_subseteq|done]|].
  eapply Forall2_impl; [exact H2|]. intros j r (tj & Hj & HQ). exists tj.
  split; [|done]. etrans; [exact Hj|]. by apply sublist_subseteq.
Qed.

Lemma always_join2 {A B} P (p : prog E A) (q : prog E B) : always P p → always P q → always P (join2 p q).
Proof.
  revert q. induction p as [a|X op k IH|k IH]; intros q H1 H2.
  - assert (join2 (Ret a) q = bind_prog q (λ b, Ret (a, b))) as -> by (by destruct q).
    by apply always_bind.
  - induction q as [b|Y op' k' IH'|k' IH']; cbn in *.
    + intros x. destruct (H1 x). auto.
    + intros []; intros x; [destruct (H1 x)|destruct (H2 x)]; auto.
    + auto.
  - destruct q; cbn in *; auto.
Qed.

Lemma always_join {A} P (ps : list (prog E A)) : Forall (always P) ps → always P (join ps).
Proof. induction 1; cbn; [done|]. apply always_bind; [by apply always_join2|by intros []]. Qed.

Lemma always_first_error P rs : always P (first_error rs).
Proof.
  induction rs as [|[[]|e] rs IH]; cbn; [done|done|]. apply always_bind; [done|].
  intros [[]|e']; cbn; [done|by intros []].
Qed.

(** The group succeeds exactly if every goroutine did, and runs no operation itself. *)
Lemma wp_first_error rs : wp (first_error rs) (λ t r, t = [] ∧
  (is_ok r = true ↔ Forall (λ r, is_ok r = true) rs)).
Proof.
  induction rs as [|[[]|e] rs IH]; cbn.
  - by split; [|split].
  - eapply wp_mono; [|exact IH]. intros t r [-> Hr]. split; [done|].
    split; [intros Hok%Hr; by constructor|intros [_ Hok]%Forall_cons; by apply Hr].
  - apply wp_bind. eapply wp_mono; [|exact IH]. intros t r [-> Hr].
    destruct r as [[]|e']; cbn; [|intros []; cbn]; (split; [done|]); split; try done;
      by intros [? _]%Forall_cons.
Qed.
End join.

(** ** The same for the reconciler monad *)
Section alwaysM.
Context {S : Type} {E : Type → Type} (P : event E → Prop).

Definition alwaysM {A} (m : M S E A) : Prop := ∀ s, always P (m s).

Lemma alwaysM_ret {A} (a : A) : alwaysM (ret a).
Proof. done. Qed.
Lemma alwaysM_throw {A} e : alwaysM (@throw S E A e).
Proof. done. Qed.
Lemma alwaysM_lift {A} (r : result A) : alwaysM (lift r).
Proof. done. Qed.
Lemma alwaysM_get : alwaysM get.
Proof. done. Qed.
Lemma alwaysM_modify f : alwaysM (modify f).
Proof. done. Qed.
Lemma alwaysM_ask {X} (e : E X) : (∀ x, P (Ev e x)) → alwaysM (ask e).
Proof. intros HP s x. by split. Qed.
Lemma alwaysM_call {X} (e : E (result X)) : (∀ x, P (Ev e x)) → alwaysM (call e).
Proof. intros HP s x. by split. Qed.
Lemma alwaysM_call_reply {X} (e : E (reply X)) : (∀ x, P (Ev e x)) → alwaysM (call_reply e).
Proof. intros HP s x. by split. Qed.
Lemma alwaysM_choose : alwaysM choose.
Proof. by intros s []. Qed.
Lemma alwaysM_bind {A B} (m : M S E A) (f : A → M S E B) :
  alwaysM m → (∀ a, alwaysM (f a)) → alwaysM (bind m f).
Proof. intros Hm Hf s. apply always_bind; [apply Hm|]. intros [s' [a|e]]; [apply Hf|done]. Qed.
Lemma alwaysM_try {A} (m : M S E A) : alwaysM m → alwaysM (try m).
Proof. intros Hm s. apply always_bind; [apply Hm|]. by intros [s' r]. Qed.
Lemma alwaysM_wrap {A} ctx (m : M S E A) : alwaysM m → alwaysM (wrap ctx m).
Proof. intros Hm s. apply always_bind; [apply Hm|]. by intros [s' r]. Qed.
Lemma alwaysM_bind_lift {A B} ctx (r : result A) (f : A → M S E B) :
  (∀ a, r = Ok a → alwaysM (f a)) → alwaysM (bind (wrap ctx (lift r)) f).
Proof. intros Hf s. destruct r; cbn; [by apply Hf|done]. Qed.
Lemma alwaysM_lift_bind {A B} (r : result A) (f : A → M S E B) :
  (∀ a, r = Ok a → alwaysM (f a)) → alwaysM (bind (lift r) f).
Proof. intros Hf s. unfold bind, lift. cbn. destruct r; [by apply Hf|done]. Qed.
Lemma alwaysM_for_each {A} (l : list A) (f : A → M S E unit) :
  (∀ x, x ∈ l → alwaysM (f x)) → alwaysM (for_each l f).
Proof.
  induction l as [|x l IH]; intros Hf; cbn; [by apply alwaysM_ret|].
  apply alwaysM_bind; [apply Hf; by left|intros _; apply IH; intros y Hy; apply Hf; by right].
Qed.

Lemma alwaysM_wpM {A} (m : M S E A) s : alwaysM m → wpM m s (λ t _ _, Forall P t).
Proof. intros Hm. exact (always_wp P (m s) (Hm s)). Qed.
End alwaysM.

Lemma alwaysM_hoist {S} {E F : Type → Type} (f : ∀ X, E X → F X) (P : event F → Prop) {A} (m : M S E A) :
  alwaysM (λ e, P (hoist_event f e)) m → alwaysM P (hoistM f m).
Proof.
  intros Hm s. specialize (Hm s). unfold hoistM. induction (m s) as [a|X e k IH|k IH]; cbn in *; [done| |].
  - intros x. destruct (Hm x) as [He Hk]. split; [done|]. by apply IH.
  - intros b. by apply IH.
Qed.

(** ** Frames: what a reconciler leaves alone *)
Section keepsM.
Context {S : Type} {E : Type → Type} (R : S → S → Prop) `{!PreOrder R}.

Definition keepsM {A} (m : M S E A) : Prop := ∀ s, wpM m s (λ _ s' _, R s s').

Lemma keepsM_ret {A} (a : A) : keepsM (ret a).
Proof. intros s. by apply wpM_ret. Qed.
Lemma keepsM_throw {A} e : keepsM (@throw S E A e).
Proof. intros s. by apply wpM_throw. Qed.
Lemma keepsM_lift {A} (r : result A) : keepsM (lift r).
Proof. intros s. by apply wpM_lift. Qed.
Lemma keepsM_get : keepsM get.
Proof. intros s. by apply wpM_get. Qed.
Lemma keepsM_modify f : (∀ s, R s (f s)) → keepsM (modify f).
Proof. intros Hf s. by apply wpM_modify. Qed.
Lemma keepsM_ask {X} (e : E X) : keepsM (ask e).
Proof. intros s. by apply wpM_ask. Qed.
Lemma keepsM_call {X} (e : E (result X)) : keepsM (call e).
Proof. intros s. by apply wpM_call. Qed.
Lemma keepsM_call_reply {X} (e : E (reply X)) : keepsM (call_reply e).
Proof. intros s. by apply wpM_call_reply. Qed.
Lemma keepsM_choose : keepsM choose.
Proof. intros s. by apply wpM_choose. Qed.
Lemma keepsM_bind {A B} (m : M S E A) (f : A → M S E B) :
  keepsM m → (∀ a, keepsM (f a)) → keepsM (bind m f).
Proof.
  intros Hm Hf s. apply wpM_bind. eapply wpM_mono; [|apply Hm]. intros t s' [a|e] Hs; [|done].
  eapply wpM_mono; [|apply Hf]. intros t' s'' r Hs'. by etrans.
Qed.
Lemma keepsM_try {A} (m : M S E A) : keepsM m → keepsM (try m).
Proof. intros Hm s. apply wpM_try. eapply wpM_mono; [|apply Hm]. done. Qed.
Lemma keepsM_wrap {A} ctx (m : M S E A) : keepsM m → keepsM (wrap ctx m).
Proof. intros Hm s. apply wpM_wrap. eapply wpM_mono; [|apply Hm]. done. Qed.
Lemma keepsM_for_each {A} (l : list A) (f : A → M S E unit) :
  (∀ x, keepsM (f x)) → keepsM (for_each l f).
Proof.
  intros Hf. induction l as [|x l IH]; cbn; [apply keepsM_ret|]. by apply keepsM_bind.
Qed.
End keepsM.

Lemma keepsM_hoist {S} {E F : Type → Type} (f : ∀ X, E X → F X) R {A} (m : M S E A) :
  keepsM R m → keepsM R (hoistM f m).
Proof. intros Hm s. apply wpM_hoist, Hm. Qed.

Lemma wpM_conj {S E A} (m : M S E A) s Q Q' :
  wpM m s Q → wpM m s Q' → wpM m s (λ t s' r, Q t s' r ∧ Q' t s' r).
Proof. apply wp_conj. Qed.

(** Walk through a reconciler, unfolding the operations it is made of, down to
    the events it performs. *)
Ltac head_of t := lazymatch t with ?f _ => head_of f | _ => t end.
Ltac always_step :=
  lazymatch goal with
  | |- alwaysM _ (bind (wrap _ (lift _)) _) => apply alwaysM_bind_lift; intros ? ?
  | |- alwaysM _ (bind _ _) => apply alwaysM_bind; [|intros ?]
  | |- alwaysM _ (wrap _ _) => apply alwaysM_wrap
  | |- alwaysM _ (try _) => apply alwaysM_try
  | |- alwaysM _ (ret _) => apply alwaysM_ret
  | |- alwaysM _ (throw _) => apply alwaysM_throw
  | |- alwaysM _ (lift _) => apply alwaysM_lift
  | |- alwaysM _ get => apply alwaysM_get
  | |- alwaysM _ (modify _) => apply alwaysM_modify
  | |- alwaysM _ (ask _) => apply alwaysM_ask; intros ?
  | |- alwaysM _ (call _) => apply alwaysM_call; intros ?
  | |- alwaysM _ (call_reply _) => apply alwaysM_call_reply; intros ?
  | |- alwaysM _ choose => apply alwaysM_choose
  | |- alwaysM _ (hoistM _ _) => apply alwaysM_hoist
  | |- alwaysM _ (for_each _ _) => apply alwaysM_for_each; intros ? ?
  | |- alwaysM _ (if ?b then _ else _) => destruct b
  | |- alwaysM _ (match ?x with _ => _ end) => destruct x
  | |- alwaysM _ ?m => let h := head_of m in progress unfold h; cbv beta
  end.
Ltac always_auto := repeat always_step.

Ltac keeps_step :=
  lazymatch goal with
  | |- keepsM _ (bind _ _) => apply keepsM_bind; [apply _| |intros ?]
  | |- keepsM _ (wrap _ _) => apply keepsM_wrap
  | |- keepsM _ (try _) => apply keepsM_try
  | |- keepsM _ (ret _) => apply keepsM_ret; apply _
  | |- keepsM _ (throw _) => apply keepsM_throw; apply _
  | |- keepsM _ (lift _) => apply keepsM_lift; apply _
  | |- keepsM _ get => apply keepsM_get; apply _
  | |- keepsM _ (modify _) => apply keepsM_modify; intros ?
  | |- keepsM _ (ask _) => apply keepsM_ask; apply _
  | |- keepsM _ (call _) => apply keepsM_call; apply _
  | |- keepsM _ (call_reply _) => apply keepsM_call_reply; apply _
  | |- keepsM _ choose => apply keepsM_choose; apply _
  | |- keepsM _ (hoistM _ _) => apply keepsM_hoist
  | |- keepsM _ (for_each _ _) => apply keepsM_for_each; [apply _|intros ?]
  | |- keepsM _ (if ?b then _ else _) => destruct b
  | |- keepsM _ (match ?x with _ => _ end) => destruct x
  | |- keepsM _ ?m => let h := head_of m in progress unfold h; cbv beta
  end.
Ltac keeps_auto := repeat keeps_step.

(** ** Errors: what a reconciler may return *)
Section errM.
Context {S : Type} {E : Type → Type} (P : error → Prop).

Definition errM {A} (m : M S E A) : Prop := ∀ s, wpM m s (λ _ _ r, ∀ e, r = Err e → P e).

Lemma errM_ret {A} (a : A) : errM (ret a).
Proof. intros s. by apply wpM_ret. Qed.
Lemma errM_throw {A} e : P e → errM (@throw S E A e).
Proof. intros HP s. apply wpM_throw. by intros ? [= <-]. Qed.
Lemma errM_get : errM get.
Proof. intros s. by apply wpM_get. Qed.
Lemma errM_modify f : errM (modify f).
Proof. intros s. by apply wpM_modify. Qed.
Lemma errM_call_reply {X} (e : E (reply X)) : (∀ f, P (of_failure f)) → errM (call_reply e).
Proof. intros HP s. apply wpM_call_reply. by intros [a|msg] ? [= <-]. Qed.
Lemma errM_choose : errM choose.
Proof. intros s. by apply wpM_choose. Qed.
Lemma errM_bind {A B} (m : M S E A) (f : A → M S E B) :
  errM m → (∀ a, errM (f a)) → errM (bind m f).
Proof.
  intros Hm Hf s. apply wpM_bind. eapply wpM_mono; [|apply Hm].
  intros t s' [a|e] He; [apply Hf|by intros ? [= <-]; apply He].
Qed.
Lemma errM_try {A} (m : M S E A) : errM (try m).
Proof. intros s. apply wpM_try, wp_true. done. Qed.
Lemma errM_wrap {A} ctx (m : M S E A) : (∀ e, P (ErrWrap ctx e)) → errM (wrap ctx m).
Proof. intros HP s. apply wpM_wrap, wp_true. intros t [s' [a|e]] ? [= <-]. apply HP. Qed.
Lemma errM_for_each {A} (l : list A) (f : A → M S E unit) :
  (∀ x, x ∈ l → errM (f x)) → errM (for_each l f).
Proof.
  induction l as [|x l IH]; intros Hf; cbn; [apply errM_ret|].
  apply errM_bind; [apply Hf; by left|intros _; apply IH; intros y Hy; apply Hf; by right].
Qed.
Lemma errM_lift {A} (r : result A) : (∀ e, r = Err e → P e) → errM (lift r).
Proof. intros HP s. by apply wpM_lift. Qed.
(** The error of [m] is handed to the continuation. *)
Lemma errM_bind_try {A B} (m : M S E A) (f : result A → M S E B) :
  (∀ r, errM (f r)) → errM (bind (try m) f).
Proof. intros Hf. apply errM_bind; [apply errM_try|done]. Qed.
End errM.

Ltac err_step :=
  lazymatch goal with
  | |- errM _ (bind (try _) _) => apply errM_bind_try; intros ?
  | |- errM _ (bind _ _) => apply errM_bind; [|intros ?]
  | |- errM _ (wrap _ _) => apply errM_wrap; intros ?
  | |- errM _ (try _) => apply errM_try
  | |- errM _ (ret _) => apply errM_ret
  | |- errM _ (throw _) => apply errM_throw
  | |- errM _ get => apply errM_get
  | |- errM _ (modify _) => apply errM_modify
  | |- errM _ (call_reply _) => apply errM_call_reply; intros ?
  | |- errM _ (lift _) => apply errM_lift; intros ? ?
  | |- errM _ choose => apply errM_choose
  | |- errM _ (for_each _ _) => apply errM_for_each; intros ? ?
  | |- errM _ (if ?b then _ else _) => destruct b eqn:?
  | |- errM _ (match ?x with _ => _ end) => destruct x eqn:?
  | |- errM _ ?m => let h := head_of m in progress unfold h; cbv beta
  end.
Ltac err_auto := repeat err_step.

(** ** Guarded events

    Every event satisfying [P] comes after a prefix of the trace satisfying [F]. *)
Definition guarded {A} (P : A → Prop) (F : list A → Prop) (t : list A) : Prop :=
  ∀ t1 e t2, t = t1 ++ e :: t2 → P e → F t1.

Lemma guarded_none {A} (P : A → Prop) F t : Forall (λ e, ¬ P e) t → guarded P F t.
Proof.
  intros Hn t1 e t2 -> He. rewrite Forall_app, Forall_cons in Hn. by destruct Hn as (_ & Hn & _).
Qed.

Lemma guarded_app {A} (P : A → Prop) F t1 t2 :
  (∀ t t', F t → F (t ++ t')) → Forall (λ e, ¬ P e) t1 → F t1 → guarded P F (t1 ++ t2).
Proof.
  intros Hmono Hn HF u1 e u2 Heq He.
  apply app_eq_inv in Heq as [(k & -> & Hk)|(k & -> & Hk)]; [|by apply Hmono].
  destruct k as [|e' k]; [rewrite app_nil_r in *; exact HF|].
  injection Hk as <- ->. rewrite Forall_app, Forall_cons in Hn. by destruct Hn as (_ & Hn & _).
Qed.

Lemma guarded_prepend {A} (P : A → Prop) F t1 t2 :
  Forall (λ e, ¬ P e) t1 → guarded P (λ t, F (t1 ++ t)) t2 → guarded P F (t1 ++ t2).
Proof.
  intros Hn Hg u1 e u2 Heq He.
  apply app_eq_inv in Heq as [(k & -> & Hk)|(k & -> & Hk)]; [|by eapply Hg].
  destruct k as [|e' k]; [rewrite app_nil_r in *; rewrite <- (app_nil_r u1); by eapply (Hg [])|].
  injection Hk as <- ->. rewrite Forall_app, Forall_cons in Hn. by destruct Hn as (_ & Hn & _).
Qed.

Lemma guarded_mono {A} (P : A → Prop) (F F' : list A → Prop) t :
  (∀ u, F u → F' u) → guarded P F t → guarded P F' t.
Proof. intros HF Hg u1 e u2 Heq He. by eapply HF, Hg. Qed.

Lemma guarded_append {A} (P : A → Prop) F t1 t2 :
  guarded P F t1 → guarded P (λ t, F (t1 ++ t)) t2 → guarded P F (t1 ++ t2).
Proof.
  intros Hg1 Hg2 u1 e u2 Heq He.
  apply app_eq_inv in Heq as [(k & -> & Hk)|(k & -> & Hk)]; [|by eapply Hg2].
  destruct k as [|e' k]; [rewrite app_nil_r in *; rewrite <- (app_nil_r u1); by eapply (Hg2 [])|].
  injection Hk as <- ->. by eapply Hg1.
Qed.

Lemma guarded_nil {A} (P : A → Prop) F : guarded P F [].
Proof. intros [|] ? ? [=]. Qed.
Lemma guarded_cons {A} (P : A → Prop) F e t :
  (P e → F []) → guarded P (λ u, F (e :: u)) t → guarded P F (e :: t).
Proof.
  intros He Hg [|e1 u1] e' u2 Heq He'; [injection Heq as <- _; auto|].
  injection Heq as <- Heq. by eapply Hg.
Qed.

(** A step without guarded events, of which [Q] is known, moves into the prefix. *)
Lemma wpM_guarded_bind {S} {E : Type → Type} {A B} (P : event E → Prop) F (m : M S E A) (f : A → M S E B) s
    (Q : A → list (event E) → Prop) :
  alwaysM (λ e, ¬ P e) m → okM m Q →
  (∀ a t s', Q a t → wpM (f a) s' (λ t' _ _, guarded P (λ u, F (t ++ u)) t')) →
  wpM (bind m f) s (λ t _ _, guarded P F t).
Proof.
  intros Ha Hm Hf. apply wpM_bind. eapply wpM_mono; [|apply wpM_conj; [apply (alwaysM_wpM _ _ s Ha)|apply Hm]].
  intros t s' [a|e] [Ht HQ]; [|by apply guarded_none].
  eapply wpM_mono; [|apply (Hf a t s'); by apply HQ]. intros t' ? ?. by apply guarded_prepend.
Qed.

(** ** Runs in an environment that keeps a promise

    [wpA P m s Q]: [Q] holds after every run of [m] whose events all satisfy [P], such as
    the runs in which the objects that are read do not change. *)
Lemma wp_imp {E : Type → Type} {A} (φ : Prop) (p : prog E A) Q :
  (φ → wp p Q) → wp p (λ t a, φ → Q t a).
Proof. revert Q. induction p as [a|X e k IH|k IH]; cbn; intros Q Hp; auto. Qed.
Lemma wpM_imp {S} {E : Type → Type} {A} (φ : Prop) (m : M S E A) s Q :
  (φ → wpM m s Q) → wpM m s (λ t s' r, φ → Q t s' r).
Proof. apply wp_imp. Qed.

Section wpA.
Context {S : Type} {E : Type → Type} (P : event E → Prop).

Definition wpA {A} (m : M S E A) (s : S) (Q : list (event E) → S → result A → Prop) : Prop :=
  wpM m s (λ t s' r, Forall P t → Q t s' r).

Lemma wpA_bind {A B} (m : M S E A) (f : A → M S E B) s Q :
  wpA m s (λ t s' r,
    match r with
    | Ok a => wpA (f a) s' (λ t' s'' r', Q (t ++ t') s'' r')
    | Err e => Q t s' (Err e)
    end) → wpA (bind m f) s Q.
Proof.
  intros Hm. apply wpM_bind. eapply wpM_mono; [|exact Hm]. intros t s' [a|e] Ha; [|exact Ha].
  eapply wpM_mono; [|exact (wpM_imp _ _ _ _ Ha)]. intros t' s'' r HQ [Ht Ht']%Forall_app. by apply HQ.
Qed.
Lemma wpA_try {A} (m : M S E A) s Q : wpA m s (λ t s' r, Q t s' (Ok r)) → wpA (try m) s Q.
Proof. intros Hm. by apply wpM_try. Qed.
Lemma wpA_wrap {A} ctx (m : M S E A) s Q :
  wpA m s (λ t s' r, Q t s' (wrap_err ctx r)) → wpA (wrap ctx m) s Q.
Proof. intros Hm. by apply wpM_wrap. Qed.
Lemma wpA_ret {A} (a : A) s (Q : list (event E) → S → result A → Prop) : Q [] s (Ok a) → wpA (ret a) s Q.
Proof. by intros HQ _. Qed.
Lemma wpA_throw {A} e s (Q : list (event E) → S → result A → Prop) : Q [] s (Err e) → wpA (throw e) s Q.
Proof. by intros HQ _. Qed.
Lemma wpA_lift {A} (r : result A) s (Q : list (event E) → S → result A → Prop) : Q [] s r → wpA (lift r) s Q.
Proof. by intros HQ _. Qed.
Lemma wpA_get s (Q : list (event E) → S → result S → Prop) : Q [] s (Ok s) → wpA get s Q.
Proof. by intros HQ _. Qed.
Lemma wpA_call {X} (e : E (result X)) s (Q : list (event E) → S → result X → Prop) :
  (∀ r, P (Ev e r) → Q [Ev e r] s r) → wpA (call e) s Q.
Proof. intros HQ r Hr. apply HQ. by inversion_clear Hr. Qed.
Lemma wpA_ask {X} (e : E X) s (Q : list (event E) → S → result X → Prop) :
  (∀ x, P (Ev e x) → Q [Ev e x] s (Ok x)) → wpA (ask e) s Q.
Proof. intros HQ r Hr. apply HQ. by inversion_clear Hr. Qed.
Lemma wpA_mono {A} (m : M S E A) s (Q Q' : list (event E) → S → result A → Prop) :
  (∀ t s' r, Q t s' r → Q' t s' r) → wpA m s Q → wpA m s Q'.
Proof. intros HQ. apply wpM_mono. auto. Qed.
End wpA.

(** ** Acts and what they need

    An act is an event that matters; [safe needs pre t]: in [t], which
    comes after [pre], every act comes after what it needs. *)
Section safe.
Context {E : Type → Type} {act : Type} (act_of : event E → option act) (needs : act → list (event E) → Prop).

Definition safe (pre t : list (event E)) : Prop :=
  ∀ t1 e t2 a, t = t1 ++ e :: t2 → act_of e = Some a → needs a (pre ++ t1).
Definition calm (e : event E) : Prop := act_of e = None.

Lemma safe_calm pre t : Forall calm t → safe pre t.
Proof.
  intros Ht t1 e t2 a -> He. apply Forall_app in Ht as [_ [Hc _]%Forall_cons]. unfold calm in Hc. congruence.
Qed.
Lemma safe_one pre e : (∀ a, act_of e = Some a → needs a pre) → safe pre [e].
Proof.
  intros He t1 e' t2 a Heq Ha. destruct t1 as [|? [|]]; try by apply (f_equal length) in Heq.
  injection Heq as <- <-. rewrite app_nil_r. auto.
Qed.
Lemma safe_app pre t1 t2 : safe pre t1 → safe (pre ++ t1) t2 → safe pre (t1 ++ t2).
Proof.
  intros H1 H2 u1 e u2 a Heq Ha. apply app_eq_inv in Heq as [(k & -> & Hk)|(k & -> & Hk)].
  - destruct k as [|e' k].
    + rewrite app_nil_r in *. specialize (H2 [] e u2 a (eq_sym Hk) Ha). by rewrite app_nil_r in H2.
    + injection Hk as <- ->. by eapply H1.
  - rewrite (assoc_L (++)). by eapply H2.
Qed.

(** A step without acts moves into the prefix. *)
Lemma wpM_safe_bind {S A B} (m : M S E A) (f : A → M S E B) s pre (R : list (event E) → S → result A → Prop) :
  alwaysM calm m → wpM m s R →
  (∀ t s' a, R t s' (Ok a) → wpM (f a) s' (λ t' _ _, safe (pre ++ t) t')) →
  wpM (bind m f) s (λ t _ _, safe pre t).
Proof.
  intros Ha Hm Hf. apply wpM_bind. eapply wpM_mono; [|apply wpM_conj; [apply (alwaysM_wpM _ _ s Ha)|exact Hm]].
  intros t s' [a|e] [Ht HR]; [|by apply safe_calm].
  eapply wpM_mono; [|exact (Hf t s' a HR)]. intros t' ? ? Ht'. apply safe_app; [by apply safe_calm|done].
Qed.
Lemma wpM_safe_wrap {S A} ctx (m : M S E A) s pre :
  wpM m s (λ t _ _, safe pre t) → wpM (wrap ctx m) s (λ t _ _, safe pre t).
Proof. intros Hm. by apply wpM_wrap. Qed.
End safe.

(** ** Runs as a relation: the traces and results that [wp] quantifies over *)
Section runs.
Context {E : Type → Type}.

Fixpoint runs {A} (p : prog E A) (t : list (event E)) (a : A) : Prop :=
  match p with
  | Ret a' => t = [] ∧ a = a'
  | Vis e k => ∃ x t', t = Ev e x :: t' ∧ runs (k x) t' a
  | Choose k => ∃ b, runs (k b) t a
  end.

Lemma wp_runs {A} (p : prog E A) Q : wp p Q ↔ ∀ t a, runs p t a → Q t a.
Proof.
  revert Q. induction p as [a|X e k IH|k IH]; intros Q; cbn [wp runs].
  - split; [by intros HQ t a' [-> ->]|auto].
  - split.
    + intros Hw t a (x & t' & -> & Hr). by apply (proj1 (IH x _) (Hw x)).
    + intros HQ x. apply IH. intros t a Hr. apply HQ. eauto.
  - split.
    + intros Hw t a (b & Hr). by apply (proj1 (IH b _) (Hw b)).
    + intros HQ b. apply IH. intros t a Hr. apply HQ. eauto.
Qed.

Lemma runs_bind {A B} (p : prog E A) (f : A → prog E B) t b :
  runs (bind_prog p f) t b ↔ ∃ t1 a t2, t = t1 ++ t2 ∧ runs p t1 a ∧ runs (f a) t2 b.
Proof.
  revert t. induction p as [a|X e k IH|k IH]; intros t; cbn [bind_prog runs].
  - split; [intros Hr; by exists [], a, t|]. by intros (t1 & a' & t2 & -> & [-> ->] & Hr).
  - split.
    + intros (x & t' & -> & (t1 & a & t2 & -> & H1 & H2)%IH). exists (Ev e x :: t1), a, t2. eauto 6.
    + intros (t1 & a & t2 & -> & (x & t' & -> & H1) & H2). exists x, (t' ++ t2). split; [done|].
      apply IH. eauto 6.
  - split.
    + intros (b' & (t1 & a & t2 & -> & H1 & H2)%IH). eauto 7.
    + intros (t1 & a & t2 & -> & (b' & H1) & H2). exists b'. apply IH. eauto 6.
Qed.
End runs.
Lemma runs_try {S E A} (m : M S E A) s t s' r :
  runs (try m s) t (s', r) ↔ ∃ r', r = Ok r' ∧ runs (m s) t (s', r').
Proof.
  unfold try. rewrite runs_bind. split.
  - intros (t1 & [s1 r1] & t2 & -> & Hr & -> & [= -> ->]). rewrite app_nil_r. eauto.
  - intros (r' & -> & Hr). exists t, (s', r'), []. by rewrite app_nil_r.
Qed.
Lemma runs_bindM {S E A B} (m : M S E A) (f : A → M S E B) s t s' r :
  runs (bind m f s) t (s', r) ↔
  ∃ t1 s1 r1, runs (m s) t1 (s1, r1) ∧
    match r1 with
    | Ok a => ∃ t2, t = t1 ++ t2 ∧ runs (f a s1) t2 (s', r)
    | Err e => t = t1 ∧ s' = s1 ∧ r = Err e
    end.
Proof.
  unfold bind. rewrite runs_bind. split.
  - intros (t1 & [s1 [a|e]] & t2 & -> & Hr & Hf); exists t1, s1; [exists (Ok a); eauto|].
    destruct Hf as [-> [= -> ->]]. exists (Err e). by rewrite app_nil_r.
  - intros (t1 & s1 & [a|e] & Hr & Hf).
    + destruct Hf as (t2 & -> & Hf). exists t1, (s1, Ok a), t2. done.
    + destruct Hf as (-> & -> & ->). exists t1, (s1, Err e), []. by rewrite app_nil_r.
Qed.
