(* ===== verification/Kube.v ===== *)
(** * The world outside the operator

    The operations the modelled controllers perform on the Kubernetes API, on
    the MariaDB servers of a cluster (reached by the ordinal of their Pod) and on
    the Galera agents, with the Kubernetes objects they exchange.  An answer is
    whatever the environment returns: nothing is assumed of it beyond its type,
    so every property holds for all behaviours of the API server, the databases
    and the agents.  Logs and Kubernetes events are not operations: no modelled
    code reads them back. *)

From S2P Require Import Prelude StatefulSet GaleraState Conditions MariaDBTypes MaxScaleTypes Concurrency.

Local Open Scope Z_scope.

(** ** Objects: the fields the operator reads *)
Record PodCondition := mkPodCondition { pc_Type : string; pc_Status : string }.

Record Pod := mkPod {
  pod_Name : string;
  pod_Namespace : string;
  pod_Labels : gmap string string;
  pod_Annotations : gmap string string;
  pod_NodeName : string;
  pod_Phase : string;
  pod_Conditions : list PodCondition;
  pod_IP : string;
  pod_UID : string
}.

Record StatefulSet := mkStatefulSet {
  sts_meta : ObjectMeta;
  sts_SpecReplicas : option Z;
  sts_Replicas : Z;
  sts_ReadyReplicas : Z;
  sts_UpdateRevision : string
}.

(** [Ports[i].Port] and [Endpoints[i].Conditions.Ready] *)
Record EndpointSlice := mkEndpointSlice {
  es_Ports : list (option Z);
  es_Endpoints : list (option bool)
}.

(** Job conditions, as type and status, [Spec.Selector.MatchLabels] and the creation
    timestamp ([None]: the zero time). *)
Record Job := mkJob {
  job_Name : string;
  job_Namespace : string;
  job_Selector : gmap string string;
  job_Conditions : list PodCondition;
  job_CreationTimestamp : option Z
}.

(** [client.ObjectKeyFromObject] *)
Definition ObjectKey (m : MariaDB) : NamespacedName :=
  mkNamespacedName (Name (m_meta m)) (Namespace (m_meta m)).

(** The answer of a Galera agent: a value, an HTTP error with its status code, or
    a failure of the connection. *)
Inductive agent_reply (A : Type) :=
  | AgentOk (a : A)
  | AgentHttp (code : Z) (msg : string)
  | AgentFail (msg : string).
Arguments AgentOk {A} a.
Arguments AgentHttp {A} code msg.
Arguments AgentFail {A} msg.
Definition of_agent {A} (r : agent_reply A) : result A :=
  match r with
  | AgentOk a => Ok a
  | AgentHttp code msg => Err (ErrHttp code msg)
  | AgentFail msg => Err (ErrNew msg)
  end.

(** ** Operations *)
Inductive op : Type → Type :=
  (* the API server *)
  | KGetMariaDB (key : NamespacedName) : op (result MariaDB)
  (* a merge patch: the difference between the object as it was copied and as it is *)
  | KPatchMariaDB (base m : MariaDB) : op (result unit)
  | KPatchStatus (base m : MariaDB) : op (result unit)
  | KGetPod (key : NamespacedName) : op (result Pod)
  | KDeletePod (key : NamespacedName) : op (result unit)
  | KPatchPod (p : Pod) : op (result unit)
  | KListPods (labels : gmap string string) (namespace : string) : op (result (list Pod))
  | KGetStatefulSet (key : NamespacedName) : op (result StatefulSet)
  | KPatchStatefulSet (key : NamespacedName) (s : StatefulSet) : op (result unit)
  | KListEndpointSlices (service : NamespacedName) : op (result (list EndpointSlice))
  | KGetJob (key : NamespacedName) : op (result Job)
  | KBuildRecoveryJob (key : NamespacedName) (pod : string) : op (result unit)
  | KCreateRecoveryJob (key : NamespacedName) : op (result unit)
  | KDeleteJob (key : NamespacedName) : op (result unit)
  | KPodLogs (key : NamespacedName) : op (result string)
  | KGetMaxScale (key : NamespacedName) : op (result MaxScale)
  | KSecretKey (sel : SecretKeySelector) (namespace : string) : op (result string)
  | KReconcilePassword (ref : GeneratedSecretKeyRef) (namespace : string) : op (result string)
  (* the database of the Pod with the given ordinal *)
  | SqlOpen (index : Z) : op (reply unit)
  | SqlExec (index : Z) (query : string) : op (reply unit)
  | SqlQueryRow (index : Z) (query : string) (args : list string) : op (reply string)
  (* the Galera agent of that Pod *)
  | AgentHealth (index : Z) : op (agent_reply bool)
  | AgentGetState (index : Z) : op (agent_reply GaleraState)
  | AgentEnableBootstrap (index : Z) (b : option Bootstrap) : op (agent_reply unit)
  | AgentDisableBootstrap (index : Z) : op (agent_reply unit)
  (* the clock *)
  | TimeNow : op Z.

Abbreviation trace := (list (event op)).

Record ctrl_Result := mkResult { Requeue : bool; RequeueAfter : Z }.
#[export] Instance ctrl_Result_eq_dec : EqDecision ctrl_Result.
Proof. solve_decision. Defined.
Definition Result_zero : ctrl_Result := mkResult false 0.
Definition requeue_after (d : Z) : ctrl_Result := mkResult false d.
Definition requeue : ctrl_Result := mkResult true 0.
Definition Result_IsZero (r : ctrl_Result) : bool := bool_decide (r = Result_zero).

(** ** Steps that may ask for a requeue *)
Section steps.
Context {S : Type} {E : Type → Type}.
Local Open Scope go_scope.

(** [k] runs when the step does not ask for a requeue. *)
Definition then_if_zero (m k : M S E ctrl_Result) : M S E ctrl_Result :=
  result <- m ;;
  if negb (Result_IsZero result) then ret result else k.

(** A loop that ends at the first step asking for a requeue. *)
Fixpoint for_each_result {A} (l : list A) (f : A → M S E ctrl_Result) : M S E ctrl_Result :=
  match l with
  | [] => ret Result_zero
  | x :: l => then_if_zero (f x) (for_each_result l f)
  end.

Lemma wpM_then_if_zero (m k : M S E ctrl_Result) s (Q : list (event E) → S → result ctrl_Result → Prop) :
  wpM m s (λ t s' r, (r = Ok Result_zero → wpM k s' (λ t' s'' r', Q (t ++ t') s'' r')) ∧
                     (r ≠ Ok Result_zero → Q t s' r)) →
  wpM (then_if_zero m k) s Q.
Proof.
  intros Hm. unfold then_if_zero. apply wpM_bind. eapply wpM_mono; [|exact Hm]. intros t s' [res|e] [Hz Hn]; [|by apply Hn].
  unfold Result_IsZero. case_bool_decide as Hres; cbn [negb]; [subst; by apply Hz|].
  apply wpM_ret. rewrite app_nil_r. apply Hn. congruence.
Qed.

Lemma alwaysM_for_each_result {A} P (l : list A) (f : A → M S E ctrl_Result) :
  (∀ x, x ∈ l → alwaysM P (f x)) → alwaysM P (for_each_result l f).
Proof.
  induction l as [|x l IH]; intros Hf; cbn [for_each_result]; [apply alwaysM_ret|]. unfold then_if_zero.
  apply alwaysM_bind; [apply Hf; by left|]. intros res. destruct (negb _); [apply alwaysM_ret|].
  apply IH. intros y Hy. apply Hf. by right.
Qed.
Lemma keepsM_for_each_result {A} (R : S → S → Prop) `{!PreOrder R} (l : list A) (f : A → M S E ctrl_Result) :
  (∀ x, keepsM R (f x)) → keepsM R (for_each_result l f).
Proof.
  intros Hf. induction l as [|x l IH]; cbn [for_each_result]; [by apply keepsM_ret|]. unfold then_if_zero.
  apply keepsM_bind; [done|apply Hf|]. intros res. destruct (negb _); [by apply keepsM_ret|apply IH].
Qed.
End steps.

(** [client.IgnoreNotFound]: a nil error for NotFound. *)
Definition IgnoreNotFound (e : error) : option error :=
  if IsNotFound e then None else Some e.

(** [patch := client.MergeFrom(m.DeepCopy()); patcher(&m.Status); Status().Patch]:
    the in-memory object is changed whether or not the API server accepts the
    patch; an accepted patch is answered with the object sent. *)
Definition patchStatus_m (patcher : MariaDB → MariaDBStatus) : M MariaDB op unit := λ m,
  let m' := { m with m_Status := patcher m } in
  Vis (KPatchStatus m m') (λ r, Ret (m', r)).

(** ** An environment in which every Pod is ready and every request succeeds *)
Definition ready_pod (key : NamespacedName) : Pod :=
  mkPod (nn_Name key) (nn_Namespace key) ∅ ∅ "node" "Running" [mkPodCondition "Ready" "True"] "10.244.0.10" "".

Definition friendly (mdb : MariaDB) (pods : list Pod) (now : Z) {X} (o : op X) : X :=
  match o in op X return X with
  | KGetMariaDB _ => Ok mdb
  | KGetPod key => Ok (ready_pod key)
  | KListPods _ _ => Ok pods
  | KGetStatefulSet _ => Ok (mkStatefulSet meta_ex None 0 0 "")
  | KListEndpointSlices _ => Ok []
  | KGetJob _ => Ok (mkJob "" "" ∅ [] None)
  | KPodLogs _ => Ok ""
  | KGetMaxScale _ => Ok (MaxScale_zero meta_ex)
  | KSecretKey _ _ | KReconcilePassword _ _ => Ok "secret"
  | SqlOpen _ | SqlExec _ _ => Reply tt
  | SqlQueryRow _ _ _ => Reply "0"
  | AgentHealth _ => AgentOk true
  | AgentGetState _ => AgentOk (mkGaleraState "2.1" "" (-1) false)
  | AgentEnableBootstrap _ _ | AgentDisableBootstrap _ => AgentOk tt
  | TimeNow => now
  | _ => Ok tt
  end.
