(* ===== verification/Wait.v ===== *)
(** * pkg/wait: polling

    [kwait.PollUntilContextCancel] runs its condition at once and then once per
    second until it succeeds or the context is done.  Every context the operator
    polls with has a timeout, so a poll makes at most one attempt per second of
    it and the first: that is the fuel of [poll_loop], and the runtime may end
    the context earlier, after any failed attempt.  A context is represented by
    an upper bound of the time it has left. *)

From S2P Require Import Prelude MariaDBTypes Kube Concurrency.

Local Open Scope Z_scope.
Local Open Scope go_scope.

Definition DeadlineExceeded : error := ErrApi Interrupted.

(** [context.WithTimeout] *)
Definition WithTimeout (ctx timeout : Z) : Z := Z.min ctx timeout.

Definition poll_attempts (ctx : Z) : nat := Z.to_nat (ctx / Second).

Section poll.
Context {S : Type} {E : Type → Type}.

Fixpoint poll_loop (attempts : nat) (fn : M S E unit) : M S E unit :=
  r <- try fn ;;
  match r with
  | Ok _ => ret tt
  | Err _ =>
      match attempts with
      | O => throw DeadlineExceeded
      | Datatypes.S attempts' =>
          done <- choose ;;
          if (done : bool) then throw DeadlineExceeded else poll_loop attempts' fn
      end
  end.

Definition PollUntilSuccessOrContextCancel (ctx : Z) (fn : M S E unit) : M S E unit :=
  poll_loop (poll_attempts ctx) fn.

Lemma alwaysM_poll_until (P : event E → Prop) ctx fn :
  alwaysM P fn → alwaysM P (PollUntilSuccessOrContextCancel ctx fn).
Proof.
  intros Hfn. unfold PollUntilSuccessOrContextCancel.
  induction (poll_attempts ctx) as [|n IH]; cbn [poll_loop]; always_auto; auto.
Qed.

Lemma keepsM_poll_until R `{!PreOrder R} ctx fn :
  keepsM R fn → keepsM R (PollUntilSuccessOrContextCancel ctx fn).
Proof.
  intros Hfn. unfold PollUntilSuccessOrContextCancel.
  induction (poll_attempts ctx) as [|n IH]; cbn [poll_loop]; keeps_auto; auto.
Qed.

(** A poll that succeeds ends with a successful attempt. *)
Lemma okM_poll_loop n (fn : M S E unit) (Q : list (event E) → Prop) :
  (∀ t t', Q t' → Q (t ++ t')) → okM fn (λ _ t, Q t) → okM (poll_loop n fn) (λ _ t, Q t).
Proof.
  intros HQ Hfn. induction n as [|n IH]; cbn [poll_loop]; intros s; wp_step; wp_step;
    (eapply wpM_mono; [|apply Hfn]); intros t s' [[]|e] Ht.
  1,3: wp_step; intros [] _; rewrite app_nil_r; by apply (Ht tt).
  - by wp_step.
  - wp_step. wp_step. wp_step; [by wp_step|]. eapply wpM_mono; [|apply IH].
    intros t' s'' r Ht' [] ->. cbn. apply HQ. by apply (Ht' tt).
Qed.
Lemma okM_poll_until ctx (fn : M S E unit) (Q : list (event E) → Prop) :
  (∀ t t', Q t' → Q (t ++ t')) → okM fn (λ _ t, Q t) →
  okM (PollUntilSuccessOrContextCancel ctx fn) (λ _ t, Q t).
Proof. apply okM_poll_loop. Qed.
End poll.

Section wait.
Context {S : Type}.

(** A MariaDB that no longer exists ends the poll. *)
Definition shouldPoll (mariadbKey : NamespacedName) : M S op bool :=
  r <- try (call (KGetMariaDB mariadbKey)) ;;
  ret (match r with Ok _ => true | Err err => negb (IsNotFound err) end).

Definition PollWithMariaDB (ctx : Z) (mariadbKey : NamespacedName) (fn : M S op unit) : M S op unit :=
  PollUntilSuccessOrContextCancel ctx
    (should <- shouldPoll mariadbKey ;;
     if (should : bool) then fn else ret tt).

(** ** Lemmas *)

(** The MariaDB was found deleted. *)
Definition gone (key : NamespacedName) (t : trace) : Prop :=
  ∃ e, IsNotFound e = true ∧ Ev (KGetMariaDB key) (Err e) ∈ t.

Lemma gone_incl key (t t' : trace) : t ⊆ t' → gone key t → gone key t'.
Proof. intros Hs (e & He & Hin). exists e. auto. Qed.

Lemma alwaysM_poll P ctx key fn :
  (∀ x, P (Ev (KGetMariaDB key) x)) → alwaysM P fn → alwaysM P (PollWithMariaDB ctx key fn).
Proof.
  intros HP Hfn. apply alwaysM_poll_until. always_auto; auto.
Qed.

Lemma keepsM_poll R `{!PreOrder R} ctx key fn : keepsM R fn → keepsM R (PollWithMariaDB ctx key fn).
Proof.
  intros Hfn. apply keepsM_poll_until; [done|]. keeps_auto; auto.
Qed.

(** A poll that succeeds ends with a successful attempt, or with the MariaDB gone. *)
Lemma okM_poll ctx key fn (Q : trace → Prop) :
  (∀ t t', Q t' → Q (t ++ t')) → okM fn (λ _ t, Q t) →
  okM (PollWithMariaDB ctx key fn) (λ _ t, gone key t ∨ Q t).
Proof.
  intros HQ Hfn. apply (okM_poll_until ctx _ (λ t, gone key t ∨ Q t)).
  { intros t t' [Hg|Hq]; [left|right; by apply HQ]. eapply gone_incl; [|exact Hg]. set_solver. }
  assert (∀ s (ev : event op), wpM fn s (λ t _ r, ∀ a, r = Ok a → gone key (ev :: t) ∨ Q (ev :: t))) as Hfn'.
  { intros s ev. eapply wpM_mono; [|apply Hfn]. intros t s' r Ht a Ha. right. apply (HQ [ev]). by apply (Ht a). }
  intros s. unfold shouldPoll. do 4 wp_step; apply wpM_ret; cbn; [apply Hfn'|].
  destruct (IsNotFound e) eqn:He; cbn [negb]; [|apply Hfn'].
  wp_step. intros _ _. left. exists e. set_solver.
Qed.
End wait.
