(* ===== verification/Sql.v ===== *)
(** * pkg/sql: the statements sent to a MariaDB server

    A client is identified by the ordinal of the Pod it is connected to.  A
    method builds a statement and executes it, or queries one row and scans its
    single column.  The connection itself (DSN, TLS, driver) is the operation
    [SqlOpen] of the environment. *)

From S2P Require Import Prelude GoStrings StatefulSet Datastructures MariaDBTypes Kube.

Local Open Scope Z_scope.
Local Open Scope go_scope.

(** ** TLS requirements of a user (api/v1alpha1/user_types.go) *)
Record TLSRequirements := mkTLSRequirements {
  tr_SSL : option bool;
  tr_X509 : option bool;
  tr_Issuer : option string;
  tr_Subject : option string
}.

Definition is_set (b : option bool) : bool := default false b.
Definition non_empty (s : option string) : bool :=
  match s with Some s => negb (bool_decide (s = "")) | None => false end.

Definition TLSRequirements_Validate (u : TLSRequirements) : result unit :=
  let count : nat :=
    ((if is_set (tr_SSL u) then 1 else 0) + (if is_set (tr_X509 u) then 1 else 0) +
     (if non_empty (tr_Issuer u) || non_empty (tr_Subject u) then 1 else 0))%nat in
  if bool_decide (1 < count)%nat then
    Err (ErrNew "only one of [SSL, X509, (Issuer, Subject)] can be set at a time")
  else if bool_decide (count = 0%nat) then
    Err (ErrNew "at least one field [SSL, X509, (Issuer, Subject)] must be set")
  else Ok tt.

Definition requireQuery (require : option TLSRequirements) : result string :=
  match require with
  | None => Err (ErrNew "TLS requirements must be set")
  | Some r =>
      wrap_err "invalid TLS requirements" (TLSRequirements_Validate r) ≫= λ _,
      let tlsOptions :=
        (if is_set (tr_SSL r) then ["SSL"] else []) ++
        (if is_set (tr_X509 r) then ["X509"] else []) ++
        (if non_empty (tr_Issuer r) then ["ISSUER '" +:+ default "" (tr_Issuer r) +:+ "'"] else []) ++
        (if non_empty (tr_Subject r) then ["SUBJECT '" +:+ default "" (tr_Subject r) +:+ "'"] else []) in
      if bool_decide (length tlsOptions = 0%nat) then Err (ErrNew "no valid TLS requirements specified")
      else Ok ("REQUIRE " +:+ Join tlsOptions " AND ")
  end.

(** ** Connection options: the name under which a TLS configuration is registered *)
Record Opts := mkOpts {
  o_MariadbName : string;
  o_MaxscaleName : string;
  o_ExternalMariadbName : string;
  o_Namespace : string;
  o_ClientName : string
}.

Definition configTLSName (opts : Opts) : result string :=
  let base :=
    if negb (bool_decide (o_MariadbName opts = "")) then
      Ok ("mariadb-" +:+ o_MariadbName opts +:+ "-" +:+ o_Namespace opts)
    else if negb (bool_decide (o_MaxscaleName opts = "")) then
      Ok ("maxscale-" +:+ o_MaxscaleName opts +:+ "-" +:+ o_Namespace opts)
    else if negb (bool_decide (o_ExternalMariadbName opts = "")) then
      Ok ("mariadb-" +:+ o_ExternalMariadbName opts +:+ "-" +:+ o_Namespace opts)
    else Err (ErrNew "unable to create config name: either MariaDB or MaxScale names must be set") in
  configName ← base;
  Ok (if negb (bool_decide (o_ClientName opts = ""))
      then configName +:+ "-client-" +:+ o_ClientName opts else configName).

(** ** Users and grants *)
Record CreateUserOpts := mkCreateUserOpts {
  cu_IdentifiedBy : string;
  cu_IdentifiedByPassword : string;
  cu_IdentifiedVia : string;
  cu_IdentifiedViaUsing : string;
  cu_Require : option TLSRequirements;
  cu_MaxUserConnections : Z
}.
Definition CreateUserOpts_zero : CreateUserOpts := mkCreateUserOpts "" "" "" "" None 0.
Definition CreateUserOpt := CreateUserOpts → CreateUserOpts.
Definition apply_opts {O} (opts : list (O → O)) (o : O) : O := foldl (λ o setOpt, setOpt o) o opts.

Definition WithIdentifiedBy (password : string) : CreateUserOpt := λ o,
  { o with cu_IdentifiedBy := password }.
Definition WithIdentifiedByPassword (password : string) : CreateUserOpt := λ o,
  { o with cu_IdentifiedByPassword := password }.
Definition WithIdentifiedVia (via : string) : CreateUserOpt := λ o,
  { o with cu_IdentifiedVia := via }.
Definition WithIdentifiedViaUsing (viaUsing : string) : CreateUserOpt := λ o,
  { o with cu_IdentifiedViaUsing := viaUsing }.
Definition WithTLSRequirements (require : option TLSRequirements) : CreateUserOpt := λ o,
  { o with cu_Require := require }.
Definition WithMaxUserConnections (maxConns : Z) : CreateUserOpt := λ o,
  { o with cu_MaxUserConnections := maxConns }.

Definition non_empty_str (s : string) : bool := negb (bool_decide (s = "")).

(** The clauses CREATE USER and ALTER USER share. *)
Definition identified_query (o : CreateUserOpts) : string :=
  if non_empty_str (cu_IdentifiedVia o) then
    "IDENTIFIED VIA " +:+ cu_IdentifiedVia o +:+ " " +:+
    (if non_empty_str (cu_IdentifiedViaUsing o)
     then "USING '" +:+ cu_IdentifiedViaUsing o +:+ "' " else "")
  else if non_empty_str (cu_IdentifiedByPassword o) then
    "IDENTIFIED BY PASSWORD '" +:+ cu_IdentifiedByPassword o +:+ "' "
  else if non_empty_str (cu_IdentifiedBy o) then
    "IDENTIFIED BY '" +:+ cu_IdentifiedBy o +:+ "' "
  else "".

Definition require_subquery (o : CreateUserOpts) : result string :=
  match cu_Require o with
  | None => Ok ""
  | Some r =>
      q ← wrap_err "error processing require subquery" (requireQuery (Some r));
      Ok (q +:+ " ")
  end.

Definition create_user_query (accountName : string) (o : CreateUserOpts) : result string :=
  require ← require_subquery o;
  Ok ("CREATE USER IF NOT EXISTS " +:+ accountName +:+ " " +:+ identified_query o +:+ require +:+
      "WITH MAX_USER_CONNECTIONS " +:+ Itoa (cu_MaxUserConnections o) +:+ " " +:+
      (if bool_decide (cu_IdentifiedBy o = "") && bool_decide (cu_IdentifiedByPassword o = "") &&
          bool_decide (cu_IdentifiedVia o = "") && (if cu_Require o is None then true else false)
       then "ACCOUNT LOCK PASSWORD EXPIRE " else "") +:+ ";").

Definition alter_user_query (accountName : string) (o : CreateUserOpts) : result string :=
  require ← require_subquery o;
  Ok ("ALTER USER " +:+ accountName +:+ " " +:+ identified_query o +:+ require +:+
      "WITH MAX_USER_CONNECTIONS " +:+ Itoa (cu_MaxUserConnections o) +:+ " ;").

Definition escapeWildcard (s : string) : string :=
  if bool_decide (s = "*") then s else "`" +:+ s +:+ "`".

Definition grant_query (privileges : list string) (database table accountName : string)
    (grantOption : bool) : string :=
  "GRANT " +:+ Join privileges "," +:+ " ON " +:+ escapeWildcard database +:+ "." +:+
  escapeWildcard table +:+ " TO " +:+ accountName +:+ " " +:+
  (if grantOption then "WITH GRANT OPTION " else "") +:+ ";".

Definition revoke_query (privileges : list string) (database table accountName : string)
    (grantOption : bool) : string :=
  let privileges := if grantOption then privileges ++ ["GRANT OPTION"] else privileges in
  "REVOKE " +:+ Join privileges "," +:+ " ON " +:+ escapeWildcard database +:+ "." +:+
  escapeWildcard table +:+ " FROM " +:+ accountName.

(** ** CHANGE MASTER *)
Record ChangeMasterOpts := mkChangeMasterOpts {
  cm_Host : string;
  cm_Port : Z;
  cm_User : string;
  cm_Password : string;
  cm_Gtid : string;
  cm_Retries : Z;
  cm_SSLEnabled : bool;
  cm_SSLCertPath : string;
  cm_SSLKeyPath : string;
  cm_SSLCAPath : string
}.
Definition ChangeMasterOpt := ChangeMasterOpts → ChangeMasterOpts.
Definition WithChangeMasterHost (host : string) : ChangeMasterOpt := λ o, { o with cm_Host := host }.
Definition WithChangeMasterPort (port : Z) : ChangeMasterOpt := λ o, { o with cm_Port := port }.
Definition WithChangeMasterCredentials (user password : string) : ChangeMasterOpt := λ o,
  { o with cm_User := user; cm_Password := password }.
Definition WithChangeMasterGtid (gtid : string) : ChangeMasterOpt := λ o, { o with cm_Gtid := gtid }.
Definition WithChangeMasterRetries (retries : Z) : ChangeMasterOpt := λ o,
  { o with cm_Retries := retries }.
Definition WithChangeMasterSSL (certPath keyPath caPath : string) : ChangeMasterOpt := λ o,
  { o with cm_SSLEnabled := true; cm_SSLCertPath := certPath; cm_SSLKeyPath := keyPath;
           cm_SSLCAPath := caPath }.

Definition quote (s : string) : string := "'" +:+ s +:+ "'".

(** The template of [buildChangeMasterQuery], executed by text/template. *)
Definition change_master_tpl (o : ChangeMasterOpts) : string :=
  "CHANGE MASTER TO" +:+ newline +:+
  "MASTER_HOST=" +:+ quote (cm_Host o) +:+ "," +:+ newline +:+
  "MASTER_PORT=" +:+ Itoa (cm_Port o) +:+ "," +:+ newline +:+
  "MASTER_USER=" +:+ quote (cm_User o) +:+ "," +:+ newline +:+
  "MASTER_PASSWORD=" +:+ quote (cm_Password o) +:+ "," +:+ newline +:+
  "MASTER_USE_GTID=" +:+ cm_Gtid o +:+ "," +:+ newline +:+
  "MASTER_CONNECT_RETRY=" +:+ Itoa (cm_Retries o) +:+
  (if cm_SSLEnabled o then
     "," +:+ newline +:+
     "MASTER_SSL=1," +:+ newline +:+
     "MASTER_SSL_CERT=" +:+ quote (cm_SSLCertPath o) +:+ "," +:+ newline +:+
     "MASTER_SSL_KEY=" +:+ quote (cm_SSLKeyPath o) +:+ "," +:+ newline +:+
     "MASTER_SSL_CA=" +:+ quote (cm_SSLCAPath o) +:+ "," +:+ newline +:+
     "MASTER_SSL_VERIFY_SERVER_CERT=1;"
   else ";") +:+ newline.

Definition buildChangeMasterQuery (changeMasterOpts : list ChangeMasterOpt) : result string :=
  let opts := apply_opts changeMasterOpts
    (mkChangeMasterOpts "" 3306 "" "" "CurrentPos" 10 false "" "" "") in
  if bool_decide (cm_Host opts = "") then Err (ErrNew "host must be provided")
  else if bool_decide (cm_User opts = "") || bool_decide (cm_Password opts = "")
       then Err (ErrNew "credentials must be provided")
  else if cm_SSLEnabled opts && (bool_decide (cm_SSLCertPath opts = "") ||
            bool_decide (cm_SSLKeyPath opts = "") || bool_decide (cm_SSLCAPath opts = ""))
       then Err (ErrNew "all SSL paths must be provided when SSL is enabled")
  else Ok (change_master_tpl opts).

(** ** The methods of a client connected to the Pod with ordinal [c] *)
Section client.
Context {S : Type} (c : Z).

Definition Exec (sql : string) : M S op unit := call_reply (SqlExec c sql).

(** [QueryRowContext(sql, args...)] then [row.Scan] into a string or an int *)
Definition QueryRow (sql : string) (args : list string) : M S op string :=
  call_reply (SqlQueryRow c sql args).
Definition QueryRowInt (sql : string) (args : list string) : M S op Z :=
  v <- QueryRow sql args ;; lift (Atoi v).

Definition CreateUser (accountName : string) (opts : list CreateUserOpt) : M S op unit :=
  query <- lift (create_user_query accountName (apply_opts opts CreateUserOpts_zero)) ;;
  Exec query.
Definition DropUser (accountName : string) : M S op unit :=
  Exec ("DROP USER IF EXISTS " +:+ accountName +:+ ";").
Definition AlterUser (accountName : string) (opts : list CreateUserOpt) : M S op unit :=
  query <- lift (alter_user_query accountName (apply_opts opts CreateUserOpts_zero)) ;;
  Exec query.
Definition UserExists (username host : string) : M S op bool :=
  count <- QueryRowInt "SELECT COUNT(*) FROM mysql.user WHERE user=? AND host=?" [username; host] ;;
  ret (bool_decide (0 < count)).
Definition Grant (privileges : list string) (database table accountName : string)
    (grantOption : bool) : M S op unit :=
  Exec (grant_query privileges database table accountName grantOption).
Definition Revoke (privileges : list string) (database table accountName : string)
    (grantOption : bool) : M S op unit :=
  Exec (revoke_query privileges database table accountName grantOption).

Definition CreateDatabase (database CharacterSet Collate : string) : M S op unit :=
  dbExists <- QueryRow ("SELECT EXISTS (SELECT 1 FROM INFORMATION_SCHEMA.SCHEMATA WHERE SCHEMA_NAME = '"
                        +:+ database +:+ "')") [] ;;
  if bool_decide (dbExists = "1") then ret tt else
  Exec ("CREATE DATABASE `" +:+ database +:+ "` " +:+
    (if non_empty_str CharacterSet then "CHARACTER SET = '" +:+ CharacterSet +:+ "' " else "") +:+
    (if non_empty_str Collate then "COLLATE = '" +:+ Collate +:+ "' " else "") +:+ ";").
Definition DropDatabase (database : string) : M S op unit :=
  Exec ("DROP DATABASE IF EXISTS `" +:+ database +:+ "`;").

(** The error of [row.Scan] is dropped: the caller gets an empty value. *)
Definition SystemVariable (variable : string) : M S op string :=
  r <- try (QueryRow ("SELECT @@global." +:+ variable +:+ ";") []) ;;
  match r with Ok val => ret val | Err _ => ret "" end.
Definition IsSystemVariableEnabled (variable : string) : M S op bool :=
  val <- SystemVariable variable ;;
  ret (bool_decide (val = "1") || bool_decide (val = "ON")).
Definition SetSystemVariable (variable value : string) : M S op unit :=
  Exec ("SET @@global." +:+ variable +:+ "=" +:+ value +:+ ";").
Definition SetSystemVariables `{MapRange} (keyVal : gmap string string) : M S op unit :=
  for_each (range_keys keyVal) (λ k, SetSystemVariable k (default "" (keyVal !! k))).

Definition LockTablesWithReadLock : M S op unit := Exec "FLUSH TABLES WITH READ LOCK;".
Definition UnlockTables : M S op unit := Exec "UNLOCK TABLES;".
Definition EnableReadOnly : M S op unit := SetSystemVariable "read_only" "1".
Definition DisableReadOnly : M S op unit := SetSystemVariable "read_only" "0".
Definition ResetMaster : M S op unit := Exec "RESET MASTER;".
Definition StartSlave : M S op unit := Exec "START SLAVE;".
Definition StopAllSlaves : M S op unit := Exec "STOP ALL SLAVES;".
Definition ResetAllSlaves : M S op unit := Exec "RESET SLAVE ALL;".
Definition ResetSlavePos : M S op unit := Exec "SET @@global.gtid_slave_pos='';".

(** [int(timeout.Seconds())] truncates. *)
Definition gtid_wait_query (gtid : string) (timeout : Z) : string :=
  "SELECT MASTER_GTID_WAIT('" +:+ gtid +:+ "', " +:+ Itoa (Z.quot timeout Second) +:+ ");".

Definition WaitForReplicaGtid (gtid : string) (timeout : Z) : M S op unit :=
  r <- wrap "error scanning result" (QueryRowInt (gtid_wait_query gtid timeout) []) ;;
  if bool_decide (r = 0) then ret tt
  else if bool_decide (r = -1) then throw (ErrSentinel ErrWaitReplicaTimeout)
  else throw (ErrNew "unexpected result").

Definition ChangeMaster (opts : list ChangeMasterOpt) : M S op unit :=
  query <- wrap "error building CHANGE MASTER query" (lift (buildChangeMasterQuery opts)) ;;
  Exec query.

Definition statusVariableSql : string :=
  "SELECT variable_value FROM information_schema.global_status WHERE variable_name=?;".
Definition StatusVariable (variable : string) : M S op string :=
  QueryRow statusVariableSql [variable].
Definition StatusVariableInt (variable : string) : M S op Z :=
  QueryRowInt statusVariableSql [variable].
Definition GaleraClusterSize : M S op Z := StatusVariableInt "wsrep_cluster_size".
Definition GaleraClusterStatus : M S op string := StatusVariable "wsrep_cluster_status".
Definition GaleraLocalState : M S op string := StatusVariable "wsrep_local_state_comment".
Definition MaxScaleConfigSyncVersion : M S op Z := QueryRowInt "SELECT version FROM maxscale_config" [].
Definition TruncateMaxScaleConfig : M S op unit := Exec "TRUNCATE TABLE maxscale_config".
Definition DropMaxScaleConfig : M S op unit := Exec "DROP TABLE maxscale_config".
End client.
