(* ===== verification/Health.v ===== *)
(** * pkg/pod, pkg/job and pkg/health: readiness of Pods, Jobs and clusters

    [sort.Slice] of the Go library sorts by a comparison function and is not
    stable: the class [SliceSort] states just that. *)

From S2P Require Import Prelude GoStrings StatefulSet Datastructures Conditions MariaDBTypes Kube.

Local Open Scope Z_scope.
Local Open Scope go_scope.

(** ** sort.Slice *)
Class SliceSort := {
  sort_slice : ∀ {A}, (A → A → bool) → list A → list A;
  sort_slice_perm : ∀ {A} (less : A → A → bool) l, sort_slice less l ≡ₚ l;
  (** sorted, when the negation of [less] is a total preorder *)
  sort_slice_sorted : ∀ {A} (less : A → A → bool) l,
    (∀ x y z, less y x = false → less z y = false → less z x = false) →
    (∀ x y, less y x = false ∨ less x y = false) →
    StronglySorted (λ x y, less y x = false) (sort_slice less l)
}.

Definition slice_le {A} (less : A → A → bool) (x y : A) : Prop := less y x = false.
#[export] Instance slice_le_dec {A} (less : A → A → bool) : RelDecision (slice_le less).
Proof. unfold slice_le. intros x y. apply _. Defined.

#[export] Program Instance merge_sort_slice : SliceSort := {|
  sort_slice A less l := merge_sort (slice_le less) l
|}.
Next Obligation. intros A less l. apply merge_sort_Permutation. Qed.
Next Obligation.
  intros A less l Htrans Htotal.
  assert (Transitive (slice_le less)) by (intros x y z H1 H2; exact (Htrans x y z H1 H2)).
  assert (Total (slice_le less)) by exact Htotal.
  by apply (StronglySorted_merge_sort (slice_le less)).
Qed.

(** Go's [<] on strings *)
Definition str_lt (a b : string) : bool := negb (bool_decide (String.le b a)).

(** ** pkg/pod *)
Definition PodReadyCondition (p : Pod) : option PodCondition :=
  list_find (λ c, pc_Type c = "Ready") (pod_Conditions p) ≫= λ '(_, c), Some c.

Definition PodReady (p : Pod) : bool :=
  match PodReadyCondition p with
  | Some c => bool_decide (pc_Status c = "True")
  | None => false
  end.

Definition PodUpdated (p : Pod) (updateRevision : string) : bool :=
  match pod_Labels p !! "controller-revision-hash" with
  | Some podUpdateRevision => bool_decide (podUpdateRevision = updateRevision)
  | None => false
  end.

Definition PodScheduled (p : Pod) : bool := negb (bool_decide (pod_NodeName p = "")).

(** ** pkg/job: a nil Job is [None] *)
Definition IsStatusConditionTrue_job (conditions : list PodCondition) (conditionType : string) : bool :=
  existsb (λ c, bool_decide (pc_Type c = conditionType) && bool_decide (pc_Status c = "True")) conditions.

Definition IsJobFailed (job : option Job) : bool :=
  match job with Some j => IsStatusConditionTrue_job (job_Conditions j) "Failed" | None => false end.
Definition IsJobSuspended (job : option Job) : bool :=
  match job with Some j => IsStatusConditionTrue_job (job_Conditions j) "Suspended" | None => false end.
Definition IsJobComplete (job : option Job) : bool :=
  match job with Some j => IsStatusConditionTrue_job (job_Conditions j) "Complete" | None => false end.
Definition IsJobRunning (job : option Job) : bool :=
  match job with
  | Some _ => negb (IsJobFailed job) && negb (IsJobSuspended job) && negb (IsJobComplete job)
  | None => false
  end.

(** ** Labels (pkg/builder/labels) *)
Definition appLabel : string := "app.kubernetes.io/name".
Definition instanceLabel : string := "app.kubernetes.io/instance".
Definition podRole : string := "k8s.mariadb.com/role".

Definition WithApp (app : string) (b : gmap string string) : gmap string string := <[appLabel := app]> b.
Definition WithInstance (instance : string) (b : gmap string string) : gmap string string :=
  <[instanceLabel := instance]> b.
Definition WithMariaDBSelectorLabels (mdb : MariaDB) (b : gmap string string) : gmap string string :=
  WithInstance (Name (m_meta mdb)) (WithApp "mariadb" b).
Definition WithMaxScaleSelectorLabels (mxs : ObjectMeta) (b : gmap string string) : gmap string string :=
  WithInstance (Name mxs) (WithApp "maxscale" b).

(** ** pkg/health *)
Inductive EndpointPolicy := EndpointPolicyAll | EndpointPolicyAtLeastOne | EndpointPolicyOther (s : string).

Record HealthOpts := mkHealthOpts {
  ho_DesiredReplicas : Z;
  ho_Port : option Z;
  ho_EndpointPolicy : option EndpointPolicy
}.
Definition HealthOpt := HealthOpts → HealthOpts.
Definition WithDesiredReplicas (r : Z) : HealthOpt := λ ho, { ho with ho_DesiredReplicas := r }.
Definition WithPort (p : Z) : HealthOpt := λ ho, { ho with ho_Port := Some p }.
Definition WithEndpointPolicy (e : EndpointPolicy) : HealthOpt := λ ho,
  { ho with ho_EndpointPolicy := Some e }.

Definition readyEndpoints (s : EndpointSlice) : Z :=
  Z.of_nat (length (filter (λ r, default false r = true) (es_Endpoints s))).

Definition matchesPort (port : Z) (s : EndpointSlice) : bool :=
  existsb (λ p, bool_decide (p = Some port)) (es_Ports s).

(** The loop over the endpoint slices: the first one with the port decides. *)
Fixpoint endpoints_healthy (desired port : Z) (policy : EndpointPolicy) (items : list EndpointSlice) :
    result bool :=
  match items with
  | [] => Ok false
  | slice :: items' =>
      if negb (matchesPort port slice) then endpoints_healthy desired port policy items' else
      match policy with
      | EndpointPolicyAll => Ok (bool_decide (readyEndpoints slice = desired))
      | EndpointPolicyAtLeastOne => Ok (bool_decide (0 < readyEndpoints slice))
      | EndpointPolicyOther _ => Err (ErrNew "unsupported EndpointPolicy")
      end
  end.

(** [return v, client.IgnoreNotFound(err)] *)
Definition ignore_not_found {S A} (v : A) (m : M S op A) : M S op A :=
  r <- try m ;;
  match r with
  | Ok a => ret a
  | Err e => match IgnoreNotFound e with Some e => throw e | None => ret v end
  end.

Section health.
Context {S : Type}.

Definition IsStatefulSetHealthy (serviceKey : NamespacedName) (opts : list HealthOpt) : M S op bool :=
  r <- try (call (KGetStatefulSet serviceKey)) ;;
  match r with
  | Err e => match IgnoreNotFound e with Some e => throw e | None => ret false end
  | Ok sts =>
      let healthOpts := foldl (λ ho setOpt, setOpt ho)
        (mkHealthOpts (default 1 (sts_SpecReplicas sts)) None (Some EndpointPolicyAll)) opts in
      if negb (bool_decide (sts_ReadyReplicas sts = ho_DesiredReplicas healthOpts)) then ret false else
      match ho_Port healthOpts, ho_EndpointPolicy healthOpts with
      | Some port, Some policy =>
          l <- try (call (KListEndpointSlices serviceKey)) ;;
          match l with
          | Err e => match IgnoreNotFound e with Some e => throw e | None => ret false end
          | Ok items => lift (endpoints_healthy (ho_DesiredReplicas healthOpts) port policy items)
          end
      | _, _ => ret true
      end
  end.

Definition sortPodList `{SliceSort} (l : list Pod) : list Pod :=
  sort_slice (λ p q, str_lt (pod_Name p) (pod_Name q)) l.

(** The loop of [secondaryPodHealthyIndex]; the primary's ordinal is skipped. *)
Fixpoint first_healthy (current : option Z) (isHealthy : Pod → bool) (pods : list Pod) : result Z :=
  match pods with
  | [] => Err (ErrSentinel ErrNoHealthyInstancesAvailable)
  | p :: pods' =>
      match PodIndex (pod_Name p) with
      | Err e => Err (ErrWrap "error getting index for Pod" e)
      | Ok index =>
          if bool_decide (Some index = current) then first_healthy current isHealthy pods'
          else if isHealthy p then Ok index
          else first_healthy current isHealthy pods'
      end
  end.

Definition secondaryPodHealthyIndex `{SliceSort} (mariadb : MariaDB) (isHealthy : Pod → bool) :
    M S op Z :=
  match st_CurrentPrimaryPodIndex (m_Status mariadb) with
  | None => throw (ErrNew "'status.currentPrimaryPodIndex' must be set")
  | Some current =>
      podList <- wrap "error listing Pods"
        (call (KListPods (WithMariaDBSelectorLabels mariadb ∅) (Namespace (m_meta mariadb)))) ;;
      lift (first_healthy (Some current) isHealthy (sortPodList podList))
  end.

Definition SecondaryPodHealthyIndex `{SliceSort} (mariadb : MariaDB) : M S op Z :=
  secondaryPodHealthyIndex mariadb PodReady.

Definition ReplicaPodHealthyIndex `{SliceSort} `{MapRange} (mariadb : MariaDB) : M S op Z :=
  secondaryPodHealthyIndex mariadb (λ p, PodReady p && IsConfiguredReplica mariadb (pod_Name p)).

Definition HealthyMaxScalePod `{SliceSort} (maxscale : ObjectMeta) : M S op Z :=
  podList <- wrap "error listing Pods"
    (call (KListPods (WithMaxScaleSelectorLabels maxscale ∅) (Namespace maxscale))) ;;
  lift (first_healthy None PodReady (sortPodList podList)).

Definition IsServiceHealthy (serviceKey : NamespacedName) : M S op bool :=
  l <- try (call (KListEndpointSlices serviceKey)) ;;
  match l with
  | Err e => match IgnoreNotFound e with Some e => throw e | None => ret false end
  | Ok items => ret (existsb (λ slice, bool_decide (0 < readyEndpoints slice)) items)
  end.
End health.

(** ** Lemmas *)
Lemma str_lt_false a b : str_lt b a = false ↔ String.le a b.
Proof. unfold str_lt. by rewrite negb_false_iff, bool_decide_eq_true. Qed.

Lemma StronglySorted_weaken {A} (R R' : A → A → Prop) l :
  (∀ x y, R x y → R' x y) → StronglySorted R l → StronglySorted R' l.
Proof. intros HR. induction 1; constructor; [done|]. eapply Forall_impl; eauto. Qed.

Lemma sortPodList_sorted `{SliceSort} l :
  StronglySorted (λ p q, String.le (pod_Name p) (pod_Name q)) (sortPodList l).
Proof.
  eapply StronglySorted_weaken; [|apply sort_slice_sorted].
  - intros p q H1. by apply str_lt_false.
  - intros x y z. rewrite !str_lt_false. intros; by etrans.
  - intros x y. rewrite !str_lt_false. apply (total String.le).
Qed.

Lemma sortPodList_elem `{SliceSort} l p : p ∈ sortPodList l ↔ p ∈ l.
Proof. unfold sortPodList. by rewrite sort_slice_perm. Qed.

(** [first_healthy] returns the ordinal of the first Pod that is healthy and not
    the primary, and fails if there is none. *)
Lemma first_healthy_Ok current isHealthy pods i :
  first_healthy current isHealthy pods = Ok i →
  ∃ l1 p l2, pods = l1 ++ p :: l2 ∧ PodIndex (pod_Name p) = Ok i ∧ Some i ≠ current ∧
    isHealthy p = true ∧
    Forall (λ q, ∃ j, PodIndex (pod_Name q) = Ok j ∧ (Some j = current ∨ isHealthy q = false)) l1.
Proof.
  induction pods as [|p pods IH]; cbn; [done|].
  destruct (PodIndex (pod_Name p)) as [j|] eqn:Hj; [|done].
  case_bool_decide as Hc; [|destruct (isHealthy p) eqn:Hh].
  - intros (l1 & q & l2 & -> & ?)%IH. exists (p :: l1), q, l2. split; [done|].
    naive_solver.
  - intros [= <-]. exists [], p, pods. naive_solver.
  - intros (l1 & q & l2 & -> & ?)%IH. exists (p :: l1), q, l2. split; [done|].
    naive_solver.
Qed.

Lemma first_healthy_none current isHealthy pods :
  first_healthy current isHealthy pods = Err (ErrSentinel ErrNoHealthyInstancesAvailable) →
  Forall (λ q, ∃ j, PodIndex (pod_Name q) = Ok j ∧ (Some j = current ∨ isHealthy q = false)) pods.
Proof.
  induction pods as [|p pods IH]; cbn; [done|].
  destruct (PodIndex (pod_Name p)) as [j|] eqn:Hj; [|done].
  case_bool_decide as Hc; [|destruct (isHealthy p) eqn:Hh]; [|done|];
    intros H%IH; constructor; naive_solver.
Qed.

Lemma endpoints_healthy_All desired port items :
  endpoints_healthy desired port EndpointPolicyAll items = Ok true →
  ∃ l1 slice l2, items = l1 ++ slice :: l2 ∧ Forall (λ sl, matchesPort port sl = false) l1 ∧
    matchesPort port slice = true ∧ readyEndpoints slice = desired.
Proof.
  induction items as [|sl items IH]; cbn; [done|]. destruct (matchesPort port sl) eqn:Hm; cbn.
  - intros [= ?%bool_decide_eq_true]. exists [], sl, items. auto.
  - intros (l1 & x & l2 & -> & ?)%IH. exists (sl :: l1), x, l2. split; [done|]. naive_solver.
Qed.

Lemma endpoints_healthy_no_error desired port items e :
  endpoints_healthy desired port EndpointPolicyAll items ≠ Err e.
Proof. induction items as [|sl items IH]; cbn; [done|]. by destruct (matchesPort port sl). Qed.

Lemma IsStatefulSetHealthy_ready {S} key desired port policy (s : S) :
  wpM (IsStatefulSetHealthy key [WithDesiredReplicas desired; WithPort port; WithEndpointPolicy policy]) s
    (λ t s' r, s' = s ∧ (r = Ok true →
       ∃ sts, Ev (KGetStatefulSet key) (Ok sts) ∈ t ∧ sts_ReadyReplicas sts = desired)).
Proof.
  unfold IsStatefulSetHealthy. wp_auto; (split; [done|]); try done. unfold constant in *. simplify_eq.
  intros _. eexists. split; [by left|]. by apply negb_false_iff, bool_decide_eq_true in Heqb.
Qed.

(** ** Properties *)

(** The Pod proposed as a new primary is never the current one: it is a
    listed Pod of the cluster, ready and (for replication) a configured replica,
    and every listed Pod whose name comes before it is the current primary or
    not eligible. *)
Theorem failover_candidate_sound `{SliceSort} `{MapRange} {S} (mdb : MariaDB) (s : S) :
  wpM (ReplicaPodHealthyIndex mdb) s (λ t s' r, ∀ i, r = Ok i →
    ∃ pods p cur, t = [Ev (KListPods (WithMariaDBSelectorLabels mdb ∅) (Namespace (m_meta mdb))) (Ok pods)] ∧
      st_CurrentPrimaryPodIndex (m_Status mdb) = Some cur ∧ i ≠ cur ∧
      p ∈ pods ∧ PodIndex (pod_Name p) = Ok i ∧ PodReady p = true ∧
      IsConfiguredReplica mdb (pod_Name p) = true ∧
      ∀ q, q ∈ pods → ¬ String.le (pod_Name p) (pod_Name q) →
        PodIndex (pod_Name q) = Ok cur ∨ PodReady q = false ∨
        IsConfiguredReplica mdb (pod_Name q) = false).
Proof.
  unfold ReplicaPodHealthyIndex, secondaryPodHealthyIndex.
  destruct (st_CurrentPrimaryPodIndex (m_Status mdb)) as [cur|]; wp_auto; try done.
  intros i (l1 & p & l2 & Hl & Hp & Hne & Hh & Hbefore)%first_healthy_Ok.
  apply andb_true_iff in Hh as [Hready Hconf].
  exists a, p, cur. split_and!; try done; [congruence|apply sortPodList_elem; rewrite Hl; set_solver|].
  intros q Hq Hlt. rewrite <- sortPodList_elem, Hl in Hq.
  pose proof (sortPodList_sorted a) as Hs. rewrite Hl in Hs.
  apply elem_of_app in Hq as [Hq|[->|Hq]%elem_of_cons]; [|done|].
  - rewrite Forall_forall in Hbefore. destruct (Hbefore q Hq) as (j & Hj & [[= ->]|Hf]); [by left|].
    right. by apply andb_false_iff.
  - apply StronglySorted_app in Hs as (_ & _ & Hs). exfalso. apply Hlt.
    inversion Hs as [|?? _ Hall]; subst. rewrite Forall_forall in Hall. by apply Hall.
Qed.

(** A StatefulSet reported healthy has exactly the desired number of ready
    replicas and, for a port and the policy All, the first endpoint slice with
    that port has that many ready endpoints; a missing object makes the set
    unhealthy and is never reported as an error. *)
Theorem statefulset_health_sound {S} key desired port (s : S) :
  wpM (IsStatefulSetHealthy key
         [WithDesiredReplicas desired; WithPort port; WithEndpointPolicy EndpointPolicyAll]) s
    (λ t s' r,
      (r = Ok true → ∃ sts slices l1 slice l2,
         t = [Ev (KGetStatefulSet key) (Ok sts); Ev (KListEndpointSlices key) (Ok slices)] ∧
         sts_ReadyReplicas sts = desired ∧ slices = l1 ++ slice :: l2 ∧
         Forall (λ sl, matchesPort port sl = false) l1 ∧ matchesPort port slice = true ∧
         readyEndpoints slice = desired) ∧
      (∀ e, r = Err e → IsNotFound e = false)).
Proof.
  unfold IsStatefulSetHealthy, IgnoreNotFound. wp_auto; cbn in *; split; try done;
    repeat case_match; try naive_solver.
  - unfold constant in *. simplify_eq.
    intros (l1 & sl & l2 & -> & ? & ? & ?)%endpoints_healthy_All.
    eexists _, _, l1, sl, l2. split_and!; try done.
    by apply negb_false_iff, bool_decide_eq_true in Heqb.
  - unfold constant in *. simplify_eq. intros ? H. by apply endpoints_healthy_no_error in H.
Qed.
