(* ===== verification/Backup.v ===== *)
(** * pkg/backup, pkg/time and cmd/backup: backup files

    The names of backup files carry the instant of the backup and the compression.
    A [BackupProcessor] interprets the names: it chooses the file to restore from and
    the files the retention policy drops.  A [BackupStorage] lists, pushes, pulls and
    deletes files, in a directory or in an S3 bucket; a [BackupCompressor] replaces a
    file by its compressed version.  [backup_run] and [restore_run] are the two commands
    of cmd/backup, over the operations of the file system and of the object store. *)

From Stdlib Require Import Ascii.
From S2P Require Import Prelude GoStrings GoTime GoPath StatefulSet Conditions MariaDBTypes.
From S2P Require Import Concurrency Kube Health.

Local Open Scope Z_scope.
Local Open Scope go_scope.

(** ** api/v1alpha1/base_types.go *)
Definition CompressNone : string := "none".
Definition CompressBzip2 : string := "bzip2".
Definition CompressGzip : string := "gzip".

Definition CompressAlgorithm_Validate (c : string) : result unit :=
  if bool_decide (c ∈ [""; CompressNone; CompressBzip2; CompressGzip]) then Ok tt
  else Err (ErrNew "invalid compression").
Definition CompressAlgorithm_Extension (c : string) : result string :=
  if bool_decide (c ∈ [""; CompressNone]) then Ok ""
  else if bool_decide (c = CompressBzip2) then Ok "bz2"
  else if bool_decide (c = CompressGzip) then Ok "gz"
  else Err (ErrNew "invalid compression").
Definition CompressionFromExtension (ext : string) : result string :=
  if bool_decide (ext = "") then Ok CompressNone
  else if bool_decide (ext = "bz2") then Ok CompressBzip2
  else if bool_decide (ext = "gz") then Ok CompressGzip
  else Err (ErrNew "unknown compression extension").

(** ** pkg/time and pkg/backup/backup.go *)
Definition mdbtime_Format (t : Z) : string := format_compact t.
Definition mdbtime_Parse (raw : string) : result Z :=
  wrap_err "error parsing time" (of_parse (parse_compact raw)).

Definition FormatBackupDate (t : Z) : string := format_rfc3339 t.
Definition ParseBackupDate (raw : string) : result Z :=
  wrap_err "error parsing backup date" (of_parse (parse_rfc3339 raw)).

Definition GetFilePath (path fileName : string) : string :=
  if IsAbs fileName then fileName else path_Join path fileName.

(** ** processor.go *)
Record BackupProcessor := mkBackupProcessor {
  GetBackupTargetFile : list string → Z → result string;
  (** the instant [now()] is an argument *)
  GetOldBackupFiles : Z → list string → Z → list string;
  IsValidBackupFile : string → bool;
  ParseCompressionAlgorithm : string → result string;
  GetUncompressedBackupFile : string → result string;
  parseDateInBackupFile : string → result Z
}.

Record backupDiff := mkBackupDiff { bd_fileName : string; bd_diff : Z }.

Section processors.
Context `{SORT : SliceSort}.

(** The loop over the files: an exact match ends it. *)
Fixpoint target_loop (parseDate : string → result Z) (target : Z) (files : list string)
    (acc : list backupDiff) : string + list backupDiff :=
  match files with
  | [] => inr acc
  | file :: files' =>
      match parseDate file with
      | Err _ => target_loop parseDate target files' acc
      | Ok backupDate =>
          let diff := Duration_Abs (Time_Sub backupDate target) in
          if bool_decide (diff = 0) then inl file
          else target_loop parseDate target files' (acc ++ [mkBackupDiff file diff])
      end
  end.

(** The two processors choose the target file and the old files by the same code over
    their own parser of names. *)
Definition get_target_file (parseDate : string → result Z) (backupFileNames : list string)
    (targetRecoveryTime : Z) : result string :=
  match target_loop parseDate targetRecoveryTime backupFileNames [] with
  | inl file => Ok file
  | inr backupDiffs =>
      match sort_slice (λ i j, bool_decide (bd_diff i < bd_diff j)) backupDiffs with
      | [] => Err (ErrNew "no valid backup files were found")
      | d :: _ => Ok (bd_fileName d)
      end
  end.

Definition is_old (parseDate : string → result Z) (now maxRetention : Z) (file : string) : bool :=
  match parseDate file with
  | Ok backupDate => bool_decide (maxRetention < Time_Sub now backupDate)
  | Err _ => false
  end.
Definition get_old_files (parseDate : string → result Z) (now : Z) (backupFileNames : list string)
    (maxRetention : Z) : list string :=
  filter (λ file, is_old parseDate now maxRetention file = true) backupFileNames.

(** *** LogicalBackupProcessor: backup.DATE[.ALGORITHM].sql *)
Definition logical_parseDate (fileName : string) : result Z :=
  let parts := Split fileName "." in
  if negb (bool_decide (length parts = 3%nat)) && negb (bool_decide (length parts = 4%nat))
  then Err (ErrNew "invalid backup file name")
  else ParseBackupDate (nth 1 parts "").

Definition logical_ParseCompressionAlgorithm (fileName : string) : result string :=
  let parts := Split fileName "." in
  if bool_decide (length parts = 3%nat) then Ok CompressNone
  else if negb (bool_decide (length parts = 4%nat)) then Err (ErrNew "invalid backup file name")
  else CompressAlgorithm_Validate (nth 2 parts "") ≫= λ _, Ok (nth 2 parts "").

Definition logical_IsValidBackupFile (fileName : string) : bool :=
  if negb (HasPrefix fileName "backup.") || negb (HasSuffix fileName ".sql") then false
  else if negb (is_ok (logical_ParseCompressionAlgorithm fileName)) then false
  else is_ok (logical_parseDate fileName).

Definition logical_GetUncompressedBackupFile (compressedBackupFile : string) : result string :=
  let parts := Split compressedBackupFile "." in
  if negb (bool_decide (length parts = 4%nat)) then Err (ErrNew "invalid compressed backup file name")
  else CompressAlgorithm_Validate (nth 2 parts "") ≫= λ _,
       Ok (nth 0 parts "" +:+ "." +:+ nth 1 parts "" +:+ "." +:+ nth 3 parts "").

Definition LogicalBackupProcessor : BackupProcessor := {|
  GetBackupTargetFile := get_target_file logical_parseDate;
  GetOldBackupFiles := get_old_files logical_parseDate;
  IsValidBackupFile := logical_IsValidBackupFile;
  ParseCompressionAlgorithm := logical_ParseCompressionAlgorithm;
  GetUncompressedBackupFile := logical_GetUncompressedBackupFile;
  parseDateInBackupFile := logical_parseDate
|}.

(** *** PhysicalBackupProcessor: physicalbackup-DATE.xb[.EXTENSION] *)
Definition physical_parseDate (parseDateFn : option (string → result Z)) (fileName : string) : result Z :=
  match parseDateFn with
  | Some f => f fileName
  | None =>
      let base := nth 0 (Split (Base fileName) ".") "" in
      if negb (HasPrefix base "physicalbackup-") then Err (ErrNew "invalid physical backup prefix")
      else mdbtime_Parse (TrimPrefix base "physicalbackup-")
  end.

Definition physical_ParseCompressionAlgorithm (fileName : string) : result string :=
  let parts := Split fileName "." in
  if bool_decide (length parts = 2%nat) then Ok CompressNone
  else if negb (bool_decide (length parts = 3%nat)) then Err (ErrNew "invalid backup file name")
  else calg ← CompressionFromExtension (nth 2 parts "");
       CompressAlgorithm_Validate calg ≫= λ _, Ok calg.

Definition physical_IsValidBackupFile (isValidFn : option (string → bool))
    (parseDateFn : option (string → result Z)) (fileName : string) : bool :=
  match isValidFn with
  | Some f => f fileName
  | None =>
      let baseName := Base fileName in
      if negb (HasPrefix baseName "physicalbackup-") then false
      else if negb (is_ok (physical_ParseCompressionAlgorithm baseName)) then false
      else is_ok (physical_parseDate parseDateFn baseName)
  end.

Definition physical_GetUncompressedBackupFile (compressedBackupFile : string) : result string :=
  let parts := Split compressedBackupFile "." in
  if negb (bool_decide (length parts = 3%nat)) then Err (ErrNew "invalid compressed physical backup file")
  else alg ← CompressionFromExtension (nth 2 parts "");
       CompressAlgorithm_Validate alg ≫= λ _, Ok (nth 0 parts "" +:+ "." +:+ nth 1 parts "").

Definition PhysicalBackupProcessor (isValidFn : option (string → bool))
    (parseDateFn : option (string → result Z)) : BackupProcessor := {|
  GetBackupTargetFile := get_target_file (physical_parseDate parseDateFn);
  GetOldBackupFiles := get_old_files (physical_parseDate parseDateFn);
  IsValidBackupFile := physical_IsValidBackupFile isValidFn parseDateFn;
  ParseCompressionAlgorithm := physical_ParseCompressionAlgorithm;
  GetUncompressedBackupFile := physical_GetUncompressedBackupFile;
  parseDateInBackupFile := physical_parseDate parseDateFn
|}.
End processors.

(** ** The file system and the object store *)
Inductive fop : Type → Type :=
  | FNow : fop Z
  | FReadDir (path : string) : fop (result (list string))
  | FReadFile (path : string) : fop (result string)
  | FWriteFile (path content : string) : fop (result unit)
  | FOpen (path : string) : fop (result unit)
  | FCreate (path : string) : fop (result unit)
  (** the content of [src], compressed or decompressed, is written to [dst] *)
  | FCompress (algorithm dst src : string) : fop (result unit)
  | FDecompress (algorithm dst src : string) : fop (result unit)
  | FRemove (path : string) : fop (result unit)
  | FRename (from to : string) : fop (result unit)
  | S3NewClient : fop (result unit)
  | S3ListObjects (bucket prefix : string) : fop (result (list string))
  | S3FPutObject (bucket object path : string) : fop (result unit)
  | S3FGetObject (bucket object path : string) : fop (result unit)
  | S3RemoveObject (bucket object : string) : fop (result unit).

Abbreviation F := (M unit fop).

(** ** storage.go *)
Record BackupStorage := mkBackupStorage {
  Storage_List : F (list string);
  Storage_Push : string → F unit;
  Storage_Pull : string → F unit;
  Storage_Delete : string → F unit;
  shouldProcessBackupFile : string → bool
}.

Definition FileSystemBackupStorage (basePath : string) (processor : BackupProcessor) : BackupStorage := {|
  Storage_List := entries <- call (FReadDir basePath) ;;
                  ret (filter (λ f, IsValidBackupFile processor f = true) entries);
  Storage_Push := λ _, ret tt;
  Storage_Pull := λ _, ret tt;
  Storage_Delete := λ fileName, call (FRemove (GetFilePath basePath fileName));
  shouldProcessBackupFile := IsValidBackupFile processor
|}.

(** An object store does not use a slash for its root; elsewhere the prefix ends with one. *)
Definition getPrefix (prefix : string) : string :=
  if bool_decide (prefix = "") || bool_decide (prefix = "/") then ""
  else if negb (HasSuffix prefix "/") then prefix +:+ "/" else prefix.
Definition prefixedFileName (prefix fileName : string) : string := getPrefix prefix +:+ Base fileName.
Definition unprefixedFilename (prefix fileName : string) : string :=
  TrimPrefix (Base fileName) (getPrefix prefix).

Definition S3_shouldProcess (prefix : string) (processor : BackupProcessor) (fileName : string) : bool :=
  IsValidBackupFile processor (unprefixedFilename prefix fileName).

Definition S3BackupStorage (basePath bucket prefix : string) (processor : BackupProcessor) : BackupStorage := {|
  Storage_List := objects <- call (S3ListObjects bucket (getPrefix prefix)) ;;
                  ret (filter (λ f, S3_shouldProcess prefix processor f = true) objects);
  Storage_Push := λ fileName,
    call (S3FPutObject bucket (prefixedFileName prefix fileName) (GetFilePath basePath fileName));
  Storage_Pull := λ fileName,
    call (S3FGetObject bucket (prefixedFileName prefix fileName) (GetFilePath basePath fileName));
  Storage_Delete := λ fileName, call (S3RemoveObject bucket (prefixedFileName prefix fileName));
  shouldProcessBackupFile := S3_shouldProcess prefix processor
|}.

(** ** compressor.go *)
Record BackupCompressor := mkBackupCompressor {
  Compress : string → F unit;
  Decompress : string → F string
}.

(** The file is replaced by its compressed version through a temporary file. *)
Definition compressFile (algorithm path fileName : string) : F unit :=
  let filePath := GetFilePath path fileName in
  let compressedFilePath := filePath +:+ ".tmp" in
  r <- try (call (FOpen filePath) ;;; call (FCreate compressedFilePath) ;;;
            call (FCompress algorithm compressedFilePath filePath)) ;;
  match r with
  | Err err =>
      r2 <- try (call (FRemove compressedFilePath)) ;;
      lift (multierror (Err err)
        (match r2 with Err e => if os_IsNotExist e then Ok tt else r2 | Ok _ => r2 end))
  | Ok _ =>
      call (FRemove filePath) ;;;
      call (FRename compressedFilePath filePath)
  end.

Definition decompressFile (algorithm path fileName : string) (processor : BackupProcessor) : F string :=
  let filePath := GetFilePath path fileName in
  call (FOpen filePath) ;;;
  plainFileName <- lift (GetUncompressedBackupFile processor fileName) ;;
  let plainFilePath := GetFilePath path plainFileName in
  call (FCreate plainFilePath) ;;;
  call (FDecompress algorithm plainFilePath filePath) ;;;
  ret plainFilePath.

Definition NopCompressor (basePath : string) : BackupCompressor := {|
  Compress := λ _, ret tt;
  Decompress := λ fileName, ret (GetFilePath basePath fileName)
|}.
Definition FileCompressor (algorithm basePath : string) (processor : BackupProcessor) : BackupCompressor := {|
  Compress := compressFile algorithm basePath;
  Decompress := λ fileName, decompressFile algorithm basePath fileName processor
|}.

(** ** cmd/backup: the flags *)
Record BackupFlags := mkBackupFlags {
  bf_path : string;
  bf_targetFilePath : string;
  bf_backupContentType : string;
  bf_cleanupTargetFile : bool;
  bf_s3 : bool;
  bf_s3Bucket : string;
  bf_s3Prefix : string;
  bf_maxRetention : Z;
  bf_compression : string;
  bf_physicalBackupDirPath : string;
  bf_targetTimeRaw : string
}.

Section commands.
Context `{SORT : SliceSort} (f : BackupFlags).

Definition getBackupProcessor : result BackupProcessor :=
  wrap_err "backup type not supported" (BackupContentType_Validate (bf_backupContentType f)) ≫= λ _,
  if bool_decide (bf_backupContentType f = BackupContentTypeLogical) then Ok LogicalBackupProcessor
  else if bool_decide (bf_backupContentType f = BackupContentTypePhysical)
  then Ok (PhysicalBackupProcessor None None)
  else Err (ErrNew "unsupported backup type").

Definition getBackupStorage (processor : BackupProcessor) : F BackupStorage :=
  if bf_s3 f then
    wrap "error creating S3 client" (call S3NewClient) ;;;
    ret (S3BackupStorage (bf_path f) (bf_s3Bucket f) (bf_s3Prefix f) processor)
  else ret (FileSystemBackupStorage (bf_path f) processor).

Definition getBackupCompressorWithAlgorithm (calg : string) (processor : BackupProcessor) :
    result BackupCompressor :=
  if bool_decide (calg = CompressNone) then Ok (NopCompressor (bf_path f))
  else if bool_decide (calg = CompressGzip) then Ok (FileCompressor CompressGzip (bf_path f) processor)
  else if bool_decide (calg = CompressBzip2) then Ok (FileCompressor CompressBzip2 (bf_path f) processor)
  else Err (ErrNew "unsupported compression algorithm").

Definition getBackupCompressor (processor : BackupProcessor) : result BackupCompressor :=
  wrap_err "compression algorithm not supported" (CompressAlgorithm_Validate (bf_compression f)) ≫= λ _,
  getBackupCompressorWithAlgorithm (bf_compression f) processor.

Definition getBackupCompressorWithFile (fileName : string) (processor : BackupProcessor) :
    result BackupCompressor :=
  calg ← wrap_err "error parsing compression algorithm" (ParseCompressionAlgorithm processor fileName);
  getBackupCompressorWithAlgorithm calg processor.

Definition cleanupFile (fileName : string) : F unit :=
  if negb (bf_s3 f) || negb (bf_cleanupTargetFile f) then ret tt
  else call (FRemove (GetFilePath (bf_path f) fileName)).

(** The command [backup]; an error is [os.Exit(1)]. *)
Definition backup_run : F unit :=
  backupProcessor <- lift getBackupProcessor ;;
  backupStorage <- getBackupStorage backupProcessor ;;
  backupCompressor <- lift (getBackupCompressor backupProcessor) ;;
  backupTargetFile <- call (FReadFile (bf_targetFilePath f)) ;;
  Compress backupCompressor backupTargetFile ;;;
  Storage_Push backupStorage backupTargetFile ;;;
  backupNames <- Storage_List backupStorage ;;
  now <- ask FNow ;;
  let oldBackups := GetOldBackupFiles backupProcessor now backupNames (bf_maxRetention f) in
  for_each oldBackups (λ backup, _r <- try (Storage_Delete backupStorage backup) ;; ret tt) ;;;
  r <- try (cleanupFile backupTargetFile) ;;
  match r with
  | Err err => if os_IsNotExist err then throw err else ret tt
  | Ok _ => ret tt
  end.

Definition checkPhysicalBackupDir : F bool :=
  if negb (bool_decide (bf_backupContentType f = BackupContentTypePhysical)) ||
     bool_decide (bf_physicalBackupDirPath f = "") then ret false else
  r <- try (call (FReadDir (bf_physicalBackupDirPath f))) ;;
  match r with
  | Err err => if os_IsNotExist err then ret false
               else throw (ErrWrap "error reading physical backup directory path" err)
  | Ok entries => ret (negb (bool_decide (entries = [])))
  end.

Definition getTargetTime : F Z :=
  if bool_decide (bf_targetTimeRaw f = "") then ask FNow
  else lift (ParseBackupDate (bf_targetTimeRaw f)).

(** The command [backup restore]. *)
Definition restore_run : F unit :=
  physicalBackupExists <- checkPhysicalBackupDir ;;
  if (physicalBackupExists : bool) then ret tt else
  backupProcessor <- lift getBackupProcessor ;;
  backupStorage <- getBackupStorage backupProcessor ;;
  targetTime <- getTargetTime ;;
  backupFileNames <- Storage_List backupStorage ;;
  backupTargetFile <- lift (GetBackupTargetFile backupProcessor backupFileNames targetTime) ;;
  Storage_Pull backupStorage backupTargetFile ;;;
  backupCompressor <- lift (getBackupCompressorWithFile backupTargetFile backupProcessor) ;;
  backupTargetFile <- Decompress backupCompressor backupTargetFile ;;
  call (FWriteFile (bf_targetFilePath f) backupTargetFile).
End commands.

(** ** Which file is restored, which files are dropped *)
Section lemmas.
Context `{SORT : SliceSort}.

(** The distance between two instants, as the code measures it. *)
Definition distance (t u : Z) : Z := Duration_Abs (Time_Sub t u).

Lemma distance_spec t u : distance t u = Z.min int_max (Z.abs (t - u)).
Proof.
  unfold distance, Duration_Abs, Time_Sub, saturate. unfold int_min, int_max.
  repeat case_bool_decide; lia.
Qed.

Lemma target_loop_spec parseDate target files acc :
  match target_loop parseDate target files acc with
  | inl f => f ∈ files ∧ ∃ d, parseDate f = Ok d ∧ distance d target = 0
  | inr l => ∃ l', l = acc ++ l' ∧
      (∀ x, x ∈ l' → bd_fileName x ∈ files ∧
         ∃ d, parseDate (bd_fileName x) = Ok d ∧ bd_diff x = distance d target) ∧
      (∀ f d, f ∈ files → parseDate f = Ok d → mkBackupDiff f (distance d target) ∈ l')
  end.
Proof.
  revert acc. induction files as [|f files IH]; intros acc; cbn.
  { exists []. rewrite app_nil_r. set_solver. }
  destruct (parseDate f) as [d|e] eqn:Hd.
  - fold (distance d target). case_bool_decide as Hz; [split; [set_solver|]; by exists d|].
    specialize (IH (acc ++ [mkBackupDiff f (distance d target)])).
    destruct (target_loop _ _ _ _) as [g|l]; [destruct IH as [? ?]; split; [set_solver|done]|].
    destruct IH as (l' & -> & H1 & H2). exists (mkBackupDiff f (distance d target) :: l').
    split; [by rewrite <- (assoc_L (++))|]. split.
    + intros x [->|Hx]%elem_of_cons; [cbn; split; [set_solver|]; by exists d|].
      destruct (H1 x Hx) as [? ?]. split; [set_solver|done].
    + intros g d' [->|Hg]%elem_of_cons Hgd; [|set_solver]. rewrite Hd in Hgd. injection Hgd as <-. set_solver.
  - specialize (IH acc). destruct (target_loop _ _ _ _) as [g|l]; [destruct IH; split; [set_solver|done]|].
    destruct IH as (l' & -> & H1 & H2). exists l'. split; [done|]. split.
    + intros x Hx. destruct (H1 x Hx). split; [set_solver|done].
    + intros g d' [->|Hg]%elem_of_cons Hgd; [congruence|eauto].
Qed.

(** What a choice of file promises. *)
Definition closest_file (parseDate : string → result Z) (files : list string) (target : Z)
    (r : result string) : Prop :=
  match r with
  | Ok f => f ∈ files ∧ ∃ d, parseDate f = Ok d ∧ ∀ g d', g ∈ files → parseDate g = Ok d' →
              Z.abs (d - target) ≤ Z.abs (d' - target) ∨
              (int_max ≤ Z.abs (d - target) ∧ int_max ≤ Z.abs (d' - target))
  | Err _ => ∀ g, g ∈ files → is_ok (parseDate g) = false
  end.

Lemma get_target_file_closest parseDate files target :
  closest_file parseDate files target (get_target_file parseDate files target).
Proof.
  unfold get_target_file. pose proof (target_loop_spec parseDate target files []) as Hl.
  destruct (target_loop _ _ _ _) as [f|l].
  { destruct Hl as (Hf & d & Hd & Hz). split; [done|]. exists d. split; [done|]. intros g d' _ _.
    rewrite distance_spec in Hz. unfold int_max in *. lia. }
  destruct Hl as (l' & -> & H1 & H2). cbn [app].
  set (less := λ i j, bool_decide (bd_diff i < bd_diff j)).
  pose proof (sort_slice_perm less l') as Hperm.
  assert (StronglySorted (λ x y, less y x = false) (sort_slice less l')) as Hsort.
  { apply sort_slice_sorted; unfold less; intros *; rewrite !bool_decide_eq_false; lia. }
  destruct (sort_slice less l') as [|x xs].
  - apply Permutation_nil in Hperm as ->. intros g Hg. destruct (parseDate g) eqn:E; [|done].
    by apply (H2 g a) in Hg; [set_solver|].
  - assert (x ∈ l') as Hx by (rewrite <- Hperm; set_solver). destruct (H1 x Hx) as (Hf & d & Hd & Hdx).
    split; [done|]. exists d. split; [done|]. intros g d' Hg Hgd. pose proof (H2 g d' Hg Hgd) as Hin.
    rewrite <- Hperm in Hin. assert (bd_diff x ≤ distance d' target) as Hle.
    { apply elem_of_cons in Hin as [<-|Hin]; [done|]. apply StronglySorted_inv in Hsort as [_ Hall].
      rewrite Forall_forall in Hall. specialize (Hall _ Hin). unfold less in Hall.
      apply bool_decide_eq_false in Hall. cbn in Hall. lia. }
    rewrite Hdx, !distance_spec in Hle. lia.
Qed.

Lemma get_old_files_elem parseDate now files maxRetention f :
  f ∈ get_old_files parseDate now files maxRetention ↔
  f ∈ files ∧ ∃ d, parseDate f = Ok d ∧ maxRetention < Time_Sub now d.
Proof.
  unfold get_old_files, is_old. rewrite list_elem_of_filter.
  destruct (parseDate f); rewrite ?bool_decide_eq_true; naive_solver.
Qed.

(** The file chosen for a restore is one of those listed, and no other listed file
    whose name carries a date is closer to the target time (distances of more than 292
    years count as equal); the choice fails only if no name carries a date. *)
Theorem restored_file_is_closest files target :
  closest_file logical_parseDate files target (GetBackupTargetFile LogicalBackupProcessor files target) ∧
  ∀ valid parseDate, closest_file (physical_parseDate parseDate) files target
    (GetBackupTargetFile (PhysicalBackupProcessor valid parseDate) files target).
Proof. split; [|intros v p]; apply get_target_file_closest. Qed.
End lemmas.

(** ** The retention policy *)
Section retention.
Context `{SORT : SliceSort} (f : BackupFlags).

Definition removes (key : string) (e : event fop) : Prop :=
  match ev_op e with S3RemoveObject _ k => k = key | _ => False end.
Definition no_remove (e : event fop) : Prop :=
  match ev_op e with S3RemoveObject _ _ => False | _ => True end.

(** The new backup was read from the target file and stored in the bucket. *)
Definition uploaded (t : list (event fop)) : Prop := ∃ file,
  Ev (FReadFile (bf_targetFilePath f)) (Ok file) ∈ t ∧
  Ev (S3FPutObject (bf_s3Bucket f) (prefixedFileName (bf_s3Prefix f) file)
        (GetFilePath (bf_path f) file)) (Ok tt) ∈ t.

(** [key] is the object of a listed backup whose age exceeds the retention. *)
Definition expired (p : BackupProcessor) (key : string) (t : list (event fop)) : Prop :=
  ∃ objects now file d,
    Ev (S3ListObjects (bf_s3Bucket f) (getPrefix (bf_s3Prefix f))) (Ok objects) ∈ t ∧
    Ev FNow now ∈ t ∧ file ∈ objects ∧ S3_shouldProcess (bf_s3Prefix f) p file = true ∧
    parseDateInBackupFile p file = Ok d ∧ bf_maxRetention f < Time_Sub now d ∧
    key = prefixedFileName (bf_s3Prefix f) file.

Lemma no_remove_forall key t : Forall no_remove t → Forall (λ e, ¬ removes key e) t.
Proof.
  intros H. eapply Forall_impl; [exact H|].
  intros [X o a]; unfold no_remove, removes; cbn; destruct o; naive_solver.
Qed.

Lemma no_remove_none t key (G : list (event fop) → Prop) : Forall no_remove t → guarded (removes key) G t.
Proof. intros H. by apply guarded_none, no_remove_forall. Qed.

Lemma Compress_no_remove p c file : getBackupCompressor f p = Ok c → alwaysM no_remove (Compress c file).
Proof.
  unfold getBackupCompressor, getBackupCompressorWithAlgorithm.
  destruct (CompressAlgorithm_Validate _); [|done]. cbn. repeat case_bool_decide; intros [= <-].
  1: by apply alwaysM_ret.
  all: cbn [Compress FileCompressor]; unfold compressFile; always_auto; done.
Qed.

(** What a processor promises of the files it calls old. *)
Lemma GetOldBackupFiles_elem p now files r file : getBackupProcessor f = Ok p →
  file ∈ GetOldBackupFiles p now files r ↔
  file ∈ files ∧ ∃ d, parseDateInBackupFile p file = Ok d ∧ r < Time_Sub now d.
Proof.
  unfold getBackupProcessor. destruct (BackupContentType_Validate _); [|done]. cbn.
  repeat case_bool_decide; intros [= <-]; apply get_old_files_elem.
Qed.

Lemma delete_loop_guarded p l (G : string → list (event fop) → Prop) :
  (∀ key t t', t ⊆ t' → G key t → G key t') →
  (∀ file, file ∈ l → G (prefixedFileName (bf_s3Prefix f) file) []) →
  ∀ s, wpM (for_each l (λ backup, _r <- try (Storage_Delete
      (S3BackupStorage (bf_path f) (bf_s3Bucket f) (bf_s3Prefix f) p) backup) ;; ret tt)) s
    (λ t _ r, (∀ key, guarded (removes key) (G key) t) ∧ r = Ok tt).
Proof.
  intros HG. induction l as [|x l IH]; intros Hl s; cbn [for_each].
  { wp_step. split; [|done]. intros key. apply guarded_nil. }
  wp_step. wp_step. wp_step. cbn [Storage_Delete S3BackupStorage]. apply wpM_call. intros r. wp_step.
  cbn [app]. eapply wpM_mono; [|apply IH; [intros file Hf; apply Hl; set_solver]].
  intros t _ r' [Hg ->]. split; [|done]. intros key. apply guarded_cons.
  - intros <-. apply (Hl x). set_solver.
  - eapply guarded_mono; [|exact (Hg key)]. intros u. apply HG. set_solver.
Qed.

Lemma uploaded_incl t t' : t ⊆ t' → uploaded t → uploaded t'.
Proof. intros Hs (file & ? & ?). exists file. auto. Qed.
Lemma expired_incl p key t t' : t ⊆ t' → expired p key t → expired p key t'.
Proof. intros Hs (o & n & file & d & ? & ? & ?). exists o, n, file, d. auto. Qed.

(** C37: with a bucket, the retention policy deletes an object only if it was listed with a
    name that carries a date and its age exceeds the retention, and only after the new
    backup was read and stored; an object that could not be deleted does not stop the
    others. *)
Theorem retention_after_upload :
  wpM (backup_run f) tt (λ t _ _, ∀ key, guarded (removes key)
    (λ t1, uploaded t1 ∧ ∃ p, getBackupProcessor f = Ok p ∧ expired p key t1) t).
Proof.
  unfold backup_run. do 2 wp_step. destruct (getBackupProcessor f) as [p|e] eqn:Hp; [|intros key; apply guarded_nil].
  unfold getBackupStorage. wp_step. destruct (bf_s3 f) eqn:Hs3.
  - do 3 wp_step; cbn [wrap_err]; [|intros key; by apply no_remove_none; repeat constructor].
    do 4 wp_step; [|intros key; by apply no_remove_none; repeat constructor]. rename a0 into c, Heqr into Hc.
    do 2 wp_step; [|intros key; by apply no_remove_none; repeat constructor]. rename a0 into file.
    wp_step. eapply wpM_mono; [|by eapply alwaysM_wpM, (Compress_no_remove p)].
    intros t1 s1 [[]|e] H1; [|intros key; apply no_remove_none; by repeat constructor].
    set (ev1 := Ev S3NewClient (Ok a)). set (ev2 := Ev (FReadFile (bf_targetFilePath f)) (Ok file)).
    assert (∀ t, Forall no_remove t → Forall no_remove (ev1 :: ev2 :: t1 ++ t)) as Hq.
    { intros t Ht. repeat constructor. by apply Forall_app_2. }
    cbn [Storage_Push Storage_List S3BackupStorage].
    do 2 wp_step; [|intros key; apply no_remove_none, Hq; by repeat constructor].
    do 3 wp_step; [|intros key; apply no_remove_none, Hq; by repeat constructor]. rename a1 into objects.
    do 3 wp_step. rename x into now. wp_step.
    set (ev3 := Ev (S3FPutObject _ _ _) (Ok a0)). set (ev4 := Ev (S3ListObjects _ _) (Ok objects)).
    set (ev5 := Ev FNow now). destruct a0. set (pre := ev1 :: ev2 :: t1 ++ [ev3; ev4; ev5]).
    set (G := λ key u, uploaded (pre ++ u) ∧ ∃ p0, Ok p = Ok p0 ∧ expired p0 key (pre ++ u)).
    assert (∀ u, ev1 :: ev2 :: t1 ++ ev3 :: ev4 :: ev5 :: u = pre ++ u) as Hpre.
    { intros u. unfold pre. cbn. by rewrite <- (assoc_L (++)). }
    eapply wpM_mono; [|apply (delete_loop_guarded p _ G)].
    + intros t2 s2 r2 [Hg ->]. eapply wpM_mono with (Q := λ t _ _, Forall no_remove t).
      * intros t3 s3 r3 H3 key. rewrite Hpre. apply guarded_prepend.
        { unfold pre. apply (no_remove_forall key), Hq. by repeat constructor. }
        apply guarded_append; [exact (Hg key)|]. by apply no_remove_none.
      * apply alwaysM_wpM. unfold cleanupFile. always_auto; done.
    + intros key u u' Hu [Hup (p0 & Hp0 & Hex)]. split.
      * eapply uploaded_incl; [|exact Hup]. set_solver.
      * exists p0. split; [done|]. eapply expired_incl; [|exact Hex]. set_solver.
    + intros file' [[Hv Hin]%list_elem_of_filter (d & Hd & Hage)]%(GetOldBackupFiles_elem p); [|done].
      unfold G. rewrite app_nil_r. split.
      * exists file. unfold pre, ev2, ev3. set_solver.
      * exists p. split; [done|]. exists objects, now, file', d. unfold pre, ev4, ev5. set_solver.
  - do 3 wp_step. destruct (getBackupCompressor f p) as [c|e] eqn:Hc; [|intros key; apply guarded_nil].
    eapply wpM_mono with (Q := λ t _ _, Forall no_remove t); [by intros t s r Ht key; apply no_remove_none|].
    apply alwaysM_wpM. apply alwaysM_bind; [by apply alwaysM_call|]. intros file.
    apply alwaysM_bind; [by apply (Compress_no_remove p)|]. intros _.
    cbn [FileSystemBackupStorage Storage_Push Storage_List Storage_Delete]. unfold cleanupFile.
    always_auto; done.
Qed.
End retention.

(** ** Object names with a prefix *)
Ltac not_in_string := let H := fresh in intros H; cbn in H; repeat (destruct H as [H|H]; [discriminate H|]); exact H.

Section prefix.
Context `{SORT : SliceSort}.

Lemma getPrefix_slash prefix : getPrefix prefix = "" ∨ ∃ q, getPrefix prefix = q +:+ String slash "".
Proof.
  unfold getPrefix. destruct (_ || _); [by left|right]. destruct (HasSuffix prefix "/") eqn:Hs; cbn.
  - unfold HasSuffix in Hs. apply HasPrefix_spec in Hs as [r Hr]. exists (String.rev r).
    rewrite <- (rev_rev prefix), Hr, rev_app. done.
  - by exists prefix.
Qed.

Lemma getPrefix_In c prefix : c ≠ slash → str_In c prefix → str_In c (getPrefix prefix).
Proof.
  intros Hc Hin. unfold getPrefix. case_bool_decide as H1; [by subst|].
  case_bool_decide as H2; [subst; cbn in Hin; tauto|]. cbn. destruct (negb _); [|done].
  rewrite str_In_app. by left.
Qed.

Lemma str_In_split c s : str_In c s → ∃ a b, s = a +:+ String c b.
Proof.
  induction s as [|d s IH]; [done|]. intros [->|Hin]; [by exists "", s|].
  destruct (IH Hin) as (a & b & ->). by exists (String d a), b.
Qed.

(** A base name is listed under its prefix exactly when it is valid by itself. *)
Lemma S3_shouldProcess_prefixed prefix p n : n ≠ "" → ¬ str_In slash n →
  S3_shouldProcess prefix p (prefixedFileName prefix n) = IsValidBackupFile p n.
Proof.
  intros Hne Hn. unfold S3_shouldProcess, unprefixedFilename, prefixedFileName. rewrite (Base_name n) by done.
  destruct (getPrefix_slash prefix) as [->|[q ->]].
  - change ("" +:+ n) with n. rewrite Base_name by done. f_equal.
    exact (TrimPrefix_app "" n).
  - assert ((q +:+ String slash "") +:+ n = q +:+ String slash n) as -> by by rewrite <- str_app_assoc.
    rewrite Base_app by done. unfold TrimPrefix.
    destruct (HasPrefix n _) eqn:Hp; [|done]. apply HasPrefix_spec in Hp as [r ->]. exfalso. apply Hn.
    rewrite !str_In_app. left. right. by left.
Qed.

Lemma logical_dotted_prefix prefix n :
  str_In "." prefix → ¬ str_In slash n → logical_IsValidBackupFile n = true →
  is_ok (logical_parseDate (prefixedFileName prefix n)) = false.
Proof.
  intros Hdot Hn Hv. apply (getPrefix_In "." prefix) in Hdot; [|done].
  unfold logical_IsValidBackupFile in Hv. destruct (HasPrefix n "backup.") eqn:Hp; [|done]. cbn [negb orb] in Hv.
  apply HasPrefix_spec in Hp as [r Hr]. unfold prefixedFileName.
  rewrite Base_name; [|by rewrite Hr|done].
  assert (2 ≤ length (Split r "."))%nat as Hlen.
  { destruct (negb (HasSuffix _ _)); [done|]. destruct (negb _) in Hv; [done|]. unfold logical_parseDate in Hv.
    rewrite Hr in Hv. change ("backup." +:+ r) with ("backup" +:+ String "." r) in Hv.
    rewrite (Split_app_sep "backup" r ".") in Hv by not_in_string. cbn [length] in Hv.
    repeat case_bool_decide; try done; lia. }
  apply str_In_split in Hdot as (a & b & ->). rewrite Hr.
  assert ((a +:+ String "." b) +:+ "backup." +:+ r = a +:+ String "." ((b +:+ "backup") +:+ String "." r)) as ->.
  { rewrite <- !str_app_assoc. reflexivity. }
  unfold logical_parseDate. rewrite (Split_app a _ "."), (Split_app (b +:+ "backup") r "."), !length_app.
  pose proof (Split_nonempty a ".") as Ha. pose proof (Split_nonempty (b +:+ "backup") ".") as Hb.
  destruct (Split a ".") as [|x [|x' xs]]; [done| |].
  2: { destruct (Split (b +:+ "backup") "."); [done|]. cbn. repeat case_bool_decide; try done; lia. }
  pose proof (Join_Split (b +:+ "backup") ".") as HJ.
  destruct (Split (b +:+ "backup") ".") as [|y [|y' ys]]; [done| |].
  2: { cbn. repeat case_bool_decide; try done; lia. }
  cbn in HJ. subst y. destruct (negb _ && negb _); [done|]. cbn.
  unfold ParseBackupDate, of_parse. destruct (parse_rfc3339 _) eqn:E; [|done].
  apply parse_rfc3339_last in E as (c & Hc & HcZ). rewrite str_last_app in Hc by done. cbn in Hc.
  injection Hc as <-. by destruct HcZ.
Qed.

(** A logical backup in a bucket whose prefix contains a dot is listed, since its base
    name is valid, but its date is looked for in the whole key: the retention policy
    never drops it, whatever its age, and a restore finds no file. *)
Theorem dotted_prefix_hides_backups prefix names now retention target :
  str_In "." prefix → Forall (λ n, ¬ str_In slash n ∧ logical_IsValidBackupFile n = true) names →
  let keys := prefixedFileName prefix <$> names in
  Forall (λ k, S3_shouldProcess prefix LogicalBackupProcessor k = true) keys ∧
  GetOldBackupFiles LogicalBackupProcessor now keys retention = [] ∧
  is_ok (GetBackupTargetFile LogicalBackupProcessor keys target) = false.
Proof.
  intros Hdot Hnames keys. rewrite Forall_forall in Hnames.
  assert (∀ k, k ∈ keys → S3_shouldProcess prefix LogicalBackupProcessor k = true ∧
    is_ok (logical_parseDate k) = false) as Hk.
  { intros k (n & -> & Hn)%list_elem_of_fmap. destruct (Hnames n Hn) as [Hs Hv]. split.
    - rewrite S3_shouldProcess_prefixed; [done| |done]. by intros ->.
    - by apply logical_dotted_prefix. }
  split_and!.
  - apply Forall_forall. intros k Hin. by apply Hk.
  - apply elem_of_nil_inv. intros k [Hin (d & Hd & _)]%get_old_files_elem. apply Hk in Hin as [_ Hin].
    by rewrite Hd in Hin.
  - pose proof (get_target_file_closest logical_parseDate keys target) as Hc.
    destruct (GetBackupTargetFile _ _ _) as [k|] eqn:E; [|done]. cbn in E. rewrite E in Hc.
    destruct Hc as (Hin & d & Hd & _). apply Hk in Hin as [_ Hin]. by rewrite Hd in Hin.
Qed.

Lemma dotted_prefix_hides_backups_witness :
  let keys := prefixedFileName "prod.eu" <$> ["backup.2020-01-01T00:00:00Z.sql"; "backup.2021-01-01T00:00:00Z.gzip.sql"] in
  Forall (λ k, S3_shouldProcess "prod.eu" LogicalBackupProcessor k = true) keys ∧
  GetOldBackupFiles LogicalBackupProcessor (1735689600 * nsec) keys nsec = [] ∧
  is_ok (GetBackupTargetFile LogicalBackupProcessor keys 0) = false.
Proof.
  apply dotted_prefix_hides_backups.
  - cbn. tauto.
  - repeat (constructor; [split; [not_in_string|vm_compute; reflexivity]|]). constructor.
Defined.
End prefix.
