(* ===== verification/ConditionSetters.v ===== *)
(** * pkg/condition: the conditions the operator sets

    A [Conditioner] is a status whose list of conditions can be written; the
    interface comes with the law its implementations (the [SetCondition] methods
    of the resources) satisfy.  Each setter is the sequence of conditions it
    writes; [SetReadyWithMariaDB] is the operator's verdict on a MariaDB. *)

From S2P Require Import Prelude GoStrings StatefulSet Conditions MariaDBTypes MaxScaleTypes Kube Health.

Local Open Scope Z_scope.

Class Conditioner `{StatusConditions} (T : Type) := {
  conditions : T → list Condition;
  set_condition : Condition → T → T;
  conditions_set c t : conditions (set_condition c t) = SetStatusCondition (conditions t) c
}.

#[export] Program Instance MariaDBStatus_Conditioner `{StatusConditions} : Conditioner MariaDBStatus := {|
  conditions := st_Conditions;
  set_condition c s := SetCondition s c
|}.
Next Obligation. done. Qed.

Section setters.
Context `{StatusConditions} {T : Type} `{!Conditioner T}.

Definition set (type : string) (status : ConditionStatus) (reason message : string) (c : T) : T :=
  set_condition (mkCondition type status reason message) c.

(** ** backup_restored.go *)
Definition SetRestoringBackup (c : T) : T :=
  set ConditionTypeBackupRestored ConditionFalse ConditionReasonRestoreBackup "Restoring backup"
    (set ConditionTypeReady ConditionFalse ConditionReasonRestoreBackup "Restoring backup" c).
Definition SetRestoredBackup (c : T) : T :=
  set ConditionTypeBackupRestored ConditionTrue ConditionReasonRestoreBackup "Restored backup" c.
Definition SetRestoredPhysicalBackup (c : T) : T :=
  set ConditionTypeBackupRestored ConditionTrue ConditionReasonRestorePhysicalBackup
    "Restored physical backup" c.

(** ** complete.go *)
Record CronJobStatus := mkCronJobStatus {
  cj_LastScheduleTime : option Z;
  cj_LastSuccessfulTime : option Z;
  cj_Active : nat
}.

Definition SetCompleteWithCronJob (c : T) (cronJob : CronJobStatus) : T :=
  let setScheduled :=
    set ConditionTypeComplete ConditionFalse ConditionReasonCronJobScheduled "Scheduled" c in
  match cj_LastScheduleTime cronJob, cj_LastSuccessfulTime cronJob with
  | Some scheduled, Some successful =>
      if bool_decide (successful < scheduled) then
        if bool_decide (0 < cj_Active cronJob)%nat
        then set ConditionTypeComplete ConditionFalse ConditionReasonCronJobRunning "Running" c
        else set ConditionTypeComplete ConditionFalse ConditionReasonCronJobFailed "Failed" c
      else if bool_decide (scheduled = successful) || bool_decide (scheduled < successful)
      then set ConditionTypeComplete ConditionTrue ConditionReasonCronJobSuccess "Success" c
      else setScheduled
  | _, _ => setScheduled
  end.

Definition SetCompleteWithJob (c : T) (job : option Job) : T :=
  if IsJobFailed job then set ConditionTypeComplete ConditionTrue ConditionReasonJobFailed "Failed" c
  else if IsJobSuspended job
  then set ConditionTypeComplete ConditionFalse ConditionReasonJobSuspended "Suspended" c
  else if IsJobComplete job
  then set ConditionTypeComplete ConditionTrue ConditionReasonJobComplete "Success" c
  else set ConditionTypeComplete ConditionFalse ConditionReasonJobRunning "Running" c.

Definition SetCompleteFailedWithMessage (c : T) (message : string) : T :=
  set ConditionTypeComplete ConditionFalse ConditionReasonFailed message c.
Definition SetCompleteFailed (c : T) : T := SetCompleteFailedWithMessage c "Failed".

(** ** galera_configured.go, galera_initialized.go, galera_ready.go *)
Definition SetGaleraConfigured (c : T) : T :=
  set ConditionTypeGaleraConfigured ConditionTrue ConditionReasonGaleraConfigured "Galera configured" c.
Definition SetGaleraInitialized (c : T) : T :=
  set ConditionTypeGaleraInitialized ConditionTrue ConditionReasonGaleraInitialized
    "Galera initialized" c.
Definition SetGaleraInitializing (c : T) : T :=
  set ConditionTypeGaleraInitialized ConditionFalse ConditionReasonGaleraInitialized
    "Galera initializing" c.
Definition SetGaleraNotReady (c : T) : T :=
  set ConditionTypeGaleraReady ConditionFalse ConditionReasonGaleraNotReady "Galera not ready"
    (set ConditionTypeReady ConditionFalse ConditionReasonGaleraNotReady "Galera not ready" c).
Definition SetGaleraReady (c : T) : T :=
  set ConditionTypeGaleraReady ConditionTrue ConditionReasonGaleraReady "Galera ready" c.

(** ** initialized.go *)
Definition SetInitialized (c : T) : T :=
  set ConditionTypeInitialized ConditionTrue ConditionReasonInitialized "Initialized" c.
Definition SetInitializing (c : T) : T :=
  set ConditionTypeInitialized ConditionFalse ConditionReasonInitializing "Initializing" c.
Definition SetInitError (c : T) (msg : string) : T :=
  set ConditionTypeInitialized ConditionFalse ConditionReasonInitError ("Init error: " +:+ msg) c.

(** ** primary_switched.go *)
Definition switchingPrimaryMessage (mariadb : MariaDB) : string :=
  "Switching primary to '" +:+ PodName (m_meta mariadb) (primary_PodIndex mariadb) +:+ "'".
Definition SetPrimarySwitching (c : T) (mariadb : MariaDB) : T :=
  let msg := switchingPrimaryMessage mariadb in
  set ConditionTypePrimarySwitched ConditionFalse ConditionReasonSwitchPrimary msg
    (set ConditionTypeReady ConditionFalse ConditionReasonSwitchPrimary msg c).
Definition SetPrimarySwitched (c : T) : T :=
  set ConditionTypePrimarySwitched ConditionTrue ConditionReasonSwitchPrimary "Switchover complete" c.

(** ** ready.go *)
Definition SetReadyHealthy (c : T) : T :=
  set ConditionTypeReady ConditionTrue ConditionReasonHealthy "Healthy" c.
Definition SetReadyUnhealthyWithError (c : T) (err : error) : T :=
  set ConditionTypeReady ConditionFalse ConditionReasonHealthy (Error err) c.
Definition SetReadyCreatedWithMessage (c : T) (message : string) : T :=
  set ConditionTypeReady ConditionTrue ConditionReasonCreated message c.
Definition SetReadyCreated (c : T) : T := SetReadyCreatedWithMessage c "Created".
Definition SetReadyFailedWithMessage (c : T) (message : string) : T :=
  set ConditionTypeReady ConditionFalse ConditionReasonFailed message c.
Definition SetReadyFailed (c : T) : T := SetReadyFailedWithMessage c "Failed".

(** [sts.Status.Replicas == 0 || sts.Status.ReadyReplicas != sts.Status.Replicas] *)
Definition sts_not_ready (sts : StatefulSet) : bool :=
  bool_decide (sts_Replicas sts = 0) || negb (bool_decide (sts_ReadyReplicas sts = sts_Replicas sts)).

Definition SetReadyWithStatefulSet (c : T) (sts : StatefulSet) : T :=
  if sts_not_ready sts
  then set ConditionTypeReady ConditionFalse ConditionReasonStatefulSetNotReady "Not ready" c
  else set ConditionTypeReady ConditionTrue ConditionReasonStatefulSetReady "Running" c.

Definition SetReadyWithMariaDB (c : T) (sts : StatefulSet) (mdb : MariaDB) : T :=
  if IsInitializing mdb || (IsGaleraEnabled mdb && IsGaleraInitializing mdb) then
    match InitError mdb with
    | Some err => set ConditionTypeReady ConditionFalse ConditionReasonInitError (Error err) c
    | None => set ConditionTypeReady ConditionFalse ConditionReasonInitializing "Initializing" c
    end
  else if IsUpdating mdb then
    set ConditionTypeReady ConditionFalse ConditionReasonUpdating "Updating" c
  else if sts_not_ready sts then
    set ConditionTypeReady ConditionFalse ConditionReasonStatefulSetNotReady "Not ready" c
  else if HasPendingUpdate mdb then
    set ConditionTypeReady ConditionTrue ConditionReasonPendingUpdate "Pending update" c
  else set ConditionTypeReady ConditionTrue ConditionReasonStatefulSetReady "Running" c.

Definition SetReadyWithInitJob (c : T) (job : option Job) : T :=
  if IsJobComplete job
  then set ConditionTypeReady ConditionTrue ConditionReasonInitializing "Initialized" c
  else set ConditionTypeReady ConditionFalse ConditionReasonInitializing "Initializing" c.

Definition SetReadyStorageResizing (c : T) : T :=
  set ConditionTypeStorageResized ConditionFalse ConditionReasonResizingStorage "Resizing storage"
    (set ConditionTypeReady ConditionFalse ConditionReasonResizingStorage "Resizing storage" c).
Definition SetReadyWaitingStorageResize (c : T) : T :=
  set ConditionTypeStorageResized ConditionFalse ConditionReasonWaitStorageResize
    "Waiting for storage resize"
    (set ConditionTypeReady ConditionFalse ConditionReasonWaitStorageResize
       "Waiting for storage resize" c).
Definition SetReadyStorageResized (c : T) : T :=
  set ConditionTypeStorageResized ConditionTrue ConditionReasonStorageResized "Storage resized" c.
Definition SetReadySuspended (c : T) : T :=
  set ConditionTypeReady ConditionFalse ConditionReasonSuspended "Suspended" c.

(** ** updated.go *)
Definition SetPendingUpdate (c : T) : T :=
  set ConditionTypeUpdated ConditionFalse ConditionReasonPendingUpdate "Pending update" c.
Definition SetUpdating (c : T) : T :=
  set ConditionTypeUpdated ConditionFalse ConditionReasonUpdating "Updating" c.
Definition SetUpdated (c : T) : T :=
  set ConditionTypeUpdated ConditionTrue ConditionReasonUpdated "Updated" c.

(** ** condition.go: patchers *)
Definition Patcher := T → T.
Definition Ready_PatcherFailed (msg : string) : Patcher := λ c, SetReadyFailedWithMessage c msg.
Definition Ready_PatcherWithError (err : option error) : Patcher := λ c,
  match err with None => SetReadyCreated c | Some _ => SetReadyFailed c end.
Definition Ready_PatcherRefResolver (err : option error) (type : string) : Patcher := λ c,
  match err with
  | None => c
  | Some e =>
      if IsNotFound e then SetReadyFailedWithMessage c (type +:+ " not found")
      else SetReadyFailedWithMessage c ("Error getting " +:+ type)
  end.
Definition Ready_PatcherHealthy (err : option error) : Patcher := λ c,
  match err with None => SetReadyHealthy c | Some e => SetReadyUnhealthyWithError c e end.
Definition Complete_PatcherFailed (msg : string) : Patcher := λ c, SetCompleteFailedWithMessage c msg.
Definition Complete_PatcherRefResolver (err : option error) (type : string) : Patcher := λ c,
  match err with
  | None => c
  | Some e =>
      if IsNotFound e then SetCompleteFailedWithMessage c (type +:+ " not found")
      else SetCompleteFailedWithMessage c ("Error getting " +:+ type)
  end.

(** ** ready.go: the servers of a MaxScale *)
Fixpoint SetReadyWithMaxScaleStatus (c : T) (servers : list MaxScaleServerStatus) : T :=
  match servers with
  | [] => set ConditionTypeReady ConditionTrue "MaxScaleReady" "Running" c
  | srv :: servers' =>
      if state_IsReady (ms_State srv) then SetReadyWithMaxScaleStatus c servers'
      else if state_InMaintenance (ms_State srv) then
        set ConditionTypeReady ConditionFalse "MaxScaleNotReady"
          ("Server " +:+ ms_Name srv +:+ " in maintenance") c
      else set ConditionTypeReady ConditionFalse "MaxScaleNotReady"
             ("Server " +:+ ms_Name srv +:+ " not ready") c
  end.

(** ** What a setter changes *)
Lemma find_set_condition type status reason message t c :
  FindStatusCondition (conditions (set type status reason message c)) t =
  if bool_decide (t = type) then Some (mkCondition type status reason message)
  else FindStatusCondition (conditions c) t.
Proof. unfold set. by rewrite conditions_set, FindStatusCondition_set. Qed.

Lemma is_true_set type status reason message t c :
  IsStatusConditionTrue (conditions (set type status reason message c)) t =
  if bool_decide (t = type) then bool_decide (status = ConditionTrue)
  else IsStatusConditionTrue (conditions c) t.
Proof. unfold set. by rewrite conditions_set, IsStatusConditionTrue_set. Qed.

Lemma is_false_set type status reason message t c :
  IsStatusConditionFalse (conditions (set type status reason message c)) t =
  if bool_decide (t = type) then bool_decide (status = ConditionFalse)
  else IsStatusConditionFalse (conditions c) t.
Proof. unfold set. by rewrite conditions_set, IsStatusConditionFalse_set. Qed.
End setters.

Lemma SetReadyWithMariaDB_cases `{StatusConditions} (s : MariaDBStatus) sts mdb :
  ∃ (b : bool) reason msg,
    SetReadyWithMariaDB s sts mdb =
      set ConditionTypeReady (if b then ConditionTrue else ConditionFalse) reason msg s ∧
    (b = true ↔
      IsInitializing mdb = false ∧ (IsGaleraEnabled mdb = true → IsGaleraInitializing mdb = false) ∧
      IsUpdating mdb = false ∧ sts_Replicas sts ≠ 0 ∧ sts_ReadyReplicas sts = sts_Replicas sts).
Proof.
  unfold SetReadyWithMariaDB, sts_not_ready.
  destruct (IsInitializing mdb || _) eqn:Hinit.
  { destruct (InitError mdb); [eexists false, _, _|eexists false, _, _]; split; try done;
      (split; [done|]); intros (Hi & Hg & _); rewrite Hi in Hinit; cbn in Hinit;
      apply andb_true_iff in Hinit as [Hga Hgi]; rewrite (Hg Hga) in Hgi; done. }
  apply orb_false_iff in Hinit as [H1 H2%andb_false_iff].
  destruct (IsUpdating mdb); [eexists false, _, _; split; [done|]; naive_solver|].
  destruct (_ || _) eqn:Hsts.
  { eexists false, _, _. split; [done|]. split; [done|]. intros (_ & _ & _ & Hr & Heq).
    rewrite bool_decide_eq_false_2, bool_decide_eq_true_2 in Hsts by done. done. }
  apply orb_false_iff in Hsts as [Hr%bool_decide_eq_false Heq%negb_false_iff%bool_decide_eq_true].
  destruct (HasPendingUpdate mdb); eexists true, _, _; (split; [done|]); split; try done;
    intros _; split_and!; try done; destruct H2 as [H2|H2]; try done; rewrite H2; done.
Qed.

(** ** Properties *)

(** The operator reports a MariaDB as ready exactly when it is not (being)
    initialised, no update is in progress, and the StatefulSet has at least one
    replica and all of them ready; the verdict touches no other condition. *)
Theorem ready_verdict `{StatusConditions} (s : MariaDBStatus) sts mdb :
  let s' := SetReadyWithMariaDB s sts mdb in
  (IsStatusConditionTrue (st_Conditions s') ConditionTypeReady = true ↔
    IsInitializing mdb = false ∧ (IsGaleraEnabled mdb = true → IsGaleraInitializing mdb = false) ∧
    IsUpdating mdb = false ∧ sts_Replicas sts ≠ 0 ∧ sts_ReadyReplicas sts = sts_Replicas sts) ∧
  (IsStatusConditionFalse (st_Conditions s') ConditionTypeReady =
     negb (IsStatusConditionTrue (st_Conditions s') ConditionTypeReady)) ∧
  ∀ t, t ≠ ConditionTypeReady →
    FindStatusCondition (st_Conditions s') t = FindStatusCondition (st_Conditions s) t.
Proof.
  cbn zeta. change (@st_Conditions ?x) with (conditions x).
  destruct (SetReadyWithMariaDB_cases s sts mdb) as (b & reason & msg & -> & Hb).
  rewrite is_true_set, is_false_set, !bool_decide_eq_true_2 by done. split_and!.
  - rewrite <- Hb. by destruct b.
  - by destruct b.
  - intros t Ht. by rewrite find_set_condition, bool_decide_eq_false_2.
Qed.

(** While a switchover runs the MariaDB is not ready and counts as switching;
    completing it ends the switchover and leaves the Ready condition alone. *)
Theorem switchover_conditions `{StatusConditions} (s : MariaDBStatus) mdb :
  let switching cs := IsStatusConditionFalse cs ConditionTypePrimarySwitched in
  let ready cs := IsStatusConditionTrue cs ConditionTypeReady in
  switching (st_Conditions (SetPrimarySwitching s mdb)) = true ∧
  ready (st_Conditions (SetPrimarySwitching s mdb)) = false ∧
  switching (st_Conditions (SetPrimarySwitched s)) = false ∧
  ready (st_Conditions (SetPrimarySwitched s)) = ready (st_Conditions s) ∧
  st_CurrentPrimaryPodIndex (SetPrimarySwitching s mdb) = st_CurrentPrimaryPodIndex s.
Proof.
  cbn zeta. change (@st_Conditions ?x) with (conditions x).
  unfold SetPrimarySwitching, SetPrimarySwitched. by rewrite !is_true_set, !is_false_set.
Qed.

(** A failed CronJob and a scheduled one get the same reason
    ([ConditionReasonCronJobFailed] is the string "CronJobScheduled"): only the
    message tells them apart. *)
Theorem cronjob_failed_reason `{StatusConditions} (s : MariaDBStatus) scheduled successful :
  successful < scheduled →
  let failed := SetCompleteWithCronJob s (mkCronJobStatus (Some scheduled) (Some successful) 0) in
  let pending := SetCompleteWithCronJob s (mkCronJobStatus (Some scheduled) None 0) in
  c_Reason <$> FindStatusCondition (st_Conditions failed) ConditionTypeComplete =
  c_Reason <$> FindStatusCondition (st_Conditions pending) ConditionTypeComplete.
Proof.
  intros Hlt. cbn zeta. change (@st_Conditions ?x) with (conditions x).
  unfold SetCompleteWithCronJob. cbn -[set conditions].
  rewrite (bool_decide_eq_true_2 _ Hlt), (bool_decide_eq_false_2 (0 < 0)%nat) by lia.
  rewrite !find_set_condition. reflexivity.
Qed.

Lemma cronjob_failed_reason_witness :
  c_Reason <$> FindStatusCondition (st_Conditions
    (SetCompleteWithCronJob MariaDBStatus_zero (mkCronJobStatus (Some 2) (Some 1) 0)))
    ConditionTypeComplete = Some "CronJobScheduled".
Proof. rewrite (cronjob_failed_reason MariaDBStatus_zero 2 1); [reflexivity|lia]. Defined.
