(* ===== verification/PhysicalBackup.v ===== *)
(** * PhysicalBackup: the controller of physical backups

    api/v1alpha1/physicalbackup_types.go, pkg/job, pkg/volumesnapshot and
    internal/controller/physicalbackup_controller*.go.  A PhysicalBackup is taken at once or
    on a cron schedule, by a Job that runs beside a Pod of the cluster or by a VolumeSnapshot
    of its volume; [PB.Reconcile] is one run of the controller.  The cron library is not part
    of the repository: the class [Cron] names what its documentation promises.  The objects
    the builders make are answers of the environment, known by the arguments they are
    built from. *)

From S2P Require Import Prelude GoStrings GoTime StatefulSet Datastructures Conditions MariaDBTypes MaxScaleTypes.
From S2P Require Import Concurrency Kube Wait Sql Health Backup ConditionSetters.

Local Open Scope Z_scope.
Local Open Scope go_scope.

(** The zero value of [time.Time]: year 1. *)
Definition Time_zero : Z := - (epoch_day * 86400 * nsec).

(** ** github.com/robfig/cron: a parser of expressions and the activation after an instant,
    which is later than the instant, or the zero time when there is none. *)
Class Cron := {
  cron_Schedule : Type;
  cron_Parse : string → result cron_Schedule;
  cron_Next : cron_Schedule → Z → Z;
  cron_Next_later s t : t < cron_Next s t ∨ cron_Next s t = Time_zero
}.

(** ** api/v1alpha1/physicalbackup_types.go *)
Record PhysicalBackupSchedule := mkPhysicalBackupSchedule {
  pbs_Cron : string;
  pbs_Suspend : bool;
  pbs_Immediate : option bool
}.

Record PhysicalBackupStorage := mkPhysicalBackupStorage {
  pst_S3 : option string;
  pst_PersistentVolumeClaim : option string;
  pst_Volume : option StorageVolumeSource;
  pst_VolumeSnapshot : option string
}.

Record PhysicalBackupSpec := mkPhysicalBackupSpec {
  pb_ServiceAccountName : option string;
  pb_MariaDBRef : MariaDBRef;
  pb_Compression : string;
  pb_StagingStorage : option BackupStagingStorage;
  pb_Storage : PhysicalBackupStorage;
  pb_Schedule : option PhysicalBackupSchedule;
  pb_MaxRetention : Z;
  pb_Timeout : option Z;
  pb_BackoffLimit : Z;
  pb_SuccessfulJobsHistoryLimit : option Z
}.

Record PhysicalBackupStatus := mkPhysicalBackupStatus {
  pb_Conditions : list Condition;
  pb_LastScheduleCheckTime : option Z;
  pb_LastScheduleTime : option Z;
  pb_NextScheduleTime : option Z
}.

Record PhysicalBackup := mkPhysicalBackup {
  pb_meta : ObjectMeta;
  pb_Spec : PhysicalBackupSpec;
  pb_Status : PhysicalBackupStatus
}.

Definition DefaultPhysicalBackupMaxRetention : Z := 30 * 24 * Hour.
Definition DefaultPhysicalBackupTimeout : Z := 1 * Hour.

(** [ptr.Deref(backup.Spec.Schedule, PhysicalBackupSchedule{})] *)
Definition pb_schedule (b : PhysicalBackup) : PhysicalBackupSchedule :=
  default (mkPhysicalBackupSchedule "" false None) (pb_Schedule (pb_Spec b)).

Definition PhysicalBackupStatus_SetCondition `{StatusConditions} (s : PhysicalBackupStatus) (c : Condition) :
    PhysicalBackupStatus := { s with pb_Conditions := SetStatusCondition (pb_Conditions s) c }.

#[export] Program Instance PhysicalBackupStatus_Conditioner `{StatusConditions} :
    Conditioner PhysicalBackupStatus := {|
  conditions := pb_Conditions;
  set_condition c s := PhysicalBackupStatus_SetCondition s c
|}.
Next Obligation. done. Qed.

Definition PhysicalBackup_IsComplete `{StatusConditions} (b : PhysicalBackup) : bool :=
  IsStatusConditionTrue (pb_Conditions (pb_Status b)) ConditionTypeComplete.

Definition ServiceAccountKey (serviceAccountName : option string) (objMeta : ObjectMeta) : NamespacedName :=
  mkNamespacedName (default (Name objMeta) serviceAccountName) (Namespace objMeta).

Definition StagingPVCKey (b : PhysicalBackup) : NamespacedName :=
  mkNamespacedName (Name (pb_meta b) +:+ "-staging") (Namespace (pb_meta b)).
Definition StoragePVCKey (b : PhysicalBackup) : NamespacedName :=
  mkNamespacedName (Name (pb_meta b)) (Namespace (pb_meta b)).

Definition PhysicalBackupSchedule_Validate `{Cron} (s : PhysicalBackupSchedule) : result unit :=
  err_of (cron_Parse (pbs_Cron s)).

(** The fields of the struct are counted by reflection. *)
Definition PhysicalBackupStorage_Validate (s : PhysicalBackupStorage) : result unit :=
  let isSet {A} (o : option A) : nat := match o with Some _ => 1%nat | None => 0%nat end in
  let storageTypes := (isSet (pst_S3 s) + isSet (pst_PersistentVolumeClaim s) + isSet (pst_Volume s) +
    isSet (pst_VolumeSnapshot s))%nat in
  if negb (bool_decide (storageTypes = 1%nat)) then Err (ErrNew "exactly one storage type should be provided")
  else Ok tt.

Definition PhysicalBackup_Validate `{Cron} (b : PhysicalBackup) : result unit :=
  match pb_Schedule (pb_Spec b) with
  | Some s => wrap_err "invalid Schedule" (PhysicalBackupSchedule_Validate s)
  | None => Ok tt
  end ≫= λ _,
  wrap_err "invalid Storage" (PhysicalBackupStorage_Validate (pb_Storage (pb_Spec b))) ≫= λ _,
  wrap_err "invalid Compression" (CompressAlgorithm_Validate (pb_Compression (pb_Spec b))) ≫= λ _,
  let storage := pb_Storage (pb_Spec b) in
  if is_some (pst_VolumeSnapshot storage) && (is_some (pst_S3 storage) || is_some (pst_Volume storage))
  then Err (ErrNew "'s3' and 'volume' storage types may not be set when 'volumeSnapshotRef' is set")
  else if negb (is_some (pst_S3 storage)) && is_some (pb_StagingStorage (pb_Spec b))
  then Err (ErrNew "'spec.stagingStorage' may only be specified when 'spec.storage.s3' is set")
  else Ok tt.

(** The defaults of [SetDefaults], one per field. *)
Definition default_MaxRetention (s : PhysicalBackupSpec) : PhysicalBackupSpec :=
  if bool_decide (pb_MaxRetention s = 0) then { s with pb_MaxRetention := DefaultPhysicalBackupMaxRetention } else s.
Definition default_Timeout (s : PhysicalBackupSpec) : PhysicalBackupSpec :=
  match pb_Timeout s with None => { s with pb_Timeout := Some DefaultPhysicalBackupTimeout } | Some _ => s end.
Definition default_Compression (s : PhysicalBackupSpec) : PhysicalBackupSpec :=
  if bool_decide (pb_Compression s = "") then { s with pb_Compression := CompressNone } else s.
Definition default_BackoffLimit (s : PhysicalBackupSpec) : PhysicalBackupSpec :=
  if bool_decide (pb_BackoffLimit s = 0) then { s with pb_BackoffLimit := 5 } else s.
Definition default_HistoryLimit (s : PhysicalBackupSpec) : PhysicalBackupSpec :=
  match pb_SuccessfulJobsHistoryLimit s with
  | None => { s with pb_SuccessfulJobsHistoryLimit := Some 5 } | Some _ => s end.
Definition default_ServiceAccountName (objMeta : ObjectMeta) (s : PhysicalBackupSpec) : PhysicalBackupSpec :=
  match pb_ServiceAccountName s with
  | None => { s with pb_ServiceAccountName := Some (nn_Name (ServiceAccountKey None objMeta)) } | Some _ => s end.

(** A VolumeSnapshot does not use the fields after the first two. *)
Definition PhysicalBackup_SetDefaults (b : PhysicalBackup) : PhysicalBackup :=
  let s := default_Timeout (default_MaxRetention (pb_Spec b)) in
  { b with pb_Spec :=
      if is_some (pst_VolumeSnapshot (pb_Storage s)) then s
      else default_ServiceAccountName (pb_meta b)
             (default_HistoryLimit (default_BackoffLimit (default_Compression s))) }.

Definition PhysicalBackup_Volume (b : PhysicalBackup) : result StorageVolumeSource :=
  let storage := pb_Storage (pb_Spec b) in
  if is_some (pst_VolumeSnapshot storage) then Err (ErrNew "VolumeSnapshot does not require a volume")
  else if is_some (pst_S3 storage) then
    Ok (VolumeOrEmptyDir (default (mkBackupStagingStorage None None) (pb_StagingStorage (pb_Spec b)))
          (StagingPVCKey b))
  else if is_some (pst_PersistentVolumeClaim storage) then
    Ok (PersistentVolumeClaimSource (nn_Name (StoragePVCKey b)))
  else match pst_Volume storage with
       | Some v => Ok v
       | None => Err (ErrNew "unable to get volume for PhysicalBackup")
       end.

Definition ParsePhysicalBackupTime (name : string) : result Z :=
  let parts := Split name "-" in
  if bool_decide (length parts < 2)%nat then Err (ErrNew "invalid object name")
  else mdbtime_Parse (List.last parts "").
Definition IsValidPhysicalBackup (name : string) : bool := is_ok (ParsePhysicalBackupTime name).

(** ** pkg/volumesnapshot *)
Record VolumeSnapshotStatus := mkVolumeSnapshotStatus {
  vss_BoundVolumeSnapshotContentName : option string;
  vss_CreationTime : option Z;
  vss_ReadyToUse : option bool;
  vss_Error : option (option string)
}.
Record VolumeSnapshot := mkVolumeSnapshot {
  vs_Name : string;
  vs_Namespace : string;
  vs_CreationTimestamp : option Z;
  vs_Status : option VolumeSnapshotStatus
}.
Definition vs_status (s : VolumeSnapshot) : VolumeSnapshotStatus :=
  default (mkVolumeSnapshotStatus None None None None) (vs_Status s).

Definition IsVolumeSnapshotProvisioned (snapshot : VolumeSnapshot) : bool :=
  let status := vs_status snapshot in
  if bool_decide (default "" (vss_BoundVolumeSnapshotContentName status) = "") then false
  else is_some (vss_CreationTime status) && negb (is_some (vss_Error status)).

Definition IsVolumeSnapshotReady (snapshot : VolumeSnapshot) : bool :=
  if negb (IsVolumeSnapshotProvisioned snapshot) then false
  else default false (vss_ReadyToUse (vs_status snapshot)) && negb (is_some (vss_Error (vs_status snapshot))).

Definition PhysicalBackupNameLabel : string := "physicalbackup.k8s.mariadb.com/name".
Definition WithPhysicalBackupSelectorLabels (backup : PhysicalBackup) (b : gmap string string) :
  gmap string string := <[PhysicalBackupNameLabel := Name (pb_meta backup)]> b.

(** ** The operations of the controller *)
Inductive owned_kind := OwnedServiceAccount | OwnedStoragePVC | OwnedStagingPVC.
Inductive propagation := DeletePropagationBackground | DeletePropagationForeground | DeletePropagationDefault.

Inductive pbop : Type → Type :=
  (** operations shared with the MariaDB controller *)
  | PBase {X} (o : op X) : pbop X
  | PGetBackup (key : NamespacedName) : pbop (result PhysicalBackup)
  | PPatchBackup (base b : PhysicalBackup) : pbop (result unit)
  | PPatchStatus (base b : PhysicalBackup) : pbop (result unit)
  (** objects created once: the ServiceAccount and the claims *)
  | PGetOwned (kind : owned_kind) (key : NamespacedName) : pbop (result unit)
  | PBuildOwned (kind : owned_kind) (key : NamespacedName) : pbop (result unit)
  | PCreateOwned (kind : owned_kind) (key : NamespacedName) : pbop (result unit)
  (** Jobs controlled by the backup of the given name *)
  | PListJobs (namespace owner : string) : pbop (result (list Job))
  | PBuildJob (key : NamespacedName) (b : PhysicalBackup) (mariadb : MariaDB) (targetPod : Pod)
      (fileName : string) : pbop (result unit)
  | PCreateJob (key : NamespacedName) (targetPod : Pod) (fileName : string) : pbop (result unit)
  | PDeleteJob (job : Job) (p : propagation) : pbop (result unit)
  (** VolumeSnapshots *)
  | PVolumeSnapshotExist : pbop (result bool)
  | PListSnapshots (namespace : string) (labels : gmap string string) : pbop (result (list VolumeSnapshot))
  | PGetSnapshot (key : NamespacedName) : pbop (result VolumeSnapshot)
  | PBuildSnapshot (key : NamespacedName) (b : PhysicalBackup) (pvc : NamespacedName) : pbop (result unit)
  | PCreateSnapshot (key pvc : NamespacedName) : pbop (result unit)
  | PDeleteSnapshot (snapshot : VolumeSnapshot) : pbop (result unit).

Module PB.
Section controller.
Context `{StatusConditions} `{SORT : SliceSort} `{CRON : Cron}.

Abbreviation C := (M PhysicalBackup pbop).

Definition base {A} (m : M PhysicalBackup op A) : C A := hoistM (λ X, PBase) m.
Definition now : C Z := base (ask TimeNow).

(** [patch := client.MergeFrom(backup.DeepCopy()); patcher(backup); Patch] *)
Definition patch (patcher : PhysicalBackup → PhysicalBackup) : C unit := λ b,
  Vis (PPatchBackup b (patcher b)) (λ r, Ret (patcher b, r)).
Definition patchStatus (patcher : PhysicalBackupStatus → PhysicalBackupStatus) : C unit := λ b,
  let b' := { b with pb_Status := patcher (pb_Status b) } in
  Vis (PPatchStatus b b') (λ r, Ret (b', r)).

Definition setDefaults : C unit := patch PhysicalBackup_SetDefaults.

(** *** Names *)
Definition getObjectName (backup : PhysicalBackup) (now : Z) : string :=
  Name (pb_meta backup) +:+ "-" +:+ mdbtime_Format now.

Definition getBackupFileName (backup : PhysicalBackup) (now : Z) : result string :=
  let backupFile := "physicalbackup-" +:+ mdbtime_Format now +:+ ".xb" in
  let compression := pb_Compression (pb_Spec backup) in
  if negb (bool_decide (compression = "")) && negb (bool_decide (compression = CompressNone)) then
    ext ← wrap_err "error getting compression algorithm extension" (CompressAlgorithm_Extension compression);
    Ok (backupFile +:+ "." +:+ ext)
  else Ok backupFile.

Definition parseObjectTime (name : string) : result Z := ParsePhysicalBackupTime name.

(** [sort.Slice] looks at every element of a slice of two or more: a name that does not parse
    is an error exactly there.  Without one, the elements are ordered by [After]. *)
Definition object_time (name : string) : Z :=
  match parseObjectTime name with Ok t => t | Err _ => Time_zero end.
Definition object_after (x y : string) : bool := bool_decide (object_time y < object_time x).
Definition sortByObjectTime {T} (name : T → string) (objList : list T) : result (list T) :=
  if bool_decide (2 ≤ length objList)%nat &&
     existsb (λ o, negb (is_ok (parseObjectTime (name o)))) objList
  then Err (ErrNew "error parsing object time")
  else Ok (sort_slice (λ x y, object_after (name x) (name y)) objList).

(** *** The schedule *)
Definition scheduleFn := Z → option cron_Schedule → C ctrl_Result.

Definition reconcileTemplateScheduled (schedule_fn : scheduleFn) : C ctrl_Result :=
  backup <- get ;;
  let schedule := pb_schedule backup in
  if pbs_Suspend schedule then ret Result_zero else
  let isImmediate := default true (pbs_Immediate schedule) in
  cronSchedule <- wrap "error parsing cron schedule" (lift (cron_Parse (pbs_Cron schedule))) ;;
  now <- now ;;
  match pb_LastScheduleCheckTime (pb_Status backup) with
  | None =>
      if (isImmediate : bool) then schedule_fn now (Some cronSchedule) else
      let nextTime := cron_Next cronSchedule now in
      wrap "error patching status" (patchStatus (λ status,
        { status with pb_LastScheduleCheckTime := Some now; pb_NextScheduleTime := Some nextTime })) ;;;
      ret (requeue_after (Time_Sub nextTime now))
  | Some lastScheduleCheckTime =>
      let nextTime := cron_Next cronSchedule lastScheduleCheckTime in
      if bool_decide (now < nextTime) then ret (requeue_after (Time_Sub nextTime now))
      else schedule_fn now (Some cronSchedule)
  end.

Definition reconcileTemplate (numReconciledObjects : nat) (schedule_fn : scheduleFn) : C ctrl_Result :=
  backup <- get ;;
  match pb_Schedule (pb_Spec backup) with
  | Some _ => reconcileTemplateScheduled schedule_fn
  | None =>
      if bool_decide (numReconciledObjects = 0%nat) then now <- now ;; schedule_fn now None
      else ret Result_zero
  end.

(** The status patch that records a taken backup. *)
Definition record_schedule (now : Z) (schedule : option cron_Schedule) : C unit :=
  wrap "error patching status" (patchStatus (λ status,
    let status := { status with pb_LastScheduleCheckTime := Some now; pb_LastScheduleTime := Some now } in
    match schedule with
    | Some s => { status with pb_NextScheduleTime := Some (cron_Next s now) }
    | None => status
    end)).

(** *** The Pod the backup is taken from *)
Definition physicalBackupTargetPodIndex (mariadb : MariaDB) : C Z :=
  match st_CurrentPrimaryPodIndex (m_Status mariadb) with
  | None => throw (ErrSentinel errPhysicalBackupNoTargetPodsAvailable)
  | Some primary =>
      if negb (IsHAEnabled mariadb) then ret primary else
      r <- try (base (SecondaryPodHealthyIndex mariadb)) ;;
      match r with
      | Ok podIndex => ret podIndex
      | Err err =>
          if errors_Is err ErrNoHealthyInstancesAvailable
          then throw (ErrSentinel errPhysicalBackupNoTargetPodsAvailable)
          else throw (ErrWrap "error getting target Pod index" err)
      end
  end.

(** *** physicalbackup_controller_job.go *)
Definition set_complete (status : ConditionStatus) (reason message : string) : C unit :=
  _ignored <- try (patchStatus (λ s, PhysicalBackupStatus_SetCondition s
    (mkCondition ConditionTypeComplete status reason message))) ;;
  ret tt.

Definition ListJobs : C (list Job) :=
  backup <- get ;; call (PListJobs (Namespace (pb_meta backup)) (Name (pb_meta backup))).

(** The loop over the Jobs: [None] when one of them has failed. *)
Fixpoint count_jobs (jobs : list Job) (numRunning numComplete : nat) : option (nat * nat) :=
  match jobs with
  | [] => Some (numRunning, numComplete)
  | job :: jobs' =>
      if IsJobFailed (Some job) then None
      else if IsJobRunning (Some job) then count_jobs jobs' (S numRunning) numComplete
      else if IsJobComplete (Some job) then count_jobs jobs' numRunning (S numComplete)
      else count_jobs jobs' numRunning numComplete
  end.

Definition reconcileJobStatus (jobs : list Job) : C unit :=
  backup <- get ;;
  if pbs_Suspend (pb_schedule backup)
  then set_complete ConditionFalse ConditionReasonJobSuspended "Suspended" else
  match count_jobs jobs 0 0 with
  | None => set_complete ConditionTrue ConditionReasonJobFailed "Failed"
  | Some (numRunning, numComplete) =>
      if bool_decide (0 < length jobs)%nat && bool_decide (numComplete = length jobs)
      then set_complete ConditionTrue ConditionReasonJobComplete "Success"
      else if bool_decide (0 < length jobs)%nat && bool_decide (0 < numRunning)%nat
      then set_complete ConditionFalse ConditionReasonJobRunning "Running"
      else set_complete ConditionFalse ConditionReasonJobNotComplete
             (if is_some (pb_Schedule (pb_Spec backup)) then "Scheduled" else "Not complete")
  end.

(** A Job that is already gone counts as deleted. *)
Definition delete_job (job : Job) (p : propagation) : C unit :=
  r <- try (call (PDeleteJob job p)) ;;
  match r with
  | Ok _ => ret tt
  | Err err => if IsNotFound err then ret tt else throw (ErrWrap "error deleting Job" err)
  end.

(** The CRD schema requires a history limit of at least 0. *)
Definition cleanupJobs (jobs : list Job) : C unit :=
  backup <- get ;;
  match pb_Schedule (pb_Spec backup) with
  | None => ret tt
  | Some _ =>
      let completeJobs := filter (λ job, IsJobComplete (Some job) = true) jobs in
      let maxHistory := default 5 (pb_SuccessfulJobsHistoryLimit (pb_Spec backup)) in
      if bool_decide (Z.of_nat (length completeJobs) ≤ maxHistory) then ret tt else
      sorted <- lift (sortByObjectTime job_Name completeJobs) ;;
      for_each (drop (Z.to_nat maxHistory) sorted) (λ job, delete_job job DeletePropagationBackground)
  end.

Definition deleteJobSync (job : Job) : C unit :=
  delete_job job DeletePropagationForeground ;;;
  PollUntilSuccessOrContextCancel (5 * Minute) (
    r <- try (base (call (KGetJob (mkNamespacedName (job_Name job) (job_Namespace job))))) ;;
    match r with
    | Err err => if IsNotFound err then ret tt else throw (ErrNew "Job still exists")
    | Ok _ => throw (ErrNew "Job still exists")
    end).

Fixpoint waitForRunningJobs (jobs : list Job) : C ctrl_Result :=
  match jobs with
  | [] => ret Result_zero
  | job :: jobs' =>
      if IsJobRunning (Some job) then
        backup <- get ;;
        expired <- match pb_Timeout (pb_Spec backup), job_CreationTimestamp job with
                   | Some timeout, Some created =>
                       now <- now ;; ret (bool_decide (timeout < Time_Sub now created))
                   | _, _ => ret false
                   end ;;
        if (expired : bool) then
          wrap "error deleting expired Job" (deleteJobSync job) ;;; ret requeue
        else ret (requeue_after (10 * Second))
      else if negb (IsJobComplete (Some job)) then ret (requeue_after (10 * Second))
      else waitForRunningJobs jobs'
  end.

(** pkg/controller/rbac and pkg/controller/pvc: an object is created when it is missing. *)
Definition ReconcileServiceAccount (key : NamespacedName) : C unit :=
  r <- try (call (PGetOwned OwnedServiceAccount key)) ;;
  match r with
  | Ok _ => ret tt
  | Err err =>
      if negb (IsNotFound err) then throw (ErrWrap "error getting ServiceAccount" err) else
      wrap "error building ServiceAccount" (call (PBuildOwned OwnedServiceAccount key)) ;;;
      wrap "error creating ServiceAccount" (call (PCreateOwned OwnedServiceAccount key))
  end.

Definition PVC_Reconcile (kind : owned_kind) (key : NamespacedName) : C unit :=
  r <- try (call (PGetOwned kind key)) ;;
  match r with
  | Ok _ => ret tt
  | Err err => if negb (IsNotFound err) then throw err else call (PCreateOwned kind key)
  end.

Definition reconcileServiceAccount : C unit :=
  backup <- get ;;
  ReconcileServiceAccount (ServiceAccountKey (pb_ServiceAccountName (pb_Spec backup)) (pb_meta backup)).

Definition reconcileStorage : C unit :=
  backup <- get ;;
  (if is_some (pst_PersistentVolumeClaim (pb_Storage (pb_Spec backup))) then
     let key := StoragePVCKey backup in
     wrap "error building Backup storage PVC" (call (PBuildOwned OwnedStoragePVC key)) ;;;
     wrap "error creating Backup storage PVC" (PVC_Reconcile OwnedStoragePVC key)
   else ret tt) ;;;
  let stagingStorage := default (mkBackupStagingStorage None None) (pb_StagingStorage (pb_Spec backup)) in
  if is_some (bss_PersistentVolumeClaim stagingStorage) then
    let key := StagingPVCKey backup in
    wrap "error building Backup staging PVC" (call (PBuildOwned OwnedStagingPVC key)) ;;;
    wrap "error creating Backup staging PVC" (PVC_Reconcile OwnedStagingPVC key)
  else ret tt.

Definition createJob (mariadb : MariaDB) (now : Z) (schedule : option cron_Schedule) : C ctrl_Result :=
  r <- try (physicalBackupTargetPodIndex mariadb) ;;
  match r with
  | Err err =>
      if errors_Is err errPhysicalBackupNoTargetPodsAvailable then ret (requeue_after (5 * Second))
      else throw (ErrWrap "error getting target Pod index" err)
  | Ok podIndex =>
      targetPod <- wrap "error getting target Pod" (base (call (KGetPod
        (mkNamespacedName (PodName (m_meta mariadb) podIndex) (Namespace (m_meta mariadb)))))) ;;
      backup <- get ;;
      let backupKey := mkNamespacedName (getObjectName backup now) (Namespace (m_meta mariadb)) in
      backupFileName <- wrap "error getting backup file name" (lift (getBackupFileName backup now)) ;;
      wrap "error building Job" (call (PBuildJob backupKey backup mariadb targetPod backupFileName)) ;;;
      record_schedule now schedule ;;;
      wrap "error creating Job" (call (PCreateJob backupKey targetPod backupFileName)) ;;;
      ret Result_zero
  end.

Definition reconcileJobs (mariadb : MariaDB) : C ctrl_Result :=
  jobList <- wrap "error listing Jobs" ListJobs ;;
  wrap "error reconciling status" (reconcileJobStatus jobList) ;;;
  wrap "error cleaning up Jobs" (cleanupJobs jobList) ;;;
  result <- waitForRunningJobs jobList ;;
  if negb (Result_IsZero result) then ret result else
  wrap "error reconciling ServiceAccount" reconcileServiceAccount ;;;
  wrap "error reconciling storage" reconcileStorage ;;;
  reconcileTemplate (length jobList) (createJob mariadb).

(** *** physicalbackup_controller_snapshot.go *)
Definition ListVolumeSnapshots : C (list VolumeSnapshot) :=
  backup <- get ;;
  call (PListSnapshots (Namespace (pb_meta backup)) (WithPhysicalBackupSelectorLabels backup ∅)).

(** The loop over the snapshots: the message of the first error, or the number of ready ones. *)
Fixpoint count_snapshots (snapshots : list VolumeSnapshot) (numReady : nat) : string + nat :=
  match snapshots with
  | [] => inr numReady
  | snapshot :: snapshots' =>
      match vss_Error (vs_status snapshot) with
      | Some message => inl (default "Error" message)
      | None => count_snapshots snapshots' (if IsVolumeSnapshotReady snapshot then S numReady else numReady)
      end
  end.

Definition reconcileSnapshotStatus (snapshots : list VolumeSnapshot) : C unit :=
  backup <- get ;;
  if pbs_Suspend (pb_schedule backup)
  then set_complete ConditionFalse ConditionReasonSnapshotSuspended "Suspended" else
  match count_snapshots snapshots 0 with
  | inl message => set_complete ConditionFalse ConditionReasonSnapshotFailed message
  | inr numReady =>
      if bool_decide (0 < length snapshots)%nat && bool_decide (numReady = length snapshots)
      then set_complete ConditionTrue ConditionReasonSnapshotComplete "Success"
      else if bool_decide (0 < length snapshots)%nat
      then set_complete ConditionFalse ConditionReasonSnapshotInProgress "In progress"
      else set_complete ConditionFalse ConditionReasonSnapshotNotComplete
             (if is_some (pb_Schedule (pb_Spec backup)) then "Scheduled" else "Not complete")
  end.

(** The processor main.go gives the controller. *)
Definition backupProcessor : BackupProcessor :=
  PhysicalBackupProcessor (Some IsValidPhysicalBackup) (Some ParsePhysicalBackupTime).

Definition cleanupSnapshots (snapshots : list VolumeSnapshot) : C unit :=
  backup <- get ;;
  match pb_Schedule (pb_Spec backup) with
  | None => ret tt
  | Some _ =>
      let readySnapshotNames := vs_Name <$> filter (λ s, IsVolumeSnapshotReady s = true) snapshots in
      let maxRetention := if bool_decide (pb_MaxRetention (pb_Spec backup) = 0)
                          then DefaultPhysicalBackupMaxRetention else pb_MaxRetention (pb_Spec backup) in
      now <- now ;;
      for_each (GetOldBackupFiles backupProcessor now readySnapshotNames maxRetention) (λ snapshotName,
        r <- try (call (PGetSnapshot (mkNamespacedName snapshotName (Namespace (pb_meta backup))))) ;;
        match r with
        | Err err => if IsNotFound err then ret tt else throw (ErrWrap "error getting VolumeSnapshot" err)
        | Ok snapshot =>
            r <- try (call (PDeleteSnapshot snapshot)) ;;
            match r with
            | Ok _ => ret tt
            | Err err => if IsNotFound err then ret tt else throw (ErrWrap "error deleting VolumeSnapshot" err)
            end
        end)
  end.

(** The body of createVolumeSnapshot that runs while the tables are locked. *)
Definition snapshot_locked (snapshotKey : NamespacedName) (mariadb : MariaDB) (podIndex : Z) : C unit :=
  backup <- get ;;
  let targetPVCKey := PVCKey mariadb "storage" podIndex in
  wrap "error building VolumeSnapshot" (call (PBuildSnapshot snapshotKey backup targetPVCKey)) ;;;
  r <- try (call (PGetSnapshot snapshotKey)) ;;
  match r with
  | Ok _ => ret tt
  | Err err =>
      if negb (IsNotFound err) then throw (ErrWrap "error getting VolumeSnapshot" err)
      else wrap "error creating VolumeSnapshot" (call (PCreateSnapshot snapshotKey targetPVCKey))
  end ;;;
  PollUntilSuccessOrContextCancel (default DefaultPhysicalBackupTimeout (pb_Timeout (pb_Spec backup))) (
    snapshot <- call (PGetSnapshot snapshotKey) ;;
    if IsVolumeSnapshotProvisioned snapshot then ret tt else
    b <- get ;;
    (if PhysicalBackup_IsComplete b
     then set_complete ConditionFalse ConditionReasonSnapshotInProgress "In progress" else ret tt) ;;;
    throw (ErrNew "VolumeSnapshot not provisioned")).

(** The deferred call unlocks the tables whatever the body returns. *)
Definition createVolumeSnapshot (snapshotKey : NamespacedName) (mariadb : MariaDB) : C ctrl_Result :=
  r <- try (physicalBackupTargetPodIndex mariadb) ;;
  match r with
  | Err err =>
      if errors_Is err errPhysicalBackupNoTargetPodsAvailable then ret (requeue_after (5 * Second))
      else throw (ErrWrap "error getting target Pod index" err)
  | Ok podIndex =>
      wrap "error getting SQL client" (base (call_reply (SqlOpen podIndex))) ;;;
      wrap "error locking tables with read lock" (base (LockTablesWithReadLock podIndex)) ;;;
      r <- try (snapshot_locked snapshotKey mariadb podIndex) ;;
      _unlocked <- try (base (UnlockTables podIndex)) ;;
      lift r ;;;
      ret Result_zero
  end.

Definition scheduleSnapshot (mariadb : MariaDB) (now : Z) (schedule : option cron_Schedule) : C ctrl_Result :=
  r <- try (physicalBackupTargetPodIndex mariadb) ;;
  if match r with Err err => errors_Is err errPhysicalBackupNoTargetPodsAvailable | Ok _ => false end
  then ret (requeue_after (5 * Second)) else
  backup <- get ;;
  let snapshotKey := mkNamespacedName (getObjectName backup now) (Namespace (m_meta mariadb)) in
  result <- createVolumeSnapshot snapshotKey mariadb ;;
  if negb (Result_IsZero result) then ret result else
  record_schedule now schedule ;;;
  ret Result_zero.

Fixpoint waitForProvisionedSnapshots (snapshots : list VolumeSnapshot) : C ctrl_Result :=
  match snapshots with
  | [] => ret Result_zero
  | snapshot :: snapshots' =>
      if IsVolumeSnapshotProvisioned snapshot then waitForProvisionedSnapshots snapshots' else
      backup <- get ;;
      expired <- match pb_Timeout (pb_Spec backup), vs_CreationTimestamp snapshot with
                 | Some timeout, Some created =>
                     now <- now ;; ret (bool_decide (timeout < Time_Sub now created))
                 | _, _ => ret false
                 end ;;
      if (expired : bool) then
        wrap "error deleting expired VolumeSnapshot" (call (PDeleteSnapshot snapshot)) ;;; ret requeue
      else ret (requeue_after (10 * Second))
  end.

Definition reconcileSnapshots (mariadb : MariaDB) : C ctrl_Result :=
  exist <- call PVolumeSnapshotExist ;;
  if negb exist then ret (requeue_after (10 * Second)) else
  snapshotList <- wrap "error listing VolumeSnapshots" ListVolumeSnapshots ;;
  wrap "error reconciling status" (reconcileSnapshotStatus snapshotList) ;;;
  wrap "error cleaning up Jobs" (cleanupSnapshots snapshotList) ;;;
  result <- waitForProvisionedSnapshots snapshotList ;;
  if negb (Result_IsZero result) then ret result else
  reconcileTemplate (length snapshotList) (scheduleSnapshot mariadb).

(** *** physicalbackup_controller.go *)
Definition reconcile (mariadb : MariaDB) : C ctrl_Result :=
  backup <- get ;;
  if is_some (pst_VolumeSnapshot (pb_Storage (pb_Spec backup)))
  then reconcileSnapshots mariadb else reconcileJobs mariadb.

(** After the backup has been read. *)
Definition Reconcile_backup : C ctrl_Result :=
  backup <- get ;;
  let ref := pb_MariaDBRef (pb_Spec backup) in
  r <- try (base (call (KGetMariaDB (ref_key ref (Namespace (pb_meta backup)))))) ;;
  match r with
  | Err err =>
      p <- try (patchStatus (Complete_PatcherRefResolver (Some err) "MariaDB")) ;;
      match multierror (Err err) p with
      | Err e => throw (ErrWrap "error getting MariaDB" e)
      | Ok _ => ret Result_zero
      end
  | Ok mariadb =>
      if ref_WaitForIt ref && negb (IsReady mariadb) then
        wrap "error patching Backup" (patchStatus (Complete_PatcherFailed "MariaDB not ready")) ;;;
        ret (requeue_after (5 * Second))
      else
      wrap "error defaulting PhysicalBackup" setDefaults ;;;
      reconcile mariadb
  end.

Definition Reconcile (req : NamespacedName) : prog pbop (result ctrl_Result) :=
  Vis (PGetBackup req) (λ r,
    match r with
    | Err err => Ret (match IgnoreNotFound err with Some e => Err e | None => Ok Result_zero end)
    | Ok backup => bind_prog (Reconcile_backup backup) (λ '(_, res), Ret res)
    end).
End controller.
End PB.
