(* ===== verification/PhysicalBackupSafety.v ===== *)
(** * When a physical backup is taken

    The safety and progress of [PB.Reconcile]: a Job is created only when the backup is
    due, all the previous Jobs are complete and the status records it; tables are locked
    around every VolumeSnapshot; and the controller never stops silently. *)

From Stdlib Require Import Ascii.
From S2P Require Import Prelude GoStrings GoTime GoPath StatefulSet Datastructures Conditions MariaDBTypes MaxScaleTypes.
From S2P Require Import Concurrency Kube Wait Sql Health Backup ConditionSetters PhysicalBackup.

Local Open Scope Z_scope.
Local Open Scope go_scope.

Section physicalbackup.
Context `{StatusConditions} `{SORT : SliceSort} `{CRON : Cron}.
Abbreviation pbtrace := (list (event pbop)).

(** The parts of the object that decide when a backup is taken. *)
Definition same_plan (b b' : PhysicalBackup) : Prop :=
  pb_meta b' = pb_meta b ∧ pb_Spec b' = pb_Spec b ∧
  pb_LastScheduleCheckTime (pb_Status b') = pb_LastScheduleCheckTime (pb_Status b).
#[local] Instance same_plan_preorder : PreOrder same_plan.
Proof. split; unfold same_plan; [by intros ?|]. intros a b c (-> & -> & ->) (-> & -> & ->). done. Qed.

(** The backup is due at [now] when [n] objects of it exist. *)
Definition due (b : PhysicalBackup) (n : nat) (now : Z) : Prop :=
  match pb_Schedule (pb_Spec b) with
  | None => n = 0%nat
  | Some sch => pbs_Suspend sch = false ∧ ∃ s, cron_Parse (pbs_Cron sch) = Ok s ∧
      match pb_LastScheduleCheckTime (pb_Status b) with
      | None => default true (pbs_Immediate sch) = true
      | Some last => cron_Next s last ≤ now
      end
  end.

(** The outcomes of the schedule in which no backup is taken. *)
Inductive idle (b : PhysicalBackup) (n : nat) : pbtrace → PhysicalBackup → result ctrl_Result → Prop :=
  | idle_suspended sch : pb_Schedule (pb_Spec b) = Some sch → pbs_Suspend sch = true →
      idle b n [] b (Ok Result_zero)
  | idle_done : pb_Schedule (pb_Spec b) = None → n ≠ 0%nat → idle b n [] b (Ok Result_zero)
  | idle_bad_cron sch e : pb_Schedule (pb_Spec b) = Some sch → cron_Parse (pbs_Cron sch) = Err e →
      idle b n [] b (Err (ErrWrap "error parsing cron schedule" e))
  | idle_early sch s last now : pb_Schedule (pb_Spec b) = Some sch → cron_Parse (pbs_Cron sch) = Ok s →
      pb_LastScheduleCheckTime (pb_Status b) = Some last → now < cron_Next s last →
      idle b n [Ev (PBase TimeNow) now] b (Ok (requeue_after (Time_Sub (cron_Next s last) now)))
  | idle_first sch s now b' r : pb_Schedule (pb_Spec b) = Some sch → cron_Parse (pbs_Cron sch) = Ok s →
      pb_LastScheduleCheckTime (pb_Status b) = None → pbs_Immediate sch = Some false →
      pb_LastScheduleCheckTime (pb_Status b') = Some now →
      idle b n [Ev (PBase TimeNow) now; Ev (PPatchStatus b b') r] b'
        (wrap_err "error patching status" r ≫= λ _, Ok (requeue_after (Time_Sub (cron_Next s now) now))).

Lemma wpM_pb_now b Q : (∀ now, Q [Ev (PBase TimeNow) now] b (Ok now)) → wpM PB.now b Q.
Proof. done. Qed.
Lemma wpM_pb_patchStatus f b Q :
  (∀ r, let b' := { b with pb_Status := f (pb_Status b) } in Q [Ev (PPatchStatus b b') r] b' r) →
  wpM (PB.patchStatus f) b Q.
Proof. done. Qed.
Lemma wpM_pb_patch f b Q : (∀ r, Q [Ev (PPatchBackup b (f b)) r] (f b) r) → wpM (PB.patch f) b Q.
Proof. done. Qed.
Ltac pb_step :=
  lazymatch goal with
  | |- wpM PB.now _ _ => apply wpM_pb_now; intros ?; cbn [app]
  | |- wpM (PB.patchStatus _) _ _ => apply wpM_pb_patchStatus; intros r_patch b_patch; cbn [app]
  | _ => wp_step
  end.

Lemma reconcileTemplate_spec n fn b (P : Z → pbtrace → PhysicalBackup → result ctrl_Result → Prop) :
  (∀ now sch, due b n now → wpM (fn now sch) b (P now)) →
  wpM (PB.reconcileTemplate n fn) b (λ t b' r,
    idle b n t b' r ∨ ∃ now t', due b n now ∧ t = Ev (PBase TimeNow) now :: t' ∧ P now t' b' r).
Proof.
  intros Hfn. unfold PB.reconcileTemplate, PB.reconcileTemplateScheduled. do 2 wp_step.
  destruct (pb_Schedule (pb_Spec b)) as [sch|] eqn:Hsch.
  - do 2 wp_step. unfold pb_schedule. rewrite Hsch. cbn [default from_option id].
    destruct (pbs_Suspend sch) eqn:Hsusp; [wp_step; left; by eapply idle_suspended|].
    do 3 wp_step. destruct (cron_Parse (pbs_Cron sch)) as [s|e] eqn:Hcron; cbn [wrap_err];
      [|left; by eapply idle_bad_cron].
    pb_step. pb_step.
    destruct (pb_LastScheduleCheckTime (pb_Status b)) as [last|] eqn:Hlast.
    + case_bool_decide as Hnow; [wp_step; left; by eapply idle_early|].
      assert (due b n now) as Hdue.
      { unfold due. rewrite Hsch, Hlast. split; [done|]. exists s. split; [done|lia]. }
      eapply wpM_mono; [|by apply Hfn]. eauto 10.
    + destruct (default true (pbs_Immediate sch)) eqn:Him.
      * assert (due b n now) as Hdue by (unfold due; rewrite Hsch, Hlast; eauto).
        eapply wpM_mono; [|by apply Hfn]. eauto 10.
      * assert (pbs_Immediate sch = Some false) by by destruct (pbs_Immediate sch) as [[]|].
        do 2 wp_step. pb_step. destruct r_patch as [[]|e]; cbn [wrap_err]; [wp_step|]; left.
        { by eapply (idle_first b n sch s now b_patch (Ok tt)). }
        { by eapply (idle_first b n sch s now b_patch (Err e)). }
  - case_bool_decide as Hn; [|wp_step; left; by constructor].
    do 2 pb_step. assert (due b n now) as Hdue by (unfold due; by rewrite Hsch).
    eapply wpM_mono; [|by apply Hfn]. eauto 10.
Qed.

(** ** Frames *)
Lemma alwaysM_pb_patchStatus (P : event pbop → Prop) f :
  (∀ b b' r, P (Ev (PPatchStatus b b') r)) → alwaysM P (PB.patchStatus f).
Proof. intros HP b r. by split; [apply HP|]. Qed.
Lemma keepsM_pb_patchStatus f :
  (∀ s, pb_LastScheduleCheckTime (f s) = pb_LastScheduleCheckTime s) → keepsM same_plan (PB.patchStatus f).
Proof. intros Hf b. apply wpM_pb_patchStatus. intros r b'. split_and!; [done|done|apply Hf]. Qed.

Ltac pb_always := repeat
  lazymatch goal with
  | |- alwaysM _ (PB.patchStatus _) => apply alwaysM_pb_patchStatus; intros ???
  | |- alwaysM _ (PollUntilSuccessOrContextCancel _ _) => apply alwaysM_poll_until
  | |- alwaysM _ (let x := _ in _) => cbv zeta
  | _ => always_step
  end.
Ltac pb_keeps := repeat
  lazymatch goal with
  | |- keepsM _ (PB.patchStatus _) => apply keepsM_pb_patchStatus; intros ?
  | |- keepsM _ (PollUntilSuccessOrContextCancel _ _) => apply keepsM_poll_until; [apply _|]
  | _ => keeps_step
  end.

Definition creates_job (e : event pbop) : Prop :=
  match ev_op e with PCreateJob _ _ _ => True | _ => False end.
Abbreviation no_job := (λ e, ¬ creates_job e).

Lemma reconcileJobStatus_no_job jobs : alwaysM no_job (PB.reconcileJobStatus jobs).
Proof. pb_always; tauto. Qed.
Lemma reconcileJobStatus_keeps jobs : keepsM same_plan (PB.reconcileJobStatus jobs).
Proof. pb_keeps; done. Qed.
Lemma cleanupJobs_no_job jobs : alwaysM no_job (PB.cleanupJobs jobs).
Proof. pb_always; tauto. Qed.
Lemma cleanupJobs_keeps jobs : keepsM same_plan (PB.cleanupJobs jobs).
Proof. pb_keeps; done. Qed.
Lemma deleteJobSync_no_job job : alwaysM no_job (PB.deleteJobSync job).
Proof. pb_always; tauto. Qed.
Lemma deleteJobSync_keeps job : keepsM same_plan (PB.deleteJobSync job).
Proof. pb_keeps; done. Qed.
Lemma reconcileServiceAccount_no_job : alwaysM no_job PB.reconcileServiceAccount.
Proof. pb_always; tauto. Qed.
Lemma reconcileServiceAccount_keeps : keepsM same_plan PB.reconcileServiceAccount.
Proof. pb_keeps; done. Qed.
Lemma reconcileStorage_no_job : alwaysM no_job PB.reconcileStorage.
Proof. pb_always; tauto. Qed.
Lemma reconcileStorage_keeps : keepsM same_plan PB.reconcileStorage.
Proof. pb_keeps; done. Qed.
Lemma targetPodIndex_no_job mdb : alwaysM no_job (PB.physicalBackupTargetPodIndex mdb).
Proof. pb_always; tauto. Qed.

Lemma targetPodIndex_keeps mdb : keepsM same_plan (PB.physicalBackupTargetPodIndex mdb).
Proof. pb_keeps; done. Qed.

Lemma wpM_frame {A} (P : event pbop → Prop) (m : M PhysicalBackup pbop A) b Q :
  alwaysM P m → keepsM same_plan m → wpM m b Q →
  wpM m b (λ t b' r, Forall P t ∧ same_plan b b' ∧ Q t b' r).
Proof. intros HP Hk HQ. apply wpM_conj; [by apply alwaysM_wpM|]. apply wpM_conj; [apply Hk|done]. Qed.

(** ** The Pod a backup is taken from: the primary of a single server, a ready secondary of a
    cluster. *)
Definition target_pod (mdb : MariaDB) (i : Z) (t : pbtrace) : Prop :=
  ∃ primary, st_CurrentPrimaryPodIndex (m_Status mdb) = Some primary ∧
    (IsHAEnabled mdb = false ∧ i = primary ∨
     IsHAEnabled mdb = true ∧ i ≠ primary ∧ ∃ pods p,
       Ev (PBase (KListPods (WithMariaDBSelectorLabels mdb ∅) (Namespace (m_meta mdb)))) (Ok pods) ∈ t ∧
       p ∈ pods ∧ PodIndex (pod_Name p) = Ok i ∧ PodReady p = true).

Lemma target_pod_incl mdb i t t' : t ⊆ t' → target_pod mdb i t → target_pod mdb i t'.
Proof.
  intros Hs (p & Hp & [?|(? & ? & pods & q & Hin & ?)]); exists p; (split; [done|]); [by left|right].
  split_and!; [done|done|]. exists pods, q. split; [by apply Hs|done].
Qed.

Lemma targetPodIndex_ok mdb : okM (PB.physicalBackupTargetPodIndex mdb) (target_pod mdb).
Proof.
  intros b. unfold PB.physicalBackupTargetPodIndex.
  destruct (st_CurrentPrimaryPodIndex (m_Status mdb)) as [primary|] eqn:Hp; [|by wp_step].
  destruct (IsHAEnabled mdb) eqn:Hha; cbn [negb].
  2: { wp_step. intros i [= <-]. exists primary. auto. }
  do 2 wp_step. apply wpM_hoist. unfold SecondaryPodHealthyIndex, secondaryPodHealthyIndex. rewrite Hp.
  wp_step. wp_step. wp_step; cbn [wrap_err]; [|by wp_auto].
  wp_step. destruct (first_healthy _ _ _) as [i|e] eqn:Hf; [|by wp_auto].
  wp_step. intros i' [= <-]. exists primary. split; [done|right]. rename a into pods.
  apply first_healthy_Ok in Hf as (l1 & p & l2 & Hl & Hi & Hne & Hr & _).
  split_and!; [done|congruence|]. exists pods, p. cbn. split_and!; [set_solver| |done|done].
  apply sortPodList_elem. rewrite Hl. set_solver.
Qed.

Definition records_schedule (now : Z) (t : pbtrace) : Prop :=
  ∃ b1 b2, Ev (PPatchStatus b1 b2) (Ok tt) ∈ t ∧ pb_LastScheduleTime (pb_Status b2) = Some now ∧
    pb_LastScheduleCheckTime (pb_Status b2) = Some now.

(** What precedes the creation of a Job, in [createJob]. *)
Definition job_prepared (mdb : MariaDB) (b : PhysicalBackup) (now : Z) (pod : Pod) (file : string) (t : pbtrace) : Prop :=
  PB.getBackupFileName b now = Ok file ∧ records_schedule now t ∧
  ∃ i, target_pod mdb i t ∧
    Ev (PBase (KGetPod (mkNamespacedName (PodName (m_meta mdb) i) (Namespace (m_meta mdb))))) (Ok pod) ∈ t.

Definition job_key (mdb : MariaDB) (b : PhysicalBackup) (now : Z) : NamespacedName :=
  mkNamespacedName (PB.getObjectName b now) (Namespace (m_meta mdb)).

Inductive job_outcome (mdb : MariaDB) (b : PhysicalBackup) (now : Z) : pbtrace → result ctrl_Result → Prop :=
  | job_error t e : Forall no_job t → job_outcome mdb b now t (Err e)
  | job_no_target t : Forall no_job t → job_outcome mdb b now t (Ok (requeue_after (5 * Second)))
  | job_created t pod file ans : Forall no_job t → job_prepared mdb b now pod file t →
      job_outcome mdb b now (t ++ [Ev (PCreateJob (job_key mdb b now) pod file) ans])
        (wrap_err "error creating Job" ans ≫= λ _, Ok Result_zero).

Lemma getBackupFileName_same b b' now : same_plan b b' → PB.getBackupFileName b' now = PB.getBackupFileName b now.
Proof. intros (_ & Hs & _). unfold PB.getBackupFileName. by rewrite Hs. Qed.

Lemma createJob_spec mdb now sch b :
  wpM (PB.createJob mdb now sch) b (λ t _ r, job_outcome mdb b now t r).
Proof.
  unfold PB.createJob. do 2 wp_step.
  eapply wpM_mono; [|apply (wpM_frame no_job); [apply targetPodIndex_no_job|apply targetPodIndex_keeps|apply targetPodIndex_ok]].
  intros t b1 [i|err] (Ht & Hs & Hi); [|destruct (errors_Is _ _); wp_step; rewrite app_nil_r; by constructor].
  specialize (Hi i eq_refl). wp_step. wp_step. apply wpM_hoist, wpM_call. intros [pod|e]; cbn [wrap_err].
  2: { apply job_error. apply Forall_app_2; [done|]. repeat constructor. tauto. }
  do 4 wp_step. apply wpM_lift. rewrite (getBackupFileName_same b) by done.
  destruct (PB.getBackupFileName b now) as [file|e] eqn:Hfile; cbn [wrap_err].
  2: { apply job_error. apply Forall_app_2; [done|]. repeat constructor. tauto. }
  destruct Hs as (Hmeta & Hspec & Hlast).
  assert (mkNamespacedName (PB.getObjectName b1 now) (Namespace (m_meta mdb)) = job_key mdb b now) as ->.
  { unfold job_key, PB.getObjectName. by rewrite Hmeta. }
  do 3 wp_step. 2: { apply job_error. apply Forall_app_2; [done|]. repeat constructor; tauto. }
  wp_step. unfold PB.record_schedule. wp_step. pb_step. destruct r_patch as [[]|e]; cbn [wrap_err].
  2: { apply job_error. apply Forall_app_2; [done|]. repeat constructor; tauto. }
  wp_step. wp_step. apply wpM_call. intros ans. set (ev1 := hoist_event _ <$> _).
  set (pre := t ++ ev1 ++ [Ev (PBuildJob (job_key mdb b now) b1 mdb pod file) (Ok a); Ev (PPatchStatus b1 b_patch) (Ok ())]).
  assert (job_outcome mdb b now (pre ++ [Ev (PCreateJob (job_key mdb b now) pod file) ans])
    (wrap_err "error creating Job" ans ≫= λ _, Ok Result_zero)) as Hout.
  { apply job_created.
    - apply Forall_app_2; [done|]. repeat constructor; tauto.
    - split_and!; [done| |].
      + exists b1, b_patch. split; [unfold pre; set_solver|]. by destruct sch.
      + exists i. split; [eapply target_pod_incl; [|exact Hi]; unfold pre; set_solver|]. unfold pre, ev1. set_solver. }
  unfold pre in Hout. rewrite <- !(assoc_L (++)) in Hout. destruct ans as [[]|e]; cbn [wrap_err]; [wp_step|]; exact Hout.
Qed.

(** ** A run over the Jobs *)
Abbreviation all_complete := (Forall (λ j, IsJobComplete (Some j) = true)).

Lemma complete_not_running job : IsJobComplete (Some job) = true → IsJobRunning (Some job) = false.
Proof. intros Hc. cbn in *. rewrite Hc. by rewrite andb_false_r. Qed.

Lemma waitForRunningJobs_no_job jobs : alwaysM no_job (PB.waitForRunningJobs jobs).
Proof. induction jobs; cbn [PB.waitForRunningJobs]; pb_always; try tauto. all: done. Qed.
Lemma waitForRunningJobs_keeps jobs : keepsM same_plan (PB.waitForRunningJobs jobs).
Proof. induction jobs; cbn [PB.waitForRunningJobs]; pb_keeps; done. Qed.
Lemma waitForRunningJobs_result jobs b : wpM (PB.waitForRunningJobs jobs) b (λ t b' r,
  ∀ res, r = Ok res → all_complete jobs ∧ res = Result_zero ∨
    ¬ all_complete jobs ∧ (res = requeue ∨ res = requeue_after (10 * Second))).
Proof.
  induction jobs as [|job jobs IH]; cbn [PB.waitForRunningJobs].
  { wp_step. intros res [= <-]. left. split; [constructor|done]. }
  destruct (IsJobRunning (Some job)) eqn:Hr.
  - assert (¬ all_complete (job :: jobs)) as Hn.
    { intros [Hc _]%Forall_cons. apply complete_not_running in Hc. congruence. }
    do 2 wp_step. apply wpM_skip; [|done]. intros [] b1; [|wp_step; intros res [= <-]; auto].
    wp_step. wp_step. eapply wpM_mono; [|apply wpM_True]. intros t b2 [[]|e] _; cbn [wrap_err]; [|done].
    wp_step. intros res [= <-]. auto.
  - destruct (IsJobComplete (Some job)) eqn:Hc; cbn [negb].
    + eapply wpM_mono; [|apply IH]. intros t b' r Hres res Hr'. destruct (Hres res Hr') as [[Ha ->]|[Ha ?]];
        [left|right]; (split; [|done]); [by constructor|by intros [_ ?]%Forall_cons].
    + wp_step. intros res [= <-]. right. split; [intros [? _]%Forall_cons; congruence|auto].
Qed.

Definition listed (b : PhysicalBackup) (jobs : list Job) (t : pbtrace) : Prop :=
  Ev (PListJobs (Namespace (pb_meta b)) (Name (pb_meta b))) (Ok jobs) ∈ t.

Inductive jobs_outcome (mdb : MariaDB) (b : PhysicalBackup) : pbtrace → result ctrl_Result → Prop :=
  | jobs_error t e : Forall no_job t → jobs_outcome mdb b t (Err e)
  | jobs_waiting t jobs res : Forall no_job t → listed b jobs t → ¬ all_complete jobs →
      res = requeue ∨ res = requeue_after (10 * Second) → jobs_outcome mdb b t (Ok res)
  | jobs_idle t u jobs b1 b2 r : Forall no_job t → listed b jobs t → all_complete jobs → same_plan b b1 →
      idle b1 (length jobs) u b2 r → jobs_outcome mdb b (t ++ u) r
  | jobs_due t u jobs now r : Forall no_job t → listed b jobs t → all_complete jobs →
      Ev (PBase TimeNow) now ∈ t → due b (length jobs) now → job_outcome mdb b now u r →
      jobs_outcome mdb b (t ++ u) r.

Lemma due_same b b' n now : same_plan b b' → due b' n now → due b n now.
Proof. intros (_ & Hs & Hl). unfold due. by rewrite Hs, Hl. Qed.
Lemma idle_no_job b n t b' r : idle b n t b' r → Forall no_job t.
Proof. destruct 1; repeat constructor; tauto. Qed.
Lemma job_outcome_same mdb b b' now t r : same_plan b b' → job_outcome mdb b' now t r → job_outcome mdb b now t r.
Proof.
  intros Hs. destruct 1 as [| |t pod file ans Ht (Hf & Hp)]; [by constructor..|].
  assert (job_key mdb b' now = job_key mdb b now) as ->.
  { unfold job_key, PB.getObjectName. by destruct Hs as (-> & _). }
  apply job_created; [done|]. split; [|done]. by rewrite (getBackupFileName_same b) in Hf.
Qed.

(** Run a step of the controller that neither creates a Job nor changes the plan. *)
Lemma wpM_framed {A B} (m : M PhysicalBackup pbop A) (f : A → M PhysicalBackup pbop B) b Q :
  alwaysM no_job m → keepsM same_plan m →
  (∀ t b' a, Forall no_job t → same_plan b b' → wpM (f a) b' (λ t' b'' r, Q (t ++ t') b'' r)) →
  (∀ t b' e, Forall no_job t → Q t b' (Err e)) → wpM (bind m f) b Q.
Proof.
  intros Ha Hk Hf He. wp_step. eapply wpM_mono; [|apply (wpM_frame no_job m b (λ _ _ _, True) Ha Hk), wpM_True].
  intros t b' [a|e] (Ht & Hs & _); auto.
Qed.

Lemma reconcileJobs_spec mdb b : wpM (PB.reconcileJobs mdb) b (λ t _ r, jobs_outcome mdb b t r).
Proof.
  unfold PB.reconcileJobs. wp_step. wp_step. unfold PB.ListJobs. do 2 wp_step.
  wp_step; cbn [wrap_err]; [rename a into jobs|apply jobs_error; repeat constructor; tauto].
  set (ev := Ev (PListJobs _ _) _).
  apply wpM_framed; [apply alwaysM_wrap, reconcileJobStatus_no_job|apply keepsM_wrap, reconcileJobStatus_keeps| |];
    [|by intros; apply jobs_error; constructor; [tauto|]].
  intros t1 b1 _ Ht1 Hs1.
  apply wpM_framed; [apply alwaysM_wrap, cleanupJobs_no_job|apply keepsM_wrap, cleanupJobs_keeps| |].
  2: { intros t2 _ e Ht2. apply jobs_error. constructor; [tauto|]. by apply Forall_app_2. }
  intros t2 b2 _ Ht2 Hs2. wp_step.
  eapply wpM_mono; [|apply (wpM_frame no_job);
    [apply waitForRunningJobs_no_job|apply waitForRunningJobs_keeps|apply waitForRunningJobs_result]].
  intros t3 b3 [res|e] (Ht3 & Hs3 & Hres).
  2: { apply jobs_error. constructor; [tauto|]. repeat apply Forall_app_2; done. }
  specialize (Hres res eq_refl). destruct (Result_IsZero res) eqn:Hz; cbn [negb].
  2: { wp_step. destruct Hres as [[_ ->]|[Hn Hres]]; [done|]. eapply (jobs_waiting _ _ _ jobs); try done; [|by left].
       constructor; [tauto|]. repeat apply Forall_app_2; done. }
  destruct Hres as [[Hall ->]|[_ [-> | ->]]]; [|done..].
  apply wpM_framed; [apply alwaysM_wrap, reconcileServiceAccount_no_job|apply keepsM_wrap, reconcileServiceAccount_keeps| |].
  2: { intros t4 _ e Ht4. apply jobs_error. constructor; [tauto|]. repeat apply Forall_app_2; done. }
  intros t4 b4 _ Ht4 Hs4.
  apply wpM_framed; [apply alwaysM_wrap, reconcileStorage_no_job|apply keepsM_wrap, reconcileStorage_keeps| |].
  2: { intros t5 _ e Ht5. apply jobs_error. constructor; [tauto|]. repeat apply Forall_app_2; done. }
  intros t5 b5 _ Ht5 Hs5.
  assert (same_plan b b5) as Hs by (do 4 (etrans; [eassumption|]); done).
  eapply wpM_mono; [|apply (reconcileTemplate_spec _ _ _ (λ now t _ r, job_outcome mdb b5 now t r));
    intros; apply createJob_spec].
  set (pre := ev :: t1 ++ t2 ++ t3 ++ t4 ++ t5).
  assert (Forall no_job pre) as Hpre by (constructor; [tauto|]; repeat apply Forall_app_2; done).
  assert (∀ u, ev :: t1 ++ t2 ++ t3 ++ t4 ++ t5 ++ u = pre ++ u) as Heq.
  { intros u. unfold pre. cbn. by rewrite <- !(assoc_L (++)). }
  intros u b6 r [Hidle|(now & u' & Hdue & -> & Hout)]; cbn [app]; rewrite Heq.
  - eapply (jobs_idle _ _ pre u jobs b5 b6); try done. by left.
  - replace (pre ++ Ev (PBase TimeNow) now :: u') with ((pre ++ [Ev (PBase TimeNow) now]) ++ u')
      by by rewrite <- (assoc_L (++)).
    eapply (jobs_due _ _ _ u' jobs now); [|by left|done| | |by eapply job_outcome_same].
    + apply Forall_app_2; [done|]. repeat constructor. tauto.
    + set_solver.
    + by eapply due_same.
Qed.

(** ** A run over the snapshots *)
Definition lock_query : string := "FLUSH TABLES WITH READ LOCK;".
Definition unlock_query : string := "UNLOCK TABLES;".
Definition locked (i : Z) : event pbop := Ev (PBase (SqlExec i lock_query)) (Reply tt).
Definition unlock (i : Z) (x : reply unit) : event pbop := Ev (PBase (SqlExec i unlock_query)) x.

(** Neither a snapshot nor a statement on the tables. *)
Definition calm (e : event pbop) : Prop :=
  match ev_op e with PCreateSnapshot _ _ | PBase (SqlExec _ _) => False | _ => True end.
(** No statement while the lock of the database [i] is held, and only snapshots of its volume. *)
Definition held (mdb : MariaDB) (i : Z) (e : event pbop) : Prop :=
  match ev_op e with
  | PCreateSnapshot _ pvc => pvc = PVCKey mdb "storage" i
  | PBase (SqlExec _ _) => False
  | _ => True
  end.

(** The tables are locked at most once, snapshots are created only while they are, and they are
    unlocked whatever happens. *)
Inductive bracketed (mdb : MariaDB) : pbtrace → Prop :=
  | bracket_none t : Forall calm t → bracketed mdb t
  | bracket_refused t1 t2 i f : Forall calm t1 → Forall calm t2 →
      bracketed mdb (t1 ++ Ev (PBase (SqlExec i lock_query)) (Fail f) :: t2)
  | bracket_lock t1 u t2 i x : Forall calm t1 → Forall (held mdb i) u → Forall calm t2 →
      bracketed mdb (t1 ++ locked i :: u ++ unlock i x :: t2).

Lemma bracketed_prepend mdb t t' : Forall calm t → bracketed mdb t' → bracketed mdb (t ++ t').
Proof.
  intros Ht. destruct 1 as [t'|t1 t2 i f|t1 u t2 i x]; rewrite ?(assoc_L (++)).
  - apply bracket_none. by apply Forall_app_2.
  - apply bracket_refused; [|done]. by apply Forall_app_2.
  - apply bracket_lock; [|done|done]. by apply Forall_app_2.
Qed.

Lemma bracketed_append mdb t t' : Forall calm t' → bracketed mdb t → bracketed mdb (t ++ t').
Proof.
  intros Ht. destruct 1 as [t|t1 t2 i f|t1 u t2 i x]; rewrite <- ?(assoc_L (++)); cbn [app].
  - apply bracket_none. by apply Forall_app_2.
  - apply bracket_refused; [done|]. by apply Forall_app_2.
  - rewrite <- (assoc_L (++)). cbn [app]. apply bracket_lock; [done|done|]. by apply Forall_app_2.
Qed.

Definition snapshot_key (mdb : MariaDB) (b : PhysicalBackup) (now : Z) : NamespacedName :=
  mkNamespacedName (PB.getObjectName b now) (Namespace (m_meta mdb)).
Definition provisioned (key : NamespacedName) (t : pbtrace) : Prop :=
  ∃ s, Ev (PGetSnapshot key) (Ok s) ∈ t ∧ IsVolumeSnapshotProvisioned s = true.
Lemma provisioned_app key t1 t2 t3 : provisioned key t2 → provisioned key (t1 ++ t2 ++ t3).
Proof. intros (s & Hin & Hs). exists s. split; [|done]. set_solver. Qed.

Lemma targetPodIndex_calm mdb : alwaysM calm (PB.physicalBackupTargetPodIndex mdb).
Proof. pb_always; done. Qed.
Lemma snapshot_locked_held key mdb i : alwaysM (held mdb i) (PB.snapshot_locked key mdb i).
Proof. pb_always; done. Qed.
Lemma snapshot_locked_keeps key mdb i : keepsM same_plan (PB.snapshot_locked key mdb i).
Proof. pb_keeps; done. Qed.

Lemma snapshot_locked_ok key mdb i : okM (PB.snapshot_locked key mdb i) (λ _ t, provisioned key t).
Proof.
  assert (∀ t t', provisioned key t' → provisioned key (t ++ t')) as Hpre.
  { intros t t' Hp. pose proof (provisioned_app key t t' [] Hp) as Hp'. by rewrite app_nil_r in Hp'. }
  unfold PB.snapshot_locked. do 3 (eapply okM_bind; [by apply okM_true with (Q := λ _ _, True)|];
    intros ? ? _; eapply okM_mono; [intros ? ?; apply Hpre|]).
  eapply okM_bind; [by apply okM_true with (Q := λ _ _, True)|].
  intros ? ? _. eapply okM_mono; [intros ? ?; apply Hpre|]. apply okM_poll_until; [done|].
  eapply okM_bind; [apply (okM_call _ (λ s t, t = [Ev (PGetSnapshot key) (Ok s)])); done|].
  intros s ? ->. destruct (IsVolumeSnapshotProvisioned s) eqn:Hs.
  - apply okM_ret. exists s. split; [set_solver|done].
  - eapply okM_bind; [by apply okM_true with (Q := λ _ _, True)|]. intros ???.
    eapply okM_bind; [by apply okM_true with (Q := λ _ _, True)|]. intros ???. apply okM_throw.
Qed.

Lemma createVolumeSnapshot_spec key mdb b : wpM (PB.createVolumeSnapshot key mdb) b (λ t b' r,
  bracketed mdb t ∧ same_plan b b' ∧ ∀ res, r = Ok res →
    res = requeue_after (5 * Second) ∨ res = Result_zero ∧ provisioned key t).
Proof.
  unfold PB.createVolumeSnapshot. do 2 wp_step.
  eapply wpM_mono; [|apply (wpM_frame calm); [apply targetPodIndex_calm|apply targetPodIndex_keeps|apply wpM_True]].
  intros t1 b1 [i|e] (Ht1 & Hs1 & _).
  2: { destruct (errors_Is _ _); wp_step; rewrite app_nil_r;
         (split_and!; [by apply bracket_none|done|]); [intros res [= <-]; by left|done]. }
  wp_step. wp_step. apply wpM_hoist, wpM_call_reply. intros [[]|f]; cbn [of_reply wrap_err].
  2: { split_and!; [|done|done]. apply bracket_none, Forall_app_2; [done|]. by repeat constructor. }
  wp_step. wp_step. apply wpM_hoist. unfold LockTablesWithReadLock, Exec. apply wpM_call_reply.
  set (t2 := hoist_event _ <$> _). assert (Forall calm (t1 ++ t2)) as Ht2 by (apply Forall_app_2; [done|]; by repeat constructor).
  intros [[]|f]; cbn [of_reply wrap_err].
  2: { split_and!; [|done|done]. rewrite (assoc_L (++)). by apply bracket_refused; [|constructor]. }
  wp_step. wp_step. eapply wpM_mono; [|apply wpM_frame; [apply snapshot_locked_held|apply snapshot_locked_keeps|
    apply (snapshot_locked_ok key mdb i)]].
  intros u b2 r (Hu & Hs2 & Hr). wp_step. wp_step. apply wpM_hoist. unfold UnlockTables, Exec. apply wpM_call_reply.
  intros x. assert (∀ w, Forall calm w → bracketed mdb (t1 ++ t2 ++ locked i :: u ++ unlock i x :: w)) as Hb.
  { intros w Hw. rewrite (assoc_L (++) t1). by apply bracket_lock. }
  assert (same_plan b b2) as Hs by by etrans.
  wp_step. wp_step. destruct r as [[]|e]; cbn [app].
  - wp_step. split_and!; [by apply Hb|done|]. intros res [= <-]. right. split; [done|].
    rewrite !(assoc_L (++)). change (?h :: ?w) with ([h] ++ w).
    destruct (Hr tt eq_refl) as (sn & Hin & Hsn). exists sn. split; [|done]. set_solver.
  - split_and!; [by apply Hb|done|done].
Qed.

Lemma scheduleSnapshot_spec mdb now sch b : wpM (PB.scheduleSnapshot mdb now sch) b (λ t _ r,
  bracketed mdb t ∧ ∀ res, r = Ok res → res = requeue_after (5 * Second) ∨
    res = Result_zero ∧ provisioned (snapshot_key mdb b now) t ∧ records_schedule now t).
Proof.
  unfold PB.scheduleSnapshot. do 2 wp_step.
  eapply wpM_mono; [|apply (wpM_frame calm); [apply targetPodIndex_calm|apply targetPodIndex_keeps|apply wpM_True]].
  intros t1 b1 r1 (Ht1 & Hs1 & _). set (stop := match r1 with Ok _ => false | Err _ => _ end). destruct stop.
  { wp_step. rewrite app_nil_r. split; [by apply bracket_none|]. intros res [= <-]. by left. }
  do 3 wp_step. assert (mkNamespacedName (PB.getObjectName b1 now) (Namespace (m_meta mdb)) = snapshot_key mdb b now) as ->.
  { unfold snapshot_key, PB.getObjectName. by destruct Hs1 as (-> & _). }
  eapply wpM_mono; [|apply createVolumeSnapshot_spec]. intros t2 b2 [res|e] (Hb & Hs2 & Hres).
  2: { split; [by apply bracketed_prepend|done]. }
  destruct (Hres res eq_refl) as [-> |[-> Hp]].
  { replace (negb (Result_IsZero (requeue_after (5 * Second)))) with true by done. wp_step. rewrite app_nil_r. split; [by apply bracketed_prepend|]. intros res [= <-]. by left. }
  replace (negb (Result_IsZero Result_zero)) with false by done.
  wp_step. unfold PB.record_schedule. wp_step. pb_step.
  assert (∀ w, Forall calm w → bracketed mdb (t1 ++ t2 ++ w)) as Hbr.
  { intros w Hw. apply bracketed_prepend; [done|]. by apply bracketed_append. }
  destruct r_patch as [[]|e]; cbn [wrap_err]; [wp_step|split; [apply Hbr; by repeat constructor|done]].
  split; [apply Hbr; by repeat constructor|]. intros res [= <-]. right. split_and!; [done|by apply provisioned_app|].
  exists b2, b_patch. split; [set_solver|]. by destruct sch.
Qed.

Lemma reconcileSnapshotStatus_calm l : alwaysM calm (PB.reconcileSnapshotStatus l).
Proof. pb_always; done. Qed.
Lemma reconcileSnapshotStatus_keeps l : keepsM same_plan (PB.reconcileSnapshotStatus l).
Proof. pb_keeps; done. Qed.
Lemma cleanupSnapshots_calm l : alwaysM calm (PB.cleanupSnapshots l).
Proof. pb_always; done. Qed.
Lemma cleanupSnapshots_keeps l : keepsM same_plan (PB.cleanupSnapshots l).
Proof. pb_keeps; done. Qed.
Lemma waitForProvisioned_calm l : alwaysM calm (PB.waitForProvisionedSnapshots l).
Proof. induction l; cbn [PB.waitForProvisionedSnapshots]; pb_always; done. Qed.
Lemma waitForProvisioned_keeps l : keepsM same_plan (PB.waitForProvisionedSnapshots l).
Proof. induction l; cbn [PB.waitForProvisionedSnapshots]; pb_keeps; done. Qed.
Lemma waitForProvisioned_result l b : wpM (PB.waitForProvisionedSnapshots l) b (λ t b' r,
  ∀ res, r = Ok res → res = Result_zero ∨ res = requeue ∨ res = requeue_after (10 * Second)).
Proof.
  induction l as [|sn l IH]; cbn [PB.waitForProvisionedSnapshots]; [wp_step; intros res [= <-]; auto|].
  destruct (IsVolumeSnapshotProvisioned sn); [done|]. do 2 wp_step. apply wpM_skip; [|done].
  intros [] b1; [|wp_step; intros res [= <-]; auto]. wp_step. wp_step.
  eapply wpM_mono; [|apply wpM_True]. intros t b2 [[]|e] _; cbn [wrap_err]; [|done]. wp_step. intros res [= <-]. auto.
Qed.

Lemma idle_calm b n t b' r : idle b n t b' r → Forall calm t.
Proof. destruct 1; by repeat constructor. Qed.

(** The controller runtime calls again when asked to, or after a positive delay. *)
Definition requeues (r : ctrl_Result) : bool := Requeue r || bool_decide (0 < RequeueAfter r).

Definition suspended (b : PhysicalBackup) : Prop :=
  ∃ sch, pb_Schedule (pb_Spec b) = Some sch ∧ pbs_Suspend sch = true.
(** The first check of a schedule without an immediate backup: the run read an instant after
    which the cron expression has no activation, and recorded that instant as checked. *)
Definition never_activates (b : PhysicalBackup) (t : pbtrace) : Prop :=
  ∃ sch s now b1 b2, pb_Schedule (pb_Spec b) = Some sch ∧ cron_Parse (pbs_Cron sch) = Ok s ∧
    pb_LastScheduleCheckTime (pb_Status b) = None ∧ pbs_Immediate sch = Some false ∧
    Ev (PBase TimeNow) now ∈ t ∧ cron_Next s now = Time_zero ∧
    Ev (PPatchStatus b1 b2) (Ok tt) ∈ t ∧ pb_LastScheduleCheckTime (pb_Status b2) = Some now.
Lemma never_activates_incl b b' t t' : pb_Schedule (pb_Spec b') = pb_Schedule (pb_Spec b) →
  pb_LastScheduleCheckTime (pb_Status b') = pb_LastScheduleCheckTime (pb_Status b) → t ⊆ t' →
  never_activates b' t → never_activates b t'.
Proof.
  intros Hs Hl Ht (sch & s & now & b1 & b2 & ? & ? & ? & ? & ? & ? & ? & ?).
  exists sch, s, now, b1, b2. rewrite <- Hs, <- Hl. split_and!; auto.
Qed.
(** A backup without a schedule that has been taken. *)
Definition taken_once (b : PhysicalBackup) (n : nat) : Prop := pb_Schedule (pb_Spec b) = None ∧ n ≠ 0%nat.

Lemma Time_Sub_pos t u : u < t → 0 < Time_Sub t u.
Proof. unfold Time_Sub, saturate. assert (int_min < 0 < int_max) by done. lia. Qed.

Lemma idle_stops b n t b' res : idle b n t b' (Ok res) → requeues res = false →
  suspended b ∨ taken_once b n ∨ never_activates b t.
Proof.
  intros Hi Hq. remember (Ok res) as r eqn:Hr. destruct Hi as [sch|? ?|sch|sch s last now ??? Hlt|sch s now b' r ?? Hl Hi Hl']; simplify_eq.
  - left. by exists sch.
  - right; left. done.
  - exfalso. unfold requeues in Hq. cbn in Hq. apply Time_Sub_pos in Hlt. rewrite bool_decide_true in Hq; done.
  - destruct r as [[]|]; cbn in Hr; [|done]. injection Hr as <-. destruct (cron_Next_later s now) as [Hlt|Hz].
    + exfalso. unfold requeues in Hq. cbn in Hq. apply Time_Sub_pos in Hlt. rewrite bool_decide_true in Hq; done.
    + right; right. exists sch, s, now, b, b'. split_and!; [done..|by left|done|right; by left|done].
Qed.

Definition listed_snapshots (b : PhysicalBackup) (l : list VolumeSnapshot) (t : pbtrace) : Prop :=
  Ev (PListSnapshots (Namespace (pb_meta b)) (WithPhysicalBackupSelectorLabels b ∅)) (Ok l) ∈ t.

Lemma reconcileSnapshots_spec mdb b : wpM (PB.reconcileSnapshots mdb) b (λ t _ r,
  bracketed mdb t ∧ ∀ res, r = Ok res → requeues res = false →
    suspended b ∨ never_activates b t ∨ (∃ l, listed_snapshots b l t ∧ taken_once b (length l)) ∨
    ∃ now, provisioned (snapshot_key mdb b now) t ∧ records_schedule now t).
Proof.
  assert (∀ e t, Forall calm t → bracketed mdb t ∧ ∀ res : ctrl_Result, Err e = Ok res → requeues res = false →
    suspended b ∨ never_activates b t ∨ (∃ l, listed_snapshots b l t ∧ taken_once b (length l)) ∨
    ∃ now, provisioned (snapshot_key mdb b now) t ∧ records_schedule now t) as Herr.
  { intros e t Ht. split; [by apply bracket_none|done]. }
  unfold PB.reconcileSnapshots, PB.ListVolumeSnapshots. wp_step.
  wp_step; [rename a into exist|by apply Herr; repeat constructor].
  destruct exist; cbn [negb].
  2: { wp_step. split; [apply bracket_none; by repeat constructor|]. by intros res [= <-]. }
  do 4 wp_step. wp_step; cbn [wrap_err]; [rename a into l|by apply Herr; repeat constructor].
  set (ev1 := Ev PVolumeSnapshotExist _). set (ev2 := Ev (PListSnapshots _ _) _).
  assert (∀ t, Forall calm t → Forall calm (ev1 :: ev2 :: t)) as Hc by (intros; by repeat constructor).
  assert (∀ {A} (m : M PhysicalBackup pbop A) ctx b Q, alwaysM calm m → keepsM same_plan m → wpM m b Q →
    wpM (wrap ctx m) b (λ t b' r, Forall calm t ∧ same_plan b b' ∧ ∃ r', r = wrap_err ctx r' ∧ Q t b' r')) as Hstep.
  { intros A m ctx b' Q Ha Hk HQ. wp_step. eapply wpM_mono; [|by apply (wpM_frame calm m b' Q)]. naive_solver. }
  wp_step. eapply wpM_mono; [|apply Hstep; [apply reconcileSnapshotStatus_calm|apply reconcileSnapshotStatus_keeps|apply wpM_True]].
  intros t1 b1 [[]|e] (Ht1 & Hs1 & _); [|by apply Herr, Hc].
  wp_step. eapply wpM_mono; [|apply Hstep; [apply cleanupSnapshots_calm|apply cleanupSnapshots_keeps|apply wpM_True]].
  intros t2 b2 [[]|e] (Ht2 & Hs2 & _); [|by apply Herr, Hc, Forall_app_2].
  wp_step. eapply wpM_mono; [|apply (wpM_frame calm); [apply waitForProvisioned_calm|apply waitForProvisioned_keeps|apply waitForProvisioned_result]].
  intros t3 b3 [res|e] (Ht3 & Hs3 & Hres); [|by apply Herr, Hc; repeat apply Forall_app_2].
  assert (Forall calm (ev1 :: ev2 :: t1 ++ t2 ++ t3)) as Hpre by (apply Hc; by repeat apply Forall_app_2).
  specialize (Hres res eq_refl). destruct (Result_IsZero res) eqn:Hz; cbn [negb].
  2: { wp_step. rewrite app_nil_r. split; [by apply bracket_none|].
       intros res' [= <-]. by destruct Hres as [-> |[-> | ->]]. }
  assert (same_plan b b3) as Hs by (do 2 (etrans; [eassumption|]); done).
  eapply wpM_mono; [|apply (reconcileTemplate_spec _ _ _ (λ now t _ r, bracketed mdb t ∧ ∀ res, r = Ok res →
    res = requeue_after (5 * Second) ∨ res = Result_zero ∧ provisioned (snapshot_key mdb b3 now) t ∧ records_schedule now t));
    intros; apply scheduleSnapshot_spec].
  assert (∀ u, ev1 :: ev2 :: t1 ++ t2 ++ t3 ++ u = (ev1 :: ev2 :: t1 ++ t2 ++ t3) ++ u) as Heq.
  { intros u. cbn. by rewrite <- !(assoc_L (++)). }
  destruct Hs as (Hmeta & Hspec & Hlast).
  intros u b4 r [Hidle|(now & u' & _ & -> & Hb & Hout)]; rewrite Heq.
  - split; [apply bracketed_prepend; [done|]; by eapply bracket_none, idle_calm|].
    intros res' -> Hq. apply idle_stops in Hidle; [|done]. unfold suspended, taken_once in *.
    rewrite Hspec in Hidle. destruct Hidle as [?|[?|Hn]]; [by left| |].
    2: { right; left. eapply never_activates_incl; [..|exact Hn]; [by rewrite Hspec|done|set_solver]. }
    right; right; left. exists l. split; [right; by left|done].
  - split; [apply bracketed_prepend; [done|]; by apply (bracketed_prepend _ [_]); [repeat constructor|]|].
    intros res' -> Hq. destruct (Hout res' eq_refl) as [-> |(-> & Hp & Hrec)]; [done|].
    right; right; right. exists now. unfold snapshot_key, PB.getObjectName in *. rewrite Hmeta in Hp.
    replace (Ev (PBase TimeNow) now :: u') with ([Ev (PBase TimeNow) now] ++ u') by done. rewrite (assoc_L (++)).
    destruct Hp as (sn & Hin & Hsn), Hrec as (x & y & Hxy & Hrec). split.
    + exists sn. split; [|done]. apply elem_of_app. by right.
    + exists x, y. split; [|done]. apply elem_of_app. by right.
Qed.

(** ** The whole run *)
Lemma waitForRunningJobs_calm jobs : alwaysM calm (PB.waitForRunningJobs jobs).
Proof. induction jobs; cbn [PB.waitForRunningJobs]; pb_always; done. Qed.
Lemma waitForProvisioned_no_job l : alwaysM no_job (PB.waitForProvisionedSnapshots l).
Proof. induction l; cbn [PB.waitForProvisionedSnapshots]; pb_always; first [done|tauto]. Qed.
Lemma reconcileJobs_calm mdb : alwaysM calm (PB.reconcileJobs mdb).
Proof.
  unfold PB.reconcileJobs.
  repeat first [apply waitForRunningJobs_calm|apply alwaysM_bind; [|intros ?]|apply alwaysM_wrap]; pb_always; done.
Qed.
Lemma reconcileSnapshots_no_job mdb : alwaysM no_job (PB.reconcileSnapshots mdb).
Proof.
  unfold PB.reconcileSnapshots.
  apply alwaysM_bind; [pb_always; tauto|]. intros exist. destruct (negb exist); [pb_always|].
  repeat first [apply waitForProvisioned_no_job|apply alwaysM_bind; [|intros ?]|apply alwaysM_wrap]; pb_always; tauto.
Qed.

(** Every default keeps the schedule, and the compression up to the name of none. *)
Definition keeps_spec (f : PhysicalBackupSpec → PhysicalBackupSpec) : Prop := ∀ s,
  pb_Schedule (f s) = pb_Schedule s ∧
  (pb_Compression (f s) = pb_Compression s ∨ pb_Compression s = "" ∧ pb_Compression (f s) = CompressNone).
Lemma keeps_spec_comp f g : keeps_spec f → keeps_spec g → keeps_spec (λ s, f (g s)).
Proof.
  intros Hf Hg s. destruct (Hf (g s)) as [-> Hf'], (Hg s) as [-> Hg']. split; [done|].
  destruct Hf' as [-> |[Hf' ->]], Hg' as [Hg'|[? Hg']]; rewrite Hg' in *; auto.
Qed.
Lemma SetDefaults_spec b : keeps_spec (λ s, pb_Spec (PhysicalBackup_SetDefaults { b with pb_Spec := s })).
Proof.
  assert (keeps_spec default_MaxRetention) as H1 by (intros s; unfold default_MaxRetention; case_bool_decide; auto).
  assert (keeps_spec default_Timeout) as H2 by (intros s; unfold default_Timeout; destruct (pb_Timeout s); auto).
  assert (keeps_spec default_Compression) as H3 by (intros s; unfold default_Compression; case_bool_decide; auto).
  assert (keeps_spec default_BackoffLimit) as H4 by (intros s; unfold default_BackoffLimit; case_bool_decide; auto).
  assert (keeps_spec default_HistoryLimit) as H5
    by (intros s; unfold default_HistoryLimit; destruct (pb_SuccessfulJobsHistoryLimit s); auto).
  assert (keeps_spec (default_ServiceAccountName (pb_meta b))) as H6
    by (intros s; unfold default_ServiceAccountName; destruct (pb_ServiceAccountName s); auto).
  intros s. unfold PhysicalBackup_SetDefaults. destruct (is_some _).
  - exact (keeps_spec_comp _ _ H2 H1 s).
  - exact (keeps_spec_comp _ _ (keeps_spec_comp _ _ (keeps_spec_comp _ _ H6 H5) (keeps_spec_comp _ _ H4 H3))
      (keeps_spec_comp _ _ H2 H1) s).
Qed.

Lemma SetDefaults_frame b : let b' := PhysicalBackup_SetDefaults b in
  pb_meta b' = pb_meta b ∧ pb_Schedule (pb_Spec b') = pb_Schedule (pb_Spec b) ∧ pb_Status b' = pb_Status b.
Proof. split_and!; [done| |done]. destruct b as [meta s st]. apply (SetDefaults_spec (mkPhysicalBackup meta s st) s). Qed.
Lemma SetDefaults_compression b : let c := pb_Compression (pb_Spec b) in
  pb_Compression (pb_Spec (PhysicalBackup_SetDefaults b)) = c ∨
  c = "" ∧ pb_Compression (pb_Spec (PhysicalBackup_SetDefaults b)) = CompressNone.
Proof. destruct b as [meta s st]. apply (SetDefaults_spec (mkPhysicalBackup meta s st) s). Qed.
Lemma SetDefaults_fileName b now : PB.getBackupFileName (PhysicalBackup_SetDefaults b) now = PB.getBackupFileName b now.
Proof. unfold PB.getBackupFileName. by destruct (SetDefaults_compression b) as [-> |[-> ->]]. Qed.
Lemma SetDefaults_due b n now : due (PhysicalBackup_SetDefaults b) n now → due b n now.
Proof. unfold due. by destruct (SetDefaults_frame b) as (_ & -> & ->). Qed.

Definition read_mariadb (b : PhysicalBackup) (mdb : MariaDB) (t : pbtrace) : Prop :=
  Ev (PBase (KGetMariaDB (ref_key (pb_MariaDBRef (pb_Spec b)) (Namespace (pb_meta b))))) (Ok mdb) ∈ t.

Inductive backup_outcome (b : PhysicalBackup) : pbtrace → result ctrl_Result → Prop :=
  | outcome_early t r : Forall calm t → Forall no_job t → (∀ res, r = Ok res → requeues res = true) →
      backup_outcome b t r
  | outcome_jobs t u mdb r : Forall calm (t ++ u) → Forall no_job t →
      read_mariadb b mdb t →
      jobs_outcome mdb (PhysicalBackup_SetDefaults b) u r → backup_outcome b (t ++ u) r
  | outcome_snapshots t u mdb r : Forall calm t → Forall no_job (t ++ u) → read_mariadb b mdb t → bracketed mdb u →
      (∀ res, r = Ok res → requeues res = false →
         suspended b ∨ never_activates b u ∨ (∃ l, listed_snapshots b l u ∧ taken_once b (length l)) ∨
         ∃ now, provisioned (snapshot_key mdb b now) u ∧ records_schedule now u) →
      backup_outcome b (t ++ u) r.

Lemma Reconcile_backup_spec b : wpM PB.Reconcile_backup b (λ t _ r, backup_outcome b t r).
Proof.
  unfold PB.Reconcile_backup. do 4 wp_step. apply wpM_hoist, wpM_call. intros [mdb|err].
  2: { wp_step. wp_step. pb_step. set (m := multierror _ _). assert (∃ e, m = Err e) as [e ->] by by destruct r_patch; eexists.
       wp_step. apply outcome_early; [by repeat constructor|repeat constructor; tauto|done]. }
  destruct (_ && _).
  { wp_step. wp_step. pb_step. destruct r_patch as [[]|e]; cbn [wrap_err]; [wp_step|];
      (apply outcome_early; [by repeat constructor|repeat constructor; tauto|]); [by intros res [= <-]|done]. }
  wp_step. wp_step. apply wpM_pb_patch. intros r_patch. set (b' := PhysicalBackup_SetDefaults b).
  set (ev1 := hoist_event _ <$> _). set (ev2 := Ev (PPatchBackup b b') r_patch).
  assert (Forall calm (ev1 ++ [ev2])) as Hc by by repeat constructor.
  assert (Forall no_job (ev1 ++ [ev2])) as Hn by (repeat constructor; tauto).
  assert (read_mariadb b mdb (ev1 ++ [ev2])) as Hin by by left.
  destruct r_patch as [[]|e]; cbn [wrap_err]; [|by apply outcome_early].
  apply (wpM_mono _ _ (λ t _ r, backup_outcome b ((ev1 ++ [ev2]) ++ t) r)).
  { intros t _ r. by rewrite <- (assoc_L (++)). }
  generalize dependent (ev1 ++ [ev2]). intros pre Hc Hn Hin.
  unfold PB.reconcile. do 2 wp_step. destruct (is_some _).
  - eapply wpM_mono; [|apply wpM_conj; [apply alwaysM_wpM, (reconcileSnapshots_no_job mdb)|apply reconcileSnapshots_spec]].
    intros u b1 r (Hnu & Hb & Hres). eapply (outcome_snapshots _ _ _ mdb); [done|by apply Forall_app_2|done|done|].
    destruct (SetDefaults_frame b) as (Hmeta & Hsched & Hst). intros res Hr Hq. specialize (Hres res Hr Hq).
    unfold suspended, never_activates, taken_once, snapshot_key, PB.getObjectName, listed_snapshots, WithPhysicalBackupSelectorLabels in *.
    unfold b' in Hres. by rewrite Hmeta, Hsched, ?Hst in Hres.
  - eapply wpM_mono; [|apply wpM_conj; [apply alwaysM_wpM, (reconcileJobs_calm mdb)|apply reconcileJobs_spec]].
    intros u b1 r (Hcu & Hout). eapply (outcome_jobs _ _ _ mdb); [by apply Forall_app_2|done|done|done].
Qed.

Lemma wp_Reconcile req (Q : pbtrace → result ctrl_Result → Prop) :
  (∀ err, let r := match IgnoreNotFound err with Some e => Err e | None => Ok Result_zero end in
     Q [Ev (PGetBackup req) (Err err)] r) →
  (∀ b t r, backup_outcome b t r → Q (Ev (PGetBackup req) (Ok b) :: t) r) →
  wp (PB.Reconcile req) Q.
Proof.
  intros Herr Hok. unfold PB.Reconcile. intros [b|err]; [|by apply Herr]. apply wp_bind.
  eapply wp_mono; [|exact (Reconcile_backup_spec b)]. intros t [b' r] Hout. cbn. rewrite app_nil_r. by apply Hok.
Qed.

(** ** Properties *)

(** C35: a run creates at most one backup Job, as its last action, and only when the backup is
    due at the instant the run read from the clock (not suspended, and past the activation
    after the last check, or the first and immediate one, or the only one), every Job
    of the backup that the API server lists is complete, the status patch that records
    the schedule has been accepted, and the Pod is the primary of a single server or a
    ready secondary of a cluster; the Job and its file carry that instant in their names. *)
Theorem physical_job_only_when_due req : wp (PB.Reconcile req) (λ t _,
  Forall no_job t ∨ ∃ t1 pod file ans b mdb jobs now,
    t = t1 ++ [Ev (PCreateJob (job_key mdb b now) pod file) ans] ∧ Forall no_job t1 ∧
    Ev (PGetBackup req) (Ok b) ∈ t1 ∧
    read_mariadb b mdb t1 ∧
    listed b jobs t1 ∧ all_complete jobs ∧ Ev (PBase TimeNow) now ∈ t1 ∧ due b (length jobs) now ∧
    job_prepared mdb b now pod file t1).
Proof.
  apply wp_Reconcile; [intros err; left; repeat constructor; tauto|]. intros b t r Hout.
  assert (∀ t, Forall no_job t → Forall no_job (Ev (PGetBackup req) (Ok b) :: t)) as Hcons
    by (intros; constructor; [tauto|done]).
  destruct Hout as [t r Hc Hn _|t u mdb r Hc Hn Hmdb Hout|t u mdb r Hc Hn]; [left; by apply Hcons| |left; by apply Hcons].
  assert (∀ u, Forall no_job u → Forall no_job (Ev (PGetBackup req) (Ok b) :: t ++ u)) as Happ
    by (intros; by apply Hcons, Forall_app_2).
  destruct Hout as [u e Hu|u jobs res Hu|u v jobs b1 b2 r Hu _ _ _ Hi%idle_no_job|u v jobs now r Hu Hl Hall Hnow Hdue Hout];
    [left; by apply Happ..|left; by apply Happ, Forall_app_2|].
  destruct Hout as [v e Hv|v Hv|v pod file ans Hv (Hf & Hrec & i & Htgt & Hpod)]; [left; by apply Happ, Forall_app_2..|right].
  destruct (SetDefaults_frame b) as (Hmeta & _ & _). rewrite SetDefaults_fileName in Hf.
  assert (job_key mdb (PhysicalBackup_SetDefaults b) now = job_key mdb b now) as ->
    by by unfold job_key, PB.getObjectName; rewrite Hmeta.
  set (ev := Ev (PGetBackup req) (Ok b)). exists (ev :: t ++ u ++ v), pod, file, ans, b, mdb, jobs, now.
  assert (∀ e, e ∈ v → e ∈ ev :: t ++ u ++ v) as Hsub by set_solver.
  unfold listed, read_mariadb in *. rewrite Hmeta in Hl. split_and!.
  - cbn. by rewrite <- !(assoc_L (++)).
  - by apply Happ, Forall_app_2.
  - by left.
  - set_solver.
  - set_solver.
  - done.
  - set_solver.
  - by apply SetDefaults_due.
  - split_and!; [done| |].
    + destruct Hrec as (x & y & Hin & ?). exists x, y. split; [by apply Hsub|done].
    + exists i. split; [|by apply Hsub]. eapply target_pod_incl; [|exact Htgt]. exact Hsub.
Qed.

(** C30: whatever fails, the tables of a database are locked at most once in a run, every
    VolumeSnapshot is created of the volume of the locked database while the lock is held,
    with no other statement in between, and the unlock is sent before the run ends. *)
Theorem snapshots_taken_under_lock req : wp (PB.Reconcile req) (λ t _, Forall calm t ∨
  ∃ b mdb, Ev (PGetBackup req) (Ok b) ∈ t ∧ read_mariadb b mdb t ∧ bracketed mdb t).
Proof.
  apply wp_Reconcile; [intros err; left; by repeat constructor|].
  intros b t r Hout. destruct Hout as [t r Hc _ _|t u mdb r Hc _ _ _|t u mdb r Hc _ Hmdb Hb _]; [left; by constructor..|right].
  exists b, mdb. split_and!; [by left|unfold read_mariadb in *; set_solver|].
  by apply (bracketed_prepend _ (_ :: _)); [constructor|].
Qed.

Definition job_taken (mdb : MariaDB) (b : PhysicalBackup) (t : pbtrace) : Prop :=
  ∃ now pod file, Ev (PCreateJob (job_key mdb b now) pod file) (Ok tt) ∈ t ∧ records_schedule now t.
Definition snapshot_taken (mdb : MariaDB) (b : PhysicalBackup) (t : pbtrace) : Prop :=
  ∃ now, provisioned (snapshot_key mdb b now) t ∧ records_schedule now t.

(** C36: the controller never stops silently: a run that ends without an error and does not
    ask to be called again either found that the backup is gone, or that it is suspended, or
    that it is a single backup whose Job or snapshot exists, or took the backup and recorded
    it, or checked the schedule for the first time, with no immediate backup, and read an
    instant after which its cron expression has no activation. *)
Theorem physical_backup_never_stops_silently req : wp (PB.Reconcile req) (λ t r,
  ∀ res, r = Ok res → requeues res = false →
    (∃ err, IsNotFound err = true ∧ Ev (PGetBackup req) (Err err) ∈ t) ∨
    ∃ b, Ev (PGetBackup req) (Ok b) ∈ t ∧
      (suspended b ∨ never_activates b t ∨
       (∃ jobs, listed b jobs t ∧ taken_once b (length jobs)) ∨
       (∃ l, listed_snapshots b l t ∧ taken_once b (length l)) ∨
       ∃ mdb, job_taken mdb b t ∨ snapshot_taken mdb b t)).
Proof.
  apply wp_Reconcile.
  { intros err r res Hr _. left. exists err. unfold r, IgnoreNotFound in Hr.
    destruct (IsNotFound err); [split; [done|by left]|done]. }
  intros b t r Hout res -> Hq. right. exists b. split; [by left|].
  destruct (SetDefaults_frame b) as (Hmeta & Hsched & Hst).
  remember (Ok res) as r eqn:Hr.
  destruct Hout as [t r _ _ Hres|t u mdb r _ _ Hmdb Hout|t u mdb r _ _ _ _ Hres].
  - specialize (Hres res Hr). congruence.
  - destruct Hout as [u e ?|u jobs res' _ _ _ Hres|u v jobs b1 b2 r _ Hl _ (_ & Hs & Hlast) Hi|u v jobs now r _ Hl _ _ _ Hout].
    + done.
    + injection Hr as ->. by destruct Hres as [-> | ->].
    + subst r. apply idle_stops in Hi; [|done]. unfold suspended, taken_once, listed in *.
      rewrite Hs, Hsched in Hi. rewrite Hmeta in Hl. destruct Hi as [?|[?|Hn]]; [by left| |].
      2: { right; left. eapply never_activates_incl; [..|exact Hn]; [by rewrite Hs, Hsched|by rewrite Hlast, Hst|set_solver]. }
      right; right; left. exists jobs. split; [|done]. set_solver.
    + destruct Hout as [v e _|v _|v pod file ans _ (_ & Hrec & _)]; [done|by injection Hr as <-|].
      destruct ans as [[]|]; [|done]. do 4 right. exists mdb. left. exists now, pod, file.
      unfold job_key, PB.getObjectName in *. rewrite Hmeta. split; [set_solver|].
      destruct Hrec as (x & y & Hin & ?). exists x, y. split; [set_solver|done].
  - specialize (Hres res Hr Hq). destruct Hres as [?|[Hn|[(l & Hl & ?)|(now & (sn & Hin & ?) & x & y & Hxy & ?)]]].
    + by left.
    + right; left. eapply never_activates_incl; [..|exact Hn]; [done|done|set_solver].
    + do 3 right. left. exists l. split; [|done]. unfold listed_snapshots in *. set_solver.
    + do 4 right. exists mdb. right. exists now. split; [exists sn|exists x, y]; (split; [set_solver|done]).
Qed.

(** A failed Job is neither running nor complete: nothing deletes it. *)
Definition deletes_failed (e : event pbop) : Prop :=
  match ev_op e with
  | PDeleteJob job _ => IsJobFailed (Some job) = true ∧ IsJobComplete (Some job) = false
  | _ => False
  end.
Abbreviation spares_failed := (λ e, ¬ deletes_failed e).

Lemma sortByObjectTime_perm {T} (name : T → string) l sorted :
  PB.sortByObjectTime name l = Ok sorted → sorted ≡ₚ l.
Proof. unfold PB.sortByObjectTime. destruct (_ && _); [done|]. intros [= <-]. apply sort_slice_perm. Qed.

Lemma cleanupJobs_spares_failed jobs : alwaysM spares_failed (PB.cleanupJobs jobs).
Proof.
  unfold PB.cleanupJobs. apply alwaysM_bind; [apply alwaysM_get|]. intros b.
  destruct (pb_Schedule (pb_Spec b)); [|apply alwaysM_ret]. cbv zeta.
  case_bool_decide; [apply alwaysM_ret|]. destruct (PB.sortByObjectTime _ _) as [sorted|e] eqn:Hs;
    [|by intros s].
  intros s. change (always spares_failed (for_each (drop (Z.to_nat (default 5 (pb_SuccessfulJobsHistoryLimit (pb_Spec b)))) sorted)
    (λ job, PB.delete_job job DeletePropagationBackground) s)).
  revert s. apply (alwaysM_for_each spares_failed). intros job Hjob.
  assert (IsJobComplete (Some job) = true) as Hc.
  { assert (job ∈ sorted) as Hi.
    { rewrite <- (take_drop (Z.to_nat (default 5 (pb_SuccessfulJobsHistoryLimit (pb_Spec b)))) sorted).
      apply elem_of_app. by right. }
    apply sortByObjectTime_perm in Hs. rewrite Hs in Hi. by apply list_elem_of_filter in Hi as [? _]. }
  pb_always. unfold deletes_failed. cbn [ev_op]. intros [_ Hn]. congruence.
Qed.

Lemma waitForRunningJobs_spares_failed jobs : alwaysM spares_failed (PB.waitForRunningJobs jobs).
Proof.
  induction jobs as [|job jobs IH]; cbn [PB.waitForRunningJobs]; [apply alwaysM_ret|].
  destruct (IsJobRunning (Some job)) eqn:Hr.
  - assert (∀ p x, spares_failed (Ev (PDeleteJob job p) x)) as Hp.
    { intros p x [Hf _]. unfold IsJobRunning in Hr. rewrite Hf in Hr. done. }
    pb_always; first [apply Hp|tauto].
  - destruct (negb _); [apply alwaysM_ret|done].
Qed.

Lemma reconcileJobs_spares_failed mdb : alwaysM spares_failed (PB.reconcileJobs mdb).
Proof.
  unfold PB.reconcileJobs.
  repeat first [apply waitForRunningJobs_spares_failed|apply cleanupJobs_spares_failed
    |apply alwaysM_bind; [|intros ?]|apply alwaysM_wrap]; pb_always; tauto.
Qed.

(** While a Job of the backup is listed that is not complete, a failed one included, no
    new Job is created: the run fails or asks to be called again; and no run ever
    deletes a failed Job, so that after one failure the schedule stands still. *)
Theorem failed_job_blocks_schedule mdb b : wpM (PB.reconcileJobs mdb) b (λ t _ r,
  Forall spares_failed t ∧
  ((∃ e, r = Err e) ∨ ∃ jobs, listed b jobs t ∧
    (¬ all_complete jobs → Forall no_job t ∧ ∃ res, r = Ok res ∧ requeues res = true))).
Proof.
  apply wpM_conj; [apply alwaysM_wpM, reconcileJobs_spares_failed|].
  eapply wpM_mono; [|apply reconcileJobs_spec]. intros t b' r Hout.
  assert (∀ u v jobs, listed b jobs u → all_complete jobs → ∃ jobs, listed b jobs (u ++ v) ∧
    (¬ all_complete jobs → Forall no_job (u ++ v) ∧ ∃ res, r = Ok res ∧ requeues res = true)) as Hall.
  { intros u v jobs Hl Hc. exists jobs. unfold listed in *. split; [set_solver|done]. }
  destruct Hout as [t e _|t jobs res Ht Hl Hn Hres|t u jobs b1 b2 r _ Hl Hc|t u jobs now r _ Hl Hc]; [by left; eexists|right..].
  - exists jobs. split; [done|]. intros _. split; [done|]. exists res. split; [done|]. by destruct Hres as [-> | ->].
  - by eapply Hall.
  - by eapply Hall.
Qed.

(** ** The history of Jobs *)
Lemma sortByObjectTime_sorted {T} (name : T → string) l sorted : PB.sortByObjectTime name l = Ok sorted →
  StronglySorted (λ x y, PB.object_time (name y) ≤ PB.object_time (name x)) sorted.
Proof.
  unfold PB.sortByObjectTime. destruct (_ && _); [done|]. intros [= <-].
  eapply StronglySorted_weaken; [|apply sort_slice_sorted].
  - cbn. intros x y Hxy%bool_decide_eq_false. lia.
  - unfold PB.object_after. intros x y z. rewrite !bool_decide_eq_false. lia.
  - unfold PB.object_after. intros x y. rewrite !bool_decide_eq_false. lia.
Qed.
Lemma sortByObjectTime_parses {T} (name : T → string) l sorted : PB.sortByObjectTime name l = Ok sorted →
  (2 ≤ length l)%nat → Forall (λ o, PB.parseObjectTime (name o) = Ok (PB.object_time (name o))) l.
Proof.
  unfold PB.sortByObjectTime. intros Hs Hl. rewrite bool_decide_true in Hs by done. cbn [andb] in Hs.
  destruct (existsb _ l) eqn:He; [done|]. apply Forall_forall. intros o Ho. unfold PB.object_time.
  destruct (PB.parseObjectTime (name o)) eqn:Hp; [done|]. exfalso.
  enough (existsb (λ o, negb (is_ok (PB.parseObjectTime (name o)))) l = true) by congruence.
  apply existsb_exists. exists o. rewrite <- list_elem_of_In, Hp. done.
Qed.

Definition history_limit (b : PhysicalBackup) : Z := default 5 (pb_SuccessfulJobsHistoryLimit (pb_Spec b)).
Definition deleted (job : Job) (t : pbtrace) : Prop := ∃ p x, Ev (PDeleteJob job p) x ∈ t.

Lemma delete_jobs_spec p old b : wpM (for_each old (λ job, PB.delete_job job p)) b (λ t _ r,
  (∀ job, deleted job t → job ∈ old) ∧ (is_ok r = true → ∀ job, job ∈ old → deleted job t)).
Proof.
  assert (∀ job, deleted job [] → False) as Hnil by (intros job (q & x & Hin); by apply not_elem_of_nil in Hin).
  assert (∀ job q (x : result unit) t job', deleted job' (Ev (PDeleteJob job q) x :: t) → job' = job ∨ deleted job' t) as Hcons.
  { intros job q x t job' (q' & x' & [Heq|Hin]%elem_of_cons); [left|right; by exists q', x'].
    apply (f_equal (λ e, match ev_op e with PDeleteJob j _ => j | _ => job end)) in Heq. done. }
  induction old as [|job old IH] in b |- *; cbn [for_each].
  { wp_step. split; [intros job []%Hnil|]. by intros _ job ?%not_elem_of_nil. }
  wp_step. unfold PB.delete_job. do 2 wp_step. apply wpM_call. intros ans. set (ev := Ev _ ans).
  assert (deleted job [ev]) as Hev by (exists p, ans; by left).
  assert (wpM (for_each old (λ job, PB.delete_job job p)) b (λ t _ r,
    (∀ job', deleted job' (ev :: t) → job' ∈ job :: old) ∧
    (is_ok r = true → ∀ job', job' ∈ job :: old → deleted job' (ev :: t)))) as Hrest.
  { eapply wpM_mono; [|apply IH]. intros t s r [H1 H2]. split.
    - intros job' [-> |Hd]%Hcons; [by left|right; by apply H1].
    - intros Hr job' [-> |Hin]%elem_of_cons; [exists p, ans; by left|].
      destruct (H2 Hr job' Hin) as (q & x & Hq). exists q, x. by right. }
  destruct ans as [[]|err]; [by wp_step|]. destruct (IsNotFound err); [by wp_step|]. wp_step.
  split; [|done]. intros job' [-> |Hd]%Hcons; [by left|by apply Hnil in Hd].
Qed.

(** The cleanup splits the complete Jobs into as many as the history limit and the rest:
    only Jobs of the rest are deleted, all of them when no deletion fails, and each is at
    most as recent, by the instant in its name, as every Job that is kept. *)
Theorem cleanup_keeps_newest_jobs jobs b : 0 ≤ history_limit b →
  wpM (PB.cleanupJobs jobs) b (λ t _ r, t = [] ∨ ∃ newest old,
    filter (λ job, IsJobComplete (Some job) = true) jobs ≡ₚ newest ++ old ∧
    Z.of_nat (length newest) = history_limit b ∧
    (∀ job, deleted job t → job ∈ old) ∧ (is_ok r = true → ∀ job, job ∈ old → deleted job t) ∧
    ∀ x y, x ∈ newest → y ∈ old → ∃ tx ty,
      PB.parseObjectTime (job_Name x) = Ok tx ∧ PB.parseObjectTime (job_Name y) = Ok ty ∧ ty ≤ tx).
Proof.
  intros Hlim. unfold PB.cleanupJobs. do 2 wp_step. destruct (pb_Schedule (pb_Spec b)); [|wp_step; by left].
  cbv zeta. fold (history_limit b). case_bool_decide as Hlen; [wp_step; by left|]. do 2 wp_step.
  destruct (PB.sortByObjectTime _ _) as [sorted|e] eqn:Hs; [|by left]. cbn [app].
  set (n := Z.to_nat (history_limit b)). set (old := drop n sorted).
  pose proof (sortByObjectTime_perm _ _ _ Hs) as Hperm.
  assert (n < length sorted)%nat as Hn by (rewrite Hperm; lia).
  eapply wpM_mono; [|apply delete_jobs_spec]. intros t b' r [Hold Hall]. right. exists (take n sorted), old.
  rewrite length_take_le by lia. split_and!; [by unfold old; rewrite take_drop|lia|done|done|].
  intros x y Hx Hy. pose proof (sortByObjectTime_sorted _ _ _ Hs) as Hsorted.
  rewrite <- (take_drop n sorted) in Hsorted. apply StronglySorted_app in Hsorted as (Hle & _ & _).
  exists (PB.object_time (job_Name x)), (PB.object_time (job_Name y)).
  assert (2 ≤ length (filter (λ job, IsJobComplete (Some job) = true) jobs))%nat as H2.
  { rewrite <- Hperm. destruct (take n sorted) eqn:Ht; [by apply not_elem_of_nil in Hx|].
    apply (f_equal length) in Ht. rewrite length_take_le in Ht by lia. cbn in Ht. lia. }
  pose proof (sortByObjectTime_parses _ _ _ Hs H2) as Hparse. rewrite Forall_forall in Hparse.
  assert (∀ z, z ∈ sorted → PB.parseObjectTime (job_Name z) = Ok (PB.object_time (job_Name z))) as Hz
    by (intros z; rewrite Hperm; apply Hparse).
  split_and!; [apply Hz..|by apply Hle]; rewrite <- (take_drop n sorted); apply elem_of_app; [by left|by right].
Qed.

(** ** Names *)
Lemma mdbtime_round_trip now : printable now → mdbtime_Parse (mdbtime_Format now) = Ok (truncate_sec now).
Proof. intros Hp. unfold mdbtime_Parse, mdbtime_Format. by rewrite parse_format_compact. Qed.
Lemma mdbtime_Format_not_In c now : printable now → is_digit c = false → ¬ str_In c (mdbtime_Format now).
Proof. intros Hp%format_compact_digits Hc Hin. apply (str_all_In _ _ c) in Hp; [congruence|done]. Qed.

Lemma getObjectName_time b now : printable now →
  ParsePhysicalBackupTime (PB.getObjectName b now) = Ok (truncate_sec now).
Proof.
  intros Hp. unfold ParsePhysicalBackupTime, PB.getObjectName.
  change ("-" +:+ mdbtime_Format now) with (String "-" (mdbtime_Format now)). rewrite (Split_app _ _ "-").
  rewrite (Split_no_sep (mdbtime_Format now)) by by apply mdbtime_Format_not_In.
  rewrite bool_decide_false; [|rewrite length_app; pose proof (Split_nonempty (Name (pb_meta b)) "-");
    destruct (Split (Name (pb_meta b)) "-"); [done|cbn; lia]].
  rewrite List.last_last. by apply mdbtime_round_trip.
Qed.

Lemma stem_not_In c now : printable now → is_digit c = false → ¬ str_In c "physicalbackup-" →
  ¬ str_In c ("physicalbackup-" +:+ mdbtime_Format now).
Proof. intros Hp Hd Hc [Hin|Hin]%str_In_app; [done|]. by apply (mdbtime_Format_not_In c now) in Hin. Qed.

(** A name with the stem of a physical backup, split at the dots. *)
Lemma physical_name now rest : printable now → ¬ str_In slash rest →
  let file := "physicalbackup-" +:+ mdbtime_Format now +:+ String "." rest in
  Split file "." = ("physicalbackup-" +:+ mdbtime_Format now) :: Split rest "." ∧ Base file = file.
Proof.
  intros Hp Hrest file. assert (file = ("physicalbackup-" +:+ mdbtime_Format now) +:+ String "." rest) as Hf
    by by unfold file; rewrite str_app_assoc.
  split.
  - rewrite Hf. apply (Split_app_sep _ _ "."). apply stem_not_In; [done|done|not_in_string].
  - apply Base_name; [done|]. rewrite Hf, str_In_app. intros [Hin|[Hin|Hin]]; [|done|done].
    revert Hin. apply stem_not_In; [done|done|not_in_string].
Qed.

Lemma physical_parseDate_name now rest : printable now → ¬ str_In slash rest →
  physical_parseDate None ("physicalbackup-" +:+ mdbtime_Format now +:+ String "." rest) = Ok (truncate_sec now).
Proof.
  intros Hp Hrest. destruct (physical_name now rest Hp Hrest) as [Hsplit Hbase]. unfold physical_parseDate.
  rewrite Hbase, Hsplit. cbn [nth]. rewrite HasPrefix_app, TrimPrefix_app. by apply mdbtime_round_trip.
Qed.

(** What the controller names, the names' readers understand: a file is a valid physical
    backup of the instant of its Job, to the second, with the compression of the spec, and
    the instant is also read back from the name of the Job or snapshot, whatever dashes
    the name of the backup contains. *)
Theorem physical_backup_names_round_trip b now file : printable now → PB.getBackupFileName b now = Ok file →
  let p := PhysicalBackupProcessor None None in
  IsValidBackupFile p file = true ∧ parseDateInBackupFile p file = Ok (truncate_sec now) ∧
  ParseCompressionAlgorithm p file =
    Ok (if bool_decide (pb_Compression (pb_Spec b) = "") then CompressNone else pb_Compression (pb_Spec b)) ∧
  PB.parseObjectTime (PB.getObjectName b now) = Ok (truncate_sec now).
Proof.
  intros Hp Hfile p. cbn [p parseDateInBackupFile IsValidBackupFile ParseCompressionAlgorithm PhysicalBackupProcessor].
  assert (∀ rest c, ¬ str_In slash rest → file = "physicalbackup-" +:+ mdbtime_Format now +:+ String "." rest →
    physical_ParseCompressionAlgorithm file = Ok c →
    physical_IsValidBackupFile None None file = true ∧ physical_parseDate None file = Ok (truncate_sec now) ∧
    physical_ParseCompressionAlgorithm file = Ok c ∧ PB.parseObjectTime (PB.getObjectName b now) = Ok (truncate_sec now)) as Hname.
  { intros rest c Hrest -> Hc. destruct (physical_name now rest Hp Hrest) as [_ Hbase].
    pose proof (physical_parseDate_name now rest Hp Hrest) as Hd. split_and!; [|done|done|by apply getObjectName_time].
    unfold physical_IsValidBackupFile. by rewrite Hbase, HasPrefix_app, Hc, Hd. }
  unfold PB.getBackupFileName in Hfile. revert Hfile. generalize (pb_Compression (pb_Spec b)). intros c Hfile.
  assert (∀ rest, ¬ str_In slash rest →
    length (Split ("physicalbackup-" +:+ mdbtime_Format now +:+ String "." rest) ".") = S (length (Split rest ".")) ∧
    ∀ n, nth (S n) (Split ("physicalbackup-" +:+ mdbtime_Format now +:+ String "." rest) ".") "" = nth n (Split rest ".") "") as Hparts.
  { intros rest Hrest. by rewrite (proj1 (physical_name now rest Hp Hrest)). }
  destruct (decide (c = "" ∨ c = CompressNone)) as [Hc|Hc].
  - assert (file = "physicalbackup-" +:+ mdbtime_Format now +:+ ".xb") as -> by (destruct Hc; subst c; by injection Hfile).
    assert ((if bool_decide (c = "") then CompressNone else c) = CompressNone) as -> by by destruct Hc; subst c.
    apply (Hname "xb"); [not_in_string|done|]. unfold physical_ParseCompressionAlgorithm.
    by destruct (Hparts "xb" ltac:(not_in_string)) as [-> _].
  - rewrite !bool_decide_false in Hfile by tauto. rewrite bool_decide_false by tauto. cbn [negb andb] in Hfile.
    unfold CompressAlgorithm_Extension in Hfile. rewrite (bool_decide_false (c ∈ _)) in Hfile
      by (rewrite !elem_of_cons; intros [?|[?|?%not_elem_of_nil]]; tauto).
    destruct (decide (c = CompressBzip2)) as [Hb|Hb]; [|destruct (decide (c = CompressGzip)) as [Hg|Hg]].
    + subst c. cbn in Hfile. injection Hfile as Hfile.
      assert (file = "physicalbackup-" +:+ mdbtime_Format now +:+ String "." "xb.bz2") as ->
        by (rewrite <- Hfile; by rewrite <- !str_app_assoc).
      apply (Hname "xb.bz2"); [not_in_string|done|]. unfold physical_ParseCompressionAlgorithm.
      destruct (Hparts "xb.bz2" ltac:(not_in_string)) as [-> Hnth]. cbn -[nth Split]. by rewrite Hnth.
    + subst c. cbn in Hfile. injection Hfile as Hfile.
      assert (file = "physicalbackup-" +:+ mdbtime_Format now +:+ String "." "xb.gz") as ->
        by (rewrite <- Hfile; by rewrite <- !str_app_assoc).
      apply (Hname "xb.gz"); [not_in_string|done|]. unfold physical_ParseCompressionAlgorithm.
      destruct (Hparts "xb.gz" ltac:(not_in_string)) as [-> Hnth]. cbn -[nth Split]. by rewrite Hnth.
    + by rewrite !bool_decide_false in Hfile.
Qed.

(** A cron expression that parses but has no activation, such as the 30th of February, is due
    at every run: once the previous Jobs are complete, another one is created at once. *)
Theorem impossible_schedule_repeats mdb b sch s last :
  pb_Schedule (pb_Spec b) = Some sch → pbs_Suspend sch = false → cron_Parse (pbs_Cron sch) = Ok s →
  pb_LastScheduleCheckTime (pb_Status b) = Some last → cron_Next s last = Time_zero →
  wpM (PB.reconcileJobs mdb) b (λ t _ r, ∀ res, r = Ok res →
    (∀ now, Ev (PBase TimeNow) now ∈ t → Time_zero ≤ now) →
    requeues res = true ∨ ∃ now pod file, Ev (PCreateJob (job_key mdb b now) pod file) (Ok tt) ∈ t).
Proof.
  intros Hsch Hsusp Hcron Hlast Hzero. eapply wpM_mono; [|apply reconcileJobs_spec].
  intros t b' r Hout res Hr Hnow.
  destruct Hout as [t e _|t jobs res' _ _ _ Hres|t u jobs b1 b2 r _ Hl _ (_ & Hs & Hlc) Hi|t u jobs now r _ Hl _ _ _ Hout].
  - done.
  - left. injection Hr as <-. by destruct Hres as [-> | ->].
  - exfalso. destruct Hi as [sch'|? ?|sch'|sch' s' last' now ??? Hlt|]; [congruence|congruence|done| |congruence].
    assert (Time_zero ≤ now) by (apply Hnow; set_solver). assert (s' = s) as -> by congruence. assert (last' = last) as -> by congruence. lia.
  - destruct Hout as [v e _|v _|v pod file ans _ _]; [done|left; by injection Hr as <-|right].
    destruct ans as [[]|]; [|done]. exists now, pod, file. set_solver.
Qed.
End physicalbackup.

(** ** Witnesses *)
Definition daily : Z := 24 * Hour.
#[local] Program Instance daily_cron : Cron := {|
  cron_Schedule := unit;
  cron_Parse raw := if bool_decide (raw = "0 0 * * *") then Ok tt else Err (ErrNew "expected exactly 5 fields");
  cron_Next _ t := (t / daily + 1) * daily
|}.
Next Obligation. intros s t. left. assert (0 < daily) by done. Z.to_euclidean_division_equations. nia. Qed.

Definition pb_ex : PhysicalBackup :=
  mkPhysicalBackup (mkObjectMeta "nightly-full" "default" "" ∅ ∅)
    (mkPhysicalBackupSpec None (mkMariaDBRef "mariadb" "" "" true) CompressGzip None
      (mkPhysicalBackupStorage None (Some "claim") None None)
      (Some (mkPhysicalBackupSchedule "0 0 * * *" false None)) 0 None 0 (Some 1))
    (mkPhysicalBackupStatus [] None None None).

Definition complete_job (name : string) : Job := mkJob name "default" ∅ [mkPodCondition "Complete" "True"] None.

Lemma cleanup_keeps_newest_jobs_witness :
  let jobs := complete_job <$> ["nightly-full-20240101000000"; "nightly-full-20240103000000"; "nightly-full-20240102000000"] in
  wpM (PB.cleanupJobs jobs) pb_ex (λ t _ r, t = [] ∨ ∃ newest old,
    filter (λ job, IsJobComplete (Some job) = true) jobs ≡ₚ newest ++ old ∧
    Z.of_nat (length newest) = history_limit pb_ex ∧
    (∀ job, deleted job t → job ∈ old) ∧ (is_ok r = true → ∀ job, job ∈ old → deleted job t) ∧
    ∀ x y, x ∈ newest → y ∈ old → ∃ tx ty,
      PB.parseObjectTime (job_Name x) = Ok tx ∧ PB.parseObjectTime (job_Name y) = Ok ty ∧ ty ≤ tx).
Proof. intros jobs. apply cleanup_keeps_newest_jobs. vm_compute. discriminate. Defined.

Lemma physical_backup_names_round_trip_witness :
  let now := 1735689600 * nsec + 5 in let p := PhysicalBackupProcessor None None in
  let file := "physicalbackup-20250101000000.xb.gz" in
  IsValidBackupFile p file = true ∧ parseDateInBackupFile p file = Ok (1735689600 * nsec) ∧
  ParseCompressionAlgorithm p file = Ok CompressGzip ∧
  PB.parseObjectTime (PB.getObjectName pb_ex now) = Ok (1735689600 * nsec).
Proof.
  intros now. refine (physical_backup_names_round_trip pb_ex now "physicalbackup-20250101000000.xb.gz" _ _).
  - refine (bool_decide_unpack _ _). vm_compute. exact I.
  - vm_compute. reflexivity.
Defined.

(** ** Runs in an environment in which every request succeeds *)
Definition mdb_single : MariaDB :=
  { MariaDB_zero meta_ex with
    m_Spec -> sp_Replicas := 1; m_Status -> st_CurrentPrimaryPodIndex := Some 0;
    m_Status -> st_Conditions := [mkCondition ConditionTypeReady ConditionTrue "" ""] }.

Definition pb_env (b : PhysicalBackup) (jobs : list Job) (snapshot : VolumeSnapshot) (now : Z) : env pbop := {|
  answer X _ o :=
    match o in pbop X return X with
    | PBase o => friendly mdb_single [] now o
    | PGetBackup _ => Ok b
    | PListJobs _ _ => Ok jobs
    | PVolumeSnapshotExist => Ok true
    | PListSnapshots _ _ => Ok []
    | PGetSnapshot _ => Ok snapshot
    | _ => Ok tt
    end;
  choice _ := false
|}.

Definition created (e : event pbop) : option (string * string) :=
  match ev_op e with
  | PCreateJob key pod file => Some (nn_Name key, file)
  | PCreateSnapshot key pvc => Some (nn_Name key, nn_Name pvc)
  | _ => None
  end.
Definition snapshot_ex : VolumeSnapshot :=
  mkVolumeSnapshot "" "" None (Some (mkVolumeSnapshotStatus (Some "content") (Some 0) None None)).

(** The first backup of a schedule is taken at once. *)
Example first_job_run :
  omap created (run (pb_env pb_ex [] snapshot_ex (1735689600 * nsec)) (PB.Reconcile (mkNamespacedName "nightly-full" "default")) []).1
  = [("nightly-full-20250101000000", "physicalbackup-20250101000000.xb.gz")].
Proof. vm_compute. reflexivity. Qed.

(** A failed Job holds it back. *)
Example failed_job_run :
  let failed := mkJob "nightly-full-20241231000000" "default" ∅ [mkPodCondition "Failed" "True"] None in
  omap created (run (pb_env pb_ex [failed] snapshot_ex (1735689600 * nsec)) (PB.Reconcile (mkNamespacedName "nightly-full" "default")) []).1 = [].
Proof. vm_compute. reflexivity. Qed.
