(* ===== verification/SqlResources.v ===== *)
(** * SQL resources: users, grants and databases

    pkg/controller/sql is a template shared by the controllers of the User, Grant and Database
    resources.  The class [SqlResource] is its interface: the accessors of the resource, what
    applying it and what cleaning it up mean; the template is proved against the interface and
    internal/controller/{user,grant,database}_controller*.go are its instances.  The model
    of each resource keeps the fields its controller reads. *)

From S2P Require Import Prelude GoStrings StatefulSet Datastructures Conditions MariaDBTypes MaxScaleTypes.
From S2P Require Import Concurrency Kube Sql Health ConditionSetters.

Local Open Scope Z_scope.
Local Open Scope go_scope.

Definition ExternalMariaDBKind : string := "ExternalMariaDB".
Definition MariaDBKind : string := "MariaDB".
Definition CleanupPolicySkip : string := "Skip".
Definition CleanupPolicyDelete : string := "Delete".
Definition CleanupPolicy_Validate (c : string) : result unit :=
  if bool_decide (c ∈ [CleanupPolicySkip; CleanupPolicyDelete]) then Ok tt else Err (ErrNew "invalid cleanupPolicy").

(** The server a client is connected to. *)
Inductive server := OfMariaDB (key : NamespacedName) | OfExternal (key : NamespacedName).
Inductive MariaDBObject := ObjMariaDB (m : MariaDB) | ObjExternal (key : NamespacedName).
Definition server_of (o : MariaDBObject) : server :=
  match o with ObjMariaDB m => OfMariaDB (ObjectKey m) | ObjExternal key => OfExternal key end.

Inductive sqop (R : Type) : Type → Type :=
  (** operations of the API server shared with the MariaDB controller *)
  | QBase {X} (o : op X) : sqop R X
  | QGet (key : NamespacedName) : sqop R (result R)
  | QPatch (base r : R) : sqop R (result unit)
  | QPatchStatus (base r : R) : sqop R (result unit)
  (** the MariaDB, and whether it is being deleted *)
  | QGetMariaDB (key : NamespacedName) : sqop R (result (MariaDB * bool))
  | QGetExternal (key : NamespacedName) : sqop R (result unit)
  (** credentials and connection of a client *)
  | QConnect (s : server) : sqop R (result unit)
  (** a statement of that client: the Service of the server answers, not a Pod, and the ordinal
      of the statement is not used *)
  | QClient (s : server) {X} (o : op X) : sqop R X
  (** [rand.Int63] *)
  | QRand : sqop R Z.
Arguments QBase {R X} o.
Arguments QGet {R} key.
Arguments QPatch {R} base r.
Arguments QPatchStatus {R} base r.
Arguments QGetMariaDB {R} key.
Arguments QGetExternal {R} key.
Arguments QConnect {R} s.
Arguments QClient {R} s {X} o.
Arguments QRand {R}.

Abbreviation Q R := (M R (sqop R)).
Definition on {R A} (s : server) (m : M R op A) : Q R A := hoistM (λ X, QClient s) m.
Definition api {R A} (m : M R op A) : Q R A := hoistM (λ X, QBase) m.

(** ** pkg/controller/sql/types.go: the interfaces of the template *)
Class SqlResource (R : Type) := {
  res_meta : R → ObjectMeta;
  res_MariaDBRef : R → MariaDBRef;
  IsBeingDeleted : R → bool;
  res_RequeueInterval : R → option Z;
  res_RetryInterval : R → option Z;
  res_CleanupPolicy : R → option string;
  finalizerName : string;
  res_Finalizers : R → list string;
  set_Finalizers : list string → R → R;
  finalizers_set l r : res_Finalizers (set_Finalizers l r) = l;
  res_Conditioner : ∀ SC : StatusConditions, @Conditioner SC R;
  finalizers_cond SC c r : res_Finalizers (@set_condition SC R (res_Conditioner SC) c r) = res_Finalizers r;
  (** [WrappedReconciler.Reconcile] and [WrappedFinalizer.Reconcile] *)
  apply_sql : server → Q R unit;
  cleanup_sql : server → Q R unit
}.

(** ** pkg/controller/sql/controller.go *)
Record SqlOptions := mkSqlOptions { so_RequeueInterval : Z; so_RequeueMaxOffset : Z }.

Section template.
Context `{SC : StatusConditions} {R : Type} `{RES : !SqlResource R}.
#[local] Instance resource_conditioner : Conditioner R := res_Conditioner SC.

(** The wrapped reconciler's PatchStatus and the wrapped finalizer's patch. *)
Definition PatchStatus (patcher : R → R) : Q R unit := λ r,
  Vis (QPatchStatus r (patcher r)) (λ res, Ret (patcher r, wrap_err "error patching status" res)).
Definition patch_finalizers (patcher : R → R) : Q R unit := λ r,
  Vis (QPatch r (patcher r)) (λ res, Ret (patcher r, wrap_err "error patching finalizer" res)).

(** controllerutil *)
Definition ContainsFinalizer (r : R) : bool := bool_decide (finalizerName ∈ res_Finalizers r).
Definition add_finalizer (r : R) : R :=
  if ContainsFinalizer r then r else set_Finalizers (res_Finalizers r ++ [finalizerName]) r.
Definition remove_finalizer (r : R) : R :=
  set_Finalizers (filter (λ f, f ≠ finalizerName) (res_Finalizers r)) r.

Definition wrapped_AddFinalizer : Q R unit :=
  r <- get ;; if ContainsFinalizer r then ret tt else patch_finalizers add_finalizer.
Definition wrapped_RemoveFinalizer : Q R unit :=
  r <- get ;; if negb (ContainsFinalizer r) then ret tt else patch_finalizers remove_finalizer.

(** finalizer.go *)
Definition AddFinalizer : Q R unit :=
  r <- get ;;
  if ContainsFinalizer r then ret tt
  else wrap "error adding finalizer in TemplateFinalizer" wrapped_AddFinalizer.

Definition waitForMariaDB (mdb : MariaDBObject) : Q R ctrl_Result :=
  match mdb with
  | ObjExternal _ => ret Result_zero
  | ObjMariaDB m =>
      healthy <- api (IsStatefulSetHealthy (ObjectKey m)
        [WithDesiredReplicas (sp_Replicas (m_Spec m)); WithPort (sp_Port (m_Spec m));
         WithEndpointPolicy EndpointPolicyAll]) ;;
      if negb healthy then ret (requeue_after (1 * Second)) else ret Result_zero
  end.

(** The reference of a resource being deleted is resolved as a MariaDB, whatever its kind. *)
Definition Finalize : Q R ctrl_Result :=
  r <- get ;;
  if negb (ContainsFinalizer r) then ret Result_zero else
  m <- try (call (QGetMariaDB (ref_key (res_MariaDBRef r) (Namespace (res_meta r))))) ;;
  match m with
  | Err err =>
      if IsNotFound err
      then wrap "error removing finalizer" wrapped_RemoveFinalizer ;;; ret Result_zero
      else throw (ErrWrap "error getting MariaDB" err)
  | Ok (mariadb, deleting) =>
      if (deleting : bool)
      then wrap "error removing finalizer" wrapped_RemoveFinalizer ;;; ret Result_zero else
      result <- waitForMariaDB (ObjMariaDB mariadb) ;;
      if negb (Result_IsZero result) then ret result else
      wrap "error connecting to MariaDB" (call (QConnect (OfMariaDB (ObjectKey mariadb)))) ;;;
      (if bool_decide (default CleanupPolicyDelete (res_CleanupPolicy r) = CleanupPolicyDelete)
       then wrap "error reconciling in TemplateFinalizer" (cleanup_sql (OfMariaDB (ObjectKey mariadb)))
       else ret tt) ;;;
      wrap "error removing finalizer in TemplateFinalizer" wrapped_RemoveFinalizer ;;;
      ret Result_zero
  end.

(** controller.go *)
Context (opts : SqlOptions).

Definition addRequeueIntervalOffset (duration : Z) : Q R Z :=
  if bool_decide (0 < so_RequeueMaxOffset opts)
  then rand <- ask QRand ;; ret (int_wrap (duration + Z.rem rand (so_RequeueMaxOffset opts)))
  else ret duration.

Definition retryResult (err : option error) : Q R ctrl_Result :=
  r <- get ;;
  match res_RetryInterval r with
  | Some interval => ret (requeue_after interval)
  | None => match err with Some _ => ret requeue | None => ret Result_zero end
  end.

Definition requeueResult (err : result unit) : Q R ctrl_Result :=
  match err with
  | Err _ => ret requeue
  | Ok _ =>
      r <- get ;;
      match res_RequeueInterval r with
      | Some interval => d <- addRequeueIntervalOffset interval ;; ret (requeue_after d)
      | None =>
          if bool_decide (0 < so_RequeueInterval opts)
          then d <- addRequeueIntervalOffset (so_RequeueInterval opts) ;; ret (requeue_after d)
          else ret Result_zero
      end
  end.

(** [RefResolver.MariaDBObject] *)
Definition resolve_MariaDBObject (ref : MariaDBRef) (namespace : string) : Q R MariaDBObject :=
  let key := ref_key ref namespace in
  if bool_decide (ref_Kind ref = ExternalMariaDBKind)
  then call (QGetExternal key) ;;; ret (ObjExternal key)
  else p <- call (QGetMariaDB key) ;; ret (ObjMariaDB p.1).

Definition err_option {A} (r : result A) : option error := match r with Ok _ => None | Err e => Some e end.

(** With a client connected to the server. *)
Definition reconcile_connected (s : server) : Q R ctrl_Result :=
  r <- get ;;
  applied <- try (apply_sql s) ;;
  match applied with
  | Err err =>
      _patched <- try (PatchStatus (Ready_PatcherFailed
        ("Error creating " +:+ Name (res_meta r) +:+ ": " +:+ Error err))) ;;
      retryResult (Some err)
  | Ok _ =>
      added <- try (wrap "error adding finalizer" AddFinalizer) ;;
      patched <- try (PatchStatus (Ready_PatcherWithError (err_option added))) ;;
      requeueResult (multierror added patched)
  end.

Definition Reconcile : Q R ctrl_Result :=
  r <- get ;;
  if IsBeingDeleted r then Finalize else
  m <- try (resolve_MariaDBObject (res_MariaDBRef r) (Namespace (res_meta r))) ;;
  match m with
  | Err err =>
      let kind := if bool_decide (ref_Kind (res_MariaDBRef r) = ExternalMariaDBKind)
                  then ExternalMariaDBKind else MariaDBKind in
      patched <- try (PatchStatus (Ready_PatcherRefResolver (Some err) kind)) ;;
      wrap "error getting MariaDB" (lift (multierror (Err err) patched)) ;;; ret Result_zero
  | Ok mariadb =>
      w <- try (waitForMariaDB mariadb) ;;
      match w with
      | Err err =>
          patched <- try (PatchStatus (Ready_PatcherWithError (Some err))) ;;
          lift (multierror (Err err) patched) ;;; ret Result_zero
      | Ok result =>
          if negb (Result_IsZero result) then ret result else
          let s := server_of mariadb in
          c <- try (call (QConnect s)) ;;
          match c with
          | Err err =>
              _patched <- try (PatchStatus (Ready_PatcherFailed ("Error connecting to MariaDB: " +:+ Error err))) ;;
              retryResult (Some err)
          | Ok _ => reconcile_connected s
          end
      end
  end.

(** The [Reconcile] of each controller. *)
Definition Controller_Reconcile (req : NamespacedName) : prog (sqop R) (result ctrl_Result) :=
  Vis (QGet req) (λ r,
    match r with
    | Err err => Ret (match IgnoreNotFound err with Some e => Err e | None => Ok Result_zero end)
    | Ok resource =>
        bind_prog (Reconcile resource) (λ '(_, res), Ret (wrap_err "error reconciling in TemplateReconciler" res))
    end).
End template.

(** ** The fields the resources share: metadata, SQLTemplate and conditions *)
Record sql_common := mkSqlCommon {
  sc_meta : ObjectMeta;
  sc_Finalizers : list string;
  sc_deleting : bool;
  sc_MariaDBRef : MariaDBRef;
  sc_RequeueInterval : option Z;
  sc_RetryInterval : option Z;
  sc_CleanupPolicy : option string;
  sc_Conditions : list Condition
}.

(** ** User: api/v1alpha1/user_types.go and user_controller.go *)
Record User := mkUser {
  u_common : sql_common;
  u_PasswordSecretKeyRef : option SecretKeySelector;
  u_PasswordHashSecretKeyRef : option SecretKeySelector;
  u_PluginNameSecretKeyRef : option SecretKeySelector;
  u_PluginArgSecretKeyRef : option SecretKeySelector;
  u_Require : option TLSRequirements;
  u_MaxUserConnections : Z;
  u_Name : string;
  u_Host : string
}.

Definition UsernameOrDefault (u : User) : string :=
  if negb (bool_decide (u_Name u = "")) then u_Name u else Name (sc_meta (u_common u)).
Definition User_HostnameOrDefault (u : User) : string :=
  if negb (bool_decide (u_Host u = "")) then u_Host u else "%".
Definition User_AccountName (u : User) : string :=
  "'" +:+ UsernameOrDefault u +:+ "'@'" +:+ User_HostnameOrDefault u +:+ "'".

(** The options of the account, and whether it has a password, a hash or a plugin. *)
Definition user_credentials : Q User (list CreateUserOpt * bool) :=
  u <- get ;;
  let secret sel := api (call (KSecretKey sel (Namespace (sc_meta (u_common u))))) in
  let non_empty s := negb (bool_decide (s = "")) in
  match u_PluginNameSecretKeyRef u with
  | Some sel =>
      passwordVia <- wrap "error reading user password via secret" (secret sel) ;;
      match u_PluginArgSecretKeyRef u with
      | Some sel =>
          passwordViaUsing <- wrap "error reading user password via using secret" (secret sel) ;;
          ret ([WithIdentifiedVia passwordVia; WithIdentifiedViaUsing passwordViaUsing], non_empty passwordVia)
      | None => ret ([WithIdentifiedVia passwordVia], non_empty passwordVia)
      end
  | None =>
      match u_PasswordHashSecretKeyRef u with
      | Some sel =>
          passwordHash <- wrap "error reading user password hash secret" (secret sel) ;;
          ret ([WithIdentifiedByPassword passwordHash], non_empty passwordHash)
      | None =>
          match u_PasswordSecretKeyRef u with
          | Some sel =>
              password <- wrap "error reading user password secret" (secret sel) ;;
              ret ([WithIdentifiedBy password], non_empty password)
          | None => ret ([], false)
          end
      end
  end.

Definition user_opts (u : User) (createUserOpts : list CreateUserOpt) : list CreateUserOpt :=
  createUserOpts ++ (match u_Require u with Some r => [WithTLSRequirements (Some r)] | None => [] end) ++
  [WithMaxUserConnections (u_MaxUserConnections u)].

(** An error of the lookup is only logged: the account then counts as missing. *)
Definition User_Reconcile (s : server) : Q User unit :=
  u <- get ;;
  creds <- user_credentials ;;
  let createUserOpts := user_opts u creds.1 in
  let accountName := User_AccountName u in
  e <- try (on s (UserExists 0 (UsernameOrDefault u) (User_HostnameOrDefault u))) ;;
  let exist := match e with Ok b => b | Err _ => false end in
  if negb exist then
    wrap "error dropping User" (on s (DropUser 0 accountName)) ;;;
    wrap "error creating User" (on s (CreateUser 0 accountName createUserOpts))
  else if creds.2 then wrap "error altering User" (on s (AlterUser 0 accountName createUserOpts))
  else ret tt.

Definition User_Finalize (s : server) : Q User unit :=
  u <- get ;; wrap "error dropping user in MariaDB" (on s (DropUser 0 (User_AccountName u))).

#[export] Program Instance User_SqlResource : SqlResource User := {|
  res_meta u := sc_meta (u_common u);
  res_MariaDBRef u := sc_MariaDBRef (u_common u);
  IsBeingDeleted u := sc_deleting (u_common u);
  res_RequeueInterval u := sc_RequeueInterval (u_common u);
  res_RetryInterval u := sc_RetryInterval (u_common u);
  res_CleanupPolicy u := sc_CleanupPolicy (u_common u);
  finalizerName := "user.k8s.mariadb.com/finalizer";
  res_Finalizers u := sc_Finalizers (u_common u);
  set_Finalizers l u := { u with u_common -> sc_Finalizers := l };
  res_Conditioner SC := {|
    conditions u := sc_Conditions (u_common u);
    set_condition c u := { u with u_common -> sc_Conditions := SetStatusCondition (sc_Conditions (u_common u)) c }
  |};
  apply_sql := User_Reconcile;
  cleanup_sql := User_Finalize
|}.
Next Obligation. done. Qed.
Next Obligation. done. Qed.
Next Obligation. done. Qed.

(** ** Grant: api/v1alpha1/grant_types.go and grant_controller.go *)
Record GrantResource := mkGrantResource {
  g_common : sql_common;
  g_Privileges : list string;
  g_Database : string;
  g_Table : string;
  g_Username : string;
  g_Host : option string;
  g_GrantOption : bool;
  (** [Status.CurrentPrivileges]: nil and empty are used alike *)
  g_CurrentPrivileges : list string
}.

Definition Grant_HostnameOrDefault (g : GrantResource) : string :=
  match g_Host g with
  | Some h => if negb (bool_decide (h = "")) then h else "%"
  | None => "%"
  end.
Definition Grant_AccountName (g : GrantResource) : string :=
  "'" +:+ g_Username g +:+ "'@'" +:+ Grant_HostnameOrDefault g +:+ "'".

Definition privilegesToRevoke (g : GrantResource) : list string :=
  if bool_decide (g_CurrentPrivileges g = g_Privileges g) then []
  else filter (λ p, p ∉ g_Privileges g) (g_CurrentPrivileges g).

Definition Grant_Reconcile (s : server) : Q GrantResource unit :=
  g <- get ;;
  (if bool_decide (0 < length (privilegesToRevoke g))%nat then
     wrap "error revoking privileges in MariaDB"
       (on s (Revoke 0 (privilegesToRevoke g) (g_Database g) (g_Table g) (Grant_AccountName g) false))
   else ret tt) ;;;
  wrap "error granting privileges in MariaDB"
    (on s (Grant 0 (g_Privileges g) (g_Database g) (g_Table g) (Grant_AccountName g) (g_GrantOption g))) ;;;
  if negb (bool_decide (g_CurrentPrivileges g = g_Privileges g)) then
    wrap "error patching current privileges"
      (PatchStatus (λ g, { g with g_CurrentPrivileges := g_Privileges g }))
  else ret tt.

Definition Grant_Finalize (s : server) : Q GrantResource unit :=
  g <- get ;;
  exist <- wrap "error checking if user exists in MariaDB"
    (on s (UserExists 0 (g_Username g) (Grant_HostnameOrDefault g))) ;;
  if negb exist then ret tt else
  wrap "error revoking grant in MariaDB"
    (on s (Revoke 0 (g_Privileges g) (g_Database g) (g_Table g) (Grant_AccountName g) (g_GrantOption g))).

#[export] Program Instance Grant_SqlResource : SqlResource GrantResource := {|
  res_meta g := sc_meta (g_common g);
  res_MariaDBRef g := sc_MariaDBRef (g_common g);
  IsBeingDeleted g := sc_deleting (g_common g);
  res_RequeueInterval g := sc_RequeueInterval (g_common g);
  res_RetryInterval g := sc_RetryInterval (g_common g);
  res_CleanupPolicy g := sc_CleanupPolicy (g_common g);
  finalizerName := "grant.k8s.mariadb.com/finalizer";
  res_Finalizers g := sc_Finalizers (g_common g);
  set_Finalizers l g := { g with g_common -> sc_Finalizers := l };
  res_Conditioner SC := {|
    conditions g := sc_Conditions (g_common g);
    set_condition c g := { g with g_common -> sc_Conditions := SetStatusCondition (sc_Conditions (g_common g)) c }
  |};
  apply_sql := Grant_Reconcile;
  cleanup_sql := Grant_Finalize
|}.
Next Obligation. done. Qed.
Next Obligation. done. Qed.
Next Obligation. done. Qed.

(** ** Database: api/v1alpha1/database_types.go and database_controller.go *)
Record Database := mkDatabase {
  d_common : sql_common;
  d_CharacterSet : string;
  d_Collate : string;
  d_Name : string
}.
Definition DatabaseNameOrDefault (d : Database) : string :=
  if negb (bool_decide (d_Name d = "")) then d_Name d else Name (sc_meta (d_common d)).

Definition Database_Reconcile (s : server) : Q Database unit :=
  d <- get ;;
  wrap "error creating database in MariaDB"
    (on s (CreateDatabase 0 (DatabaseNameOrDefault d) (d_CharacterSet d) (d_Collate d))).
Definition Database_Finalize (s : server) : Q Database unit :=
  d <- get ;; wrap "error dropping database in MariaDB" (on s (DropDatabase 0 (DatabaseNameOrDefault d))).

#[export] Program Instance Database_SqlResource : SqlResource Database := {|
  res_meta d := sc_meta (d_common d);
  res_MariaDBRef d := sc_MariaDBRef (d_common d);
  IsBeingDeleted d := sc_deleting (d_common d);
  res_RequeueInterval d := sc_RequeueInterval (d_common d);
  res_RetryInterval d := sc_RetryInterval (d_common d);
  res_CleanupPolicy d := sc_CleanupPolicy (d_common d);
  finalizerName := "database.k8s.mariadb.com/finalizer";
  res_Finalizers d := sc_Finalizers (d_common d);
  set_Finalizers l d := { d with d_common -> sc_Finalizers := l };
  res_Conditioner SC := {|
    conditions d := sc_Conditions (d_common d);
    set_condition c d := { d with d_common -> sc_Conditions := SetStatusCondition (sc_Conditions (d_common d)) c }
  |};
  apply_sql := Database_Reconcile;
  cleanup_sql := Database_Finalize
|}.
Next Obligation. done. Qed.
Next Obligation. done. Qed.
Next Obligation. done. Qed.

(** ** What the instances promise the template *)
Class SqlContract (R : Type) `{!SqlResource R} := {
  (** the statements that show that the resource has been applied, or cleaned up *)
  applied : R → server → list (event (sqop R)) → Prop;
  cleaned : R → server → list (event (sqop R)) → Prop;
  apply_ok s r : wpM (apply_sql s) r (λ t _ res, res = Ok tt → applied r s t);
  cleanup_ok s r : wpM (cleanup_sql s) r (λ t r' res, (res = Ok tt → cleaned r s t) ∧ r' = r)
}.

(** A statement the server has executed, and a row it has answered. *)
Definition executed {R} (s : server) (query : string) (t : list (event (sqop R))) : Prop :=
  Ev (QClient s (SqlExec 0 query)) (Reply tt) ∈ t.
Definition answered {R} (s : server) (query : string) (args : list string) (row : string)
    (t : list (event (sqop R))) : Prop :=
  Ev (QClient s (SqlQueryRow 0 query args)) (Reply row) ∈ t.
Definition user_count_query : string := "SELECT COUNT(*) FROM mysql.user WHERE user=? AND host=?".
Definition account_known {R} (s : server) (username host : string) (known : bool) (t : list (event (sqop R))) : Prop :=
  ∃ row n, answered s user_count_query [username; host] row t ∧ Atoi row = Ok n ∧ bool_decide (0 < n) = known.

Lemma wpM_on {R A} s (m : M R op A) r Q :
  wpM m r (λ t r' res, Q (hoist_event (λ X, QClient s) <$> t) r' res) → wpM (on s m) r Q.
Proof. apply wpM_hoist. Qed.

Lemma wpM_on_Exec {R} s q (r : R) Q :
  (∀ x, Q [Ev (QClient s (SqlExec 0 q)) x] r (of_reply x)) → wpM (on s (Exec 0 q)) r Q.
Proof. intros HQ. apply wpM_on, wpM_call_reply. intros x. apply HQ. Qed.

Lemma wpM_on_UserExists {R} s user host (r : R) Q :
  (∀ b t, account_known s user host b t → length t = 1%nat → Q t r (Ok b)) → (∀ e t, Q t r (Err e)) →
  wpM (on s (UserExists 0 user host)) r Q.
Proof.
  intros Hok Herr. apply wpM_on. unfold UserExists, QueryRowInt, QueryRow. do 2 wp_step. wp_step; [|by apply Herr].
  wp_step. destruct (Atoi a) as [n|e] eqn:Hn; [|by apply Herr]. wp_step. apply Hok; [|done].
  exists a, n. split_and!; [|done|done]. unfold answered. cbn. set_solver.
Qed.

Definition drop_user_query (accountName : string) : string := "DROP USER IF EXISTS " +:+ accountName +:+ ";".
Definition drop_database_query (name : string) : string := "DROP DATABASE IF EXISTS `" +:+ name +:+ "`;".

Section contracts.
Context {R : Type}.
Implicit Types t : list (event (sqop R)).

Lemma executed_incl s q t t' : t ⊆ t' → executed s q t → executed s q t'.
Proof. intros Hs. apply Hs. Qed.
Lemma account_known_incl s u h b t t' : t ⊆ t' → account_known s u h b t → account_known s u h b t'.
Proof. intros Hs (row & n & Hin & ?). exists row, n. split; [by apply Hs|done]. Qed.
End contracts.

(** *** User *)
Definition user_applied (u : User) (s : server) (t : list (event (sqop User))) : Prop :=
  let account := User_AccountName u in
  let known := account_known s (UsernameOrDefault u) (User_HostnameOrDefault u) true t in
  ∃ creds, let o := apply_opts (user_opts u creds) CreateUserOpts_zero in
    executed s (drop_user_query account) t ∧
      (∃ q, create_user_query account o = Ok q ∧ executed s q t) ∨
    known ∧ (∃ q, alter_user_query account o = Ok q ∧ executed s q t) ∨
    known ∧ (u_PasswordSecretKeyRef u = None ∧ u_PasswordHashSecretKeyRef u = None ∧ u_PluginNameSecretKeyRef u = None ∨
             ∃ sel, Ev (QBase (KSecretKey sel (Namespace (sc_meta (u_common u))))) (Ok "") ∈ t).

Lemma user_credentials_spec u : wpM user_credentials u (λ t u' res, u' = u ∧ ∀ creds b, res = Ok (creds, b) → b = false →
  u_PasswordSecretKeyRef u = None ∧ u_PasswordHashSecretKeyRef u = None ∧ u_PluginNameSecretKeyRef u = None ∨
  ∃ sel, Ev (QBase (KSecretKey sel (Namespace (sc_meta (u_common u))))) (Ok "") ∈ t).
Proof.
  unfold user_credentials. do 2 wp_step. cbv zeta.
  assert (∀ ctx sel f Q, (∀ v, wpM (f v) u (λ t, Q (Ev (QBase (KSecretKey sel (Namespace (sc_meta (u_common u))))) (Ok v) :: t))) →
    (∀ e t, Q t u (Err e)) →
    wpM (bind (wrap ctx (api (call (KSecretKey sel (Namespace (sc_meta (u_common u))))))) f) u
      (Q : list (event (sqop User)) → User → result (list CreateUserOpt * bool) → Prop)) as Hsecret.
  { intros ctx sel f Q Hf He. wp_step. wp_step. apply wpM_hoist, wpM_call. intros [v|e]; cbn [wrap_err]; [apply Hf|apply He]. }
  assert (∀ sel v t (creds : list CreateUserOpt) opts b, Ok (creds, negb (bool_decide (v = ""))) = Ok (opts, b) → b = false →
    Ev (QBase (KSecretKey sel (Namespace (sc_meta (u_common u))))) (Ok v) ∈ t →
    ∃ sel, Ev (QBase (KSecretKey sel (Namespace (sc_meta (u_common u))))) (Ok "") ∈ (t : list (event (sqop User)))) as Hempty.
  { intros sel v t creds opts b [= _ <-] Hb Hin. apply negb_false_iff, bool_decide_eq_true in Hb as ->. by exists sel. }
  destruct (u_PluginNameSecretKeyRef u) as [sel|] eqn:H1.
  - apply Hsecret; [intros v|done]. destruct (u_PluginArgSecretKeyRef u) as [sel'|].
    + apply Hsecret; [intros v'|done]. wp_step. split; [done|]. intros. right. eapply Hempty; [done|done|by left].
    + wp_step. split; [done|]. intros. right. eapply Hempty; [done|done|by left].
  - destruct (u_PasswordHashSecretKeyRef u) as [sel|] eqn:H2; [|destruct (u_PasswordSecretKeyRef u) as [sel|] eqn:H3].
    + apply Hsecret; [intros v|done]. wp_step. split; [done|]. intros. right. eapply Hempty; [done|done|by left].
    + apply Hsecret; [intros v|done]. wp_step. split; [done|]. intros. right. eapply Hempty; [done|done|by left].
    + wp_step. split; [done|]. intros. by left.
Qed.

Lemma user_recreate_spec (u : User) s account opts :
  wpM (wrap "error dropping User" (on s (DropUser 0 account)) ;;;
       wrap "error creating User" (on s (CreateUser 0 account opts))) u (λ (t : list (event (sqop User))) _ res, res = Ok tt →
    executed s (drop_user_query account) t ∧
    ∃ q, create_user_query account (apply_opts opts CreateUserOpts_zero) = Ok q ∧ executed s q t).
Proof.
  wp_step. wp_step. apply wpM_on_Exec. intros [[]|f]; cbn [of_reply wrap_err]; [|done].
  wp_step. unfold CreateUser. apply wpM_on. wp_step. wp_step.
  destruct (create_user_query _ _) as [q|e] eqn:Hq; [|done]. apply wpM_call_reply. intros [[]|f]; [|done]. intros _.
  split; [unfold executed, drop_user_query; cbn; set_solver|]. exists q. split; [done|]. unfold executed. cbn. set_solver.
Qed.

#[export] Program Instance User_SqlContract : SqlContract User := {|
  applied := user_applied;
  cleaned u s t := executed s (drop_user_query (User_AccountName u)) t
|}.
Next Obligation.
  intros s u. unfold apply_sql, User_SqlResource, User_Reconcile. do 3 wp_step.
  eapply wpM_mono; [|apply user_credentials_spec]. intros t1 u' [[creds b]|e] [-> Hcreds]; [|done].
  specialize (Hcreds creds b eq_refl). cbn [fst snd]. wp_step. wp_step.
  assert (∀ t2 t3 : list (event (sqop User)), executed s (drop_user_query (User_AccountName u)) t3 ∧ (∃ q, create_user_query (User_AccountName u)
    (apply_opts (user_opts u creds) CreateUserOpts_zero) = Ok q ∧ executed s q t3) → user_applied u s (t1 ++ t2 ++ t3)) as Hdrop.
  { intros t2 t3 (Hd & q & Hq & He). exists creds. left. split; [eapply executed_incl; [|exact Hd]; set_solver|].
    exists q. split; [done|]. eapply executed_incl; [|exact He]. set_solver. }
  apply wpM_on_UserExists.
  - intros known t2 Hk _. destruct known; cbn [negb].
    + destruct b.
      * wp_step. unfold AlterUser. apply wpM_on. wp_step. wp_step.
        destruct (alter_user_query _ _) as [q|e] eqn:Hq; [|done].
        apply wpM_call_reply. intros [[]|f]; [|done]. intros _. exists creds. right; left. split; [eapply account_known_incl; [|exact Hk]; set_solver|].
        exists q. split; [done|]. unfold executed. cbn. set_solver.
      * wp_step. intros _. exists creds. right; right. split; [eapply account_known_incl; [|exact Hk]; set_solver|].
        destruct (Hcreds eq_refl) as [?|(sel & Hsel)]; [by left|right]. exists sel. set_solver.
    + eapply wpM_mono; [|apply user_recreate_spec]. intros t3 u' res Hres Hr. by apply Hdrop, Hres.
  - intros e t2. cbn [negb]. eapply wpM_mono; [|apply user_recreate_spec]. intros t3 u' res Hres Hr. by apply Hdrop, Hres.
Qed.
Next Obligation.
  intros s u. unfold cleanup_sql, User_SqlResource, User_Finalize. do 3 wp_step. unfold DropUser. apply wpM_on_Exec.
  intros [[]|f]; cbn; (split; [|done]); [|done]. intros _. unfold executed, drop_user_query. set_solver.
Qed.

(** *** Grant *)
#[export] Program Instance Grant_SqlContract : SqlContract GrantResource := {|
  applied g s t := executed s (grant_query (g_Privileges g) (g_Database g) (g_Table g) (Grant_AccountName g) (g_GrantOption g)) t;
  cleaned g s t :=
    account_known s (g_Username g) (Grant_HostnameOrDefault g) false t ∨
    executed s (revoke_query (g_Privileges g) (g_Database g) (g_Table g) (Grant_AccountName g) (g_GrantOption g)) t
|}.
Next Obligation.
  intros s g. unfold apply_sql, Grant_SqlResource, Grant_Reconcile. do 3 wp_step.
  assert (∀ (t1 : list (event (sqop GrantResource))) g1, wpM (wrap "error granting privileges in MariaDB"
      (on s (Grant 0 (g_Privileges g) (g_Database g) (g_Table g) (Grant_AccountName g) (g_GrantOption g))) ;;;
    if negb (bool_decide (g_CurrentPrivileges g = g_Privileges g)) then
      wrap "error patching current privileges" (PatchStatus (λ g, { g with g_CurrentPrivileges := g_Privileges g }))
    else ret tt) g1 (λ t2 _ res, res = Ok tt →
      executed s (grant_query (g_Privileges g) (g_Database g) (g_Table g) (Grant_AccountName g) (g_GrantOption g)) (t1 ++ t2))) as Hgrant.
  { intros t1 g1. wp_step. wp_step. unfold Grant. apply wpM_on_Exec. intros [[]|f]; cbn [of_reply wrap_err]; [|done].
    eapply wpM_mono; [|apply wpM_True]. intros. unfold executed. set_solver. }
  destruct (bool_decide (0 < _)%nat); [|wp_step; apply (Hgrant [])].
  wp_step. unfold Revoke. apply wpM_on_Exec. intros [[]|f]; cbn [of_reply wrap_err]; [|done]. apply Hgrant.
Qed.
Next Obligation.
  intros s g. unfold cleanup_sql, Grant_SqlResource, Grant_Finalize. do 3 wp_step. wp_step. apply wpM_on_UserExists; [|done].
  intros known t1 Hk _. cbn [wrap_err]. destruct known; cbn [negb].
  - wp_step. unfold Revoke. apply wpM_on_Exec. intros [[]|f]; cbn; (split; [|done]); [|done]. intros _. right. unfold executed. set_solver.
  - wp_step. split; [|done]. intros _. left. eapply account_known_incl; [|exact Hk]. set_solver.
Qed.

(** *** Database *)
Definition database_known_query (name : string) : string :=
  "SELECT EXISTS (SELECT 1 FROM INFORMATION_SCHEMA.SCHEMATA WHERE SCHEMA_NAME = '" +:+ name +:+ "')".
Definition create_database_query (d : Database) : string :=
  "CREATE DATABASE `" +:+ DatabaseNameOrDefault d +:+ "` " +:+
    (if non_empty_str (d_CharacterSet d) then "CHARACTER SET = '" +:+ d_CharacterSet d +:+ "' " else "") +:+
    (if non_empty_str (d_Collate d) then "COLLATE = '" +:+ d_Collate d +:+ "' " else "") +:+ ";".

#[export] Program Instance Database_SqlContract : SqlContract Database := {|
  applied d s t := answered s (database_known_query (DatabaseNameOrDefault d)) [] "1" t ∨ executed s (create_database_query d) t;
  cleaned d s t := executed s (drop_database_query (DatabaseNameOrDefault d)) t
|}.
Next Obligation.
  intros s d. unfold apply_sql, Database_SqlResource, Database_Reconcile. do 3 wp_step. apply wpM_on.
  unfold CreateDatabase, QueryRow. wp_step. wp_step; [|done]. destruct (bool_decide_reflect (a = "1")) as [-> |Hne].
  - wp_step. intros _. left. unfold answered, database_known_query. cbn. set_solver.
  - apply wpM_call_reply. intros [[]|f]; [|done]. intros _. right. unfold executed, create_database_query. cbn. set_solver.
Qed.
Next Obligation.
  intros s d. unfold cleanup_sql, Database_SqlResource, Database_Finalize. do 3 wp_step. unfold DropDatabase. apply wpM_on_Exec.
  intros [[]|f]; cbn; (split; [|done]); [|done]. intros _. unfold executed, drop_database_query. set_solver.
Qed.

(** ** The template *)
Section template_spec.
Context `{SC : StatusConditions} {R : Type} `{RES : !SqlResource R} `{CON : !SqlContract R}.
#[local] Existing Instance resource_conditioner.
Implicit Types t : list (event (sqop R)).

Definition res_IsReady (r : R) : bool := IsStatusConditionTrue (conditions r) ConditionTypeReady.

Lemma IsReady_set status reason msg (r : R) :
  res_IsReady (set ConditionTypeReady status reason msg r) = bool_decide (status = ConditionTrue).
Proof.
  unfold res_IsReady, set. rewrite conditions_set, is_true_find.
  by rewrite (find_set_eq (conditions r) (mkCondition ConditionTypeReady status reason msg)).
Qed.
Lemma ContainsFinalizer_set type status reason msg (r : R) :
  ContainsFinalizer (set type status reason msg r) = ContainsFinalizer r.
Proof.
  unfold ContainsFinalizer.
  by assert (res_Finalizers (set type status reason msg r) = res_Finalizers r) as -> by exact (finalizers_cond SC _ r).
Qed.

Lemma wpM_PatchStatus patcher (r : R) Q :
  (∀ x, Q [Ev (QPatchStatus r (patcher r)) x] (patcher r) (wrap_err "error patching status" x)) →
  wpM (PatchStatus patcher) r Q.
Proof. done. Qed.
Lemma wpM_patch_finalizers patcher (r : R) Q :
  (∀ x, Q [Ev (QPatch r (patcher r)) x] (patcher r) (wrap_err "error patching finalizer" x)) →
  wpM (patch_finalizers patcher) r Q.
Proof. done. Qed.

(** A statement sent to a server. *)
Definition statement (e : event (sqop R)) : Prop := match ev_op e with QClient _ _ => True | _ => False end.
Abbreviation no_statement := (λ e, ¬ statement e).

(** *** Finalizers *)
Lemma ContainsFinalizer_add (r : R) : ContainsFinalizer (add_finalizer r) = true.
Proof.
  unfold add_finalizer. destruct (ContainsFinalizer r) eqn:Hc; [done|].
  unfold ContainsFinalizer. rewrite finalizers_set. apply bool_decide_true. set_solver.
Qed.
Lemma ContainsFinalizer_remove (r : R) : ContainsFinalizer (remove_finalizer r) = false.
Proof.
  unfold ContainsFinalizer, remove_finalizer. rewrite finalizers_set. apply bool_decide_false.
  intros [? _]%list_elem_of_filter. done.
Qed.

Lemma AddFinalizer_spec (r : R) : wpM AddFinalizer r (λ t r' res,
  Forall no_statement t ∧ (res = Ok tt → ContainsFinalizer r' = true)).
Proof.
  unfold AddFinalizer, wrapped_AddFinalizer. do 2 wp_step. destruct (ContainsFinalizer r) eqn:Hc; [by wp_step|].
  do 3 wp_step. rewrite Hc. apply wpM_patch_finalizers. intros x. split; [repeat constructor; tauto|].
  intros _. apply ContainsFinalizer_add.
Qed.

Lemma wrapped_RemoveFinalizer_spec (r : R) : wpM wrapped_RemoveFinalizer r (λ t r' res,
  Forall no_statement t ∧ ContainsFinalizer r' = false).
Proof.
  unfold wrapped_RemoveFinalizer. do 2 wp_step. destruct (ContainsFinalizer r) eqn:Hc; cbn [negb]; [|by wp_step].
  apply wpM_patch_finalizers. intros x. split; [repeat constructor; tauto|]. apply ContainsFinalizer_remove.
Qed.

(** *** Health *)
Definition cluster_ready (m : MariaDB) t : Prop :=
  ∃ sts, Ev (QBase (KGetStatefulSet (ObjectKey m))) (Ok sts) ∈ t ∧ sts_ReadyReplicas sts = sp_Replicas (m_Spec m).
Definition reachable (o : MariaDBObject) t : Prop :=
  match o with ObjMariaDB m => cluster_ready m t | ObjExternal _ => True end.

Lemma reachable_incl o t t' : t ⊆ t' → reachable o t → reachable o t'.
Proof. destruct o; [|done]. intros Hs (sts & Hin & ?). exists sts. split; [by apply Hs|done]. Qed.

Lemma waitForMariaDB_spec o (r : R) : wpM (waitForMariaDB o) r (λ t r' res,
  Forall no_statement t ∧ r' = r ∧
  ∀ result, res = Ok result → result = requeue_after (1 * Second) ∨ result = Result_zero ∧ reachable o t).
Proof.
  destruct o as [m|key]; cbn [waitForMariaDB]; [|wp_step; split_and!; try done; intros ? [= <-]; by right].
  wp_step. apply wpM_hoist.
  eapply wpM_mono; [|apply IsStatefulSetHealthy_ready]. intros u r' res [-> Hready].
  assert (Forall no_statement (hoist_event (λ X, QBase (R := R)) <$> u)) as Hu
    by (apply Forall_fmap, Forall_forall; intros ? _; exact id).
  destruct res as [[|]|e]; cbn [negb]; [wp_step|wp_step|done]; rewrite app_nil_r; (split_and!; [done|done|]); intros ? [= <-];
    [right; split; [done|]|by left].
  destruct (Hready eq_refl) as (sts & Hin & Hr). exists sts. split; [|done].
  exact (list_elem_of_fmap_2 (hoist_event (λ X, QBase)) u _ Hin).
Qed.

(** *** Applying a resource *)
Definition resource_key (r : R) : NamespacedName := ref_key (res_MariaDBRef r) (Namespace (res_meta r)).
Definition external (r : R) : Prop := ref_Kind (res_MariaDBRef r) = ExternalMariaDBKind.
Definition resolved (r : R) (o : MariaDBObject) t : Prop :=
  match o with
  | ObjMariaDB m => ¬ external r ∧ ∃ deleting, Ev (QGetMariaDB (resource_key r)) (Ok (m, deleting)) ∈ t
  | ObjExternal key => external r ∧ key = resource_key r ∧ Ev (QGetExternal key) (Ok tt) ∈ t
  end.
(** The server of the resource is known, ready and connected. *)
Definition connected (r : R) (o : MariaDBObject) t : Prop :=
  resolved r o t ∧ reachable o t ∧ Ev (QConnect (server_of o)) (Ok tt) ∈ t.

Lemma resolved_incl r o t t' : t ⊆ t' → resolved r o t → resolved r o t'.
Proof.
  intros Hs. destruct o; cbn; [intros (? & d & ?)|intros (? & ? & ?)]; split_and!; try done; [exists d|]; by apply Hs.
Qed.

Lemma resolve_spec r : wpM (resolve_MariaDBObject (res_MariaDBRef r) (Namespace (res_meta r))) r (λ t r' res,
  Forall no_statement t ∧ r' = r ∧ ∀ o, res = Ok o → resolved r o t).
Proof.
  unfold resolve_MariaDBObject. destruct (bool_decide_reflect (ref_Kind (res_MariaDBRef r) = ExternalMariaDBKind)).
  - do 2 wp_step; [wp_step|]; (split_and!; [repeat constructor; tauto|done|]); [|done]. intros o [= <-].
    destruct a. split_and!; [done|done|by left].
  - do 2 wp_step; [wp_step|]; (split_and!; [repeat constructor; tauto|done|]); [|done]. intros o [= <-].
    destruct a as [m deleting]. split; [done|]. exists deleting. by left.
Qed.

Inductive sql_outcome (r : R) : list (event (sqop R)) → R → result ctrl_Result → Prop :=
  (** no statement is sent: the status tells the error, or the resource is left as it is *)
  | sql_refused t r' res : Forall no_statement t → res_IsReady r' = false →
      sql_outcome r t r' res
  | sql_waiting t : Forall no_statement t → sql_outcome r t r (Ok (requeue_after (1 * Second)))
  | sql_ran o t1 t2 t3 r' res : Forall no_statement t1 → connected r o t1 →
      (res_IsReady r' = true → ContainsFinalizer r' = true ∧ applied r (server_of o) t2) →
      sql_outcome r (t1 ++ t2 ++ t3) r' res.

Context (opts : SqlOptions).

Lemma retryResult_spec err (r : R) : wpM (retryResult err) r (λ t r' _, t = [] ∧ r' = r).
Proof. unfold retryResult. wp_auto; done. Qed.
Lemma requeueResult_keeps err (r : R) : wpM (requeueResult opts err) r (λ t r' _, r' = r).
Proof. unfold requeueResult, addRequeueIntervalOffset. wp_auto; done. Qed.

Lemma reconcile_connected_spec s (r : R) : wpM (reconcile_connected opts s) r (λ t r' _,
  ∃ t2 t3, t = t2 ++ t3 ∧ (res_IsReady r' = true → ContainsFinalizer r' = true ∧ applied r s t2)).
Proof.
  unfold reconcile_connected. do 4 wp_step. eapply wpM_mono; [|apply apply_ok]. intros t2 r2 [[]|err] Hap.
  - wp_step. wp_step. wp_step. eapply wpM_mono; [|apply AddFinalizer_spec]. intros t3 r3 added [_ Hadd].
    wp_step. wp_step. apply wpM_PatchStatus. intros x. eapply wpM_mono; [|apply requeueResult_keeps].
    intros t4 r4 res ->. eexists t2, _. split; [done|]. intros Hready. split; [|by apply Hap].
    destruct added as [[]|e]; [|by unfold Ready_PatcherWithError, err_option, SetReadyFailed, SetReadyFailedWithMessage in Hready; cbn in Hready; rewrite IsReady_set in Hready].
    cbn [err_option wrap_err]. unfold Ready_PatcherWithError, SetReadyCreated, SetReadyCreatedWithMessage. rewrite ContainsFinalizer_set. by apply Hadd.
  - wp_step. wp_step. apply wpM_PatchStatus. intros x. eapply wpM_mono; [|apply retryResult_spec].
    intros t4 r4 res [-> ->]. eexists t2, _. split; [done|].
    unfold Ready_PatcherFailed, SetReadyFailedWithMessage. by rewrite IsReady_set.
Qed.

Lemma Reconcile_outcome (r : R) : IsBeingDeleted r = false →
  wpM (Reconcile opts) r (λ t r' res, sql_outcome r t r' res).
Proof.
  intros Hdel. unfold Reconcile. do 2 wp_step. rewrite Hdel. wp_step. wp_step.
  eapply wpM_mono; [|apply resolve_spec]. intros t1 r1 [o|err] (Ht1 & -> & Hres).
  2: { cbv zeta. wp_step. wp_step. apply wpM_PatchStatus. intros x. wp_step. wp_step. wp_step.
       assert (∀ k, res_IsReady (Ready_PatcherRefResolver (Some err) k r) = false) as Hf.
       { intros k. unfold Ready_PatcherRefResolver, SetReadyFailedWithMessage. destruct (IsNotFound err); by rewrite IsReady_set. }
       destruct (multierror _ _); cbn [wrap_err]; [wp_step|]; (apply sql_refused; [|apply Hf]); apply Forall_app_2; try done; repeat constructor; tauto. }
  wp_step. wp_step. eapply wpM_mono; [|apply waitForMariaDB_spec]. intros t2 r2 [result|err] (Ht2 & -> & Hw).
  2: { wp_step. wp_step. apply wpM_PatchStatus. intros x. wp_step. wp_step.
       assert (res_IsReady (Ready_PatcherWithError (Some err) r) = false) as Hf.
       { unfold Ready_PatcherWithError, SetReadyFailed, SetReadyFailedWithMessage. by rewrite IsReady_set. }
       destruct (multierror _ _); [wp_step|]; (apply sql_refused; [|done]); repeat apply Forall_app_2; try done; repeat constructor; tauto. }
  destruct (Hw result eq_refl) as [-> |[-> Hreach]].
  { replace (negb (Result_IsZero (requeue_after (1 * Second)))) with true by done. wp_step.
    apply sql_waiting. repeat apply Forall_app_2; done. }
  replace (negb (Result_IsZero Result_zero)) with false by done. cbv zeta. wp_step. wp_step. apply wpM_call. intros [[]|err].
  2: { wp_step. wp_step. apply wpM_PatchStatus. intros x. eapply wpM_mono; [|apply retryResult_spec].
       intros t4 r4 res [-> ->]. apply sql_refused.
       - repeat apply Forall_app_2; try done; repeat constructor; tauto.
       - unfold Ready_PatcherFailed, SetReadyFailedWithMessage. by rewrite IsReady_set. }
  eapply wpM_mono; [|apply reconcile_connected_spec]. intros t r' res (t3 & t4 & -> & Hready).
  set (ev := Ev (QConnect (server_of o)) (Ok ())).
  replace (t1 ++ t2 ++ [ev] ++ t3 ++ t4) with ((t1 ++ t2 ++ [ev]) ++ t3 ++ t4) by by rewrite <- !(assoc_L (++)).
  apply (sql_ran _ o); [repeat apply Forall_app_2; try done; repeat constructor; tauto| |done]. split_and!.
  - eapply resolved_incl; [|by apply Hres]. set_solver.
  - eapply reachable_incl; [|exact Hreach]. set_solver.
  - set_solver.
Qed.

(** *** Cleaning up a resource *)
(** Why the finalizer of a resource of a MariaDB may go.  That there is no MariaDB of its name says
    nothing of an external server. *)
Inductive may_forget (r : R) t : Prop :=
  | forget_gone err : ¬ external r → IsNotFound err = true → Ev (QGetMariaDB (resource_key r)) (Err err) ∈ t → may_forget r t
  | forget_deleting m : Ev (QGetMariaDB (resource_key r)) (Ok (m, true)) ∈ t → may_forget r t
  | forget_policy : default CleanupPolicyDelete (res_CleanupPolicy r) ≠ CleanupPolicyDelete → may_forget r t
  | forget_cleaned m t1 t2 t3 : t = t1 ++ t2 ++ t3 → Ev (QGetMariaDB (resource_key r)) (Ok (m, false)) ∈ t1 →
      cluster_ready m t1 → cleaned r (OfMariaDB (ObjectKey m)) t2 → may_forget r t.

Lemma may_forget_app r t t' : may_forget r t → may_forget r (t ++ t').
Proof.
  intros [err ? ? Hin|m Hin|?|m t1 t2 t3 -> Hm Hr Hcl].
  - apply (forget_gone _ _ err); [done..|set_solver].
  - apply (forget_deleting _ _ m); set_solver.
  - by apply forget_policy.
  - eapply (forget_cleaned _ _ m t1 t2 (t3 ++ t')); [by rewrite <- !(assoc_L (++))|done..].
Qed.

(** When the objects of a deleted resource may be touched. *)
Definition cleanup_allowed (r : R) t : Prop :=
  default CleanupPolicyDelete (res_CleanupPolicy r) = CleanupPolicyDelete ∧
  ∃ m, Ev (QGetMariaDB (resource_key r)) (Ok (m, false)) ∈ t ∧ cluster_ready m t ∧
    Ev (QConnect (OfMariaDB (ObjectKey m))) (Ok tt) ∈ t.
Lemma cleanup_allowed_app r t t' : cleanup_allowed r t → cleanup_allowed r (t ++ t').
Proof.
  intros (Hp & m & H1 & H2 & H3). split; [done|]. exists m. split_and!; [set_solver| |set_solver].
  eapply (reachable_incl (ObjMariaDB m)); [|exact H2]. set_solver.
Qed.

Definition finalized (r : R) t (r' : R) (res : result ctrl_Result) : Prop :=
  (¬ external r → ContainsFinalizer r' = false → may_forget r t) ∧ (res = Ok Result_zero → ContainsFinalizer r' = false) ∧
  guarded statement (cleanup_allowed r) t.

Lemma finalized_stop r t res : ContainsFinalizer r = true → Forall no_statement t → res ≠ Ok Result_zero → finalized r t r res.
Proof. intros Hc Ht Hres. split_and!; [congruence|done|by apply guarded_none]. Qed.

Lemma finalized_remove r ctx t0 r0 : guarded statement (cleanup_allowed r) t0 → (¬ external r → may_forget r t0) →
  wpM (wrap ctx wrapped_RemoveFinalizer ;;; ret Result_zero) r0 (λ t r' res, finalized r (t0 ++ t) r' res).
Proof.
  intros Hg Hf. wp_step. wp_step. eapply wpM_mono; [|apply wrapped_RemoveFinalizer_spec].
  intros t r' [[]|e] [Ht Hr]; cbn [wrap_err]; [wp_step|]; rewrite ?app_nil_r;
    (split_and!; [by intros Hex _; apply may_forget_app, Hf|done|]); apply guarded_append; try done; by apply guarded_none.
Qed.

(** With a connection to the cluster. *)
Lemma finalized_connected r m pre : ContainsFinalizer r = true → Forall no_statement pre →
  Ev (QGetMariaDB (resource_key r)) (Ok (m, false)) ∈ pre → cluster_ready m pre →
  Ev (QConnect (OfMariaDB (ObjectKey m))) (Ok tt) ∈ pre →
  wpM ((if bool_decide (default CleanupPolicyDelete (res_CleanupPolicy r) = CleanupPolicyDelete)
        then wrap "error reconciling in TemplateFinalizer" (cleanup_sql (OfMariaDB (ObjectKey m))) else ret tt) ;;;
       wrap "error removing finalizer in TemplateFinalizer" wrapped_RemoveFinalizer ;;; ret Result_zero) r
    (λ t r' res, finalized r (pre ++ t) r' res).
Proof.
  intros Hc Hpre Hin Hready Hconn. wp_step.
  destruct (bool_decide_reflect (default CleanupPolicyDelete (res_CleanupPolicy r) = CleanupPolicyDelete)) as [Hp|Hp].
  2: { wp_step. apply finalized_remove; [by apply guarded_none|by intros _; apply forget_policy]. }
  assert (∀ u, guarded statement (cleanup_allowed r) (pre ++ u)) as Hg.
  { intros u. apply guarded_app; [apply cleanup_allowed_app|done|]. split; [done|]. by exists m. }
  wp_step. eapply wpM_mono; [|apply cleanup_ok]. intros t2 r2 [[]|e] [Hcl ->]; cbn [wrap_err].
  - apply (wpM_mono _ _ (λ t r' res, finalized r ((pre ++ t2) ++ t) r' res)); [|apply finalized_remove; [apply Hg|]].
    + intros t r' res. by rewrite <- (assoc_L (++)).
    + intros _. eapply (forget_cleaned _ _ m pre t2 []); [by rewrite app_nil_r|done|done|by apply Hcl].
  - split_and!; [congruence|done|apply Hg].
Qed.

Lemma Finalize_spec (r : R) : ContainsFinalizer r = true → wpM Finalize r (finalized r).
Proof.
  intros Hc. unfold Finalize. do 2 wp_step. rewrite Hc. cbn [negb]. fold (resource_key r).
  wp_step. wp_step. apply wpM_call. intros [[m deleting]|err].
  2: { set (t0 := [Ev (QGetMariaDB (resource_key r)) (Err err)]). assert (Forall no_statement t0) as Ht0 by (repeat constructor; tauto).
       destruct (IsNotFound err) eqn:Hnf; [|wp_step; by apply finalized_stop].
       apply (finalized_remove r _ t0); [by apply guarded_none|]. intros Hex. apply (forget_gone _ _ err); [done..|by left]. }
  set (ev := Ev (QGetMariaDB (resource_key r)) (Ok (m, deleting))). assert (Forall no_statement [ev]) as Hev by (repeat constructor; tauto).
  destruct deleting; [apply (finalized_remove r _ [ev]); [by apply guarded_none|intros _; apply (forget_deleting _ _ m); by left]|].
  wp_step. eapply wpM_mono; [|apply waitForMariaDB_spec]. intros t1 r1 [result|e] (Ht1 & -> & Hw).
  2: { apply finalized_stop; [done|by constructor; [tauto|]|done]. }
  assert (Forall no_statement (ev :: t1)) as Hpre by (constructor; [tauto|done]).
  destruct (Hw result eq_refl) as [-> |[-> Hreach]].
  { replace (negb (Result_IsZero (requeue_after (1 * Second)))) with true by done. wp_step. rewrite app_nil_r. by apply finalized_stop. }
  replace (negb (Result_IsZero Result_zero)) with false by done. wp_step. wp_step. apply wpM_call. intros [[]|e]; cbn [wrap_err].
  2: { apply finalized_stop; [done| |done]. apply (Forall_app_2 _ (ev :: t1)); [done|repeat constructor; tauto]. }
  set (evc := Ev (QConnect _) _). 
  apply (wpM_mono _ _ (λ t r' res, finalized r (((ev :: t1) ++ [evc]) ++ t) r' res)); [|apply finalized_connected]; [|done| |by left| |].
  - intros t r' res. by rewrite <- (assoc_L (++)).
  - apply Forall_app_2; [done|repeat constructor; tauto].
  - eapply (reachable_incl (ObjMariaDB m)); [|exact Hreach]. set_solver.
  - set_solver.
Qed.

(** ** Properties of the template *)

(** C24: a SQL resource whose Ready condition is true after a run was either left untouched
    because its cluster is not ready, or the run has applied it on the server of its
    reference, ready and connected, and it carries the finalizer that protects the
    objects in the database from being forgotten. *)
Theorem sql_ready_means_applied (r : R) : IsBeingDeleted r = false →
  wpM (Reconcile opts) r (λ t r' res, res_IsReady r' = true →
    r' = r ∧ res = Ok (requeue_after (1 * Second)) ∨
    ContainsFinalizer r' = true ∧
    ∃ o t1 t2 t3, t = t1 ++ t2 ++ t3 ∧ connected r o t1 ∧ applied r (server_of o) t2).
Proof.
  intros Hd. eapply wpM_mono; [|by apply Reconcile_outcome]. intros t r' res Hout Hready.
  destruct Hout as [t r' res _ Hf|t _|o t1 t2 t3 r' res _ Hc Hr]; [congruence|by left|right].
  destruct (Hr Hready) as [Hfin Ha]. split; [done|]. by exists o, t1, t2, t3.
Qed.

(** C32: the finalizer of a deleted SQL resource of a MariaDB is removed only once its objects have
    been cleaned up in a ready cluster, or there is nothing to clean up (the MariaDB is gone or
    being deleted), or the policy is to keep them; and a run that ends without an error and
    without asking to be called again has removed it, whatever the server.  Nothing is promised
    of the objects in an external server: there they are forgotten
    ([external_resource_not_cleaned]). *)
Theorem sql_finalizer_protects (r : R) : IsBeingDeleted r = true → ContainsFinalizer r = true →
  wpM (Reconcile opts) r (λ t r' res,
    (¬ external r → ContainsFinalizer r' = false → may_forget r t) ∧ (res = Ok Result_zero → ContainsFinalizer r' = false)).
Proof.
  intros Hd Hc. unfold Reconcile. do 2 wp_step. rewrite Hd.
  eapply wpM_mono; [|by apply Finalize_spec]. by intros t r' res (H1 & H2 & _).
Qed.

(** No statement reaches a server before the run has read the MariaDB of the reference,
    found all its replicas ready (an external server has none) and connected; for a
    deleted resource, only with the policy to delete its objects. *)
Theorem sql_statements_need_ready_server (r : R) :
  wpM (Reconcile opts) r (λ t _ _, guarded statement (λ u,
    IsBeingDeleted r = false ∧ (∃ o, connected r o u) ∨
    IsBeingDeleted r = true ∧ cleanup_allowed r u) t).
Proof.
  destruct (IsBeingDeleted r) eqn:Hd.
  - unfold Reconcile. do 2 wp_step. rewrite Hd. cbn [app]. destruct (ContainsFinalizer r) eqn:Hc.
    + eapply wpM_mono; [|by apply Finalize_spec]. intros t r' res (_ & _ & Hg).
      eapply guarded_mono; [|exact Hg]. intros u Hu. by right.
    + unfold Finalize. do 2 wp_step. rewrite Hc. cbn [negb]. wp_step. apply guarded_nil.
  - eapply wpM_mono; [|by apply Reconcile_outcome]. intros t r' res Hout.
    destruct Hout as [t r' res Ht _|t Ht|o t1 t2 t3 r' res Ht Hc _]; [by apply guarded_none..|].
    apply guarded_app; [|done|left; split; [done|by exists o]].
    intros u v [[_ (o' & H1 & H2 & H3)]|(? & _)]; [left|done]. split; [done|]. exists o'. split_and!.
    + eapply resolved_incl; [|exact H1]. set_solver.
    + eapply reachable_incl; [|exact H2]. set_solver.
    + set_solver.
Qed.

(** A deleted resource of an external server is looked up as a MariaDB of the same name:
    when there is none, its finalizer goes and its objects stay. *)
Theorem external_resource_not_cleaned (r : R) : external r → ContainsFinalizer r = true →
  wpM Finalize r (λ t r' res, ∃ x t', t = Ev (QGetMariaDB (resource_key r)) x :: t' ∧
    ∀ err, x = Err err → IsNotFound err = true → Forall no_statement t ∧ ContainsFinalizer r' = false).
Proof.
  intros _ Hc. unfold Finalize. do 2 wp_step. rewrite Hc. cbn [negb]. fold (resource_key r).
  wp_step. wp_step. apply wpM_call. intros [[m deleting]|err].
  - eapply wpM_mono; [|apply wpM_True]. intros t r' res _. by eexists _, _.
  - destruct (IsNotFound err) eqn:Hnf.
    + wp_step. wp_step. eapply wpM_mono; [|apply wrapped_RemoveFinalizer_spec]. intros t r' [[]|e] [Ht Hr]; cbn [wrap_err]; [wp_step|];
        (eexists _, _; split; [done|]); intros _ _ _; (split; [|done]); rewrite ?app_nil_r; (constructor; [tauto|done]).
    + wp_step. eexists _, _. split; [done|]. intros err' [= <-] Hnf'. congruence.
Qed.
End template_spec.

(** ** Grants: the privileges of an account

    The account's privileges on the object of the grant are a set, which the statements
    of the controller change: the controller is to make it the set of the spec, and the status
    is its record of what has been granted. *)
Inductive priv_stmt := RevokeStmt (l : list string) | GrantStmt (l : list string).
Definition exec_priv (S : gset string) (st : priv_stmt) : gset string :=
  match st with
  | RevokeStmt l => S ∖ list_to_set l
  | GrantStmt l => S ∪ list_to_set l
  end.
Definition exec_all (l : list priv_stmt) (S : gset string) : gset string := foldl exec_priv S l.

Definition grant_plan (g : GrantResource) : list priv_stmt :=
  (if bool_decide (0 < length (privilegesToRevoke g))%nat then [RevokeStmt (privilegesToRevoke g)] else []) ++
  [GrantStmt (g_Privileges g)].
Definition stmt_query (g : GrantResource) (st : priv_stmt) : string :=
  match st with
  | RevokeStmt l => revoke_query l (g_Database g) (g_Table g) (Grant_AccountName g) false
  | GrantStmt l => grant_query l (g_Database g) (g_Table g) (Grant_AccountName g) (g_GrantOption g)
  end.

(** The statements of a run, in order, and the privileges the API server records after it. *)
Definition sent {R} (t : list (event (sqop R))) : list string :=
  omap (λ e, match ev_op e with
             | QClient _ o => match o with SqlExec _ q => Some q | _ => None end
             | _ => None
             end) t.
Definition record_privileges (l : list string) (e : event (sqop GrantResource)) : list string :=
  match ev_op e in sqop _ X return X → list string with
  | QPatchStatus _ g' => λ res, if is_ok res then g_CurrentPrivileges g' else l
  | _ => λ _, l
  end (ev_ans e).
Definition recorded (g : GrantResource) (t : list (event (sqop GrantResource))) : list string :=
  foldl record_privileges (g_CurrentPrivileges g) t.

Definition wanted (g : GrantResource) : gset string := list_to_set (g_Privileges g).

Lemma privilegesToRevoke_set g : (list_to_set (privilegesToRevoke g) : gset string) =
  list_to_set (g_CurrentPrivileges g) ∖ wanted g.
Proof.
  unfold privilegesToRevoke, wanted. case_bool_decide as Heq; [rewrite Heq; set_solver|].
  apply set_eq. intros p. rewrite elem_of_difference, !elem_of_list_to_set, list_elem_of_filter. tauto.
Qed.

Lemma exec_plan g S : S ⊆ list_to_set (g_CurrentPrivileges g) ∪ wanted g → exec_all (grant_plan g) S = wanted g.
Proof.
  intros HS. unfold grant_plan, exec_all. pose proof (privilegesToRevoke_set g) as Hr.
  case_bool_decide as Hl; cbn [app foldl exec_priv]; fold (wanted g).
  - rewrite Hr. apply set_eq. intros p. specialize (HS p). rewrite elem_of_union in HS.
    rewrite elem_of_union, !elem_of_difference. destruct (decide (p ∈ wanted g)); tauto.
  - destruct (privilegesToRevoke g); [|cbn in Hl; lia]. cbn in Hr. apply set_eq. intros p. specialize (HS p).
    rewrite elem_of_union in HS. rewrite elem_of_union. assert (p ∉ list_to_set (g_CurrentPrivileges g) ∖ wanted g) as Hn
      by by rewrite <- Hr; apply not_elem_of_empty.
    rewrite elem_of_difference in Hn. destruct (decide (p ∈ wanted g)); tauto.
Qed.
Lemma exec_prefix g S j : exec_all (take j (grant_plan g)) S ⊆ S ∪ wanted g.
Proof.
  unfold grant_plan, exec_all, wanted. case_bool_decide; destruct j as [|[|j]]; cbn [app take foldl exec_priv]; rewrite ?take_nil; cbn; set_solver.
Qed.

Definition grant_post (g : GrantResource) (t : list (event (sqop GrantResource))) (res : result unit) : Prop :=
  ∃ k, sent t = stmt_query g <$> take k (grant_plan g) ∧
    ∀ S, S ⊆ list_to_set (g_CurrentPrivileges g) ∪ wanted g →
      match res with
      | Ok _ => k = length (grant_plan g) ∧ recorded g t = g_Privileges g ∧ exec_all (grant_plan g) S = wanted g
      | Err _ => ∀ j, (j ≤ k)%nat → exec_all (take j (grant_plan g)) S ⊆ list_to_set (recorded g t) ∪ wanted g
      end.

Lemma grant_post_partial g t k e : sent t = stmt_query g <$> take k (grant_plan g) →
  recorded g t = g_CurrentPrivileges g → grant_post g t (Err e).
Proof.
  intros Hs Hr. exists k. split; [done|]. intros S HS j _. rewrite Hr. pose proof (exec_prefix g S j). set_solver.
Qed.
Lemma grant_post_done g t : sent t = stmt_query g <$> grant_plan g → recorded g t = g_Privileges g →
  grant_post g t (Ok tt).
Proof.
  intros Hs Hr. exists (length (grant_plan g)). rewrite take_ge by done. split; [done|].
  intros S HS. split_and!; [done|done|by apply exec_plan].
Qed.

Lemma sent_app {R} (t t' : list (event (sqop R))) : sent (t ++ t') = sent t ++ sent t'.
Proof. apply omap_app. Qed.

(** The grant and its record, after the statements [t0] of the plan. *)
Lemma grant_tail g s t0 l : grant_plan g = l ++ [GrantStmt (g_Privileges g)] →
  sent t0 = stmt_query g <$> l → recorded g t0 = g_CurrentPrivileges g →
  wpM (wrap "error granting privileges in MariaDB"
      (on s (Grant 0 (g_Privileges g) (g_Database g) (g_Table g) (Grant_AccountName g) (g_GrantOption g))) ;;;
    if negb (bool_decide (g_CurrentPrivileges g = g_Privileges g)) then
      wrap "error patching current privileges" (PatchStatus (λ g, { g with g_CurrentPrivileges := g_Privileges g }))
    else ret tt) g (λ t _ res, grant_post g (t0 ++ t) res).
Proof.
  intros Hplan Hsent Hrec. wp_step. wp_step. unfold Grant. apply wpM_on_Exec. set (q := grant_query _ _ _ _ _).
  assert (∀ x u, sent u = [] → sent (t0 ++ Ev (QClient s (SqlExec 0 q)) x :: u) = stmt_query g <$> grant_plan g) as Hs.
  { intros x u Hu. rewrite sent_app, Hsent, Hplan, fmap_app. f_equal. cbn. unfold sent in Hu. by rewrite Hu. }
  assert (∀ x u, recorded g (t0 ++ Ev (QClient s (SqlExec 0 q)) x :: u) = foldl record_privileges (g_CurrentPrivileges g) u) as Hr.
  { intros x u. unfold recorded in *. by rewrite foldl_app, Hrec. }
  intros [[]|f]; cbn [of_reply wrap_err].
  2: { apply (grant_post_partial _ _ (length (grant_plan g))); [rewrite take_ge by done; by apply Hs|by rewrite Hr]. }
  destruct (bool_decide_reflect (g_CurrentPrivileges g = g_Privileges g)) as [Heq|Hne]; cbn [negb app].
  - wp_step. apply grant_post_done; [by apply Hs|by rewrite Hr].
  - wp_step. apply wpM_PatchStatus. intros [[]|e]; cbn [wrap_err].
    + apply grant_post_done; [by apply Hs|by rewrite Hr].
    + apply (grant_post_partial _ _ (length (grant_plan g))); [rewrite take_ge by done; by apply Hs|by rewrite Hr].
Qed.

(** Whatever fails on the way, the controller sends a prefix of its plan (revoke what
    the status records and the spec no longer wants, then grant the spec) and leaves no
    privilege behind that neither the recorded status nor the spec names; when it
    succeeds, the privileges of the account are exactly those of the spec, and recorded.
    [S] is the set of privileges before the run, and a statement that failed may or may
    not have been executed. *)
Theorem grant_refines_privileges g s : wpM (Grant_Reconcile s) g (λ t _ res, ∃ k,
  sent t = stmt_query g <$> take k (grant_plan g) ∧
  ∀ S, S ⊆ list_to_set (g_CurrentPrivileges g) ∪ wanted g →
    match res with
    | Ok _ => k = length (grant_plan g) ∧ recorded g t = g_Privileges g ∧ exec_all (grant_plan g) S = wanted g
    | Err _ => ∀ j, (j ≤ k)%nat → exec_all (take j (grant_plan g)) S ⊆ list_to_set (recorded g t) ∪ wanted g
    end).
Proof.
  change (wpM (Grant_Reconcile s) g (λ t _ res, grant_post g t res)). unfold Grant_Reconcile. do 3 wp_step.
  destruct (bool_decide (0 < length (privilegesToRevoke g))%nat) eqn:Hb.
  - assert (grant_plan g = [RevokeStmt (privilegesToRevoke g)] ++ [GrantStmt (g_Privileges g)]) as Hplan
      by by unfold grant_plan; rewrite Hb.
    wp_step. unfold Revoke. apply wpM_on_Exec. intros [[]|f]; cbn [of_reply wrap_err].
    + by apply (grant_tail g s [_] [RevokeStmt (privilegesToRevoke g)]).
    + apply (grant_post_partial _ _ 1); [by rewrite Hplan|done].
  - wp_step. apply (grant_tail g s [] []); [by unfold grant_plan; rewrite Hb|done|done].
Qed.

(** ** Users: a lookup that fails drops the account *)
Definition failed_query (e : event (sqop User)) : bool :=
  match ev_op e in sqop _ X return X → bool with
  | QClient _ o =>
      match o in op X return X → bool with
      | SqlQueryRow _ _ _ => λ r, match r with Fail _ => true | Reply _ => false end
      | _ => λ _, false
      end
  | _ => λ _, false
  end (ev_ans e).

(** The error of the lookup is only logged and counts as a missing account: an account
    that exists is then dropped, with its grants, and created again. *)
Theorem user_dropped_when_lookup_fails u s : wpM (User_Reconcile s) u (λ t _ _,
  ∀ f, Ev (QClient s (SqlQueryRow 0 user_count_query [UsernameOrDefault u; User_HostnameOrDefault u])) (Fail f) ∈ t →
    ∃ x, Ev (QClient s (SqlExec 0 (drop_user_query (User_AccountName u)))) x ∈ t).
Proof.
  set (lookup := QClient s (SqlQueryRow 0 user_count_query _)).
  assert (∀ t, Forall (λ e, failed_query e = false) t → ∀ f, Ev lookup (Fail f) ∈ t →
    ∃ x, Ev (QClient s (SqlExec 0 (drop_user_query (User_AccountName u)))) x ∈ t) as Hnone.
  { intros t Ht f Hin. rewrite Forall_forall in Ht. specialize (Ht _ Hin). done. }
  unfold User_Reconcile. do 3 wp_step.
  eapply wpM_mono; [|apply wpM_conj; [apply (alwaysM_wpM (λ e, failed_query e = false)); always_auto; done|apply user_credentials_spec]].
  intros t1 u' [[creds b]|e] (Ht1 & -> & _); [|by apply Hnone].
  cbv zeta. wp_step. wp_step. apply wpM_on. unfold UserExists, QueryRowInt, QueryRow. do 2 wp_step. wp_step.
  - assert (∀ (k : bool) u', wpM (if negb k then
        wrap "error dropping User" (on s (DropUser 0 (User_AccountName u))) ;;;
        wrap "error creating User" (on s (CreateUser 0 (User_AccountName u) (user_opts u creds)))
      else if b then wrap "error altering User" (on s (AlterUser 0 (User_AccountName u) (user_opts u creds))) else ret tt) u'
        (λ t _ _, Forall (λ e, failed_query e = false) t)) as Hrest.
    { intros k u'. apply alwaysM_wpM. unfold on. always_auto; done. }
    wp_step. destruct (Atoi a); [wp_step|]; (eapply wpM_mono; [|apply Hrest]); intros t2 u2 res Ht2; apply Hnone;
      apply Forall_app_2; try done; constructor; done.
  - cbn [negb]. wp_step. wp_step. apply wpM_on_Exec. intros [[]|f']; cbn [of_reply wrap_err].
    + eapply wpM_mono; [|apply wpM_True]. intros t2 u2 res _ ? _. exists (Reply tt). unfold drop_user_query. set_solver.
    + intros ? _. exists (Fail f'). unfold drop_user_query. set_solver.
Qed.

(** ** Witnesses: a database of a cluster in which every request succeeds *)
Definition db_ex : Database :=
  mkDatabase (mkSqlCommon (mkObjectMeta "shop" "default" "" ∅ ∅) [] false
    (mkMariaDBRef "mariadb-galera" "" "" true) None None None []) "utf8" "" "".
Definition db_deleted : Database :=
  { db_ex with d_common -> sc_deleting := true; d_common -> sc_Finalizers := ["database.k8s.mariadb.com/finalizer"] }.
Definition sql_opts_ex : SqlOptions := mkSqlOptions (10 * Hour) (1 * Hour).

Definition sq_env : env (sqop Database) := {|
  answer X _ o :=
    match o in sqop _ X return X with
    | QBase o =>
        match o in op X return X with
        | KListEndpointSlices _ => Ok [mkEndpointSlice [Some 0] []]
        | o => friendly (MariaDB_zero meta_ex) [] 0 o
        end
    | QGet _ => Ok db_ex
    | QGetMariaDB _ => Ok (MariaDB_zero meta_ex, false)
    | QClient _ o => friendly (MariaDB_zero meta_ex) [] 0 o
    | QRand => 5
    | _ => Ok tt
    end;
  choice _ := false
|}.

Lemma sql_ready_means_applied_witness :
  let out := run sq_env (Reconcile sql_opts_ex db_ex) [] in
  ContainsFinalizer out.2.1 = true ∧
  ∃ o t1 t2 t3, out.1 = t1 ++ t2 ++ t3 ∧ connected db_ex o t1 ∧ applied db_ex (server_of o) t2.
Proof.
  cbv zeta. assert (res_IsReady (run sq_env (Reconcile sql_opts_ex db_ex) []).2.1 = true) as Hr by (vm_compute; reflexivity).
  assert (IsBeingDeleted db_ex = false) as Hd by (vm_compute; reflexivity).
  destruct (wpM_sound _ _ _ (sql_ready_means_applied sql_opts_ex db_ex Hd) sq_env [] Hr) as [[_ Hw]|Ha]; [|exact Ha].
  exfalso. vm_compute in Hw. discriminate Hw.
Defined.

Lemma sql_finalizer_protects_witness :
  let out := run sq_env (Reconcile sql_opts_ex db_deleted) [] in
  out.2.2 = Ok Result_zero ∧ ContainsFinalizer out.2.1 = false ∧ may_forget db_deleted out.1.
Proof.
  cbv zeta. assert ((run sq_env (Reconcile sql_opts_ex db_deleted) []).2.2 = Ok Result_zero) as Hr by (vm_compute; reflexivity).
  assert (IsBeingDeleted db_deleted = true) as Hd by (vm_compute; reflexivity).
  assert (ContainsFinalizer db_deleted = true) as Hc by (vm_compute; reflexivity).
  destruct (wpM_sound _ _ _ (sql_finalizer_protects sql_opts_ex db_deleted Hd Hc) sq_env []) as [Hf Hok].
  split; [exact Hr|]. split; [exact (Hok Hr)|]. apply Hf; [vm_compute; discriminate|exact (Hok Hr)].
Defined.
