(* ===== verification/Pki.v ===== *)
(** * pkg/pki: key pairs, certificates, trust bundles and renewal times

    Certificates are read from and written to PEM by the Go standard library, whose
    crypto and encoding packages are the interface [X509]: what the code relies on is
    that decoding a PEM block consumes input and that an encoded block is decoded
    again.  A [time.Duration] is an int64: the product of the renewal duration wraps
    around. *)

From S2P Require Import Prelude GoStrings GoTime Datastructures MariaDBTypes.

Local Open Scope Z_scope.
Local Open Scope go_scope.

(** ** The standard library *)
Record Certificate := mkCertificate {
  crt_Raw : string;
  crt_CommonName : string;
  (** a nil serial number is [None] *)
  crt_SerialNumber : option Z;
  crt_NotBefore : Z;
  crt_NotAfter : Z;
  crt_Subject : string;
  crt_Issuer : string
}.

Inductive key_kind := KeyECDSA | KeyRSA | KeyOther.
#[export] Instance key_kind_eq_dec : EqDecision key_kind.
Proof. solve_decision. Defined.
(** A [crypto.Signer]: its dynamic type and its key. *)
Record Signer := mkSigner { signer_kind : key_kind; signer_key : string }.

Record Block := mkBlock { block_Type : string; block_Bytes : string }.

Record VerifyOptions := mkVerifyOptions {
  vo_Roots : list Certificate;
  vo_Intermediates : list Certificate;
  vo_DNSName : string;
  vo_CurrentTime : Z
}.

Definition pemBlockCertificate : string := "CERTIFICATE".
Definition pemBlockECPrivateKey : string := "EC PRIVATE KEY".
Definition pemBlockRSAPrivateKey : string := "RSA PRIVATE KEY".

Class X509 := {
  (** [pem.Decode]: the next block, or nil, and the rest *)
  pem_Decode : string → option Block * string;
  pem_EncodeToMemory : Block → string;
  x509_ParseCertificate : string → result Certificate;
  x509_ParseECPrivateKey : string → result string;
  x509_ParsePKCS1PrivateKey : string → result string;
  x509_MarshalECPrivateKey : string → result string;
  (** [tls.X509KeyPair]: the certificate and the key belong together *)
  tls_X509KeyPair : string → string → result unit;
  (** [Certificate.Verify] for server and client authentication *)
  Verify : Certificate → VerifyOptions → result unit;
  Hash : string → string;
  pem_Decode_shorter s b rest : pem_Decode s = (Some b, rest) →
    (String.length rest < String.length s)%nat;
  pem_Decode_Encode b s : block_Type b = pemBlockCertificate →
    pem_Decode (pem_EncodeToMemory b +:+ s) = (Some b, s);
  pem_Encode_nonempty b : pem_EncodeToMemory b ≠ ""
}.

(** ** private_key.go *)
Definition PrivateKeyTypeECDSA : string := "ecdsa".
Definition PrivateKeyTypeRSA : string := "rsa".

Definition isSupportedPrivateKeyBlock (block : string) (supportedKeys : list string) : bool :=
  let idx := NewIndex supportedKeys (λ pk, pk) in
  if bool_decide (block = pemBlockECPrivateKey) && Has idx PrivateKeyTypeECDSA then true
  else bool_decide (block = pemBlockRSAPrivateKey) && Has idx PrivateKeyTypeRSA.

Section pki.
Context `{X509}.

Definition MarshalPrivateKey (signer : Signer) : result string :=
  match signer_kind signer with
  | KeyECDSA => x509_MarshalECPrivateKey (signer_key signer)
  | _ => Err (ErrNew "signer is not an ECDSA private key")
  end.

Definition ParsePrivateKey (bytes : string) (supportedKeys : list string) : result Signer :=
  match (pem_Decode bytes).1 with
  | None => Err (ErrNew "error decoding PEM")
  | Some block =>
      if negb (isSupportedPrivateKeyBlock (block_Type block) supportedKeys)
      then Err (ErrNew "unsupported PEM block")
      else if bool_decide (block_Type block = pemBlockECPrivateKey) then
        k ← x509_ParseECPrivateKey (block_Bytes block); Ok (mkSigner KeyECDSA k)
      else if bool_decide (block_Type block = pemBlockRSAPrivateKey) then
        k ← x509_ParsePKCS1PrivateKey (block_Bytes block); Ok (mkSigner KeyRSA k)
      else Err (ErrNew "unsupported PEM block type")
  end.

(** ** The loop over the PEM blocks
    [for len(pemBytes) > 0 { block, pemBytes = pem.Decode(pemBytes); ... }]: the blocks it
    visits, and whether it meets data without a block.  [None] means out of fuel. *)
Fixpoint pem_blocks_fuel (fuel : nat) (pemBytes : string) : option (list Block * bool) :=
  if bool_decide (pemBytes = "") then Some ([], false) else
  match fuel with
  | O => None
  | S fuel =>
      match pem_Decode pemBytes with
      | (None, _) => Some ([], true)
      | (Some block, rest) =>
          '(blocks, invalid) ← pem_blocks_fuel fuel rest; Some (block :: blocks, invalid)
      end
  end.
Definition pem_blocks (pemBytes : string) : list Block * bool :=
  default ([], true) (pem_blocks_fuel (String.length pemBytes) pemBytes).

(** ** x509.go: parsing *)
Definition parse_block (block : Block) : result Certificate :=
  if negb (bool_decide (block_Type block = pemBlockCertificate))
  then Err (ErrNew "invalid PEM certificate block")
  else x509_ParseCertificate (block_Bytes block).

Fixpoint parse_blocks (blocks : list Block) : result (list Certificate) :=
  match blocks with
  | [] => Ok []
  | block :: blocks =>
      cert ← parse_block block; certs ← parse_blocks blocks; Ok (cert :: certs)
  end.

Definition ParseCertificates (bytes : string) : result (list Certificate) :=
  let '(blocks, invalid) := pem_blocks bytes in
  certs ← parse_blocks blocks;
  if (invalid : bool) then Err (ErrNew "invalid PEM block")
  else if bool_decide (certs = @nil Certificate) then Err (ErrNew "no valid certificates found")
  else Ok certs.

(** ** keypair.go *)
Definition CACertKey : string := "ca.crt".
Definition CAKeyKey : string := "ca.key".
Definition TLSCertKey : string := "tls.crt".
Definition TLSKeyKey : string := "tls.key".

Record KeyPair := mkKeyPair {
  CertPEM : string;
  KeyPEM : string;
  SupportedPrivateKeys : list string
}.

(** A Secret: a nil map of data is [None]. *)
Record Secret := mkSecret {
  sec_key : NamespacedName;
  sec_Labels : gmap string string;
  sec_Type : string;
  sec_Data : option (gmap string string)
}.

Definition Certificates (k : KeyPair) : result (list Certificate) := ParseCertificates (CertPEM k).

(** [certs[0]]: parsing never returns an empty list ([ParseCertificates_nonempty]). *)
Definition LeafCertificate (k : KeyPair) : result Certificate :=
  certs ← wrap_err "error getting certs" (Certificates k);
  match certs with
  | leaf :: _ => Ok leaf
  | [] => Err (ErrNew "index out of range")
  end.

Definition PrivateKey (k : KeyPair) : result Signer := ParsePrivateKey (KeyPEM k) (SupportedPrivateKeys k).

Definition KeyPair_Validate (k : KeyPair) : result unit :=
  if bool_decide (CertPEM k = "") then Err (ErrNew "certificate PEM is empty")
  else if bool_decide (KeyPEM k = "") then Err (ErrNew "private key PEM is empty")
  else
    _certs ← wrap_err "error parsing certificates" (Certificates k);
    _key ← (if bool_decide (length (SupportedPrivateKeys k) ≤ 1)%nat
            then wrap_err "error parsing private key" (_s ← PrivateKey k; Ok tt) else Ok tt);
    wrap_err "invalid keypair" (tls_X509KeyPair (CertPEM k) (KeyPEM k)).

Definition KeyPairOpt : Type := KeyPair → KeyPair.
Definition WithSupportedPrivateKeys (pks : list string) : KeyPairOpt := λ k,
  { k with SupportedPrivateKeys := pks }.

Definition NewKeyPair (certPEM keyPEM : string) (opts : list KeyPairOpt) : result KeyPair :=
  let k := foldl (λ k setOpt, setOpt k) (mkKeyPair certPEM keyPEM [PrivateKeyTypeECDSA]) opts in
  _u ← wrap_err "invalid keypair" (KeyPair_Validate k); Ok k.

Definition UpdateSecret (k : KeyPair) (secret : Secret) (certKey privateKeyKey : string) : Secret :=
  { secret with sec_Data := Some (<[privateKeyKey := KeyPEM k]> (<[certKey := CertPEM k]>
      (default ∅ (sec_Data secret)))) }.
Definition UpdateTLSSecret (k : KeyPair) (secret : Secret) : Secret :=
  UpdateSecret k secret TLSCertKey TLSKeyKey.
Definition UpdateCASecret (k : KeyPair) (secret : Secret) : Secret :=
  UpdateSecret k secret CACertKey CAKeyKey.

Definition NewKeyPairFromSecret (secret : Secret) (certKey privateKeyKey : string)
    (opts : list KeyPairOpt) : result KeyPair :=
  match sec_Data secret with
  | None => Err (ErrNew "TLS Secret is empty")
  | Some data =>
      match data !! certKey with
      | None => Err (ErrWrapW "certificate key not found" (ErrSentinel ErrSecretKeyNotFound))
      | Some certPEM =>
          match data !! privateKeyKey with
          | None => Err (ErrWrapW "private key key not found" (ErrSentinel ErrSecretKeyNotFound))
          | Some keyPEM => NewKeyPair certPEM keyPEM opts
          end
      end
  end.
Definition NewKeyPairFromTLSSecret (secret : Secret) (opts : list KeyPairOpt) : result KeyPair :=
  NewKeyPairFromSecret secret TLSCertKey TLSKeyKey opts.
Definition NewKeyPairFromCASecret (secret : Secret) (opts : list KeyPairOpt) : result KeyPair :=
  NewKeyPairFromSecret secret CACertKey CAKeyKey opts.

(** ** x509.go: creating *)
Definition DefaultCALifetime : Z := 3 * 365 * 24 * Hour.
Definition DefaultCertLifetime : Z := 3 * 30 * 24 * Hour.
Definition caMinLifetime : Z := 1 * Hour.
Definition caMaxLifetime : Z := 10 * 365 * 24 * Hour.
Definition certMinLifetime : Z := 1 * Hour.
Definition certMaxLifetime : Z := 3 * 365 * 24 * Hour.

Definition KeyUsageDigitalSignature : Z := 1.
Definition KeyUsageKeyEncipherment : Z := 4.
Definition KeyUsageKeyAgreement : Z := 16.
Definition KeyUsageCertSign : Z := 32.

Record X509Opts := mkX509Opts {
  x_CommonName : string;
  x_DNSNames : list string;
  x_NotBefore : Z;
  x_NotAfter : Z;
  x_KeyUsage : Z;
  x_ExtKeyUsage : list string;
  x_IsCA : bool;
  x_KeyPairOpts : list KeyPairOpt
}.
Definition X509Opt : Type := X509Opts → X509Opts.
Definition WithCommonName (name : string) : X509Opt := λ x, { x with x_CommonName := name }.
Definition WithDNSNames (dnsNames : list string) : X509Opt := λ x, { x with x_DNSNames := dnsNames }.
Definition WithNotBefore (t : Z) : X509Opt := λ x, { x with x_NotBefore := t }.
Definition WithNotAfter (t : Z) : X509Opt := λ x, { x with x_NotAfter := t }.
Definition WithKeyUsage (u : Z) : X509Opt := λ x, { x with x_KeyUsage := Z.lor (x_KeyUsage x) u }.
Definition WithExtKeyUsage (u : list string) : X509Opt := λ x, { x with x_ExtKeyUsage := x_ExtKeyUsage x ++ u }.
Definition WithKeyPairOpts (o : list KeyPairOpt) : X509Opt := λ x, { x with x_KeyPairOpts := o }.

(** The template given to [x509.CreateCertificate]. *)
Record Template := mkTemplate {
  tpl_SerialNumber : Z;
  tpl_CommonName : string;
  tpl_DNSNames : list string;
  tpl_NotBefore : Z;
  tpl_NotAfter : Z;
  tpl_KeyUsage : Z;
  tpl_ExtKeyUsage : list string;
  tpl_IsCA : bool
}.

Inductive pkiop : Type → Type :=
  | PkiNow : pkiop Z
  (* the random sources *)
  | PkiGenerateKey : pkiop (result string)
  | PkiSerialNumber : pkiop (result Z)
  (* signs the template; the parent is the template itself when there is none *)
  | PkiCreateCertificate (tpl : Template) (parent : option Certificate) (publicKey parentKey : Signer) :
      pkiop (result string).

Section effects.
Context {S : Type}.
Abbreviation K := (M S pkiop).

Definition GeneratePrivateKey : K Signer :=
  k <- wrap "error generating ECDSA private key" (call PkiGenerateKey) ;;
  ret (mkSigner KeyECDSA k).

(** ** pem.go: encoding *)
Definition pemEncodeCertificate (bytes : string) : string :=
  pem_EncodeToMemory (mkBlock pemBlockCertificate bytes).

Definition pemEncodePrivateKey (bytes : string) (signer : Signer) : result string :=
  match signer_kind signer with
  | KeyECDSA => Ok (pem_EncodeToMemory (mkBlock pemBlockECPrivateKey bytes))
  | KeyRSA => Ok (pem_EncodeToMemory (mkBlock pemBlockRSAPrivateKey bytes))
  | KeyOther => Err (ErrNew "unsupported private key")
  end.

(** The certificate and the key that sign: those of the CA, or none and the new key. *)
Definition signing_parent (caKeyPair : option KeyPair) (privateKey : Signer) :
    result (option Certificate * Signer) :=
  match caKeyPair with
  | None => Ok (None, privateKey)
  | Some ca =>
      caCerts ← wrap_err "error getting CA certificate" (Certificates ca);
      caPrivateKey ← wrap_err "error getting CA private key" (PrivateKey ca);
      Ok (head caCerts, caPrivateKey)
  end.

Definition NewKeyPairFromTemplate (tpl : Template) (caKeyPair : option KeyPair)
    (opts : list KeyPairOpt) : K KeyPair :=
  privateKey <- wrap "error generating private key" GeneratePrivateKey ;;
  parent <- lift (signing_parent caKeyPair privateKey) ;;
  let '(parentCert, parentKey) := parent in
  certBytes <- wrap "error creating certificate"
    (call (PkiCreateCertificate tpl parentCert privateKey parentKey)) ;;
  privateKeyBytes <- wrap "error creating private key" (lift (MarshalPrivateKey privateKey)) ;;
  privateKeyPEMBytes <- wrap "error encoding private key PEM"
    (lift (pemEncodePrivateKey privateKeyBytes parentKey)) ;;
  lift (NewKeyPair (pemEncodeCertificate certBytes) privateKeyPEMBytes opts).

Definition validateLifetime (notBefore notAfter minDuration maxDuration : Z) : result unit :=
  if bool_decide (notAfter < notBefore) then Err (ErrNew "NotBefore cannot be after NotAfter") else
  let duration := Time_Sub notAfter notBefore in
  if bool_decide (duration < minDuration) then Err (ErrNew "lifetime duration is less than the minimum")
  else if bool_decide (maxDuration < duration) then Err (ErrNew "lifetime duration exceeds the maximum")
  else Ok tt.

Definition CreateCA (x509Opts : list X509Opt) : K KeyPair :=
  now1 <- ask PkiNow ;; now2 <- ask PkiNow ;;
  let opts := foldl (λ o setOpt, setOpt o)
    (mkX509Opts "" [] (now1 - 1 * Hour) (now2 + DefaultCALifetime) 0 [] false []) x509Opts in
  if bool_decide (x_CommonName opts = "") then throw (ErrNew "CommonName is mandatory") else
  wrap "invalid CA lifetime"
    (lift (validateLifetime (x_NotBefore opts) (x_NotAfter opts) caMinLifetime caMaxLifetime)) ;;;
  serialNumber <- wrap "error getting serial number" (call PkiSerialNumber) ;;
  NewKeyPairFromTemplate
    (mkTemplate serialNumber (x_CommonName opts) [x_CommonName opts] (x_NotBefore opts) (x_NotAfter opts)
       KeyUsageCertSign [] true) None (x_KeyPairOpts opts).

Definition CreateCert (caKeyPair : KeyPair) (x509Opts : list X509Opt) : K KeyPair :=
  now1 <- ask PkiNow ;; now2 <- ask PkiNow ;;
  let opts := foldl (λ o setOpt, setOpt o)
    (mkX509Opts "" [] (now1 - 1 * Hour) (now2 + DefaultCertLifetime)
       (Z.lor KeyUsageDigitalSignature KeyUsageKeyAgreement) [] false []) x509Opts in
  if bool_decide (x_CommonName opts = "") || bool_decide (x_DNSNames opts = [])
  then throw (ErrNew "CommonName and DNSNames are mandatory") else
  wrap "invalid certificate lifetime"
    (lift (validateLifetime (x_NotBefore opts) (x_NotAfter opts) certMinLifetime certMaxLifetime)) ;;;
  serialNumber <- wrap "error getting serial number" (call PkiSerialNumber) ;;
  NewKeyPairFromTemplate
    (mkTemplate serialNumber (x_CommonName opts) (x_DNSNames opts) (x_NotBefore opts) (x_NotAfter opts)
       (x_KeyUsage opts) (x_ExtKeyUsage opts) (x_IsCA opts)) (Some caKeyPair) (x_KeyPairOpts opts).

(** ** pem.go: bundles *)
Definition getCertID (cert : Certificate) : string :=
  match crt_SerialNumber cert with
  | Some n => crt_CommonName cert +:+ "-" +:+ Itoa n
  | None => crt_CommonName cert
  end.

Record bundle_state := mkBundle { bundle : string; existingCerts : gset string }.

(** The body of the loop of [appendPEM]. *)
Definition append_block (skipExpired : bool) (b : bundle_state) (block : Block) : K bundle_state :=
  if negb (bool_decide (block_Type block = pemBlockCertificate))
  then throw (ErrNew "invalid PEM certificate block") else
  cert <- wrap "invalid certificate in PEM block" (lift (x509_ParseCertificate (block_Bytes block))) ;;
  let certID := getCertID cert in
  if bool_decide (certID ∈ existingCerts b) then ret b else
  now <- ask PkiNow ;;
  let isExpired := bool_decide (now < crt_NotBefore cert) || bool_decide (crt_NotAfter cert < now) in
  if skipExpired && isExpired then ret b else
  ret (mkBundle (bundle b +:+ pem_EncodeToMemory block) ({[certID]} ∪ existingCerts b)).

Fixpoint append_blocks (skipExpired : bool) (b : bundle_state) (blocks : list Block) : K bundle_state :=
  match blocks with
  | [] => ret b
  | block :: blocks => b <- append_block skipExpired b block ;; append_blocks skipExpired b blocks
  end.

(** Data without a PEM block ends the loop. *)
Definition appendPEM (skipExpired : bool) (b : bundle_state) (pemBytes : string) : K bundle_state :=
  append_blocks skipExpired b (pem_blocks pemBytes).1.

Fixpoint append_pems (skipExpired : bool) (b : bundle_state) (pems : list string) : K bundle_state :=
  match pems with
  | [] => ret b
  | pem :: pems =>
      b <- wrap "error appending PEM" (appendPEM skipExpired b pem) ;; append_pems skipExpired b pems
  end.

Definition BundleCertificatePEMs (pems : list string) (skipExpired : bool) : K string :=
  b <- append_pems skipExpired (mkBundle "" ∅) pems ;;
  if bool_decide (bundle b = "") then throw (ErrNew "no certificate PEMs were found") else ret (bundle b).
End effects.

(** ** x509.go: validating *)
Definition ValidateCert (caCerts : list Certificate) (certKeyPair : KeyPair) (dnsName : string)
    (at_ : Z) : result unit :=
  if bool_decide (caCerts = @nil Certificate)
  then Err (ErrNew "CA certificates should be provided to establish trust") else
  _u ← wrap_err "invalid keypair" (KeyPair_Validate certKeyPair);
  leafCert ← wrap_err "error getting leaf certificate" (LeafCertificate certKeyPair);
  certs ← wrap_err "error getting certificates" (Certificates certKeyPair);
  Verify leafCert (mkVerifyOptions caCerts (tail certs) dnsName at_).

Definition ValidateCA (keyPair : KeyPair) (dnsName : string) (at_ : Z) : result unit :=
  certs ← wrap_err "error getting certificates" (Certificates keyPair);
  ValidateCert certs keyPair dnsName at_.

(** ** renewal.go *)
Definition DefaultRenewBeforePercentage : Z := 33.

Definition validateRenewBeforePercentage (renewBeforePercentage : Z) : result unit :=
  if bool_decide (renewBeforePercentage < 10) || bool_decide (90 < renewBeforePercentage)
  then Err (ErrNew "invalid renewBeforePercentage, it must be between [10, 90]") else Ok tt.

(** The product is an int64. *)
Definition RenewalDuration (duration renewBeforePercentage : Z) : result Z :=
  _u ← validateRenewBeforePercentage renewBeforePercentage;
  Ok (Z.quot (int_wrap (duration * renewBeforePercentage)) 100).

Definition RenewalTime (notBefore notAfter renewBeforePercentage : Z) : result Z :=
  _u ← validateRenewBeforePercentage renewBeforePercentage;
  let duration := Time_Sub notAfter notBefore in
  renewalDuration ← wrap_err "error getting renewal duration" (RenewalDuration duration renewBeforePercentage);
  Ok (truncate_sec (notAfter + int_wrap (-1 * renewalDuration))).
End pki.

(** ** Properties *)
Section properties.
Context `{X : X509}.

(** *** Decoding *)
Lemma pem_blocks_fuel_spec fuel s : (String.length s ≤ fuel)%nat →
  ∃ r, pem_blocks_fuel fuel s = Some r ∧ (length r.1 ≤ String.length s)%nat ∧
    ∀ fuel', (String.length s ≤ fuel')%nat → pem_blocks_fuel fuel' s = Some r.
Proof.
  revert s. induction fuel as [|fuel IH]; intros s Hs.
  - destruct s; [|cbn in Hs; lia]. exists ([], false). split_and!; [done..|]. by intros [|fuel'].
  - destruct (decide (s = "")) as [->|Hne].
    { exists ([], false). split_and!; [done..|]. by intros [|fuel']. }
    assert (∀ fuel', (String.length s ≤ fuel')%nat → ∃ n, fuel' = S n ∧
      pem_blocks_fuel fuel' s = match pem_Decode s with
        | (None, _) => Some ([], true)
        | (Some block, rest) => '(blocks, invalid) ← pem_blocks_fuel n rest; Some (block :: blocks, invalid)
        end) as Hstep.
    { intros [|n] Hn; [destruct s; cbn in Hn; [done|lia]|]. exists n. split; [done|]. cbn.
      by rewrite bool_decide_eq_false_2. }
    destruct (Hstep (S fuel) Hs) as (n & [= <-] & ->).
    destruct (pem_Decode s) as [[block|] rest] eqn:Hd.
    + pose proof (pem_Decode_shorter _ _ _ Hd) as Hlt.
      destruct (IH rest ltac:(lia)) as ([blocks invalid] & Hr & Hlen & Hany).
      exists (block :: blocks, invalid). rewrite Hr. split_and!; [done|cbn in *; lia|].
      intros fuel' Hf. destruct (Hstep fuel' Hf) as (n & -> & ->).
      by rewrite Hany by lia.
    + exists ([], true). split_and!; [done|cbn; lia|].
      intros fuel' Hf. by destruct (Hstep fuel' Hf) as (n & -> & ->).
Qed.

(** C40: the loops over the PEM blocks of a file end: whatever the file contains, they make
    at most one iteration per byte, so the fuel of the model is never exhausted and what it
    computes does not depend on it. *)
Theorem pem_loop_terminates s fuel : (String.length s ≤ fuel)%nat →
  pem_blocks_fuel fuel s = Some (pem_blocks s) ∧ (length (pem_blocks s).1 ≤ String.length s)%nat.
Proof.
  intros Hf. destruct (pem_blocks_fuel_spec (String.length s) s (le_n _)) as (r & Hr & Hlen & Hany).
  unfold pem_blocks. rewrite Hr. cbn. auto.
Qed.

Lemma pem_blocks_cons b s : block_Type b = pemBlockCertificate →
  pem_blocks (pem_EncodeToMemory b +:+ s) = (b :: (pem_blocks s).1, (pem_blocks s).2).
Proof.
  intros Hb. set (e := pem_EncodeToMemory b +:+ s).
  assert (pem_Decode e = (Some b, s)) as Hd by by apply pem_Decode_Encode.
  pose proof (pem_Decode_shorter _ _ _ Hd) as Hlt. unfold pem_blocks at 1.
  destruct (String.length e) as [|n] eqn:He; [lia|]. cbn.
  rewrite bool_decide_eq_false_2 by (intros Hnil; rewrite Hnil in He; done). rewrite Hd.
  destruct (pem_blocks_fuel_spec n s ltac:(lia)) as ([blocks invalid] & Hr & _ & Hany).
  unfold pem_blocks. by rewrite Hr, (Hany (String.length s)) by done.
Qed.

Lemma ParseCertificates_nonempty s certs : ParseCertificates s = Ok certs → certs ≠ [].
Proof.
  unfold ParseCertificates. destruct (pem_blocks s) as [blocks []];
    (destruct (parse_blocks blocks) as [cs|]; [|done]); cbn; [done|].
  by case_bool_decide; intros [= <-].
Qed.

Lemma LeafCertificate_head k certs : Certificates k = Ok certs →
  ∃ leaf, LeafCertificate k = Ok leaf ∧ head certs = Some leaf.
Proof.
  intros Hc. pose proof (ParseCertificates_nonempty _ _ Hc). unfold LeafCertificate. rewrite Hc. cbn.
  destruct certs as [|leaf certs]; [done|]. by exists leaf.
Qed.

(** *** Key pairs *)
Lemma NewKeyPair_valid c k opts kp : NewKeyPair c k opts = Ok kp → KeyPair_Validate kp = Ok tt.
Proof.
  unfold NewKeyPair. set (k0 := foldl _ _ _). destruct (KeyPair_Validate k0) as [[]|] eqn:Hv; [|done].
  by intros [= <-].
Qed.

Lemma UpdateSecret_read k secret certKey privateKeyKey : certKey ≠ privateKeyKey →
  KeyPair_Validate k = Ok tt →
  NewKeyPairFromSecret (UpdateSecret k secret certKey privateKeyKey) certKey privateKeyKey
    [WithSupportedPrivateKeys (SupportedPrivateKeys k)] = Ok k.
Proof.
  intros Hne Hv. unfold NewKeyPairFromSecret, UpdateSecret. cbn.
  rewrite lookup_insert_ne, lookup_insert_eq, lookup_insert_eq by done.
  unfold NewKeyPair, WithSupportedPrivateKeys. cbn.
  replace (mkKeyPair (CertPEM k) (KeyPEM k) (SupportedPrivateKeys k)) with k by by destruct k.
  destruct k as [c p sup]. cbn in *. change (constant sup [PrivateKeyTypeECDSA]) with sup.
  unfold NewKeyPair. by rewrite Hv.
Qed.

(** A valid key pair that is written to a Secret, as a CA or as a leaf, is read back
    from it, and nothing else of the data changes. *)
Theorem key_pair_round_trip k secret : KeyPair_Validate k = Ok tt →
  NewKeyPairFromTLSSecret (UpdateTLSSecret k secret)
    [WithSupportedPrivateKeys (SupportedPrivateKeys k)] = Ok k ∧
  NewKeyPairFromCASecret (UpdateCASecret k secret)
    [WithSupportedPrivateKeys (SupportedPrivateKeys k)] = Ok k ∧
  (∀ key, key ∉ [TLSCertKey; TLSKeyKey] →
    (sec_Data (UpdateTLSSecret k secret) ≫= lookup key) = (sec_Data secret ≫= lookup key)).
Proof.
  intros Hv. split_and!; [by apply UpdateSecret_read..|].
  intros key Hk. rewrite !not_elem_of_cons in Hk. destruct Hk as (H1 & H2 & _).
  unfold UpdateTLSSecret, UpdateSecret. cbn. rewrite !lookup_insert_ne by done.
  by destruct (sec_Data secret).
Qed.

(** *** Bundles *)
(** A block of a bundle and the certificate in it. *)
Definition block_of (p : Block * Certificate) : Prop := parse_block p.1 = Ok p.2.
Fixpoint encode_all (l : list (Block * Certificate)) : string :=
  match l with [] => "" | p :: l => pem_EncodeToMemory p.1 +:+ encode_all l end.
Definition ids (l : list (Block * Certificate)) : list string := (λ p, getCertID p.2) <$> l.

Lemma block_of_type p : block_of p → block_Type p.1 = pemBlockCertificate.
Proof. unfold block_of, parse_block. by case_bool_decide. Qed.

Lemma encode_all_app l l' : encode_all (l ++ l') = encode_all l +:+ encode_all l'.
Proof. induction l as [|p l IH]; [done|]. cbn [encode_all app]. by rewrite IH, str_app_assoc. Qed.

Lemma pem_blocks_encode l : Forall block_of l → pem_blocks (encode_all l) = (l.*1, false).
Proof.
  induction 1 as [|p l Hp _ IH]; [done|]. cbn [encode_all].
  rewrite pem_blocks_cons by by apply block_of_type. by rewrite IH.
Qed.
Lemma parse_blocks_ok l : Forall block_of l → parse_blocks l.*1 = Ok l.*2.
Proof. induction 1 as [|p l Hp _ IH]; [done|]. cbn. unfold block_of in Hp. by rewrite Hp, IH. Qed.
Lemma ParseCertificates_encode l : Forall block_of l → l ≠ [] → ParseCertificates (encode_all l) = Ok l.*2.
Proof.
  intros Hl Hne. unfold ParseCertificates. rewrite pem_blocks_encode by done. rewrite parse_blocks_ok by done.
  cbn. by destruct l.
Qed.

Definition bundled (l : list (Block * Certificate)) (b : bundle_state) : Prop :=
  bundle b = encode_all l ∧ (∀ x, x ∈ existingCerts b ↔ x ∈ ids l) ∧ NoDup (ids l) ∧ Forall block_of l.

(** The clock was read outside the validity of the certificate. *)
Definition seen_expired (c : Certificate) (t : list (event pkiop)) : Prop :=
  ∃ now, Ev PkiNow now ∈ t ∧ (now < crt_NotBefore c ∨ crt_NotAfter c < now).
(** Every certificate of [blocks] is in the bundle, by its identity, or has expired. *)
Definition covers (blocks : list Block) (l : list (Block * Certificate)) (t : list (event pkiop)) : Prop :=
  ∀ block, block ∈ blocks → ∃ c, parse_block block = Ok c ∧ (getCertID c ∈ ids l ∨ seen_expired c t).

Lemma covers_app blocks blocks' l l' t t' :
  covers blocks l t → covers blocks' (l ++ l') t' → covers (blocks ++ blocks') (l ++ l') (t ++ t').
Proof.
  intros Hc Hc' block [Hb|Hb]%elem_of_app.
  - destruct (Hc block Hb) as (c & Hp & Hor). exists c. split; [done|].
    destruct Hor as [Hi|(now & Hn & He)]; [left; unfold ids; rewrite fmap_app; by apply elem_of_app; left|].
    right. exists now. split; [by apply elem_of_app; left|done].
  - destruct (Hc' block Hb) as (c & Hp & [Hi|(now & Hn & He)]); exists c; (split; [done|]); [by left|].
    right. exists now. split; [by apply elem_of_app; right|done].
Qed.

Lemma append_block_spec {S} (s : S) b l block : bundled l b →
  wpM (append_block true b block) s (λ t s' r, s' = s ∧ ∀ b', r = Ok b' →
    ∃ l', bundled (l ++ l') b' ∧ (∀ p, p ∈ l' → p.1 = block) ∧ covers [block] (l ++ l') t).
Proof.
  intros (Hb & Hx & Hnd & Hok). unfold append_block. case_bool_decide as Hty; cbn [negb]; [|by wp_step].
  do 3 wp_step. destruct (x509_ParseCertificate (block_Bytes block)) as [c|e] eqn:Hc; cbn [wrap_err]; [|done].
  assert (parse_block block = Ok c) as Hp by (unfold parse_block; by rewrite bool_decide_eq_true_2).
  assert (∀ t l', getCertID c ∈ ids l' ∨ seen_expired c t → covers [block] l' t) as Hcov.
  { intros t l' Hor block' ->%list_elem_of_singleton. eauto. }
  case_bool_decide as Hin; cbn [app].
  { wp_step. split; [done|]. intros b' [= <-]. exists []. rewrite app_nil_r.
    split_and!; [done|by intros p ?%elem_of_nil|]. apply Hcov. left. by apply Hx. }
  do 2 wp_step. cbn [app andb]. destruct (_ || _) eqn:He.
  - wp_step. split; [done|]. intros b' [= <-]. exists []. rewrite app_nil_r.
    split_and!; [done|by intros p ?%elem_of_nil|]. apply Hcov. right. exists x. split; [by left|].
    apply orb_true_iff in He as [He%bool_decide_eq_true|He%bool_decide_eq_true]; auto.
  - wp_step. split; [done|]. intros b' [= <-]. exists [(block, c)].
    assert (ids (l ++ [(block, c)]) = ids l ++ [getCertID c]) as Hids by by unfold ids; rewrite fmap_app.
    split_and!.
    + split_and!; cbn.
      * rewrite encode_all_app, Hb. cbn. by rewrite str_app_nil_r.
      * intros x0. rewrite Hids, elem_of_union, elem_of_app, Hx, elem_of_singleton, list_elem_of_singleton. tauto.
      * rewrite Hids. apply NoDup_app. split_and!; [done| |apply NoDup_singleton].
        intros y Hy ->%list_elem_of_singleton. by apply Hin, Hx.
      * apply Forall_app_2; [done|]. by constructor.
    + by intros p ->%list_elem_of_singleton.
    + apply Hcov. left. rewrite Hids. apply elem_of_app. right. by left.
Qed.

Lemma append_blocks_spec {S} blocks : ∀ (s : S) b l, bundled l b →
  wpM (append_blocks true b blocks) s (λ t s' r, s' = s ∧ ∀ b', r = Ok b' →
    ∃ l', bundled (l ++ l') b' ∧ (∀ p, p ∈ l' → p.1 ∈ blocks) ∧ covers blocks (l ++ l') t).
Proof.
  induction blocks as [|block blocks IH]; intros s b l Hl; cbn [append_blocks].
  - wp_step. split; [done|]. intros b' [= <-]. exists []. rewrite app_nil_r.
    split_and!; [done|by intros p ?%elem_of_nil|by intros x ?%elem_of_nil].
  - wp_step. eapply wpM_mono; [|by apply append_block_spec]. intros t1 s1 [b1|e] [-> Hb1]; [|done].
    destruct (Hb1 b1 eq_refl) as (l1 & Hl1 & Hin1 & Hc1).
    eapply wpM_mono; [|by apply (IH s b1 (l ++ l1))]. intros t2 s2 r [-> Hb2]. split; [done|].
    intros b' ->. destruct (Hb2 b' eq_refl) as (l2 & Hl2 & Hin2 & Hc2).
    exists (l1 ++ l2). rewrite app_assoc. split_and!; [done| |].
    + intros p [Hp|Hp]%elem_of_app; [rewrite (Hin1 p Hp); by left|right; by apply Hin2].
    + by apply (covers_app [block]).
Qed.

(** All the blocks of the files, in their order. *)
Definition all_blocks (pems : list string) : list Block := concat ((λ p, (pem_blocks p).1) <$> pems).

Lemma append_pems_spec {S} pems : ∀ (s : S) b l, bundled l b →
  wpM (append_pems true b pems) s (λ t s' r, s' = s ∧ ∀ b', r = Ok b' →
    ∃ l', bundled (l ++ l') b' ∧ (∀ p, p ∈ l' → p.1 ∈ all_blocks pems) ∧
      covers (all_blocks pems) (l ++ l') t).
Proof.
  induction pems as [|pem pems IH]; intros s b l Hl; cbn [append_pems].
  - wp_step. split; [done|]. intros b' [= <-]. exists []. rewrite app_nil_r.
    split_and!; [done|by intros p ?%elem_of_nil|by intros x ?%elem_of_nil].
  - do 2 wp_step. eapply wpM_mono; [|by apply append_blocks_spec].
    intros t1 s1 [b1|e] [-> Hb1]; cbn [wrap_err]; [|done].
    destruct (Hb1 b1 eq_refl) as (l1 & Hl1 & Hin1 & Hc1).
    eapply wpM_mono; [|by apply (IH s b1 (l ++ l1))]. intros t2 s2 r [-> Hb2]. split; [done|].
    intros b' ->. destruct (Hb2 b' eq_refl) as (l2 & Hl2 & Hin2 & Hc2).
    exists (l1 ++ l2). rewrite app_assoc. split_and!; [done| |].
    + intros p Hp. apply elem_of_app. apply elem_of_app in Hp as [Hp|Hp]; [left; by apply Hin1|right; by apply Hin2].
    + by apply (covers_app (pem_blocks pem).1).
Qed.

(** C34: a trust bundle is the union of the CAs it is made of.  The bundle parses to
    certificates of the given files, each identity (common name and serial number) once; and
    no CA is dropped, neither one of the old bundle nor a new one: every certificate of the
    files is in the bundle under its identity unless the clock showed that it is not valid
    now. *)
Theorem bundle_keeps_trust {S} (s : S) pems :
  wpM (BundleCertificatePEMs pems true) s (λ t s' r, s' = s ∧ ∀ out, r = Ok out →
    ∃ certs, ParseCertificates out = Ok certs ∧ NoDup (getCertID <$> certs) ∧
      (∀ c, c ∈ certs → ∃ block, block ∈ all_blocks pems ∧ parse_block block = Ok c) ∧
      (∀ block, block ∈ all_blocks pems → ∃ c, parse_block block = Ok c ∧
         (getCertID c ∈ getCertID <$> certs ∨ seen_expired c t))).
Proof.
  unfold BundleCertificatePEMs. wp_step. eapply wpM_mono.
  2: { apply append_pems_spec with (l := []). split_and!; [done| |by constructor|done]. set_solver. }
  intros t s' [b|e] [-> Hb]; [|done]. destruct (Hb b eq_refl) as (l & (Hout & _ & Hnd & Hok) & Hin & Hc).
  cbn [app] in *. case_bool_decide as Hnil; wp_step; (split; [done|]); [done|]. intros out [= <-].
  exists l.*2. rewrite <- list_fmap_compose. rewrite Hout. split_and!.
  - apply ParseCertificates_encode; [done|]. intros ->. by rewrite Hout in Hnil.
  - done.
  - intros c (p & -> & Hp)%list_elem_of_fmap. exists p.1. split; [by apply Hin|].
    by apply (proj1 (Forall_forall _ _) Hok).
  - intros block Hbl. rewrite app_nil_r. by apply Hc.
Qed.

(** *** Renewal *)
Lemma int_wrap_in z : int_min ≤ z ≤ int_max → int_wrap z = z.
Proof. unfold int_wrap, int_min, int_max. intros Hz. rewrite Z.mod_small; lia. Qed.

(** C39: the renewal time is the given percentage of the lifetime before the end of the
    certificate, to the second, as long as the lifetime in nanoseconds times the percentage
    fits in an int64; then it is inside the validity.  The product overflows for lifetimes
    the code allows: a CA of ten years, the longest one, is due for renewal with the default
    percentage only two years after it has expired. *)
Theorem renewal_time_in_validity notBefore notAfter pct :
  let lifetime := notAfter - notBefore in
  (10 ≤ pct ≤ 90 → 0 ≤ lifetime → lifetime * pct ≤ int_max →
    ∃ t, RenewalTime notBefore notAfter pct = Ok t ∧ notBefore - nsec < t ≤ notAfter ∧
      lifetime * pct - 100 < 100 * (notAfter - t) < lifetime * pct + 100 * nsec) ∧
  (lifetime = caMaxLifetime → ∃ t, RenewalTime notBefore notAfter DefaultRenewBeforePercentage = Ok t ∧
    notAfter + 2 * 365 * 24 * Hour < t).
Proof.
  cbn. split.
  - intros Hp Hl Hi. unfold RenewalTime, RenewalDuration, validateRenewBeforePercentage.
    rewrite (bool_decide_eq_false_2 (pct < 10)), (bool_decide_eq_false_2 (90 < pct)) by lia. cbn.
    assert (Time_Sub notAfter notBefore = notAfter - notBefore) as ->.
    { unfold Time_Sub, saturate. unfold int_max, int_min in *. nia. }
    assert (0 ≤ (notAfter - notBefore) * pct ≤ 90 * (notAfter - notBefore)) as HL by nia.
    set (L := (notAfter - notBefore) * pct) in *. clearbody L.
    assert (int_min < 0) by done. rewrite (int_wrap_in L) by lia.
    assert (int_min < - int_max) by done.
    rewrite (int_wrap_in (- _)) by (Z.to_euclidean_division_equations; lia).
    eexists. split; [done|]. unfold truncate_sec. change nsec with 1000000000.
    Z.to_euclidean_division_equations; lia.
  - intros Hl. unfold RenewalTime, RenewalDuration.
    replace (validateRenewBeforePercentage DefaultRenewBeforePercentage) with (Ok tt) by reflexivity.
    cbn [mbind result_bind wrap_err].
    assert (Time_Sub notAfter notBefore = caMaxLifetime) as ->.
    { unfold Time_Sub. rewrite Hl. vm_compute. reflexivity. }
    eexists. split; [reflexivity|].
    set (shift := int_wrap (-1 * _)). set (years := 2 * 365 * 24 * Hour).
    assert (years + nsec < shift) by (vm_compute; reflexivity). clearbody shift years.
    unfold truncate_sec. change nsec with 1000000000 in *. Z.to_euclidean_division_equations; lia.
Qed.

(** The private key of a leaf certificate is written under the type of the key of the CA,
    so a leaf issued by an RSA CA has an EC key in a block that says it is an RSA key. *)
Lemma leaf_key_mislabelled bytes ca : signer_kind ca = KeyRSA →
  pemEncodePrivateKey bytes ca = Ok (pem_EncodeToMemory (mkBlock pemBlockRSAPrivateKey bytes)).
Proof. unfold pemEncodePrivateKey. by intros ->. Qed.
End properties.
