(* ===== verification/PkiExample.v ===== *)
(** * A concrete implementation of the interface [X509]

    Blocks are written with the lengths of their fields in unary, a certificate is the
    list of its fields, and it verifies against a root with the serial number of its
    issuer while it is valid.  The witnesses of Pki and Certificate are evaluated with it. *)

From Stdlib Require Import Ascii.
From S2P Require Import Prelude GoStrings GoTime Datastructures MariaDBTypes Pki.

Local Open Scope Z_scope.

(** ** Fields with their length in front *)
Fixpoint unary (n : nat) : string := match n with O => "." | S n => String "l" (unary n) end.
Definition field (s : string) : string := unary (String.length s) +:+ s.

Fixpoint take_str (n : nat) (s : string) : option (string * string) :=
  match n, s with
  | O, _ => Some ("", s)
  | S n, String c s => '(a, b) ← take_str n s; Some (String c a, b)
  | S _, EmptyString => None
  end.
Fixpoint read_field (n : nat) (s : string) : option (string * string) :=
  match s with
  | String "l" s => read_field (S n) s
  | String "." s => take_str n s
  | _ => None
  end.

Lemma take_str_spec n s a b : take_str n s = Some (a, b) → s = a +:+ b.
Proof.
  revert s a b. induction n as [|n IH]; intros s a b Ht; cbn in Ht; [by injection Ht as <- <-|].
  destruct s as [|c s]; [done|]. destruct (take_str n s) as [[a' b']|] eqn:Hs; [|done].
  injection Ht as <- <-. by rewrite (IH _ _ _ Hs).
Qed.
Lemma take_str_app s t : take_str (String.length s) (s +:+ t) = Some (s, t).
Proof. induction s as [|c s IH]; [done|]. rewrite str_app_cons. cbn [take_str String.length]. by rewrite IH. Qed.

Lemma read_field_shorter n s a b : read_field n s = Some (a, b) → (String.length b < String.length s)%nat.
Proof.
  revert n. induction s as [|c s IH]; intros n Hr; [done|]. cbn in Hr.
  repeat match goal with
  | H : (if ?b then _ else _) = _ |- _ => destruct b; try done
  | H : match ?x with Ascii _ _ _ _ _ _ _ _ => _ end = _ |- _ => destruct x; try done
  | H : match ?x with true => _ | false => _ end = _ |- _ => destruct x; try done
  end.
  all: first [ apply take_str_spec in Hr as ->; cbn [String.length]; rewrite str_length_app; lia
             | apply IH in Hr; cbn [String.length]; lia ].
Qed.
Lemma read_field_app n s t : read_field n (unary (String.length s) +:+ t) = take_str (n + String.length s) t.
Proof.
  generalize (String.length s) as k. intros k. revert n. induction k as [|k IH]; intros n.
  - cbn. by rewrite Nat.add_0_r.
  - cbn [unary]. rewrite str_app_cons. cbn [read_field]. rewrite IH. f_equal. lia.
Qed.
Lemma read_field_field s t : read_field 0 (field s +:+ t) = Some (s, t).
Proof. unfold field. rewrite <- str_app_assoc, read_field_app. apply take_str_app. Qed.

(** ** Certificates *)
Definition ex_certificate (cn : string) (serial notBefore notAfter issuer : Z) : string :=
  Join [cn; Itoa serial; Itoa notBefore; Itoa notAfter; Itoa issuer] ",".
Definition ex_ParseCertificate (der : string) : result Certificate :=
  match Split der "," with
  | [cn; serial; nb; na; issuer] =>
      serial ← Atoi serial; nb ← Atoi nb; na ← Atoi na;
      Ok (mkCertificate der cn (Some serial) nb na cn issuer)
  | _ => Err (ErrNew "malformed certificate")
  end.

Definition ex_Verify (leaf : Certificate) (o : VerifyOptions) : result unit :=
  if bool_decide (vo_CurrentTime o < crt_NotBefore leaf) || bool_decide (crt_NotAfter leaf < vo_CurrentTime o)
  then Err (ErrNew "certificate has expired or is not yet valid")
  else if existsb (λ root, bool_decide (option_map Itoa (crt_SerialNumber root) = Some (crt_Issuer leaf)))
            (vo_Roots o)
  then Ok tt else Err (ErrNew "certificate signed by unknown authority").

Definition ex_Decode (s : string) : option Block * string :=
  match read_field 0 s with
  | Some (ty, s') =>
      match read_field 0 s' with
      | Some (b, rest) => (Some (mkBlock ty b), rest)
      | None => (None, s)
      end
  | None => (None, s)
  end.

#[export] Program Instance ex_x509 : X509 := {|
  pem_Decode := ex_Decode;
  pem_EncodeToMemory b := field (block_Type b) +:+ field (block_Bytes b);
  x509_ParseCertificate := ex_ParseCertificate;
  x509_ParseECPrivateKey := Ok;
  x509_ParsePKCS1PrivateKey := Ok;
  x509_MarshalECPrivateKey := Ok;
  tls_X509KeyPair _ _ := Ok tt;
  Verify := ex_Verify;
  Hash s := s
|}.
Next Obligation.
  unfold ex_Decode. intros s b rest H. destruct (read_field 0 s) as [[ty s']|] eqn:H1; [|done].
  destruct (read_field 0 s') as [[bytes rest']|] eqn:H2; [|done]. injection H as <- <-.
  apply read_field_shorter in H1, H2. lia.
Qed.
Next Obligation.
  intros [ty bytes] s _. unfold ex_Decode. by rewrite <- str_app_assoc, !read_field_field.
Qed.
Next Obligation.
  intros [ty bytes] H. apply (f_equal String.length) in H. unfold field in H.
  rewrite !str_length_app in H. destruct (String.length (block_Type (mkBlock ty bytes))); cbn in H; lia.
Qed.

(** ** Witnesses of the theorems of Pki *)
Definition ex_pem (cn : string) (serial notBefore notAfter issuer : Z) : string :=
  pem_EncodeToMemory (mkBlock pemBlockCertificate (ex_certificate cn serial notBefore notAfter issuer)).
Definition ex_key : string := pem_EncodeToMemory (mkBlock pemBlockECPrivateKey "key").
Definition ex_pair (cn : string) (serial notBefore notAfter issuer : Z) : KeyPair :=
  mkKeyPair (ex_pem cn serial notBefore notAfter issuer) ex_key [PrivateKeyTypeECDSA].

Lemma pem_loop_terminates_witness :
  (String.length (ex_pem "ca" 7 0 100 7) ≤ 100)%nat ∧
  pem_blocks_fuel 100 (ex_pem "ca" 7 0 100 7) = Some (pem_blocks (ex_pem "ca" 7 0 100 7)).
Proof.
  assert (String.length (ex_pem "ca" 7 0 100 7) ≤ 100)%nat as Hl by (vm_compute; lia).
  split; [exact Hl|]. exact (proj1 (pem_loop_terminates _ 100 Hl)).
Defined.

Lemma key_pair_round_trip_witness :
  NewKeyPairFromTLSSecret (UpdateTLSSecret (ex_pair "ca" 7 0 100 7) (mkSecret (mkNamespacedName "s" "d") ∅ "" None))
    [WithSupportedPrivateKeys [PrivateKeyTypeECDSA]] = Ok (ex_pair "ca" 7 0 100 7).
Proof.
  refine (proj1 (key_pair_round_trip (ex_pair "ca" 7 0 100 7) _ _)). vm_compute. reflexivity.
Defined.
