(* ===== verification/Certificate.v ===== *)
(** * pkg/controller/certificate: issuing and renewing certificates

    The reconciler of a CA and of a certificate issued by it, or of a Certificate of
    cert-manager.  It is generic in the object it works for: what it promises about the
    renewal of a certificate is stated against the interface [CertHandler], which the
    MariaDB controller implements (MariaDBTLS). *)

From S2P Require Import Prelude GoStrings GoTime StatefulSet Datastructures Conditions MariaDBTypes.
From S2P Require Import Concurrency Kube Pki.

Local Open Scope Z_scope.
Local Open Scope go_scope.

Inductive SecretType := SecretTypeCA | SecretTypeTLS.
#[export] Instance SecretType_eq_dec : EqDecision SecretType.
Proof. solve_decision. Defined.

(** The fields of a Certificate of cert-manager that the operator writes, and its
    conditions. *)
Record CMCertificate := mkCMCertificate {
  cm_key : NamespacedName;
  cm_Duration : Z;
  cm_RenewBefore : Z;
  cm_DNSNames : list string;
  cm_CommonName : string;
  cm_Usages : list string;
  cm_IssuerRef : string;
  cm_SecretName : string;
  cm_Conditions : list (string * string)
}.

Inductive certop : Type → Type :=
  | CBase {X} (o : op X) : certop X
  | CPki {X} (o : pkiop X) : certop X
  | CGetSecret (key : NamespacedName) : certop (result Secret)
  | CCreateSecret (s : Secret) : certop (result unit)
  | CPatchSecret (base s : Secret) : certop (result unit)
  (* [controllerutil.SetControllerReference]: fails when another controller owns the object *)
  | CSetControllerReference (key : NamespacedName) : certop (result unit)
  | CRecordEvent (reason : string) : certop unit
  | CCertificateExist : certop (result bool)
  | CGetCMCertificate (key : NamespacedName) : certop (result CMCertificate)
  | CCreateCMCertificate (c : CMCertificate) : certop (result unit)
  | CPatchCMCertificate (base c : CMCertificate) : certop (result unit)
  (* pkg/controller/configmap and the ConfigMaps it writes *)
  | CReconcileConfigMap (key : NamespacedName) (data : gmap string string) : certop (result unit)
  | CGetConfigMapKey (sel : SecretKeySelector) (namespace : string) : certop (result string).

(** What the object a certificate belongs to decides. *)
Class CertHandler (S : Type) := {
  ShouldRenewCert : KeyPair → M S certop bool;
  HandleExpiredCert : M S certop unit
}.

(** [DefaultCertHandler] *)
Definition DefaultCertHandler S : CertHandler S := {|
  ShouldRenewCert _ := ret true;
  HandleExpiredCert := ret tt
|}.

(** ** options.go *)
Record CertReconcilerOpts := mkCertReconcilerOpts {
  caBundleSecretKey : option SecretKeySelector;
  caBundleNamespace : option string;
  shouldIssueCA : bool;
  caSecretKey : NamespacedName;
  caSecretType : SecretType;
  caCommonName : string;
  caLifetime : Z;
  shouldIssueCert : bool;
  certIssuerRef : option string;
  certSecretKey : NamespacedName;
  certCommonName : string;
  certDNSNames : list string;
  certLifetime : Z;
  certKeyUsage : Z;
  certExtKeyUsage : list string;
  supportedPrivateKeys : list string;
  renewBeforePercentage : Z;
  (** there is a related object, which owns the Secrets *)
  relatedObject : bool
}.
Definition NewDefaultCertificateOpts : CertReconcilerOpts :=
  mkCertReconcilerOpts None None true (mkNamespacedName "" "") SecretTypeCA "" DefaultCALifetime
    true None (mkNamespacedName "" "") "" [] DefaultCertLifetime 0 [] [PrivateKeyTypeECDSA]
    DefaultRenewBeforePercentage false.

Definition CertReconcilerOpt : Type := CertReconcilerOpts → CertReconcilerOpts.
Definition WithCABundle (secretKey : SecretKeySelector) (namespace : string) : CertReconcilerOpt := λ o,
  { o with caBundleSecretKey := Some secretKey; caBundleNamespace := Some namespace }.
Definition WithCA (shouldIssue : bool) (secretKey : NamespacedName) : CertReconcilerOpt := λ o,
  { o with shouldIssueCA := shouldIssue; caSecretKey := secretKey; caCommonName := nn_Name secretKey }.
Definition WithCert (shouldIssue : bool) (secretKey : NamespacedName) (dnsNames : list string) :
    CertReconcilerOpt := λ o,
  { o with shouldIssueCert := shouldIssue; certSecretKey := secretKey;
           certCommonName := match dnsNames with n :: _ => n | [] => certCommonName o end;
           certDNSNames := dnsNames }.
Definition WithCertIssuerRef (issuerRef : option string) : CertReconcilerOpt := λ o,
  { o with certIssuerRef := issuerRef }.
Definition WithRelatedObject : CertReconcilerOpt := λ o, { o with relatedObject := true }.
Definition ExtKeyUsageServerAuth : string := "server auth".
Definition ExtKeyUsageClientAuth : string := "client auth".
Definition WithServerCertKeyUsage : CertReconcilerOpt := λ o,
  { o with certKeyUsage := KeyUsageKeyEncipherment; certExtKeyUsage := [ExtKeyUsageServerAuth] }.
Definition WithClientCertKeyUsage : CertReconcilerOpt := λ o,
  { o with certExtKeyUsage := [ExtKeyUsageClientAuth] }.

Definition apply_opts (certOpts : list CertReconcilerOpt) : CertReconcilerOpts :=
  foldl (λ o setOpt, setOpt o) NewDefaultCertificateOpts certOpts.

Definition KeyPairOpts `{X509} (o : CertReconcilerOpts) : list KeyPairOpt :=
  [WithSupportedPrivateKeys (supportedPrivateKeys o)].

Section reconciler.
Context `{X509} {S : Type}.
Abbreviation C := (M S certop).

Definition pki {A} (m : M S pkiop A) : C A := hoistM (λ _ o, CPki o) m.
Definition now : C Z := ask (CPki PkiNow).

Definition CAx509Opts (o : CertReconcilerOpts) : C (list X509Opt) :=
  if bool_decide (caCommonName o = "") || bool_decide (caLifetime o = 0)
  then throw (ErrNew "caCommonName and caValidity must be set") else
  n1 <- now ;; n2 <- now ;;
  ret [WithCommonName (caCommonName o); WithNotBefore (n1 - 1 * Hour); WithNotAfter (n2 + caLifetime o);
       WithKeyPairOpts (KeyPairOpts o)].

Definition Certx509Opts (o : CertReconcilerOpts) : C (list X509Opt) :=
  if bool_decide (certDNSNames o = []) || bool_decide (certLifetime o = 0)
  then throw (ErrNew "certDNSNames and certLifetime must be set") else
  n1 <- now ;; n2 <- now ;;
  ret [WithCommonName (certCommonName o); WithDNSNames (certDNSNames o);
       WithNotBefore (n1 - 1 * Hour); WithNotAfter (n2 + certLifetime o);
       WithKeyUsage (certKeyUsage o); WithExtKeyUsage (certExtKeyUsage o); WithKeyPairOpts (KeyPairOpts o)].

(** ** Secrets *)
Definition createCAFn (o : CertReconcilerOpts) : C KeyPair :=
  x509Opts <- wrap "error getting CA x509 opts" (CAx509Opts o) ;; pki (CreateCA x509Opts).
Definition createCertFn (caKeyPair : KeyPair) (o : CertReconcilerOpts) : C KeyPair :=
  x509Opts <- wrap "errors getting certificate x509 opts" (Certx509Opts o) ;;
  pki (CreateCert caKeyPair x509Opts).

Definition WatchLabel : string := "k8s.mariadb.com/watch".

Definition updateSecretMetadata (secret : Secret) (owner : bool) : C Secret :=
  (if owner then wrap "error setting controller reference to Secret"
                   (call (CSetControllerReference (sec_key secret)))
   else ret tt) ;;;
  ret { secret with sec_Labels := <[WatchLabel := ""]> (sec_Labels secret) }.

(** The data of the key pair under the keys of its type. *)
Definition update_secret (secretType : SecretType) (keyPair : KeyPair) (secret : Secret) : Secret :=
  match secretType with
  | SecretTypeCA => UpdateCASecret keyPair secret
  | SecretTypeTLS => UpdateTLSSecret keyPair { secret with sec_Type := "kubernetes.io/tls" }
  end.

Definition createSecret (key : NamespacedName) (secretType : SecretType) (keyPair : KeyPair) (owner : bool) :
    C unit :=
  secret <- wrap "error updating Secret metadata"
    (updateSecretMetadata (update_secret secretType keyPair (mkSecret key ∅ "" None)) owner) ;;
  wrap "error creating TLS Secret" (call (CCreateSecret secret)).

Definition patchSecret (secretType : SecretType) (secret : Secret) (keyPair : KeyPair) (owner : bool) :
    C unit :=
  secret' <- wrap "error updating Secret metadata"
    (updateSecretMetadata (update_secret secretType keyPair secret) owner) ;;
  wrap "error patching TLS Secret" (call (CPatchSecret secret secret')).

Definition read_pair (secretType : SecretType) (secret : Secret) (o : CertReconcilerOpts) : result KeyPair :=
  match secretType with
  | SecretTypeCA => NewKeyPairFromCASecret secret (KeyPairOpts o)
  | SecretTypeTLS => NewKeyPairFromTLSSecret secret (KeyPairOpts o)
  end.

Definition reconcileKeyPair (key : NamespacedName) (secretType : SecretType) (shouldRenew : bool)
    (o : CertReconcilerOpts) (createKeyPairFn : C KeyPair) : C KeyPair :=
  secret <- try (call (CGetSecret key)) ;;
  match secret with
  | Err err =>
      if negb (IsNotFound err) then throw err else
      keyPair <- createKeyPairFn ;;
      createSecret key secretType keyPair (relatedObject o) ;;;
      ret keyPair
  | Ok secret =>
      if bool_decide (sec_Data secret = None) || shouldRenew then
        keyPair <- createKeyPairFn ;;
        patchSecret secretType secret keyPair (relatedObject o) ;;;
        ret keyPair
      else lift (read_pair secretType secret o)
  end.

(** ** The CA *)
Definition handleCAKeyPairResult (keyPair : result KeyPair) (o : CertReconcilerOpts) : C KeyPair :=
  match keyPair with
  | Ok keyPair => ret keyPair
  | Err err =>
      if errors_Is err ErrSecretKeyNotFound then
        (if relatedObject o then ask (CRecordEvent "SecretKeyNotFound") else ret tt) ;;;
        throw (ErrNew "key not found in CA Secret")
      else throw (ErrWrap "error getting CA Secret" err)
  end.

Definition getCAKeyPair (o : CertReconcilerOpts) : C KeyPair :=
  secret <- try (call (CGetSecret (caSecretKey o))) ;;
  match secret with
  | Err err => throw (ErrWrapW "error getting CA keypair Secret" err)
  | Ok secret => handleCAKeyPairResult (read_pair (caSecretType o) secret o) o
  end.

Definition reconcileCA (o : CertReconcilerOpts) : C (option KeyPair) :=
  if negb (shouldIssueCA o) && negb (shouldIssueCert o) then ret None
  else if negb (shouldIssueCA o) && shouldIssueCert o then
    caKeyPair <- wrap "error getting CA keypair" (getCAKeyPair o) ;; ret (Some caKeyPair)
  else
    let createCA := createCAFn o in
    caKeyPair <- wrap "error reconciling CA keypair"
      (reconcileKeyPair (caSecretKey o) (caSecretType o) false o createCA) ;;
    caLeafCert <- wrap "error getting CA leaf certificate" (lift (LeafCertificate caKeyPair)) ;;
    renewalTime <- wrap "error getting CA renewal time"
      (lift (RenewalTime (crt_NotBefore caLeafCert) (crt_NotAfter caLeafCert) (renewBeforePercentage o))) ;;
    n1 <- now ;;
    let valid := ValidateCA caKeyPair (caCommonName o) n1 in
    n2 <- now ;;
    let afterRenewal := bool_decide (renewalTime < n2) in
    if negb (bool_decide (valid = Ok tt)) || afterRenewal then
      caKeyPair <- wrap "error reconciling CA keypair"
        (reconcileKeyPair (caSecretKey o) (caSecretType o) true o createCA) ;;
      ret (Some caKeyPair)
    else ret (Some caKeyPair).

(** [r.refResolver.SecretKeyRef] *)
Definition SecretKeyRef (selector : SecretKeySelector) (namespace : string) : C string :=
  secret <- call (CGetSecret (mkNamespacedName (sks_Name selector) namespace)) ;;
  match default ∅ (sec_Data secret) !! sks_Key selector with
  | Some data => ret data
  | None => throw (ErrNew "secret key not found")
  end.

Definition getCABundle (caKeyPair : KeyPair) (o : CertReconcilerOpts) : C (list Certificate) :=
  bundle <- (match caBundleSecretKey o, caBundleNamespace o with
             | Some key, Some ns => b <- try (SecretKeyRef key ns) ;;
                                    ret (match b with Ok b => Some b | Err _ => None end)
             | _, _ => ret None
             end) ;;
  match bundle with
  | Some bundle => wrap "error parsing bundle certificates" (lift (ParseCertificates bundle))
  | None => wrap "error getting CA certificates" (lift (Certificates caKeyPair))
  end.

(** ** The certificate *)
Section cert.
Context `{CertHandler S}.

Definition reconcileCert (caKeyPair : option KeyPair) (o : CertReconcilerOpts) :
    C (ctrl_Result * option KeyPair) :=
  if negb (shouldIssueCert o) then ret (Result_zero, None) else
  match caKeyPair with
  | None => throw (ErrNew "unable to issue cert: CA keypair is nil")
  | Some caKeyPair =>
      let createCert := createCertFn caKeyPair o in
      certKeyPair <- wrap "error reconciling certificate keypair"
        (reconcileKeyPair (certSecretKey o) SecretTypeTLS false o createCert) ;;
      caCerts <- wrap "error getting CA bundle" (getCABundle caKeyPair o) ;;
      leafCert <- wrap "error getting leaf certificate" (lift (LeafCertificate certKeyPair)) ;;
      renewalTime <- wrap "error getting cert renewal time"
        (lift (RenewalTime (crt_NotBefore leafCert) (crt_NotAfter leafCert) (renewBeforePercentage o))) ;;
      n1 <- now ;;
      let valid := ValidateCert caCerts certKeyPair (certCommonName o) n1 in
      n2 <- now ;;
      let afterRenewal := bool_decide (renewalTime < n2) in
      if negb (bool_decide (valid = Ok tt)) then
        certKeyPair <- wrap "error reconciling certificate KeyPair"
          (reconcileKeyPair (certSecretKey o) SecretTypeTLS true o createCert) ;;
        wrap "error handling expired certificate" HandleExpiredCert ;;;
        ret (Result_zero, Some certKeyPair)
      else if negb afterRenewal then ret (Result_zero, Some certKeyPair)
      else
        shouldRenew <- try (ShouldRenewCert caKeyPair) ;;
        match shouldRenew with
        | Err err =>
            if errors_Is err ErrSkipCertRenewal then ret (Result_zero, Some certKeyPair)
            else throw (ErrWrap "error checking whether certificate should be renewed" err)
        | Ok false => ret (requeue_after (10 * Second), None)
        | Ok true =>
            certKeyPair <- wrap "error reconciling certificate KeyPair"
              (reconcileKeyPair (certSecretKey o) SecretTypeTLS true o createCert) ;;
            ret (Result_zero, Some certKeyPair)
        end
  end.
End cert.

(** ** cert_manager.go *)
(** The bits of the key usage, lowest first, and their names in cert-manager. *)
Definition key_usage_names : list string :=
  ["digital signature"; "content commitment"; "key encipherment"; "data encipherment";
   "key agreement"; "cert sign"; "crl sign"; "encipher only"; "decipher only"].
Definition mapX509KeyUsageToCertManager (usage : Z) : list string :=
  omap (λ '(i, name), if Z.testbit usage (Z.of_nat i) then Some name else None)
    (imap pair key_usage_names).
(** An extended usage is represented by its name in cert-manager. *)
Definition certManagerKeyUsages (o : CertReconcilerOpts) : list string :=
  (if negb (bool_decide (certKeyUsage o = 0)) then mapX509KeyUsageToCertManager (certKeyUsage o) else []) ++
  certExtKeyUsage o.

(** [BuildCertificate] of pkg/builder, with the options the reconciler gives it. *)
Definition BuildCertificate (o : CertReconcilerOpts) (issuerRef : string) : C CMCertificate :=
  match certDNSNames o with
  | [] => throw (ErrNew "options Key, Owner, DNSNames, Lifetime, RenewBeforePercentage and IssuerRef must be set")
  | name :: _ =>
      renewBefore <- wrap "error getting renewal duration"
        (lift (RenewalDuration (certLifetime o) DefaultRenewBeforePercentage)) ;;
      wrap "error setting controller reference to Certificate"
        (call (CSetControllerReference (certSecretKey o))) ;;;
      ret (mkCMCertificate (certSecretKey o) (certLifetime o) renewBefore (certDNSNames o) name
             (["digital signature"; "key agreement"] ++ certManagerKeyUsages o) issuerRef
             (nn_Name (certSecretKey o)) [])
  end.

Definition reconcileCertManagerDesiredCert (o : CertReconcilerOpts) (desiredCert : CMCertificate) : C unit :=
  existingCert <- try (call (CGetCMCertificate (certSecretKey o))) ;;
  match existingCert with
  | Err err =>
      if negb (IsNotFound err) then throw (ErrWrap "error getting Certificate" err)
      else wrap "error creating Certificate" (call (CCreateCMCertificate desiredCert))
  | Ok existingCert =>
      call (CPatchCMCertificate existingCert { existingCert with
        cm_Duration := cm_Duration desiredCert; cm_DNSNames := cm_DNSNames desiredCert;
        cm_CommonName := cm_CommonName desiredCert; cm_Usages := cm_Usages desiredCert;
        cm_IssuerRef := cm_IssuerRef desiredCert; cm_SecretName := cm_SecretName desiredCert })
  end.

Definition certManagerCertReady (o : CertReconcilerOpts) : C unit :=
  cert <- call (CGetCMCertificate (certSecretKey o)) ;;
  match head (filter (λ c, c.1 = "Ready") (cm_Conditions cert)) with
  | Some c => if bool_decide (c.2 = "True") then ret tt else throw (ErrNew "Certificate not ready")
  | None => throw (ErrNew "Certificate not ready")
  end.

Definition reconcileCertManagerCert (o : CertReconcilerOpts) (issuerRef : string) : C ctrl_Result :=
  certExists <- wrap "error checking Certificate availability in the cluster" (call CCertificateExist) ;;
  if negb certExists then
    ask (CRecordEvent "CRDNotFound") ;;; ret (requeue_after (10 * Second))
  else
    desiredCert <- wrap "error building desired cert"
      (wrap "error building Certificate" (BuildCertificate o issuerRef)) ;;
    wrap "error reconciling desired cert" (reconcileCertManagerDesiredCert o desiredCert) ;;;
    ready <- try (certManagerCertReady o) ;;
    match ready with
    | Ok _ => ret Result_zero
    | Err _ => ret (requeue_after (5 * Second))
    end.

(** ** Reconcile *)
Record ReconcileResult := mkReconcileResult {
  rr_Result : ctrl_Result;
  rr_CAKeyPair : option KeyPair;
  rr_CertKeyPair : option KeyPair
}.

Definition Reconcile `{CertHandler S} (certOpts : list CertReconcilerOpt) : C ReconcileResult :=
  let o := apply_opts certOpts in
  match certIssuerRef o with
  | Some issuerRef =>
      result <- wrap "error reconciling cert-manager Certificate" (reconcileCertManagerCert o issuerRef) ;;
      ret (mkReconcileResult result None None)
  | None =>
      if shouldIssueCA o || shouldIssueCert o then
        caKeyPair <- wrap "error reconciling CA" (reconcileCA o) ;;
        cert <- wrap "error reconciling certificate" (reconcileCert caKeyPair o) ;;
        ret (mkReconcileResult cert.1 caKeyPair cert.2)
      else ret (mkReconcileResult Result_zero None None)
  end.
End reconciler.
