(* ===== verification/MariaDBTLS.v ===== *)
(** * internal/controller/mariadb_controller_tls.go

    The TLS phase of the MariaDB reconciler: the certificates of the server and of the
    clients, the bundle of the CAs they trust, and the configuration; the annotations of
    the Pods and the status derived from them.  The state is the MariaDB object in memory. *)

From Stdlib Require Import Ascii.
From S2P Require Import Prelude GoStrings GoTime StatefulSet Datastructures Conditions MariaDBTypes.
From S2P Require Import Concurrency Kube Health ConditionSetters Pki Certificate.

Local Open Scope Z_scope.
Local Open Scope go_scope.

Definition TLSCAAnnotation : string := "k8s.mariadb.com/ca".
Definition TLSServerCertAnnotation : string := "k8s.mariadb.com/server-cert".
Definition TLSClientCertAnnotation : string := "k8s.mariadb.com/client-cert".
Definition ConfigTLSAnnotation : string := "k8s.mariadb.com/config-tls".

Section tls.
Context `{X509} `{StatusConditions} (CLUSTER_NAME : string).
Abbreviation C := (M MariaDB certop).

Definition base {A} (m : M MariaDB op A) : C A := hoistM (λ _ o, CBase o) m.

(** ** The certificate handler *)
(** Every Pod is ready and was started with the bundle of the given hash. *)
Definition trusts (caBundleHash : string) (p : Pod) : bool :=
  if negb (PodReady p) then false
  else match pod_Annotations p !! TLSCAAnnotation with
       | None => false
       | Some caAnnotation => bool_decide (caAnnotation = caBundleHash)
       end.
Definition ensureAllPodsTrustingCABundle (mdb : MariaDB) (caBundleHash : string) : C bool :=
  list <- wrap "error listing Pods"
    (call (CBase (KListPods (WithMariaDBSelectorLabels mdb ∅) (Namespace (m_meta mdb))))) ;;
  if negb (bool_decide (Z.of_nat (length list) = sp_Replicas (m_Spec mdb)))
  then throw (ErrNew "some Pods are missing")
  else ret (forallb (trusts caBundleHash) list).

(** [cert.SerialNumber.Cmp(serialNo) == 0]: the serial numbers of parsed certificates are
    never nil. *)
Definition has_serial (serialNo : option Z) (caCerts : list Certificate) : bool :=
  existsb (λ cert, bool_decide (crt_SerialNumber cert = serialNo)) caCerts.

Definition handler_ShouldRenewCert (caKeyPair : KeyPair) : C bool :=
  mdb <- get ;;
  if negb (IsReady mdb) then throw (ErrWrapW "MariaDB not ready" (ErrSentinel ErrSkipCertRenewal)) else
  caLeafCert <- wrap "error getting CA leaf certificate" (lift (LeafCertificate caKeyPair)) ;;
  r <- try (SecretKeyRef (TLSCABundleSecretKeyRef mdb) (Namespace (m_meta mdb))) ;;
  caBundleBytes <- lift (match r with Ok b => Ok b | Err e => Err (ErrWrapW "error getting CA bundle" e) end) ;;
  caCerts <- wrap "error parsing CA certs" (lift (ParseCertificates caBundleBytes)) ;;
  if negb (has_serial (crt_SerialNumber caLeafCert) caCerts) then ret false else
  allPodsTrustingCA <- wrap "error checking pod CAs"
    (ensureAllPodsTrustingCABundle mdb (Hash caBundleBytes)) ;;
  ret allPodsTrustingCA.

Definition set_galera_not_ready (m : MariaDB) : MariaDBStatus :=
  SetGaleraNotReady { m_Status m with st_GaleraRecovery := None }.

Definition handler_HandleExpiredCert : C unit :=
  mdb <- get ;;
  if IsReady mdb then ret tt
  else if IsGaleraEnabled mdb then
    wrap "error patching MariaDB status" (base (patchStatus_m set_galera_not_ready))
  else ret tt.

#[local] Instance certHandler : CertHandler MariaDB := {|
  ShouldRenewCert := handler_ShouldRenewCert;
  HandleExpiredCert := handler_HandleExpiredCert
|}.

(** ** The certificates *)
Definition tlsServerCertOpts (mdb : MariaDB) : list CertReconcilerOpt :=
  if negb (IsGaleraEnabled mdb) then [WithServerCertKeyUsage] else [].
Definition tlsClientCertOpts (mdb : MariaDB) : list CertReconcilerOpt :=
  if negb (IsGaleraEnabled mdb) then [WithClientCertKeyUsage] else [].

Definition is_none {A} (x : option A) : bool := if x is None then true else false.
Definition serverCertOpts (mdb : MariaDB) : list CertReconcilerOpt :=
  let tls := default TLS_zero (sp_TLS (m_Spec mdb)) in
  [ WithCABundle (TLSCABundleSecretKeyRef mdb) (Namespace (m_meta mdb));
    WithCA (is_none (tls_ServerCASecretRef tls)) (TLSServerCASecretKey mdb);
    WithCert (is_none (tls_ServerCertSecretRef tls)) (TLSServerCertSecretKey mdb)
      (TLSServerDNSNames CLUSTER_NAME mdb);
    WithCertIssuerRef (tls_ServerCertIssuerRef tls);
    WithRelatedObject ] ++ tlsServerCertOpts mdb.
Definition clientCertOpts (mdb : MariaDB) : list CertReconcilerOpt :=
  let tls := default TLS_zero (sp_TLS (m_Spec mdb)) in
  [ WithCABundle (TLSCABundleSecretKeyRef mdb) (Namespace (m_meta mdb));
    WithCA (is_none (tls_ClientCASecretRef tls)) (TLSClientCASecretKey mdb);
    WithCert (is_none (tls_ClientCertSecretRef tls)) (TLSClientCertSecretKey mdb) (TLSClientNames mdb);
    WithCertIssuerRef (tls_ClientCertIssuerRef tls);
    WithRelatedObject ] ++ tlsClientCertOpts mdb.

(** An error of [CertReconciler.Reconcile] is wrapped with %w. *)
Definition wrapW {S} {A} (ctx : string) (m : M S certop A) : M S certop A :=
  r <- try m ;; lift (match r with Ok a => Ok a | Err e => Err (ErrWrapW ctx e) end).

Definition reconcileTLSCerts : C ctrl_Result :=
  mdb <- get ;;
  result <- wrapW "error reconciling server cert" (Reconcile (serverCertOpts mdb)) ;;
  if negb (Result_IsZero (rr_Result result)) then ret (rr_Result result) else
  mdb <- get ;;
  result <- wrapW "error reconciling client cert" (Reconcile (clientCertOpts mdb)) ;;
  ret (rr_Result result).

(** ** The bundle *)
(** [SecretReconciler.Reconcile] of pkg/controller/secret *)
Definition SecretReconciler_Reconcile {S} (key : NamespacedName) (data : gmap string string) : M S certop unit :=
  wrap "error building Secret"
    (wrap "error setting controller reference to Secret" (call (CSetControllerReference key))) ;;;
  existingSecret <- try (call (CGetSecret key)) ;;
  match existingSecret with
  | Err err =>
      if negb (IsNotFound err) then throw (ErrWrap "error reconciling Secret" err)
      else call (CCreateSecret (mkSecret key ∅ "" (Some data)))
  | Ok existingSecret => call (CPatchSecret existingSecret { existingSecret with sec_Data := Some data })
  end.

(** The CA of each selector; an empty one for a Secret that does not exist. *)
Fixpoint get_cas {S} (selectors : list SecretKeySelector) (namespace : string) : M S certop (list string) :=
  match selectors with
  | [] => ret []
  | selector :: selectors =>
      ca <- try (SecretKeyRef selector namespace) ;;
      ca <- lift (match ca with
                  | Ok ca => Ok ca
                  | Err err => if negb (IsNotFound err) then Err (ErrWrap "error getting CA Secret" err)
                               else Ok ""
                  end) ;;
      cas <- get_cas selectors namespace ;;
      ret (ca :: cas)
  end.

Definition ca_selectors (mdb : MariaDB) : list SecretKeySelector :=
  [ TLSCABundleSecretKeyRef mdb;
    mkSecretKeySelector (nn_Name (TLSServerCASecretKey mdb)) CACertKey;
    mkSecretKeySelector (nn_Name (TLSClientCASecretKey mdb)) CACertKey ].

Definition reconcileTLSCABundle : C unit :=
  mdb <- get ;;
  let caBundleKeySelector := TLSCABundleSecretKeyRef mdb in
  caBundles <- get_cas (ca_selectors mdb) (Namespace (m_meta mdb)) ;;
  bundle <- wrap "error creating CA bundle" (pki (BundleCertificatePEMs caBundles true)) ;;
  SecretReconciler_Reconcile (mkNamespacedName (sks_Name caBundleKeySelector) (Namespace (m_meta mdb)))
    {[ sks_Key caBundleKeySelector := bundle ]}.

(** ** The configuration *)
Definition tls_config (mdb : MariaDB) : string :=
  Join [ "[mariadb]"; "ssl_cert = /etc/pki/server.crt"; "ssl_key = /etc/pki/server.key";
         "ssl_ca = /etc/pki/ca.crt";
         "require_secure_transport = " +:+ (if IsTLSRequired mdb then "true" else "false");
         "tls_version = TLSv1.3"; "" ] newline.

Definition reconcileTLSConfig : C unit :=
  mdb <- get ;;
  let configMapKeyRef := TLSConfigMapKeyRef mdb in
  call (CReconcileConfigMap (mkNamespacedName (sks_Name configMapKeyRef) (Namespace (m_meta mdb)))
    {[ sks_Key configMapKeyRef := tls_config mdb ]}).

(** ** The phase *)
Definition reconcileTLS : C ctrl_Result :=
  mdb <- get ;;
  if negb (IsTLSEnabled mdb) then ret Result_zero else
  result <- reconcileTLSCerts ;;
  if negb (Result_IsZero result) then ret result else
  reconcileTLSCABundle ;;;
  reconcileTLSConfig ;;;
  ret Result_zero.

(** ** Annotations of the Pods *)
Definition getTLSClientAnnotations (mdb : MariaDB) : C (gmap string string) :=
  if negb (IsTLSEnabled mdb) then ret ∅ else
  ca <- wrap "error getting CA bundle" (SecretKeyRef (TLSCABundleSecretKeyRef mdb) (Namespace (m_meta mdb))) ;;
  clientCert <- wrap "error getting client cert"
    (SecretKeyRef (mkSecretKeySelector (nn_Name (TLSClientCertSecretKey mdb)) TLSCertKey) (Namespace (m_meta mdb))) ;;
  ret (<[TLSClientCertAnnotation := Hash clientCert]> {[ TLSCAAnnotation := Hash ca ]}).

Definition getTLSAnnotations (mdb : MariaDB) : C (gmap string string) :=
  if negb (IsTLSEnabled mdb) then ret ∅ else
  annotations <- wrap "error getting client annotations" (getTLSClientAnnotations mdb) ;;
  serverCert <- wrap "error getting server cert"
    (SecretKeyRef (mkSecretKeySelector (nn_Name (TLSServerCertSecretKey mdb)) TLSCertKey) (Namespace (m_meta mdb))) ;;
  config <- wrap "error getting TLS config"
    (call (CGetConfigMapKey (TLSConfigMapKeyRef mdb) (Namespace (m_meta mdb)))) ;;
  ret (<[ConfigTLSAnnotation := Hash config]> (<[TLSServerCertAnnotation := Hash serverCert]> annotations)).

(** ** Status *)
Definition getCertificateStatus {S} (selector : SecretKeySelector) (namespace : string) : M S certop (list CertificateStatus) :=
  secret <- wrap "error getting Secret" (SecretKeyRef selector namespace) ;;
  certs <- wrap "error getting certificates" (lift (ParseCertificates secret)) ;;
  if bool_decide (certs = @nil Certificate) then throw (ErrNew "no certificates were found") else
  ret ((λ cert, mkCertificateStatus (crt_NotAfter cert) (crt_NotBefore cert) (crt_Subject cert)
                  (crt_Issuer cert)) <$> certs).

Definition getTLSStatus (mdb : MariaDB) : C (option MariaDBTLSStatus) :=
  if negb (IsTLSEnabled mdb) then ret None else
  let ns := Namespace (m_meta mdb) in
  bundle <- wrap "error getting CA bundle status" (getCertificateStatus (TLSCABundleSecretKeyRef mdb) ns) ;;
  server <- wrap "error getting Server certificate status"
    (getCertificateStatus (mkSecretKeySelector (nn_Name (TLSServerCertSecretKey mdb)) TLSCertKey) ns) ;;
  client <- wrap "error getting Client certificate status"
    (getCertificateStatus (mkSecretKeySelector (nn_Name (TLSClientCertSecretKey mdb)) TLSCertKey) ns) ;;
  ret (Some (mkMariaDBTLSStatus bundle (head server) (head client))).
End tls.
