(* ===== verification/CertificateSafety.v ===== *)
(** * When certificates are renewed

    The reconciler of pkg/controller/certificate against any handler that keeps its
    promise, and the handler of the MariaDB controller: a certificate is rewritten only if
    it is missing, invalid, or due for renewal and trusted by every Pod; a CA only if it is
    missing, invalid or due; and what is written can be read again. *)

From S2P Require Import Prelude GoStrings GoTime StatefulSet Datastructures Conditions MariaDBTypes.
From S2P Require Import Concurrency Kube Health ConditionSetters Pki PkiExample Certificate MariaDBTLS.

Local Open Scope Z_scope.
Local Open Scope go_scope.

Abbreviation ctrace := (list (event certop)).

Definition patches (e : event certop) : Prop := match ev_op e with CPatchSecret _ _ => True | _ => False end.

(** ** Generic facts about the steps *)
Section steps.
Context `{X : X509} {S : Type}.

(** The operations that issue a certificate neither write a Secret nor change the state. *)
Lemma createCAFn_no_patch o : alwaysM (S := S) (λ e, ¬ patches e) (createCAFn o).
Proof. unfold createCAFn. always_auto; by intros []. Qed.
Lemma createCertFn_no_patch ca o : alwaysM (S := S) (λ e, ¬ patches e) (createCertFn ca o).
Proof. unfold createCertFn. always_auto; by intros []. Qed.
Lemma createCAFn_keeps o : keepsM (S := S) eq (createCAFn o).
Proof. unfold createCAFn. keeps_auto. Qed.
Lemma createCertFn_keeps ca o : keepsM (S := S) eq (createCertFn ca o).
Proof. unfold createCertFn. keeps_auto. Qed.

(** The Secret does not exist or is empty. *)
Definition missing (key : NamespacedName) (t : ctrace) : Prop :=
  ∃ r, Ev (CGetSecret key) r ∈ t ∧
    match r with Ok s => sec_Data s = None | Err e => IsNotFound e = true end.
Definition read_as (ty : SecretType) (key : NamespacedName) (o : CertReconcilerOpts) (kp : KeyPair) (t : ctrace) : Prop :=
  ∃ secret, Ev (CGetSecret key) (Ok secret) ∈ t ∧ read_pair ty secret o = Ok kp.

Lemma issue_spec {A} (fn : M S certop A) s :
  alwaysM (λ e, ¬ patches e) fn → keepsM eq fn →
  wpM fn s (λ t s' _, s' = s ∧ Forall (λ e, ¬ patches e) t).
Proof.
  intros Ha Hk. eapply wpM_mono; [|apply wpM_conj; [apply Hk|apply (alwaysM_wpM _ _ _ Ha)]].
  by intros t s' r [-> ?].
Qed.

Lemma reconcileKeyPair_spec key ty renew o (fn : M S certop KeyPair) s :
  alwaysM (λ e, ¬ patches e) fn → keepsM eq fn →
  wpM (reconcileKeyPair key ty renew o fn) s (λ t s' r, s' = s ∧ (renew = false →
    guarded patches (missing key) t ∧
    ∀ kp, r = Ok kp → missing key t ∨ read_as ty key o kp t)).
Proof.
  intros Ha Hk. unfold reconcileKeyPair, createSecret, patchSecret, updateSecretMetadata.
  do 2 wp_step. apply wpM_call. intros r. cbn [app].
  destruct r as [secret|err].
  - destruct (bool_decide (sec_Data secret = None) || renew) eqn:Hb.
    + wp_step. eapply wpM_mono; [|apply (issue_spec fn s Ha Hk)]. intros t1 s1 [kp|e] [-> H1].
      * assert (renew = false → ∀ t, missing key (Ev (CGetSecret key) (Ok secret) :: t)) as Hm.
        { intros -> t. exists (Ok secret). split; [by left|]. rewrite orb_false_r in Hb.
          by apply bool_decide_eq_true in Hb. }
        assert (∀ t2, renew = false → guarded patches (missing key)
          (Ev (CGetSecret key) (Ok secret) :: t1 ++ t2)) as Hg.
        { intros t2 Hr. apply guarded_cons; [by intros []|]. apply guarded_prepend; [done|].
          intros u e u' _ _. by apply Hm. }
        wp_auto; (split; [done|]; intros Hr; split; [apply Hg; done|]; intros kp' _; left; by apply Hm).
      * split; [done|]. intros Hr. split; [|done]. apply guarded_cons; [by intros []|].
        by apply guarded_none.
    + wp_step. split; [done|]. intros ->. split; [apply guarded_cons; [by intros []|apply guarded_nil]|].
      intros kp Hkp. right. exists secret. split; [by left|done].
  - destruct (IsNotFound err) eqn:Hn; cbn [negb].
    + wp_step. eapply wpM_mono; [|apply (issue_spec fn s Ha Hk)]. intros t1 s1 [kp|e] [-> H1].
      * assert (∀ t, missing key (Ev (CGetSecret key) (Err err) :: t)) as Hm
          by (intros t; exists (Err err); split; [by left|done]).
        assert (∀ t2, guarded patches (missing key)
          (Ev (CGetSecret key) (Err err) :: t1 ++ t2)) as Hg.
        { intros t2. apply guarded_cons; [by intros []|]. apply guarded_prepend; [done|].
          intros u e u' _ _. by apply Hm. }
        wp_auto; (split; [done|]; intros Hr; split; [apply Hg; done|]; intros kp' _; left; by apply Hm).
      * split; [done|]. intros Hr. split; [|done]. apply guarded_cons; [by intros []|].
        by apply guarded_none.
    + wp_step. split; [done|]. intros Hr. split; [|done]. apply guarded_cons; [by intros []|apply guarded_nil].
Qed.

(** Facts of a trace stay true of a longer one. *)
Lemma missing_incl key (t t' : ctrace) : t ⊆ t' → missing key t → missing key t'.
Proof. intros Hs (r & Hr & Hm). exists r. auto. Qed.
Lemma read_as_incl ty key o kp (t t' : ctrace) : t ⊆ t' → read_as ty key o kp t → read_as ty key o kp t'.
Proof. intros Hs (r & Hr & Hm). exists r. auto. Qed.

(** ** The CA *)
(** The pair in the Secret is not valid, or its renewal time has passed. *)
Definition due_or_invalid (ty : SecretType) (key : NamespacedName) (o : CertReconcilerOpts)
    (valid_at : KeyPair → Z → Prop) (t : ctrace) : Prop :=
  ∃ kp leaf renewal n, read_as ty key o kp t ∧ LeafCertificate kp = Ok leaf ∧
    RenewalTime (crt_NotBefore leaf) (crt_NotAfter leaf) (renewBeforePercentage o) = Ok renewal ∧
    Ev (CPki PkiNow) n ∈ t ∧ (¬ valid_at kp n ∨ renewal < n).

Lemma due_or_invalid_incl ty key o valid_at (t t' : ctrace) : t ⊆ t' →
  due_or_invalid ty key o valid_at t → due_or_invalid ty key o valid_at t'.
Proof.
  intros Hs (kp & leaf & renewal & n & Hr & Hl & Ht & Hn & Hor). exists kp, leaf, renewal, n.
  split_and!; auto. by eapply read_as_incl.
Qed.

Lemma wpM_now (s : S) Q : (∀ n, Q [Ev (CPki PkiNow) n] s (Ok n)) → wpM now s Q.
Proof. done. Qed.
Ltac ct_step :=
  lazymatch goal with
  | |- wpM now _ _ => apply wpM_now; intros ?; cbn [app]
  | _ => wp_step
  end.

Definition ca_due (o : CertReconcilerOpts) (t : ctrace) : Prop :=
  missing (caSecretKey o) t ∨ due_or_invalid (caSecretType o) (caSecretKey o) o
    (λ kp n, ValidateCA kp (caCommonName o) n = Ok tt) t.
Lemma ca_due_incl o (t t' : ctrace) : t ⊆ t' → ca_due o t → ca_due o t'.
Proof. intros Hs [Hm|Hd]; [left; by eapply missing_incl|right; by eapply due_or_invalid_incl]. Qed.

(** A prefix in which patches are guarded by [F], then a quiet part, then anything once [F]
    holds. *)
Lemma guarded_quiet (F : ctrace → Prop) t1 t2 :
  guarded patches F t1 → Forall (λ e, ¬ patches e) t2 → guarded patches F (t1 ++ t2).
Proof. intros Hg Hq. apply guarded_append; [done|by apply guarded_none]. Qed.
Lemma guarded_then (F : ctrace → Prop) t1 t2 : (∀ t t', t ⊆ t' → F t → F t') →
  guarded patches F t1 → F t1 → guarded patches F (t1 ++ t2).
Proof.
  intros Hincl Hg HF. apply guarded_append; [done|]. intros u e u' _ _. eapply Hincl; [|exact HF]. set_solver.
Qed.

(** A CA the operator issues is rewritten only if its Secret does not exist or is
    empty, or if the pair read from it is not valid at the time the clock shows, or after
    its renewal time. *)
Theorem ca_rewritten_only_when_due o (s : S) :
  wpM (reconcileCA o) s (λ t s' _, s' = s ∧ guarded patches (ca_due o) t).
Proof.
  unfold reconcileCA. ct_step; [ct_step; split; [done|apply guarded_nil]|].
  ct_step.
  { eapply wpM_mono; [|apply (issue_spec _ s)].
    - intros t s' r [-> Ht]. split; [done|by apply guarded_none].
    - unfold getCAKeyPair, handleCAKeyPairResult. always_auto; by intros [].
    - unfold getCAKeyPair, handleCAKeyPairResult. keeps_auto. }
  do 2 ct_step. eapply wpM_mono; [|apply (reconcileKeyPair_spec _ _ false o);
    [apply createCAFn_no_patch|apply createCAFn_keeps]].
  intros t1 s1 r1 [-> H1]. destruct (H1 eq_refl) as [Hg Hr1]. clear H1.
  assert (guarded patches (ca_due o) t1) as Hg1 by (eapply guarded_mono; [|exact Hg]; by left).
  destruct r1 as [kp|e]; cbn [wrap_err]; [|by split].
  do 3 ct_step. destruct (LeafCertificate kp) as [leaf|e] eqn:Hleaf; cbn [wrap_err];
    [|split; [done|by apply guarded_quiet]].
  do 3 ct_step. destruct (RenewalTime _ _ _) as [renewal|e] eqn:Hren; cbn [wrap_err];
    [|split; [done|by apply guarded_quiet]].
  do 4 ct_step. cbn [app]. rename n into n1, n0 into n2.
  assert (guarded patches (ca_due o) (t1 ++ [Ev (CPki PkiNow) n1; Ev (CPki PkiNow) n2])) as Hg12
    by (apply guarded_quiet; [done|repeat constructor; by intros []]).
  ct_step; [|ct_step; by split].
  assert (ca_due o (t1 ++ [Ev (CPki PkiNow) n1; Ev (CPki PkiNow) n2])) as Hdue.
  { destruct (Hr1 kp eq_refl) as [Hm|Hr]; [left; eapply missing_incl; [|exact Hm]; set_solver|right].
    apply (read_as_incl _ _ _ _ _ (t1 ++ [Ev (CPki PkiNow) n1; Ev (CPki PkiNow) n2])) in Hr; [|set_solver].
    apply orb_true_iff in Heqb1 as [Hv%negb_true_iff%bool_decide_eq_false|Ha%bool_decide_eq_true].
    - exists kp, leaf, renewal, n1. split_and!; [done..|set_solver|by left].
    - exists kp, leaf, renewal, n2. split_and!; [done..|set_solver|by right]. }
  do 2 ct_step. eapply wpM_mono; [|apply (reconcileKeyPair_spec _ _ true o);
    [apply createCAFn_no_patch|apply createCAFn_keeps]].
  intros t2 s2 r2 [-> _].
  assert (guarded patches (ca_due o) (t1 ++ Ev (CPki PkiNow) n1 :: Ev (CPki PkiNow) n2 :: t2)) as Hall.
  { change (Ev (CPki PkiNow) n1 :: Ev (CPki PkiNow) n2 :: t2) with
      ([Ev (CPki PkiNow) n1; Ev (CPki PkiNow) n2] ++ t2). rewrite app_assoc.
    apply guarded_then; [apply ca_due_incl|done..]. }
  destruct r2 as [kp2|e]; cbn [wrap_err]; [ct_step; rewrite app_nil_r|]; split; done.
Qed.

(** ** What is written *)
Definition well_formed (o : CertReconcilerOpts) (kp : KeyPair) : Prop :=
  KeyPair_Validate kp = Ok tt ∧ SupportedPrivateKeys kp = supportedPrivateKeys o.
(** A Secret that is written holds a valid key pair under the keys of its type. *)
Definition writes_pair (ty : SecretType) (o : CertReconcilerOpts) (e : event certop) : Prop :=
  match ev_op e with
  | CCreateSecret s | CPatchSecret _ s => ∃ kp, read_pair ty s o = Ok kp ∧ well_formed o kp
  | _ => True
  end.

Lemma NewKeyPair_well_formed c k o kp : NewKeyPair c k (KeyPairOpts o) = Ok kp → well_formed o kp.
Proof.
  intros Hk. split; [by eapply NewKeyPair_valid|]. unfold NewKeyPair, KeyPairOpts in Hk. cbn [foldl] in Hk.
  destruct (KeyPair_Validate _); [|done]. by injection Hk as <-.
Qed.

Lemma NewKeyPairFromTemplate_well_formed tpl ca o (s : S) :
  wpM (NewKeyPairFromTemplate tpl ca (KeyPairOpts o)) s (λ _ _ r, ∀ kp, r = Ok kp → well_formed o kp).
Proof.
  unfold NewKeyPairFromTemplate, GeneratePrivateKey.
  repeat match goal with |- ∀ _, _ = Ok _ → _ => fail 1 | _ => wp_step end; try done.
  all: intros kp Hk; by eapply NewKeyPair_well_formed.
Qed.

Lemma createCAFn_well_formed o (s : S) :
  wpM (createCAFn o) s (λ _ _ r, ∀ kp, r = Ok kp → well_formed o kp).
Proof.
  unfold createCAFn, CAx509Opts, now, pki. do 2 wp_step. wp_step; [by wp_step|].
  do 4 wp_step. wp_step. cbn [app wrap_err]. apply wpM_hoist. unfold CreateCA.
  do 4 wp_step. cbn [foldl]. wp_step; [by wp_step|]. do 3 wp_step. destruct (validateLifetime _ _ _ _); [|done].
  cbn [wrap_err]. do 3 wp_step; [|done]. apply NewKeyPairFromTemplate_well_formed.
Qed.
Lemma createCertFn_well_formed ca o (s : S) :
  wpM (createCertFn ca o) s (λ _ _ r, ∀ kp, r = Ok kp → well_formed o kp).
Proof.
  unfold createCertFn, Certx509Opts, now, pki. do 2 wp_step. wp_step; [by wp_step|].
  do 4 wp_step. wp_step. cbn [app wrap_err]. apply wpM_hoist. unfold CreateCert.
  do 4 wp_step. cbn [foldl]. wp_step; [by wp_step|]. do 3 wp_step. destruct (validateLifetime _ _ _ _); [|done].
  cbn [wrap_err]. do 3 wp_step; [|done]. apply NewKeyPairFromTemplate_well_formed.
Qed.

Lemma read_pair_well_formed ty secret o kp : read_pair ty secret o = Ok kp → well_formed o kp.
Proof.
  unfold read_pair, NewKeyPairFromCASecret, NewKeyPairFromTLSSecret, NewKeyPairFromSecret.
  destruct ty, (sec_Data secret) as [data|]; try done;
    (destruct (data !! _); [|done]); (destruct (data !! _); [|done]); apply NewKeyPair_well_formed.
Qed.
Lemma update_secret_read ty kp secret labels o : well_formed o kp →
  read_pair ty { update_secret ty kp secret with sec_Labels := labels } o = Ok kp.
Proof.
  intros [Hv Hs]. unfold read_pair, KeyPairOpts. rewrite <- Hs.
  destruct ty; [by refine (UpdateSecret_read kp secret CACertKey CAKeyKey _ Hv)|].
  by refine (UpdateSecret_read kp secret TLSCertKey TLSKeyKey _ Hv).
Qed.
Lemma issue_writes_nothing ty o (issue_ca : bool) ca (s : S) :
  wpM (if issue_ca then createCAFn o else createCertFn ca o) s (λ t _ r,
    Forall (writes_pair ty o) t ∧ ∀ kp, r = Ok kp → well_formed o kp).
Proof.
  apply wpM_conj; [|destruct issue_ca; [apply createCAFn_well_formed|apply createCertFn_well_formed]].
  apply alwaysM_wpM. destruct issue_ca; [unfold createCAFn|unfold createCertFn]; by always_auto.
Qed.

(** C33: every Secret the reconciler writes for a CA or a certificate can be read again: its
    data is a valid key pair whose key has a supported type.  So is every pair it returns,
    whether it was issued or read: an ill-formed pair in a Secret is an error. *)
Theorem written_secrets_well_formed ty key renew o (issue_ca : bool) ca (s : S) :
  wpM (reconcileKeyPair key ty renew o (if issue_ca then createCAFn o else createCertFn ca o)) s
    (λ t _ r, Forall (writes_pair ty o) t ∧ ∀ kp, r = Ok kp → well_formed o kp).
Proof.
  unfold reconcileKeyPair, createSecret, patchSecret, updateSecretMetadata.
  do 2 wp_step. apply wpM_call. intros [secret|err]; cbn [app].
  - wp_step; [|wp_step; split; [by repeat constructor|]; intros kp; apply read_pair_well_formed].
    wp_step. eapply wpM_mono; [|apply issue_writes_nothing].
    intros t1 s1 [kp|e] [H1 Hkp]; [|split; [by constructor|done]]. specialize (Hkp kp eq_refl).
    pose proof (λ l, update_secret_read ty kp secret l o Hkp) as Hread.
    wp_auto; (split; [constructor; [done|]; apply Forall_app_2; [done|]; repeat constructor; eexists; by split|]);
      try done; by intros kp' [= <-].
  - wp_step; [by wp_step; split; [repeat constructor|]|].
    wp_step. eapply wpM_mono; [|apply issue_writes_nothing].
    intros t1 s1 [kp|e] [H1 Hkp]; [|split; [by constructor|done]]. specialize (Hkp kp eq_refl).
    pose proof (λ l, update_secret_read ty kp (mkSecret key ∅ "" None) l o Hkp) as Hread.
    wp_auto; (split; [constructor; [done|]; apply Forall_app_2; [done|]; repeat constructor; eexists; by split|]);
      try done; by intros kp' [= <-].
Qed.

(** ** The certificate *)
(** What the certificates of the CA bundle are: those in the bundle Secret, or those of the
    CA if it cannot be read. *)
Definition trusted_cas (ca : KeyPair) (o : CertReconcilerOpts) (caCerts : list Certificate) (t : ctrace) : Prop :=
  Certificates ca = Ok caCerts ∨
  ∃ sel ns secret bundle, caBundleSecretKey o = Some sel ∧ caBundleNamespace o = Some ns ∧
    Ev (CGetSecret (mkNamespacedName (sks_Name sel) ns)) (Ok secret) ∈ t ∧
    default ∅ (sec_Data secret) !! sks_Key sel = Some bundle ∧ ParseCertificates bundle = Ok caCerts.

Lemma getCABundle_spec ca o (s : S) :
  wpM (getCABundle ca o) s (λ t s' r, s' = s ∧ Forall (λ e, ¬ patches e) t ∧
    ∀ caCerts, r = Ok caCerts → trusted_cas ca o caCerts t).
Proof.
  unfold getCABundle, SecretKeyRef, trusted_cas.
  destruct (caBundleSecretKey o) as [sel|] eqn:Hsel, (caBundleNamespace o) as [ns|] eqn:Hns.
  2-4: do 4 wp_step; (split; [done|]); (split; [done|]); intros cs Hc%wrap_err_Ok; by left.
  do 4 wp_step. apply wpM_call. intros [secret|err]; cbn [app].
  - wp_step; repeat wp_step; (split; [done|]); (split; [repeat constructor; by intros []|]).
    + intros cs Hc. right. exists sel, ns, secret, s0. split_and!; [done..|by left|done|].
      destruct (ParseCertificates s0); [|done]. by injection Hc as ->.
    + intros cs Hc. left. destruct (Certificates ca); [|done]. by injection Hc as ->.
  - repeat wp_step; (split; [done|]); (split; [repeat constructor; by intros []|]).
    intros cs Hc. left. destruct (Certificates ca); [|done]. by injection Hc as ->.
Qed.

(** The promise of a handler: what it has seen when it says that a certificate should be
    renewed; and that it writes no Secret. *)
Class CertHandlerSpec `{CertHandler S} (agreed : S → KeyPair → ctrace → Prop) := {
  agreed_incl m ca t t' : t ⊆ t' → agreed m ca t → agreed m ca t';
  ShouldRenewCert_spec m ca :
    wpM (ShouldRenewCert ca) m (λ t m' r, m' = m ∧ Forall (λ e, ¬ patches e) t ∧
      (r = Ok true → agreed m ca t));
  HandleExpiredCert_spec m : wpM HandleExpiredCert m (λ t _ _, Forall (λ e, ¬ patches e) t)
}.

Section cert.
Context `{HANDLER : CertHandler S} (agreed : S → KeyPair → ctrace → Prop) `{!CertHandlerSpec agreed}.

(** The certificate is missing; or it does not verify; or its renewal time has passed and
    the handler agrees. *)
Definition cert_due (m : S) (ca : KeyPair) (o : CertReconcilerOpts) (t : ctrace) : Prop :=
  missing (certSecretKey o) t ∨
  (∃ kp caCerts n, read_as SecretTypeTLS (certSecretKey o) o kp t ∧ trusted_cas ca o caCerts t ∧
     Ev (CPki PkiNow) n ∈ t ∧ ValidateCert caCerts kp (certCommonName o) n ≠ Ok tt) ∨
  (∃ kp leaf renewal n, read_as SecretTypeTLS (certSecretKey o) o kp t ∧ LeafCertificate kp = Ok leaf ∧
     RenewalTime (crt_NotBefore leaf) (crt_NotAfter leaf) (renewBeforePercentage o) = Ok renewal ∧
     Ev (CPki PkiNow) n ∈ t ∧ renewal < n ∧ agreed m ca t).

Lemma trusted_cas_incl ca o caCerts (t t' : ctrace) : t ⊆ t' → trusted_cas ca o caCerts t → trusted_cas ca o caCerts t'.
Proof.
  intros Hs [?|(sel & ns & secret & bundle & ? & ? & ? & ? & ?)]; [by left|right].
  exists sel, ns, secret, bundle. auto 10.
Qed.
Lemma cert_due_incl m ca o (t t' : ctrace) : t ⊆ t' → cert_due m ca o t → cert_due m ca o t'.
Proof.
  intros Hs [Hm|[(kp & cs & n & Hr & Hc & Hn & Hv)|(kp & leaf & renewal & n & Hr & Hl & Ht & Hn & Hlt & Ha)]].
  - left. by eapply missing_incl.
  - right; left. exists kp, cs, n. split_and!; [by eapply read_as_incl|by eapply trusted_cas_incl|auto|done].
  - right; right. exists kp, leaf, renewal, n. split_and!; auto; [by eapply read_as_incl|by eapply agreed_incl].
Qed.

Lemma reconcileCert_spec o ca m :
  wpM (reconcileCert (Some ca) o) m (λ t _ _, guarded patches (cert_due m ca o) t).
Proof.
  unfold reconcileCert. ct_step; [ct_step; apply guarded_nil|].
  do 2 ct_step. eapply wpM_mono; [|apply (reconcileKeyPair_spec _ _ false o);
    [apply createCertFn_no_patch|apply createCertFn_keeps]].
  intros t1 s1 r1 [-> H1]. destruct (H1 eq_refl) as [Hg Hr1]. clear H1.
  assert (guarded patches (cert_due m ca o) t1) as Hg1 by (eapply guarded_mono; [|exact Hg]; by left).
  destruct r1 as [kp|e]; cbn [wrap_err]; [|done].
  do 2 ct_step. eapply wpM_mono; [|apply getCABundle_spec]. intros t2 s2 r2 (-> & H2 & Hcas).
  assert (guarded patches (cert_due m ca o) (t1 ++ t2)) as Hg2 by by apply guarded_quiet.
  destruct r2 as [caCerts|e]; cbn [wrap_err]; [|done]. specialize (Hcas caCerts eq_refl).
  do 3 ct_step. destruct (LeafCertificate kp) as [leaf|e] eqn:Hleaf; cbn [wrap_err];
    [|by rewrite app_nil_r].
  do 3 ct_step. destruct (RenewalTime _ _ _) as [renewal|e] eqn:Hren; cbn [wrap_err app];
    [|by rewrite app_nil_r].
  do 4 ct_step. cbn [app]. rename n into n1, n0 into n2. set (clock := [Ev (CPki PkiNow) n1; Ev (CPki PkiNow) n2]).
  assert (∀ t, Ev (CPki PkiNow) n1 :: Ev (CPki PkiNow) n2 :: t = clock ++ t) as Hclock by done.
  assert (guarded patches (cert_due m ca o) (t1 ++ t2 ++ clock)) as Hg3.
  { rewrite app_assoc. apply guarded_quiet; [done|repeat constructor; by intros []]. }
  (* what is known about the pair when it is checked *)
  assert (missing (certSecretKey o) (t1 ++ t2 ++ clock) ∨
    read_as SecretTypeTLS (certSecretKey o) o kp (t1 ++ t2 ++ clock)) as Hkp.
  { destruct (Hr1 kp eq_refl) as [Hm|Hr]; [left; eapply missing_incl; [|exact Hm]; set_solver|right].
    eapply read_as_incl; [|exact Hr]. set_solver. }
  assert (∀ t3, (missing (certSecretKey o) (t1 ++ t2 ++ clock) ∨ cert_due m ca o (t1 ++ t2 ++ clock ++ t3)) →
    Forall (λ e, ¬ patches e) t3 → ∀ t4, guarded patches (cert_due m ca o) (t1 ++ t2 ++ clock ++ t3 ++ t4)) as Hwrite.
  { intros t3 Hdue Hq t4. rewrite !app_assoc. apply guarded_then; [apply cert_due_incl| |].
    - apply guarded_quiet; [|done]. by rewrite <- app_assoc.
    - rewrite <- !app_assoc. destruct Hdue as [Hm|Hd]; [left; eapply missing_incl; [|exact Hm]; set_solver|done]. }
  ct_step.
  { apply negb_true_iff, bool_decide_eq_false in Heqb0.
    assert (missing (certSecretKey o) (t1 ++ t2 ++ clock) ∨ cert_due m ca o (t1 ++ t2 ++ clock ++ [])) as Hdue.
    { destruct Hkp as [Hm|Hr]; [by left|right]. rewrite app_nil_r. right; left.
      exists kp, caCerts, n1. split_and!; [done| |set_solver|done].
      eapply trusted_cas_incl; [|exact Hcas]. set_solver. }
    do 2 ct_step. eapply wpM_mono; [|apply (reconcileKeyPair_spec _ _ true o);
      [apply createCertFn_no_patch|apply createCertFn_keeps]].
    intros t4 s4 r4 [-> _]. rewrite Hclock.
    destruct r4 as [kp4|e]; cbn [wrap_err]; [|by apply (Hwrite [])].
    do 2 ct_step. eapply wpM_mono; [|apply HandleExpiredCert_spec]. intros t5 s5 r5 H5.
    rewrite Hclock. destruct r5; cbn [wrap_err]; [ct_step; rewrite app_nil_r|]; by apply (Hwrite []). }
  ct_step; [ct_step; done|].
  apply negb_false_iff, bool_decide_eq_true in Heqb1.
  do 2 ct_step. eapply wpM_mono; [|apply ShouldRenewCert_spec]. intros t3 s3 r3 (-> & H3 & Hagreed).
  assert (guarded patches (cert_due m ca o) (t1 ++ t2 ++ clock ++ t3)) as Hg4.
  { rewrite !app_assoc. apply guarded_quiet; [|done]. by rewrite <- app_assoc. }
  destruct r3 as [[]|e].
  - do 2 ct_step. eapply wpM_mono; [|apply (reconcileKeyPair_spec _ _ true o);
      [apply createCertFn_no_patch|apply createCertFn_keeps]].
    intros t4 s4 r4 [-> _].
    assert (guarded patches (cert_due m ca o) (t1 ++ t2 ++ clock ++ t3 ++ t4)) as Hfin.
    { apply Hwrite; [|done]. destruct Hkp as [Hm|Hr]; [by left|right]. right; right.
      exists kp, leaf, renewal, n2. split_and!; [|done|done|set_solver|done|].
      - eapply read_as_incl; [|exact Hr]. set_solver.
      - eapply agreed_incl; [|by apply Hagreed]. set_solver. }
    destruct r4; cbn [wrap_err]; [ct_step; rewrite app_nil_r|]; done.
  - ct_step. by rewrite app_nil_r.
  - ct_step; ct_step; by rewrite app_nil_r.
Qed.
End cert.
End steps.

(** ** The handler of the MariaDB controller *)
Section mariadb.
Context `{X : X509} `{COND : StatusConditions} (CLUSTER_NAME : string).
#[local] Existing Instance certHandler.

(** MariaDB is ready, the bundle has the CA, and every Pod is ready and runs with exactly
    this bundle. *)
Definition pods_trust (m : MariaDB) (ca : KeyPair) (t : ctrace) : Prop :=
  IsReady m = true ∧ ∃ secret bundle caCerts leaf pods,
    Ev (CGetSecret (mkNamespacedName (sks_Name (TLSCABundleSecretKeyRef m)) (Namespace (m_meta m)))) (Ok secret) ∈ t ∧
    default ∅ (sec_Data secret) !! CACertKey = Some bundle ∧ ParseCertificates bundle = Ok caCerts ∧
    LeafCertificate ca = Ok leaf ∧ (∃ c, c ∈ caCerts ∧ crt_SerialNumber c = crt_SerialNumber leaf) ∧
    Ev (CBase (KListPods (WithMariaDBSelectorLabels m ∅) (Namespace (m_meta m)))) (Ok pods) ∈ t ∧
    Z.of_nat (length pods) = sp_Replicas (m_Spec m) ∧
    (∀ p, p ∈ pods → PodReady p = true ∧ pod_Annotations p !! TLSCAAnnotation = Some (Hash bundle)).

Lemma trusts_spec h p : trusts h p = true → PodReady p = true ∧ pod_Annotations p !! TLSCAAnnotation = Some h.
Proof.
  unfold trusts. destruct (PodReady p); cbn; [|done]. destruct (_ !! _); [|done].
  by intros ->%bool_decide_eq_true.
Qed.

Lemma handler_ShouldRenewCert_spec m ca :
  wpM (handler_ShouldRenewCert ca) m (λ t m' r, m' = m ∧ Forall (λ e, ¬ patches e) t ∧
    (r = Ok true → pods_trust m ca t)).
Proof.
  unfold handler_ShouldRenewCert, SecretKeyRef, ensureAllPodsTrustingCABundle.
  repeat wp_step.
  all: try by (split; [done|]; split; [repeat constructor; by intros []|]).
  split; [done|]. split; [repeat constructor; by intros []|]. intros [= Hall].
  apply negb_false_iff in Heqb, Heqb0, Heqb1. apply bool_decide_eq_true in Heqb1.
  apply existsb_exists in Heqb0 as (c & Hc & Hserial%bool_decide_eq_true).
  split; [done|]. exists a0, s, a1, a, a2. split_and!; [by left|done..| | |done|].
  - exists c. split; [by apply list_elem_of_In|done].
  - right. by left.
  - intros p Hp. apply trusts_spec. rewrite forallb_forall in Hall. by apply Hall, list_elem_of_In.
Qed.

#[local] Instance mariadb_handler_spec : CertHandlerSpec pods_trust.
Proof.
  split.
  - intros m ca t t' Hs (Hr & secret & bundle & cs & leaf & pods & H1 & H2 & H3 & H4 & H5 & H6 & H7).
    split; [done|]. exists secret, bundle, cs, leaf, pods. auto 10.
  - apply handler_ShouldRenewCert_spec.
  - intros m. apply alwaysM_wpM. change (alwaysM (λ e, ¬ patches e) handler_HandleExpiredCert).
    unfold handler_HandleExpiredCert, base.
    always_auto; try by intros []. intros s r. split; [by intros []|done].
Qed.

(** C28: a certificate of MariaDB is rewritten only if its Secret does not exist or is empty;
    or if the pair read from it does not verify against the CA bundle (or the CA itself, if
    the bundle cannot be read) at the time the clock shows; or after its renewal time, if
    MariaDB is ready, the bundle contains the CA that issues the new certificate, and each of
    the expected Pods is ready and carries the hash of exactly this bundle: a new certificate
    is never served to Pods that do not trust its issuer. *)
Theorem cert_renewed_when_trusted o ca m :
  wpM (reconcileCert (Some ca) o) m (λ t _ _, guarded patches (cert_due pods_trust m ca o) t).
Proof. apply (reconcileCert_spec pods_trust). Qed.

(** ** A renewal that waits for a CA nobody adds to the bundle *)
(** The Secrets and the clock as they are found. *)
Record world := mkWorld { w_secret : NamespacedName → result Secret; w_now : Z }.
Definition in_world (w : world) (e : event certop) : Prop :=
  match ev_op e in certop Y return Y → Prop with
  | CGetSecret key => λ a, a = w_secret w key
  | @CPki Y o => match o in pkiop Z return Z → Prop with PkiNow => λ a, a = w_now w | _ => λ _, True end
  | _ => λ _, True
  end (ev_ans e).
Definition only_looks (e : event certop) : Prop :=
  match ev_op e with CGetSecret _ | CPki PkiNow => True | _ => False end.

Definition stored (w : world) (ty : SecretType) (key : NamespacedName) (o : CertReconcilerOpts) (kp : KeyPair) : Prop :=
  ∃ s, w_secret w key = Ok s ∧ sec_Data s ≠ None ∧ read_pair ty s o = Ok kp.
Definition due_at (o : CertReconcilerOpts) (kp : KeyPair) (n : Z) (due : bool) : Prop :=
  ∃ leaf renewal, LeafCertificate kp = Ok leaf ∧
    RenewalTime (crt_NotBefore leaf) (crt_NotAfter leaf) (renewBeforePercentage o) = Ok renewal ∧
    bool_decide (renewal < n) = due.

Ltac wa_step :=
  lazymatch goal with
  | |- wpA _ (bind _ _) _ _ => apply wpA_bind
  | |- wpA _ (wrap _ _) _ _ => apply wpA_wrap
  | |- wpA _ (try _) _ _ => apply wpA_try
  | |- wpA _ (ret _) _ _ => apply wpA_ret
  | |- wpA _ (throw _) _ _ => apply wpA_throw
  | |- wpA _ (lift _) _ _ => apply wpA_lift
  | |- wpA _ get _ _ => apply wpA_get
  | |- wpA _ now _ _ => apply wpA_ask; let H := fresh in intros ? H; cbv [in_world ev_op ev_ans] in H; subst
  | |- wpA _ (call _) _ _ => apply wpA_call; let H := fresh in intros ? H; cbv [in_world ev_op ev_ans] in H; subst
  end; cbn [wrap_err app].

Lemma reconcileKeyPair_world w ty key o kp fn (m : MariaDB) Q : stored w ty key o kp →
  Q [Ev (CGetSecret key) (w_secret w key)] m (Ok kp) →
  wpA (in_world w) (reconcileKeyPair key ty false o fn) m Q.
Proof.
  intros (s & Hs & Hd & Hr) HQ. unfold reconcileKeyPair. do 3 wa_step. rewrite Hs in *.
  rewrite bool_decide_eq_false_2 by done. cbn [orb]. wa_step. by rewrite Hr.
Qed.

Lemma reconcileCA_world w o ca (m : MariaDB) :
  shouldIssueCA o = true → stored w (caSecretType o) (caSecretKey o) o ca →
  ValidateCA ca (caCommonName o) (w_now w) = Ok tt → due_at o ca (w_now w) false →
  wpA (in_world w) (reconcileCA o) m (λ t m' r, m' = m ∧ Forall only_looks t ∧ r = Ok (Some ca)).
Proof.
  intros Hi Hs Hv (leaf & renewal & Hl & Hr & Hn). unfold reconcileCA. rewrite Hi. cbn [negb andb].
  do 2 wa_step. apply (reconcileKeyPair_world w _ _ _ ca); [done|]. cbn [wrap_err].
  do 3 wa_step. rewrite Hl. cbn [wrap_err]. do 3 wa_step. rewrite Hr. cbn [wrap_err].
  do 4 wa_step. rewrite Hv, bool_decide_eq_true_2, Hn by done. cbn [negb orb]. wa_step.
  split; [done|]. split; [by repeat constructor|done].
Qed.

Lemma handler_world w m ca leaf bundleSecret bundle caCerts :
  IsReady m = true → LeafCertificate ca = Ok leaf →
  w_secret w (mkNamespacedName (sks_Name (TLSCABundleSecretKeyRef m)) (Namespace (m_meta m))) = Ok bundleSecret →
  default ∅ (sec_Data bundleSecret) !! CACertKey = Some bundle → ParseCertificates bundle = Ok caCerts →
  has_serial (crt_SerialNumber leaf) caCerts = false →
  wpA (in_world w) (handler_ShouldRenewCert ca) m (λ t m' r, m' = m ∧ Forall only_looks t ∧ r = Ok false).
Proof.
  intros Hready Hl Hs Hb Hp Hh. unfold handler_ShouldRenewCert, SecretKeyRef.
  do 2 wa_step. rewrite Hready. cbn [negb]. do 3 wa_step. rewrite Hl. cbn [wrap_err].
  do 4 wa_step. rewrite Hs. change (sks_Key (TLSCABundleSecretKeyRef m)) with CACertKey. rewrite Hb.
  wa_step. do 2 wa_step. do 3 wa_step. rewrite Hp. cbn [wrap_err]. rewrite Hh. cbn [negb]. wa_step.
  split; [done|]. split; [by repeat constructor|done].
Qed.

Lemma reconcileCert_world w o m ca kp caLeaf bundleSecret bundle caCerts :
  shouldIssueCert o = true → caBundleSecretKey o = Some (TLSCABundleSecretKeyRef m) →
  caBundleNamespace o = Some (Namespace (m_meta m)) →
  stored w SecretTypeTLS (certSecretKey o) o kp →
  ValidateCert caCerts kp (certCommonName o) (w_now w) = Ok tt → due_at o kp (w_now w) true →
  IsReady m = true → LeafCertificate ca = Ok caLeaf →
  w_secret w (mkNamespacedName (sks_Name (TLSCABundleSecretKeyRef m)) (Namespace (m_meta m))) = Ok bundleSecret →
  default ∅ (sec_Data bundleSecret) !! CACertKey = Some bundle → ParseCertificates bundle = Ok caCerts →
  has_serial (crt_SerialNumber caLeaf) caCerts = false →
  wpA (in_world w) (reconcileCert (Some ca) o) m (λ t m' r,
    m' = m ∧ Forall only_looks t ∧ r = Ok (requeue_after (10 * Second), None)).
Proof.
  intros Hi Hsel Hns Hs Hv (leaf & renewal & Hl & Hr & Hn) Hready Hcl Hb Hbd Hp Hh.
  unfold reconcileCert. rewrite Hi. cbn [negb].
  do 2 wa_step. apply (reconcileKeyPair_world w _ _ _ kp); [done|]. cbn [wrap_err].
  do 2 wa_step. unfold getCABundle, SecretKeyRef. rewrite Hsel, Hns.
  do 5 wa_step. rewrite Hb. change (sks_Key (TLSCABundleSecretKeyRef m)) with CACertKey. rewrite Hbd.
  do 2 wa_step. do 2 wa_step. rewrite Hp. cbn [wrap_err].
  do 3 wa_step. rewrite Hl. cbn [wrap_err]. do 3 wa_step. rewrite Hr. cbn [wrap_err].
  do 4 wa_step. rewrite Hv, bool_decide_eq_true_2, Hn by done. cbn [negb].
  do 2 wa_step.
  eapply wpA_mono; [|by eapply (handler_world w m ca)]. intros t m' r (-> & Ht & ->).
  wa_step. split; [done|]. split; [|done]. rewrite app_nil_r. by repeat constructor.
Qed.

(** A renewal that waits for its CA can wait for ever.  If the CA was replaced while
    the server certificate is due for renewal and still valid, the TLS phase finds that the
    bundle does not contain the CA and returns, asking to be called again, before it reaches
    the step that would add the CA to the bundle.  In a world where the Secrets are like
    that, it only reads: the bundle, the certificate and the configuration of TLS stay as
    they are until the certificate expires or MariaDB stops being ready. *)
Theorem missing_ca_is_never_bundled w m ca caLeaf kp bundleSecret bundle caCerts :
  let o := apply_opts (serverCertOpts CLUSTER_NAME m) in
  sp_TLS (m_Spec m) = Some { TLS_zero with tls_Enabled := true } → IsReady m = true →
  stored w SecretTypeCA (TLSServerCASecretKey m) o ca → LeafCertificate ca = Ok caLeaf →
  ValidateCA ca (caCommonName o) (w_now w) = Ok tt → due_at o ca (w_now w) false →
  stored w SecretTypeTLS (TLSServerCertSecretKey m) o kp →
  ValidateCert caCerts kp (certCommonName o) (w_now w) = Ok tt → due_at o kp (w_now w) true →
  w_secret w (mkNamespacedName (sks_Name (TLSCABundleSecretKeyRef m)) (Namespace (m_meta m))) = Ok bundleSecret →
  default ∅ (sec_Data bundleSecret) !! CACertKey = Some bundle → ParseCertificates bundle = Ok caCerts →
  has_serial (crt_SerialNumber caLeaf) caCerts = false →
  wpA (in_world w) (reconcileTLS CLUSTER_NAME) m (λ t m' r,
    m' = m ∧ Forall only_looks t ∧ r = Ok (requeue_after (10 * Second))).
Proof.
  intros o Htls Hready Hca Hcl Hcv Hcd Hs Hv Hd Hb Hbd Hp Hh.
  assert (caSecretKey o = TLSServerCASecretKey m ∧ certSecretKey o = TLSServerCertSecretKey m ∧
    certIssuerRef o = None ∧ shouldIssueCA o = true ∧ shouldIssueCert o = true ∧ caSecretType o = SecretTypeCA ∧
    caBundleSecretKey o = Some (TLSCABundleSecretKeyRef m) ∧
    caBundleNamespace o = Some (Namespace (m_meta m))) as (H1 & H2 & H3 & H4 & H5 & H6 & H7 & H8).
  { unfold o, serverCertOpts, tlsServerCertOpts. rewrite Htls. by destruct (IsGaleraEnabled m). }
  unfold reconcileTLS. do 2 wa_step. unfold IsTLSEnabled. rewrite Htls.
  lazymatch goal with |- wpA _ (if ?b then _ else _) _ _ => change b with false end. cbv iota.
  wa_step. unfold reconcileTLSCerts, wrapW. do 2 wa_step. do 3 wa_step. unfold Reconcile.
  change (apply_opts (serverCertOpts CLUSTER_NAME m)) with o. rewrite H3, H4, H5. cbn [orb].
  do 2 wa_step. eapply wpA_mono.
  2: { apply (reconcileCA_world w o ca); [done|by rewrite H6, H1|done|done]. }
  intros t1 m1 r1 (-> & Ht1 & ->). cbn [wrap_err]. do 2 wa_step. eapply wpA_mono.
  2: { eapply (reconcileCert_world w o m ca kp caLeaf bundleSecret bundle caCerts); try done. by rewrite H2. }
  intros t2 m2 r2 (-> & Ht2 & ->). cbn [wrap_err]. wa_step. wa_step. cbn [rr_Result fst].
  change (negb (Result_IsZero (requeue_after (10 * Second)))) with true. cbv iota. wa_step.
  change (negb (Result_IsZero (requeue_after (10 * Second)))) with true. cbv iota. wa_step.
  split; [done|]. split; [|done]. rewrite !app_nil_r. by apply Forall_app_2.
Qed.
End mariadb.

(** ** A world in which the renewal waits *)
Definition Day : Z := 24 * Hour.
Definition mdb_tls : MariaDB :=
  { MariaDB_zero meta_ex with
    m_Spec -> sp_Replicas := 1;
    m_Spec -> sp_TLS := Some { TLS_zero with tls_Enabled := true };
    m_Status -> st_Conditions := [mkCondition ConditionTypeReady ConditionTrue "" ""] }.
(** The CA with serial number 2 has replaced the one with serial number 1. *)
Definition ca_2 : KeyPair := ex_pair "ca" 2 0 (1000 * Day) 2.
Definition leaf_by_1 : KeyPair := ex_pair "server" 10 0 (90 * Day) 1.
Definition bundle_of_1 : string := ex_pem "ca" 1 0 (1000 * Day) 1.
Definition secret_ex (data : gmap string string) : Secret := mkSecret (mkNamespacedName "" "") ∅ "" (Some data).
Definition waiting_world : world := {|
  w_secret key :=
    if bool_decide (nn_Name key = nn_Name (TLSServerCASecretKey mdb_tls)) then
      Ok (UpdateCASecret ca_2 (secret_ex ∅))
    else if bool_decide (nn_Name key = nn_Name (TLSServerCertSecretKey mdb_tls)) then
      Ok (UpdateTLSSecret leaf_by_1 (secret_ex ∅))
    else if bool_decide (nn_Name key = sks_Name (TLSCABundleSecretKeyRef mdb_tls)) then
      Ok (secret_ex {[ CACertKey := bundle_of_1 ]})
    else Err (ErrApi NotFound);
  w_now := 80 * Day
|}.

Lemma missing_ca_is_never_bundled_witness :
  wpA (in_world waiting_world) (reconcileTLS "") mdb_tls (λ t m' r,
    m' = mdb_tls ∧ Forall only_looks t ∧ r = Ok (requeue_after (10 * Second))).
Proof.
  assert (∃ caLeaf, LeafCertificate ca_2 = Ok caLeaf ∧ crt_SerialNumber caLeaf = Some 2) as (caLeaf & Hl & Hn)
    by (eexists; split; vm_compute; reflexivity).
  assert (∃ caCerts, ParseCertificates bundle_of_1 = Ok caCerts ∧ has_serial (Some 2) caCerts = false ∧
    ValidateCert caCerts leaf_by_1 (certCommonName (apply_opts (serverCertOpts "" mdb_tls))) (80 * Day) = Ok tt)
    as (caCerts & Hp & Hh & Hv) by (eexists; split_and!; (vm_compute; reflexivity)).
  eapply (missing_ca_is_never_bundled "" waiting_world mdb_tls ca_2 caLeaf leaf_by_1
    (secret_ex {[ CACertKey := bundle_of_1 ]}) bundle_of_1 caCerts).
  - reflexivity.
  - vm_compute. reflexivity.
  - eexists. split_and!; [reflexivity|done|vm_compute; reflexivity].
  - exact Hl.
  - vm_compute. reflexivity.
  - eexists _, _. split; [vm_compute; reflexivity|]. split; [vm_compute; reflexivity|]. vm_compute. reflexivity.
  - eexists. split_and!; [reflexivity|done|vm_compute; reflexivity].
  - exact Hv.
  - eexists _, _. split; [vm_compute; reflexivity|]. split; [vm_compute; reflexivity|]. vm_compute. reflexivity.
  - reflexivity.
  - reflexivity.
  - exact Hp.
  - rewrite Hn. exact Hh.
Defined.
