(* ===== verification/Version.v ===== *)
(** * pkg/docker and pkg/version: the MariaDB version of an image

    Parsing an image reference (github.com/distribution/reference) and semantic
    versions (github.com/hashicorp/go-version) are third-party code, gathered in
    the class [VersionLib]. *)

From S2P Require Import Prelude GoStrings.

Local Open Scope Z_scope.

Class VersionLib := {
  (** [reference.Parse], with the tag when the reference is a [NamedTagged] *)
  reference_Parse : string → result (option string);
  Semver : Type;
  NewSemver : string → result Semver;
  semver_Compare : Semver → Semver → Z;
  semver_Segments : Semver → list Z
}.

Section version.
Context `{VersionLib}.

Definition GetTag (image : string) : result string :=
  match reference_Parse image with
  | Err e => Err (ErrWrap "error parsing reference" e)
  | Ok (Some tag) => Ok tag
  | Ok None => Err (ErrNew "image does not have a tag")
  end.

Definition GetMinorVersion (v : Semver) : result string :=
  match semver_Segments v with
  | s0 :: s1 :: _ => Ok (Itoa s0 +:+ "." +:+ Itoa s1)
  | _ => Err (ErrNew "invalid version")
  end.

Definition Version_Compare (v : Semver) (other : string) : result Z :=
  otherVersion ← wrap_err "error parsing version" (NewSemver other);
  Ok (semver_Compare v otherVersion).

Definition GreaterThanOrEqual (v : Semver) (other : string) : result bool :=
  r ← wrap_err "error comparing versions" (Version_Compare v other);
  Ok (bool_decide (0 ≤ r)).

(** The loop over the candidate versions: the first one that parses. *)
Fixpoint first_semver (versions : list string) : result Semver :=
  match versions with
  | [] => Err (ErrNew "unable to parse version from image nor default image")
  | v :: versions' =>
      match NewSemver v with Ok innerVersion => Ok innerVersion | Err _ => first_semver versions' end
  end.

(** [defaultVersion] is empty when the option is not given. *)
Definition NewVersion (image defaultVersion : string) : result Semver :=
  first_semver
    (match GetTag image with Ok tag => [tag] | Err _ => [] end ++
     (if bool_decide (defaultVersion = "") then [] else [defaultVersion])).

(** A version comes from the tag of the image if that is one, and from the
    default otherwise. *)
Lemma NewVersion_spec image defaultVersion v :
  NewVersion image defaultVersion = Ok v ↔
  (∃ tag, GetTag image = Ok tag ∧ NewSemver tag = Ok v) ∨
  ((∀ tag w, GetTag image = Ok tag → NewSemver tag ≠ Ok w) ∧
   defaultVersion ≠ "" ∧ NewSemver defaultVersion = Ok v).
Proof.
  assert (first_semver (if bool_decide (defaultVersion = "") then [] else [defaultVersion]) = Ok v ↔
    defaultVersion ≠ "" ∧ NewSemver defaultVersion = Ok v) as Hdef.
  { case_bool_decide; cbn; [by split; [|intros []]|].
    destruct (NewSemver defaultVersion); split; try done; by intros []. }
  unfold NewVersion. destruct (GetTag image) as [tag|].
  - cbn [app first_semver]. destruct (NewSemver tag) as [w|e] eqn:Ht.
    + split; [intros [= <-]; left; by exists tag|].
      intros [(tag' & [= <-] & Hv)|[Hn _]]; [congruence|by destruct (Hn tag w)].
    + rewrite Hdef. split; [intros Hd; right; split; [|done]; intros tag' w [= <-]; congruence|].
      intros [(tag' & [= <-] & Hv)|[_ Hd]]; [congruence|done].
  - cbn [app]. rewrite Hdef. split; [intros Hd; right; by split|].
    intros [(tag' & [=] & _)|[_ Hd]]. done.
Qed.
End version.

(** One implementation, for dotted decimal versions and [image:tag] references. *)
Fixpoint compare_segments (a b : list Z) : Z :=
  match a, b with
  | x :: a', y :: b' =>
      if bool_decide (x = y) then compare_segments a' b' else if bool_decide (x < y) then -1 else 1
  | [], [] => 0
  | [], _ => -1
  | _, [] => 1
  end.
Fixpoint parse_segments (l : list string) : result (list Z) :=
  match l with
  | [] => Ok []
  | x :: l' => n ← Atoi x; ns ← parse_segments l'; Ok (n :: ns)
  end.
#[export] Instance dotted_versions : VersionLib := {|
  reference_Parse image :=
    match Split image ":" with
    | [_] => Ok None
    | [_; tag] => Ok (Some tag)
    | _ => Err (ErrNew "invalid reference format")
    end;
  Semver := list Z;
  NewSemver v := parse_segments (Split v ".");
  semver_Compare := compare_segments;
  semver_Segments := id
|}.
