(* ===== verification/Replication.v ===== *)
(** * pkg/controller/replication: configuring replication and switching primary

    [ConfigurePrimary] and [ConfigureReplica] of config.go, the client set of
    clientset.go and pkg/sqlset, and the switchover of switchover.go with its six
    phases.  The state of a reconciliation is the MariaDB object in memory and
    the set of open SQL clients.  The reconciler talks to several replicas at
    once, see Concurrency.v. *)

From S2P Require Import Prelude GoStrings StatefulSet Datastructures Conditions MariaDBTypes.
From S2P Require Import Kube Sql Health ConditionSetters Concurrency Version.

Local Open Scope Z_scope.
Local Open Scope go_scope.

(** ** config.go *)
Definition replUser : string := "repl".
Definition replUserHost : string := "%".

Definition serverId (index : Z) : string := Itoa (10 + index).
Definition formatAccountName (username host : string) : string :=
  "'" +:+ username +:+ "'@'" +:+ host +:+ "'".

Definition newReplPasswordRef (mariadb : MariaDB) : GeneratedSecretKeyRef :=
  match rep_Enabled (replication mariadb), rr_ReplPasswordSecretKeyRef (replica mariadb) with
  | true, Some ref => ref
  | _, _ =>
      mkGeneratedSecretKeyRef
        (mkSecretKeySelector ("repl-password-" +:+ Name (m_meta mariadb)) "password") true
  end.

Record userSqlOpts := mkUserSqlOpts {
  uo_username : string;
  uo_host : string;
  uo_privileges : list string
}.

Section config.
Context `{MapRange} `{VersionLib} (CLUSTER_NAME defaultVersion : string) {S : Type}.

Definition configurePrimaryVars (mariadb : MariaDB) (client : Z) (primaryPodIndex : Z) : M S op unit :=
  let kv : gmap string string :=
    list_to_map
      [("sync_binlog", Itoa (default 1 (rep_SyncBinlog (replication mariadb))));
       ("rpl_semi_sync_master_enabled", "ON");
       ("rpl_semi_sync_master_timeout",
        Itoa (Z.quot (default 0 (rr_ConnectionTimeout (replica mariadb))) Millisecond));
       ("rpl_semi_sync_slave_enabled", "OFF");
       ("server_id", serverId primaryPodIndex)] in
  kv <- match rr_WaitPoint (replica mariadb) with
        | Some w =>
            waitPoint <- wrap "error getting wait point" (lift (WaitPoint_MariaDBFormat w)) ;;
            ret (<["rpl_semi_sync_master_wait_point" := waitPoint]> kv)
        | None => ret kv
        end ;;
  wrap "error setting replication vars" (SetSystemVariables client kv).

Definition configureReplicaVars (mariadb : MariaDB) (client : Z) (ordinal : Z) : M S op unit :=
  let kv : gmap string string :=
    list_to_map
      [("sync_binlog", Itoa (default 1 (rep_SyncBinlog (replication mariadb))));
       ("rpl_semi_sync_master_enabled", "OFF");
       ("rpl_semi_sync_slave_enabled", "ON");
       ("server_id", serverId ordinal)] in
  wrap "error setting replication vars" (SetSystemVariables client kv).

Definition getChangeMasterHost (mariadb : MariaDB) (primaryPodIndex : Z) : result ChangeMasterOpt :=
  v ← wrap_err "error creating version" (NewVersion (sp_Image (m_Spec mariadb)) defaultVersion);
  isCompatibleVersion ← wrap_err "error comparing version" (GreaterThanOrEqual v "10.6");
  Ok (WithChangeMasterHost
        (if (isCompatibleVersion : bool)
         then PodFQDNWithService CLUSTER_NAME (m_meta mariadb) primaryPodIndex
                (nn_Name (InternalServiceKey mariadb))
         else PodShortFQDNWithService (m_meta mariadb) primaryPodIndex
                (nn_Name (InternalServiceKey mariadb)))).

Definition changeMaster (mariadb : MariaDB) (client : Z) (primaryPodIndex : Z) : M S op unit :=
  let replPasswordRef := newReplPasswordRef mariadb in
  password <- wrap "error getting replication password"
    (call (KSecretKey (gsk_selector replPasswordRef) (Namespace (m_meta mariadb)))) ;;
  let gtid := default GtidCurrentPos (rr_Gtid (replica mariadb)) in
  gtidString <- wrap "error getting GTID" (lift (Gtid_MariaDBFormat gtid)) ;;
  changeMasterHostOpt <- wrap "error getting host option"
    (lift (getChangeMasterHost mariadb primaryPodIndex)) ;;
  let changeMasterOpts :=
    [changeMasterHostOpt;
     WithChangeMasterPort (sp_Port (m_Spec mariadb));
     WithChangeMasterCredentials replUser password;
     WithChangeMasterGtid gtidString;
     WithChangeMasterRetries (default 0 (rr_ConnectionRetries (replica mariadb)))] ++
    (if IsTLSEnabled mariadb
     then [WithChangeMasterSSL "/etc/pki/client.crt" "/etc/pki/client.key" "/etc/pki/ca.crt"]
     else []) in
  wrap "error changing master" (ChangeMaster client changeMasterOpts).

Definition reconcileUserSql (mariadb : MariaDB) (client : Z) (opts : userSqlOpts) : M S op unit :=
  replPassword <- wrap "error reconciling replication password"
    (call (KReconcilePassword (newReplPasswordRef mariadb) (Namespace (m_meta mariadb)))) ;;
  let accountName := formatAccountName (uo_username opts) (uo_host opts) in
  exists_ <- wrap "error checking if replication user exists"
    (UserExists client (uo_username opts) (uo_host opts)) ;;
  (if (exists_ : bool)
   then wrap "error altering replication user"
          (AlterUser client accountName [WithIdentifiedBy replPassword])
   else wrap "error creating replication user"
          (CreateUser client accountName [WithIdentifiedBy replPassword])) ;;;
  wrap "error creating grant" (Grant client (uo_privileges opts) "*" "*" accountName false).

Definition reconcilePrimarySql (mariadb : MariaDB) (client : Z) : M S op unit :=
  wrap "error reconciling SQL user"
    (reconcileUserSql mariadb client (mkUserSqlOpts replUser replUserHost ["REPLICATION REPLICA"])).

Definition ConfigurePrimary (mariadb : MariaDB) (client : Z) (podIndex : Z) : M S op unit :=
  wrap "error stopping slaves" (StopAllSlaves client) ;;;
  wrap "error resetting slave" (ResetAllSlaves client) ;;;
  wrap "error resetting slave position" (ResetSlavePos client) ;;;
  wrap "error disabling read_only" (DisableReadOnly client) ;;;
  wrap "error reconciling primary SQL" (reconcilePrimarySql mariadb client) ;;;
  wrap "error configuring replication variables" (configurePrimaryVars mariadb client podIndex).

Definition ConfigureReplica (mariadb : MariaDB) (client : Z) (replicaPodIndex primaryPodIndex : Z)
    (resetSlavePos : bool) : M S op unit :=
  wrap "error resetting master" (ResetMaster client) ;;;
  wrap "error stopping slaves" (StopAllSlaves client) ;;;
  (if resetSlavePos
   then wrap "error resetting slave position" (ResetSlavePos client) else ret tt) ;;;
  wrap "error enabling read_only" (EnableReadOnly client) ;;;
  wrap "error configuring replication variables"
    (configureReplicaVars mariadb client replicaPodIndex) ;;;
  wrap "error changing master" (changeMaster mariadb client primaryPodIndex) ;;;
  wrap "error starting slave" (StartSlave client).

(** ** pkg/sqlset: a client for an ordinal, [cached] if one is already open *)
Definition validateIndex (mariadb : MariaDB) (index : Z) : result unit :=
  if bool_decide (0 ≤ index) && bool_decide (index < sp_Replicas (m_Spec mariadb)) then Ok tt
  else Err (ErrNew "index out of MariaDB replicas bounds").

Definition ClientForIndex (mariadb : MariaDB) (cached : bool) (index : Z) : M S op Z :=
  wrap "invalid index" (lift (validateIndex mariadb index)) ;;;
  if cached then ret index else
  wrap "error creating replica client" (call_reply (SqlOpen index)) ;;;
  ret index.
End config.

(** ** switchover.go *)
Record repl_state := mkReplState {
  rp_mdb : MariaDB;
  rp_clients : gset Z
}.

Definition resetSlave {S} (client : Z) : M S op unit :=
  wrap "error stopping slaves" (StopAllSlaves client) ;;;
  wrap "error resetting slave position" (ResetSlavePos client) ;;;
  StartSlave client.

(** The body of a goroutine as a program of its own. *)
Definition goroutine_of (m : M unit op unit) : prog op (result unit) :=
  bind_prog (m tt) (λ '(_, r), Ret r).

(** Start one goroutine per element and wait in the [select]; the clients the
    goroutines opened are kept. *)
Definition run_goroutines (l : list Z) (f : Z → M unit op unit) : M repl_state op unit := λ s,
  bind_prog (with_ctx (par ((λ i, goroutine_of (f i)) <$> l)))
    (λ r, Ret (match r with
               | Ok _ => { s with rp_clients := rp_clients s ∪ list_to_set l }
               | Err _ => s
               end, r)).

Definition seq_replicas (mariadb : MariaDB) : list Z := seqZ 0 (sp_Replicas (m_Spec mariadb)).

Section switchover.
Context `{MapRange} `{StatusConditions} `{VersionLib} (CLUSTER_NAME defaultVersion : string).

Definition shouldReconcileSwitchover (mdb : MariaDB) : bool :=
  if IsMaxScaleEnabled mdb || IsRestoringBackup mdb || IsResizingStorage mdb then false
  else if negb (HasConfiguredReplica mdb) then false
  else match st_CurrentPrimaryPodIndex (m_Status mdb) with
       | None => false
       | Some currentPodIndex => negb (bool_decide (currentPodIndex = primary_PodIndex mdb))
       end.

Definition patchStatus (patcher : MariaDB → MariaDBStatus) : M repl_state op unit := λ s,
  let m' := { rp_mdb s with m_Status := patcher (rp_mdb s) } in
  Vis (KPatchStatus (rp_mdb s) m') (λ r, Ret ({ s with rp_mdb := m' }, r)).

(** A client from the set, opened and remembered on first use. *)
Definition clientForIndex (index : Z) : M repl_state op Z :=
  s <- get ;;
  c <- ClientForIndex (rp_mdb s) (bool_decide (index ∈ rp_clients s)) index ;;
  modify (λ s, { s with rp_clients := {[ index ]} ∪ rp_clients s }) ;;;
  ret c.

Definition currentPrimaryClient : M repl_state op Z :=
  s <- get ;;
  match st_CurrentPrimaryPodIndex (m_Status (rp_mdb s)) with
  | None => throw (ErrNew "'status.currentPrimaryPodIndex' must be set")
  | Some i => wrap "error getting current primary client" (clientForIndex i)
  end.

Definition newPrimaryClient : M repl_state op Z :=
  s <- get ;;
  wrap "error getting new primary client" (clientForIndex (primary_PodIndex (rp_mdb s))).

Definition pod_key (mariadb : MariaDB) (index : Z) : NamespacedName :=
  mkNamespacedName (PodName (m_meta mariadb) index) (Namespace (m_meta mariadb)).

Definition currentPrimaryReady : M repl_state op bool :=
  s <- get ;;
  match st_CurrentPrimaryPodIndex (m_Status (rp_mdb s)) with
  | None => throw (ErrNew "'status.currentPrimaryPodIndex' must be set")
  | Some i =>
      pod <- call (KGetPod (pod_key (rp_mdb s) i)) ;;
      ret (PodReady pod)
  end.

Definition lockPrimaryWithReadLock : M repl_state op unit :=
  ready <- wrap "error getting current primary readiness" currentPrimaryReady ;;
  if negb ready then ret tt else
  client <- wrap "error getting current primary client" currentPrimaryClient ;;
  LockTablesWithReadLock client.

Definition setPrimaryReadOnly : M repl_state op unit :=
  ready <- wrap "error getting current primary readiness" currentPrimaryReady ;;
  if negb ready then ret tt else
  client <- wrap "error getting current primary client" currentPrimaryClient ;;
  EnableReadOnly client.

(** The goroutine for replica [i]: the errors are bundled by go-multierror, which
    keeps their text. *)
Definition syncReplica (mariadb : MariaDB) (cached : bool) (primaryGtid : string) (i : Z) :
    M unit op unit :=
  replClient <- wrap "error getting replica client" (ClientForIndex mariadb cached i) ;;
  let timeout := default 0 (rr_SyncTimeout (replica mariadb)) in
  r <- try (WaitForReplicaGtid replClient primaryGtid timeout) ;;
  match r with
  | Err err =>
      if errors_Is err ErrWaitReplicaTimeout then
        _r <- try (resetSlave replClient) ;;
        throw (ErrWrap "error waiting for GTID in replica" err)
      else throw (ErrWrap "error waiting for GTID in replica" err)
  | Ok _ =>
      wrap "error resetting slave position in replica after being synced" (resetSlave replClient)
  end.

Definition waitForReplicaSync : M repl_state op unit :=
  s <- get ;;
  match st_CurrentPrimaryPodIndex (m_Status (rp_mdb s)) with
  | None => throw (ErrNew "'status.currentPrimaryPodIndex' must be set")
  | Some current =>
      ready <- wrap "error getting current primary readiness" currentPrimaryReady ;;
      if negb ready then ret tt else
      client <- wrap "error getting current primary client" currentPrimaryClient ;;
      primaryGtid <- wrap "error getting primary GTID binlog pos"
        (SystemVariable client "gtid_binlog_pos") ;;
      s <- get ;;
      run_goroutines (filter (λ i, i ≠ current) (seq_replicas (rp_mdb s)))
        (λ i, syncReplica (rp_mdb s) (bool_decide (i ∈ rp_clients s)) primaryGtid i)
  end.

Definition configureNewPrimary : M repl_state op unit :=
  client <- wrap "error getting new primary client" newPrimaryClient ;;
  s <- get ;;
  wrap "error confguring new primary vars"
    (ConfigurePrimary (rp_mdb s) client (primary_PodIndex (rp_mdb s))).

(** The goroutine connecting replica [i] to the new primary. *)
Definition connectReplica (mariadb : MariaDB) (cached : bool) (i : Z) : M unit op unit :=
  r <- try (call (KGetPod (pod_key mariadb i))) ;;
  match r with
  | Err err => if IsNotFound err then ret tt else throw err
  | Ok pod =>
      if negb (PodReady pod) then ret tt else
      replClient <- wrap "error getting replica client" (ClientForIndex mariadb cached i) ;;
      wrap "error configuring replica vars in replica"
        (ConfigureReplica CLUSTER_NAME defaultVersion mariadb replClient i (primary_PodIndex mariadb) true)
  end.

Definition connectReplicasToNewPrimary : M repl_state op unit :=
  s <- get ;;
  match st_CurrentPrimaryPodIndex (m_Status (rp_mdb s)) with
  | None => throw (ErrNew "'status.currentPrimaryPodIndex' must be set")
  | Some current =>
      run_goroutines
        (filter (λ i, i ≠ current ∧ i ≠ primary_PodIndex (rp_mdb s)) (seq_replicas (rp_mdb s)))
        (λ i, connectReplica (rp_mdb s) (bool_decide (i ∈ rp_clients s)) i)
  end.

Definition changePrimaryToReplica : M repl_state op unit :=
  s <- get ;;
  match st_CurrentPrimaryPodIndex (m_Status (rp_mdb s)) with
  | None => throw (ErrNew "'status.currentPrimaryPodIndex' must be set")
  | Some currentPrimary =>
      ready <- wrap "error getting current primary readiness" currentPrimaryReady ;;
      if negb ready then ret tt else
      client <- wrap "error getting current primary client" currentPrimaryClient ;;
      wrap "error unlocking primary" (UnlockTables client) ;;;
      ConfigureReplica CLUSTER_NAME defaultVersion (rp_mdb s) client currentPrimary
        (primary_PodIndex (rp_mdb s)) true
  end.

Definition phases : list (string * M repl_state op unit) :=
  [("Lock primary with read lock", lockPrimaryWithReadLock);
   ("Set read_only in primary", setPrimaryReadOnly);
   ("Wait for replica sync", waitForReplicaSync);
   ("Configure new primary", configureNewPrimary);
   ("Connect replicas to new primary", connectReplicasToNewPrimary);
   ("Change primary to replica", changePrimaryToReplica)].

(** The loop over the phases: a NotFound error is returned as it is, any other is
    wrapped with the name of the phase. *)
Definition run_phase (p : string * M repl_state op unit) : M repl_state op unit :=
  r <- try p.2 ;;
  match r with
  | Ok _ => ret tt
  | Err err => if IsNotFound err then throw err
               else throw (ErrWrap ("error in '" +:+ p.1 +:+ "' switchover reconcile phase") err)
  end.

Definition reconcileSwitchover : M repl_state op unit :=
  s <- get ;;
  if negb (shouldReconcileSwitchover (rp_mdb s)) then ret tt else
  let toIndex := primary_PodIndex (rp_mdb s) in
  wrap "error patching MariaDB status"
    (patchStatus (λ m, SetPrimarySwitching (m_Status m) m)) ;;;
  for_each phases run_phase ;;;
  wrap "error patching MariaDB status"
    (patchStatus (λ m, SetPrimarySwitched (UpdateCurrentPrimary (m_Status m) m toIndex))).

(** ** controller.go *)
Definition reconcileReplicationInPod (index : Z) : M repl_state op unit :=
  s <- get ;;
  match st_CurrentPrimaryPodIndex (m_Status (rp_mdb s)) with
  | None => throw (ErrNew "nil pointer dereference")
  | Some primaryPodIndex =>
      if bool_decide (primaryPodIndex = index) then
        client <- wrap "error getting current primary client" currentPrimaryClient ;;
        ConfigurePrimary (rp_mdb s) client index
      else
        client <- wrap "error getting replica client" (clientForIndex index) ;;
        ConfigureReplica CLUSTER_NAME defaultVersion (rp_mdb s) client index primaryPodIndex false
  end.

Definition reconcileReplication_pod (i : Z) : M repl_state op unit :=
  s <- get ;;
  let pod := PodName (m_meta (rp_mdb s)) i in
  (if st_ReplicationStatus (m_Status (rp_mdb s)) is None
   then wrap "error configuring replication in Pod" (reconcileReplicationInPod i)
   else ret tt) ;;;
  s <- get ;;
  match default ∅ (st_ReplicationStatus (m_Status (rp_mdb s))) !! pod with
  | Some state =>
      if bool_decide (state = ReplicationStateNotConfigured)
      then wrap "error configuring replication in Pod" (reconcileReplicationInPod i)
      else ret tt
  | None => wrap "error configuring replication in Pod" (reconcileReplicationInPod i)
  end.

Definition reconcileReplication : M repl_state op ctrl_Result :=
  s <- get ;;
  if IsSwitchingPrimary (rp_mdb s) then ret Result_zero else
  if st_CurrentPrimaryPodIndex (m_Status (rp_mdb s)) is None then ret (requeue_after Second) else
  for_each (seq_replicas (rp_mdb s)) reconcileReplication_pod ;;;
  ret Result_zero.

Definition NewReplicationClientSet (mariadb : MariaDB) : result unit :=
  if negb (rep_Enabled (replication mariadb))
  then Err (ErrNew "'mariadb.spec.replication' is required to create a replicationClientSet")
  else Ok tt.

Definition Reconcile : M repl_state op ctrl_Result :=
  s <- get ;;
  let mdb := rp_mdb s in
  if negb (rep_Enabled (replication mdb)) then ret Result_zero else
  if negb (IsMaxScaleEnabled mdb) && IsSwitchingPrimary mdb then
    wrap "error creating mariadb clientset" (lift (NewReplicationClientSet mdb)) ;;;
    reconcileSwitchover ;;;
    ret Result_zero
  else
    healthy <- wrap "error checking MariaDB health"
      (IsStatefulSetHealthy (ObjectKey mdb)
         [WithDesiredReplicas (sp_Replicas (m_Spec mdb)); WithPort (sp_Port (m_Spec mdb));
          WithEndpointPolicy EndpointPolicyAll]) ;;
    if negb (healthy : bool) then ret (requeue_after Second) else
    wrap "error creating mariadb clientset" (lift (NewReplicationClientSet mdb)) ;;;
    result <- reconcileReplication ;;
    if negb (Result_IsZero result) then ret result else
    reconcileSwitchover ;;;
    ret Result_zero.
End switchover.
