(* ===== verification/Switchover.v ===== *)
(** * Properties of the primary switchover

    What every run of [reconcileSwitchover] does to the databases of the cluster,
    for all answers of the API server and of the databases and all interleavings
    of the goroutines. *)

From S2P Require Import Prelude GoStrings StatefulSet Datastructures GaleraState Conditions.
From S2P Require Import MariaDBTypes Kube Sql Health ConditionSetters Concurrency Version.
From S2P Require Import Replication.

Local Open Scope Z_scope.
Local Open Scope go_scope.

(** ** What a trace shows *)
Definition lockStmt : string := "FLUSH TABLES WITH READ LOCK;".
Definition readOnlyStmt : string := "SET @@global.read_only=1;".
Definition writableStmt : string := "SET @@global.read_only=0;".
Definition startSlaveStmt : string := "START SLAVE;".

(** The statement was executed without an error in the Pod with ordinal [c]. *)
Definition executed (c : Z) (sql : string) (t : trace) : Prop := Ev (SqlExec c sql) (Reply tt) ∈ t.

(** The primary's Pod was seen not ready. *)
Definition not_ready_seen (m : MariaDB) (cur : Z) (t : trace) : Prop :=
  ∃ pod, Ev (KGetPod (pod_key m cur)) (Ok pod) ∈ t ∧ PodReady pod = false.

Definition syncTimeout (m : MariaDB) : Z := default 0 (rr_SyncTimeout (replica m)).

(** What a caller of [SystemVariable] gets. *)
Definition reply_or_empty (r : reply string) : string := match r with Reply v => v | Fail _ => "" end.

(** All replicas reached the position that was read from the primary; a position
    that could not be read counts as the empty one. *)
Definition synced (m : MariaDB) (cur : Z) (t : trace) : Prop :=
  ∃ r : reply string,
    Ev (SqlQueryRow cur "SELECT @@global.gtid_binlog_pos;" []) r ∈ t ∧
    ∀ i, 0 ≤ i < sp_Replicas (m_Spec m) → i ≠ cur →
      ∃ v, Ev (SqlQueryRow i (gtid_wait_query (reply_or_empty r) (syncTimeout m)) []) (Reply v) ∈ t ∧ Atoi v = Ok 0.

(** The old primary takes no more writes and its replicas have caught up, unless
    it was seen not ready. *)
Definition fenced (m : MariaDB) (cur : Z) (t : trace) : Prop :=
  not_ready_seen m cur t ∨
  (executed cur lockStmt t ∧ executed cur readOnlyStmt t ∧ synced m cur t).

(** An event that makes a server writable. *)
Definition promotes (e : event op) : Prop :=
  match ev_op e with SqlExec _ sql => sql = writableStmt | _ => False end.
Definition promotes_only (c : Z) (e : event op) : Prop :=
  match ev_op e with SqlExec c' sql => sql = writableStmt → c' = c | _ => True end.

(** ** Monotonicity *)
Lemma elem_app_l {A} (x : A) t t' : x ∈ t → x ∈ t ++ t'.
Proof. set_solver. Qed.
Lemma elem_app_r {A} (x : A) t t' : x ∈ t' → x ∈ t ++ t'.
Proof. set_solver. Qed.

Lemma not_ready_seen_incl m cur (t t' : trace) : t ⊆ t' → not_ready_seen m cur t → not_ready_seen m cur t'.
Proof. intros Hs (pod & ? & ?). exists pod. auto. Qed.
Lemma synced_incl m cur (t t' : trace) : t ⊆ t' → synced m cur t → synced m cur t'.
Proof.
  intros Hs (r & Hr & Hi). exists r. split; [auto|]. intros i H1 H2.
  destruct (Hi i H1 H2) as (v & ? & ?). exists v. auto.
Qed.
Lemma fenced_incl m cur (t t' : trace) : t ⊆ t' → fenced m cur t → fenced m cur t'.
Proof.
  intros Hs [?|(?&?&?)]; [left; by eapply not_ready_seen_incl|right].
  unfold executed in *. split_and!; auto. by eapply synced_incl.
Qed.

(** ** Phases keep the object and, before the promotion, promote nobody *)
Definition no_promote (e : event op) : Prop := ¬ promotes e.

Ltac silent :=
  unfold no_promote, promotes; cbn;
  first [tauto | let H := fresh in intros H; discriminate H | let H := fresh in intros H; vm_compute in H; discriminate H].

Section before_promotion.
Lemma ClientForIndex_silent {S} m cached i : alwaysM no_promote (@ClientForIndex S m cached i).
Proof. unfold ClientForIndex. always_auto. silent. Qed.

Lemma resetSlave_silent {S} c : alwaysM no_promote (@resetSlave S c).
Proof. unfold resetSlave. always_auto; silent. Qed.

Lemma goroutine_of_always P m : alwaysM P m → always P (goroutine_of m).
Proof. intros Hm. apply always_bind; [apply Hm|]. by intros []. Qed.

Lemma goroutine_of_wp m (Q : trace → result unit → Prop) :
  wpM m tt (λ t _ r, Q t r) → wp (goroutine_of m) Q.
Proof.
  intros Hm. apply wp_bind. eapply wp_mono; [|exact Hm].
  intros t [[] r]; cbn. by rewrite app_nil_r.
Qed.

Lemma wpM_run_goroutines l f s P (Q : Z → trace → Prop) :
  (∀ i, i ∈ l → alwaysM P (f i)) →
  (∀ i, i ∈ l → wpM (f i) tt (λ t _ r, ok_post (Q i) t r)) →
  wpM (run_goroutines l f) s (λ t s' r, rp_mdb s' = rp_mdb s ∧ Forall P t ∧
    (is_ok r = true → ∀ i, i ∈ l → ∃ ti, ti ⊆ t ∧ Q i ti)).
Proof.
  intros HP HQ. unfold wpM, run_goroutines. apply wp_bind.
  eapply wp_mono; [|apply wp_conj; [apply always_wp, always_with_ctx, always_par|
    apply wp_with_ctx, (wp_par_each l _ Q)]].
  - intros t r [Ht Hok]. cbn. rewrite app_nil_r. split; [by destruct r|]. split; [done|].
    intros Hr i Hi. destruct (Hok Hr i Hi) as (ti & Hs & HQi). exists ti. by split; [apply sublist_subseteq|].
  - apply Forall_fmap, Forall_forall. intros i Hi. apply goroutine_of_always. auto.
  - intros i Hi. apply goroutine_of_wp. auto.
Qed.
Lemma alwaysM_run_goroutines P l f :
  (∀ i, i ∈ l → alwaysM P (f i)) → alwaysM P (run_goroutines l f).
Proof.
  intros HP s. apply always_bind; [|done]. apply always_with_ctx, always_par.
  apply Forall_fmap, Forall_forall. intros i Hi. apply goroutine_of_always. auto.
Qed.

Lemma syncReplica_silent m cached gtid i : alwaysM no_promote (syncReplica m cached gtid i).
Proof. always_auto; silent. Qed.
Lemma lock_silent : alwaysM no_promote lockPrimaryWithReadLock.
Proof. always_auto; silent. Qed.
Lemma readOnly_silent : alwaysM no_promote setPrimaryReadOnly.
Proof. always_auto; silent. Qed.
Lemma wait_silent : alwaysM no_promote waitForReplicaSync.
Proof.
  unfold waitForReplicaSync. repeat lazymatch goal with
  | |- alwaysM _ (run_goroutines _ _) =>
      apply alwaysM_run_goroutines; intros ? ?; apply syncReplica_silent
  | |- alwaysM _ _ => always_step
  end; silent.
Qed.

(** ** The phases before the promotion *)
Lemma Exec_spec {S} c sql (s : S) :
  wpM (Exec c sql) s (λ t s' r, s' = s ∧ (r = Ok tt → executed c sql t)).
Proof.
  unfold Exec. wp_step; (split; [done|]); [|done]. intros _. destruct a. unfold executed. set_solver.
Qed.

Lemma WaitForReplicaGtid_spec {S} c gtid timeout (s : S) :
  wpM (WaitForReplicaGtid c gtid timeout) s (λ t _ r, r = Ok tt → ∃ v,
    Ev (SqlQueryRow c (gtid_wait_query gtid timeout) []) (Reply v) ∈ t ∧ Atoi v = Ok 0).
Proof.
  unfold WaitForReplicaGtid, QueryRowInt, QueryRow. wp_auto; try done. intros _.
  rewrite bool_decide_eq_true in Heqb. subst. eexists. split; [|done]. set_solver.
Qed.

(** [SystemVariable] never fails: an error of the server is an empty value. *)
Lemma SystemVariable_spec {S} c var (s : S) :
  wpM (SystemVariable c var) s (λ t s' r, s' = s ∧ ∃ rep,
    t = [Ev (SqlQueryRow c ("SELECT @@global." +:+ var +:+ ";") []) rep] ∧ r = Ok (reply_or_empty rep)).
Proof. unfold SystemVariable, QueryRow. wp_auto; eauto. Qed.

Lemma run_phase_spec p s (Q : trace → repl_state → result unit → Prop) :
  wpM p.2 s (λ t s' r, Q t s' (match r with
    | Ok _ => Ok tt
    | Err e => if IsNotFound e then Err e
               else Err (ErrWrap ("error in '" +:+ p.1 +:+ "' switchover reconcile phase") e)
    end)) → wpM (run_phase p) s Q.
Proof.
  intros Hp. unfold run_phase. wp_step. wp_step. eapply wpM_mono; [|exact Hp].
  intros t s' [[]|e] HQ; [|destruct (IsNotFound e)]; wp_step; by rewrite app_nil_r.
Qed.

Lemma clientForIndex_spec s i :
  wpM (clientForIndex i) s (λ t s' r, rp_mdb s' = rp_mdb s ∧ (∀ c, r = Ok c → c = i)).
Proof. unfold clientForIndex, ClientForIndex. wp_auto; cbn; naive_solver. Qed.

Context (m : MariaDB) (cur : Z) (Hcur : st_CurrentPrimaryPodIndex (m_Status m) = Some cur).

Lemma currentPrimaryReady_spec s : rp_mdb s = m →
  wpM currentPrimaryReady s (λ t s' r, s' = s ∧
    (r = Ok false → not_ready_seen m cur t)).
Proof.
  intros Hs. unfold currentPrimaryReady. wp_step. wp_step. rewrite Hs, Hcur.
  wp_auto; (split; [done|]); [|done]. intros [= Hr]. exists a. split; [|done]. set_solver.
Qed.

Lemma currentPrimaryClient_spec s : rp_mdb s = m →
  wpM currentPrimaryClient s (λ t s' r, rp_mdb s' = m ∧ (∀ c, r = Ok c → c = cur)).
Proof.
  intros Hs. unfold currentPrimaryClient. wp_step. wp_step. rewrite Hs, Hcur. wp_step.
  eapply wpM_mono; [|apply clientForIndex_spec]. intros t s' [c|e]; cbn; rewrite Hs; naive_solver.
Qed.

(** What the first phases do with a primary that is ready. *)
Lemma with_ready_primary s (k : Z → M repl_state op unit) (P : trace → Prop) :
  rp_mdb s = m →
  (∀ s', rp_mdb s' = m → wpM (k cur) s' (λ t s'' r, rp_mdb s'' = m ∧ (r = Ok tt → P t))) →
  (∀ t t', P t' → P (t ++ t')) →
  wpM (ready <- wrap "error getting current primary readiness" currentPrimaryReady ;;
       if negb ready then ret tt else
       client <- wrap "error getting current primary client" currentPrimaryClient ;;
       k client) s
    (λ t s' r, rp_mdb s' = m ∧ (r = Ok tt → not_ready_seen m cur t ∨ P t)).
Proof.
  intros Hs Hk HP. wp_step. wp_step.
  eapply wpM_mono; [|by apply currentPrimaryReady_spec].
  intros t1 s1 [[]|e] [-> Hr]; cbn [wrap_err negb]; [| |by split].
  - wp_step. wp_step. eapply wpM_mono; [|by apply currentPrimaryClient_spec].
    intros t2 s2 [c|e] [Hs2 Hc]; cbn [wrap_err]; [|by split].
    rewrite (Hc c eq_refl). eapply wpM_mono; [|by apply Hk].
    intros t3 s3 r [Hs3 H3]; split; [done|]. intros ->. right. apply HP, HP. by apply H3.
  - apply wpM_ret. split; [done|]. intros _. left.
    eapply not_ready_seen_incl; [|by apply Hr]. set_solver.
Qed.

Lemma lockPrimary_spec s : rp_mdb s = m →
  wpM lockPrimaryWithReadLock s (λ t s' r, rp_mdb s' = m ∧
    (r = Ok tt → not_ready_seen m cur t ∨ executed cur lockStmt t)).
Proof.
  intros Hs. apply with_ready_primary; [done| |].
  - intros s' Hs'. eapply wpM_mono; [|apply Exec_spec]. intros t s'' r [-> ?]. auto.
  - unfold executed. set_solver.
Qed.

Lemma setPrimaryReadOnly_spec s : rp_mdb s = m →
  wpM setPrimaryReadOnly s (λ t s' r, rp_mdb s' = m ∧
    (r = Ok tt → not_ready_seen m cur t ∨ executed cur readOnlyStmt t)).
Proof.
  intros Hs. apply with_ready_primary; [done| |].
  - intros s' Hs'. eapply wpM_mono; [|apply Exec_spec]. intros t s'' r [-> ?]. auto.
  - unfold executed. set_solver.
Qed.

(** A replica whose goroutine ended well has reached the position. *)
Definition replica_synced (gtid : string) (i : Z) (t : trace) : Prop :=
  ∃ v, Ev (SqlQueryRow i (gtid_wait_query gtid (syncTimeout m)) []) (Reply v) ∈ t ∧ Atoi v = Ok 0.

Lemma ClientForIndex_spec {S} cached i (s : S) :
  wpM (ClientForIndex m cached i) s (λ _ _ r, ∀ c, r = Ok c → c = i).
Proof. unfold ClientForIndex. wp_auto; naive_solver. Qed.

Lemma syncReplica_spec cached gtid i :
  wpM (syncReplica m cached gtid i) tt (λ t _ r, ok_post (replica_synced gtid i) t r).
Proof.
  unfold syncReplica. wp_step. wp_step.
  eapply wpM_mono; [|apply ClientForIndex_spec]. intros t1 s1 [c|e] Hc; cbn [wrap_err]; [|done].
  rewrite (Hc c eq_refl). wp_step. wp_step.
  eapply wpM_mono; [|apply WaitForReplicaGtid_spec]. intros t2 s2 [[]|e] H2.
  - wp_step. unfold wpM. apply wp_true. intros t3 a _. destruct (H2 eq_refl) as (v & Hv & ?).
    exists v. split; [|done]. set_solver.
  - wp_step; [|apply wpM_throw; by intros [=]]. wp_step. wp_step.
    apply wp_true. intros t3 [[] r]. apply wpM_throw. by intros [=].
Qed.

Lemma waitForReplicaSync_spec s : rp_mdb s = m →
  wpM waitForReplicaSync s (λ t s' r, rp_mdb s' = m ∧
    (r = Ok tt → not_ready_seen m cur t ∨ synced m cur t)).
Proof.
  intros Hs. unfold waitForReplicaSync. wp_step. wp_step. rewrite Hs, Hcur.
  apply with_ready_primary; [done| |].
  - intros s' Hs'. wp_step. wp_step. eapply wpM_mono; [|apply SystemVariable_spec].
    intros t1 s1 r1 (-> & rep & -> & ->). cbn [wrap_err]. wp_step. wp_step. rewrite Hs'.
    eapply wpM_mono; [|apply (wpM_run_goroutines _ _ _ no_promote (replica_synced (reply_or_empty rep)))].
    + intros t2 s2 r (Hs2 & _ & Hok). split; [by rewrite Hs2|]. intros ->. exists rep.
      split; [set_solver|]. intros i Hi Hne. destruct (Hok eq_refl i) as (ti & Hsub & v & Hv & ?).
      { apply list_elem_of_filter. split; [done|]. apply elem_of_seqZ. lia. }
      exists v. split; [|done]. set_solver.
    + intros i _. apply (syncReplica_silent m).
    + intros i _. apply syncReplica_spec.
  - intros t t' Hsy. eapply synced_incl; [|done]. set_solver.
Qed.

(** ** The first three phases together *)
(** The phases up to the synchronisation fence the old primary or fail. *)
Lemma fencing_phases s (k : M repl_state op unit) (Q : trace → repl_state → result unit → Prop) n1 n2 n3 :
  rp_mdb s = m →
  (∀ t s' e, rp_mdb s' = m → Forall no_promote t → Q t s' (Err e)) →
  (∀ t s', rp_mdb s' = m → Forall no_promote t → fenced m cur t →
     wpM k s' (λ t' s'' r, Q (t ++ t') s'' r)) →
  wpM (run_phase (n1, lockPrimaryWithReadLock) ;;; run_phase (n2, setPrimaryReadOnly) ;;;
       run_phase (n3, waitForReplicaSync) ;;; k) s Q.
Proof.
  intros Hs Herr Hk. wp_step. apply run_phase_spec.
  eapply wpM_mono; [|apply wpM_conj; [by apply lockPrimary_spec|apply alwaysM_wpM, lock_silent]].
  intros t1 s1 [[]|e] [[Hs1 H1] Hn1]; [|destruct (IsNotFound e); auto].
  wp_step. apply run_phase_spec.
  eapply wpM_mono; [|apply wpM_conj; [by apply setPrimaryReadOnly_spec|apply alwaysM_wpM, readOnly_silent]].
  intros t2 s2 [[]|e] [[Hs2 H2] Hn2]; [|destruct (IsNotFound e); auto using Forall_app_2].
  wp_step. apply run_phase_spec.
  eapply wpM_mono; [|apply wpM_conj; [by apply waitForReplicaSync_spec|apply alwaysM_wpM, wait_silent]].
  intros t3 s3 [[]|e] [[Hs3 H3] Hn3]; [|destruct (IsNotFound e); auto using Forall_app_2].
  specialize (H1 eq_refl). specialize (H2 eq_refl). specialize (H3 eq_refl).
  eapply wpM_mono; [|apply (Hk (t1 ++ t2 ++ t3))]; auto using Forall_app_2.
  - intros t s' r. by rewrite !(assoc_L (++)).
  - destruct H1 as [H1|H1]; [left; eapply not_ready_seen_incl; [|done]; set_solver|].
    destruct H2 as [H2|H2]; [left; eapply not_ready_seen_incl; [|done]; set_solver|].
    destruct H3 as [H3|H3]; [left; eapply not_ready_seen_incl; [|done]; set_solver|].
    right. unfold executed in *. split_and!; [set_solver..|].
    eapply synced_incl; [|done]. set_solver.
Qed.
End before_promotion.

Lemma clientForIndex_only c i : alwaysM (promotes_only c) (clientForIndex i).
Proof. always_auto; done. Qed.

(** ** Configuring a replica and a primary *)

(** The statements of a trace with the Pods they were sent to, in order. *)
Definition stmt_of (e : event op) : option (Z * string) :=
  match ev_op e with SqlExec c sql => Some (c, sql) | _ => None end.
Definition stmts (t : trace) : list (Z * string) := omap stmt_of t.

Definition set_stmt (k v : string) : string := "SET @@global." +:+ k +:+ "=" +:+ v +:+ ";".

Section configure.
Context `{MapRange} `{VersionLib} (CLUSTER_NAME defaultVersion : string).

Lemma stmts_app t t' : stmts (t ++ t') = stmts t ++ stmts t'.
Proof. apply omap_app. Qed.

Lemma Exec_ok {S} c sql : okM (S:=S) (Exec c sql) (λ _ t, stmts t = [(c, sql)] ∧ executed c sql t).
Proof. apply okM_call_reply. intros []. split; [done|]. unfold executed. set_solver. Qed.

Lemma SetSystemVariables_ok {S} c kv : okM (S:=S) (SetSystemVariables c kv) (λ _ t,
  stmts t = (λ k, (c, set_stmt k (default "" (kv !! k)))) <$> range_keys kv).
Proof.
  intros s. unfold SetSystemVariables. set (f := λ k, (c, set_stmt k (default "" (kv !! k)))).
  apply wpM_for_each with (I := λ l t s', f <$> range_keys kv = stmts t ++ (f <$> l)).
  - done.
  - intros k l t s' HI. eapply wpM_mono; [|apply Exec_ok].
    intros t' s'' [[]|e] Ht; [|done]. destruct (Ht tt eq_refl) as [Ht' _].
    rewrite stmts_app, Ht', <- (assoc_L (++)). exact HI.
  - intros t s' HI _ _. by rewrite app_nil_r in HI.
Qed.

(** The system variables of a replica. *)
Definition replica_vars (m : MariaDB) (ordinal : Z) : gmap string string :=
  list_to_map
    [("sync_binlog", Itoa (default 1 (rep_SyncBinlog (replication m))));
     ("rpl_semi_sync_master_enabled", "OFF");
     ("rpl_semi_sync_slave_enabled", "ON");
     ("server_id", serverId ordinal)].

Lemma buildChangeMasterQuery_ok opts q : buildChangeMasterQuery opts = Ok q →
  q = change_master_tpl (apply_opts opts
        (mkChangeMasterOpts "" 3306 "" "" "CurrentPos" 10 false "" "" "")).
Proof. unfold buildChangeMasterQuery. by repeat case_match; intros [=]. Qed.

(** The host names under which a replica may reach the primary. *)
Definition primary_host (m : MariaDB) (index : Z) (host : string) : Prop :=
  host = PodFQDNWithService CLUSTER_NAME (m_meta m) index (nn_Name (InternalServiceKey m)) ∨
  host = PodShortFQDNWithService (m_meta m) index (nn_Name (InternalServiceKey m)).

Lemma getChangeMasterHost_ok m index opt : getChangeMasterHost CLUSTER_NAME defaultVersion m index = Ok opt →
  ∃ host, opt = WithChangeMasterHost host ∧ primary_host m index host.
Proof.
  unfold getChangeMasterHost. intros (v & _ & H1)%result_bind_Ok.
  apply result_bind_Ok in H1 as (b & _ & [= <-]). eexists. split; [done|].
  destruct b; [by left|by right].
Qed.

(** The CHANGE MASTER statement sent to a replica. *)
Definition points_to (m : MariaDB) (index : Z) (sql : string) : Prop :=
  ∃ o, sql = change_master_tpl o ∧ primary_host m index (cm_Host o) ∧
    cm_Port o = sp_Port (m_Spec m) ∧ cm_User o = replUser ∧ cm_SSLEnabled o = IsTLSEnabled m ∧
    (cm_Gtid o = "current_pos" ∨ cm_Gtid o = "slave_pos").

Lemma Gtid_MariaDBFormat_ok g s : Gtid_MariaDBFormat g = Ok s → s = "current_pos" ∨ s = "slave_pos".
Proof. unfold Gtid_MariaDBFormat. repeat case_match; naive_solver. Qed.

Lemma changeMaster_ok {S} m c index : okM (S:=S) (changeMaster CLUSTER_NAME defaultVersion m c index)
  (λ _ t, ∃ sql, stmts t = [(c, sql)] ∧ executed c sql t ∧ points_to m index sql).
Proof.
  unfold changeMaster.
  apply (okM_bind _ _ (λ _ t, stmts t = [])); [by apply okM_wrap, okM_call|]. intros password t1 H1.
  apply (okM_bind _ _ (λ g t, t = [] ∧ (g = "current_pos" ∨ g = "slave_pos"))).
  { apply okM_wrap, okM_lift. intros g Hg. split; [done|]. by eapply Gtid_MariaDBFormat_ok. }
  intros gtid t2 [-> Hgtid].
  apply (okM_bind _ _ (λ o t, t = [] ∧ ∃ host, o = WithChangeMasterHost host ∧ primary_host m index host)).
  { apply okM_wrap, okM_lift. intros o Ho. split; [done|]. by eapply getChangeMasterHost_ok. }
  intros hostOpt t3 (-> & host & -> & Hhost). apply okM_wrap. unfold ChangeMaster.
  apply (okM_bind _ _ (λ q t, t = [] ∧ points_to m index q)).
  { apply okM_wrap, okM_lift. intros q ->%buildChangeMasterQuery_ok. split; [done|].
    eexists. split; [done|]. by destruct (IsTLSEnabled m). }
  intros sql t4 [-> Hsql]. eapply okM_mono; [|apply Exec_ok]. intros _ t5 [Ht5 Hex]. cbn.
  exists sql. rewrite stmts_app, H1, Ht5. unfold executed in *. split_and!; [done|set_solver|done].
Qed.

(** Chain a step that sends exactly one statement. *)
Lemma okM_exec_then {S A} ctx c sql (k : M S op A) Q :
  okM k (λ a t', ∀ t, stmts t = [(c, sql)] → executed c sql t → Q a (t ++ t')) →
  okM (wrap ctx (Exec c sql) ;;; k) Q.
Proof.
  intros Hk. eapply okM_bind; [apply okM_wrap, Exec_ok|]. intros _ t [Ht Hex].
  eapply okM_mono; [|exact Hk]. intros a t' HQ. by apply HQ.
Qed.

Definition replica_prologue (resetSlavePos : bool) : list string :=
  ["RESET MASTER;"; "STOP ALL SLAVES;"] ++
  (if resetSlavePos then ["SET @@global.gtid_slave_pos='';"] else []) ++ [readOnlyStmt].

Lemma ConfigureReplica_ok {S} m c i primaryIndex resetSlavePos :
  okM (S:=S) (ConfigureReplica CLUSTER_NAME defaultVersion m c i primaryIndex resetSlavePos) (λ _ t,
    ∃ changeMasterSql, points_to m primaryIndex changeMasterSql ∧
    stmts t = pair c <$>
      (replica_prologue resetSlavePos ++
       ((λ k, set_stmt k (default "" (replica_vars m i !! k))) <$> range_keys (replica_vars m i)) ++
       [changeMasterSql; startSlaveStmt])).
Proof.
  unfold ConfigureReplica.
  apply okM_exec_then, okM_exec_then.
  apply (okM_bind _ _ (λ _ t, stmts t =
    if resetSlavePos then [(c, "SET @@global.gtid_slave_pos='';")] else [])).
  { destruct resetSlavePos; [|by apply okM_ret]. eapply okM_mono; [|apply okM_wrap, Exec_ok].
    by intros _ t [? _]. }
  intros [] t3 H3. apply okM_exec_then.
  eapply okM_bind; [apply okM_wrap, okM_wrap, SetSystemVariables_ok|]. intros [] t5 H5.
  eapply okM_bind; [apply okM_wrap, changeMaster_ok|]. intros [] t6 (sql & H6 & _ & Hsql).
  eapply okM_mono; [|apply okM_wrap, Exec_ok]. intros _ t7 [H7 _] t4 H4 _ t2 H2 _ t1 H1 _.
  exists sql. split; [done|]. rewrite !stmts_app, H1, H2, H3, H4, H5, H6, H7.
  unfold replica_prologue. rewrite !fmap_app, <- list_fmap_compose. by destruct resetSlavePos.
Qed.

Definition primary_prologue : list string :=
  ["STOP ALL SLAVES;"; "RESET SLAVE ALL;"; "SET @@global.gtid_slave_pos='';"; writableStmt].

Definition grantSql : string :=
  "GRANT REPLICATION REPLICA ON *.* TO 'repl'@'%' ;".

(** The replication user is created or altered with the password, then granted. *)
Definition is_user_stmt (sql : string) : Prop :=
  ∃ password, alter_user_query "'repl'@'%'" (WithIdentifiedBy password CreateUserOpts_zero) = Ok sql ∨
              create_user_query "'repl'@'%'" (WithIdentifiedBy password CreateUserOpts_zero) = Ok sql.

Lemma UserExists_ok {S} c u h : okM (S:=S) (UserExists c u h) (λ _ t, stmts t = []).
Proof.
  unfold UserExists, QueryRowInt, QueryRow.
  apply (okM_bind _ _ (λ _ t, stmts t = [])); [|intros a t Ht; apply okM_ret; by rewrite app_nil_r].
  apply (okM_bind _ _ (λ _ t, stmts t = [])); [by apply okM_call_reply|].
  intros a t Ht. apply okM_lift. intros b _. by rewrite app_nil_r.
Qed.

Lemma reconcilePrimarySql_ok {S} m c : okM (S:=S) (reconcilePrimarySql m c) (λ _ t,
  ∃ userSql, is_user_stmt userSql ∧ stmts t = [(c, userSql); (c, grantSql)]).
Proof.
  apply okM_wrap. unfold reconcileUserSql.
  apply (okM_bind _ _ (λ _ t, stmts t = [])); [by apply okM_wrap, okM_call|]. intros password t1 H1.
  apply (okM_bind _ _ (λ _ t, stmts t = [])); [apply okM_wrap, UserExists_ok|]. intros b t2 H2.
  apply (okM_bind _ _ (λ _ t, ∃ userSql, is_user_stmt userSql ∧ stmts t = [(c, userSql)])).
  - destruct b; apply okM_wrap; [unfold AlterUser|unfold CreateUser];
      apply okM_bind_lift; intros q Hq; (eapply okM_mono; [|apply Exec_ok]); intros _ t' [Ht' _];
      exists q; (split; [exists password; auto|done]).
  - intros [] t3 (userSql & Hu & H3). eapply okM_mono; [|apply okM_wrap, Exec_ok].
    intros _ t4 [H4 _]. exists userSql. split; [done|]. by rewrite !stmts_app, H1, H2, H3, H4.
Qed.

(** The system variables of a primary. *)
Definition primary_vars (m : MariaDB) (index : Z) (waitPoint : string) : gmap string string :=
  <["rpl_semi_sync_master_wait_point" := waitPoint]>
  (list_to_map
    [("sync_binlog", Itoa (default 1 (rep_SyncBinlog (replication m))));
     ("rpl_semi_sync_master_enabled", "ON");
     ("rpl_semi_sync_master_timeout",
      Itoa (Z.quot (default 0 (rr_ConnectionTimeout (replica m))) Millisecond));
     ("rpl_semi_sync_slave_enabled", "OFF");
     ("server_id", serverId index)]).

Lemma configurePrimaryVars_ok {S} m c i : okM (S:=S) (configurePrimaryVars m c i) (λ _ t,
  ∃ waitPoint, (waitPoint = "AFTER_SYNC" ∨ waitPoint = "AFTER_COMMIT") ∧
    stmts t = (λ k, (c, set_stmt k (default "" (primary_vars m i waitPoint !! k))))
      <$> range_keys (primary_vars m i waitPoint)).
Proof.
  unfold configurePrimaryVars.
  destruct (replication_filled m) as (_ & _ & _ & _ & _ & [w Hw] & _). rewrite Hw.
  apply (okM_bind _ _ (λ kv t, t = [] ∧ ∃ waitPoint,
    (waitPoint = "AFTER_SYNC" ∨ waitPoint = "AFTER_COMMIT") ∧ kv = primary_vars m i waitPoint)).
  - apply (okM_bind _ _ (λ wp t, t = [] ∧ (wp = "AFTER_SYNC" ∨ wp = "AFTER_COMMIT"))).
    + apply okM_wrap, okM_lift. unfold WaitPoint_MariaDBFormat.
      intros wp. repeat case_bool_decide; intros [= <-]; auto.
    + intros wp t [-> Hwp]. apply okM_ret. split; [done|]. exists wp. by split.
  - intros kv t (-> & wp & Hwp & ->). eapply okM_mono; [|apply okM_wrap, SetSystemVariables_ok].
    intros [] t' Ht'. by exists wp.
Qed.

Lemma ConfigurePrimary_ok {S} m c i : okM (S:=S) (ConfigurePrimary m c i) (λ _ t,
  executed c writableStmt t ∧ ∃ userSql waitPoint, is_user_stmt userSql ∧
  (waitPoint = "AFTER_SYNC" ∨ waitPoint = "AFTER_COMMIT") ∧
  stmts t = pair c <$>
    (primary_prologue ++ [userSql; grantSql] ++
     ((λ k, set_stmt k (default "" (primary_vars m i waitPoint !! k)))
        <$> range_keys (primary_vars m i waitPoint)))).
Proof.
  unfold ConfigurePrimary. do 4 apply okM_exec_then.
  eapply okM_bind; [apply okM_wrap, reconcilePrimarySql_ok|]. intros [] t5 (userSql & Hu & H5).
  eapply okM_mono; [|apply okM_wrap, configurePrimaryVars_ok]. intros _ t6 (wp & Hwp & H6).
  intros t4 H4 Hex t3 H3 _ t2 H2 _ t1 H1 _. split; [unfold executed in *; set_solver|].
  exists userSql, wp. split_and!; [done..|]. rewrite !stmts_app, H1, H2, H3, H4, H5, H6.
  cbn -[primary_vars]. by rewrite <- list_fmap_compose.
Qed.

(** ** Who is made writable *)
Lemma ConfigurePrimary_promotes {S} m c i : alwaysM (promotes_only c) (@ConfigurePrimary _ S m c i).
Proof. always_auto; cbn; done. Qed.

Lemma replica_vars_key m i k : k ∈ range_keys (replica_vars m i) →
  k ∈ ["sync_binlog"; "rpl_semi_sync_master_enabled"; "rpl_semi_sync_slave_enabled"; "server_id"].
Proof.
  intros [v Hv]%range_keys_elem. apply elem_of_list_to_map_2 in Hv. set_unfold.
  destruct_or! Hv; simplify_eq; auto.
Qed.

Lemma set_replica_var_silent c k v x :
  k ∈ ["sync_binlog"; "rpl_semi_sync_master_enabled"; "rpl_semi_sync_slave_enabled"; "server_id"] →
  no_promote (Ev (SqlExec c (set_stmt k v)) x).
Proof. intros Hk Heq. cbn in Heq. set_unfold. destruct_or! Hk; subst k; done. Qed.

Lemma change_master_silent c opts q x :
  buildChangeMasterQuery opts = Ok q → no_promote (Ev (SqlExec c q) x).
Proof. intros ->%buildChangeMasterQuery_ok Heq. discriminate Heq. Qed.

Lemma ConfigureReplica_silent {S} m c i p b :
  alwaysM no_promote (@ConfigureReplica _ _ CLUSTER_NAME defaultVersion S m c i p b).
Proof.
  always_auto; try silent; try (by eapply change_master_silent).
  all: eapply set_replica_var_silent, (replica_vars_key m i); eassumption.
Qed.

Lemma connectReplica_silent m cached i :
  alwaysM no_promote (connectReplica CLUSTER_NAME defaultVersion m cached i).
Proof.
  unfold connectReplica. repeat lazymatch goal with
  | |- alwaysM _ (ConfigureReplica _ _ _ _ _ _ _) => apply ConfigureReplica_silent
  | |- alwaysM _ _ => always_step
  end; silent.
Qed.

Lemma changePrimary_silent : alwaysM no_promote (changePrimaryToReplica CLUSTER_NAME defaultVersion).
Proof.
  unfold changePrimaryToReplica. repeat lazymatch goal with
  | |- alwaysM _ (ConfigureReplica _ _ _ _ _ _ _) => apply ConfigureReplica_silent
  | |- alwaysM _ _ => always_step
  end; silent.
Qed.

(** A replica that follows the server with ordinal [new]: it is read-only, was
    pointed at that server and its replication was started. *)
Definition follows (m : MariaDB) (c new : Z) (t : trace) : Prop :=
  ∃ sql, points_to m new sql ∧ (c, readOnlyStmt) ∈ stmts t ∧ (c, sql) ∈ stmts t ∧
    (c, startSlaveStmt) ∈ stmts t.

(** The Pod with ordinal [i] was missing or not ready. *)
Definition unavailable (m : MariaDB) (i : Z) (t : trace) : Prop :=
  (∃ e, IsNotFound e = true ∧ Ev (KGetPod (pod_key m i)) (Err e) ∈ t) ∨ not_ready_seen m i t.

Lemma stmts_incl (t t' : trace) : t ⊆ t' → stmts t ⊆ stmts t'.
Proof.
  intros Hs x Hx. unfold stmts in *. rewrite list_elem_of_omap in *.
  destruct Hx as (e & He & Hx). exists e. auto.
Qed.

Lemma follows_incl m c new (t t' : trace) : t ⊆ t' → follows m c new t → follows m c new t'.
Proof.
  intros Hs%stmts_incl (sql & ? & ? & ? & ?). exists sql. auto.
Qed.
Lemma unavailable_incl m i (t t' : trace) : t ⊆ t' → unavailable m i t → unavailable m i t'.
Proof. intros Hs [(e & He & ?)|?]; [left; exists e; auto|right; by eapply not_ready_seen_incl]. Qed.

Lemma ConfigureReplica_follows {S} m c i new :
  okM (S:=S) (ConfigureReplica CLUSTER_NAME defaultVersion m c i new true) (λ _ t, follows m c new t).
Proof.
  eapply okM_mono; [|apply ConfigureReplica_ok]. intros _ t (sql & Hsql & Ht).
  exists sql. rewrite Ht. set_solver.
Qed.

Lemma connectReplica_spec m cached i :
  wpM (connectReplica CLUSTER_NAME defaultVersion m cached i) tt (λ t _ r,
    ok_post (λ t, unavailable m i t ∨ follows m i (primary_PodIndex m) t) t r).
Proof.
  unfold connectReplica. wp_step. wp_step. wp_step; wp_step.
  - apply wpM_ret. intros _. left. right. exists a. split; [set_solver|].
    by apply negb_true_iff.
  - wp_step. wp_step. eapply wpM_mono; [|apply ClientForIndex_spec].
    intros t1 s1 [c|e] Hc; cbn [wrap_err]; [|done]. rewrite (Hc c eq_refl).
    wp_step. eapply wpM_mono; [|apply ConfigureReplica_follows].
    intros t2 s2 [[]|e] H2; [|done]. intros _. right.
    eapply follows_incl; [|by apply (H2 tt)]. set_solver.
  - apply wpM_ret. intros _. left. left. exists e. set_solver.
  - by apply wpM_throw.
Qed.
End configure.

(** ** The whole switchover *)
Section switchover.
Context `{RANGE : MapRange} `{COND : StatusConditions} `{VER : VersionLib} (CLUSTER_NAME defaultVersion : string).

(** A status patch that names another primary than [cur]. *)
Definition announces (cur : Z) (e : event op) : Prop :=
  match ev_op e with
  | KPatchStatus _ m' => st_CurrentPrimaryPodIndex (m_Status m') ≠ Some cur
  | _ => False
  end.
Definition no_patch (e : event op) : Prop :=
  match ev_op e with KPatchStatus _ _ => False | _ => True end.

(** Everything a switchover from [cur] does before it is announced. *)
Definition completed (m : MariaDB) (cur : Z) (t : trace) : Prop :=
  let new := primary_PodIndex m in
  fenced m cur t ∧ executed new writableStmt t ∧
  (∀ i, 0 ≤ i < sp_Replicas (m_Spec m) → i ≠ cur → i ≠ new →
     unavailable m i t ∨ follows CLUSTER_NAME m i new t) ∧
  (not_ready_seen m cur t ∨ follows CLUSTER_NAME m cur new t).

Lemma completed_incl m cur (t t' : trace) : t ⊆ t' → completed m cur t → completed m cur t'.
Proof.
  intros Hs (H1 & H2 & H3 & H4). unfold executed in *. split_and!.
  - by eapply fenced_incl.
  - by apply Hs.
  - intros i Hi Hc Hn. destruct (H3 i Hi Hc Hn); [left; by eapply unavailable_incl|right; by eapply follows_incl].
  - destruct H4; [left; by eapply not_ready_seen_incl|right; by eapply follows_incl].
Qed.

Lemma ConfigurePrimary_keeps {S} m c i : keepsM eq (@ConfigurePrimary _ S m c i).
Proof. keeps_auto. Qed.
Lemma ConfigureReplica_keeps {S} m c i p b :
  keepsM eq (@ConfigureReplica _ _ CLUSTER_NAME defaultVersion S m c i p b).
Proof. keeps_auto. Qed.

Lemma configureNewPrimary_spec m s : rp_mdb s = m →
  wpM configureNewPrimary s (λ t s' r, rp_mdb s' = m ∧ Forall (promotes_only (primary_PodIndex m)) t ∧
    (r = Ok tt → executed (primary_PodIndex m) writableStmt t)).
Proof.
  intros Hs. unfold configureNewPrimary, newPrimaryClient. do 5 wp_step. rewrite Hs.
  eapply wpM_mono; [|apply wpM_conj; [apply clientForIndex_spec|
    apply alwaysM_wpM, (clientForIndex_only (primary_PodIndex m))]].
  intros t1 s1 [c|e] [[Hs1 Hc] Hp]; cbn [wrap_err app]; [|by rewrite Hs1].
  wp_step. wp_step. wp_step. rewrite (Hc c eq_refl), Hs1, Hs.
  eapply wpM_mono; [|apply wpM_conj; [apply ConfigurePrimary_keeps|apply wpM_conj;
    [apply alwaysM_wpM, ConfigurePrimary_promotes|apply ConfigurePrimary_ok]]].
  intros t2 s2 r (<- & Hp2 & Hok). split; [by rewrite Hs1|]. cbn. split; [by apply Forall_app_2|].
  destruct r as [[]|e]; [|done]. intros _. destruct (Hok tt eq_refl) as [Hex _].
  unfold executed in *. set_solver.
Qed.

Lemma no_promote_only c (t : trace) : Forall no_promote t → Forall (promotes_only c) t.
Proof.
  intros Ht. eapply Forall_impl; [exact Ht|]. intros [X o a] Hn. unfold no_promote, promotes, promotes_only in *. cbn in *.
  by destruct o.
Qed.

Section phases.
Context (m : MariaDB) (cur : Z) (Hcur : st_CurrentPrimaryPodIndex (m_Status m) = Some cur).

Lemma connectReplicas_spec s : rp_mdb s = m →
  wpM (connectReplicasToNewPrimary CLUSTER_NAME defaultVersion) s (λ t s' r,
    rp_mdb s' = m ∧ Forall no_promote t ∧
    (r = Ok tt → ∀ i, 0 ≤ i < sp_Replicas (m_Spec m) → i ≠ cur → i ≠ primary_PodIndex m →
       unavailable m i t ∨ follows CLUSTER_NAME m i (primary_PodIndex m) t)).
Proof.
  intros Hs. unfold connectReplicasToNewPrimary. wp_step. wp_step. rewrite Hs, Hcur.
  eapply wpM_mono; [|apply (wpM_run_goroutines _ _ _ no_promote
    (λ i t, unavailable m i t ∨ follows CLUSTER_NAME m i (primary_PodIndex m) t))].
  - intros t s' r (-> & Hn & Hok). split; [done|]. split; [done|]. intros -> i Hi Hc Hn'.
    destruct (Hok eq_refl i) as (ti & Hsub & [Hu|Hf]).
    { apply list_elem_of_filter. split; [done|]. apply elem_of_seqZ. lia. }
    + left. by eapply unavailable_incl.
    + right. by eapply follows_incl.
  - intros i _. apply connectReplica_silent.
  - intros i _. apply connectReplica_spec.
Qed.

Lemma changePrimary_spec s : rp_mdb s = m →
  wpM (changePrimaryToReplica CLUSTER_NAME defaultVersion) s (λ t s' r, rp_mdb s' = m ∧
    (r = Ok tt → not_ready_seen m cur t ∨ follows CLUSTER_NAME m cur (primary_PodIndex m) t)).
Proof.
  intros Hs. unfold changePrimaryToReplica. wp_step. wp_step. rewrite Hs, Hcur.
  apply (with_ready_primary m cur Hcur); [done| |].
  - intros s' Hs'. wp_step. wp_step. eapply wpM_mono; [|apply Exec_spec].
    intros t1 s1 [[]|e] [-> _]; [|done].
    eapply wpM_mono; [|apply wpM_conj; [apply ConfigureReplica_keeps|apply ConfigureReplica_follows]].
    intros t2 s2 r [<- Hf]. split; [done|]. intros ->.
    eapply follows_incl; [|by apply (Hf tt)]. set_solver.
  - intros t t' Hf. eapply follows_incl; [|done]. set_solver.
Qed.

Lemma phases_spec s : rp_mdb s = m →
  wpM (for_each (phases CLUSTER_NAME defaultVersion) run_phase) s (λ t s' r,
    rp_mdb s' = m ∧ guarded promotes (fenced m cur) t ∧
    Forall (promotes_only (primary_PodIndex m)) t ∧ (r = Ok tt → completed m cur t)).
Proof.
  intros Hs. cbn [for_each phases]. apply (fencing_phases m cur Hcur); [done| |].
  { intros t s' e Hs' Hn. split_and!; [done|by apply guarded_none|by apply no_promote_only|done]. }
  intros t0 s0 Hs0 Hn0 Hf0.
  assert (∀ t, guarded promotes (fenced m cur) (t0 ++ t)) as Hg.
  { intros t. apply guarded_app; [|done..]. intros u u' Hu. eapply fenced_incl; [|done]. set_solver. }
  pose proof (no_promote_only (primary_PodIndex m) _ Hn0) as Ho0.
  wp_step. apply run_phase_spec. eapply wpM_mono; [|by apply configureNewPrimary_spec].
  intros t1 s1 [[]|e] (Hs1 & Ho1 & Hex); [|by destruct (IsNotFound e); split_and!; auto using Forall_app_2].
  wp_step. apply run_phase_spec. eapply wpM_mono; [|by apply connectReplicas_spec].
  intros t2 s2 [[]|e] (Hs2 & Ho2%(no_promote_only (primary_PodIndex m)) & Hrep);
    [|by destruct (IsNotFound e); split_and!; auto using Forall_app_2].
  wp_step. apply run_phase_spec. eapply wpM_mono; [|apply wpM_conj;
    [by apply changePrimary_spec|apply alwaysM_wpM, changePrimary_silent]].
  intros t3 s3 [[]|e] [[Hs3 Hold] Ho3%(no_promote_only (primary_PodIndex m))];
    [|by destruct (IsNotFound e); split_and!; auto using Forall_app_2].
  apply wpM_ret. rewrite app_nil_r. split_and!; auto using Forall_app_2. intros _.
  specialize (Hex eq_refl). specialize (Hrep eq_refl). specialize (Hold eq_refl). clear - Hf0 Hex Hrep Hold.
  split_and!.
  - eapply fenced_incl; [|done]. set_solver.
  - unfold executed in *. set_solver.
  - intros i Hi Hc Hn. destruct (Hrep i Hi Hc Hn);
      [left; eapply unavailable_incl; [|done]|right; eapply follows_incl; [|done]]; set_solver.
  - destruct Hold; [left; eapply not_ready_seen_incl; [|done]|right; eapply follows_incl; [|done]];
      set_solver.
Qed.
End phases.

(** ** The switchover as a whole *)

Definition with_status (m : MariaDB) (st : MariaDBStatus) : MariaDB := { m with m_Status := st }.

Lemma wpM_patchStatus f s (Q : trace → repl_state → result unit → Prop) :
  (∀ m' r, m' = with_status (rp_mdb s) (f (rp_mdb s)) →
     Q [Ev (KPatchStatus (rp_mdb s) m') r] { s with rp_mdb := m' } r) →
  wpM (patchStatus f) s Q.
Proof. intros HQ r. by apply HQ. Qed.

(** The status of the object plays no part in what a trace shows of it. *)
Lemma fenced_status m st cur t : fenced (with_status m st) cur t → fenced m cur t.
Proof. by destruct m. Qed.
Lemma completed_status m st cur t : completed (with_status m st) cur t → completed m cur t.
Proof. by destruct m. Qed.
Lemma primary_status m st : primary_PodIndex (with_status m st) = primary_PodIndex m.
Proof. by destruct m. Qed.

Lemma switched_done m st : IsSwitchingPrimary (with_status m (SetPrimarySwitched st)) = false.
Proof.
  change (IsStatusConditionFalse (conditions (SetPrimarySwitched st)) ConditionTypePrimarySwitched = false).
  unfold SetPrimarySwitched. by rewrite is_false_set.
Qed.

Lemma shouldReconcile_current m : shouldReconcileSwitchover m = true →
  ∃ cur, st_CurrentPrimaryPodIndex (m_Status m) = Some cur ∧ cur ≠ primary_PodIndex m.
Proof.
  unfold shouldReconcileSwitchover. repeat case_match; try done.
  intros Hne%negb_true_iff%bool_decide_eq_false. eauto.
Qed.

Lemma run_phase_no_patch p : alwaysM no_patch p.2 → alwaysM no_patch (run_phase p).
Proof.
  intros Hp. unfold run_phase. apply alwaysM_bind; [by apply alwaysM_try|].
  intros [[]|e]; [by apply alwaysM_ret|]. destruct (IsNotFound e); by apply alwaysM_throw.
Qed.

Lemma phases_no_patch : alwaysM no_patch (for_each (phases CLUSTER_NAME defaultVersion) run_phase).
Proof.
  apply alwaysM_for_each. intros p Hp. apply run_phase_no_patch.
  unfold phases in Hp. set_unfold. destruct_or! Hp; subst p; cbn [snd];
  repeat lazymatch goal with
  | |- alwaysM _ (run_goroutines _ _) => apply alwaysM_run_goroutines; intros ? ?
  | |- alwaysM _ _ => always_step
  end; done.
Qed.

Lemma announces_no_patch cur (t : trace) : Forall no_patch t → Forall (λ e, ¬ announces cur e) t.
Proof.
  intros Ht. eapply Forall_impl; [exact Ht|]. intros [X o a]. unfold no_patch, announces. cbn.
  destruct o; cbn; tauto.
Qed.

Lemma patch_silent b m x : Forall no_promote [Ev (KPatchStatus b m) x].
Proof. constructor; [by intros []|done]. Qed.

Lemma app_subseteq_r (t t' : trace) : t' ⊆ t ++ t'.
Proof. set_solver. Qed.

(** Everything one run of the switchover does, from the object [m] whose current
    primary is [cur]. *)
Definition switchover_trace (m : MariaDB) (cur : Z) (t : trace) (s' : repl_state) (r : result unit) : Prop :=
  guarded promotes (fenced m cur) t ∧ Forall (promotes_only (primary_PodIndex m)) t ∧
  guarded (announces cur) (completed m cur) t ∧
  (r = Ok tt → completed m cur t ∧
     st_CurrentPrimaryPodIndex (m_Status (rp_mdb s')) = Some (primary_PodIndex m) ∧
     IsSwitchingPrimary (rp_mdb s') = false).

Lemma reconcileSwitchover_spec s cur :
  shouldReconcileSwitchover (rp_mdb s) = true →
  st_CurrentPrimaryPodIndex (m_Status (rp_mdb s)) = Some cur →
  wpM (reconcileSwitchover CLUSTER_NAME defaultVersion) s (switchover_trace (rp_mdb s) cur).
Proof.
  intros Hsh Hcur. unfold reconcileSwitchover. wp_step. wp_step. rewrite Hsh. cbn [negb app].
  set (m := rp_mdb s) in *. wp_step. wp_step. apply wpM_patchStatus. fold m.
  intros m1 x1 Hm1.
  assert (∀ x, ¬ announces cur (Ev (KPatchStatus m m1) x)) as Hna
    by (subst m1; intros x Ha; by apply Ha).
  destruct x1 as [[]|e]; cbn [wrap_err].
  2: { split_and!; [apply guarded_none, patch_silent|by constructor|apply guarded_none; by constructor|done]. }
  wp_step. eapply wpM_mono; [|apply wpM_conj;
    [apply (phases_spec m1 cur); [by subst m1|reflexivity]|apply alwaysM_wpM, phases_no_patch]].
  intros t1 s1 r1 [(Hs1 & Hg & Ho & Hc) Hnp]. rewrite Hm1 in Hg, Ho, Hc.
  assert (guarded promotes (fenced m cur) (Ev (KPatchStatus m m1) (Ok ()) :: t1)) as Hg'.
  { apply (guarded_prepend _ _ [_]); [apply patch_silent|]. eapply guarded_mono; [|exact Hg].
    intros u Hu%fenced_status. eapply fenced_incl; [|exact Hu]. apply (app_subseteq_r [_]). }
  rewrite primary_status in Ho.
  apply (announces_no_patch cur) in Hnp.
  destruct r1 as [[]|e]; [|split_and!; [done|by constructor|apply guarded_none; by constructor|done]].
  specialize (Hc eq_refl). apply completed_status in Hc.
  assert (completed m cur (Ev (KPatchStatus m m1) (Ok ()) :: t1)) as Hc'
    by (eapply completed_incl; [|exact Hc]; apply (app_subseteq_r [_])).
  clear Hg Hc. wp_step. apply wpM_patchStatus. intros m2 x Hm2.
  assert (guarded (announces cur) (completed m cur)
    ((Ev (KPatchStatus m m1) (Ok ()) :: t1) ++ [Ev (KPatchStatus (rp_mdb s1) m2) x])) as Ha.
  { apply guarded_app; [|by constructor|done]. intros u u' Hu. eapply completed_incl; [|exact Hu].
    set_solver. }
  assert (guarded promotes (fenced m cur)
    ((Ev (KPatchStatus m m1) (Ok ()) :: t1) ++ [Ev (KPatchStatus (rp_mdb s1) m2) x])) as Hp.
  { apply guarded_append; [done|]. apply guarded_none, patch_silent. }
  split_and!; [apply Hp|constructor; [done|]; apply Forall_app_2; [done|by repeat constructor]|
    apply Ha|].
  destruct x as [[]|e]; [|done]. intros _. split_and!.
  - eapply completed_incl; [|exact Hc']. intros e. apply (elem_app_l e (_ :: t1)).
  - by subst m2.
  - subst m2. apply switched_done.
Qed.

Lemma reconcileSwitchover_idle s : shouldReconcileSwitchover (rp_mdb s) = false →
  wpM (reconcileSwitchover CLUSTER_NAME defaultVersion) s (λ t s' r, t = [] ∧ s' = s ∧ r = Ok tt).
Proof. intros Hsh. unfold reconcileSwitchover. wp_step. wp_step. rewrite Hsh. by wp_step. Qed.

Definition current_primary (m : MariaDB) (cur : Z) : Prop :=
  st_CurrentPrimaryPodIndex (m_Status m) = Some cur.

(** C1: whatever the API server, the databases and the scheduler do, a server is
    made writable during a switchover only after the old primary was either seen
    not ready or locked and read-only with every replica at its binlog position;
    and only the new primary of the spec is ever made writable. *)
Theorem switchover_fences_old_primary s :
  wpM (reconcileSwitchover CLUSTER_NAME defaultVersion) s (λ t _ _,
    guarded promotes (λ t1, ∃ cur, current_primary (rp_mdb s) cur ∧ fenced (rp_mdb s) cur t1) t ∧
    Forall (promotes_only (primary_PodIndex (rp_mdb s))) t).
Proof.
  destruct (shouldReconcileSwitchover (rp_mdb s)) eqn:Hsh.
  - destruct (shouldReconcile_current _ Hsh) as (cur & Hcur & _).
    eapply wpM_mono; [|by apply reconcileSwitchover_spec]. intros t s' r (Hg & Ho & _).
    split; [|done]. eapply guarded_mono; [|exact Hg]. intros u Hu. by exists cur.
  - eapply wpM_mono; [|by apply reconcileSwitchover_idle]. intros t s' r (-> & _).
    split; [by apply guarded_none|done].
Qed.

(** C17: a status naming another primary is written only after the switchover is
    complete: the old primary fenced, the new one writable, every other available
    replica read-only and replicating from the new primary, and the old primary,
    if it is ready, demoted to a replica of the new one. *)
Theorem switchover_announced_when_complete s :
  wpM (reconcileSwitchover CLUSTER_NAME defaultVersion) s (λ t _ _,
    guarded (λ e, ∃ cur, current_primary (rp_mdb s) cur ∧ announces cur e)
      (λ t1, ∃ cur, current_primary (rp_mdb s) cur ∧ completed (rp_mdb s) cur t1) t).
Proof.
  destruct (shouldReconcileSwitchover (rp_mdb s)) eqn:Hsh.
  - destruct (shouldReconcile_current _ Hsh) as (cur & Hcur & _).
    eapply wpM_mono; [|by apply reconcileSwitchover_spec]. intros t s' r (_ & _ & Ha & _).
    intros t1 e t2 -> (cur' & Hcur' & He). assert (cur' = cur) as -> by (unfold current_primary in *; congruence).
    exists cur. split; [done|]. by eapply Ha.
  - eapply wpM_mono; [|by apply reconcileSwitchover_idle]. intros t s' r (-> & _).
    by apply guarded_none.
Qed.

(** A switchover that returns without an error either had nothing to do, and
    then performed no operation, or was completed: the status names the primary of
    the spec and the cluster is no longer switching. *)
Theorem switchover_outcome s :
  wpM (reconcileSwitchover CLUSTER_NAME defaultVersion) s (λ t s' r, r = Ok tt →
    (shouldReconcileSwitchover (rp_mdb s) = false ∧ t = [] ∧ s' = s) ∨
    (shouldReconcileSwitchover (rp_mdb s) = true ∧
     current_primary (rp_mdb s') (primary_PodIndex (rp_mdb s)) ∧
     IsSwitchingPrimary (rp_mdb s') = false ∧
     ∃ cur, current_primary (rp_mdb s) cur ∧ completed (rp_mdb s) cur t)).
Proof.
  destruct (shouldReconcileSwitchover (rp_mdb s)) eqn:Hsh.
  - destruct (shouldReconcile_current _ Hsh) as (cur & Hcur & _).
    eapply wpM_mono; [|by apply reconcileSwitchover_spec]. intros t s' r (_ & _ & _ & Hok) Hr.
    destruct (Hok Hr) as (Hc & Hnew & Hsw). right. split_and!; [done..|]. by exists cur.
  - eapply wpM_mono; [|by apply reconcileSwitchover_idle]. intros t s' r (-> & -> & _) _. by left.
Qed.

(** Configuring a replica that succeeded sent exactly these statements to its
    server, in this order: reset, stop, (clear the GTID position,) read-only, the
    replication variables, a CHANGE MASTER naming the primary's host, port, user
    and TLS setting, and START SLAVE last. *)
Theorem configure_replica_statements {S} m c i primaryIndex resetSlavePos (s : S) :
  wpM (ConfigureReplica CLUSTER_NAME defaultVersion m c i primaryIndex resetSlavePos) s (λ t _ r,
    r = Ok tt → ∃ changeMasterSql, points_to CLUSTER_NAME m primaryIndex changeMasterSql ∧
    stmts t = pair c <$>
      (replica_prologue resetSlavePos ++
       ((λ k, set_stmt k (default "" (replica_vars m i !! k))) <$> range_keys (replica_vars m i)) ++
       [changeMasterSql; startSlaveStmt])).
Proof. eapply wpM_mono; [|apply ConfigureReplica_ok]. intros t s' r Hr Heq. by apply (Hr tt). Qed.

(** Configuring a primary that succeeded sent exactly these statements: stop and
    forget every replication connection, clear the GTID position, become writable,
    create or alter the replication user and grant it, set the variables. *)
Theorem configure_primary_statements {S} m c i (s : S) :
  wpM (ConfigurePrimary m c i) s (λ t _ r, r = Ok tt →
    ∃ userSql waitPoint, is_user_stmt userSql ∧
    (waitPoint = "AFTER_SYNC" ∨ waitPoint = "AFTER_COMMIT") ∧
    stmts t = pair c <$>
      (primary_prologue ++ [userSql; grantSql] ++
       ((λ k, set_stmt k (default "" (primary_vars m i waitPoint !! k)))
          <$> range_keys (primary_vars m i waitPoint)))).
Proof. eapply wpM_mono; [|apply ConfigurePrimary_ok]. intros t s' r Hr Heq. by apply (Hr tt). Qed.

(** The rows a trace read, with the server and the query. *)
Definition row_of (e : event op) : option (Z * string * reply string) :=
  match ev_op e in op X return X → option (Z * string * reply string) with
  | SqlQueryRow i q _ => λ r, Some (i, q, r)
  | _ => λ _, None
  end (ev_ans e).
Definition rows (t : trace) : list (Z * string * reply string) := omap row_of t.

Definition no_row (e : event op) : Prop := row_of e = None.
Lemma rows_none (t : trace) : Forall no_row t → rows t = [].
Proof. induction 1 as [|e t He _ IH]; [done|]. unfold rows in *. cbn. by rewrite He. Qed.
Lemma resetSlave_no_row {S} c : alwaysM no_row (@resetSlave S c).
Proof. always_auto; done. Qed.

(** The goroutine waiting for a replica succeeds only if the one row it read is
    the answer 0 to MASTER_GTID_WAIT for the primary's position: a timeout (-1)
    is an error and makes the whole switchover fail. *)
Theorem sync_replica_requires_gtid m cached gtid i :
  wpM (syncReplica m cached gtid i) tt (λ t _ r, r = Ok tt →
    ∃ v, rows t = [(i, gtid_wait_query gtid (syncTimeout m), Reply v)] ∧ Atoi v = Ok 0).
Proof.
  unfold syncReplica. wp_step. wp_step.
  eapply wpM_mono; [|apply wpM_conj; [apply ClientForIndex_spec|apply alwaysM_wpM with (P := no_row)]].
  2: { unfold ClientForIndex. by always_auto. }
  intros t1 s1 [c|e] [Hc H1%rows_none]; cbn [wrap_err]; [|done]. rewrite (Hc c eq_refl).
  wp_step. wp_step. unfold WaitForReplicaGtid, QueryRowInt, QueryRow. wp_step. wp_step. wp_step. wp_step.
  2: { wp_step; [done|]. by wp_step. }
  wp_step. destruct (Atoi a) as [v|e] eqn:Hv; cbn [wrap_err].
  2: { wp_step; [done|]. by wp_step. }
  destruct (bool_decide (v = 0)) eqn:Hb; [apply bool_decide_eq_true in Hb; subst v|].
  - apply wpM_ret, wpM_wrap. eapply wpM_mono; [|apply alwaysM_wpM, (resetSlave_no_row i)].
    intros t2 s2 r H2%rows_none Hr. exists a. split; [|done]. unfold rows in *.
    rewrite omap_app, H1. cbn. by rewrite H2.
  - destruct (bool_decide (v = -1)); apply wpM_throw; (wp_step; [|by wp_step]);
      wp_step; wp_step; apply wp_true; intros t2 [s2 r2]; by wp_step.
Qed.

(** ** reconcileReplication *)
Definition replica_statements (m : MariaDB) (i : Z) (changeMasterSql : string) : list string :=
  replica_prologue false ++
  ((λ k, set_stmt k (default "" (replica_vars m i !! k))) <$> range_keys (replica_vars m i)) ++
  [changeMasterSql; startSlaveStmt].

Lemma clientForIndex_no_stmts i : alwaysM (λ e, stmt_of e = None) (clientForIndex i).
Proof. by always_auto. Qed.
Lemma stmts_none (t : trace) : Forall (λ e, stmt_of e = None) t → stmts t = [].
Proof. induction 1 as [|e t He _ IH]; [done|]. unfold stmts in *. cbn. by rewrite He. Qed.

Lemma reconcileReplicationInPod_replica s i cur :
  current_primary (rp_mdb s) cur → i ≠ cur →
  wpM (reconcileReplicationInPod CLUSTER_NAME defaultVersion i) s (λ t s' r,
    rp_mdb s' = rp_mdb s ∧ (r = Ok tt → ∃ sql, points_to CLUSTER_NAME (rp_mdb s) cur sql ∧
      stmts t = pair i <$> replica_statements (rp_mdb s) i sql)).
Proof.
  intros Hcur Hi. unfold reconcileReplicationInPod. wp_step. wp_step. rewrite Hcur.
  rewrite bool_decide_false by done. wp_step. wp_step.
  eapply wpM_mono; [|apply wpM_conj; [apply clientForIndex_spec|apply alwaysM_wpM, clientForIndex_no_stmts]].
  intros t1 s1 [c|e] [[Hs1 Hc] H1%stmts_none]; cbn [wrap_err]; [|done]. rewrite (Hc c eq_refl).
  eapply wpM_mono; [|apply wpM_conj; [apply ConfigureReplica_keeps|apply ConfigureReplica_ok]].
  intros t2 s2 [[]|e] [<- H2]; (split; [done|]); [|done]. intros _.
  destruct (H2 tt eq_refl) as (sql & Hsql & Ht2). exists sql. split; [done|].
  cbn [app]. rewrite stmts_app, H1. exact Ht2.
Qed.

(** While the replication status of the cluster is not yet known (a nil map),
    one pass over a replica configures it twice: the whole sequence of statements
    is sent once for the nil map and again because the Pod has no entry in it. *)
Theorem replica_configured_twice s i cur :
  current_primary (rp_mdb s) cur → i ≠ cur → st_ReplicationStatus (m_Status (rp_mdb s)) = None →
  wpM (reconcileReplication_pod CLUSTER_NAME defaultVersion i) s (λ t _ r, r = Ok tt →
    ∃ sql1 sql2, stmts t = pair i <$>
      (replica_statements (rp_mdb s) i sql1 ++ replica_statements (rp_mdb s) i sql2)).
Proof.
  intros Hcur Hi Hst. unfold reconcileReplication_pod. wp_step. wp_step. rewrite Hst. cbn [app].
  wp_step. wp_step. eapply wpM_mono; [|by apply reconcileReplicationInPod_replica].
  intros t1 s1 [[]|e] [Hs1 H1]; cbn [wrap_err]; [|done]. destruct (H1 eq_refl) as (sql1 & _ & Ht1).
  wp_step. wp_step. rewrite Hs1, Hst.
  assert (default (∅ : ReplicationStatus) None !! PodName (m_meta (rp_mdb s)) i = None) as ->
    by apply lookup_empty. wp_step.
  eapply wpM_mono; [|apply (reconcileReplicationInPod_replica s1 i cur); [by rewrite Hs1|done]].
  rewrite Hs1. intros t2 s2 [[]|e] [Hs2 H2]; cbn [wrap_err]; [|done]. intros _.
  destruct (H2 eq_refl) as (sql2 & _ & Ht2). exists sql1, sql2.
  by rewrite fmap_app, stmts_app, Ht1, Ht2.
Qed.

(** ** Errors of the switchover *)
Definition not_NotFound (e : error) : Prop := IsNotFound e = false.

Lemma errM_run_goroutines P l f :
  P (ErrNew "context canceled") → (∀ i, i ∈ l → errM P (f i)) → errM P (run_goroutines l f).
Proof.
  intros HP Hf s. unfold wpM, run_goroutines. apply wp_bind. eapply wp_mono;
    [|apply wp_with_ctx_err; [exact HP|apply wp_par_err]].
  - intros t r Hr e He. cbn in *. by apply Hr.
  - intros i Hi. apply goroutine_of_wp. eapply wpM_mono; [|by apply Hf]. intros t [] r Hr e He. by apply Hr.
Qed.

Lemma patchStatus_wrapped f : errM not_NotFound (wrap "error patching MariaDB status" (patchStatus f)).
Proof. by err_step. Qed.

Lemma run_phase_err p : errM not_NotFound p.2 → errM not_NotFound (run_phase p).
Proof.
  intros Hp s. apply run_phase_spec. eapply wpM_mono; [|apply Hp].
  intros t s' [[]|e] He e' Heq; [done|]. specialize (He e eq_refl). unfold not_NotFound in He.
  rewrite He in Heq. by injection Heq as <-.
Qed.

Lemma phases_err : errM not_NotFound (for_each (phases CLUSTER_NAME defaultVersion) run_phase).
Proof.
  apply errM_for_each. intros p Hp. apply run_phase_err.
  unfold phases in Hp. set_unfold. destruct_or! Hp; subst p; cbn [snd];
  repeat lazymatch goal with
  | |- errM _ (run_goroutines _ _) => apply errM_run_goroutines; [done|intros ? ?]
  | |- errM _ _ => err_step
  end; try done; by match goal with f : failure |- _ => destruct f end.
Qed.

(** The switchover never returns a NotFound error, whatever the API server
    answers: every such error has been wrapped or handled on its way out, so the
    branch of the phase loop that returns it unchanged is never taken. *)
Theorem switchover_error_never_notfound s :
  wpM (reconcileSwitchover CLUSTER_NAME defaultVersion) s (λ _ _ r, ∀ e, r = Err e → not_NotFound e).
Proof.
  revert s. change (errM not_NotFound (reconcileSwitchover CLUSTER_NAME defaultVersion)).
  unfold reconcileSwitchover. err_step; [err_step|]. err_step; [err_step|].
  err_step; [apply patchStatus_wrapped|]. err_step; [apply phases_err|apply patchStatus_wrapped].
Qed.
End switchover.

(** ** A switchover from ordinal 0 to ordinal 1 *)
Definition mdb_switch : MariaDB :=
  { MariaDB_zero meta_ex with
    m_Spec -> sp_Replicas := 3; m_Spec -> sp_Port := 3306; m_Spec -> sp_Image := "mariadb:11.4.5";
    m_Spec -> sp_Replication := Some (mkReplication
      (Some { DefaultPrimary with pr_PodIndex := Some 1 }) None None None true);
    m_Status -> st_CurrentPrimaryPodIndex := Some 0;
    m_Status -> st_ReplicationStatus := Some {[ PodName meta_ex 1 := ReplicationStateSlave ]} }.

(** Every Pod is ready and every request succeeds. *)
Definition healthy_cluster : env op := {| answer X _ o := friendly mdb_switch [] 0 o; choice _ := false |}.

Definition switch_run : trace * (repl_state * result unit) :=
  run healthy_cluster (reconcileSwitchover "cluster.local" "11.8" (mkReplState mdb_switch ∅)) [].

(** The switchover of a healthy cluster succeeds and is complete. *)
Lemma switchover_outcome_witness :
  switch_run.2.2 = Ok tt ∧ current_primary (rp_mdb switch_run.2.1) 1 ∧
  (switch_run.1 = [] ∨ completed "cluster.local" mdb_switch 0 switch_run.1).
Proof.
  assert (switch_run.2.2 = Ok tt) as Hr by (vm_compute; reflexivity).
  split; [exact Hr|]. split; [vm_compute; reflexivity|].
  destruct (wpM_sound _ _ _ (switchover_outcome "cluster.local" "11.8" (mkReplState mdb_switch ∅))
    healthy_cluster [] Hr) as [(_ & Ht & _)|(_ & _ & _ & cur & Hcur & Hc)]; [by left|right].
  injection Hcur as <-. exact Hc.
Defined.

Definition mdb_unconfigured : MariaDB := { mdb_switch with m_Status -> st_ReplicationStatus := None }.
Definition twice_run : trace * (repl_state * result unit) :=
  run healthy_cluster
    (reconcileReplication_pod "cluster.local" "11.8" 2 (mkReplState mdb_unconfigured ∅)) [].

Lemma replica_configured_twice_witness :
  twice_run.2.2 = Ok tt ∧ length (stmts twice_run.1) = 18%nat ∧ ∃ sql1 sql2, stmts twice_run.1 =
    pair 2 <$> (replica_statements mdb_unconfigured 2 sql1 ++ replica_statements mdb_unconfigured 2 sql2).
Proof.
  assert (twice_run.2.2 = Ok tt) as Hr by (vm_compute; reflexivity).
  split; [exact Hr|]. split; [vm_compute; reflexivity|].
  apply (wpM_sound _ _ _ (replica_configured_twice "cluster.local" "11.8"
    (mkReplState mdb_unconfigured ∅) 2 0 eq_refl ltac:(lia) eq_refl) healthy_cluster [] Hr).
Defined.
