(* ===== verification/Failover.v ===== *)
(** * internal/controller/pod_*.go: automatic failover

    The Pod controller looks at one Pod whose readiness changed and hands it to a
    [PodReadinessController]: the one for replication promotes a configured replica
    when the primary's Pod has been failing long enough, the one for Galera moves
    the primary to a ready Pod.  Both change the spec; the switchover itself is
    done by the reconcilers of the cluster (Replication.v, GaleraRecovery.v).
    The state is the MariaDB object in memory. *)

From S2P Require Import Prelude GoStrings StatefulSet Datastructures Conditions MariaDBTypes.
From S2P Require Import Concurrency Kube Sql Health ConditionSetters Version Replication.
From S2P Require Import Switchover.

Local Open Scope Z_scope.
Local Open Scope go_scope.

(** [patch := client.MergeFrom(mariadb.DeepCopy()); patcher(mariadb); r.Patch] *)
Definition patch_m (patcher : MariaDB → MariaDB) : M MariaDB op unit := λ m,
  let m' := patcher m in
  Vis (KPatchMariaDB m m') (λ r, Ret (m', r)).

Lemma wpM_patch_m f m (Q : trace → MariaDB → result unit → Prop) :
  (∀ r, Q [Ev (KPatchMariaDB m (f m)) r] (f m) r) → wpM (patch_m f) m Q.
Proof. done. Qed.

(** [mdb.Replication().Primary.PodIndex = toIndex]: the accessor writes the defaults
    into the object and returns a struct whose [Primary] is the object's. *)
Definition set_primary_index (toIndex : Z) (m : MariaDB) : MariaDB :=
  let '(m', r) := MariaDB_Replication m in
  { m' with m_Spec -> sp_Replication :=
      Some { r with rep_Primary :=
        Some { default DefaultPrimary (rep_Primary r) with pr_PodIndex := Some toIndex } } }.

(** [mdb.Spec.Galera.Primary.PodIndex = toIndex] *)
Definition set_galera_index (toIndex : Z) (m : MariaDB) : MariaDB :=
  { m with m_Spec -> sp_Galera :=
      (λ g, { g with ga_Primary -> pg_PodIndex := Some toIndex }) <$> sp_Galera (m_Spec m) }.

(** ** pkg/refresolver *)
Definition MariadbAnnotation : string := "k8s.mariadb.com/mariadb".
Definition MariaDBFromAnnotation {S} (annotations : gmap string string) (namespace : string) :
    M S op MariaDB :=
  match annotations !! MariadbAnnotation with
  | None => throw (ErrSentinel ErrMariaDBAnnotationNotFound)
  | Some mariadbAnnotation =>
      r <- try (call (KGetMariaDB (mkNamespacedName mariadbAnnotation namespace))) ;;
      match r with
      | Ok mariadb => ret mariadb
      | Err err => if IsNotFound err then throw err
                   else throw (ErrWrap "error getting MariaDB from annotation" err)
      end
  end.

(** ** pod_controller.go *)
Record PodReadinessController := mkPodReadinessController {
  ReconcilePodReady : Pod → M MariaDB op unit;
  ReconcilePodNotReady : Pod → M MariaDB op unit
}.

(** [return ctrl.Result{}, client.IgnoreNotFound(err)] *)
Definition return_IgnoreNotFound {S} (err : error) : M S op ctrl_Result :=
  match IgnoreNotFound err with Some e => throw e | None => ret Result_zero end.

(** Run a reconciler on an object it has just read. *)
Definition on {S A} (m : MariaDB) (k : M MariaDB op A) : M S op A := λ s,
  bind_prog (k m) (λ '(_, r), Ret (s, r)).

Definition PodController_Reconcile (c : PodReadinessController) (req : NamespacedName) :
    M unit op ctrl_Result :=
  r <- try (call (KGetPod req)) ;;
  match r with
  | Err err => return_IgnoreNotFound err
  | Ok pod =>
      r <- try (MariaDBFromAnnotation (pod_Annotations pod) (pod_Namespace pod)) ;;
      match r with
      | Err err =>
          if errors_Is err ErrMariaDBAnnotationNotFound then ret Result_zero
          else return_IgnoreNotFound err
      | Ok mariadb =>
          if PodReady pod then
            r <- try (on mariadb (ReconcilePodReady c pod)) ;;
            ret (if is_ok r then Result_zero else requeue)
          else
            r <- try (on mariadb (ReconcilePodNotReady c pod)) ;;
            ret (match r with
                 | Ok _ => Result_zero
                 | Err err => if errors_Is err ErrDelayAutomaticFailover
                              then requeue_after (1 * Second) else requeue
                 end)
      end
  end.

Definition podHasChanged (oldPod newPod : Pod) : bool :=
  negb (Bool.eqb (PodReady oldPod) (PodReady newPod)).

Section failover.
Context `{MapRange} `{SliceSort} `{StatusConditions}.

(** ** pod_replication_controller.go *)
Definition shouldReconcile (mariadb : MariaDB) : bool :=
  if IsMaxScaleEnabled mariadb || IsRestoringBackup mariadb || IsSuspended mariadb then false
  else rep_Enabled (replication mariadb) && default false (pr_AutomaticFailover (primary mariadb)) &&
       HasConfiguredReplica mariadb.

Definition repl_patch (patcher : MariaDB → MariaDB) : M MariaDB op unit :=
  wrap "error patching MariaDB" (patch_m patcher).
Definition repl_patchStatus (patcher : MariaDB → MariaDBStatus) : M MariaDB op unit :=
  wrap "error patching MariaDB status" (patchStatus_m patcher).

Definition repl_ReconcilePodReady (pod : Pod) : M MariaDB op unit :=
  mariadb <- get ;;
  match st_CurrentPrimaryPodIndex (m_Status mariadb) with
  | None => ret tt
  | Some current =>
      index <- wrap "error getting Pod index" (lift (PodIndex (pod_Name pod))) ;;
      if negb (bool_decide (index = current)) then ret tt else
      if st_CurrentPrimaryFailingSince (m_Status mariadb) is Some _
      then repl_patchStatus (λ m, { m_Status m with st_CurrentPrimaryFailingSince := None })
      else ret tt
  end.

Definition repl_ReconcilePodNotReady (pod : Pod) : M MariaDB op unit :=
  mariadb <- get ;;
  if negb (shouldReconcile mariadb) then ret tt else
  match st_CurrentPrimaryPodIndex (m_Status mariadb) with
  | None => ret tt
  | Some current =>
      index <- wrap "error getting Pod index" (lift (PodIndex (pod_Name pod))) ;;
      if negb (bool_decide (index = current)) then ret tt else
      now <- ask TimeNow ;;
      (if st_CurrentPrimaryFailingSince (m_Status mariadb) is None
       then wrap "error patching MariaDB" (repl_patchStatus
              (λ m, { m_Status m with st_CurrentPrimaryFailingSince := Some now }))
       else ret tt) ;;;
      mariadb <- get ;;
      let automaticFailoverDelay := GetAutomaticFailoverDelay mariadb in
      let failoverTime :=
        default 0 (st_CurrentPrimaryFailingSince (m_Status mariadb)) + automaticFailoverDelay in
      if bool_decide (0 < automaticFailoverDelay) && bool_decide (now < failoverTime)
      then throw (ErrSentinel ErrDelayAutomaticFailover) else
      toIndex <- wrap "error getting healthy replica" (ReplicaPodHealthyIndex mariadb) ;;
      r1 <- try (repl_patch (set_primary_index toIndex)) ;;
      r2 <- try (repl_patchStatus (λ m,
              { SetPrimarySwitching (m_Status m) m with st_CurrentPrimaryFailingSince := None })) ;;
      wrap "error patching MariaDB" (lift (multierror r1 r2))
  end.

Definition PodReplicationController : PodReadinessController :=
  mkPodReadinessController repl_ReconcilePodReady repl_ReconcilePodNotReady.

(** ** pod_galera_controller.go *)
Definition galera_shouldReconcile (mariadb : MariaDB) : bool :=
  if negb (IsGaleraEnabled mariadb) || IsMaxScaleEnabled mariadb || IsRestoringBackup mariadb ||
     IsSuspended mariadb then false
  else
    let primaryGalera := ga_Primary (default Galera_zero (sp_Galera (m_Spec mariadb))) in
    default false (pg_AutomaticFailover primaryGalera) && HasGaleraConfiguredCondition mariadb &&
    HasGaleraReadyCondition mariadb.

Definition galera_patch (patcher : MariaDB → MariaDB) : M MariaDB op unit :=
  wrap "error patching MariaDB" (patch_m patcher).

Definition galera_ReconcilePodReady (pod : Pod) : M MariaDB op unit :=
  mariadb <- get ;;
  if negb (galera_shouldReconcile mariadb) then ret tt else
  match st_CurrentPrimaryPodIndex (m_Status mariadb) with
  | None => ret tt
  | Some fromIndex =>
      currentPrimaryPod <- wrap "error getting current primary Pod"
        (call (KGetPod (pod_key mariadb fromIndex))) ;;
      if PodReady currentPrimaryPod then ret tt else
      toIndex <- wrap "error getting Pod index" (lift (PodIndex (pod_Name pod))) ;;
      if bool_decide (fromIndex = toIndex) then ret tt else
      galera_patch (set_galera_index toIndex)
  end.

Definition galera_ReconcilePodNotReady (pod : Pod) : M MariaDB op unit :=
  mariadb <- get ;;
  if negb (galera_shouldReconcile mariadb) then ret tt else
  match st_CurrentPrimaryPodIndex (m_Status mariadb) with
  | None => ret tt
  | Some current =>
      index <- wrap "error getting Pod index" (lift (PodIndex (pod_Name pod))) ;;
      if negb (bool_decide (index = current)) then ret tt else
      toIndex <- wrap "error getting healthy replica" (SecondaryPodHealthyIndex mariadb) ;;
      galera_patch (set_galera_index toIndex)
  end.

Definition PodGaleraController : PodReadinessController :=
  mkPodReadinessController galera_ReconcilePodReady galera_ReconcilePodNotReady.
End failover.

(** ** Properties *)
Section properties.
Context `{RANGE : MapRange} `{SORT : SliceSort} `{COND : StatusConditions}.

(** Pod [i] was listed as a ready, configured replica. *)
Definition eligible (m : MariaDB) (i : Z) (t : trace) : Prop :=
  ∃ pods p, Ev (KListPods (WithMariaDBSelectorLabels m ∅) (Namespace (m_meta m))) (Ok pods) ∈ t ∧
    p ∈ pods ∧ PodIndex (pod_Name p) = Ok i ∧ PodReady p = true ∧
    IsConfiguredReplica m (pod_Name p) = true.

(** A patch of the spec that makes [i] the desired primary. *)
Definition moves_primary (i : Z) (e : event op) : Prop :=
  match ev_op e with KPatchMariaDB _ m' => primary_PodIndex m' = i | _ => False end.

(** What must have happened before the spec is changed to [i]. *)
Definition failover_justified (m : MariaDB) (pod : Pod) (i : Z) (t : trace) : Prop :=
  ∃ cur now, st_CurrentPrimaryPodIndex (m_Status m) = Some cur ∧ PodIndex (pod_Name pod) = Ok cur ∧
    shouldReconcile m = true ∧ Ev TimeNow now ∈ t ∧
    (GetAutomaticFailoverDelay m ≤ 0 ∨
     default now (st_CurrentPrimaryFailingSince (m_Status m)) + GetAutomaticFailoverDelay m ≤ now) ∧
    i ≠ cur ∧ eligible m i t.

Lemma primary_set_primary_index i m : primary_PodIndex (set_primary_index i m) = i.
Proof. by destruct m as [? [] ? ?]. Qed.

Lemma candidate_spec m cur s : st_CurrentPrimaryPodIndex (m_Status m) = Some cur →
  wpM (ReplicaPodHealthyIndex (S:=MariaDB) m) s (λ t s' r, s' = s ∧
    Forall (λ e, ∀ i, ¬ moves_primary i e) t ∧ (∀ i, r = Ok i → i ≠ cur ∧ eligible m i t)).
Proof.
  intros Hcur. unfold ReplicaPodHealthyIndex, secondaryPodHealthyIndex. rewrite Hcur.
  wp_auto; (split; [done|]); (split; [by constructor; [intros ? []|]|]); [|done].
  intros i (l1 & p & l2 & Hl & Hp & Hne & Hh & _)%first_healthy_Ok. cbn in *.
  apply andb_true_iff in Hh as [Hready Hconf]. split; [congruence|].
  exists a, p. split_and!; try done; [set_solver|]. apply sortPodList_elem. rewrite Hl. set_solver.
Qed.

(** The part after the failure of the primary was recorded, from the object [m1]. *)
Lemma failover_tail (now cur : Z) (m1 : MariaDB) Q :
  st_CurrentPrimaryPodIndex (m_Status m1) = Some cur →
  let delay := GetAutomaticFailoverDelay m1 in
  let since := default 0 (st_CurrentPrimaryFailingSince (m_Status m1)) in
  (∀ t r m', (∀ i, guarded (moves_primary i) (λ t1, (delay ≤ 0 ∨ since + delay ≤ now) ∧
      i ≠ cur ∧ eligible m1 i t1) t) → Q t m' r) →
  wpM (if bool_decide (0 < delay) && bool_decide (now < since + delay)
       then throw (ErrSentinel ErrDelayAutomaticFailover) else
       toIndex <- wrap "error getting healthy replica" (ReplicaPodHealthyIndex m1) ;;
       r1 <- try (repl_patch (set_primary_index toIndex)) ;;
       r2 <- try (repl_patchStatus (λ m,
               { SetPrimarySwitching (m_Status m) m with st_CurrentPrimaryFailingSince := None })) ;;
       wrap "error patching MariaDB" (lift (multierror r1 r2))) m1 Q.
Proof.
  intros Hcur delay since HQ. destruct (_ && _) eqn:Hd.
  { apply wpM_throw, HQ. intros i. by apply guarded_none. }
  assert (delay ≤ 0 ∨ since + delay ≤ now) as Hdelay.
  { apply andb_false_iff in Hd as [Hd|Hd]; apply bool_decide_eq_false in Hd; lia. }
  wp_step. wp_step. eapply wpM_mono; [|by apply (candidate_spec m1 cur)].
  intros t m2 [i|e] (-> & Hn & Hok); cbn [wrap_err].
  2: { apply HQ. intros j. apply guarded_none. eapply Forall_impl; [exact Hn|]. auto. }
  destruct (Hok i eq_refl) as [Hne Hel]. wp_step. wp_step. apply wpM_wrap. intros r1. cbn [fst snd].
  apply wpM_bind, wpM_try, wpM_wrap. intros r2. cbn [fst snd]. apply wpM_wrap, wpM_lift.
  apply HQ. intros j. apply guarded_prepend; [eapply Forall_impl; [exact Hn|]; auto|].
  apply guarded_cons; [|apply guarded_cons; [by intros []|apply guarded_nil]].
  intros He. change (primary_PodIndex (set_primary_index i m1) = j) in He.
  rewrite primary_set_primary_index in He. subst j. rewrite app_nil_r. auto.
Qed.

(** C3: the automatic failover of a replication cluster changes the primary in the spec
    only for the Pod of the current primary, only after that Pod has been failing for
    the configured delay, and only to another Pod that was listed as a ready and
    configured replica. *)
Theorem failover_is_justified m pod :
  wpM (repl_ReconcilePodNotReady pod) m (λ t _ _,
    ∀ i, guarded (moves_primary i) (failover_justified m pod i) t).
Proof.
  assert (∀ i, guarded (moves_primary i) (failover_justified m pod i) []) as Hnil.
  { intros i. apply guarded_nil. }
  unfold repl_ReconcilePodNotReady. wp_step. wp_step. wp_step; [by wp_step|].
  apply negb_false_iff in Heqb. destruct (st_CurrentPrimaryPodIndex (m_Status m)) as [cur|] eqn:Hcur; [|by wp_step].
  wp_step. wp_step. wp_step. destruct (PodIndex (pod_Name pod)) as [index|e] eqn:Hi; cbn [wrap_err]; [|done].
  case_bool_decide as Hne; cbn [negb]; [subst index|by wp_step].
  wp_step. wp_step. wp_step. cbn [app].
  destruct (st_CurrentPrimaryFailingSince (m_Status m)) as [since|] eqn:Hsince.
  - wp_step. wp_step. wp_step. apply (failover_tail x cur m); [done|].
    rewrite Hsince. intros t r m' Hg i. cbn [app]. apply guarded_cons; [by intros []|].
    eapply guarded_mono; [|apply Hg]. intros u (Hd & Hne & Hel). exists cur, x. rewrite Hsince.
    split_and!; try done; [set_solver|]. destruct Hel as (pods & p & ? & Hel). exists pods, p. set_solver.
  - unfold repl_patchStatus. wp_step. wp_step. unfold patchStatus_m. intros [[]|e]; cbn [fst snd wrap_err].
    2: { intros i. apply guarded_none. repeat (constructor; [by intros []|]). constructor. }
    set (m1 := { m with m_Status := { m_Status m with st_CurrentPrimaryFailingSince := Some x } }).
    apply wpM_bind, wpM_get. apply (failover_tail x cur m1); [done|].
    intros t r m' Hg i. cbn [app]. do 2 (apply guarded_cons; [by intros []|]).
    eapply guarded_mono; [|apply Hg]. intros u (Hd & Hne & Hel). exists cur, x. rewrite Hsince.
    split_and!; try done; [set_solver|].
    destruct Hel as (pods & p & ? & Hel). exists pods, p. split; [|done]. set_solver.
Qed.

(** A patch of the spec that makes [i] the primary of a Galera cluster. *)
Definition moves_galera_primary (i : Z) (e : event op) : Prop :=
  match ev_op e with
  | KPatchMariaDB _ m' =>
      ∃ g, sp_Galera (m_Spec m') = Some g ∧ pg_PodIndex (ga_Primary g) = Some i
  | _ => False
  end.

Lemma galera_patch_spec m i (Q : trace → MariaDB → result unit → Prop) :
  (∀ r, Q [Ev (KPatchMariaDB m (set_galera_index i m)) r] (set_galera_index i m) r) →
  (∀ e, Q [Ev (KPatchMariaDB m (set_galera_index i m)) (Err e)] (set_galera_index i m)
          (Err (ErrWrap "error patching MariaDB" e))) →
  wpM (galera_patch (set_galera_index i)) m Q.
Proof. intros H1 H2. apply wpM_wrap. intros [[]|e]; cbn; [apply H1|apply H2]. Qed.

Lemma moves_galera_index m i j x :
  moves_galera_primary j (Ev (KPatchMariaDB m (set_galera_index i m)) x) → j = i.
Proof.
  intros (g & Hg & Hj). cbn in Hg. destruct (sp_Galera (m_Spec m)); [|done].
  cbn in Hg. injection Hg as <-. cbn in Hj. unfold constant in Hj. congruence.
Qed.

(** A run that ends here has patched nothing. *)
Ltac unmoved :=
  try wp_step; intros ?; apply guarded_none; repeat (constructor; [by intros []|]); constructor.

(** The automatic failover of a Galera cluster that is configured and ready moves
    the primary, when a Pod becomes ready, only away from a current primary seen not
    ready, to that Pod; and, when the primary's Pod is not ready, only to another Pod
    that was listed ready. *)
Theorem galera_failover_is_justified m pod :
  wpM (galera_ReconcilePodReady pod) m (λ t _ _, ∀ i, guarded (moves_galera_primary i) (λ t1,
    ∃ cur, galera_shouldReconcile m = true ∧ current_primary m cur ∧
      PodIndex (pod_Name pod) = Ok i ∧ i ≠ cur ∧ not_ready_seen m cur t1) t) ∧
  wpM (galera_ReconcilePodNotReady pod) m (λ t _ _, ∀ i, guarded (moves_galera_primary i) (λ t1,
    ∃ cur pods p, galera_shouldReconcile m = true ∧ current_primary m cur ∧
      PodIndex (pod_Name pod) = Ok cur ∧ i ≠ cur ∧
      Ev (KListPods (WithMariaDBSelectorLabels m ∅) (Namespace (m_meta m))) (Ok pods) ∈ t1 ∧
      p ∈ pods ∧ PodIndex (pod_Name p) = Ok i ∧ PodReady p = true) t).
Proof.
  split.
  - unfold galera_ReconcilePodReady. wp_step. wp_step. wp_step; [unmoved|].
    apply negb_false_iff in Heqb.
    destruct (st_CurrentPrimaryPodIndex (m_Status m)) as [cur|] eqn:Hcur; [|unmoved].
    wp_step. wp_step. wp_step; cbn [wrap_err]; [|unmoved].
    wp_step; [unmoved|].
    wp_step. wp_step. wp_step. destruct (PodIndex (pod_Name pod)) as [index|e] eqn:Hi; cbn [wrap_err];
      [|unmoved].
    case_bool_decide as Hne; [unmoved|].
    apply galera_patch_spec; intros r i; (apply guarded_cons; [by intros []|]);
      (apply guarded_cons; [|apply guarded_nil]); intros ->%moves_galera_index;
      exists cur; (split_and!; [done..|]); exists a; (split; [set_solver|done]).
  - unfold galera_ReconcilePodNotReady. wp_step. wp_step. wp_step; [unmoved|].
    apply negb_false_iff in Heqb.
    destruct (st_CurrentPrimaryPodIndex (m_Status m)) as [cur|] eqn:Hcur; [|unmoved].
    wp_step. wp_step. wp_step. destruct (PodIndex (pod_Name pod)) as [index|e] eqn:Hi; cbn [wrap_err];
      [|unmoved].
    case_bool_decide as Hne; cbn [negb]; [subst index|unmoved].
    wp_step. wp_step. unfold SecondaryPodHealthyIndex, secondaryPodHealthyIndex. rewrite Hcur.
    wp_step. wp_step. wp_step; cbn [wrap_err]; [|unmoved].
    wp_step. destruct (first_healthy _ _ _) as [i0|e] eqn:Hf; cbn [wrap_err];
      [|unmoved].
    apply first_healthy_Ok in Hf as (l1 & p & l2 & Hl & Hp & Hnc & Hh & _).
    assert (p ∈ a) as Hpa by (apply sortPodList_elem; rewrite Hl; set_solver).
    apply galera_patch_spec; intros r i; (apply guarded_cons; [by intros []|]);
      (apply guarded_cons; [|apply guarded_nil]); intros ->%moves_galera_index;
      exists cur, a, p; (split_and!; [done|done|done|congruence|set_solver|done..]).
Qed.
End properties.

(** ** A failover whose patch of the spec is refused *)

(** The object the API server keeps: a patch that is accepted replaces the part it
    is for. *)
Definition persist (m : MariaDB) (e : event op) : MariaDB :=
  match ev_op e in op X return X → MariaDB with
  | KPatchMariaDB _ m' => λ r, if is_ok r then { m with m_Spec := m_Spec m' } else m
  | KPatchStatus _ m' => λ r, if is_ok r then { m with m_Status := m_Status m' } else m
  | _ => λ _, m
  end (ev_ans e).

Definition mdb_steady : MariaDB :=
  { mdb_switch with m_Spec -> sp_Replication :=
      Some (mkReplication (Some DefaultPrimary) None None None true) }.
Definition pod_of (i : Z) : Pod := ready_pod (mkNamespacedName (PodName meta_ex i) (Namespace meta_ex)).

(** A healthy cluster whose API server refuses the patch of the spec. *)
Definition spec_conflict : env op := {|
  answer X h o :=
    match o in op X return X with
    | KPatchMariaDB _ _ => Err (ErrApi Conflict)
    | KListPods _ _ => Ok (pod_of <$> [0; 1; 2])
    | o' => answer healthy_cluster h o'
    end;
  choice _ := false
|}.

(** The spec and the status are patched one after the other and the second patch is
    sent even if the first one failed.  Then the object the server keeps says that a
    switchover is going on while its spec still names the current primary, and every
    later replication reconciliation of it returns at once without any operation: the
    reconciler that should end the switchover never clears the condition. *)
Theorem failed_spec_patch_leaves_switching :
  let run1 := run spec_conflict (repl_ReconcilePodNotReady (pod_of 0) mdb_steady) [] in
  let server := foldl persist mdb_steady run1.1 in
  is_ok run1.2.2 = false ∧
  IsSwitchingPrimary mdb_steady = false ∧ IsSwitchingPrimary server = true ∧
  m_Spec server = m_Spec mdb_steady ∧
  ∀ σ h, run σ (Reconcile "cluster.local" "11.8" (mkReplState server ∅)) h =
         ([], (mkReplState server ∅, Ok Result_zero)).
Proof.
  cbn zeta. split; [vm_compute; reflexivity|]. split; [vm_compute; reflexivity|].
  split; [vm_compute; reflexivity|]. split; [vm_compute; reflexivity|].
  intros σ h. vm_compute. reflexivity.
Qed.
