(* ===== verification/Updates.v ===== *)
(** * internal/controller/mariadb_controller_update.go: rolling updates

    The update strategy [ReplicasFirstPrimaryLast]: stale Pods are deleted one per
    reconciliation, replicas first; before the primary is touched a switchover
    moves the primary role to an updated replica, if the cluster can do that. *)

From S2P Require Import Prelude GoStrings StatefulSet Datastructures Conditions MariaDBTypes MaxScaleTypes.
From S2P Require Import Concurrency Kube Wait Sql Health ConditionSetters Version Replication.
From S2P Require Import Switchover Failover.

Local Open Scope Z_scope.
Local Open Scope go_scope.

Record podRoleSet := mkPodRoleSet { replicas : list Pod; primary_pod : Pod }.

Definition getStalePodNames (p : podRoleSet) (updateRevision : string) : list string :=
  pod_Name <$> filter (λ r, PodUpdated r updateRevision = false) (replicas p ++ [primary_pod p]).

(** [r.RefResolver.MaxScale] *)
Definition refresolver_MaxScale {S} (ref : ObjectReference) (namespace : string) : M S op MaxScale :=
  call (KGetMaxScale (mkNamespacedName (or_Name ref)
    (if bool_decide (or_Namespace ref = "") then namespace else or_Namespace ref))).

Section updates.
Context `{MapRange} `{SliceSort} `{StatusConditions}.

Definition MaxScale_IsReady (mxs : MaxScale) : bool :=
  IsStatusConditionTrue (mxst_Conditions (mx_Status mxs)) ConditionTypeReady.

Definition shouldReconcileUpdates (mdb : MariaDB) : bool :=
  if IsRestoringBackup mdb || IsResizingStorage mdb || IsSwitchingPrimary mdb ||
     HasGaleraNotReadyCondition mdb then false
  else bool_decide (us_Type (sp_UpdateStrategy (m_Spec mdb)) = ReplicasFirstPrimaryLastUpdateType).

Definition getStatefulSetRevision (mdb : MariaDB) : M MariaDB op string :=
  sts <- call (KGetStatefulSet (ObjectKey mdb)) ;;
  ret (sts_UpdateRevision sts).

(** Either a result to return at once or the Pods by role. *)
Definition getPodsByRole (mdb : MariaDB) : M MariaDB op (ctrl_Result + podRoleSet) :=
  let currentPrimary := default "" (st_CurrentPrimary (m_Status mdb)) in
  if bool_decide (currentPrimary = "") then ret (inl (requeue_after (1 * Second))) else
  if bool_decide (sp_Replicas (m_Spec mdb) = 0) then ret (inl (requeue_after (5 * Second))) else
  items <- wrap "error listing Pods"
    (call (KListPods (WithMariaDBSelectorLabels mdb ∅) (Namespace (m_meta mdb)))) ;;
  if negb (bool_decide (Z.of_nat (length items) = sp_Replicas (m_Spec mdb)))
  then ret (inl (requeue_after (1 * Second))) else
  let reps := filter (λ p, pod_Name p ≠ currentPrimary) items in
  let prim := last (filter (λ p, pod_Name p = currentPrimary) items) in
  if IsHAEnabled mdb && bool_decide (length reps = 0)%nat then throw (ErrNew "no replica Pods found") else
  match prim with
  | None => throw (ErrNew "primary Pod not found")
  | Some prim =>
      ret (inr (mkPodRoleSet (sort_slice (λ p q, str_lt (pod_Name q) (pod_Name p)) reps) prim))
  end.

Definition waitForReadyStatus (mdb : MariaDB) : M MariaDB op ctrl_Result :=
  sts <- call (KGetStatefulSet (ObjectKey mdb)) ;;
  if negb (bool_decide (sts_ReadyReplicas sts = sp_Replicas (m_Spec mdb)))
  then ret (requeue_after (1 * Second)) else
  match sp_MaxScaleRef (m_Spec mdb) with
  | None => ret Result_zero
  | Some ref =>
      mxs <- refresolver_MaxScale ref (Namespace (m_meta mdb)) ;;
      if negb (MaxScale_IsReady mxs) then ret (requeue_after (1 * Second)) else ret Result_zero
  end.

Definition waitForConfiguredReplica (mdb : MariaDB) : result unit :=
  if negb (rep_Enabled (replication mdb)) then Ok tt
  else if negb (HasConfiguredReplica mdb) then Err (ErrSentinel ErrSkipReconciliationPhase)
  else Ok tt.

Definition pollUntilPodUpdated (ctx : Z) (mariadbKey podKey : NamespacedName) (updateRevision : string) :
    M MariaDB op unit :=
  PollWithMariaDB ctx mariadbKey (
    pod <- wrap "error getting Pod" (call (KGetPod podKey)) ;;
    if PodUpdated pod updateRevision then ret tt else throw (ErrNew "Pod stale")).

Definition Pod_key (pod : Pod) : NamespacedName := mkNamespacedName (pod_Name pod) (pod_Namespace pod).

Definition updatePod (mariadbKey : NamespacedName) (pod : Pod) (updateRevision : string) :
    M MariaDB op unit :=
  wrap "error deleting Pod" (call (KDeletePod (Pod_key pod))) ;;;
  wrap "error waiting for Pod to be updated"
    (pollUntilPodUpdated (1 * Minute) mariadbKey (Pod_key pod) updateRevision).

Definition shouldTriggerSwitchover (mariadb : MariaDB) : bool :=
  if IsMaxScaleEnabled mariadb || IsRestoringBackup mariadb then false
  else rep_Enabled (replication mariadb) && default false (pr_AutomaticFailover (primary mariadb)) &&
       HasConfiguredReplica mariadb.

Definition triggerSwitchover : M MariaDB op unit :=
  mariadb <- get ;;
  if negb (shouldTriggerSwitchover mariadb) then ret tt else
  match st_CurrentPrimaryPodIndex (m_Status mariadb) with
  | None => throw (ErrNew "'status.currentPrimaryPodIndex' must be set")
  | Some _ =>
      toIndex <- wrap "error getting healthy replica" (ReplicaPodHealthyIndex mariadb) ;;
      patch_m (set_primary_index toIndex) ;;;
      throw (ErrSentinel ErrSkipReconciliationPhase)
  end.

(** The loop over the replicas: the first stale one is updated. *)
Definition first_stale (pods : list Pod) (updateRevision : string) : option Pod :=
  head (filter (λ p, PodUpdated p updateRevision = false) pods).

Definition reconcileUpdates : M MariaDB op ctrl_Result :=
  mdb <- get ;;
  if negb (shouldReconcileUpdates mdb) then ret Result_zero else
  stsUpdateRevision <- getStatefulSetRevision mdb ;;
  if bool_decide (stsUpdateRevision = "") then ret (requeue_after (1 * Second)) else
  podsByRole <- getPodsByRole mdb ;;
  match podsByRole with
  | inl result => ret result
  | inr podsByRole =>
      if bool_decide (getStalePodNames podsByRole stsUpdateRevision = []) then ret Result_zero else
      result <- waitForReadyStatus mdb ;;
      if negb (Result_IsZero result) then ret result else
      match first_stale (replicas podsByRole) stsUpdateRevision with
      | Some replicaPod =>
          wrap "error updating replica Pod" (updatePod (ObjectKey mdb) replicaPod stsUpdateRevision) ;;;
          ret requeue
      | None =>
          let primaryPod := primary_pod podsByRole in
          if PodUpdated primaryPod stsUpdateRevision then ret Result_zero else
          lift (waitForConfiguredReplica mdb) ;;;
          triggerSwitchover ;;;
          wrap "error updating primary Pod" (updatePod (ObjectKey mdb) primaryPod stsUpdateRevision) ;;;
          ret Result_zero
      end
  end.
End updates.

(** ** Properties *)
Section properties.
Context `{RANGE : MapRange} `{SORT : SliceSort} `{COND : StatusConditions}.

Definition is_delete (e : event op) : bool := match ev_op e with KDeletePod _ => true | _ => false end.
Definition deletes (key : NamespacedName) (e : event op) : Prop :=
  match ev_op e with KDeletePod k => k = key | _ => False end.

(** The deletions of a trace. *)
Definition deletions (t : trace) : list (event op) := filter (λ e, is_delete e = true) t.

Definition keeps_pods (e : event op) : Prop := is_delete e = false.
Lemma deletions_none (t : trace) : Forall keeps_pods t → deletions t = [].
Proof.
  induction 1 as [|e t He _ IH]; [done|]. unfold deletions in *. rewrite filter_cons.
  unfold keeps_pods in He. by rewrite He.
Qed.

(** A listed Pod [p] is stale for the revision of the StatefulSet, and all Pods were
    ready when it was looked at; if it is the primary, it is the only stale Pod and
    there is no replica to move the primary role to. *)
Definition may_update (m : MariaDB) (p : Pod) (t : trace) : Prop :=
  ∃ sts pods ready, Ev (KGetStatefulSet (ObjectKey m)) (Ok sts) ∈ t ∧ sts_UpdateRevision sts ≠ "" ∧
    Ev (KListPods (WithMariaDBSelectorLabels m ∅) (Namespace (m_meta m))) (Ok pods) ∈ t ∧
    p ∈ pods ∧ PodUpdated p (sts_UpdateRevision sts) = false ∧
    Ev (KGetStatefulSet (ObjectKey m)) (Ok ready) ∈ t ∧
    sts_ReadyReplicas ready = sp_Replicas (m_Spec m) ∧
    (st_CurrentPrimary (m_Status m) = Some (pod_Name p) →
       (∀ q, q ∈ pods → pod_Name q ≠ pod_Name p → PodUpdated q (sts_UpdateRevision sts) = true) ∧
       shouldTriggerSwitchover m = false).

Lemma may_update_incl m p (t t' : trace) : t ⊆ t' → may_update m p t → may_update m p t'.
Proof. intros Hs (sts & pods & ready & ? & ? & ? & ? & ? & ? & ?). exists sts, pods, ready. auto 10. Qed.

(** What [getPodsByRole] returns is what it listed. *)
Lemma getPodsByRole_spec m s :
  wpM (getPodsByRole m) s (λ t s' r, s' = s ∧ Forall keeps_pods t ∧ (∀ roles, r = Ok (inr roles) →
    ∃ pods, Ev (KListPods (WithMariaDBSelectorLabels m ∅) (Namespace (m_meta m))) (Ok pods) ∈ t ∧
      st_CurrentPrimary (m_Status m) = Some (pod_Name (primary_pod roles)) ∧ primary_pod roles ∈ pods ∧
      (∀ q, q ∈ replicas roles ↔ q ∈ pods ∧ pod_Name q ≠ pod_Name (primary_pod roles)))).
Proof.
  unfold getPodsByRole. wp_auto; (split; [done|]); (split; [by repeat constructor|]); try done.
  intros roles [= <-]. cbn. exists a. split; [set_solver|].
  apply last_Some_elem_of, list_elem_of_filter in Heqo as [Hn Hp]. rewrite Hn.
  apply bool_decide_eq_false in Heqb. split_and!; [|done|].
  - destruct (st_CurrentPrimary (m_Status m)); [done|]. by destruct Heqb.
  - intros q. rewrite sort_slice_perm, list_elem_of_filter. tauto.
Qed.

Lemma updatePod_spec key pod rev s :
  wpM (updatePod key pod rev) s (λ t _ _,
    ∃ x t', t = Ev (KDeletePod (Pod_key pod)) x :: t' ∧ Forall keeps_pods t').
Proof.
  unfold updatePod. wp_step. wp_step. wp_step; cbn [wrap_err]; [|by eexists _, []].
  eapply wpM_mono; [|apply (alwaysM_wpM keeps_pods)].
  - intros t s' r Ht. by eexists _, t.
  - apply alwaysM_wrap, alwaysM_poll; [done|]. always_auto; done.
Qed.

Lemma triggerSwitchover_spec m :
  wpM triggerSwitchover m (λ t _ r, Forall keeps_pods t ∧
    (r = Ok tt → t = [] ∧ shouldTriggerSwitchover m = false)).
Proof.
  unfold triggerSwitchover. wp_step. wp_step. wp_step; [wp_step; split; [done|]; intros _; split; [done|];
    by apply negb_true_iff|].
  destruct (st_CurrentPrimaryPodIndex (m_Status m)) as [cur|] eqn:Hcur; [|by wp_step].
  wp_step. wp_step. eapply wpM_mono; [|apply (alwaysM_wpM keeps_pods)].
  2: { unfold ReplicaPodHealthyIndex, secondaryPodHealthyIndex. always_auto; done. }
  intros t s' [i|e] Ht; cbn [wrap_err]; [|done]. wp_step. apply wpM_patch_m. intros [[]|e].
  - wp_step. split; [|done]. apply Forall_app_2; [done|by constructor].
  - split; [|done]. apply Forall_app_2; [done|by constructor].
Qed.

(** What the trace of one reconciliation of the update looks like. *)
Definition update_trace (m : MariaDB) (t : trace) : Prop :=
  (length (deletions t) ≤ 1)%nat ∧
  ∀ key, guarded (deletes key) (λ t1, ∃ p, Pod_key p = key ∧ may_update m p t1) t.

Lemma update_trace_quiet m t : Forall keeps_pods t → update_trace m t.
Proof.
  intros Ht. split; [rewrite deletions_none by done; cbn; lia|]. intros key. apply guarded_none.
  eapply Forall_impl; [exact Ht|]. intros [X o a]. unfold keeps_pods, is_delete, deletes. cbn.
  destruct o; by intros ? ?.
Qed.

Lemma update_trace_delete m p t1 x t2 :
  Forall keeps_pods t1 → may_update m p t1 → Forall keeps_pods t2 →
  update_trace m (t1 ++ Ev (KDeletePod (Pod_key p)) x :: t2).
Proof.
  intros H1 Hm H2. destruct (update_trace_quiet m t1 H1) as [_ Hg1].
  destruct (update_trace_quiet m t2 H2) as [_ Hg2]. split.
  - unfold deletions. rewrite filter_app, filter_cons_True by done.
    change (filter _ t1) with (deletions t1). change (filter _ t2) with (deletions t2).
    rewrite !deletions_none by done. cbn. lia.
  - intros key. apply guarded_append; [apply Hg1|]. apply guarded_cons.
    + cbn. intros <-. exists p. by rewrite app_nil_r.
    + eapply guarded_mono; [|apply Hg2]. intros u (q & Hq & Hu). exists q. split; [done|].
      eapply may_update_incl; [|exact Hu]. set_solver.
Qed.

Lemma getStale_nonempty roles rev : first_stale (replicas roles) rev = None →
  ∀ q, q ∈ replicas roles → PodUpdated q rev = true.
Proof.
  unfold first_stale. intros Hh q Hq. destruct (PodUpdated q rev) eqn:Hu; [done|]. exfalso.
  assert (q ∈ filter (λ p, PodUpdated p rev = false) (replicas roles)) as Hin
    by (apply list_elem_of_filter; done).
  destruct (filter _ _); [by apply elem_of_nil in Hin|done].
Qed.

Lemma first_stale_Some pods rev p : first_stale pods rev = Some p → p ∈ pods ∧ PodUpdated p rev = false.
Proof.
  unfold first_stale. intros Hp%head_Some_elem_of. apply list_elem_of_filter in Hp. tauto.
Qed.

Lemma waitForReadyStatus_spec m s :
  wpM (waitForReadyStatus m) s (λ t s' r, s' = s ∧ Forall keeps_pods t ∧
    (r = Ok Result_zero → ∃ ready, Ev (KGetStatefulSet (ObjectKey m)) (Ok ready) ∈ t ∧
       sts_ReadyReplicas ready = sp_Replicas (m_Spec m))).
Proof.
  unfold waitForReadyStatus, refresolver_MaxScale.
  wp_auto; (split; [done|]); (split; [by repeat constructor|]); try done; intros _.
  all: apply negb_false_iff, bool_decide_eq_true in Heqb; exists a; (split; [set_solver|done]).
Qed.

(** Updating a Pod after the trace [t0]. *)
Lemma update_one {A} m p rev t0 s ctx (k : M MariaDB op A) :
  Forall keeps_pods t0 → may_update m p t0 → (∀ s, wpM k s (λ t _ _, t = [])) →
  wpM (wrap ctx (updatePod (ObjectKey m) p rev) ;;; k) s (λ t _ _, update_trace m (t0 ++ t)).
Proof.
  intros H0 Hm Hk. wp_step. wp_step. eapply wpM_mono; [|apply updatePod_spec].
  intros t s' r (x & t' & -> & Ht').
  pose proof (update_trace_delete m p t0 x t' H0 Hm Ht') as Hd.
  destruct r as [[]|e]; cbn [wrap_err]; [|done].
  eapply wpM_mono; [|apply Hk]. intros t s'' r ->. by rewrite app_nil_r.
Qed.

Lemma update_tail m roles (pods : list Pod) rev t0 :
  Forall keeps_pods t0 →
  st_CurrentPrimary (m_Status m) = Some (pod_Name (primary_pod roles)) → primary_pod roles ∈ pods →
  (∀ q, q ∈ replicas roles ↔ q ∈ pods ∧ pod_Name q ≠ pod_Name (primary_pod roles)) →
  (∀ p, p ∈ pods → PodUpdated p rev = false →
    (st_CurrentPrimary (m_Status m) = Some (pod_Name p) →
      (∀ q, q ∈ pods → pod_Name q ≠ pod_Name p → PodUpdated q rev = true) ∧
      shouldTriggerSwitchover m = false) → may_update m p t0) →
  wpM (match first_stale (replicas roles) rev with
       | Some replicaPod =>
           wrap "error updating replica Pod" (updatePod (ObjectKey m) replicaPod rev) ;;; ret requeue
       | None =>
           if PodUpdated (primary_pod roles) rev then ret Result_zero else
           lift (waitForConfiguredReplica m) ;;;
           triggerSwitchover ;;;
           wrap "error updating primary Pod" (updatePod (ObjectKey m) (primary_pod roles) rev) ;;;
           ret Result_zero
       end) m (λ t _ _, update_trace m (t0 ++ t)).
Proof.
  intros H0 Hcur Hprim Hrep Hmay. destruct (first_stale _ _) as [p|] eqn:Hst.
  - apply first_stale_Some in Hst as [Hp Hu]. apply Hrep in Hp as [Hp Hne].
    apply update_one; [done| |by intros s; apply wpM_ret]. apply Hmay; [done..|]. congruence.
  - destruct (PodUpdated (primary_pod roles) rev) eqn:Hu.
    { wp_step. rewrite app_nil_r. by apply update_trace_quiet. }
    wp_step. wp_step. destruct (waitForConfiguredReplica m); [|rewrite app_nil_r; by apply update_trace_quiet].
    wp_step. eapply wpM_mono; [|apply triggerSwitchover_spec]. intros t s' [[]|e] [Ht Hok].
    + destruct (Hok eq_refl) as [-> Hsw]. cbn [app]. apply update_one; [done| |by intros s; apply wpM_ret].
      apply Hmay; [done..|]. intros _. split; [|done]. intros q Hq Hne.
      eapply getStale_nonempty; [exact Hst|]. by apply Hrep.
    + cbn [app]. apply update_trace_quiet. by apply Forall_app_2.
Qed.

(** C15: one reconciliation of a rolling update deletes at most one Pod.  It is a Pod that
    was listed and is stale for the revision of the StatefulSet, all Pods were seen ready
    before, and the primary is deleted only if no other listed Pod is stale and there is no
    configured replica the primary role should be moved to first. *)
Theorem rolling_update_order m :
  wpM reconcileUpdates m (λ t _ _, (length (deletions t) ≤ 1)%nat ∧
    ∀ key, guarded (deletes key) (λ t1, ∃ p, Pod_key p = key ∧ may_update m p t1) t).
Proof.
  change (wpM reconcileUpdates m (λ t _ _, update_trace m t)).
  unfold reconcileUpdates, getStatefulSetRevision. wp_step. wp_step.
  wp_step; [by wp_step; apply update_trace_quiet|].
  wp_step. wp_step. wp_step; [|by apply update_trace_quiet; repeat constructor]. rename a into sts. wp_step.
  wp_step; [by wp_step; apply update_trace_quiet; repeat constructor|]. apply bool_decide_eq_false in Heqb0.
  wp_step. eapply wpM_mono; [|apply getPodsByRole_spec].
  intros t1 s1 [[result|roles]|e] (-> & H1 & Hroles); [wp_step| |]; cbn [app].
  1,3: apply update_trace_quiet; repeat constructor; try done; by rewrite app_nil_r.
  destruct (Hroles roles eq_refl) as (pods & Hlist & Hcur & Hprim & Hrep).
  wp_step; [wp_step; apply update_trace_quiet; repeat constructor; by rewrite app_nil_r|].
  wp_step. eapply wpM_mono; [|apply waitForReadyStatus_spec].
  intros t2 s2 [result|e] (-> & H2 & Hready); [|apply update_trace_quiet; constructor; [done|]; by apply Forall_app_2].
  set (t12 := Ev (KGetStatefulSet (ObjectKey m)) (Ok sts) :: t1 ++ t2).
  assert (Forall keeps_pods t12) as H12 by (constructor; [done|]; by apply Forall_app_2).
  wp_step; [wp_step; apply update_trace_quiet; constructor; [done|]; rewrite app_nil_r; by apply Forall_app_2|].
  unfold Result_IsZero in Heqb2. apply negb_false_iff, bool_decide_eq_true in Heqb2. subst result.
  destruct (Hready eq_refl) as (ready & Hrd & Hrn).
  assert (∀ p, p ∈ pods → PodUpdated p (sts_UpdateRevision sts) = false →
    (st_CurrentPrimary (m_Status m) = Some (pod_Name p) →
      (∀ q, q ∈ pods → pod_Name q ≠ pod_Name p → PodUpdated q (sts_UpdateRevision sts) = true) ∧
      shouldTriggerSwitchover m = false) → may_update m p t12) as Hmay.
  { intros p Hp Hu Hpr. exists sts, pods, ready. subst t12. split_and!; try done; set_solver. }
  eapply wpM_mono; [|by apply (update_tail m roles pods (sts_UpdateRevision sts) t12)].
  intros t s' r. unfold t12. cbn [app]. by rewrite <- (assoc_L (++)).
Qed.
End properties.
