(* ===== verification/Status.v ===== *)
(** * internal/controller/mariadb_controller_status.go

    The status phase of the MariaDB reconciler: what the operator finds out about
    the cluster in one pass and writes to the status.  The state is the MariaDB
    object in memory. *)

From S2P Require Import Prelude GoStrings StatefulSet Datastructures Conditions MariaDBTypes MaxScaleTypes.
From S2P Require Import Concurrency Kube Wait Sql Health ConditionSetters Version Replication.
From S2P Require Import Switchover Failover Updates Pki Certificate MariaDBTLS.

Local Open Scope Z_scope.
Local Open Scope go_scope.

Section status.
Context `{MapRange} `{SliceSort} `{StatusConditions} `{X509} (CLUSTER_NAME : string).

(** [r.patchStatus] with a patcher that may itself read from the cluster. *)
Definition patchStatus_with (patcher : M MariaDB op unit) : M MariaDB op unit :=
  base <- get ;;
  patcher ;;;
  (λ m, Vis (KPatchStatus base m) (λ r, Ret (m, r))).

Definition set_status (f : MariaDB → MariaDBStatus) : M MariaDB op unit :=
  modify (λ m, { m with m_Status := f m }).

(** ** Replication *)
Definition replication_state (client : Z) : M MariaDB op string :=
  masterEnabled <- try (IsSystemVariableEnabled client "rpl_semi_sync_master_enabled") ;;
  slaveEnabled <- try (IsSystemVariableEnabled client "rpl_semi_sync_slave_enabled") ;;
  lift (multierror (err_of masterEnabled) (err_of slaveEnabled)) ;;;
  ret (if bool_decide (masterEnabled = Ok true) then ReplicationStateMaster
       else if bool_decide (slaveEnabled = Ok true) then ReplicationStateSlave
       else ReplicationStateNotConfigured).

(** The loop over the Pods; a Pod whose client cannot be opened, or whose state
    cannot be read, is left out. *)
Fixpoint replicationStatus_loop (mdb : MariaDB) (l : list Z) (acc : ReplicationStatus) :
    M MariaDB op ReplicationStatus :=
  match l with
  | [] => ret acc
  | i :: l' =>
      client <- try (ClientForIndex mdb false i) ;;
      match client with
      | Err _ => replicationStatus_loop mdb l' acc
      | Ok client =>
          state <- try (replication_state client) ;;
          match state with
          | Err _ => replicationStatus_loop mdb l' acc
          | Ok state => replicationStatus_loop mdb l' (<[PodName (m_meta mdb) i := state]> acc)
          end
      end
  end.

(** A nil map is [None]. *)
Definition getReplicationStatus (mdb : MariaDB) : M MariaDB op (option ReplicationStatus) :=
  if negb (rep_Enabled (replication mdb)) then ret None else
  wrap "error creating mariadb clientset" (lift (NewReplicationClientSet mdb)) ;;;
  st <- replicationStatus_loop mdb (seq_replicas mdb) ∅ ;;
  ret (Some st).

(** ** MaxScale *)
Definition podIndexForServer (serverName : string) (mxs : MaxScale) (mdb : MariaDB) : result Z :=
  match head (filter (λ s, serverName = mss_Name s) (Servers mxs)) with
  | None => Err (ErrNew "MaxScale server not found")
  | Some server =>
      match head (filter (λ i, mss_Address server =
                     PodFQDNWithService CLUSTER_NAME (m_meta mdb) i (nn_Name (InternalServiceKey mdb)))
                   (seq_replicas mdb)) with
      | Some i => Ok i
      | None => Err (ErrNew "MariaDB Pod with address not found")
      end
  end.

(** A nil index is [None]. *)
Definition getMaxScalePrimaryPod (mdb : MariaDB) : M MariaDB op (option Z) :=
  match sp_MaxScaleRef (m_Spec mdb) with
  | None => ret None
  | Some ref =>
      mxs <- refresolver_MaxScale ref (Namespace (m_meta mdb)) ;;
      match GetPrimaryServer (mx_Status mxs) with
      | None => throw (ErrNew "MaxScale primary server not found")
      | Some primarySrv =>
          i <- wrap "error getting Pod for MaxScale server" (lift (podIndexForServer primarySrv mxs mdb)) ;;
          ret (Some i)
      end
  end.

Definition set_current_primary (podIndex : Z) (mdb : MariaDB) : MariaDB :=
  { mdb with m_Status := { m_Status mdb with
      st_CurrentPrimaryPodIndex := Some podIndex;
      st_CurrentPrimary := Some (PodName (m_meta mdb) podIndex) } }.

Definition setMaxScalePrimary (podIndex : option Z) (mdb : MariaDB) : MariaDB :=
  match sp_MaxScaleRef (m_Spec mdb), podIndex with
  | Some _, Some i => set_current_primary i mdb
  | _, _ => mdb
  end.

(** ** The primary *)
Definition defaultPrimary (mdb : MariaDB) : MariaDB :=
  match st_CurrentPrimaryPodIndex (m_Status mdb), st_CurrentPrimary (m_Status mdb) with
  | None, None =>
      let podIndex := 0 in
      let podIndex := if IsGaleraEnabled mdb
                      then default 0 (pg_PodIndex (ga_Primary (default Galera_zero (sp_Galera (m_Spec mdb)))))
                      else podIndex in
      let podIndex := if rep_Enabled (replication mdb)
                      then default 0 (pr_PodIndex (primary mdb)) else podIndex in
      set_current_primary podIndex mdb
  | _, _ => mdb
  end.

(** ** Updates *)
Definition setUpdatedCondition : M MariaDB op unit :=
  mdb <- get ;;
  stsUpdateRevision <- getStatefulSetRevision mdb ;;
  if bool_decide (stsUpdateRevision = "") then ret tt else
  items <- wrap "error listing Pods"
    (call (KListPods (WithMariaDBSelectorLabels mdb ∅) (Namespace (m_meta mdb)))) ;;
  let podsUpdated :=
    Z.of_nat (length (filter (λ p, PodUpdated p stsUpdateRevision = true) items)) in
  set_status (λ m,
    if bool_decide (sp_Replicas (m_Spec mdb) ≤ podsUpdated) then SetUpdated (m_Status m)
    else if bool_decide (0 < podsUpdated) then SetUpdating (m_Status m)
    else SetPendingUpdate (m_Status m)).

(** ** reconcileStatus *)
Definition StatefulSet_zero : StatefulSet := mkStatefulSet (mkObjectMeta "" "" "" ∅ ∅) None 0 0 "".

(** The patcher: [sts], the two parts of the status and the answer of MaxScale were found
    before the object is copied. *)
Definition status_patcher (defaultVersion : string) (sts : StatefulSet)
    (replicationStatus : option ReplicationStatus) (tlsStatus : option MariaDBTLSStatus)
    (mxs : result (option Z)) : M MariaDB op unit :=
  set_status (λ m, { m_Status m with st_DefaultVersion := defaultVersion;
                                     st_Replicas := sts_ReadyReplicas sts }) ;;;
  modify defaultPrimary ;;;
  modify (setMaxScalePrimary (match mxs with Ok i => i | Err _ => None end)) ;;;
  (if replicationStatus is Some st
   then set_status (λ m, { m_Status m with st_ReplicationStatus := Some st }) else ret tt) ;;;
  (if tlsStatus is Some st
   then set_status (λ m, { m_Status m with st_TLS := Some st }) else ret tt) ;;;
  mdb <- get ;;
  if match mxs with Err e => IsNotFound e | Ok _ => false end &&
     negb (default false (sp_MaxScale (m_Spec mdb))) then
    set_status (λ m, Ready_PatcherRefResolver
      (match mxs with Err e => Some e | Ok _ => None end) "MaxScale" (m_Status m))
  else if IsRestoringBackup mdb || IsResizingStorage mdb || IsSwitchingPrimary mdb ||
          HasGaleraNotReadyCondition mdb then ret tt
  else
    _r <- try setUpdatedCondition ;;
    set_status (λ m, SetReadyWithMariaDB (m_Status m) sts m).

Definition reconcileStatus (defaultVersion : string) : M MariaDB certop ctrl_Result :=
  mdb <- get ;;
  if IsSuspended mdb then
    base (patchStatus_with (set_status (λ m, SetReadySuspended (m_Status m)))) ;;;
    ret Result_zero
  else
    sts <- try (call (CBase (KGetStatefulSet (ObjectKey mdb)))) ;;
    replicationStatus <- try (base (getReplicationStatus mdb)) ;;
    mxs <- try (base (getMaxScalePrimaryPod mdb)) ;;
    tlsStatus <- try (getTLSStatus mdb) ;;
    base (patchStatus_with (status_patcher defaultVersion
      (match sts with Ok sts => sts | Err _ => StatefulSet_zero end)
      (match replicationStatus with Ok st => st | Err _ => None end)
      (match tlsStatus with Ok st => st | Err _ => None end) mxs)) ;;;
    ret Result_zero.
End status.

(** ** Properties *)
Section properties.
Context `{RANGE : MapRange} `{SORT : SliceSort} `{COND : StatusConditions} `{X : X509} (CLUSTER_NAME : string).

Definition semi_sync_query (v : string) : string := "SELECT @@global." +:+ v +:+ ";".
Definition is_on (r : reply string) : bool :=
  bool_decide (reply_or_empty r = "1") || bool_decide (reply_or_empty r = "ON").

(** The replication state of a Pod is read without any error being noticed: a server
    that fails to answer is reported like one that answers OFF.  A Pod whose two queries
    fail is therefore recorded as not configured instead of being left out, and the
    replication phase configures it again. *)
Theorem unreadable_pod_is_not_configured c m :
  wpM (replication_state c) m (λ t m' r, m' = m ∧ ∃ master slave,
    t = [Ev (SqlQueryRow c (semi_sync_query "rpl_semi_sync_master_enabled") []) master;
         Ev (SqlQueryRow c (semi_sync_query "rpl_semi_sync_slave_enabled") []) slave] ∧
    r = Ok (if is_on master then ReplicationStateMaster
            else if is_on slave then ReplicationStateSlave else ReplicationStateNotConfigured) ∧
    (∀ f f', master = Fail f → slave = Fail f' → r = Ok ReplicationStateNotConfigured)).
Proof.
  unfold replication_state, IsSystemVariableEnabled. wp_step. wp_step. wp_step.
  eapply wpM_mono; [|apply SystemVariable_spec]. intros t1 s1 r1 (-> & master & -> & ->).
  do 4 wp_step. eapply wpM_mono; [|apply SystemVariable_spec].
  intros t2 s2 r2 (-> & slave & -> & ->). do 3 wp_step. wp_step; [|done]. split; [done|].
  exists master, slave. split; [done|]. unfold is_on.
  assert (∀ b : bool, bool_decide (Ok b = Ok true) = b) as Hb by by intros [].
  rewrite !Hb. split; [done|]. by intros f f' -> ->.
Qed.

(** The primary the status should name when it names none. *)
Definition default_primary_index (m : MariaDB) : Z :=
  if rep_Enabled (replication m) then default 0 (pr_PodIndex (primary m))
  else if IsGaleraEnabled m
       then default 0 (pg_PodIndex (ga_Primary (default Galera_zero (sp_Galera (m_Spec m)))))
       else 0.

Lemma defaultPrimary_index m :
  st_CurrentPrimaryPodIndex (m_Status (defaultPrimary m)) =
  match st_CurrentPrimaryPodIndex (m_Status m), st_CurrentPrimary (m_Status m) with
  | None, None => Some (default_primary_index m)
  | o, _ => o
  end.
Proof.
  unfold defaultPrimary, default_primary_index.
  destruct (st_CurrentPrimaryPodIndex (m_Status m)) eqn:Hi; [by rewrite Hi|].
  destruct (st_CurrentPrimary (m_Status m)); [by rewrite Hi|].
  by destruct (rep_Enabled (replication m)), (IsGaleraEnabled m).
Qed.

Lemma replicationStatus_loop_keeps mdb l acc : keepsM eq (replicationStatus_loop mdb l acc).
Proof.
  revert acc. induction l as [|i l IH]; intros acc; cbn [replicationStatus_loop].
  - apply keepsM_ret. apply _.
  - apply keepsM_bind; [apply _|keeps_auto|]. intros [c|e]; [|apply IH].
    apply keepsM_bind; [apply _|keeps_auto|]. intros [st|e]; apply IH.
Qed.
Lemma getReplicationStatus_keeps mdb : keepsM eq (getReplicationStatus mdb).
Proof.
  unfold getReplicationStatus. repeat lazymatch goal with
  | |- keepsM _ (replicationStatus_loop _ _ _) => apply replicationStatus_loop_keeps
  | |- keepsM _ _ => keeps_step
  end.
Qed.

(** The spec and the current primary are left alone. *)
Definition same_primary (m m' : MariaDB) : Prop :=
  m_Spec m' = m_Spec m ∧
  st_CurrentPrimaryPodIndex (m_Status m') = st_CurrentPrimaryPodIndex (m_Status m).
#[local] Instance same_primary_preorder : PreOrder same_primary.
Proof. unfold same_primary. split; [done|]. intros x y z [-> ->] [-> ->]. done. Qed.

Lemma SetReadyWithMariaDB_primary (st : MariaDBStatus) sts m :
  st_CurrentPrimaryPodIndex (SetReadyWithMariaDB st sts m) = st_CurrentPrimaryPodIndex st.
Proof. unfold SetReadyWithMariaDB. by repeat case_match. Qed.

Lemma setUpdatedCondition_keeps : keepsM same_primary setUpdatedCondition.
Proof. keeps_auto. split; [done|]. cbn. by repeat case_match. Qed.

(** The conditions that make the status phase keep its hands off the verdict. *)
Definition busy (m : MariaDB) : bool :=
  IsRestoringBackup m || IsResizingStorage m || IsSwitchingPrimary m || HasGaleraNotReadyCondition m.

Lemma busy_conditions m m' : st_Conditions (m_Status m') = st_Conditions (m_Status m) → busy m' = busy m.
Proof.
  intros Heq. unfold busy, IsRestoringBackup, IsResizingStorage, IsSwitchingPrimary, HasGaleraNotReadyCondition.
  by rewrite Heq.
Qed.

Lemma status_verdict_spec sts m4 :
  wpM (if busy m4 then ret tt else
       _r <- try setUpdatedCondition ;;
       set_status (λ m, SetReadyWithMariaDB (m_Status m) sts m)) m4
    (λ _ m' r, r = Ok tt ∧ same_primary m4 m' ∧ (busy m4 = true → m' = m4)).
Proof.
  destruct (busy m4); [by wp_step|]. wp_step. wp_step.
  eapply wpM_mono; [|apply setUpdatedCondition_keeps]. intros t m5 r Hs. unfold set_status. wp_step.
  split; [done|]. split; [|done]. etrans; [exact Hs|]. split; [done|]. cbn.
  apply SetReadyWithMariaDB_primary.
Qed.

Lemma defaultPrimary_frame m : m_Spec (defaultPrimary m) = m_Spec m ∧
  st_Conditions (m_Status (defaultPrimary m)) = st_Conditions (m_Status m).
Proof. unfold defaultPrimary. by repeat case_match. Qed.

(** The primary named after the patch: MaxScale's when it reports one, otherwise the one
    the status named, or the default. *)
Definition primary_after (mxs : result (option Z)) (m : MariaDB) : option Z :=
  match sp_MaxScaleRef (m_Spec m), mxs with
  | Some _, Ok (Some i) => Some i
  | _, _ => st_CurrentPrimaryPodIndex (m_Status (defaultPrimary m))
  end.

(** MaxScale is referenced but does not exist, and is not managed with the cluster. *)
Definition maxscale_missing (mxs : result (option Z)) (m : MariaDB) : bool :=
  match mxs with Err e => IsNotFound e | Ok _ => false end &&
  negb (default false (sp_MaxScale (m_Spec m))).

(** [m4] is [m] after the fields that do not depend on its conditions were set. *)
Definition status_fields_set (mxs : result (option Z)) (m m4 : MariaDB) : Prop :=
  m_Spec m4 = m_Spec m ∧ st_Conditions (m_Status m4) = st_Conditions (m_Status m) ∧
  st_CurrentPrimaryPodIndex (m_Status m4) = primary_after mxs m.

Lemma set_fields_spec dv n mxs m :
  status_fields_set mxs m
    (setMaxScalePrimary (match mxs with Ok i => i | Err _ => None end)
      (defaultPrimary { m with m_Status := { m_Status m with st_DefaultVersion := dv; st_Replicas := n } })).
Proof.
  unfold status_fields_set, primary_after, setMaxScalePrimary.
  set (m1 := { m with m_Status := _ }). destruct (defaultPrimary_frame m1) as [Hs Hc].
  assert (st_CurrentPrimaryPodIndex (m_Status (defaultPrimary m1)) =
          st_CurrentPrimaryPodIndex (m_Status (defaultPrimary m))) as Hi by by rewrite !defaultPrimary_index.
  rewrite Hs. change (m_Spec m1) with (m_Spec m). change (st_Conditions (m_Status m1)) with (st_Conditions (m_Status m)) in Hc.
  destruct (sp_MaxScaleRef (m_Spec m)), mxs as [[i|]|e]; done.
Qed.

Lemma set_optional_spec {A} mxs m m3 (o : option A) (f : A → MariaDB → MariaDBStatus) :
  (∀ a m4, st_Conditions (f a m4) = st_Conditions (m_Status m4) ∧
           st_CurrentPrimaryPodIndex (f a m4) = st_CurrentPrimaryPodIndex (m_Status m4)) →
  status_fields_set mxs m m3 →
  wpM (if o is Some a then set_status (f a) else ret tt) m3
    (λ _ m4 r, r = Ok tt ∧ status_fields_set mxs m m4).
Proof.
  intros Hf (Hs & Hc & Hi). destruct o as [a|]; [unfold set_status|]; wp_step; (split; [done|]); [|done].
  destruct (Hf a m3) as [Hc' Hi']. split; [done|]. cbn; unfold constant. split; congruence.
Qed.

Lemma status_patcher_spec dv sts repl tls mxs m :
  wpM (status_patcher dv sts repl tls mxs) m (λ _ m' r, r = Ok tt ∧
    m_Spec m' = m_Spec m ∧ st_CurrentPrimaryPodIndex (m_Status m') = primary_after mxs m ∧
    (busy m = true → maxscale_missing mxs m = false →
     st_Conditions (m_Status m') = st_Conditions (m_Status m))).
Proof.
  unfold status_patcher. unfold set_status at 1. do 6 wp_step.
  pose proof (set_fields_spec dv (sts_ReadyReplicas sts) mxs m) as Hset.
  revert Hset. generalize (setMaxScalePrimary (match mxs with Ok i => i | Err _ => None end)
    (defaultPrimary { m with m_Status := { m_Status m with st_DefaultVersion := dv; st_Replicas := sts_ReadyReplicas sts } })).
  intros m3 Hset. apply wpM_bind.
  eapply wpM_mono; [|by apply (set_optional_spec mxs m m3)]. intros t m3' r [-> Hset'].
  apply wpM_bind. eapply wpM_mono; [|by apply (set_optional_spec mxs m m3')].
  intros t' m4 r [-> (Hspec & Hc & Hi)]. wp_step. wp_step.
  fold (maxscale_missing mxs m4). fold (busy m4).
  assert (maxscale_missing mxs m4 = maxscale_missing mxs m) as -> by (unfold maxscale_missing; by rewrite Hspec).
  destruct (maxscale_missing mxs m).
  - unfold set_status. wp_step. split_and!; [done|done| |done]. rewrite <- Hi. cbn.
    unfold Ready_PatcherRefResolver. by repeat case_match.
  - eapply wpM_mono; [|apply status_verdict_spec]. intros t'' m' r (-> & [Hs' Hi'] & Hb).
    split_and!; [done|congruence|congruence|]. intros Hbusy _. rewrite Hb; [done|].
    by rewrite (busy_conditions m m4).
Qed.

Lemma seq_replicas_bound m i : i ∈ seq_replicas m → 0 ≤ i < sp_Replicas (m_Spec m).
Proof. unfold seq_replicas. rewrite elem_of_seqZ. lia. Qed.

Lemma podIndexForServer_bound s mxs m i :
  podIndexForServer CLUSTER_NAME s mxs m = Ok i → 0 ≤ i < sp_Replicas (m_Spec m).
Proof.
  unfold podIndexForServer. case_match; [|done]. case_match eqn:Hh; [|done]. intros [= <-].
  apply head_Some_elem_of, list_elem_of_filter in Hh as [_ Hin]. by apply seq_replicas_bound.
Qed.

(** What the status phase may learn from MaxScale. *)
Definition maxscale_answer (mdb : MariaDB) (mxs : result (option Z)) : Prop :=
  (sp_MaxScaleRef (m_Spec mdb) = None → mxs = Ok None) ∧
  ∀ i, mxs = Ok (Some i) → 0 ≤ i < sp_Replicas (m_Spec mdb).

Lemma getMaxScalePrimaryPod_spec mdb m :
  wpM (getMaxScalePrimaryPod CLUSTER_NAME mdb) m (λ _ m' r, m' = m ∧ maxscale_answer mdb r).
Proof.
  unfold getMaxScalePrimaryPod, maxscale_answer. destruct (sp_MaxScaleRef (m_Spec mdb)); [|by wp_step].
  unfold refresolver_MaxScale. wp_auto; (split; [done|]); (split; [done|]); intros j Hj; try done.
  simplify_eq. by eapply podIndexForServer_bound.
Qed.

(** A patch writes what its patcher left in memory, against what was there before. *)
Lemma patchStatus_with_spec patcher m (Q : MariaDB → Prop) :
  wpM patcher m (λ _ m' r, r = Ok tt ∧ Q m') →
  wpM (patchStatus_with patcher) m (λ t m' r,
    Q m' ∧ last t = Some (Ev (KPatchStatus m m') r)).
Proof.
  intros Hp. unfold patchStatus_with. wp_step. wp_step. wp_step.
  eapply wpM_mono; [|exact Hp]. intros t m' r [-> HQ]. intros u. cbn. split; [done|].
  by rewrite last_snoc.
Qed.

Lemma base_patchStatus_spec patcher m (Q : MariaDB → Prop) :
  wpM patcher m (λ _ m' r, r = Ok tt ∧ Q m') →
  wpM (base (patchStatus_with patcher)) m (λ t m' r,
    Q m' ∧ last t = Some (Ev (CBase (KPatchStatus m m')) r)).
Proof.
  intros Hp. apply wpM_hoist. eapply wpM_mono; [|by apply patchStatus_with_spec].
  intros t m' r [HQ Hlast]. split; [done|]. rewrite fmap_last. exact (f_equal (fmap (hoist_event (λ _ o, CBase o))) Hlast).
Qed.

Lemma getTLSStatus_keeps mdb : keepsM eq (getTLSStatus mdb).
Proof. keeps_auto. Qed.

(** One pass of the status phase.  It sets nothing in the spec; the primary it leaves in
    the status is the one already there, or the default (Pod 0, or the Pod the spec asks
    for) when there was none, or, with a MaxScale, a Pod of the cluster; and while a
    restore, a storage resize, a switchover or a Galera recovery is going on it leaves
    every condition as it is, unless a referenced MaxScale is missing.  It fails only if
    the patch itself is refused: what cannot be read is left out. *)
Theorem status_keeps_primary_and_verdict dv m :
  wpM (reconcileStatus CLUSTER_NAME dv) m (λ t m' r,
    m_Spec m' = m_Spec m ∧
    (if IsSuspended m
     then st_CurrentPrimaryPodIndex (m_Status m') = st_CurrentPrimaryPodIndex (m_Status m) ∧
          st_Conditions (m_Status m') = st_Conditions (SetReadySuspended (m_Status m))
     else ∃ mxs, maxscale_answer m mxs ∧
          st_CurrentPrimaryPodIndex (m_Status m') = primary_after mxs m ∧
          (busy m = true → maxscale_missing mxs m = false →
           st_Conditions (m_Status m') = st_Conditions (m_Status m))) ∧
    ∃ u, last t = Some (Ev (CBase (KPatchStatus m m')) u) ∧ r = (u ≫= λ _, Ok Result_zero)).
Proof.
  unfold reconcileStatus. wp_step. wp_step. wp_step.
  - wp_step. eapply wpM_mono.
    2: { apply (base_patchStatus_spec _ _ (λ m', m' = { m with m_Status := SetReadySuspended (m_Status m) })).
         unfold set_status. by wp_step. }
    intros t m' [[]|e] [-> Hlast]; [wp_step; rewrite app_nil_r|]; split_and!; try done; by eexists.
  - wp_step. wp_step. apply wpM_call. intros sts.
    wp_step. wp_step. apply wpM_hoist. eapply wpM_mono; [|apply getReplicationStatus_keeps]. intros t1 m1 repl <-.
    wp_step. wp_step. apply wpM_hoist. eapply wpM_mono; [|apply getMaxScalePrimaryPod_spec]. intros t2 m2 mxs [-> Hmxs].
    wp_step. wp_step. eapply wpM_mono; [|apply getTLSStatus_keeps]. intros t3 m3 tls <-.
    wp_step. eapply wpM_mono; [|eapply base_patchStatus_spec, status_patcher_spec].
    intros t4 m' r [(Hspec & Hi & Hb) Hlast]. set (t1' := hoist_event _ <$> t1). set (t2' := hoist_event _ <$> t2).
    assert (last (Ev (CBase (KGetStatefulSet (ObjectKey m))) sts :: t1' ++ t2' ++ t3 ++ t4) =
      Some (Ev (CBase (KPatchStatus m m')) r)) as Hlast'.
    { by rewrite !(assoc_L (++)), app_comm_cons, last_app, Hlast. }
    destruct r as [[]|e]; [wp_step; rewrite app_nil_r|]; (split; [done|]); split;
      try (by exists mxs); eexists; (split; [exact Hlast'|done]).
Qed.
End properties.
