(* ===== verification/StorageResize.v ===== *)
(** * internal/controller/mariadb_controller_storage.go: resizing the volumes

    The Storage phase of the MariaDB reconciler, which grows the volumes of a running
    cluster, and the StatefulSet phase it shares its last step with: the desired
    StatefulSet (pkg/builder/statefulset_builder.go) and its reconciler
    (pkg/controller/statefulset).  The state is the MariaDB object in memory.

    The Pod template and its annotations, which do not bear on the volumes, are read
    through two operations of the environment. *)

From S2P Require Import Prelude GoStrings StatefulSet Datastructures Conditions MariaDBTypes.
From S2P Require Import Concurrency Kube Wait Sql Health ConditionSetters Version Replication.
From S2P Require Import Switchover Failover Updates Status.

Local Open Scope Z_scope.
Local Open Scope go_scope.

(** ** Objects *)
(** The claim templates and the other parts of a StatefulSet the operator writes. *)
Record StsObject := mkStsObject {
  so_key : NamespacedName;
  so_Replicas : Z;
  so_UpdateStrategy : string;
  so_Template : string;
  so_VolumeClaimTemplates : list (VolumeClaimTemplate Z);
  so_Deleting : bool;
  so_ReadyReplicas : Z;
  so_StatusReplicas : Z
}.

Record PVC := mkPVC {
  pvc_Name : string;
  pvc_Requests : gmap string Z;
  pvc_Conditions : list (string * string);
  pvc_Phase : string
}.

Inductive stop : Type → Type :=
  | TBase {X} (o : op X) : stop X
  | TUpdateAnnotations : stop (result (gmap string string))
  | TPodTemplate (annotations : gmap string string) : stop (result string)
  | TGetSts (key : NamespacedName) : stop (result StsObject)
  | TCreateSts (s : StsObject) : stop (result unit)
  | TPatchSts (base s : StsObject) : stop (result unit)
  (* propagation policy [Orphan]: the Pods and their claims stay *)
  | TDeleteSts (key : NamespacedName) : stop (result unit)
  | TListPVCs (labels : gmap string string) (namespace : string) : stop (result (list PVC))
  | TPatchPVC (base p : PVC) : stop (result unit).

(** ** pkg/pvc *)
Definition PersistentVolumeClaimFileSystemResizePending : string := "FileSystemResizePending".
Definition PersistentVolumeClaimResizing : string := "Resizing".

Definition IsPersistentVolumeClaimFileSystemResizePending (pvc : PVC) : bool :=
  existsb (λ c, if negb (bool_decide (c.2 = "True")) then false
                else bool_decide (c.1 = PersistentVolumeClaimFileSystemResizePending))
    (pvc_Conditions pvc).

Definition IsPersistentVolumeClaimResizing (pvc : PVC) : bool :=
  existsb (λ c, if negb (bool_decide (c.2 = "True")) then false
                else bool_decide (c.1 = PersistentVolumeClaimResizing) ||
                     bool_decide (c.1 = PersistentVolumeClaimFileSystemResizePending))
    (pvc_Conditions pvc).

Definition IsResizing (pvc : PVC) : bool :=
  IsPersistentVolumeClaimFileSystemResizePending pvc || IsPersistentVolumeClaimResizing pvc.

(** ** pkg/builder *)
Definition StorageVolume : string := "storage".
Definition StorageVolumeRole : string := "storage".
Definition GaleraConfigVolume : string := "galera".
Definition WithPVCRole (role : string) (labels : gmap string string) : gmap string string :=
  <[ "pvc.k8s.mariadb.com/role" := role ]> labels.

Definition mariadbVolumeClaimTemplates (mariadb : MariaDB) : list (VolumeClaimTemplate Z) :=
  let pvcs :=
    match sto_VolumeClaimTemplate (sp_Storage (m_Spec mariadb)) with
    | Some vctpl => if negb (IsEphemeralStorageEnabled mariadb)
                    then [mkVct Z StorageVolume (vt_Requests vctpl)] else []
    | None => []
    end in
  let galera := default Galera_zero (sp_Galera (m_Spec mariadb)) in
  let reuseStorageVolume := default false (gc_ReuseStorageVolume (ga_Config galera)) in
  match gc_VolumeClaimTemplate (ga_Config galera) with
  | Some vctpl => if IsGaleraEnabled mariadb && negb reuseStorageVolume
                  then pvcs ++ [mkVct Z GaleraConfigVolume (vt_Requests vctpl)] else pvcs
  | None => pvcs
  end.

(** The type of the strategy; the options of [RollingUpdate] are not modelled. *)
Definition mariadbUpdateStrategy (mdb : MariaDB) : result string :=
  let type := us_Type (sp_UpdateStrategy (m_Spec mdb)) in
  if bool_decide (type = ReplicasFirstPrimaryLastUpdateType) then Ok "OnDelete"
  else if bool_decide (type = RollingUpdateUpdateType) then Ok "RollingUpdate"
  else if bool_decide (type = OnDeleteUpdateType) then Ok "OnDelete"
  else if bool_decide (type = NeverUpdateType) then Ok ""
  else Err (ErrNew "unsupported update strategy type").

Section storage.
Context `{MapRange} `{SliceSort} `{StatusConditions}.
Abbreviation C := (M MariaDB stop).

Definition base {A} (m : M MariaDB op A) : C A := hoistM (λ _ o, TBase o) m.

Definition BuildMariadbStatefulSet (mariadb : MariaDB) (key : NamespacedName)
    (podAnnotations : gmap string string) : C StsObject :=
  updateStrategy <- lift (mariadbUpdateStrategy mariadb) ;;
  podTemplate <- wrap "error building MariaDB Pod template" (call (TPodTemplate podAnnotations)) ;;
  ret (mkStsObject key (sp_Replicas (m_Spec mariadb)) updateStrategy podTemplate
         (mariadbVolumeClaimTemplates mariadb) false 0 0).

(** ** pkg/controller/statefulset *)
Definition ReconcileWithUpdates {S} (desiredSts : StsObject) (shouldUpdate : bool) : M S stop unit :=
  existingSts <- try (call (TGetSts (so_key desiredSts))) ;;
  match existingSts with
  | Err err =>
      if negb (IsNotFound err) then throw (ErrWrap "error getting StatefulSet" err)
      else wrap "error creating StatefulSet" (call (TCreateSts desiredSts))
  | Ok existingSts =>
      if so_Deleting existingSts then ret tt
      else if shouldUpdate then
        call (TPatchSts existingSts { existingSts with
          so_Template := so_Template desiredSts;
          so_UpdateStrategy := so_UpdateStrategy desiredSts;
          so_Replicas := so_Replicas desiredSts })
      else ret tt
  end.

(** ** The StatefulSet phase *)
Definition reconcileStatefulSet : C ctrl_Result :=
  mariadb <- get ;;
  let key := ObjectKey mariadb in
  updateAnnotations <- wrap "error getting Pod annotations" (call TUpdateAnnotations) ;;
  desiredSts <- wrap "error building StatefulSet" (BuildMariadbStatefulSet mariadb key updateAnnotations) ;;
  let shouldUpdate := negb (bool_decide (us_Type (sp_UpdateStrategy (m_Spec mariadb)) = NeverUpdateType)) in
  wrap "error reconciling StatefulSet" (ReconcileWithUpdates desiredSts shouldUpdate) ;;;
  base reconcileUpdates.

(** ** The Storage phase *)
Definition shouldReconcileStorage (mdb : MariaDB) : bool :=
  if IsRestoringBackup mdb || IsUpdating mdb || IsSwitchingPrimary mdb ||
     HasGaleraNotReadyCondition mdb || IsEphemeralStorageEnabled mdb
  then false else true.

Definition getStoragePVCs (mdb : MariaDB) : C (list PVC) :=
  wrap "error listing PVCs"
    (call (TListPVCs (WithPVCRole StorageVolumeRole (WithMariaDBSelectorLabels mdb ∅))
             (Namespace (m_meta mdb)))).

Definition resizeInUseVolumes (mdb : MariaDB) : bool :=
  default true (sto_ResizeInUseVolumes (sp_Storage (m_Spec mdb))).
Definition waitForVolumeResize (mdb : MariaDB) : bool :=
  default true (sto_WaitForVolumeResize (sp_Storage (m_Spec mdb))).

Definition resizeInUsePVCs (mariadb : MariaDB) (size : Z) : C unit :=
  if negb (resizeInUseVolumes mariadb) then ret tt else
  pvcs <- getStoragePVCs mariadb ;;
  for_each pvcs (λ pvc,
    wrap "error patching PVC"
      (call (TPatchPVC pvc { pvc with pvc_Requests := <[ ResourceStorage := size ]> (pvc_Requests pvc) }))).

Definition resizeStatefulSet (sts : StsObject) : C ctrl_Result :=
  wrap "error deleting StatefulSet" (call (TDeleteSts (so_key sts))) ;;;
  reconcileStatefulSet.

Definition waitForStorageResize : C ctrl_Result :=
  mdb <- get ;;
  pvcs <- (if resizeInUseVolumes mdb && waitForVolumeResize mdb then getStoragePVCs mdb else ret []) ;;
  if existsb IsResizing pvcs then ret (requeue_after (1 * Second)) else
  sts <- call (TGetSts (ObjectKey mdb)) ;;
  if negb (bool_decide (so_ReadyReplicas sts = sp_Replicas (m_Spec mdb)))
  then ret (requeue_after (1 * Second)) else
  wrap "error patching status" (base (patchStatus_m (λ m, SetReadyStorageResized (m_Status m)))) ;;;
  ret Result_zero.

Definition reconcileStorage : C ctrl_Result :=
  mariadb <- get ;;
  if negb (shouldReconcileStorage mariadb) then ret Result_zero else
  if IsWaitingForStorageResize mariadb then waitForStorageResize else
  existingSts <- call (TGetSts (ObjectKey mariadb)) ;;
  match GetStorageSize 0 (so_VolumeClaimTemplates existingSts) StorageVolume,
        GetSize (sp_Storage (m_Spec mariadb)) with
  | None, _ => throw (ErrNew "invalid existing storage size")
  | Some _, None => throw (ErrNew "invalid desired storage size")
  | Some existingSize, Some desiredSize =>
      if bool_decide (desiredSize = existingSize) then ret Result_zero else
      if bool_decide (desiredSize < existingSize) then throw (ErrNew "cannot decrease storage size") else
      wrap "error patching status" (base (patchStatus_m (λ m, SetReadyStorageResizing (m_Status m)))) ;;;
      mariadb <- get ;;
      resizeInUsePVCs mariadb desiredSize ;;;
      result <- resizeStatefulSet existingSts ;;
      if negb (Result_IsZero result) then ret result else
      wrap "error patching status" (base (patchStatus_m (λ m, SetReadyWaitingStorageResize (m_Status m)))) ;;;
      waitForStorageResize
  end.
End storage.

(** ** Properties *)
Section properties.
Context `{RANGE : MapRange} `{SORT : SliceSort} `{COND : StatusConditions}.

Definition sts_size (s : StsObject) : option Z :=
  GetStorageSize 0 (so_VolumeClaimTemplates s) StorageVolume.
Definition desired_size (m : MariaDB) : option Z := GetSize (sp_Storage (m_Spec m)).
(** The claim that requests the size, whatever it requested before. *)
Definition requesting (size : Z) (pvc : PVC) : PVC :=
  { pvc with pvc_Requests := <[ ResourceStorage := size ]> (pvc_Requests pvc) }.
(** The storage claims of the cluster, as they are listed. *)
Definition lists_claims (m : MariaDB) : stop (result (list PVC)) :=
  TListPVCs (WithPVCRole StorageVolumeRole (WithMariaDBSelectorLabels m ∅)) (Namespace (m_meta m)).

(** Events that leave the claims, the StatefulSet and the Pods alone. *)
Definition untouched (e : event stop) : Prop :=
  match ev_op e with
  | TCreateSts _ | TPatchSts _ _ | TDeleteSts _ | TPatchPVC _ _ | TBase (KDeletePod _) => False
  | _ => True
  end.
(** What a resize to [size] does: the listed claims request [size], the StatefulSet gets the claim
    templates of the spec or keeps its own, no Pod is deleted. *)
Definition resizes (m : MariaDB) (sts : StsObject) (size : Z) (claims : list PVC) (e : event stop) : Prop :=
  match ev_op e with
  | TPatchPVC old new => old ∈ claims ∧ new = requesting size old
  | TCreateSts s => so_VolumeClaimTemplates s = mariadbVolumeClaimTemplates m
  | TPatchSts old new => so_VolumeClaimTemplates new = so_VolumeClaimTemplates old
  | TDeleteSts key => key = so_key sts
  | TBase (KDeletePod _) => False
  | _ => True
  end.
(** The claims a run may patch: those it listed, and none when the volumes in use are to be left alone. *)
Definition listed (m : MariaDB) (claims : list PVC) (t : list (event stop)) : Prop :=
  claims = [] ∨ resizeInUseVolumes m = true ∧ Ev (lists_claims m) (Ok claims) ∈ t.
Definition claims_patched (m : MariaDB) (size : Z) (t : list (event stop)) : Prop :=
  resizeInUseVolumes m = true → ∃ claims, Ev (lists_claims m) (Ok claims) ∈ t ∧
    ∀ pvc, pvc ∈ claims → Ev (TPatchPVC pvc (requesting size pvc)) (Ok tt) ∈ t.
Definition deletes_sts (e : event stop) : Prop := match ev_op e with TDeleteSts _ => True | _ => False end.

Lemma listed_app m claims t t' : listed m claims t → listed m claims (t ++ t').
Proof. intros [Hc|[Hr Hin]]; [by left|right; split; [done|set_solver]]. Qed.
Lemma listed_cons m claims e t : listed m claims t → listed m claims (e :: t).
Proof. intros [Hc|[Hr Hin]]; [by left|right; split; [done|by right]]. Qed.

(** The status patch after which the object says that its storage is resized. *)
Definition announces (e : event stop) : Prop :=
  match ev_op e with
  | TBase (KPatchStatus _ m') => IsStatusConditionTrue (st_Conditions (m_Status m')) ConditionTypeStorageResized = true
  | _ => False
  end.
(** All the replicas are ready and, if the operator has to wait for them, no volume is
    still being resized. *)
Definition resized (m : MariaDB) (t : list (event stop)) : Prop :=
  (∃ sts, Ev (TGetSts (ObjectKey m)) (Ok sts) ∈ t ∧ so_ReadyReplicas sts = sp_Replicas (m_Spec m)) ∧
  (resizeInUseVolumes m = true → waitForVolumeResize m = true →
   ∃ claims, Ev (lists_claims m) (Ok claims) ∈ t ∧ ∀ pvc, pvc ∈ claims → IsResizing pvc = false).
Lemma resized_mono m t0 t : resized m t → resized m (t0 ++ t).
Proof.
  intros [(sts & Hs & Hr) Hw]. split; [exists sts; split; [apply elem_of_app; by right|done]|].
  intros H1 H2. destruct (Hw H1 H2) as (pvcs & Hl & Hall). exists pvcs.
  split; [apply elem_of_app; by right|done].
Qed.
Lemma resized_cons m e t : resized m t → resized m (e :: t).
Proof. apply (resized_mono m [e]). Qed.

Lemma wpM_base_patchStatus f m Q :
  (∀ r, let m' := { m with m_Status := f m } in Q [Ev (TBase (KPatchStatus m m')) r] m' r) →
  wpM (base (patchStatus_m f)) m Q.
Proof. done. Qed.
Ltac st_step :=
  lazymatch goal with
  | |- wpM (base (patchStatus_m _)) _ _ => apply wpM_base_patchStatus; intros [[]|e_patch] m_patch; cbn [app wrap_err]
  | _ => wp_step
  end.

(** While the storage is being resized the StatefulSet phase touches no Pod. *)
Lemma reconcileUpdates_resizing m Q :
  IsResizingStorage m = true → Q [] m (Ok Result_zero) → wpM (base reconcileUpdates) m Q.
Proof.
  intros Hr HQ. unfold base, wpM, hoistM, reconcileUpdates, bind, get. cbn.
  unfold shouldReconcileUpdates. rewrite Hr, orb_true_r. done.
Qed.

Lemma reconcileStatefulSet_resizing m sts size claims : IsResizingStorage m = true →
  wpM reconcileStatefulSet m (λ t m' _, m' = m ∧
    Forall (λ e, (resizes m sts size claims e ∧ ¬ deletes_sts e) ∧ ¬ announces e) t).
Proof.
  intros Hr. unfold reconcileStatefulSet, BuildMariadbStatefulSet, ReconcileWithUpdates.
  repeat lazymatch goal with
  | |- wpM (base reconcileUpdates) _ _ => apply reconcileUpdates_resizing; [done|]
  | _ => wp_step
  end.
  all: by split; [|repeat constructor; cbn; try done; intros []].
Qed.

Lemma waitForStorageResize_untouched m :
  wpM waitForStorageResize m (λ t _ _, Forall (λ e, untouched e ∧ ¬ deletes_sts e) t ∧
    guarded announces (resized m) t).
Proof.
  assert (∀ pvcs, existsb IsResizing pvcs = false → ∀ p, p ∈ pvcs → IsResizing p = false) as Hno.
  { intros pvcs Hex p Hp. apply not_true_iff_false. intros Hr. apply not_true_iff_false in Hex.
    apply Hex, existsb_exists. exists p. split; [by apply list_elem_of_In|done]. }
  unfold waitForStorageResize, getStoragePVCs. repeat st_step.
  all: split; [by repeat constructor; cbn; try done; intros []|].
  all: repeat (apply guarded_cons; [intros Hann|]); try apply guarded_nil; try by destruct Hann.
  all: apply negb_false_iff, bool_decide_eq_true in Heqb1.
  all: (split; [eexists; split; [apply list_elem_of_In; cbn; auto|done]|]).
  all: intros H1 H2; rewrite H1, H2 in Heqb; try done.
  all: eexists _; (split; [by left|by apply Hno]).
Qed.

Lemma resizeInUsePVCs_spec m sts size s :
  wpM (resizeInUsePVCs m size) s (λ t s' r, s' = s ∧ ∃ claims, listed m claims t ∧
    Forall (λ e, (resizes m sts size claims e ∧ ¬ deletes_sts e) ∧ ¬ announces e) t ∧
    (r = Ok tt → claims_patched m size t)).
Proof.
  unfold resizeInUsePVCs, getStoragePVCs, claims_patched, listed.
  destruct (resizeInUseVolumes m); cbn [negb]; [|wp_step; split; [done|]; exists []; by split_and!; [left|..]].
  do 3 wp_step.
  2: { split; [done|]. exists []. split_and!; [by left|repeat constructor; cbn; try done; intros []|done]. }
  fold (lists_claims m). set (ev := Ev _ _). rename a into pvcs.
  assert (∀ p x, p ∈ pvcs → (resizes m sts size pvcs (Ev (TPatchPVC p (requesting size p)) x) ∧ ¬ deletes_sts (Ev (TPatchPVC p (requesting size p)) x)) ∧
    ¬ announces (Ev (TPatchPVC p (requesting size p)) x)) as Hpatch by (intros p x Hp; split_and!; [done..|intros []|intros []]).
  assert (∀ t, Forall (λ e, (resizes m sts size pvcs e ∧ ¬ deletes_sts e) ∧ ¬ announces e) t →
    Forall (λ e, (resizes m sts size pvcs e ∧ ¬ deletes_sts e) ∧ ¬ announces e) (ev :: t)) as Hcons
    by (intros t Ht; constructor; [split_and!; [done|intros []..]|done]).
  apply wpM_for_each with (I := λ l t s', s' = s ∧
    Forall (λ e, (resizes m sts size pvcs e ∧ ¬ deletes_sts e) ∧ ¬ announces e) t ∧
    ∃ done_, pvcs = done_ ++ l ∧ ∀ p, p ∈ done_ → Ev (TPatchPVC p (requesting size p)) (Ok tt) ∈ t).
  - split; [done|split; [done|]]. exists []. split; [done|]. intros p Hp. by apply elem_of_nil in Hp.
  - intros p l t s' (-> & Ht & d & Hpv & Hd). assert (p ∈ pvcs) as Hp by (rewrite Hpv; set_solver).
    wp_step. apply wpM_call. intros [[]|e]; cbn [wrap_err]; fold (requesting size p).
    + split; [done|]. split; [apply Forall_app_2; [done|by constructor; [apply Hpatch|]]|].
      exists (d ++ [p]). split; [by rewrite <- app_assoc, Hpv|]. intros q. rewrite elem_of_app, list_elem_of_singleton.
      intros [Hq| ->]; apply elem_of_app; [left; by apply Hd|right; by left].
    + split; [done|]. exists pvcs. split_and!; [right; split; [done|by left]| |done].
      apply (Hcons (t ++ [Ev (TPatchPVC p (requesting size p)) (Err e)])), Forall_app_2; [done|]. by constructor; [apply Hpatch|].
  - intros t s' (-> & Ht & d & Hpv & Hd). split; [done|]. exists pvcs.
    split_and!; [right; split; [done|by left]|by apply Hcons|].
    intros _ _. rewrite app_nil_r in Hpv. subst d. exists pvcs. split; [by left|]. intros p Hp. right. auto.
Qed.

Lemma resizing_set m :
  IsResizingStorage { m with m_Status := SetReadyStorageResizing (m_Status m) } = true.
Proof.
  transitivity (IsStatusConditionFalse (conditions (SetReadyStorageResizing (m_Status m)))
    ConditionTypeStorageResized); [done|]. unfold SetReadyStorageResizing. by rewrite is_false_set.
Qed.

(** The steps after the status says that the storage is being resized. *)
Definition resize_steps (sts : StsObject) (size : Z) : M MariaDB stop ctrl_Result :=
  mariadb <- get ;;
  resizeInUsePVCs mariadb size ;;;
  result <- resizeStatefulSet sts ;;
  if negb (Result_IsZero result) then ret result else
  wrap "error patching status" (base (patchStatus_m (λ m, SetReadyWaitingStorageResize (m_Status m)))) ;;;
  waitForStorageResize.

Lemma resizes_quiet m sts size claims t : Forall (λ e, (resizes m sts size claims e ∧ ¬ deletes_sts e) ∧ ¬ announces e) t →
  Forall (λ e, resizes m sts size claims e ∧ ¬ deletes_sts e) t ∧ Forall (λ e, ¬ announces e) t.
Proof. by rewrite Forall_and. Qed.
Lemma untouched_resizes m sts size claims t : Forall (λ e, untouched e ∧ ¬ deletes_sts e) t →
  Forall (λ e, resizes m sts size claims e ∧ ¬ deletes_sts e) t.
Proof.
  intros Ht. eapply Forall_impl; [exact Ht|]. intros [X o a] [Hu Hd]. split; [|done].
  destruct o; cbn in *; try done.
Qed.

(** A resize: the claims, then the StatefulSet, then the announcement. *)
Definition resize_trace (m : MariaDB) (sts : StsObject) (size : Z) (claims : list PVC) (t : list (event stop)) : Prop :=
  Forall (resizes m sts size claims) t ∧ guarded deletes_sts (claims_patched m size) t ∧
  guarded announces (resized m) t.

Lemma resize_trace_quiet m sts size claims t :
  Forall (λ e, (resizes m sts size claims e ∧ ¬ deletes_sts e) ∧ ¬ announces e) t → resize_trace m sts size claims t.
Proof.
  intros [[H1 H2]%Forall_and H3]%resizes_quiet. split_and!; [done|by apply guarded_none..].
Qed.
Lemma resize_trace_delete m sts size claims t1 t2 x :
  Forall (λ e, (resizes m sts size claims e ∧ ¬ deletes_sts e) ∧ ¬ announces e) t1 → claims_patched m size t1 →
  Forall (λ e, resizes m sts size claims e ∧ ¬ deletes_sts e) t2 → guarded announces (resized m) t2 →
  resize_trace m sts size claims (t1 ++ Ev (TDeleteSts (so_key sts)) x :: t2).
Proof.
  intros [[H1 D1]%Forall_and A1]%resizes_quiet Hp [H2 D2]%Forall_and A2. split_and!.
  - apply Forall_app_2; [done|by constructor].
  - apply guarded_prepend; [done|]. apply guarded_cons; [by rewrite app_nil_r|by apply guarded_none].
  - apply guarded_prepend; [done|]. apply guarded_cons; [by intros []|].
    eapply guarded_mono; [|exact A2]. intros u Hu. by apply resized_mono, resized_cons.
Qed.

Lemma resize_steps_spec m sts size : IsResizingStorage m = true →
  wpM (resize_steps sts size) m (λ t _ _, ∃ claims, listed m claims t ∧ resize_trace m sts size claims t).
Proof.
  intros Hr. unfold resize_steps, resizeStatefulSet. do 3 st_step.
  eapply wpM_mono; [|apply (resizeInUsePVCs_spec m sts size)].
  intros t1 s1 [[]|e] (-> & claims & Hl & H1 & Hp); [|exists claims; split; [done|by apply resize_trace_quiet]].
  specialize (Hp eq_refl).
  apply (wpM_mono _ _ (λ t _ _, resize_trace m sts size claims (t1 ++ t)));
    [intros t ? ? Ht; exists claims; split; [by apply listed_app|done]|].
  do 4 st_step; [|by apply resize_trace_delete; try done; apply guarded_nil]. cbn [app].
  eapply wpM_mono; [|by apply (reconcileStatefulSet_resizing m sts size claims)].
  intros t2 s2 [result|e] [-> [H2 A2]%resizes_quiet];
    [|by apply resize_trace_delete; try done; apply guarded_none].
  st_step; [st_step; rewrite app_nil_r; by apply resize_trace_delete; try done; apply guarded_none|].
  assert (∀ x, ¬ announces (Ev (TBase (KPatchStatus m
    { m with m_Status := SetReadyWaitingStorageResize (m_Status m) })) x)) as Hwait.
  { intros x Ha. change (IsStatusConditionTrue (conditions (SetReadyWaitingStorageResize (m_Status m)))
      ConditionTypeStorageResized = true) in Ha. unfold SetReadyWaitingStorageResize in Ha.
    by rewrite is_true_set in Ha. }
  do 2 st_step. st_step.
  - eapply wpM_mono; [|apply waitForStorageResize_untouched]. intros t3 s3 r [H3 A3].
    apply resize_trace_delete; [done..| |].
    + apply Forall_app_2; [done|]. constructor; [split; [done|intros []]|]. by apply untouched_resizes.
    + apply guarded_prepend; [done|]. apply guarded_cons; [by intros ?%Hwait|].
      eapply guarded_mono; [|exact A3]. intros u Hu. by apply resized_mono, resized_cons.
  - apply resize_trace_delete; [done..| |].
    + apply Forall_app_2; [done|]. repeat constructor; [intros []].
    + apply guarded_none, Forall_app_2; [done|]. constructor; [apply Hwait|done].
Qed.

(** A run that resizes: it has read a StatefulSet whose volumes are smaller than the spec asks for. *)
Definition resizing_run (m : MariaDB) (t : list (event stop)) : Prop :=
  ∃ sts size size' claims t', t = Ev (TGetSts (ObjectKey m)) (Ok sts) :: t' ∧
    sts_size sts = Some size ∧ desired_size m = Some size' ∧ size < size' ∧ listed m claims t' ∧
    Forall (resizes m sts size' claims) t' ∧ guarded deletes_sts (claims_patched m size') t'.

Lemma reconcileStorage_spec m :
  wpM reconcileStorage m (λ t _ _, guarded announces (resized m) t ∧ (Forall untouched t ∨ resizing_run m t)).
Proof.
  assert (∀ x, ¬ announces (Ev (TBase (KPatchStatus m
    { m with m_Status := SetReadyStorageResizing (m_Status m) })) x)) as Hresizing.
  { intros x Ha. change (IsStatusConditionTrue (conditions (SetReadyStorageResizing (m_Status m)))
      ConditionTypeStorageResized = true) in Ha. unfold SetReadyStorageResizing in Ha.
    by rewrite is_true_set in Ha. }
  unfold reconcileStorage. do 2 st_step. st_step; [st_step; split; [apply guarded_nil|by left]|].
  st_step.
  { eapply wpM_mono; [|apply waitForStorageResize_untouched]. intros t m' r [Ht Ha]. split; [done|].
    left. apply Forall_and in Ht as [? _]. done. }
  st_step.
  assert (∀ x, guarded announces (resized m) [Ev (TGetSts (ObjectKey m)) x] ∧
    (Forall untouched [Ev (TGetSts (ObjectKey m)) x] ∨ resizing_run m [Ev (TGetSts (ObjectKey m)) x])) as Hread.
  { intros x. split; [apply guarded_none; by repeat constructor; intros []|left; by repeat constructor]. }
  st_step; [|apply Hread]. rename a into sts.
  destruct (GetStorageSize 0 (so_VolumeClaimTemplates sts) StorageVolume) as [size|] eqn:Hsize;
    [|st_step; apply Hread].
  destruct (GetSize (sp_Storage (m_Spec m))) as [size'|] eqn:Hsize'; [|st_step; apply Hread].
  case_bool_decide; [st_step; apply Hread|]. case_bool_decide; [st_step; apply Hread|].
  do 2 st_step. st_step.
  2: { split; [|left; by repeat constructor].
       apply guarded_none. constructor; [intros []|]. constructor; [apply Hresizing|done]. }
  eapply wpM_mono; [|apply (resize_steps_spec _ sts size' (resizing_set m))].
  intros t m' r (claims & Hl & Ht & Hg & Ha). split.
  - apply guarded_cons; [intros []|]. apply guarded_cons; [by intros ?%Hresizing|].
    eapply guarded_mono; [|exact Ha]. intros u Hu. by apply resized_cons, resized_cons.
  - right. eexists sts, size, size', claims, _. split; [done|].
    split_and!; [done|done|lia|by apply listed_cons|by constructor|]. apply guarded_cons; [intros []|].
    eapply guarded_mono; [|exact Hg]. intros u Hu Hin. destruct (Hu Hin) as (pvcs & Hlp & Hall).
    exists pvcs. split; [by right|]. intros p Hp'. right. auto.
Qed.

(** C38: the Storage phase resizes to the size of the spec or does nothing.  Either it leaves the
    claims, the StatefulSet and the Pods alone, or it has read a StatefulSet whose volumes are smaller
    than the spec asks for.  Then it patches only storage claims that it listed, and none when the
    volumes in use are to be left alone, to request the size of the spec; a StatefulSet it creates has
    the claim templates of the spec; no Pod is deleted; and the StatefulSet is deleted only after all
    the listed claims were patched.  A claim is not compared with the size it requested before: one
    that is already larger than the spec asks for is patched to request less
    ([larger_claim_shrinks]). *)
Theorem storage_resized_to_spec m :
  wpM reconcileStorage m (λ t _ _, Forall untouched t ∨ resizing_run m t).
Proof. eapply wpM_mono; [|apply reconcileStorage_spec]. by intros t m' r [_ ?]. Qed.

(** The status says that the storage is resized only after all the replicas of the
    StatefulSet were seen ready and, unless the spec says not to wait for the volumes, no
    claim was listed that is still being resized. *)
Theorem storage_resized_is_earned m :
  wpM reconcileStorage m (λ t _ _, guarded announces (resized m) t).
Proof. eapply wpM_mono; [|apply reconcileStorage_spec]. by intros t m' r [? _]. Qed.

Definition only_reads (e : event stop) : Prop := match ev_op e with TGetSts _ => True | _ => False end.

(** A resize that is interrupted after the StatefulSet was deleted is never finished.
    The status then says that the storage is being resized; once the StatefulSet phase has
    created the StatefulSet again, with the size of the spec, the Storage phase reads it and
    returns at once without touching the status, and no update is rolled out. *)
Theorem interrupted_resize_is_stuck m size :
  condition_false_because m ConditionTypeStorageResized ConditionReasonResizingStorage = true →
  desired_size m = Some size →
  shouldReconcileUpdates m = false ∧
  wpM reconcileStorage m (λ t m' r, (m' = m ∧ Forall only_reads t) ∨
    ∃ sts t', t = Ev (TGetSts (ObjectKey m)) (Ok sts) :: t' ∧ sts_size sts ≠ Some size).
Proof.
  unfold condition_false_because. intros Hc Hsize. destruct (FindStatusCondition _ _) as [c|] eqn:Hf; [|done].
  apply andb_true_iff in Hc as [Hst Hre]. apply bool_decide_eq_true in Hre. split.
  { unfold shouldReconcileUpdates, IsResizingStorage. by rewrite is_false_find, Hf, Hst, orb_true_r. }
  assert (∀ x, Forall only_reads [Ev (TGetSts (ObjectKey m)) x]) as Hread by by repeat constructor.
  unfold reconcileStorage. do 2 st_step.
  st_step; [st_step; by left|].
  unfold IsWaitingForStorageResize, condition_false_because. rewrite Hf, Hre, andb_false_r. cbv iota.
  st_step. st_step; [|cbn beta iota; left; eauto]. rename a into sts. unfold desired_size in Hsize. rewrite Hsize.
  destruct (GetStorageSize 0 (so_VolumeClaimTemplates sts) StorageVolume) as [n|] eqn:Hn; [|st_step; left; eauto].
  destruct (bool_decide (size = n)) eqn:Heq; [st_step; left; eauto|]. apply bool_decide_eq_false in Heq. st_step; [st_step; left; eauto|].
  eapply wpM_mono; [|apply wpM_True]. intros t m' r _. right. exists sts, t. split; [done|].
  unfold sts_size. rewrite Hn. congruence.
Qed.
End properties.

(** ** A resize whose StatefulSet cannot be created again *)
Definition vct_1 (size : Z) : VolumeClaimTemplateSpec :=
  mkVolumeClaimTemplateSpec {[ ResourceStorage := size ]} [ReadWriteOnce] None None.
Definition mdb_resize : MariaDB :=
  { MariaDB_zero meta_ex with
    m_Spec -> sp_Replicas := 1;
    m_Spec -> sp_UpdateStrategy := mkUpdateStrategy ReplicasFirstPrimaryLastUpdateType None None;
    m_Spec -> sp_Storage := Storage_SetDefaults (mkStorage None (Some 20) "" None None (Some (vct_1 10))) }.

(** The StatefulSet is there until it is deleted; it cannot be created. *)
Definition resize_env (created : result unit) (sts : StsObject) (pvcs : list PVC) : env stop := {|
  answer X h o :=
    match o in stop X return X with
    | TBase o => friendly mdb_resize [] 0 o
    | TUpdateAnnotations => Ok ∅
    | TPodTemplate _ => Ok "template"
    | TGetSts _ => if existsb (λ e, match ev_op e with TDeleteSts _ => true | _ => false end) h
                   then Err (ErrApi NotFound) else Ok sts
    | TListPVCs _ _ => Ok pvcs
    | TCreateSts _ => created
    | _ => Ok tt
    end;
  choice _ := false
|}.
Definition sts_10 : StsObject :=
  mkStsObject (ObjectKey mdb_resize) 1 "OnDelete" "template" [mkVct Z StorageVolume {[ ResourceStorage := 10 ]}] false 1 1.
Definition interrupted : MariaDB :=
  (run (resize_env (Err (ErrNew "quota")) sts_10 [mkPVC "storage-mariadb-0" {[ ResourceStorage := 10 ]} [] "Bound"])
     (reconcileStorage mdb_resize) []).2.1.

Lemma interrupted_resize_is_stuck_witness :
  condition_false_because interrupted ConditionTypeStorageResized ConditionReasonResizingStorage = true ∧
  desired_size interrupted = Some 20 ∧ shouldReconcileUpdates interrupted = false.
Proof.
  split; [|split]; [vm_compute; reflexivity..|].
  apply (interrupted_resize_is_stuck interrupted 20); vm_compute; reflexivity.
Defined.

(** The claims and the StatefulSet grow, and the object waits until no claim is resizing. *)
Definition grow_run (claims : list PVC) : list (event stop) * (MariaDB * result ctrl_Result) :=
  run (resize_env (Ok tt) sts_10 claims) (reconcileStorage mdb_resize) [].
Definition created_size (e : event stop) : option Z :=
  match ev_op e with TCreateSts s => sts_size s | _ => None end.
Example grow_run_waits :
  let r := grow_run [mkPVC "storage-mariadb-0" {[ ResourceStorage := 10 ]} [("Resizing", "True")] "Bound"] in
  omap created_size r.1 = [20] ∧ IsWaitingForStorageResize r.2.1 = true ∧
  r.2.2 = Ok (requeue_after (1 * Second)).
Proof. vm_compute. auto. Qed.

(** A claim of 50 that is listed in a resize of the cluster from 10 to 20. *)
Definition claim_requests (e : event stop) : option (option Z * option Z) :=
  match ev_op e with
  | TPatchPVC old new => Some (pvc_Requests old !! ResourceStorage, pvc_Requests new !! ResourceStorage)
  | _ => None
  end.
Example larger_claim_shrinks :
  omap claim_requests (grow_run [mkPVC "storage-mariadb-0" {[ ResourceStorage := 50 ]} [] "Bound"]).1 = [(Some 50, Some 20)].
Proof. by vm_compute. Qed.

(** ** The defaults of the storage *)
Definition default_template (s : Storage) : VolumeClaimTemplateSpec :=
  mkVolumeClaimTemplateSpec {[ ResourceStorage := default 0 (sto_Size s) ]} [ReadWriteOnce]
    (if negb (bool_decide (sto_StorageClassName s = "")) then Some (sto_StorageClassName s) else None) None.

Lemma Storage_SetDefaults_eq s :
  Storage_SetDefaults s =
  mkStorage (Some (default false (sto_Ephemeral s))) (sto_Size s) (sto_StorageClassName s)
    (match sto_ResizeInUseVolumes s with
     | None => if default false (sto_Ephemeral s) then None else Some true | o => o end)
    (match sto_WaitForVolumeResize s with
     | None => if default false (sto_Ephemeral s) then None else Some true | o => o end)
    (if shouldUpdateVolumeClaimTemplate s then Some (default_template s) else sto_VolumeClaimTemplate s).
Proof.
  destruct s as [[[]|] size class [r|] [w|] v]; unfold Storage_SetDefaults, default_template; cbn;
    unfold shouldUpdateVolumeClaimTemplate; cbn;
    (destruct size as [n|]; [|done]); (destruct v as [v|]; [|done]);
    lazymatch goal with |- (if ?b then _ else _) = _ => by destruct b end.
Qed.

Lemma default_template_size s n : sto_Size s = Some n → vt_size (default_template s) = Some n.
Proof. intros Hs. unfold vt_size, default_template. rewrite Hs. apply lookup_singleton_eq. Qed.

(** The template agrees with the size once the defaults are set. *)
Lemma defaulted_size s n : sto_Size s = Some n →
  sto_VolumeClaimTemplate (Storage_SetDefaults s) ≫= vt_size = Some n.
Proof.
  intros Hs. rewrite Storage_SetDefaults_eq. cbn. destruct (shouldUpdateVolumeClaimTemplate s) eqn:Hu;
    [by apply default_template_size|].
  unfold shouldUpdateVolumeClaimTemplate in Hu. rewrite Hs in Hu.
  destruct (sto_VolumeClaimTemplate s) as [v|]; [|done]. cbn. destruct (vt_size v) as [n'|]; [|done].
  destruct (bool_decide_reflect (n = n')); [by subst|done].
Qed.

Lemma defaulted_is_kept s : shouldUpdateVolumeClaimTemplate (Storage_SetDefaults s) = false.
Proof.
  rewrite Storage_SetDefaults_eq. unfold shouldUpdateVolumeClaimTemplate at 1. cbn.
  destruct (sto_Size s) as [n|] eqn:Hs; [|done].
  destruct (shouldUpdateVolumeClaimTemplate s) eqn:Hu.
  - rewrite (default_template_size s n Hs), bool_decide_eq_true_2 by done. cbn.
    destruct (decide (sto_StorageClassName s = "")) as [->|Hc]; [done|].
    rewrite (bool_decide_eq_false_2 _ Hc). cbn. by rewrite bool_decide_eq_true_2.
  - unfold shouldUpdateVolumeClaimTemplate in Hu. by rewrite Hs in Hu.
Qed.

(** After defaulting, the size of the spec is the size of the claim template, so the
    StatefulSet the operator builds has the volumes the spec asks for, and defaulting again
    changes nothing. *)
Theorem storage_defaults s m : sp_Storage (m_Spec m) = Storage_SetDefaults s →
  Storage_SetDefaults (Storage_SetDefaults s) = Storage_SetDefaults s ∧
  desired_size m = match sto_Size s with
                   | Some size => Some size
                   | None => sto_VolumeClaimTemplate s ≫= vt_size
                   end ∧
  (∀ size, IsEphemeralStorageEnabled m = false → desired_size m = Some size →
    GetStorageSize 0 (mariadbVolumeClaimTemplates m) StorageVolume = Some size).
Proof.
  intros Hm. assert (desired_size m = sto_VolumeClaimTemplate (sp_Storage (m_Spec m)) ≫= vt_size) as Hd.
  { unfold desired_size, GetSize. rewrite Hm. destruct (sto_Size s) as [n|] eqn:Hs.
    - pose proof (defaulted_size s n Hs) as Hv. destruct (sto_VolumeClaimTemplate _) as [v|]; [|done].
      change (vt_size v = Some n) in Hv. cbn. by rewrite Hv.
    - rewrite Storage_SetDefaults_eq. unfold shouldUpdateVolumeClaimTemplate. rewrite Hs. cbn.
      destruct (sto_VolumeClaimTemplate s) as [v|]; [|done]. cbn. by destruct (vt_size v). }
  split_and!.
  - rewrite (Storage_SetDefaults_eq (Storage_SetDefaults s)), defaulted_is_kept, Storage_SetDefaults_eq. cbn.
    by destruct s as [[[]|] size class [r|] [w|] v].
  - rewrite Hd, Hm. destruct (sto_Size s) as [n|] eqn:Hs; [by apply defaulted_size|].
    rewrite Storage_SetDefaults_eq. unfold shouldUpdateVolumeClaimTemplate. by rewrite Hs.
  - intros size He Hs. rewrite Hd in Hs. unfold mariadbVolumeClaimTemplates. rewrite He.
    destruct (sto_VolumeClaimTemplate _) as [v|]; [|done].
    change (vt_Requests v !! "storage" = Some size) in Hs.
    destruct (gc_VolumeClaimTemplate _); [destruct (_ && _)|]; cbn; by rewrite Hs.
Qed.
Lemma storage_defaults_witness :
  sto_Size (sp_Storage (m_Spec mdb_resize)) = Some 20 ∧ desired_size mdb_resize = Some 20.
Proof.
  split; [reflexivity|].
  exact (proj1 (proj2 (storage_defaults (mkStorage None (Some 20) "" None None (Some (vct_1 10)))
    mdb_resize eq_refl))).
Defined.

(** A size that differs from that of the template replaces the whole template, not only
    the size: its storage class, access modes and metadata are lost. *)
Lemma size_replaces_template s v n :
  sto_Size s = Some n → sto_VolumeClaimTemplate s = Some v → vt_size v ≠ Some n →
  sto_VolumeClaimTemplate (Storage_SetDefaults s) = Some (default_template s).
Proof.
  intros Hs Hv Hn. rewrite Storage_SetDefaults_eq. cbn. unfold shouldUpdateVolumeClaimTemplate.
  rewrite Hs, Hv. destruct (vt_size v) as [n'|]; [|done].
  by rewrite bool_decide_eq_false_2 by congruence.
Qed.
Example size_drops_storage_class :
  let s := mkStorage None (Some 20) "" None None
             (Some (mkVolumeClaimTemplateSpec {[ ResourceStorage := 10 ]} ["ReadWriteMany"] (Some "fast") None)) in
  sto_VolumeClaimTemplate (Storage_SetDefaults s) =
    Some (mkVolumeClaimTemplateSpec {[ ResourceStorage := 20 ]} [ReadWriteOnce] None None).
Proof. reflexivity. Qed.
