(* ===== verification/MariaDBDefaults.v ===== *)
(** * The Spec phase: the defaults of a MariaDB and the source it is restored from

    [MariaDB.SetDefaults] of api/v1alpha1/mariadb_types.go with what it calls (affinities,
    Galera, the images of the data plane), and [setSpecDefaults] of
    internal/controller/mariadb_controller.go, which also looks up the physical backup a new
    MariaDB is to be restored from.  The state is the MariaDB in memory; the library that parses
    image references is an interface ([DockerReference]). *)

From Stdlib Require Import Ascii.
From S2P Require Import Prelude GoStrings GoTime StatefulSet Conditions MariaDBTypes.
From S2P Require Import Concurrency Kube Health Backup PhysicalBackup StorageResize.

Local Open Scope Z_scope.
Local Open Scope go_scope.

(** ** github.com/distribution/reference
    A reference prints as text that parses to it, when its name is canonical; trimming drops
    what [WithTag] and [WithDigest] add. *)
Class DockerReference := {
  reference : Type;
  ref_Parse : string → result reference;
  ref_ParseNamed : string → result reference;
  TrimNamed : reference → reference;
  ref_Tag : reference → option string;
  ref_Digest : reference → option string;
  WithTag : reference → string → result reference;
  WithDigest : reference → string → result reference;
  ref_String : reference → string;
  ParseNamed_empty r : ref_ParseNamed "" ≠ Ok r;
  WithTag_canonical s n tag r : ref_ParseNamed s = Ok n → WithTag (TrimNamed n) tag = Ok r →
    ref_ParseNamed (ref_String r) = Ok r ∧ TrimNamed r = TrimNamed n;
  WithDigest_canonical s n digest r : ref_ParseNamed s = Ok n → WithDigest (TrimNamed n) digest = Ok r →
    ref_ParseNamed (ref_String r) = Ok r ∧ TrimNamed r = TrimNamed n
}.

(** ** pkg/docker *)
Section docker.
Context `{DockerReference}.

Definition GetTag (image : string) : result string :=
  ref ← wrap_err "error parsing reference" (ref_Parse image);
  match ref_Tag ref with
  | Some tag => Ok tag
  | None => Err (ErrNew "image does not have a tag")
  end.

Definition with_tag_or_digest (sourceRef targetRef : reference) : result reference :=
  match ref_Tag sourceRef, ref_Digest sourceRef with
  | Some tag, _ => wrap_err "error setting tag" (WithTag targetRef tag)
  | None, Some digest => wrap_err "error setting digest" (WithDigest targetRef digest)
  | None, None => Err (ErrNew "source image does not have tag nor digest")
  end.
Definition SetTagOrDigest (sourceImage targetImage : string) : result string :=
  sourceRef ← wrap_err "error parsing source reference" (ref_Parse sourceImage);
  targetRef ← wrap_err "error parsing target reference" (ref_ParseNamed targetImage);
  ref ← with_tag_or_digest sourceRef (TrimNamed targetRef);
  Ok (ref_String ref).
End docker.

(** ** api/v1alpha1/base_types.go *)
Definition AffinityConfig_SetDefaults (a : AffinityConfig) (antiAffinityInstances : list string) : AffinityConfig :=
  let antiAffinityEnabled := default false (aff_AntiAffinityEnabled a) in
  if antiAffinityEnabled && bool_decide (0 < length antiAffinityInstances)%nat &&
     negb (is_some (aff_PodAntiAffinity a)) then
    { a with aff_PodAntiAffinity := Some [mkPodAffinityTerm
        [mkLabelSelectorRequirement "app.kubernetes.io/instance" "In" antiAffinityInstances]
        "kubernetes.io/hostname"] }
  else a.

(** [PodTemplate.ServiceAccountKey] and [PodTemplate.SetDefaults], on the spec that embeds the template *)
Definition spec_ServiceAccountKey (p : MariaDBSpec) (objMeta : ObjectMeta) : NamespacedName :=
  mkNamespacedName (default (Name objMeta) (sp_ServiceAccountName p)) (Namespace objMeta).
Definition PodTemplate_SetDefaults (p : MariaDBSpec) (objMeta : ObjectMeta) : MariaDBSpec :=
  { p with
    sp_ServiceAccountName := or_default (sp_ServiceAccountName p) (Some (nn_Name (spec_ServiceAccountKey p objMeta)));
    sp_Affinity := (λ a, AffinityConfig_SetDefaults a [Name objMeta]) <$> sp_Affinity p }.

(** ** api/v1alpha1/mariadb_keys.go *)
Definition RootPasswordSecretKeyRef (m : MariaDB) : GeneratedSecretKeyRef :=
  mkGeneratedSecretKeyRef (mkSecretKeySelector (Name (m_meta m) +:+ "-root") "password") true.
Definition PasswordSecretKeyRef (m : MariaDB) : GeneratedSecretKeyRef :=
  mkGeneratedSecretKeyRef (mkSecretKeySelector (Name (m_meta m) +:+ "-password") "password") true.
Definition MyCnfConfigMapKeyRef (m : MariaDB) : SecretKeySelector :=
  mkSecretKeySelector (Name (m_meta m) +:+ "-config") "my.cnf".
Definition MetricsKey (m : MariaDB) : NamespacedName :=
  mkNamespacedName (Name (m_meta m) +:+ "-metrics") (Namespace (m_meta m)).
Definition MetricsPasswordSecretKeyRef (m : MariaDB) : GeneratedSecretKeyRef :=
  mkGeneratedSecretKeyRef (mkSecretKeySelector (Name (m_meta m) +:+ "-metrics-password") "password") true.
Definition MaxScaleKey (m : MariaDB) : NamespacedName :=
  mkNamespacedName (Name (m_meta m) +:+ "-maxscale") (Namespace (m_meta m)).

(** ** SetDefaults *)
Section defaults.
Context `{DockerReference}.

(** The images follow the one of the operator. *)
Definition bump_images (g : Galera) (env : OperatorEnv) : result Galera :=
  initBumped ← wrap_err "error bumping Galera init image"
    (SetTagOrDigest (env_MariadbOperatorImage env) (gi_Image (ga_InitContainer g)));
  agentBumped ← wrap_err "error bumping Galera agent image"
    (SetTagOrDigest (env_MariadbOperatorImage env) (agent_Image (ga_Agent g)));
  Ok { g with ga_InitContainer -> gi_Image := initBumped; ga_Agent -> agent_Image := agentBumped }.

(** The fields the source sets one after the other are independent. *)
Definition default_galera_fields (g : Galera) (agent : GaleraAgent) (env : OperatorEnv) : Galera :=
  { g with
    ga_SST := if bool_decide (ga_SST g = "") then SSTMariaBackup else ga_SST g;
    ga_AvailableWhenDonor := or_default (ga_AvailableWhenDonor g) (Some false);
    ga_GaleraLibPath := if bool_decide (ga_GaleraLibPath g = "") then env_MariadbGaleraLibPath env
                        else ga_GaleraLibPath g;
    ga_ReplicaThreads := if bool_decide (ga_ReplicaThreads g = 0) then 1 else ga_ReplicaThreads g;
    ga_InitContainer := if bool_decide (ga_InitContainer g = GaleraInit_zero)
                        then mkGaleraInit "" (env_MariadbOperatorImage env) "" else ga_InitContainer g;
    ga_Primary := PrimaryGalera_SetDefaults (ga_Primary g);
    ga_Agent := agent;
    ga_Config := GaleraConfig_SetDefaults (ga_Config g);
    ga_Recovery := (λ r, if gr_Enabled r then GaleraRecovery_SetDefaults r else r) <$>
                     or_default (ga_Recovery g) (Some { GaleraRecovery_zero with gr_Enabled := true }) }.

Definition Galera_SetDefaults (g : Galera) (mdb : MariaDB) (env : OperatorEnv) : result Galera :=
  agent ← wrap_err "error setting agent defaults" (GaleraAgent_SetDefaults (ga_Agent g) mdb env);
  let g := default_galera_fields g agent env in
  if default false (us_AutoUpdateDataPlane (sp_UpdateStrategy (m_Spec mdb)))
  then bump_images g env else Ok g.

(** The metrics, when they are enabled. *)
Definition default_metrics (m : MariaDB) (env : OperatorEnv) (mt : MariadbMetrics) : MariadbMetrics :=
  if negb (mt_Enabled mt) then mt else
  let ex := mt_Exporter mt in
  { mt with
    mt_Exporter := mkExporter
      (if bool_decide (ex_Image ex = "") then env_RelatedExporterImage env else ex_Image ex)
      (if bool_decide (ex_Port ex = 0) then 9104 else ex_Port ex)
      ((λ a, AffinityConfig_SetDefaults a [Name (m_meta m)]) <$> ex_Affinity ex);
    mt_Username := if bool_decide (mt_Username mt = "") then nn_Name (MetricsKey m) else mt_Username mt;
    mt_PasswordSecretKeyRef := if bool_decide (mt_PasswordSecretKeyRef mt = SecretKeyRef_zero)
                               then MetricsPasswordSecretKeyRef m else mt_PasswordSecretKeyRef mt }.

Definition default_password (m : MariaDB) (s : MariaDBSpec) : option GeneratedSecretKeyRef :=
  if is_some (sp_Username s) && negb (is_some (sp_PasswordSecretKeyRef s)) &&
     negb (is_some (sp_PasswordHashSecretKeyRef s)) && negb (is_some (sp_PasswordPlugin s))
  then Some (PasswordSecretKeyRef m) else sp_PasswordSecretKeyRef s.

(** The part before Galera: image, passwords, port, configuration, metrics, TLS, MaxScale. *)
Definition default_server (m : MariaDB) (env : OperatorEnv) : MariaDB :=
  let s := m_Spec m in
  { m with m_Spec := { s with
    sp_Image := if bool_decide (sp_Image s = "") then env_RelatedMariadbImage env else sp_Image s;
    sp_RootEmptyPassword := or_default (sp_RootEmptyPassword s) (Some false);
    sp_RootPasswordSecretKeyRef :=
      if bool_decide (sp_RootPasswordSecretKeyRef s = SecretKeyRef_zero) && negb (IsRootPasswordEmpty m)
      then RootPasswordSecretKeyRef m else sp_RootPasswordSecretKeyRef s;
    sp_Port := if bool_decide (sp_Port s = 0) then 3306 else sp_Port s;
    sp_MyCnfConfigMapKeyRef := if is_some (sp_MyCnf s) && negb (is_some (sp_MyCnfConfigMapKeyRef s))
                               then Some (MyCnfConfigMapKeyRef m) else sp_MyCnfConfigMapKeyRef s;
    sp_PasswordSecretKeyRef := default_password m s;
    sp_Metrics := default_metrics m env <$> sp_Metrics s;
    sp_TLS := or_default (sp_TLS s) (Some { TLS_zero with tls_Enabled := true });
    sp_MaxScaleRef := if default false (sp_MaxScale s) && negb (is_some (sp_MaxScaleRef s))
                      then Some (mkObjectReference (nn_Name (MaxScaleKey m)) (Namespace (m_meta m)))
                      else sp_MaxScaleRef s } }.

Definition default_galera (m : MariaDB) (env : OperatorEnv) : result MariaDB :=
  match sp_Galera (m_Spec m) with
  | Some g =>
      if ga_Enabled g then
        g ← wrap_err "error setting Galera defaults" (Galera_SetDefaults g m env);
        Ok { m with m_Spec -> sp_Galera := Some g }
      else Ok m
  | None => Ok m
  end.

(** The part after Galera: the bootstrap source, the updates, the storage and the Pods. *)
Definition default_rest (m : MariaDB) : MariaDB :=
  let s := m_Spec m in
  { m with m_Spec := PodTemplate_SetDefaults { s with
    sp_BootstrapFrom := (λ b, BootstrapFrom_SetDefaults b (PhysicalBackupStagingPVCKey m)) <$> sp_BootstrapFrom s;
    sp_UpdateStrategy := if bool_decide (sp_UpdateStrategy s = UpdateStrategy_zero)
                         then UpdateStrategy_SetDefaults (sp_UpdateStrategy s) else sp_UpdateStrategy s;
    sp_Storage := Storage_SetDefaults (sp_Storage s) } (m_meta m) }.

Definition MariaDB_SetDefaults (m : MariaDB) (env : OperatorEnv) : result MariaDB :=
  m ← default_galera (default_server m env) env;
  Ok (default_rest m).
End defaults.

(** ** Restore sources: api/v1alpha1/mariadb_types.go *)
Definition BootstrapFrom_SetDefaultsWithPhysicalBackup (b : BootstrapFrom) (physicalBackup : PhysicalBackup) :
    result BootstrapFrom :=
  volume ← wrap_err "error getting BackupSource volume" (PhysicalBackup_Volume physicalBackup);
  Ok { b with bf_Volume := Some volume; bf_S3 := pst_S3 (pb_Storage (pb_Spec physicalBackup)) }.

(** A reference to a Backup is its name. *)
Record RestoreSource := mkRestoreSource {
  rsrc_BackupRef : option string;
  rsrc_S3 : option string;
  rsrc_Volume : option StorageVolumeSource;
  rsrc_TargetRecoveryTime : option Z;
  rsrc_StagingStorage : option BackupStagingStorage
}.
Definition BootstrapFrom_RestoreSource (b : BootstrapFrom) : result RestoreSource :=
  backupRef ← match bf_BackupRef b with
              | Some ref =>
                  if bool_decide (tlor_Kind ref = PhysicalBackupKind)
                  then Err (ErrNew "restoration from physical backups via RestoreSource is not supported")
                  else Ok (Some (tlor_Name ref))
              | None => Ok None
              end;
  Ok (mkRestoreSource backupRef (bf_S3 b) (bf_Volume b) (bf_TargetRecoveryTime b) (bf_StagingStorage b)).

(** ** internal/controller/mariadb_controller.go *)
Section phase.
Context `{DockerReference} `{StatusConditions} `{SliceSort}.
Abbreviation C := (M MariaDB pbop).

Definition ListReadyVolumeSnapshots (backup : PhysicalBackup) : C (list VolumeSnapshot) :=
  snapshots <- wrap "error listing VolumeSnapshots"
    (call (PListSnapshots (Namespace (pb_meta backup)) (WithPhysicalBackupSelectorLabels backup ∅))) ;;
  ret (filter (λ s, IsVolumeSnapshotReady s = true) snapshots).

Definition getTargetVolumeSnapshot (backup : PhysicalBackup) (targetRecoveryTime : option Z) : C string :=
  if negb (is_some (pst_VolumeSnapshot (pb_Storage (pb_Spec backup))))
  then throw (ErrNew "VolumeSnapshot must be used as storage in PhysicalBackup") else
  snapshots <- wrap "error listing ready VolumeSnapshots" (ListReadyVolumeSnapshots backup) ;;
  now <- ask (PBase TimeNow) ;;
  let recoveryTime := default now targetRecoveryTime in
  wrap "error getting target VolumeSnapshot"
    (lift (GetBackupTargetFile PB.backupProcessor (vs_Name <$> snapshots) recoveryTime)).

(** The source taken from the backup. *)
Definition source_from_backup (b : BootstrapFrom) (physicalBackup : PhysicalBackup) : C BootstrapFrom :=
  if is_some (pst_VolumeSnapshot (pb_Storage (pb_Spec physicalBackup))) then
    targetSnapshot <- wrap "error getting target VolumeSnapshot"
      (getTargetVolumeSnapshot physicalBackup (bf_TargetRecoveryTime b)) ;;
    ret (BootstrapFrom_SetDefaultsWithVolumeSnapshotRef b targetSnapshot)
  else lift (BootstrapFrom_SetDefaultsWithPhysicalBackup b physicalBackup).

Definition set_bootstrap (b : BootstrapFrom) : C unit :=
  modify (λ m, { m with m_Spec -> sp_BootstrapFrom := Some b }).

(** The source that is still to be looked up, by the name of its backup. *)
Definition pending_backup (mdb : MariaDB) : option (BootstrapFrom * string) :=
  match sp_BootstrapFrom (m_Spec mdb) with
  | None => None
  | Some b =>
      if BootstrapFrom_IsDefaulted b then None else
      let backupRef := default (mkTypedLocalObjectReference "" "") (bf_BackupRef b) in
      if bool_decide (tlor_Kind backupRef = PhysicalBackupKind) then Some (b, tlor_Name backupRef) else None
  end.

(** When the defaults cannot be computed, the object is left half defaulted; the run then ends. *)
Definition spec_patcher (env : OperatorEnv) : C unit :=
  mdb <- get ;;
  mdb <- lift (MariaDB_SetDefaults mdb env) ;;
  modify (λ _, mdb) ;;;
  match pending_backup mdb with
  | None => ret tt
  | Some (b, backupName) =>
      physicalBackup <- call (PGetBackup (mkNamespacedName backupName (Namespace (m_meta mdb)))) ;;
      b <- source_from_backup b physicalBackup ;;
      set_bootstrap (BootstrapFrom_SetDefaults b (PhysicalBackupStagingPVCKey mdb))
  end.

Definition setSpecDefaults (env : OperatorEnv) : C ctrl_Result :=
  base <- get ;;
  spec_patcher env ;;;
  m <- get ;;
  call (PBase (KPatchMariaDB base m)) ;;;
  ret Result_zero.
End phase.

(** ** Properties *)
Section stable.
Context `{DockerReference} (env : OperatorEnv).

Lemma Ok_inj {A} (a b : A) : Ok a = Ok b → a = b.
Proof. congruence. Qed.

Lemma SetTagOrDigest_idem source target image :
  SetTagOrDigest source target = Ok image → SetTagOrDigest source image = Ok image ∧ image ≠ "".
Proof.
  unfold SetTagOrDigest. intros (src & ->%wrap_err_Ok & (n & Hn%wrap_err_Ok & (r & Hr & [= <-])
    %result_bind_Ok)%result_bind_Ok)%result_bind_Ok. cbn.
  assert (ref_ParseNamed (ref_String r) = Ok r ∧ TrimNamed r = TrimNamed n) as [Hp Ht].
  { unfold with_tag_or_digest in Hr. destruct (ref_Tag src); [|destruct (ref_Digest src); [|done]];
      apply wrap_err_Ok in Hr; [by eapply WithTag_canonical|by eapply WithDigest_canonical]. }
  rewrite Hp. cbn. rewrite Ht, Hr. split; [done|]. intros He. rewrite He in Hp. by eapply ParseNamed_empty.
Qed.

Lemma AffinityConfig_SetDefaults_idem l a :
  AffinityConfig_SetDefaults (AffinityConfig_SetDefaults a l) l = AffinityConfig_SetDefaults a l.
Proof. destruct a as [o [t|] [[]|]]; unfold AffinityConfig_SetDefaults; cbn; try done; by case_bool_decide. Qed.

Lemma zero_default_idem {A} `{EqDecision A} (x z v : A) :
  let d y := if bool_decide (y = z) then v else y in d (d x) = d x.
Proof. cbn. destruct (bool_decide_reflect (x = z)) as [->|]; [by case_bool_decide|]. by rewrite bool_decide_false. Qed.

Lemma fmap_idem {A} (f : A → A) (o : option A) : (∀ a, f (f a) = f a) → f <$> (f <$> o) = f <$> o.
Proof. intros Hf. destruct o; cbn; by rewrite ?Hf. Qed.

Lemma default_template_settled s : shouldUpdateVolumeClaimTemplate s = true →
  ∀ e r w, shouldUpdateVolumeClaimTemplate
    (mkStorage e (sto_Size s) (sto_StorageClassName s) r w (Some (default_template s))) = false.
Proof.
  destruct s as [e0 [size|] class r0 w0 v]; [|done]. intros _ e r w.
  unfold shouldUpdateVolumeClaimTemplate. cbn [sto_Size sto_VolumeClaimTemplate sto_StorageClassName].
  rewrite (default_template_size _ size) by done. rewrite bool_decide_true by done. cbn.
  destruct (bool_decide (class = "")); [done|]. cbn. by rewrite bool_decide_true.
Qed.

Lemma fmap_or_default_idem {A} (f : A → A) (o : option A) (d : A) : (∀ a, f (f a) = f a) →
  f <$> or_default (f <$> or_default o (Some d)) (Some d) = f <$> or_default o (Some d).
Proof. intros Hf. destruct o; cbn; by rewrite ?Hf. Qed.

Lemma Storage_SetDefaults_idem s : Storage_SetDefaults (Storage_SetDefaults s) = Storage_SetDefaults s.
Proof.
  rewrite (Storage_SetDefaults_eq s), Storage_SetDefaults_eq. cbn [sto_Ephemeral sto_Size sto_StorageClassName
    sto_ResizeInUseVolumes sto_WaitForVolumeResize sto_VolumeClaimTemplate default].
  destruct (shouldUpdateVolumeClaimTemplate s) eqn:Hu.
  - rewrite default_template_settled by done.
    by destruct (sto_Ephemeral s) as [[]|], (sto_ResizeInUseVolumes s), (sto_WaitForVolumeResize s).
  - destruct s as [e size class r w v]. unfold shouldUpdateVolumeClaimTemplate in *. cbn in *. rewrite Hu.
    by destruct e as [[]|], r, w.
Qed.

Lemma BasicAuth_SetDefaults_idem m b :
  BasicAuth_SetDefaults (BasicAuth_SetDefaults b m) m = BasicAuth_SetDefaults b m.
Proof.
  destruct b as [[] user ref]; [|done]. unfold BasicAuth_SetDefaults at 2. cbn [negb ba_Enabled ba_Username ba_PasswordSecretKeyRef].
  unfold BasicAuth_SetDefaults. cbn [negb ba_Enabled ba_Username ba_PasswordSecretKeyRef]. f_equal.
  - by destruct (bool_decide (user = "")) eqn:E; rewrite ?E.
  - destruct (bool_decide (ref = SecretKeyRef_zero)) eqn:E; rewrite ?E; [|done].
    rewrite bool_decide_false; [done|]. by destruct (Name (m_meta m)).
Qed.

Lemma GaleraConfig_SetDefaults_idem g : GaleraConfig_SetDefaults (GaleraConfig_SetDefaults g) = GaleraConfig_SetDefaults g.
Proof. by destruct g as [[[]|] [v|]]. Qed.
Lemma PrimaryGalera_SetDefaults_idem g : PrimaryGalera_SetDefaults (PrimaryGalera_SetDefaults g) = PrimaryGalera_SetDefaults g.
Proof. by destruct g as [[] []]. Qed.
Lemma GaleraRecovery_SetDefaults_idem g :
  GaleraRecovery_SetDefaults (GaleraRecovery_SetDefaults g) = GaleraRecovery_SetDefaults g.
Proof. unfold GaleraRecovery_SetDefaults. destruct g. cbn. by rewrite !or_default_idem. Qed.

Lemma BasicAuth_SetDefaults_meta b m m' : m_meta m' = m_meta m →
  BasicAuth_SetDefaults b m' = BasicAuth_SetDefaults b m.
Proof. intros Hm. unfold BasicAuth_SetDefaults, AgentAuthSecretKeyRef. by rewrite Hm. Qed.

Lemma default_auth_settled only r img port probe m m' w : m_meta m' = m_meta m →
  default_auth only (mkGaleraAgent img port probe (default_auth only r).1
    ((λ b, BasicAuth_SetDefaults b m) <$> (default_auth only r).2) w) =
  ((default_auth only r).1, (λ b, BasicAuth_SetDefaults b m) <$> (default_auth only r).2).
Proof. intros Hm. destruct r as [i p q [k|] [b|] t], only; reflexivity. Qed.

(** The agent is settled, whatever its image is bumped to. *)
Lemma GaleraAgent_settled a a' m m' image : GaleraAgent_SetDefaults a m env = Ok a' → m_meta m' = m_meta m →
  (image = "" → image = agent_Image a') →
  GaleraAgent_SetDefaults { a' with agent_Image := image } m' env = Ok { a' with agent_Image := image }.
Proof.
  unfold GaleraAgent_SetDefaults. intros (only & Honly & Ha)%result_bind_Ok Hm Himage.
  rewrite Honly. cbn [mbind result_bind]. destruct (default_auth only a) as [k b] eqn:Hauth.
  injection Ha as <-.
  pose proof (default_auth_settled only a image (if bool_decide (agent_Port a = 0) then 5555 else agent_Port a)
    (if bool_decide (agent_ProbePort a = 0) then 5566 else agent_ProbePort a) m m'
    (or_default (agent_GracefulShutdownTimeout a) (Some (1 * Second))) Hm) as Hset.
  rewrite Hauth in Hset. cbn [fst snd] in Hset. cbn -[or_default default_auth Second]. unfold constant. rewrite Hset. f_equal. clear Hset Hauth.
  assert ((λ b, BasicAuth_SetDefaults b m') <$> ((λ b, BasicAuth_SetDefaults b m) <$> b) =
          (λ b, BasicAuth_SetDefaults b m) <$> b) as ->.
  { destruct b as [b|]; [|done]. cbn. f_equal.
    rewrite (BasicAuth_SetDefaults_meta _ m m') by done. apply BasicAuth_SetDefaults_idem. }
  cbn in Himage. f_equal.
  - destruct (bool_decide_reflect (image = "")) as [->|]; [|done]. specialize (Himage eq_refl).
    by destruct (bool_decide_reflect (agent_Image a = "")) as [_|Hne]; [|destruct Hne].
  - by destruct (bool_decide (agent_Port a = 0)) eqn:E; rewrite ?E.
  - by destruct (bool_decide (agent_ProbePort a = 0)) eqn:E; rewrite ?E.
  - by destruct (agent_GracefulShutdownTimeout a).
Qed.

(** Galera is settled, in a MariaDB of the same name that updates its data plane alike. *)
Definition autoUpdate (m : MariaDB) : bool := default false (us_AutoUpdateDataPlane (sp_UpdateStrategy (m_Spec m))).

Lemma default_galera_fields_settled g a image image' m m' : GaleraAgent_SetDefaults (ga_Agent g) m env = Ok a →
  m_meta m' = m_meta m → (image = "" → image = agent_Image a) →
  (image' = "" → image' = gi_Image (ga_InitContainer (default_galera_fields g a env))) →
  let g' := { default_galera_fields g a env with
    ga_InitContainer -> gi_Image := image'; ga_Agent -> agent_Image := image } in
  GaleraAgent_SetDefaults (ga_Agent g') m' env = Ok (ga_Agent g') ∧
  default_galera_fields g' (ga_Agent g') env = g'.
Proof.
  intros Ha Hm Hi Hi' g'. split; [by eapply GaleraAgent_settled|]. subst g'.
  destruct g as [en pri sst donor threads opts lib agent rec init cfg]. unfold default_galera_fields. cbn. unfold constant.
  f_equal.
  - apply PrimaryGalera_SetDefaults_idem.
  - apply zero_default_idem.
  - apply or_default_idem.
  - apply zero_default_idem.
  - apply zero_default_idem.
  - apply fmap_or_default_idem. intros r. destruct (gr_Enabled r) eqn:E; [|by rewrite E].
    change (gr_Enabled (GaleraRecovery_SetDefaults r)) with (gr_Enabled r). rewrite E. apply GaleraRecovery_SetDefaults_idem.
  - cbn in Hi'. destruct (bool_decide_reflect (init = GaleraInit_zero)) as [->|Hne]; cbn in *.
    + destruct (bool_decide_reflect (image' = "")) as [->|]; [by rewrite <- Hi'|]. by rewrite bool_decide_false by (unfold GaleraInit_zero; congruence).
    + destruct init as [c i p]. cbn in *. rewrite bool_decide_false; [done|]. intros [= -> -> ->].
      rewrite <- Hi' in Hne by done. by destruct Hne.
  - apply GaleraConfig_SetDefaults_idem.
Qed.

Lemma same_images g : { g with ga_InitContainer -> gi_Image := gi_Image (ga_InitContainer g);
  ga_Agent -> agent_Image := agent_Image (ga_Agent g) } = g.
Proof. by destruct g as [? ? ? ? ? ? ? [] ? [] ?]. Qed.

Lemma Galera_SetDefaults_settled g g' m m' : Galera_SetDefaults g m env = Ok g' →
  m_meta m' = m_meta m → autoUpdate m' = autoUpdate m → Galera_SetDefaults g' m' env = Ok g'.
Proof.
  unfold Galera_SetDefaults. fold (autoUpdate m). fold (autoUpdate m').
  intros (a & Ha%wrap_err_Ok & Hg)%result_bind_Ok Hm ->. destruct (autoUpdate m).
  - unfold bump_images in Hg. apply result_bind_Ok in Hg as (i & [Hi Hi0]%wrap_err_Ok%SetTagOrDigest_idem & Hg).
    apply result_bind_Ok in Hg as (j & [Hj Hj0]%wrap_err_Ok%SetTagOrDigest_idem & <-%Ok_inj).
    destruct (default_galera_fields_settled g a j i m m') as [H1 H2]; [done..|].
    rewrite H1. cbn [wrap_err mbind result_bind]. rewrite H2. unfold bump_images.
    set (g1 := { default_galera_fields g a env with ga_InitContainer -> gi_Image := i; ga_Agent -> agent_Image := j }).
    change (gi_Image (ga_InitContainer g1)) with i. change (agent_Image (ga_Agent g1)) with j.
    rewrite Hi, Hj. reflexivity.
  - apply Ok_inj in Hg as <-.
    destruct (default_galera_fields_settled g a (agent_Image a)
      (gi_Image (ga_InitContainer (default_galera_fields g a env))) m m') as [H1 H2]; [done..|].
    set (g1 := { default_galera_fields g a env with ga_InitContainer -> gi_Image := _; ga_Agent -> agent_Image := _ }) in H1, H2.
    assert (g1 = default_galera_fields g a env) as ->.
    { apply (same_images (default_galera_fields g a env)). }
    rewrite H1. cbn [wrap_err mbind result_bind]. by rewrite H2.
Qed.

Lemma default_metrics_idem m m' mt : m_meta m' = m_meta m →
  default_metrics m' env (default_metrics m env mt) = default_metrics m env mt.
Proof.
  intros Hm. destruct mt as [[] ex user ref]; [|done]. unfold default_metrics, MetricsKey, MetricsPasswordSecretKeyRef.
  rewrite Hm. cbn. unfold constant. f_equal; [f_equal| |].
  - apply zero_default_idem.
  - apply zero_default_idem.
  - apply fmap_idem, AffinityConfig_SetDefaults_idem.
  - apply zero_default_idem.
  - apply zero_default_idem.
Qed.

(** What the first part of the defaults reads and writes. *)
Definition server_view (s : MariaDBSpec) :=
  (sp_Image s, sp_RootEmptyPassword s, sp_RootPasswordSecretKeyRef s, sp_Port s, sp_MyCnf s,
   sp_MyCnfConfigMapKeyRef s, (sp_Username s, sp_PasswordSecretKeyRef s, sp_PasswordHashSecretKeyRef s,
   sp_PasswordPlugin s), sp_Metrics s, sp_TLS s, sp_MaxScale s, sp_MaxScaleRef s).

Lemma server_update_id m image empty root port cnf pw metrics tls mxs :
  image = sp_Image (m_Spec m) → empty = sp_RootEmptyPassword (m_Spec m) →
  root = sp_RootPasswordSecretKeyRef (m_Spec m) → port = sp_Port (m_Spec m) →
  cnf = sp_MyCnfConfigMapKeyRef (m_Spec m) → pw = sp_PasswordSecretKeyRef (m_Spec m) →
  metrics = sp_Metrics (m_Spec m) → tls = sp_TLS (m_Spec m) → mxs = sp_MaxScaleRef (m_Spec m) →
  { m with m_Spec := { m_Spec m with
    sp_Image := image; sp_RootEmptyPassword := empty; sp_RootPasswordSecretKeyRef := root; sp_Port := port;
    sp_MyCnfConfigMapKeyRef := cnf; sp_PasswordSecretKeyRef := pw; sp_Metrics := metrics; sp_TLS := tls;
    sp_MaxScaleRef := mxs } } = m.
Proof. intros -> -> -> -> -> -> -> -> ->. by destruct m as [? [] ? ?]. Qed.

Lemma default_server_settled m m' : m_meta m' = m_meta m →
  server_view (m_Spec m') = server_view (m_Spec (default_server m env)) → default_server m' env = m'.
Proof.
  intros Hm Hv. unfold server_view in Hv.
  injection Hv as Hi He Hr Hp Hc Hcr Hu Hpw Hph Hpl Hmt Ht Hx Hxr.
  apply server_update_id; unfold default_password, IsRootPasswordEmpty;
    rewrite ?Hi, ?He, ?Hr, ?Hp, ?Hc, ?Hcr, ?Hu, ?Hpw, ?Hph, ?Hpl, ?Hmt, ?Ht, ?Hx, ?Hxr.
  - apply zero_default_idem.
  - apply or_default_idem.
  - unfold constant, IsRootPasswordEmpty, or_default.
    destruct (bool_decide_reflect (sp_RootPasswordSecretKeyRef (m_Spec m) = SecretKeyRef_zero)) as [Hz|Hz];
      destruct (sp_RootEmptyPassword (m_Spec m)) as [[]|]; cbn [andb negb];
      rewrite ?(bool_decide_false (RootPasswordSecretKeyRef m = SecretKeyRef_zero))
        by (unfold RootPasswordSecretKeyRef, SecretKeyRef_zero; congruence);
      rewrite ?bool_decide_true by done; rewrite ?bool_decide_false by done; reflexivity.
  - apply zero_default_idem.
  - unfold constant. change (match m_Spec m with {| sp_MyCnf := c |} => c end) with (sp_MyCnf (m_Spec m)).
    by destruct (sp_MyCnf (m_Spec m)), (sp_MyCnfConfigMapKeyRef (m_Spec m)).
  - unfold constant, default_password. change (match m_Spec m with {| sp_Username := c |} => c end) with (sp_Username (m_Spec m)).
    change (match m_Spec m with {| sp_PasswordHashSecretKeyRef := c |} => c end) with (sp_PasswordHashSecretKeyRef (m_Spec m)).
    change (match m_Spec m with {| sp_PasswordPlugin := c |} => c end) with (sp_PasswordPlugin (m_Spec m)).
    by destruct (sp_Username (m_Spec m)), (sp_PasswordSecretKeyRef (m_Spec m)),
      (sp_PasswordHashSecretKeyRef (m_Spec m)), (sp_PasswordPlugin (m_Spec m)).
  - unfold constant. destruct (sp_Metrics (m_Spec m)) as [mt|]; [|done]. cbn. f_equal. by apply default_metrics_idem.
  - apply or_default_idem.
  - unfold constant, MaxScaleKey. change (match m_Spec m with {| sp_MaxScale := c |} => c end) with (sp_MaxScale (m_Spec m)).
    by destruct (sp_MaxScale (m_Spec m)) as [[]|], (sp_MaxScaleRef (m_Spec m)).
Qed.

Lemma BootstrapFrom_SetDefaults_idem b key :
  BootstrapFrom_SetDefaults (BootstrapFrom_SetDefaults b key) key = BootstrapFrom_SetDefaults b key.
Proof.
  assert (∀ b', bf_BackupContentType b' ≠ "" → default_BackupContentType b' = bf_BackupContentType b') as Hset.
  { intros b' Hne. unfold default_BackupContentType.
    destruct (bf_BackupRef b'), (bf_VolumeSnapshotRef b'); cbn; by rewrite !(bool_decide_false _ Hne). }
  assert (default_BackupContentType b ≠ "") as Hne.
  { unfold default_BackupContentType. set (t := if _ && _ then _ else _). destruct (bool_decide_reflect (t = "")); [discriminate|done]. }
  unfold BootstrapFrom_SetDefaults.
  set (b1 := { b with bf_BackupContentType := default_BackupContentType b }).
  assert (bf_BackupContentType b1 = default_BackupContentType b) as H1 by done.
  destruct (bool_decide (bf_BackupContentType b1 = BackupContentTypePhysical) && is_some (bf_S3 b1)) eqn:E.
  - set (b2 := { b1 with bf_Volume := _ }). assert (bf_BackupContentType b2 = bf_BackupContentType b1) as H2 by done.
    rewrite Hset by congruence.
    assert ({ b2 with bf_BackupContentType := bf_BackupContentType b2 } = b2) as -> by by destruct b.
    change (bf_BackupContentType b2) with (bf_BackupContentType b1). change (bf_S3 b2) with (bf_S3 b1). by rewrite E.
  - rewrite Hset by congruence.
    assert ({ b1 with bf_BackupContentType := bf_BackupContentType b1 } = b1) as -> by by destruct b. by rewrite E.
Qed.

(** The part of the spec the rest of the defaults writes, without the bootstrap source. *)
Definition rest_view (s : MariaDBSpec) :=
  (sp_UpdateStrategy s, sp_Storage s, sp_ServiceAccountName s, sp_Affinity s).

Lemma rest_update_id m b u sto sa aff :
  b = sp_BootstrapFrom (m_Spec m) → u = sp_UpdateStrategy (m_Spec m) → sto = sp_Storage (m_Spec m) →
  sa = sp_ServiceAccountName (m_Spec m) → aff = sp_Affinity (m_Spec m) →
  { m with m_Spec := { m_Spec m with sp_BootstrapFrom := b; sp_UpdateStrategy := u; sp_Storage := sto;
    sp_ServiceAccountName := sa; sp_Affinity := aff } } = m.
Proof. intros -> -> -> -> ->. by destruct m as [? [] ? ?]. Qed.

Lemma default_rest_settled m m' : m_meta m' = m_meta m →
  (λ b, BootstrapFrom_SetDefaults b (PhysicalBackupStagingPVCKey m')) <$> sp_BootstrapFrom (m_Spec m') =
    sp_BootstrapFrom (m_Spec m') →
  rest_view (m_Spec m') = rest_view (m_Spec (default_rest m)) → default_rest m' = m'.
Proof.
  intros Hm Hb Hv. unfold rest_view in Hv. injection Hv as Hu Hs Ha Haff.
  refine (rest_update_id _ _ _ _ _ _ Hb _ _ _ _).
  - rewrite Hu. unfold constant.
    destruct (bool_decide_reflect (sp_UpdateStrategy (m_Spec m) = UpdateStrategy_zero)) as [->|Hne]; [reflexivity|].
    by rewrite bool_decide_false.
  - rewrite Hs. apply Storage_SetDefaults_idem.
  - unfold spec_ServiceAccountKey. change (or_default (sp_ServiceAccountName (m_Spec m'))
      (Some (default (Name (m_meta m')) (sp_ServiceAccountName (m_Spec m')))) = sp_ServiceAccountName (m_Spec m')).
    rewrite Ha. unfold constant. by destruct (m_Spec m), sp_ServiceAccountName.
  - change ((λ a, AffinityConfig_SetDefaults a [Name (m_meta m')]) <$> sp_Affinity (m_Spec m') = sp_Affinity (m_Spec m')).
    rewrite Haff, Hm. unfold constant. apply fmap_idem, AffinityConfig_SetDefaults_idem.
Qed.

Lemma default_galera_frame m m0 : default_galera m env = Ok m0 →
  m_meta m0 = m_meta m ∧ server_view (m_Spec m0) = server_view (m_Spec m) ∧ rest_view (m_Spec m0) = rest_view (m_Spec m).
Proof.
  unfold default_galera. destruct (sp_Galera (m_Spec m)) as [g|]; [|by intros <-%Ok_inj].
  destruct (ga_Enabled g); [|by intros <-%Ok_inj]. by intros (g' & _ & <-%Ok_inj)%result_bind_Ok.
Qed.

Lemma Galera_SetDefaults_enabled g g' m : Galera_SetDefaults g m env = Ok g' → ga_Enabled g' = ga_Enabled g.
Proof.
  unfold Galera_SetDefaults. intros (a & _ & Hg)%result_bind_Ok. destruct (default false _); [|by apply Ok_inj in Hg as <-].
  unfold bump_images in Hg. apply result_bind_Ok in Hg as (i & _ & (j & _ & <-%Ok_inj)%result_bind_Ok). done.
Qed.

Lemma default_galera_settled m m0 m' : default_galera m env = Ok m0 → m_meta m' = m_meta m →
  autoUpdate m' = autoUpdate m → sp_Galera (m_Spec m') = sp_Galera (m_Spec m0) → default_galera m' env = Ok m'.
Proof.
  unfold default_galera. intros H0 Hm Ha Hg.
  destruct (sp_Galera (m_Spec m)) as [g|] eqn:E; [|by apply Ok_inj in H0 as <-; rewrite Hg, E].
  destruct (ga_Enabled g) eqn:He; [|by apply Ok_inj in H0 as <-; rewrite Hg, E, He].
  apply result_bind_Ok in H0 as (g' & Hg'%wrap_err_Ok & <-%Ok_inj).
  change (sp_Galera (m_Spec m') = Some g') in Hg. rewrite Hg.
  rewrite (Galera_SetDefaults_enabled _ _ _ Hg'), He, (Galera_SetDefaults_settled _ _ _ _ Hg' Hm Ha).
  cbn. f_equal. destruct m' as [? [] ? ?]. cbn in Hg. by subst.
Qed.

Lemma SetDefaults_settled m m1 b : MariaDB_SetDefaults m env = Ok m1 →
  (λ b, BootstrapFrom_SetDefaults b (PhysicalBackupStagingPVCKey m1)) <$> b = b →
  let m2 := { m1 with m_Spec -> sp_BootstrapFrom := b } in MariaDB_SetDefaults m2 env = Ok m2.
Proof.
  intros (m0 & H0 & <-%Ok_inj)%result_bind_Ok Hb m2. destruct (default_galera_frame _ _ H0) as (Hm & Hs & Hr).
  assert (default_server m2 env = m2) as Hserver.
  { apply (default_server_settled m); [exact Hm|]. rewrite <- Hs. reflexivity. }
  unfold MariaDB_SetDefaults. rewrite Hserver.
  rewrite (default_galera_settled (default_server m env) m0 m2); [|done|exact Hm| |reflexivity].
  - cbn [mbind result_bind]. rewrite (default_rest_settled m0 m2); [done|reflexivity|exact Hb|reflexivity].
  - pose proof (f_equal (λ v, v.1.1.1) Hr) as Hu.
    change (sp_UpdateStrategy (m_Spec m0) = sp_UpdateStrategy (m_Spec m)) in Hu. unfold autoUpdate. change (sp_UpdateStrategy (m_Spec m2)) with
      (if bool_decide (sp_UpdateStrategy (m_Spec m0) = UpdateStrategy_zero)
       then UpdateStrategy_SetDefaults (sp_UpdateStrategy (m_Spec m0)) else sp_UpdateStrategy (m_Spec m0)).
    change (sp_UpdateStrategy (m_Spec (default_server m env))) with (sp_UpdateStrategy (m_Spec m)).
    rewrite <- Hu. by destruct (bool_decide_reflect (sp_UpdateStrategy (m_Spec m0) = UpdateStrategy_zero)) as [->|].
Qed.

Lemma SetDefaults_bootstrap m m1 : MariaDB_SetDefaults m env = Ok m1 →
  (λ b, BootstrapFrom_SetDefaults b (PhysicalBackupStagingPVCKey m1)) <$> sp_BootstrapFrom (m_Spec m1) =
  sp_BootstrapFrom (m_Spec m1).
Proof.
  intros (m0 & _ & <-%Ok_inj)%result_bind_Ok.
  change (sp_BootstrapFrom (m_Spec (default_rest m0))) with
    ((λ b, BootstrapFrom_SetDefaults b (PhysicalBackupStagingPVCKey m0)) <$> sp_BootstrapFrom (m_Spec m0)).
  change (PhysicalBackupStagingPVCKey (default_rest m0)) with (PhysicalBackupStagingPVCKey m0).
  apply fmap_idem. intros b. apply BootstrapFrom_SetDefaults_idem.
Qed.

Lemma SetDefaults_idem m m1 : MariaDB_SetDefaults m env = Ok m1 → MariaDB_SetDefaults m1 env = Ok m1.
Proof.
  intros Hd. pose proof (SetDefaults_settled m m1 _ Hd (SetDefaults_bootstrap m m1 Hd)) as Hs. cbn zeta in Hs.
  assert ({ m1 with m_Spec -> sp_BootstrapFrom := sp_BootstrapFrom (m_Spec m1) } = m1) as Hm by by destruct m1 as [? [] ? ?].
  by rewrite Hm in Hs.
Qed.
End stable.

Section settle.
Context `{DockerReference} `{StatusConditions} `{SliceSort} (env : OperatorEnv).

Definition settled (m : MariaDB) : Prop := MariaDB_SetDefaults m env = Ok m ∧ pending_backup m = None.

Lemma IsDefaulted_SetDefaults b key :
  BootstrapFrom_IsDefaulted b = true → BootstrapFrom_IsDefaulted (BootstrapFrom_SetDefaults b key) = true.
Proof. unfold BootstrapFrom_SetDefaults. destruct (_ && _); done. Qed.

Lemma keepsM_getTarget backup time : keepsM eq (getTargetVolumeSnapshot backup time).
Proof. keeps_auto. Qed.

Lemma source_from_backup_spec b backup s :
  wpM (source_from_backup b backup) s (λ _ s' r, s' = s ∧ ∀ b', r = Ok b' → ∀ key,
    BootstrapFrom_IsDefaulted (BootstrapFrom_SetDefaults b' key) = true).
Proof.
  unfold source_from_backup. destruct (is_some _).
  - do 2 wp_step. eapply wpM_mono; [|apply (keepsM_getTarget backup (bf_TargetRecoveryTime b))].
    intros t s' [target|e] <-; cbn [wrap_err]; [|done]. wp_step. split; [done|]. intros b' [= <-] key.
    apply IsDefaulted_SetDefaults, orb_true_r.
  - wp_step. split; [done|]. intros b' (volume & _ & [= <-])%result_bind_Ok key.
    by apply IsDefaulted_SetDefaults.
Qed.

Lemma spec_patcher_settled m : settled m →
  wpM (spec_patcher env) m (λ t m' r, t = [] ∧ m' = m ∧ r = Ok tt).
Proof.
  intros [Hd Hp]. unfold spec_patcher. wp_step. wp_step. rewrite Hd. do 3 wp_step. rewrite Hp. by wp_step.
Qed.

Lemma spec_patcher_spec m : wpM (spec_patcher env) m (λ _ m' r, r = Ok tt → settled m').
Proof.
  unfold spec_patcher. wp_step. wp_step. wp_step. destruct (MariaDB_SetDefaults m env) as [m1|e] eqn:Hd; wp_step; [|done].
  wp_step. wp_step. destruct (pending_backup m1) as [[b name]|] eqn:Hp.
  - wp_step. wp_step; [|done]. wp_step. eapply wpM_mono; [|apply source_from_backup_spec].
    intros t s' [b'|e] [-> Hb]; [|done]. unfold set_bootstrap. wp_step. intros _. specialize (Hb b' eq_refl
      (PhysicalBackupStagingPVCKey m1)). split.
    + apply (SetDefaults_settled env m); [done|]. cbn. f_equal. apply BootstrapFrom_SetDefaults_idem.
    + unfold pending_backup. cbn. unfold constant. by rewrite Hb.
  - wp_step. intros _. split; [by eapply SetDefaults_idem|done].
Qed.

(** C19: once the Spec phase has succeeded, the defaults are a fixed point and the source to restore
    from is known: the next Spec phase reads nothing and changes nothing. *)
Theorem spec_defaults_settle m :
  wpM (setSpecDefaults env) m (λ _ m' r, r = Ok Result_zero →
    settled m' ∧
    wpM (setSpecDefaults env) m' (λ t m'' _, m'' = m' ∧ ∃ ans, t = [Ev (PBase (KPatchMariaDB m' m')) ans])).
Proof.
  unfold setSpecDefaults at 1. wp_step. wp_step. wp_step. eapply wpM_mono; [|apply spec_patcher_spec].
  intros t m' [[]|e] Hs; [|done]. specialize (Hs eq_refl). wp_auto; try done; intros _; split; try done.
  unfold setSpecDefaults. do 3 wp_step. eapply wpM_mono; [|by apply spec_patcher_settled].
  intros t' m'' r (-> & -> & ->). wp_auto; eauto.
Qed.
End settle.

(** ** A reference to an image, as a name and a tag *)
Definition plain_parse (s : string) : result (string * option string) :=
  match Split s ":" with
  | [n] => if bool_decide (n = "") then Err (ErrNew "invalid reference format") else Ok (n, None)
  | [n; t] => if bool_decide (n = "") then Err (ErrNew "invalid reference format") else Ok (n, Some t)
  | _ => Err (ErrNew "invalid reference format")
  end.
Definition plain_with_tag (r : string * option string) (tag : string) : result (string * option string) :=
  match Split tag ":" with [t] => Ok (r.1, Some t) | _ => Err (ErrNew "invalid tag format") end.
Definition plain_string (r : string * option string) : string :=
  match r.2 with Some t => r.1 +:+ ":" +:+ t | None => r.1 end.

Lemma plain_name_no_colon s n t : plain_parse s = Ok (n, t) → n ≠ "" ∧ ¬ str_In ":"%char n.
Proof.
  unfold plain_parse. pose proof (Split_parts s ":"%char) as Hp. cbn in Hp.
  destruct (Split s ":") as [|a [|b [|]]]; [done|..|done]; destruct (bool_decide_reflect (a = "")); try done;
    intros [= <- <-]; by apply Forall_cons in Hp as [? _].
Qed.

#[local] Program Instance plain_reference : DockerReference := {
  reference := string * option string;
  ref_Parse := plain_parse;
  ref_ParseNamed := plain_parse;
  TrimNamed r := (r.1, None);
  ref_Tag := snd;
  ref_Digest _ := None;
  WithTag := plain_with_tag;
  WithDigest _ _ := Err (ErrNew "unsupported digest");
  ref_String := plain_string
}.
Next Obligation. done. Qed.
Next Obligation.
  intros s [n t0] tag r [Hn Hc]%plain_name_no_colon. unfold plain_with_tag. cbn.
  pose proof (Split_parts tag ":"%char) as Hp. cbn in Hp. destruct (Split tag ":") as [|t [|]]; [done| |done].
  apply Forall_cons in Hp as [Ht _]. intros [= <-]. split; [|done]. unfold plain_string, plain_parse. cbn [fst snd].
  change (":" +:+ t) with (String ":"%char t).
  rewrite (Split_app_sep n t ":"%char), Split_no_sep by done. cbn. by rewrite bool_decide_false.
Qed.
Next Obligation. done. Qed.

(** ** Examples *)
Definition env_ex (watch : string) : OperatorEnv :=
  mkOperatorEnv "ghcr.io/operator:25.10.0" "docker-registry/mariadb:11.8" "docker-registry/exporter:1" "operators"
    "/usr/lib/galera/libgalera_smm.so" "11.8" watch "docker-registry/maxscale:23.08" "docker-registry/exporter:2".
Definition cluster_ex (agent : GaleraAgent) (bootstrap : option BootstrapFrom) : MariaDB :=
  { MariaDB_zero (mkObjectMeta "mariadb" "operators" "" ∅ ∅) with
    m_Spec -> sp_Replicas := 3;
    m_Spec -> sp_Galera := Some { Galera_zero with ga_Enabled := true; ga_Agent := agent };
    m_Spec -> sp_UpdateStrategy := mkUpdateStrategy ReplicasFirstPrimaryLastUpdateType None (Some true);
    m_Spec -> sp_BootstrapFrom := bootstrap }.
Definition old_agent : GaleraAgent := { GaleraAgent_zero with agent_Image := "ghcr.io/operator:0.38.1" }.

(** The defaults of a cluster whose data plane follows the operator: its agent is bumped, the
    init container is the operator's, and Kubernetes authenticates the requests to the agent. *)
Example defaults_ex :
  (m ← MariaDB_SetDefaults (cluster_ex old_agent None) (env_ex "");
   let g := default Galera_zero (sp_Galera (m_Spec m)) in
   Ok (sp_Image (m_Spec m), sp_RootPasswordSecretKeyRef (m_Spec m), agent_Image (ga_Agent g), gi_Image (ga_InitContainer g),
       agent_KubernetesAuth (ga_Agent g))) =
  Ok ("docker-registry/mariadb:11.8", mkGeneratedSecretKeyRef (mkSecretKeySelector "mariadb-root" "password") true,
      "ghcr.io/operator:25.10.0", "ghcr.io/operator:25.10.0", Some (mkKubernetesAuth true "")).
Proof. by vm_compute. Qed.

(** An operator of one namespace adds the basic authentication to an agent its user has
    given the Kubernetes one, and the agent is no longer valid. *)
Example namespaced_agent_becomes_invalid :
  let agent := { old_agent with agent_KubernetesAuth := Some (mkKubernetesAuth true "") } in
  GaleraAgent_Validate agent = Ok tt ∧
  (m ← MariaDB_SetDefaults (cluster_ex agent None) (env_ex "operators");
   GaleraAgent_Validate (ga_Agent (default Galera_zero (sp_Galera (m_Spec m))))) =
    Err (ErrNew "only one authentication method must be enabled: kubernetes or basic auth").
Proof. by vm_compute. Qed.

(** A bootstrap source with a reference to a physical backup and an S3 storage: the backup
    is not even looked up, and the storage of the user is restored from. *)
Example backup_ref_is_ignored :
  let b := { BootstrapFrom_zero with bf_BackupRef := Some (mkTypedLocalObjectReference "physicalbackup" PhysicalBackupKind);
             bf_S3 := Some "other-bucket" } in
  BootstrapFrom_Validate b = Ok tt ∧
  (m ← MariaDB_SetDefaults (cluster_ex old_agent (Some b)) (env_ex "");
   Ok (is_some (pending_backup m), bf_S3 <$> sp_BootstrapFrom (m_Spec m))) = Ok (false, Some (Some "other-bucket")).
Proof. by vm_compute. Qed.
