(* ===== verification/MariaDBInit.v ===== *)
(** * The initialization of a MariaDB

    The Init phase of the MariaDB reconciler: internal/controller/mariadb_controller_init.go, which
    restores a physical backup into the volumes of a new cluster one Pod at a time, and
    pkg/controller/galera/init.go, which initializes the first volume of a new Galera cluster.
    The state is the MariaDB object in memory.  Jobs and ConfigMaps are known by their key. *)

From Stdlib Require Import Ascii.
From S2P Require Import Prelude GoStrings StatefulSet Datastructures Conditions MariaDBTypes.
From S2P Require Import Concurrency Kube Wait Sql Health ConditionSetters PhysicalBackup StorageResize.

Local Open Scope Z_scope.
Local Open Scope go_scope.

(** ** pkg/builder/metadata *)
Definition NewMetadataBuilder (key : NamespacedName) : ObjectMeta :=
  mkObjectMeta (nn_Name key) (nn_Namespace key) "" ∅ ∅.
Definition WithMetadata (meta : option Metadata) (b : ObjectMeta) : ObjectMeta :=
  match meta with
  | None => b
  | Some m => { b with Labels := md_Labels m ∪ Labels b; Annotations := md_Annotations m ∪ Annotations b }
  end.
Definition WithLabels (labels : gmap string string) (b : ObjectMeta) : ObjectMeta :=
  { b with Labels := labels ∪ Labels b }.

(** ** pkg/builder: claims *)
(** A claim from a template, with the snapshot it is restored from, or with the user's
    specification of a staging area. *)
Inductive claim_spec :=
  | StorageClaim (tpl : VolumeClaimTemplateSpec) (dataSource : option string)
  | StagingClaim (spec : string).
Record Claim := mkClaim { cl_meta : ObjectMeta; cl_spec : claim_spec }.

Definition storage_labels (mariadb : MariaDB) : gmap string string :=
  WithPVCRole StorageVolumeRole (WithMariaDBSelectorLabels mariadb ∅).

Definition BuildStoragePVC (key : NamespacedName) (tpl : option VolumeClaimTemplateSpec) (mariadb : MariaDB)
    (snapshotName : option string) : result Claim :=
  match tpl with
  | None => Err (ErrNew "template must not be nil")
  | Some tpl =>
      Ok (mkClaim
        (WithLabels (storage_labels mariadb)
          (WithMetadata (vt_Metadata tpl)
            (WithMetadata (sp_InheritMetadata (m_Spec mariadb)) (NewMetadataBuilder key))))
        (StorageClaim tpl snapshotName))
  end.

Inductive iop : Type → Type :=
  | IBase {X} (o : stop X) : iop X
  | IGetPVC (key : NamespacedName) : iop (result unit)
  | ICreatePVC (key : NamespacedName) (c : Claim) : iop (result unit)
  | IDeletePVC (key : NamespacedName) : iop (result unit)
  (* [controllerutil.SetControllerReference] *)
  | ISetControllerReference (c : Claim) : iop (result unit)
  | IGetSnapshot (key : NamespacedName) : iop (result VolumeSnapshot)
  (* the Job that restores the backup into the volume of a Pod *)
  | IBuildRestoreJob (key : NamespacedName) (mariadb : MariaDB) (podIndex : Z) : iop (result unit)
  | ICreateRestoreJob (key : NamespacedName) (podIndex : Z) : iop (result unit)
  | IDeleteJob (key : NamespacedName) (p : propagation) : iop (result unit)
  (* the Job and the ConfigMap that initialize a Galera cluster *)
  | IBuildGaleraInitJob (key : NamespacedName) (mariadb : MariaDB) : iop (result unit)
  | ICreateGaleraInitJob (key : NamespacedName) : iop (result unit)
  | IReadEntrypoint (mariadb : MariaDB) : iop (result string)
  | IGetConfigMap (key : NamespacedName) : iop (result unit)
  | IBuildConfigMap (key : NamespacedName) (data : gmap string string) : iop (result unit)
  | ICreateConfigMap (key : NamespacedName) (data : gmap string string) : iop (result unit)
  | IPatchConfigMap (key : NamespacedName) (data : gmap string string) : iop (result unit)
  | IDeleteConfigMap (key : NamespacedName) : iop (result unit).

Abbreviation itrace := (list (event iop)).

Definition BuildBackupStagingPVC (key : NamespacedName) (pvcSpec : option string) (meta : option Metadata) :
    M MariaDB iop Claim :=
  match pvcSpec with
  | None => throw (ErrNew "PVC spec must be set")
  | Some spec =>
      let c := mkClaim (WithMetadata meta (NewMetadataBuilder key)) (StagingClaim spec) in
      wrap "error setting controller to PVC" (call (ISetControllerReference c)) ;;;
      ret c
  end.

Section init.
Context `{MapRange} `{SliceSort} `{StatusConditions}.
Abbreviation C := (M MariaDB iop).

Definition ibase {A} (m : M MariaDB stop A) : C A := hoistM (λ _ o, IBase o) m.
Definition kbase {A} (m : M MariaDB op A) : C A := ibase (StorageResize.base m).
Definition patch_status (patcher : MariaDBStatus → MariaDBStatus) : C unit :=
  kbase (patchStatus_m (λ m, patcher (m_Status m))).

(** ** pkg/controller/pvc *)
Definition PVC_Reconcile (key : NamespacedName) (pvc : Claim) : C unit :=
  r <- try (call (IGetPVC key)) ;;
  match r with
  | Ok _ => ret tt
  | Err err => if negb (IsNotFound err) then throw err else call (ICreatePVC key pvc)
  end.

(** ** pkg/controller/configmap *)
Definition ConfigMap_Reconcile (key : NamespacedName) (data : gmap string string) : C unit :=
  wrap "error building ConfigMap" (call (IBuildConfigMap key data)) ;;;
  r <- try (call (IGetConfigMap key)) ;;
  match r with
  | Err err =>
      if negb (IsNotFound err) then throw (ErrWrap "error getting ConfigMap" err)
      else wrap "error creating ConfigMap" (call (ICreateConfigMap key data))
  | Ok _ => call (IPatchConfigMap key data)
  end.

(** ** mariadb_controller_init.go *)
Definition shouldProvisionPhysicalBackupStagingPVC (mariadb : MariaDB) : bool :=
  match sp_BootstrapFrom (m_Spec mariadb) with
  | None => false
  | Some b =>
      bool_decide (bf_BackupContentType b = BackupContentTypePhysical) && is_some (bf_S3 b) &&
      match bf_StagingStorage b with Some s => is_some (bss_PersistentVolumeClaim s) | None => false end
  end.

(** [mariadb.Spec.BootstrapFrom.StagingStorage.PersistentVolumeClaim] *)
Definition staging_claim (mariadb : MariaDB) : option string :=
  b ← sp_BootstrapFrom (m_Spec mariadb); s ← bf_StagingStorage b; bss_PersistentVolumeClaim s.
Definition snapshot_ref (mariadb : MariaDB) : option string :=
  b ← sp_BootstrapFrom (m_Spec mariadb); bf_VolumeSnapshotRef b.

(** [for i := 0; i < int(mariadb.Spec.Replicas); i++] *)
Definition indexes (mariadb : MariaDB) : list Z := Z.of_nat <$> seq 0 (Z.to_nat (sp_Replicas (m_Spec mariadb))).

Definition waitForReadyVolumeSnapshot (key : NamespacedName) : C ctrl_Result :=
  snapshot <- wrap "error getting VolumeSnapshot" (call (IGetSnapshot key)) ;;
  if negb (IsVolumeSnapshotReady snapshot) then ret (requeue_after (5 * Second)) else ret Result_zero.

Definition create_storage_pvcs (mariadb : MariaDB) : C unit :=
  for_each (indexes mariadb) (λ i,
    let key := PVCKey mariadb StorageVolume i in
    pvc <- lift (BuildStoragePVC key (sto_VolumeClaimTemplate (sp_Storage (m_Spec mariadb))) mariadb (snapshot_ref mariadb)) ;;
    PVC_Reconcile key pvc).

Definition reconcilePVCs (mariadb : MariaDB) : C ctrl_Result :=
  then_if_zero
    (match snapshot_ref mariadb with
     | Some name => waitForReadyVolumeSnapshot (mkNamespacedName name (Namespace (m_meta mariadb)))
     | None => ret Result_zero
     end)
    (create_storage_pvcs mariadb ;;;
     (if shouldProvisionPhysicalBackupStagingPVC mariadb then
        let key := PhysicalBackupStagingPVCKey mariadb in
        pvc <- BuildBackupStagingPVC key (staging_claim mariadb) (sp_InheritMetadata (m_Spec mariadb)) ;;
        PVC_Reconcile key pvc
      else ret tt) ;;;
     ret Result_zero).

Definition createInitJob (mariadb : MariaDB) (key : NamespacedName) (podIndex : Z) : C unit :=
  wrap "error building PhysicalBackup init Job" (call (IBuildRestoreJob key mariadb podIndex)) ;;;
  call (ICreateRestoreJob key podIndex).

(** An error that is not NotFound leaves an empty Job, which is not complete. *)
Definition reconcileAndWaitForInitJob (mariadb : MariaDB) (key : NamespacedName) (podIndex : Z) : C ctrl_Result :=
  r <- try (call (IBase (TBase (KGetJob key)))) ;;
  match r with
  | Err err =>
      if IsNotFound err then
        createInitJob mariadb key podIndex ;;;
        ret (requeue_after (1 * Second))
      else ret (requeue_after (1 * Second))
  | Ok job => if negb (IsJobComplete (Some job)) then ret (requeue_after (1 * Second)) else ret Result_zero
  end.

Definition upscaleStatefulSet (mariadb : MariaDB) (replicas : Z) : C unit :=
  let key := ObjectKey mariadb in
  r <- try (call (IBase (TGetSts key))) ;;
  sts <-
    match r with
    | Ok sts => ret sts
    | Err err =>
        if negb (IsNotFound err) then throw (ErrWrap "error getting StatefulSet" err) else
        updateAnnotations <- wrap "error getting Pod annotations" (call (IBase TUpdateAnnotations)) ;;
        wrap "error building StatefulSet" (ibase (BuildMariadbStatefulSet mariadb key updateAnnotations))
    end ;;
  if bool_decide (replicas ≤ so_StatusReplicas sts) then ret tt else
  wrap "error reconciling StatefulSet"
    (ibase (ReconcileWithUpdates { sts with so_Replicas := replicas } true)).

Definition waitForPodScheduled (mariadb : MariaDB) (podIndex : Z) : C ctrl_Result :=
  let podKey := mkNamespacedName (PodName (m_meta mariadb) podIndex) (Namespace (m_meta mariadb)) in
  r <- try (call (IBase (TBase (KGetPod podKey)))) ;;
  match r with
  | Err err => if IsNotFound err then ret (requeue_after (1 * Second)) else throw (ErrWrap "error getting Pod" err)
  | Ok pod => if negb (PodScheduled pod) then ret (requeue_after (1 * Second)) else ret Result_zero
  end.

Definition forEachPhysicalBackupInit (mariadb : MariaDB) (fn : NamespacedName → Z → C ctrl_Result) : C ctrl_Result :=
  for_each_result (indexes mariadb) (λ i, fn (PhysicalBackupInitJobKey mariadb i) i).

Definition rolling_step (mariadb : MariaDB) (key : NamespacedName) (podIndex : Z) : C ctrl_Result :=
  then_if_zero (reconcileAndWaitForInitJob mariadb key podIndex)
    (wrap "error upscaling StatefulSet" (upscaleStatefulSet mariadb (podIndex + 1)) ;;;
     then_if_zero (waitForPodScheduled mariadb podIndex) (ret Result_zero)).
Definition reconcileRollingInit (mariadb : MariaDB) : C ctrl_Result :=
  forEachPhysicalBackupInit mariadb (rolling_step mariadb).

Definition cleanup_job (key : NamespacedName) : C unit :=
  r <- try (call (IBase (TBase (KGetJob key)))) ;;
  match r with
  | Err _ => ret tt
  | Ok _ =>
      r <- try (call (IDeleteJob key DeletePropagationBackground)) ;;
      match r with
      | Ok _ => ret tt
      | Err err => if negb (IsNotFound err) then throw err else ret tt
      end
  end.
Definition cleanupInitJobs (mariadb : MariaDB) : C unit :=
  forEachPhysicalBackupInit mariadb (λ key _, cleanup_job key ;;; ret Result_zero) ;;; ret tt.

Definition cleanupStagingPVC (mariadb : MariaDB) : C unit :=
  if negb (shouldProvisionPhysicalBackupStagingPVC mariadb) then ret tt else
  let key := PhysicalBackupStagingPVCKey mariadb in
  r <- try (call (IGetPVC key)) ;;
  match r with
  | Err err => if IsNotFound err then ret tt else throw err
  | Ok _ => call (IDeletePVC key)
  end.

Definition ListStoragePVCs (mariadb : MariaDB) : C (list PVC) := ibase (getStoragePVCs mariadb).

(** The claims of an earlier cluster are an error, unless the initialization has begun. *)
Definition existing_claims (mariadb : MariaDB) : C bool :=
  if negb (IsInitializing mariadb) || is_some (InitError mariadb) then
    pvcs <- wrap "error listing PVCs" (ListStoragePVCs mariadb) ;;
    if bool_decide (0 < length pvcs)%nat then
      wrap "error patching MariaDB status" (patch_status (λ s, SetInitError s "storage PVCs already exist")) ;;;
      ret true
    else ret false
  else ret false.

(** Without a VolumeSnapshot the claims are empty: their Pods are restored one by one. *)
Definition restore_volumes (mariadb : MariaDB) : C ctrl_Result :=
  if negb (is_some (snapshot_ref mariadb)) then
    then_if_zero (reconcileRollingInit mariadb)
      (cleanupInitJobs mariadb ;;;
       cleanupStagingPVC mariadb ;;;
       ret Result_zero)
  else ret Result_zero.

Definition reconcilePhysicalBackupInit : C ctrl_Result :=
  mariadb <- get ;;
  if IsInitialized mariadb then ret Result_zero else
  exist <- existing_claims mariadb ;;
  if (exist : bool) then ret (requeue_after (30 * Second)) else
  wrap "error patching MariaDB status" (patch_status SetInitializing) ;;;
  mariadb <- get ;;
  then_if_zero (reconcilePVCs mariadb)
    (then_if_zero (restore_volumes mariadb)
      (wrap "error patching MariaDB status" (patch_status (λ s, SetRestoredPhysicalBackup (SetInitialized s))) ;;;
       ret Result_zero)).

(** ** pkg/controller/galera/init.go *)
Definition InitLibKey : string := "lib.sh".
Definition InitEntrypointKey : string := "entrypoint.sh".
Definition ClaimBound : string := "Bound".

Definition createJob (mariadb : MariaDB) : C unit :=
  call (IBuildGaleraInitJob (InitKey mariadb) mariadb) ;;;
  call (ICreateGaleraInitJob (InitKey mariadb)).

Definition dq (s : string) : string := String "034"%char s +:+ String "034"%char "".
Definition tab : string := String "009"%char "".
(** The script of [reconcileConfigMap], with the key of the library it sources. *)
Definition init_script : string := Join [
  "#!/bin/bash"; ""; "set -eo pipefail"; "";
  "CURDIR=" +:+ dq ("$( cd " +:+ dq ("$( dirname " +:+ dq "${BASH_SOURCE[0]}" +:+ " )") +:+ " &> /dev/null && pwd )");
  "source " +:+ dq ("${CURDIR}/" +:+ InitLibKey); "";
  "# If container is started as root user, restart as dedicated mysql user";
  "function run_as_mysql() {";
  tab +:+ ("if [ " +:+ dq "$(id -u)" +:+ " = " +:+ dq "0" +:+ " ]; then");
  tab +:+ tab +:+ ("mysql_note " +:+ dq "Switching to dedicated user 'mysql'");
  tab +:+ tab +:+ ("exec gosu mysql " +:+ dq "$0" +:+ " " +:+ dq "$@");
  tab +:+ "fi"; "}"; "";
  "mysql_note " +:+ dq "Entrypoint script for MariaDB Server ${MARIADB_VERSION} started"; "";
  "mysql_check_config " +:+ dq "mariadbd";
  "# Load various environment variables";
  "docker_setup_env " +:+ dq "mariadbd";
  "docker_create_db_directories"; "";
  "# Check if MariaDB is already initialized.";
  "if [ -n " +:+ dq "$DATABASE_ALREADY_EXISTS" +:+ " ]; then";
  tab +:+ ("mysql_note " +:+ dq "MariaDB Server already initialized");
  tab +:+ "exit 0"; "fi"; "";
  "run_as_mysql"; ""; "docker_verify_minimum_env";
  "docker_mariadb_init " +:+ dq "mariadbd"; "" ] newline.

Definition galera_reconcileConfigMap (mariadb : MariaDB) : C unit :=
  let key := InitKey mariadb in
  r <- try (call (IGetConfigMap key)) ;;
  match r with
  | Ok _ => ret tt
  | Err err =>
      if negb (IsNotFound err) then throw err else
      entrypointBytes <- wrap "error reading entrypoint" (call (IReadEntrypoint mariadb)) ;;
      ConfigMap_Reconcile key {[ InitLibKey := entrypointBytes; InitEntrypointKey := init_script ]}
  end.

Definition galera_reconcilePVC (mariadb : MariaDB) : C unit :=
  let key := PVCKey mariadb StorageVolume 0 in
  pvc <- lift (BuildStoragePVC key (sto_VolumeClaimTemplate (sp_Storage (m_Spec mariadb))) mariadb None) ;;
  PVC_Reconcile key pvc.

Definition initCleanup (mariadb : MariaDB) : C unit :=
  cleanup_job (InitKey mariadb) ;;;
  r <- try (call (IGetConfigMap (InitKey mariadb))) ;;
  match r with
  | Err _ => ret tt
  | Ok _ =>
      r <- try (call (IDeleteConfigMap (InitKey mariadb))) ;;
      match r with
      | Ok _ => ret tt
      | Err err => match IgnoreNotFound err with None => ret tt | Some err => throw err end
      end
  end.

(** What is left to do, with the volumes that exist already: [None] goes on. *)
Definition galera_existing_claims (mariadb : MariaDB) : C (option ctrl_Result) :=
  if negb (IsGaleraInitializing mariadb) then
    pvcs <- wrap "error listing PVCs" (ListStoragePVCs mariadb) ;;
    if bool_decide (0 < length pvcs)%nat then
      if negb (forallb (λ p, bool_decide (pvc_Phase p = ClaimBound)) pvcs) then ret (Some (requeue_after (3 * Second)))
      else
        wrap "error patching MariaDB status" (patch_status (λ s,
          SetGaleraNotReady { SetGaleraConfigured s with st_GaleraRecovery := None })) ;;;
        ret (Some Result_zero)
    else ret None
  else ret None.

Definition galera_ReconcileInit : C ctrl_Result :=
  mariadb <- get ;;
  if HasGaleraConfiguredCondition mariadb || IsGaleraInitialized mariadb || IsInitialized mariadb
  then ret Result_zero else
  existing <- galera_existing_claims mariadb ;;
  match existing with
  | Some result => ret result
  | None =>
      wrap "error patching MariaDB status" (patch_status SetGaleraInitializing) ;;;
      mariadb <- get ;;
      galera_reconcilePVC mariadb ;;;
      galera_reconcileConfigMap mariadb ;;;
      initJob <- try (call (IBase (TBase (KGetJob (InitKey mariadb))))) ;;
      match initJob with
      | Err err =>
          if IsNotFound err then createJob mariadb ;;; ret (requeue_after (1 * Second)) else throw err
      | Ok initJob =>
          if negb (IsJobComplete (Some initJob)) then ret (requeue_after (1 * Second)) else
          wrap "error cleaning up init resources" (initCleanup mariadb) ;;;
          wrap "error patching MariaDB status" (patch_status SetGaleraInitialized) ;;;
          ret Result_zero
      end
  end.

Definition reconcileInit : C ctrl_Result :=
  mariadb <- get ;;
  if match sp_BootstrapFrom (m_Spec mariadb) with
     | Some b => bool_decide (bf_BackupContentType b = BackupContentTypePhysical)
     | None => false
     end
  then reconcilePhysicalBackupInit
  else if IsGaleraEnabled mariadb then then_if_zero galera_ReconcileInit (ret Result_zero)
  else ret Result_zero.
End init.
