(* ===== verification/MariaDBInitSafety.v ===== *)
(** * The initialization of a MariaDB: properties

    The order in which the volumes of a new cluster are restored and its Pods started, what has
    been seen before the initialization is called complete, and what happens to the volumes of an
    earlier cluster. *)

From S2P Require Import Prelude GoStrings StatefulSet Datastructures Conditions MariaDBTypes.
From S2P Require Import Concurrency Kube Wait Sql Health ConditionSetters PhysicalBackup StorageResize MariaDBInit.

Local Open Scope Z_scope.
Local Open Scope go_scope.

(** The phase changes nothing of the object in memory but its status. *)
Definition same_object (m m' : MariaDB) : Prop := m_meta m' = m_meta m ∧ m_Spec m' = m_Spec m.
#[export] Instance same_object_preorder : PreOrder same_object.
Proof. split; [done|]. intros a b c [? ?] [? ?]. split; congruence. Qed.

(** ** Restoring a physical backup *)
Section physical.
Context `{RANGE : MapRange} `{SORT : SliceSort} `{COND : StatusConditions}.

Definition pod_key (m : MariaDB) (i : Z) : NamespacedName :=
  mkNamespacedName (PodName (m_meta m) i) (Namespace (m_meta m)).
(** The Job of a Pod has been seen complete; the Pod has been seen scheduled. *)
Definition job_done (m : MariaDB) (i : Z) (t : itrace) : Prop := ∃ job,
  Ev (IBase (TBase (KGetJob (PhysicalBackupInitJobKey m i)))) (Ok job) ∈ t ∧ IsJobComplete (Some job) = true.
Definition scheduled (m : MariaDB) (i : Z) (t : itrace) : Prop := ∃ pod,
  Ev (IBase (TBase (KGetPod (pod_key m i)))) (Ok pod) ∈ t ∧ PodScheduled pod = true.
Definition started (m : MariaDB) (n : Z) (t : itrace) : Prop :=
  ∀ j, 0 ≤ j < n → job_done m j t ∧ scheduled m j t.

Lemma job_done_incl m i t t' : t ⊆ t' → job_done m i t → job_done m i t'.
Proof. intros Hs (job & Hin & ?). exists job. auto. Qed.
Lemma scheduled_incl m i t t' : t ⊆ t' → scheduled m i t → scheduled m i t'.
Proof. intros Hs (pod & Hin & ?). exists pod. auto. Qed.
Lemma started_incl m n t t' : t ⊆ t' → started m n t → started m n t'.
Proof.
  intros Hs Ht j Hj. destruct (Ht j Hj). split; [by eapply job_done_incl|by eapply scheduled_incl].
Qed.

(** The acts: to create the Job that restores the volume of a Pod, to write a StatefulSet with a
    number of replicas, to announce that the MariaDB is initialized. *)
Inductive init_act := Restore (i : Z) | Scale (n : Z) | Announce.
Definition init_act_of (e : event iop) : option init_act :=
  match ev_op e with
  | ICreateRestoreJob _ i => Some (Restore i)
  | IBase (TCreateSts s) => Some (Scale (so_Replicas s))
  | IBase (TPatchSts _ s) => Some (Scale (so_Replicas s))
  | IBase (TBase (KPatchStatus _ m')) => if IsInitialized m' then Some Announce else None
  | _ => None
  end.
Definition init_needs (m : MariaDB) (a : init_act) (t : itrace) : Prop :=
  match a with
  | Restore i => started m i t
  | Scale n => started m (n - 1) t ∧ (0 < n → job_done m (n - 1) t)
  | Announce =>
      match snapshot_ref m with
      | Some name => ∃ snapshot, Ev (IGetSnapshot (mkNamespacedName name (Namespace (m_meta m)))) (Ok snapshot) ∈ t ∧
          IsVolumeSnapshotReady snapshot = true
      | None => started m (sp_Replicas (m_Spec m)) t
      end
  end.

Abbreviation init_safe m := (safe init_act_of (init_needs m)).
Abbreviation init_calm := (calm init_act_of).

(** *** One Pod *)
Lemma reconcileAndWaitForInitJob_spec m i s :
  wpM (reconcileAndWaitForInitJob m (PhysicalBackupInitJobKey m i) i) s (λ t s' r, s' = s ∧
    (∀ pre, started m i pre → init_safe m pre t) ∧ (r = Ok Result_zero → Forall init_calm t ∧ job_done m i t)).
Proof.
  unfold reconcileAndWaitForInitJob, createInitJob. do 3 wp_step.
  - wp_step; wp_step; (split; [done|]); (split; [intros pre _; apply safe_calm; by repeat constructor|]); [done|].
    intros _. split; [by repeat constructor|]. exists a. split; [by apply list_elem_of_singleton|]. by apply negb_false_iff.
  - wp_auto; (split; [done|]); (split; [|done]); intros pre Hpre; try (apply safe_calm; by repeat constructor).
    all: apply (safe_app _ _ pre [_; _] [_]); [apply safe_calm; by repeat constructor|].
    all: apply safe_one; intros ? [= <-]; eapply started_incl; [|exact Hpre]; apply list_subseteq_app_l; done.
Qed.

Lemma init_needs_incl m a t t' : t ⊆ t' → init_needs m a t → init_needs m a t'.
Proof.
  intros Hs. destruct a; cbn.
  - by apply started_incl.
  - intros [H1 H2]. split; [by eapply started_incl|]. intros Hn. eapply job_done_incl; [exact Hs|auto].
  - destruct (snapshot_ref m); [|by apply started_incl]. intros (v & Hin & ?). exists v. auto.
Qed.

(** A step without acts in front of one that is safe after [a]'s needs. *)
Lemma wpM_calm_front {A B} m a (m1 : M MariaDB iop A) (f : A → M MariaDB iop B) s :
  alwaysM init_calm m1 → keepsM eq m1 →
  (∀ x, wpM (f x) s (λ t s' _, s' = s ∧ ∀ pre, init_needs m a pre → init_safe m pre t)) →
  wpM (bind m1 f) s (λ t s' _, s' = s ∧ ∀ pre, init_needs m a pre → init_safe m pre t).
Proof.
  intros Hc Hk Hf. wp_step. eapply wpM_mono; [|apply wpM_conj; [apply (alwaysM_wpM _ _ s Hc)|apply Hk]].
  intros t s' [x|e] [Ht <-]; [|split; [done|]; intros pre _; by apply safe_calm].
  eapply wpM_mono; [|apply Hf]. intros t' s' r [-> Ht']. split; [done|]. intros pre Hpre.
  apply safe_app; [by apply safe_calm|]. apply Ht'. eapply init_needs_incl; [|exact Hpre]. set_solver.
Qed.

Lemma ReconcileWithUpdates_spec m n sts u s : so_Replicas sts = n →
  wpM (ibase (ReconcileWithUpdates sts u)) s (λ t s' _, s' = s ∧ ∀ pre, init_needs m (Scale n) pre → init_safe m pre t).
Proof.
  intros Hn. unfold ibase, ReconcileWithUpdates. apply wpM_hoist.
  wp_auto; (split; [done|]); intros pre Hpre; cbn [fmap list_fmap hoist_event ev_op ev_ans];
    try (apply safe_calm; by repeat constructor).
  all: apply (safe_app _ _ pre [_] [_]); [apply safe_calm; by repeat constructor|]; apply safe_one; intros ? [= <-];
    rewrite Hn; eapply init_needs_incl; [|exact Hpre]; set_solver.
Qed.

Ltac calm_auto := always_auto; done.

Lemma upscaleStatefulSet_spec m n s :
  wpM (upscaleStatefulSet m n) s (λ t s' r, s' = s ∧ ∀ pre, init_needs m (Scale n) pre → init_safe m pre t).
Proof.
  unfold upscaleStatefulSet. apply wpM_calm_front; [calm_auto|keeps_auto|]. intros r.
  apply wpM_calm_front; [unfold ibase; calm_auto|unfold ibase; keeps_auto|]. intros sts.
  wp_step; [wp_step; split; [done|]; intros pre _; by apply safe_calm|].
  wp_step. by apply ReconcileWithUpdates_spec.
Qed.

Lemma waitForPodScheduled_spec m i s :
  wpM (waitForPodScheduled m i) s (λ t s' r, s' = s ∧ Forall init_calm t ∧ (r = Ok Result_zero → scheduled m i t)).
Proof.
  unfold waitForPodScheduled. wp_auto; (split; [done|]); (split; [by repeat constructor|]); try done.
  intros _. exists a. split; [by apply list_elem_of_singleton|]. by apply negb_false_iff.
Qed.

Lemma started_succ m i t : started m i t → job_done m i t → scheduled m i t → started m (i + 1) t.
Proof. intros Hi Hj Hs j Hr. destruct (decide (j = i)) as [->|]; [done|]. apply Hi. lia. Qed.

Lemma rolling_step_spec m i s : 0 ≤ i →
  wpM (rolling_step m (PhysicalBackupInitJobKey m i) i) s (λ t s' r, s' = s ∧
    (∀ pre, started m i pre → init_safe m pre t) ∧ (r = Ok Result_zero → job_done m i t ∧ scheduled m i t)).
Proof.
  intros Hi. unfold rolling_step, then_if_zero. wp_step. eapply wpM_mono; [|apply reconcileAndWaitForInitJob_spec].
  intros t1 s1 [res|e] (-> & Hs1 & Hr1); [|done].
  destruct (Result_IsZero res) eqn:Hz; cbn [negb].
  2: { wp_step. rewrite app_nil_r. split; [done|]. split; [done|]. intros [= ->]. done. }
  apply bool_decide_eq_true in Hz. subst res. destruct (Hr1 eq_refl) as [Hc1 Hj1].
  wp_step. wp_step. eapply wpM_mono; [|apply upscaleStatefulSet_spec].
  intros t2 s2 r2 [-> Hs2].
  assert (∀ pre, started m i pre → init_safe m pre (t1 ++ t2)) as Hs12.
  { intros pre Hpre. apply safe_app; [by apply safe_calm|]. apply Hs2. split.
    - replace (i + 1 - 1) with i by lia. eapply started_incl; [|exact Hpre]. set_solver.
    - intros _. replace (i + 1 - 1) with i by lia. eapply job_done_incl; [|exact Hj1]. set_solver. }
  destruct r2 as [[]|e]; cbn [wrap_err]; [|done].
  wp_step. eapply wpM_mono; [|apply waitForPodScheduled_spec].
  intros t3 s3 r3 (-> & Hc3 & Hr3).
  assert (∀ pre, started m i pre → init_safe m pre (t1 ++ t2 ++ t3)) as Hs123.
  { intros pre Hpre. rewrite (assoc_L (++)). apply safe_app; [by apply Hs12|by apply safe_calm]. }
  destruct r3 as [res|e]; [|done]. destruct (Result_IsZero res) eqn:Hz; cbn [negb].
  2: { wp_step. rewrite app_nil_r. split; [done|]. split; [done|]. intros [= ->]. done. }
  apply bool_decide_eq_true in Hz. subst res. wp_step. rewrite app_nil_r. split; [done|]. split; [done|]. intros _.
  split; [eapply job_done_incl; [|exact Hj1]; set_solver|eapply scheduled_incl; [|by apply Hr3]; set_solver].
Qed.

Lemma reconcileRollingInit_spec m s :
  wpM (reconcileRollingInit m) s (λ t s' r, s' = s ∧ init_safe m [] t ∧
    (r = Ok Result_zero → started m (sp_Replicas (m_Spec m)) t)).
Proof.
  unfold reconcileRollingInit, forEachPhysicalBackupInit, indexes.
  assert (∀ n i s, wpM (for_each_result (Z.of_nat <$> seq i n)
      (λ i, rolling_step m (PhysicalBackupInitJobKey m i) i)) s
    (λ t s' r, s' = s ∧ (∀ pre, started m (Z.of_nat i) pre → init_safe m pre t ∧
       (r = Ok Result_zero → started m (Z.of_nat (i + n)) (pre ++ t))))) as Hloop.
  { induction n as [|n IH]; intros i s'; cbn [seq fmap list_fmap for_each_result].
    - wp_step. split; [done|]. intros pre Hpre. split; [by apply safe_calm|]. intros _.
      by rewrite Nat.add_0_r, app_nil_r.
    - unfold then_if_zero. wp_step. eapply wpM_mono; [|apply rolling_step_spec; lia].
      intros t1 s1 [res|e] (-> & Hs1 & Hr1); [|split; [done|]; intros pre Hpre; by split; [apply Hs1|]].
      destruct (Result_IsZero res) eqn:Hz; cbn [negb].
      2: { wp_step. rewrite app_nil_r. split; [done|]. intros pre Hpre. split; [by apply Hs1|]. by intros [= ->]. }
      apply bool_decide_eq_true in Hz. subst res. destruct (Hr1 eq_refl) as [Hj Hp].
      eapply wpM_mono; [|apply (IH (S i))]. intros t2 s2 r [-> Hr]. split; [done|]. intros pre Hpre.
      destruct (Hr (pre ++ t1)) as [Hs2 Hr2].
      { rewrite Nat2Z.inj_succ. apply started_succ.
        - eapply started_incl; [|exact Hpre]. set_solver.
        - eapply job_done_incl; [|exact Hj]. set_solver.
        - eapply scheduled_incl; [|exact Hp]. set_solver. }
      split; [apply safe_app; [by apply Hs1|done]|]. intros Hz. rewrite (assoc_L (++)).
      replace (i + S n)%nat with (S i + n)%nat by lia. by apply Hr2. }
  eapply wpM_mono; [|apply Hloop]. intros t s' r [-> Hr].
  destruct (Hr []) as [Hs Hz]; [intros j Hj; lia|]. split; [done|]. split; [done|]. intros Hzero.
  intros j Hj. apply (Hz Hzero). lia.
Qed.

(** *** The whole phase *)
Lemma init_needs_same m m' a t : same_object m m' → init_needs m' a t ↔ init_needs m a t.
Proof. destruct m, m'. intros [H1 H2]. cbn in *. subst. done. Qed.
Lemma init_safe_same m m' pre t : same_object m m' → init_safe m' pre t → init_safe m pre t.
Proof. intros Hm Hs t1 e t2 a He Ha. apply (init_needs_same m m' a _ Hm). by eapply Hs. Qed.

Lemma patch_status_calm f :
  (∀ st, IsStatusConditionTrue (st_Conditions (f st)) ConditionTypeInitialized = false) →
  alwaysM init_calm (patch_status f).
Proof.
  intros Hf. apply alwaysM_hoist, alwaysM_hoist. intros m. cbn [patchStatus_m always]. intros r. split; [|done].
  unfold calm, init_act_of. cbn [hoist_event ev_op]. unfold IsInitialized.
  change (m_Status _) with (f (m_Status m)). by rewrite Hf.
Qed.
Lemma patch_status_same f : keepsM same_object (patch_status f).
Proof. do 2 apply keepsM_hoist. by intros s r. Qed.

Lemma not_initialized st : IsStatusConditionTrue (st_Conditions (SetInitializing st)) ConditionTypeInitialized = false.
Proof. change (@st_Conditions ?x) with (conditions x). unfold SetInitializing. by rewrite is_true_set. Qed.
Lemma not_initialized_error st msg :
  IsStatusConditionTrue (st_Conditions (SetInitError st msg)) ConditionTypeInitialized = false.
Proof. change (@st_Conditions ?x) with (conditions x). unfold SetInitError. by rewrite is_true_set. Qed.

Ltac init_always :=
  repeat lazymatch goal with
  | |- alwaysM _ (patch_status _) => apply patch_status_calm; intros ?; (apply not_initialized || apply not_initialized_error)
  | |- alwaysM _ (let x := _ in _) => cbv zeta
  | _ => always_step
  end; try done.
Ltac init_keeps :=
  repeat lazymatch goal with
  | |- keepsM _ (patch_status _) => apply patch_status_same
  | |- keepsM _ (let x := _ in _) => cbv zeta
  | _ => keeps_step
  end; try done.

Lemma existing_claims_calm m : alwaysM init_calm (existing_claims m).
Proof. unfold existing_claims. init_always. Qed.
Lemma existing_claims_same m : keepsM same_object (existing_claims m).
Proof. unfold existing_claims. init_keeps. Qed.
Lemma galera_existing_claims_same m : keepsM same_object (galera_existing_claims m).
Proof. unfold galera_existing_claims. init_keeps. Qed.
Lemma reconcilePVCs_calm m : alwaysM init_calm (reconcilePVCs m).
Proof. unfold reconcilePVCs, then_if_zero. init_always. Qed.
Lemma reconcilePVCs_keeps m : keepsM eq (reconcilePVCs m).
Proof. unfold reconcilePVCs, then_if_zero. init_keeps. Qed.
Lemma reconcilePVCs_snapshot m s : wpM (reconcilePVCs m) s (λ t _ r, r = Ok Result_zero →
  ∀ name, snapshot_ref m = Some name → init_needs m Announce t).
Proof.
  destruct (snapshot_ref m) as [name|] eqn:Hn; [|by apply wp_true].
  unfold reconcilePVCs, then_if_zero, waitForReadyVolumeSnapshot. rewrite Hn. wp_step.
  wp_step. wp_step. wp_step; cbn [wrap_err]; [|done]. wp_step; wp_step; cbn [Result_IsZero].
  { change (Result_IsZero (requeue_after (5 * Second))) with false. cbn [negb]. by wp_step. }
  apply wp_true. cbn. intros t _ _ name' [= <-]. unfold init_needs. rewrite Hn. exists a.
  split; [left|by apply negb_false_iff].
Qed.
Lemma cleanupInitJobs_calm m : alwaysM init_calm (cleanupInitJobs m).
Proof.
  unfold cleanupInitJobs, forEachPhysicalBackupInit. always_step; [|init_always].
  apply alwaysM_for_each_result. intros i _. init_always.
Qed.

Lemma init_safe_weaken m pre t : init_safe m [] t → init_safe m pre t.
Proof. intros Hs t1 e t2 a He Ha. eapply init_needs_incl; [|by eapply Hs]. set_solver. Qed.

Lemma cleanup_spec m s : wpM (cleanupInitJobs m ;;; cleanupStagingPVC m ;;; ret Result_zero) s (λ t s' _,
  s' = s ∧ Forall init_calm t).
Proof.
  set (prog := bind _ _). assert (alwaysM init_calm prog) as Hc.
  { apply alwaysM_bind; [apply cleanupInitJobs_calm|intros _; unfold cleanupStagingPVC; init_always]. }
  assert (keepsM eq prog) as Hk.
  { apply keepsM_bind; [apply _| |intros _; unfold cleanupStagingPVC; init_keeps].
    unfold cleanupInitJobs, forEachPhysicalBackupInit. keeps_step; [|init_keeps].
    induction (indexes m); cbn [for_each_result]; unfold then_if_zero; init_keeps. }
  eapply wpM_mono; [|apply wpM_conj; [apply (alwaysM_wpM _ _ s Hc)|apply Hk]]. by intros t s' r [? <-].
Qed.

Lemma restore_volumes_spec m s : wpM (restore_volumes m) s (λ t s' r, s' = s ∧ init_safe m [] t ∧
  (r = Ok Result_zero → snapshot_ref m = None → started m (sp_Replicas (m_Spec m)) t)).
Proof.
  unfold restore_volumes. destruct (snapshot_ref m) as [name|]; cbn [is_some negb].
  { wp_step. split; [done|]. split; [by apply safe_calm|done]. }
  unfold then_if_zero. wp_step. eapply wpM_mono; [|apply reconcileRollingInit_spec].
  intros t1 s1 [res|e] (-> & Hs & Hz); [|by split; [|split]].
  destruct (Result_IsZero res) eqn:Hzero; cbn [negb].
  2: { wp_step. rewrite app_nil_r. split; [done|]. split; [done|]. by intros [= ->]. }
  apply bool_decide_eq_true in Hzero. subst res. eapply wpM_mono; [|apply cleanup_spec].
  intros t2 s2 r [-> Hc]. split; [done|]. split; [apply safe_app; [done|by apply safe_calm]|]. intros _ _.
  eapply started_incl; [|by apply Hz]. set_solver.
Qed.

Lemma announce_spec m pre s f : init_needs m Announce pre →
  wpM (wrap "error patching MariaDB status" (patch_status f) ;;; ret Result_zero) s (λ t _ _, init_safe m pre t).
Proof.
  intros Hpre. wp_step. wp_step. do 2 apply wpM_hoist. intros r. cbn.
  set (ev := hoist_event _ _). assert (init_safe m pre [ev]) as Hev.
  { apply safe_one. intros a Ha. unfold init_act_of in Ha. cbn in Ha. destruct (IsInitialized _); by simplify_eq. }
  by destruct r as [[]|e].
Qed.

(** C18: a physical backup is restored one Pod after the other.  The Job that restores the volume
    of a Pod is created, and the StatefulSet given a number of replicas, only after the Jobs of all the
    Pods before have been seen complete and these Pods scheduled, and the last Pod the StatefulSet gets is one
    whose Job is complete; the MariaDB is announced as initialized only when all this has happened for
    every replica, or, with a VolumeSnapshot, once the snapshot has been seen ready. *)
Theorem restores_one_pod_at_a_time (m : MariaDB) :
  wpM reconcilePhysicalBackupInit m (λ t _ _, safe init_act_of (init_needs m) [] t).
Proof.
  unfold reconcilePhysicalBackupInit. wp_step. wp_step. cbn [app].
  destruct (IsInitialized m); [wp_step; by apply safe_calm|].
  apply (wpM_safe_bind _ _ _ _ _ _ (λ _ m' _, same_object m m')); [apply existing_claims_calm|apply existing_claims_same|].
  intros t1 m1 exist Hm1. destruct exist; [wp_step; by apply safe_calm|].
  apply (wpM_safe_bind _ _ _ _ _ _ (λ _ m' _, same_object m1 m'));
    [apply alwaysM_wrap, patch_status_calm, not_initialized|apply wpM_wrap, patch_status_same|].
  intros t2 m2 _ Hm2. assert (same_object m m2) as Hm by by etrans. clear Hm1 Hm2.
  wp_step. wp_step. cbn [app].
  set (pre := (([] ++ t1) ++ t2)). eapply wpM_mono; [intros t ? ?; apply (init_safe_same m m2 pre); exact Hm|].
  clearbody pre. clear t1 t2. unfold then_if_zero at 1.
  eapply (wpM_safe_bind _ _ _ _ _ _ (λ t m' r, m' = m2 ∧ (r = Ok Result_zero → ∀ name, snapshot_ref m2 = Some name →
    init_needs m2 Announce t))); [apply reconcilePVCs_calm| |].
  { apply wpM_conj; [eapply wpM_mono; [|apply reconcilePVCs_keeps]; by intros|apply reconcilePVCs_snapshot]. }
  intros t1 ? res [-> Hsnap]. destruct (Result_IsZero res) eqn:Hz; cbn [negb]; [|wp_step; by apply safe_calm].
  apply bool_decide_eq_true in Hz. subst res. specialize (Hsnap eq_refl).
  unfold then_if_zero at 1. wp_step. eapply wpM_mono; [|apply restore_volumes_spec].
  intros t2 ? [res|e] (-> & Hs & Hstarted); [|by apply init_safe_weaken].
  destruct (Result_IsZero res) eqn:Hz; cbn [negb]; [|wp_step; rewrite app_nil_r; by apply init_safe_weaken].
  apply bool_decide_eq_true in Hz. subst res. eapply wpM_mono; [|apply (announce_spec m2 ((pre ++ t1) ++ t2))].
  - intros t3 ? ? Ht3. apply safe_app; [by apply init_safe_weaken|done].
  - unfold init_needs. destruct (snapshot_ref m2) as [name|] eqn:Hn.
    + specialize (Hsnap name eq_refl). unfold init_needs in Hsnap. rewrite Hn in Hsnap.
      destruct Hsnap as (v & Hv & ?). exists v. split; [set_solver|done].
    + eapply started_incl; [|by apply Hstarted]. set_solver.
Qed.
End physical.

(** ** Volumes of an earlier cluster *)
Section claims.
Context `{RANGE : MapRange} `{SORT : SliceSort} `{COND : StatusConditions}.

(** Objects the initialization makes or changes, other than the status. *)
Definition creates (e : event iop) : option unit :=
  match ev_op e with
  | ICreatePVC _ _ | IDeletePVC _ | ICreateRestoreJob _ _ | ICreateGaleraInitJob _ | ICreateConfigMap _ _
  | IPatchConfigMap _ _ | IBase (TCreateSts _) | IBase (TPatchSts _ _) => Some tt
  | _ => None
  end.
(** The storage claims of the MariaDB have been listed, and there were none. *)
Definition no_claims (m : MariaDB) (_ : unit) (t : itrace) : Prop :=
  Ev (IBase (TListPVCs (storage_labels m) (Namespace (m_meta m)))) (Ok []) ∈ t.

Definition restores_physical_backup (m : MariaDB) : bool :=
  match sp_BootstrapFrom (m_Spec m) with
  | Some b => bool_decide (bf_BackupContentType b = BackupContentTypePhysical)
  | None => false
  end.
(** The initialization has not begun, or has been found impossible. *)
Definition fresh (m : MariaDB) : Prop :=
  if restores_physical_backup m then IsInitializing m = false ∨ is_some (InitError m) = true
  else IsGaleraInitializing m = false.

Lemma safe_after_no_claims m pre t : no_claims m tt pre → safe creates (no_claims m) pre t.
Proof. intros Hpre t1 e t2 [] _ _. unfold no_claims in *. apply elem_of_app. by left. Qed.

Lemma existing_claims_listed m s : IsInitializing m = false ∨ is_some (InitError m) = true →
  wpM (existing_claims m) s (λ t _ r, Forall (calm creates) t ∧ (r = Ok false → no_claims m tt t)).
Proof.
  intros Hf. unfold existing_claims.
  assert (negb (IsInitializing m) || is_some (InitError m) = true) as -> by (destruct Hf as [-> | ->]; by rewrite ?orb_true_r).
  wp_step. wp_step. apply wpM_hoist. unfold getStoragePVCs. wp_step.
  wp_step; cbn [wrap_err]; [|by split; [repeat constructor|]]. destruct a as [|p pvcs]; cbn [length].
  - rewrite bool_decide_false by lia. wp_step. split; [by repeat constructor|]. intros _. left.
  - rewrite bool_decide_true by lia. wp_step. wp_step. do 2 apply wpM_hoist.
    intros r. cbn. destruct r as [[]|e]; (split; [by repeat constructor|done]).
Qed.
Lemma galera_existing_claims_listed m s : IsGaleraInitializing m = false →
  wpM (galera_existing_claims m) s (λ t _ r, Forall (calm creates) t ∧ (r = Ok None → no_claims m tt t)).
Proof.
  intros Hf. unfold galera_existing_claims. rewrite Hf. cbn [negb].
  wp_step. wp_step. apply wpM_hoist. unfold getStoragePVCs. wp_step.
  wp_step; cbn [wrap_err]; [|by split; [repeat constructor|]]. destruct a as [|p pvcs]; cbn [length].
  - rewrite bool_decide_false by lia. wp_step. split; [by repeat constructor|]. intros _. left.
  - rewrite bool_decide_true by lia. destruct (negb _); [wp_step; by split; [repeat constructor|]|].
    wp_step. wp_step. do 2 apply wpM_hoist. intros r. cbn.
    destruct r as [[]|e]; (split; [by repeat constructor|done]).
Qed.

(** The Init phase that begins makes nothing before it has listed the storage claims of
    the MariaDB and found none: the volumes of an earlier cluster are neither restored over nor
    initialized. *)
Theorem init_spares_existing_volumes (m : MariaDB) : fresh m →
  wpM reconcileInit m (λ t _ _, safe creates (no_claims m) [] t).
Proof.
  intros Hf. unfold reconcileInit, fresh, restores_physical_backup in *. wp_step. wp_step. cbn [app].
  assert (∀ t1 t2, Forall (calm creates) t1 → no_claims m tt t1 → safe creates (no_claims m) [] (t1 ++ t2)) as Hgo.
  { intros t1 t2 Hc Hn. apply safe_app; [by apply safe_calm|by apply safe_after_no_claims]. }
  destruct (match _ with Some _ => _ | None => _ end).
  - unfold reconcilePhysicalBackupInit. wp_step. wp_step. cbn [app].
    destruct (IsInitialized m); [wp_step; by apply safe_calm|]. wp_step.
    eapply wpM_mono; [|by apply existing_claims_listed]. intros t s' [[]|e] [Hc Hn]; [| |by apply safe_calm].
    + wp_step. rewrite app_nil_r. by apply safe_calm.
    + apply wp_true. intros. by apply Hgo; [|apply Hn].
  - destruct (IsGaleraEnabled m); [|wp_step; by apply safe_calm].
    unfold then_if_zero, galera_ReconcileInit. wp_step. wp_step. wp_step. cbn [app].
    destruct (_ || _); [wp_step; wp_auto; by apply safe_calm|]. wp_step.
    eapply wpM_mono; [|by apply galera_existing_claims_listed]. intros t s' [[res|]|e] [Hc Hn]; [| |by apply safe_calm].
    + wp_step. wp_auto; rewrite ?app_nil_r; by apply safe_calm.
    + eapply wpM_mono; [|apply wpM_True]. intros t' s'' r _.
      specialize (Hgo t t' Hc (Hn eq_refl)). destruct r as [res|e]; [|done]. 
      wp_auto; by rewrite app_nil_r.
Qed.

(** A storage claim that is created carries the labels and the namespace the claims of the MariaDB
    are listed by. *)
Definition listed_claim (m : MariaDB) (e : event iop) : Prop :=
  match ev_op e with
  | ICreatePVC key c =>
      match cl_spec c with
      | StorageClaim _ _ => storage_labels m ⊆ Labels (cl_meta c) ∧ Namespace (cl_meta c) = Namespace (m_meta m) ∧
          nn_Namespace key = Namespace (m_meta m)
      | StagingClaim _ => True
      end
  | _ => True
  end.

Lemma listed_claim_same m m' e : same_object m m' → listed_claim m' e → listed_claim m e.
Proof. destruct m, m'. intros [H1 H2]. cbn in *. by subst. Qed.

Lemma BuildStoragePVC_listed m key tpl name c ans : nn_Namespace key = Namespace (m_meta m) →
  BuildStoragePVC key tpl m name = Ok c → listed_claim m (Ev (ICreatePVC key c) ans).
Proof.
  intros Hk. unfold BuildStoragePVC. destruct tpl as [tpl|]; [|done]. intros [= <-].
  split; [|split; [|done]]; cbn.
  - apply map_union_subseteq_l.
  - destruct (vt_Metadata tpl), (sp_InheritMetadata _); cbn; done.
Qed.

Ltac claim_always :=
  repeat lazymatch goal with
  | |- alwaysM _ (bind (lift _) _) => apply alwaysM_lift_bind; intros ? ?
  | |- alwaysM _ (let x := _ in _) => cbv zeta
  | _ => always_step
  end; try done.

Lemma storage_claim_listed m i tpl name :
  alwaysM (listed_claim m)
    (pvc <- lift (BuildStoragePVC (PVCKey m StorageVolume i) tpl m name) ;; PVC_Reconcile (PVCKey m StorageVolume i) pvc).
Proof.
  apply alwaysM_lift_bind. intros c Hc. unfold PVC_Reconcile. claim_always. by apply (BuildStoragePVC_listed m _ tpl name).
Qed.
Lemma staging_claim_listed m key spec meta :
  alwaysM (listed_claim m) ((pvc <- BuildBackupStagingPVC key spec meta ;; PVC_Reconcile key pvc) ;;; ret Result_zero).
Proof.
  unfold BuildBackupStagingPVC, PVC_Reconcile. destruct spec as [spec|]; [|done].
  intros s. unfold wrap, bind, try, call, ret, throw. cbn. intros [[]|e]; cbn; (split; [done|]); [|done].
  intros [[]|e]; cbn; (split; [done|]); [done|]. destruct (negb (IsNotFound e)); cbn; [done|].
  by intros [[]|e']; cbn.
Qed.
Lemma reconcilePVCs_listed m : alwaysM (listed_claim m) (reconcilePVCs m).
Proof.
  unfold reconcilePVCs, create_storage_pvcs, then_if_zero. always_step; [claim_always|]. always_step; [claim_always|].
  always_step; [always_step; apply storage_claim_listed|].
  destruct (shouldProvisionPhysicalBackupStagingPVC m); [|claim_always]. apply staging_claim_listed.
Qed.

Lemma wpM_Forall_bind {A B} (P : event iop → Prop) (R : MariaDB → MariaDB → Prop) (m : M MariaDB iop A) (f : A → M MariaDB iop B) s :
  alwaysM P m → keepsM R m → (∀ a s', R s s' → wpM (f a) s' (λ t _ _, Forall P t)) →
  wpM (bind m f) s (λ t _ _, Forall P t).
Proof.
  intros Ha Hk Hf. wp_step. eapply wpM_mono; [|apply wpM_conj; [apply (alwaysM_wpM _ _ s Ha)|apply Hk]].
  intros t s' [a|e] [Ht HR]; [|done]. eapply wpM_mono; [|by apply Hf]. intros t' ? ? Ht'. by apply Forall_app_2.
Qed.

Lemma rolling_listed m s : alwaysM (listed_claim m) (then_if_zero (restore_volumes s)
  (wrap "error patching MariaDB status" (patch_status (λ s, SetRestoredPhysicalBackup (SetInitialized s))) ;;; ret Result_zero)).
Proof.
  unfold then_if_zero, restore_volumes, reconcileRollingInit, cleanupInitJobs, forEachPhysicalBackupInit.
  repeat first [apply alwaysM_for_each_result; intros ? _; unfold rolling_step|always_step]; done.
Qed.

Lemma galera_init_listed m : wpM galera_ReconcileInit m (λ t _ _, Forall (listed_claim m) t).
Proof.
  unfold galera_ReconcileInit. wp_step. wp_step. cbn [app]. destruct (_ || _); [by wp_step|].
  apply (wpM_Forall_bind _ same_object); [unfold galera_existing_claims; claim_always|apply galera_existing_claims_same|].
  intros [res|] m1 Hm1; [by wp_step|].
  apply (wpM_Forall_bind _ same_object); [claim_always|apply keepsM_wrap, patch_status_same|].
  intros _ m2 Hm2. wp_step. wp_step. cbn [app].
  set (prog := bind (galera_reconcilePVC m2) _). assert (alwaysM (listed_claim m2) prog) as Ha.
  { apply alwaysM_bind; [unfold galera_reconcilePVC; apply storage_claim_listed|intros _; claim_always]. }
  eapply wpM_mono; [|apply (alwaysM_wpM _ _ m2 Ha)]. intros t ? ? Ht. eapply Forall_impl; [exact Ht|].
  intros e. apply listed_claim_same. by etrans.
Qed.

(** Every storage claim the Init phase creates is one of those by which a later run, or a later
    MariaDB of the same name, finds that the volumes exist. *)
Theorem init_claims_are_found (m : MariaDB) :
  wpM reconcileInit m (λ t _ _, Forall (listed_claim m) t).
Proof.
  unfold reconcileInit. wp_step. wp_step. cbn [app].
  assert (∀ m' (prog : M MariaDB iop ctrl_Result) s, same_object m m' → alwaysM (listed_claim m') prog →
    wpM prog s (λ t _ _, Forall (listed_claim m) t)) as Hprog.
  { intros m' prog s Hm Ha. eapply wpM_mono; [|apply (alwaysM_wpM _ _ s Ha)]. intros t ? ? Ht.
    eapply Forall_impl; [exact Ht|]. intros e. by apply listed_claim_same. }
  destruct (match _ with Some _ => _ | None => _ end).
  - unfold reconcilePhysicalBackupInit. wp_step. wp_step. cbn [app].
    destruct (IsInitialized m); [by wp_step|].
    apply (wpM_Forall_bind _ same_object); [unfold existing_claims; claim_always|apply existing_claims_same|].
    intros [] m1 Hm1; [by wp_step|].
    apply (wpM_Forall_bind _ same_object); [claim_always|apply keepsM_wrap, patch_status_same|].
    intros _ m2 Hm2. wp_step. wp_step. cbn [app]. apply (Hprog m2); [by etrans|].
    unfold then_if_zero at 1. apply alwaysM_bind; [apply reconcilePVCs_listed|]. intros res.
    destruct (negb _); [claim_always|apply rolling_listed].
  - destruct (IsGaleraEnabled m); [|by wp_step]. unfold then_if_zero.
    wp_step. eapply wpM_mono; [|apply (galera_init_listed m)]. intros t s' [res|e] Ht; [|done].
    wp_auto; by rewrite app_nil_r.
Qed.
End claims.

(** ** Witness *)
Definition snapshot_mdb : MariaDB :=
  { MariaDB_zero (mkObjectMeta "mariadb" "default" "" ∅ ∅) with
    m_Spec -> sp_Replicas := 3;
    m_Spec -> sp_BootstrapFrom := Some { BootstrapFrom_zero with
      bf_S3 := Some "s3"; bf_BackupContentType := BackupContentTypePhysical } }.
Lemma init_spares_existing_volumes_witness :
  wpM reconcileInit snapshot_mdb (λ t _ _, safe creates (no_claims snapshot_mdb) [] t).
Proof. apply (init_spares_existing_volumes snapshot_mdb). left. reflexivity. Defined.
