(* ===== verification/MariaDBServices.v ===== *)
(** * Services, endpoints, roles and disruption budgets of a MariaDB

    The phases PodDisruptionBudget, Service and Labels of internal/controller/mariadb_controller.go,
    with pkg/controller/service, pkg/controller/endpoints and the builders they use: how clients
    are routed to the primary and to the replicas.  The state is the MariaDB object in memory. *)

From S2P Require Import Prelude GoStrings GoNet StatefulSet Conditions MariaDBTypes GaleraConfig.
From S2P Require Import Concurrency Kube Health StorageResize MariaDBInit.

Local Open Scope Z_scope.
Local Open Scope go_scope.

(** ** Objects *)
Record CoreServicePort := mkCoreServicePort {
  csp_Name : string; csp_Port : Z; csp_NodePort : Z; csp_AppProtocol : option string
}.
#[export] Instance CoreServicePort_eq_dec : EqDecision CoreServicePort.
Proof. solve_decision. Defined.

(** A nil selector is [None]. *)
Record Service := mkService {
  svc_meta : ObjectMeta;
  svc_Type : string;
  svc_Ports : list CoreServicePort;
  svc_ClusterIP : string;
  svc_PublishNotReadyAddresses : bool;
  svc_Selector : option (gmap string string);
  svc_LoadBalancerIP : string;
  svc_LoadBalancerSourceRanges : list string;
  svc_ExternalTrafficPolicy : string;
  svc_SessionAffinity : string;
  svc_AllocateLoadBalancerNodePorts : option bool
}.
Definition ServiceTypeNodePort : string := "NodePort".
Definition ServiceTypeLoadBalancer : string := "LoadBalancer".

Record Endpoint := mkEndpoint {
  e_Addresses : list string;
  e_NodeName : string;
  e_TargetName : string;
  e_TargetNamespace : string;
  e_TargetUID : string;
  e_Ready : bool
}.
Record EndpointPort := mkEndpointPort { ep_Name : string; ep_Port : Z; ep_Protocol : string }.
Inductive AddressType := AddressTypeIPv4 | AddressTypeIPv6.
Record Slice := mkSlice {
  sl_meta : ObjectMeta;
  sl_AddressType : AddressType;
  sl_Endpoints : list Endpoint;
  sl_Ports : list EndpointPort
}.
Record PDB := mkPDB {
  pdbo_meta : ObjectMeta;
  pdbo_MinAvailable : option IntOrString;
  pdbo_MaxUnavailable : option IntOrString;
  pdbo_Selector : gmap string string
}.

(** A patch goes to the object that was read. *)
Inductive vop : Type → Type :=
  | VBase {X} (o : op X) : vop X
  | VGetService (key : NamespacedName) : vop (result Service)
  | VCreateService (key : NamespacedName) (s : Service) : vop (result unit)
  | VPatchService (key : NamespacedName) (base s : Service) : vop (result unit)
  | VGetSlice (key : NamespacedName) : vop (result Slice)
  | VCreateSlice (key : NamespacedName) (s : Slice) : vop (result unit)
  | VPatchSlice (key : NamespacedName) (base s : Slice) : vop (result unit)
  | VGetPDB (key : NamespacedName) : vop (result PDB)
  | VCreatePDB (p : PDB) : vop (result unit)
  (* [controllerutil.SetControllerReference], on the object of that key *)
  | VSetControllerReference (key : NamespacedName) : vop (result unit).

Abbreviation vtrace := (list (event vop)).

(** ** pkg/builder/labels *)
Definition statefulSetPodName : string := "statefulset.kubernetes.io/pod-name".
Definition WithStatefulSetPod (objMeta : ObjectMeta) (podIndex : Z) (b : gmap string string) : gmap string string :=
  <[statefulSetPodName := PodName objMeta podIndex]> b.
Definition WithPodRole (role : string) (b : gmap string string) : gmap string string := <[podRole := role]> b.

(** ** pkg/builder/service_builder.go *)
Definition MariadbPortName : string := "mariadb".

Definition MariaDBPort (svc : Service) : result CoreServicePort :=
  match list_find (λ p, csp_Name p = MariadbPortName) (svc_Ports svc) with
  | Some (_, p) => Ok p
  | None => Err (ErrNew "service port not found")
  end.

(** The loop, over the names and the numbers seen so far. *)
Fixpoint validate_ports (nameMap : gset string) (portMap : gset Z) (ports : list CoreServicePort) : result unit :=
  match ports with
  | [] => Ok tt
  | p :: ports =>
      if bool_decide (csp_Name p ∈ nameMap) then Err (ErrNew "port name is already taken by another port")
      else if bool_decide (csp_Port p ∈ portMap) then Err (ErrNew "port number is already taken by another port")
      else validate_ports ({[csp_Name p]} ∪ nameMap) ({[csp_Port p]} ∪ portMap) ports
  end.
Definition ValidateServicePorts (ports : list CoreServicePort) : result unit := validate_ports ∅ ∅ ports.

Record ServiceOpts := mkServiceOpts {
  so_Template : ServiceTemplate;
  so_SelectorLabels : option (gmap string string);
  so_ExcludeSelectorLabels : bool;
  so_Ports : list CoreServicePort;
  so_Headless : bool;
  so_ExtraMeta : option Metadata
}.

Definition service_of (key : NamespacedName) (opts : ServiceOpts) : Service :=
  let tpl := so_Template opts in
  mkService (WithMetadata (svt_Metadata tpl) (WithMetadata (so_ExtraMeta opts) (NewMetadataBuilder key)))
    (svt_Type tpl) (so_Ports opts)
    (if so_Headless opts then "None" else "") (so_Headless opts)
    (if negb (so_ExcludeSelectorLabels opts) then so_SelectorLabels opts else None)
    (default "" (svt_LoadBalancerIP tpl)) (svt_LoadBalancerSourceRanges tpl)
    (default "" (svt_ExternalTrafficPolicy tpl)) (default "" (svt_SessionAffinity tpl))
    (svt_AllocateLoadBalancerNodePorts tpl).

Section services.
Context `{SliceSort}.
Abbreviation C := (M MariaDB vop).
Definition vbase {S} {A} (m : M S op A) : M S vop A := hoistM (λ _ o, VBase o) m.

Definition BuildService {S} (key : NamespacedName) (opts : ServiceOpts) : M S vop Service :=
  if negb (so_ExcludeSelectorLabels opts) && negb (is_some (so_SelectorLabels opts))
  then throw (ErrNew "SelectorLabels are mandatory when ExcludeSelectorLabels is set to false") else
  (if bool_decide (1 < length (so_Ports opts))%nat
   then wrap "error validating Ports" (lift (ValidateServicePorts (so_Ports opts))) else ret tt) ;;;
  wrap "error setting controller reference to Service" (call (VSetControllerReference key)) ;;;
  ret (service_of key opts).

(** ** pkg/controller/service *)
(** The ports kept and added; the numbers are those of the existing ports. *)
Definition merge_ports (existing desired : list CoreServicePort) : list CoreServicePort :=
  existing ++ filter (λ p, csp_Port p ∉ csp_Port <$> existing) desired.

Definition updateServicePorts (existingSvc desiredSvc : Service) : Service :=
  match svc_Ports existingSvc with
  | [] => { existingSvc with svc_Ports := svc_Ports desiredSvc }
  | existing =>
      let ports := merge_ports existing (svc_Ports desiredSvc) in
      { existingSvc with svc_Ports :=
          if negb (bool_decide (svc_Type desiredSvc = ServiceTypeNodePort)) &&
             negb (bool_decide (svc_Type desiredSvc = ServiceTypeLoadBalancer))
          then (λ p, { p with csp_NodePort := 0 }) <$> ports else ports }
  end.

Definition updated_service (existingSvc desiredSvc : Service) : Service :=
  { updateServicePorts existingSvc desiredSvc with
    svc_AllocateLoadBalancerNodePorts := svc_AllocateLoadBalancerNodePorts desiredSvc;
    svc_Selector := svc_Selector desiredSvc;
    svc_Type := svc_Type desiredSvc;
    svc_meta := { svc_meta existingSvc with
      Annotations := Annotations (svc_meta desiredSvc) ∪ Annotations (svc_meta existingSvc);
      Labels := Labels (svc_meta desiredSvc) ∪ Labels (svc_meta existingSvc) } }.

Definition Service_Reconcile {S} (desiredSvc : Service) : M S vop unit :=
  let key := mkNamespacedName (Name (svc_meta desiredSvc)) (Namespace (svc_meta desiredSvc)) in
  r <- try (call (VGetService key)) ;;
  match r with
  | Err err =>
      if negb (IsNotFound err) then throw (ErrWrap "error getting Service" err)
      else wrap "error creating Service" (call (VCreateService key desiredSvc))
  | Ok existingSvc => call (VPatchService key existingSvc (updated_service existingSvc desiredSvc))
  end.

(** ** pkg/controller/endpoints *)
Definition KubernetesServiceLabel : string := "kubernetes.io/service-name".
Definition KubernetesEndpointSliceManagedByLabel : string := "endpointslice.kubernetes.io/managed-by".
Definition KubernetesEndpointSliceManagedByValue : string := "mariadb-operator.k8s.mariadb.com".

Definition BuildEndpointSlice (key : NamespacedName) (mariadb : MariaDB) (addressType : AddressType)
    (endpoints : list Endpoint) (ports : list EndpointPort) (serviceName : string) : C Slice :=
  wrap "error setting controller reference to EndpointSlice" (call (VSetControllerReference key)) ;;;
  ret (mkSlice
    (WithLabels {[ KubernetesEndpointSliceManagedByLabel := KubernetesEndpointSliceManagedByValue;
                   KubernetesServiceLabel := serviceName ]}
      (WithMetadata (sp_InheritMetadata (m_Spec mariadb)) (NewMetadataBuilder key)))
    addressType endpoints ports).

Definition buildEndpoint (pod : Pod) : result Endpoint :=
  if bool_decide (pod_IP pod = "") || bool_decide (pod_NodeName pod = "")
  then Err (ErrNew "Pod IP and NodeName must be set")
  else Ok (mkEndpoint [pod_IP pod] (pod_NodeName pod) (pod_Name pod) (pod_Namespace pod) (pod_UID pod) (PodReady pod)).

Definition getAddressType (pod : Pod) : result AddressType :=
  if bool_decide (pod_IP pod = "") then Err (ErrNew "Pod IP and NodeName must be set") else
  match ParseIP (pod_IP pod) with
  | None => Err (ErrNew "error parsing Pod IP address")
  | Some parsedIp => Ok (if To4 parsedIp then AddressTypeIPv4 else AddressTypeIPv6)
  end.

Definition sort_by_ip (pods : list Pod) : list Pod := sort_slice (λ p q, str_lt (pod_IP p) (pod_IP q)) pods.

(** The loop over the Pods. *)
Fixpoint endpoints_of (primary : Z) (pods : list Pod) : result (list Endpoint) :=
  match pods with
  | [] => Ok []
  | pod :: pods =>
      match buildEndpoint pod with
      | Err _ => endpoints_of primary pods
      | Ok endpoint =>
          podIndex ← wrap_err "error getting Pod index" (PodIndex (pod_Name pod));
          endpoints ← endpoints_of primary pods;
          Ok (if bool_decide (podIndex = primary) then endpoints else endpoint :: endpoints)
      end
  end.

Definition endpoint_ports (mariadb : MariaDB) : list EndpointPort :=
  mkEndpointPort MariadbPortName (sp_Port (m_Spec mariadb)) "TCP" ::
  ((λ p, mkEndpointPort (svp_Name p) (svp_Port p) "TCP") <$> sp_ServicePorts (m_Spec mariadb)).

Definition listPods (mariadb : MariaDB) : C (list Pod) :=
  wrap "error listing Pods"
    (call (VBase (KListPods (WithMariaDBSelectorLabels mariadb ∅) (Namespace (m_meta mariadb))))).

Definition endpointSlice (key : NamespacedName) (mariadb : MariaDB) (primary : Z) (serviceName : string) : C Slice :=
  podList <- listPods mariadb ;;
  match sort_by_ip podList with
  | [] => throw (ErrSentinel errNoEndpointsAvailable)
  | pod :: pods =>
      match getAddressType pod with
      | Err _ => throw (ErrSentinel errNoEndpointsAvailable)
      | Ok addressType =>
          endpoints <- lift (endpoints_of primary (pod :: pods)) ;;
          if bool_decide (endpoints = []) then throw (ErrSentinel errNoEndpointsAvailable) else
          wrap "error building EndpointSlice"
            (BuildEndpointSlice key mariadb addressType endpoints (endpoint_ports mariadb) serviceName)
      end
  end.

Definition Endpoints_Reconcile (key : NamespacedName) (mariadb : MariaDB) (serviceName : string) : C ctrl_Result :=
  match st_CurrentPrimaryPodIndex (m_Status mariadb) with
  | None => ret (requeue_after (1 * Second))
  | Some primary =>
      r <- try (endpointSlice key mariadb primary serviceName) ;;
      match r with
      | Err err =>
          if errors_Is err errNoEndpointsAvailable then ret (requeue_after (1 * Second))
          else throw (ErrWrap "error building desired EndpointSlice" err)
      | Ok desiredEndpointSlice =>
          r <- try (call (VGetSlice key)) ;;
          match r with
          | Err err =>
              if negb (IsNotFound err) then throw (ErrWrap "error getting EndpointSlice" err) else
              wrap "error creating EndpointSlice" (call (VCreateSlice key desiredEndpointSlice)) ;;;
              ret Result_zero
          | Ok existing =>
              call (VPatchSlice key existing { existing with
                sl_Endpoints := sl_Endpoints desiredEndpointSlice;
                sl_Ports := sl_Ports desiredEndpointSlice }) ;;;
              ret Result_zero
          end
      end
  end.

(** ** The Service phase *)
Definition ToKubernetesType (p : ServicePort) : CoreServicePort := mkCoreServicePort (svp_Name p) (svp_Port p) 0 None.

(** The ports every Service has. *)
Definition mariadb_ports (mariadb : MariaDB) : list CoreServicePort :=
  mkCoreServicePort MariadbPortName (sp_Port (m_Spec mariadb)) 0 None ::
  (ToKubernetesType <$> sp_ServicePorts (m_Spec mariadb)).

Definition MysqlAppProtocol : string := "mysql".
Definition GaleraSSTPortName : string := "sst".
Definition GaleraClusterPortName : string := "cluster".
Definition GaleraISTPortName : string := "ist".
Definition AgentPortName : string := "agent".
Definition AgentProbePortName : string := "agent-probe".

Definition galera_ports (mariadb : MariaDB) : list CoreServicePort :=
  let agent := ga_Agent (default Galera_zero (sp_Galera (m_Spec mariadb))) in
  [ mkCoreServicePort GaleraClusterPortName GaleraClusterPort 0 (Some MysqlAppProtocol);
    mkCoreServicePort GaleraISTPortName GaleraISTPort 0 (Some MysqlAppProtocol);
    mkCoreServicePort GaleraSSTPortName GaleraSSTPort 0 (Some MysqlAppProtocol);
    mkCoreServicePort AgentPortName (agent_Port agent) 0 None;
    mkCoreServicePort AgentProbePortName (agent_ProbePort agent) 0 None ].

Definition reconcileDefaultService (mariadb : MariaDB) : C unit :=
  desiredSvc <- wrap "error building Service" (BuildService (ObjectKey mariadb)
    (mkServiceOpts (default ServiceTemplate_zero (sp_Service (m_Spec mariadb)))
      (Some (WithMariaDBSelectorLabels mariadb ∅)) false (mariadb_ports mariadb) false
      (sp_InheritMetadata (m_Spec mariadb)))) ;;
  Service_Reconcile desiredSvc.

Definition reconcileInternalService (mariadb : MariaDB) : C unit :=
  let ports := mariadb_ports mariadb ++ (if IsGaleraEnabled mariadb then galera_ports mariadb else []) in
  desiredSvc <- wrap "error building internal Service" (BuildService (InternalServiceKey mariadb)
    (mkServiceOpts ServiceTemplate_zero (Some (WithMariaDBSelectorLabels mariadb ∅)) false ports true
      (sp_InheritMetadata (m_Spec mariadb)))) ;;
  Service_Reconcile desiredSvc.

Definition reconcilePrimaryService (mariadb : MariaDB) : C ctrl_Result :=
  match st_CurrentPrimaryPodIndex (m_Status mariadb) with
  | None => ret (requeue_after (1 * Second))
  | Some primary =>
      let serviceLabels := WithStatefulSetPod (m_meta mariadb) primary (WithMariaDBSelectorLabels mariadb ∅) in
      desiredSvc <- wrap "error building Service" (BuildService (PrimaryServiceKey mariadb)
        (mkServiceOpts (default ServiceTemplate_zero (sp_PrimaryService (m_Spec mariadb)))
          (Some serviceLabels) false (mariadb_ports mariadb) false (sp_InheritMetadata (m_Spec mariadb)))) ;;
      Service_Reconcile desiredSvc ;;;
      ret Result_zero
  end.

Definition reconcileSecondaryService (mariadb : MariaDB) : C ctrl_Result :=
  let key := SecondaryServiceKey mariadb in
  desiredSvc <- wrap "error building Service" (BuildService key
    (mkServiceOpts (default ServiceTemplate_zero (sp_SecondaryService (m_Spec mariadb)))
      (Some (WithMariaDBSelectorLabels mariadb ∅)) true (mariadb_ports mariadb) false
      (sp_InheritMetadata (m_Spec mariadb)))) ;;
  Service_Reconcile desiredSvc ;;;
  Endpoints_Reconcile key mariadb (nn_Name key).

(** The requeue that the Services of the roles ask for is not passed on. *)
Definition reconcileService : C ctrl_Result :=
  mariadb <- get ;;
  wrap "error reconciling internal Service" (reconcileInternalService mariadb) ;;;
  wrap "error reconciling default Service" (reconcileDefaultService mariadb) ;;;
  if IsHAEnabled mariadb then
    result <- reconcilePrimaryService mariadb ;;
    if negb (Result_IsZero result) then ret Result_zero else
    result <- reconcileSecondaryService mariadb ;;
    if negb (Result_IsZero result) then ret Result_zero else ret Result_zero
  else ret Result_zero.

(** ** The Labels phase *)
Definition pod_role (primary podIndex : Z) : string := if bool_decide (podIndex = primary) then "primary" else "replica".

Definition label_pod (primary : Z) (pod : Pod) : C ctrl_Result :=
  if bool_decide (pod_IP pod = "") || bool_decide (pod_NodeName pod = "") then ret Result_zero else
  podIndex <- wrap "error getting Pod index" (lift (PodIndex (pod_Name pod))) ;;
  let pod := { pod with pod_Labels := WithPodRole (pod_role primary podIndex) (pod_Labels pod) } in
  if PodReady pod then
    r <- try (call (VBase (KPatchPod pod))) ;;
    match r with
    | Ok _ => ret Result_zero
    | Err err => if IsConflict err then ret requeue else if IsNotFound err then ret requeue else throw err
    end
  else ret Result_zero.

Definition reconcilePodLabels : C ctrl_Result :=
  mariadb <- get ;;
  match st_CurrentPrimaryPodIndex (m_Status mariadb) with
  | None => ret (requeue_after (5 * Second))
  | Some primary =>
      podList <- listPods mariadb ;;
      for_each_result podList (label_pod primary)
  end.

(** ** The PodDisruptionBudget phase *)
Record PodDisruptionBudgetOpts := mkPodDisruptionBudgetOpts {
  pdo_Metadata : option Metadata;
  pdo_Key : NamespacedName;
  pdo_MinAvailable : option IntOrString;
  pdo_MaxUnavailable : option IntOrString;
  pdo_SelectorLabels : gmap string string
}.
Definition BuildPodDisruptionBudget {S} (opts : PodDisruptionBudgetOpts) : M S vop PDB :=
  wrap "error setting controller reference to PodDisruptionBudget" (call (VSetControllerReference (pdo_Key opts))) ;;;
  ret (mkPDB (WithMetadata (pdo_Metadata opts) (NewMetadataBuilder (pdo_Key opts)))
    (pdo_MinAvailable opts) (pdo_MaxUnavailable opts) (pdo_SelectorLabels opts)).

(** An existing budget is left as it is; every error counts as a missing one. *)
Definition create_pdb (mariadb : MariaDB) (minAvailable maxUnavailable : option IntOrString) : C unit :=
  let key := ObjectKey mariadb in
  r <- try (call (VGetPDB key)) ;;
  match r with
  | Ok _ => ret tt
  | Err _ =>
      pdb <- wrap "error building PodDisruptionBudget" (BuildPodDisruptionBudget
        (mkPodDisruptionBudgetOpts (sp_InheritMetadata (m_Spec mariadb)) key minAvailable maxUnavailable
          (WithMariaDBSelectorLabels mariadb ∅))) ;;
      call (VCreatePDB pdb)
  end.

Definition reconcileHighAvailabilityPDB (mariadb : MariaDB) : C unit := create_pdb mariadb (Some (StrVal "50%")) None.
Definition reconcileDefaultPDB (mariadb : MariaDB) : C unit :=
  match sp_PodDisruptionBudget (m_Spec mariadb) with
  | None => ret tt
  | Some pdb => create_pdb mariadb (pdb_MinAvailable pdb) (pdb_MaxUnavailable pdb)
  end.
Definition reconcilePodDisruptionBudget : C ctrl_Result :=
  mariadb <- get ;;
  (if IsHAEnabled mariadb && negb (is_some (sp_PodDisruptionBudget (m_Spec mariadb)))
   then reconcileHighAvailabilityPDB mariadb else reconcileDefaultPDB mariadb) ;;;
  ret Result_zero.
End services.

(** ** Lemmas *)
Lemma app_eq_self s t : s +:+ t = s → t = "".
Proof.
  intros Heq. apply (f_equal String.length) in Heq. rewrite str_length_app in Heq.
  destruct t; [done|]. cbn in Heq. lia.
Qed.

Lemma service_keys_differ m :
  NoDup [PrimaryServiceKey m; SecondaryServiceKey m; InternalServiceKey m; ObjectKey m].
Proof.
  assert (∀ s t, s ≠ t → key_with_suffix m s ≠ key_with_suffix m t) as Hs.
  { intros s t Hne [= Heq]. by apply String.app_inj in Heq. }
  assert (∀ s, s ≠ "" → key_with_suffix m s ≠ ObjectKey m) as Ho.
  { intros s Hne [= Heq]. by apply app_eq_self in Heq. }
  repeat constructor; rewrite ?not_elem_of_cons; repeat split; try apply not_elem_of_nil;
    first [by apply Hs|by apply Ho].
Qed.

(** *** The ports of a Service *)
Lemma merge_ports_numbers existing desired n :
  n ∈ csp_Port <$> merge_ports existing desired ↔ n ∈ csp_Port <$> existing ∨ n ∈ csp_Port <$> desired.
Proof.
  unfold merge_ports. rewrite fmap_app, elem_of_app, !list_elem_of_fmap. split.
  - intros [?|(p & -> & [_ ?]%list_elem_of_filter)]; [by left|right; eauto].
  - intros [?|(p & -> & Hp)]; [by left|].
    destruct (decide (csp_Port p ∈ csp_Port <$> existing)) as [Hin|Hin]; [left; by apply list_elem_of_fmap in Hin|].
    right. exists p. rewrite list_elem_of_filter. auto.
Qed.

Lemma merge_ports_settled existing desired :
  (∀ p, p ∈ desired → csp_Port p ∈ csp_Port <$> existing) → merge_ports existing desired = existing.
Proof.
  intros Hd. unfold merge_ports. replace (filter _ desired) with (@nil CoreServicePort); [apply app_nil_r|].
  symmetry. induction desired as [|p desired IH]; [done|]. rewrite filter_cons_False.
  - apply IH. intros q Hq. apply Hd. by right.
  - intros Hn. apply Hn, Hd. by left.
Qed.

(** *** Writes of Services *)
Section writes.
Context `{SliceSort}.
Implicit Types m : MariaDB.

(** The only writes are of that Service, with that selector. *)
Definition writes_service (key : NamespacedName) (selector : option (gmap string string)) (e : event vop) : Prop :=
  match ev_op e with
  | VCreateService k s | VPatchService k _ s => k = key ∧ svc_Selector s = selector
  | VCreateSlice _ _ | VPatchSlice _ _ _ | VCreatePDB _ | VBase _ => False
  | _ => True
  end.

Lemma BuildService_bind {S A} key opts ctx P (f : Service → M S vop A) :
  (∀ r, P (Ev (VSetControllerReference key) r)) → alwaysM P (f (service_of key opts)) →
  alwaysM P (bind (wrap ctx (BuildService key opts)) f).
Proof.
  intros HP Hf s. unfold BuildService. unfold bind, wrap, throw, lift, call, ret in *.
  destruct (negb _ && negb _); cbn; [done|].
  destruct (bool_decide _); cbn; [destruct (wrap_err _ _); cbn; [|done]|];
    intros [[]|e]; cbn; (split; [apply HP|]); done || apply Hf.
Qed.

Lemma Service_Reconcile_writes {S} svc :
  alwaysM (writes_service (mkNamespacedName (Name (svc_meta svc)) (Namespace (svc_meta svc))) (svc_Selector svc))
    (Service_Reconcile (S := S) svc).
Proof. unfold Service_Reconcile. always_auto; done. Qed.

Lemma service_of_key key opts :
  mkNamespacedName (Name (svc_meta (service_of key opts))) (Namespace (svc_meta (service_of key opts))) = key.
Proof. destruct key, opts as [[? [] ? ? ? ? ?] ? ? ? ? []]; done. Qed.

Lemma reconciled_service_writes {S A} ctx key opts (k : M S vop A) (P : event vop → Prop) :
  (∀ e, writes_service key (svc_Selector (service_of key opts)) e → P e) → alwaysM P k →
  alwaysM P (bind (wrap ctx (BuildService key opts)) (λ svc, Service_Reconcile svc ;;; k)).
Proof.
  intros HP Hk. apply BuildService_bind; [intros r; by apply HP|]. apply alwaysM_bind; [|by intros _].
  pose proof (Service_Reconcile_writes (S := S) (service_of key opts)) as Hw. rewrite service_of_key in Hw.
  intros s. specialize (Hw s). induction (Service_Reconcile (service_of key opts) s); cbn in *; naive_solver.
Qed.
End writes.

(** *** Endpoints *)
Definition serves (primary : Z) (pod : Pod) : Prop :=
  pod_IP pod ≠ "" ∧ pod_NodeName pod ≠ "" ∧ PodIndex (pod_Name pod) ≠ Ok primary.
#[export] Instance serves_dec primary pod : Decision (serves primary pod).
Proof. unfold serves. apply _. Defined.
Definition endpoint_of (pod : Pod) : Endpoint :=
  mkEndpoint [pod_IP pod] (pod_NodeName pod) (pod_Name pod) (pod_Namespace pod) (pod_UID pod) (PodReady pod).

Lemma endpoints_of_serves primary pods endpoints :
  endpoints_of primary pods = Ok endpoints → endpoints = endpoint_of <$> filter (serves primary) pods.
Proof.
  revert endpoints. induction pods as [|pod pods IH]; cbn [endpoints_of]; intros endpoints; [by intros [= <-]|].
  unfold buildEndpoint. destruct (bool_decide_reflect (pod_IP pod = "")) as [Hip|Hip]; cbn [orb].
  { intros Ho%IH. rewrite filter_cons_False; [done|]. by intros []. }
  destruct (bool_decide_reflect (pod_NodeName pod = "")) as [Hn|Hn].
  { intros Ho%IH. rewrite filter_cons_False; [done|]. by intros (_ & ? & _). }
  intros (i & Hi%wrap_err_Ok & (es & Hes%IH & [= <-])%result_bind_Ok)%result_bind_Ok.
  case_bool_decide as Hp; subst.
  - rewrite filter_cons_False; [done|]. by intros (_ & _ & ?).
  - rewrite filter_cons_True; [done|]. repeat split; [done..|]. congruence.
Qed.

(** The first Pod by address is one without, if there is one. *)
Lemma sort_by_ip_first `{SliceSort} pods pod : pod ∈ pods → pod_IP pod = "" →
  ∃ first rest, sort_by_ip pods = first :: rest ∧ pod_IP first = "".
Proof.
  intros Hin Hip. unfold sort_by_ip.
  assert (StronglySorted (λ p q, String.le (pod_IP p) (pod_IP q))
    (sort_slice (λ p q, str_lt (pod_IP p) (pod_IP q)) pods)) as Hs.
  { eapply StronglySorted_weaken; [|apply sort_slice_sorted].
    - intros p q Hpq. by apply str_lt_false.
    - intros x y z. rewrite !str_lt_false. intros; by etrans.
    - intros x y. rewrite !str_lt_false. apply (total String.le). }
  assert (pod ∈ sort_slice (λ p q, str_lt (pod_IP p) (pod_IP q)) pods) as Hin' by by rewrite sort_slice_perm.
  destruct (sort_slice _ pods) as [|first rest]; [by apply elem_of_nil in Hin'|].
  exists first, rest. split; [done|]. apply StronglySorted_inv in Hs as [_ Hall].
  apply elem_of_cons in Hin' as [->|Hin']; [done|]. rewrite Forall_forall in Hall. specialize (Hall pod Hin').
  rewrite Hip in Hall. destruct (pod_IP first) as [|c s]; [done|]. exfalso. revert Hall. clear.
  unfold String.le. cbn. done.
Qed.

(** ** Routing *)
Section routing.
Context `{SliceSort}.
Implicit Types m : MariaDB.

Definition listed (m : MariaDB) (pods : list Pod) (t : vtrace) : Prop :=
  Ev (VBase (KListPods (WithMariaDBSelectorLabels m ∅) (Namespace (m_meta m)))) (Ok pods) ∈ t.

(** The answer to the list of Pods. *)
Definition pods_answer (e : event vop) : option (list Pod) :=
  match ev_op e in vop X return X → option (list Pod) with
  | VBase o =>
      match o in op Y return Y → option (list Pod) with
      | KListPods _ _ => λ r, match r with Ok pods => Some pods | Err _ => None end
      | _ => λ _, None
      end
  | _ => λ _, None
  end (ev_ans e).
Lemma listed_answer m pods t : listed m pods t → ∃ e, e ∈ t ∧ pods_answer e = Some pods.
Proof. intros Hl. by eexists. Qed.

(** The endpoints of a slice are the listed Pods with an address and a node, but for the primary. *)
Definition slice_from (m : MariaDB) (s : Slice) (t : vtrace) : Prop := ∃ primary pods,
  st_CurrentPrimaryPodIndex (m_Status m) = Some primary ∧ listed m pods t ∧
  sl_Endpoints s ≡ₚ endpoint_of <$> filter (serves primary) pods ∧ sl_Endpoints s ≠ [].

(** What a write of the phase may say, in a run with the trace [t]. *)
Definition routed (m : MariaDB) (t : vtrace) (e : event vop) : Prop :=
  match ev_op e with
  | VCreateService key s | VPatchService key _ s =>
      (key = PrimaryServiceKey m ∧ ∃ primary, st_CurrentPrimaryPodIndex (m_Status m) = Some primary ∧
         svc_Selector s = Some (WithStatefulSetPod (m_meta m) primary (WithMariaDBSelectorLabels m ∅))) ∨
      (key = SecondaryServiceKey m ∧ svc_Selector s = None) ∨
      (key ∈ [InternalServiceKey m; ObjectKey m] ∧ svc_Selector s = Some (WithMariaDBSelectorLabels m ∅))
  | VCreateSlice key s | VPatchSlice key _ s => key = SecondaryServiceKey m ∧ slice_from m s t
  | VCreatePDB _ => False
  | _ => True
  end.

Lemma routed_incl m t t' e : t ⊆ t' → routed m t e → routed m t' e.
Proof.
  intros Ht. unfold routed. destruct (ev_op e); try done;
    intros [-> (p & pods & ? & ? & ?)]; (split; [done|]); exists p, pods; repeat split; try apply Ht; naive_solver.
Qed.

Lemma endpointSlice_spec m primary s : st_CurrentPrimaryPodIndex (m_Status m) = Some primary →
  wpM (endpointSlice (SecondaryServiceKey m) m primary (nn_Name (SecondaryServiceKey m))) s (λ t s' r,
    s' = s ∧ Forall (routed m []) t ∧ (∀ sl, r = Ok sl → slice_from m sl t) ∧
    (∀ pods pod, listed m pods t → pod ∈ pods → pod_IP pod = "" → r = Err (ErrSentinel errNoEndpointsAvailable))).
Proof.
  intros Hp. unfold endpointSlice, listPods. wp_step. wp_step. wp_step; cbn [wrap_err].
  2: { split; [done|]. split; [by repeat constructor|]. split; [done|]. 
    by intros pods pod (ev & ->%list_elem_of_singleton & [=])%listed_answer. }
  assert (∀ t, t = [] ∨ (∃ k r, t = [Ev (VSetControllerReference k) r]) → ∀ pods, listed m pods
    (Ev (VBase (KListPods (WithMariaDBSelectorLabels m ∅) (Namespace (m_meta m)))) (Ok a) :: t) → pods = a) as Hl.
  { intros t Ht pods (ev & [->|Hin]%elem_of_cons & Hev)%listed_answer; [by cbn in Hev; injection Hev|].
    destruct Ht as [->|(k & r & ->)]; [by apply elem_of_nil in Hin|]. apply list_elem_of_singleton in Hin as ->. done. }
  assert (∀ pods pod, pods = a → pod ∈ pods → pod_IP pod = "" → ∃ first rest,
    sort_by_ip a = first :: rest ∧ getAddressType first = Err (ErrNew "Pod IP and NodeName must be set")) as Hfirst.
  { intros pods pod -> Hin Hip. destruct (sort_by_ip_first a pod Hin Hip) as (first & rest & -> & Hf).
    exists first, rest. unfold getAddressType. by rewrite Hf. }
  destruct (sort_by_ip a) as [|first rest] eqn:Hs.
  { wp_step. split; [done|]. split; [by repeat constructor|]. by split. }
  destruct (getAddressType first) as [ty|e] eqn:Ht.
  2: { wp_step. split; [done|]. split; [by repeat constructor|]. by split. }
  assert (∀ t, t = [] ∨ (∃ k r, t = [Ev (VSetControllerReference k) r]) → ∀ r : result Slice, ∀ pods pod, listed m pods
    (Ev (VBase (KListPods (WithMariaDBSelectorLabels m ∅) (Namespace (m_meta m)))) (Ok a) :: t) → pod ∈ pods →
    pod_IP pod = "" → r = Err (ErrSentinel errNoEndpointsAvailable)) as Hno.
  { intros t Ht' r pods pod Hli Hin Hip. destruct (Hfirst pods pod (Hl t Ht' pods Hli) Hin Hip) as (? & ? & [= <- <-] & ?).
    congruence. }
  wp_step. wp_step. destruct (endpoints_of primary (first :: rest)) as [es|e] eqn:He.
  2: { split; [done|]. split; [by repeat constructor|]. split; [done|]. apply (Hno []). by left. }
  wp_step; cbn [app].
  { wp_step. split; [done|]. split; [by repeat constructor|]. split; [done|]. apply (Hno []). by left. }
  unfold BuildEndpointSlice. do 4 wp_step.
  - wp_step. split; [done|]. split; [by repeat constructor|]. split; [|apply (Hno [_]); right; eauto].
    intros sl [= <-]. exists primary, a. split; [done|]. split; [by left|]. apply bool_decide_eq_false in Heqb.
    split; [|done]. cbn. unfold constant. rewrite (endpoints_of_serves _ _ _ He), <- Hs. unfold sort_by_ip.
    by rewrite sort_slice_perm.
  - split; [done|]. split; [by repeat constructor|]. split; [done|]. apply (Hno [_]). right; eauto.
Qed.

Definition no_slice_written (e : event vop) : Prop :=
  match ev_op e with VCreateSlice _ _ | VPatchSlice _ _ _ => False | _ => True end.
Definition addressless (m : MariaDB) (t : vtrace) : Prop :=
  ∃ pods pod, listed m pods t ∧ pod ∈ pods ∧ pod_IP pod = "".

Lemma addressless_cons m e t : pods_answer e = None → addressless m (e :: t) → addressless m t.
Proof.
  intros He (pods & pod & [Heq|Hin]%elem_of_cons & Hp); [subst e; done|]. by exists pods, pod.
Qed.

Lemma Endpoints_Reconcile_spec m s :
  wpM (Endpoints_Reconcile (SecondaryServiceKey m) m (nn_Name (SecondaryServiceKey m))) s (λ t s' _,
    s' = s ∧ Forall (routed m t) t ∧ (addressless m t → Forall no_slice_written t)).
Proof.
  unfold Endpoints_Reconcile. destruct (st_CurrentPrimaryPodIndex (m_Status m)) as [primary|] eqn:Hp.
  2: { wp_step. by repeat split. }
  wp_step. wp_step. eapply wpM_mono; [|by apply endpointSlice_spec]. intros t s' r (-> & Ht & Hsl & Hno).
  assert (Forall no_slice_written t) as Hn.
  { eapply Forall_impl; [exact Ht|]. intros e He. unfold routed, no_slice_written in *.
    destruct (ev_op e); try done; destruct He as (_ & ? & ? & _ & Hl & _); by apply elem_of_nil in Hl. }
  assert (∀ u, Forall (routed m u) t) as Htu.
  { intros u. eapply Forall_impl; [exact Ht|]. intros e. apply routed_incl. set_solver. }
  destruct r as [sl|e].
  2: { wp_step; wp_step; rewrite app_nil_r; auto. }
  specialize (Hsl sl eq_refl).
  assert (∀ u pods pod, Forall (λ e, pods_answer e = None) u → listed m pods (t ++ u) → pod ∈ pods → pod_IP pod ≠ "") as Haddr.
  { intros u pods pod Hu Hl Hin Hip. apply elem_of_app in Hl as [Hl|Hl]; [by specialize (Hno pods pod Hl Hin Hip)|].
    rewrite Forall_forall in Hu. by specialize (Hu _ Hl). }
  assert (∀ u, Forall (λ e, pods_answer e = None) u → addressless m (t ++ u) → Forall no_slice_written (t ++ u)) as Hfree.
  { intros u Hu (pods & pod & Hl & Hin & Hip). by destruct (Haddr u pods pod Hu Hl Hin Hip). }
  wp_auto; (split; [done|]); (split; [|apply Hfree; by repeat constructor]); (apply Forall_app; split; [done|]);
    repeat constructor; destruct Hsl as (p & pods & ? & Hl & ? & ?); exists p, pods; repeat split; try done;
    apply elem_of_app; by left.
Qed.

Lemma service_routed m key selector e t :
  (∃ primary, key = PrimaryServiceKey m ∧ st_CurrentPrimaryPodIndex (m_Status m) = Some primary ∧
     selector = Some (WithStatefulSetPod (m_meta m) primary (WithMariaDBSelectorLabels m ∅))) ∨
  (key = SecondaryServiceKey m ∧ selector = None) ∨
  (key ∈ [InternalServiceKey m; ObjectKey m] ∧ selector = Some (WithMariaDBSelectorLabels m ∅)) →
  writes_service key selector e → routed m t e ∧ no_slice_written e ∧ pods_answer e = None.
Proof.
  intros Hk He. destruct e as [ty o ans]. unfold writes_service, routed, no_slice_written, pods_answer in *. cbn in *.
  destruct o; cbn in *; try done; destruct He as [-> ->]; (split; [|done]).
  all: destruct Hk as [(p & -> & ? & ->)|[Hk|Hk]]; [left; eauto|right; by left|right; by right].
Qed.

(** Every write of a Service that is not followed by endpoints. *)
Definition service_step (m : MariaDB) (e : event vop) : Prop :=
  routed m [] e ∧ no_slice_written e ∧ pods_answer e = None.

Lemma alwaysM_weaken {A} (P Q : event vop → Prop) (c : M MariaDB vop A) :
  (∀ e, P e → Q e) → alwaysM P c → alwaysM Q c.
Proof. intros HP Hc s. specialize (Hc s). induction (c s); cbn in *; naive_solver. Qed.

Lemma default_service_step m : alwaysM (service_step m) (reconcileDefaultService m).
Proof.
  apply BuildService_bind; [done|]. eapply alwaysM_weaken; [|apply Service_Reconcile_writes].
  intros e. rewrite service_of_key. apply service_routed. right. right. split; [set_solver|done].
Qed.
Lemma internal_service_step m : alwaysM (service_step m) (reconcileInternalService m).
Proof.
  apply BuildService_bind; [done|]. eapply alwaysM_weaken; [|apply Service_Reconcile_writes].
  intros e. rewrite service_of_key. apply service_routed. right. right. split; [set_solver|done].
Qed.
Lemma primary_service_step m : alwaysM (service_step m) (reconcilePrimaryService m).
Proof.
  unfold reconcilePrimaryService. destruct (st_CurrentPrimaryPodIndex (m_Status m)) as [primary|] eqn:Hp; [|by apply alwaysM_ret].
  apply reconciled_service_writes; [|apply alwaysM_ret].
  intros e. apply service_routed. left. by exists primary.
Qed.

Lemma addressless_app m u t : Forall (service_step m) u → addressless m (u ++ t) → addressless m t.
Proof.
  induction 1 as [|e u (_ & _ & He) _ IH]; [done|]. intros Ha. by apply IH, (addressless_cons m e).
Qed.

Definition service_post (m : MariaDB) (t : vtrace) (m' : MariaDB) : Prop :=
  m' = m ∧ Forall (routed m t) t ∧ (addressless m t → Forall no_slice_written t).

Lemma service_post_steps m u t m' : Forall (service_step m) u → service_post m t m' → service_post m (u ++ t) m'.
Proof.
  intros Hu (-> & Ht & Hf). split; [done|]. split.
  - apply Forall_app. split; (eapply Forall_impl; [eassumption|]).
    + intros e (He & _). eapply routed_incl; [|exact He]. set_solver.
    + intros e. apply routed_incl. set_solver.
  - intros Ha%addressless_app; [|done]. apply Forall_app. split; [|by apply Hf].
    eapply Forall_impl; [exact Hu|]. by intros e (_ & ? & _).
Qed.

(** A step that only writes Services comes before the rest of the phase. *)
Lemma wpM_service_front {A B} m (m1 : M MariaDB vop A) (f : A → M MariaDB vop B) :
  alwaysM (service_step m) m1 → keepsM eq m1 →
  (∀ x, wpM (f x) m (λ t m' _, service_post m t m')) → wpM (bind m1 f) m (λ t m' _, service_post m t m').
Proof.
  intros Ha Hk Hf. wp_step. eapply wpM_mono; [|apply wpM_conj; [apply (alwaysM_wpM _ _ m Ha)|apply Hk]].
  intros t s' [x|e] [Ht <-].
  - eapply wpM_mono; [|apply Hf]. intros t' s'' r' Hp. by apply service_post_steps.
  - rewrite <- (app_nil_r t). apply service_post_steps; [done|]. by repeat split.
Qed.

Lemma BuildService_spec m ctx key opts : wpM (wrap ctx (BuildService key opts)) m (λ t m' r,
  m' = m ∧ Forall (service_step m) t ∧ ∀ svc, r = Ok svc → svc = service_of key opts).
Proof. unfold BuildService. wp_auto; repeat split; try done; try (by repeat constructor); by intros ? [= <-]. Qed.

Lemma secondary_service_spec m : wpM (reconcileSecondaryService m) m (λ t m' _, service_post m t m').
Proof.
  unfold reconcileSecondaryService. wp_step. eapply wpM_mono; [|apply BuildService_spec].
  intros t m' [svc|e] (-> & Ht & Hsvc); [|rewrite <- (app_nil_r t); by apply service_post_steps].
  eapply wpM_mono; [intros t' s' r; by apply service_post_steps|]. rewrite (Hsvc svc eq_refl).
  apply wpM_service_front; [|keeps_auto|intros _; apply Endpoints_Reconcile_spec].
  eapply alwaysM_weaken; [|apply Service_Reconcile_writes]. intros e. rewrite service_of_key.
  apply service_routed. right. by left.
Qed.

Lemma reconcileService_spec m : wpM reconcileService m (λ t m' _, service_post m t m').
Proof.
  unfold reconcileService. wp_step. wp_step. apply wpM_service_front; [apply alwaysM_wrap, internal_service_step|
    unfold reconcileInternalService, BuildService; keeps_auto|]. intros _.
  apply wpM_service_front; [apply alwaysM_wrap, default_service_step|
    unfold reconcileDefaultService, BuildService; keeps_auto|]. intros _.
  wp_step; [|wp_step; by repeat split].
  apply wpM_service_front; [apply primary_service_step|unfold reconcilePrimaryService, BuildService; keeps_auto|]. intros res.
  wp_step; [wp_step; by repeat split|]. wp_step. eapply wpM_mono; [|apply secondary_service_spec].
  intros t m' [res'|e] Hp; [|done]. wp_auto; by rewrite app_nil_r.
Qed.

(** C9: the Service phase routes by role: the primary Service selects exactly the Pod of the current
    primary, the secondary one has no selector of its own and an EndpointSlice with exactly the
    listed Pods that have an address and a node but are not the primary, each with its
    readiness; the other Services select all Pods.  Nothing else is written. *)
Theorem services_route_by_role (m : MariaDB) :
  wpM reconcileService m (λ t m' _, m' = m ∧ Forall (routed m t) t).
Proof. eapply wpM_mono; [|apply reconcileService_spec]. by intros t m' r (? & ? & _). Qed.

(** As long as one of the listed Pods has no address, the endpoints of the replicas stay as they
    are, whatever happened to the other Pods, and the phase does not ask to be run again. *)
Theorem pod_without_address_freezes_endpoints (m : MariaDB) :
  wpM reconcileService m (λ t _ r, addressless m t →
    Forall no_slice_written t ∧ (is_ok r = true → r = Ok Result_zero)).
Proof.
  assert (okM reconcileService (λ res _, res = Result_zero)) as Hz.
  { unfold reconcileService.
    repeat (apply okM_bind with (P := λ _ _, True); [by apply okM_true|intros ? ? _]; try case_match); by apply okM_ret. }
  eapply wpM_mono; [|apply wpM_conj; [apply reconcileService_spec|apply (Hz m)]].
  intros t m' [res|e] [(_ & _ & Hf) Hr] Ha; (split; [by apply Hf|]); [|done]. intros _. by rewrite (Hr res eq_refl).
Qed.
End routing.

(** ** Roles *)
Section roles.
Context `{SliceSort}.
Implicit Types m : MariaDB.

(** [p] is the Pod with index [i], labelled "primary" if that is the index of the primary and
    "replica" if not, with its other labels and fields as they were. *)
Record labelled (primary i : Z) (pod p : Pod) : Prop := {
  lb_primary : i = primary → pod_Labels p !! "k8s.mariadb.com/role" = Some "primary";
  lb_replica : i ≠ primary → pod_Labels p !! "k8s.mariadb.com/role" = Some "replica";
  lb_others k : k ≠ "k8s.mariadb.com/role" → pod_Labels p !! k = pod_Labels pod !! k;
  lb_fields : p = { pod with pod_Labels := pod_Labels p }
}.
Lemma labelled_role primary i pod :
  labelled primary i pod { pod with pod_Labels := WithPodRole (pod_role primary i) (pod_Labels pod) }.
Proof.
  unfold pod_role, WithPodRole, podRole. split; cbn; unfold constant.
  - intros ->. by rewrite bool_decide_true, lookup_insert_eq.
  - intros Hn. by rewrite bool_decide_false, lookup_insert_eq.
  - intros k Hk. by rewrite lookup_insert_ne.
  - done.
Qed.
Definition routable (pod : Pod) : Prop := pod_IP pod ≠ "" ∧ pod_NodeName pod ≠ "" ∧ PodReady pod = true.

(** The only requests after the list are patches that set the roles of ready Pods. *)
Definition role_event (primary : Z) (pods : list Pod) (e : event vop) : Prop :=
  match ev_op e with
  | VBase (KPatchPod p) => ∃ pod i, pod ∈ pods ∧ routable pod ∧ PodIndex (pod_Name pod) = Ok i ∧ labelled primary i pod p
  | _ => False
  end.
Definition role_patched (primary : Z) (t : vtrace) (pod : Pod) : Prop :=
  routable pod → ∃ i p, PodIndex (pod_Name pod) = Ok i ∧ labelled primary i pod p ∧ Ev (VBase (KPatchPod p)) (Ok tt) ∈ t.

Lemma role_event_incl primary pods pods' e : pods ⊆ pods' → role_event primary pods e → role_event primary pods' e.
Proof.
  intros Hs. unfold role_event. destruct (ev_op e) as [? []| | | | | | | | |]; try done.
  intros (pod & i & ? & ?). exists pod, i. auto.
Qed.

Lemma label_pod_spec primary pod s : wpM (label_pod primary pod) s (λ t s' r,
  s' = s ∧ Forall (role_event primary [pod]) t ∧ (r = Ok Result_zero → role_patched primary t pod)).
Proof.
  unfold label_pod. destruct (bool_decide_reflect (pod_IP pod = "")) as [Hip|Hip]; cbn [orb].
  { wp_step. split; [done|]. split; [done|]. by intros _ []. }
  destruct (bool_decide_reflect (pod_NodeName pod = "")) as [Hn|Hn].
  { wp_step. split; [done|]. split; [done|]. by intros _ (_ & ? & _). }
  do 4 wp_step; [|done]. wp_step.
  2: { wp_step. split; [done|]. split; [done|]. intros _ (_ & _ & Hr). change (PodReady pod = false) in Heqb. congruence. }
  assert (routable pod) as Hr by done.
  set (p := { pod with pod_Labels := WithPodRole (pod_role primary a) (pod_Labels pod) }). assert (labelled primary a pod p) as Hp by apply labelled_role.
  assert (∀ r, Forall (role_event primary [pod]) [Ev (VBase (KPatchPod p)) r]) as Hev.
  { intros r. constructor; [|done]. exists pod, a. split; [by left|done]. }
  wp_step. wp_step. wp_step.
  - wp_step. split; [done|]. split; [apply Hev|]. intros _ _. exists a, p. split_and!; [done..|]. destruct a0. by left.
  - wp_auto; (split; [done|]); (split; [apply Hev|]); done.
Qed.

Lemma label_pods_spec primary pods s : wpM (for_each_result pods (label_pod primary)) s (λ t s' r,
  s' = s ∧ Forall (role_event primary pods) t ∧ (r = Ok Result_zero → Forall (role_patched primary t) pods)).
Proof.
  revert s. induction pods as [|pod pods IH]; intros s; cbn [for_each_result].
  { wp_step. by repeat split. }
  unfold then_if_zero. wp_step. eapply wpM_mono; [|apply label_pod_spec]. intros t s' r (-> & Ht & Hr).
  assert (Forall (role_event primary (pod :: pods)) t) as Ht'.
  { eapply Forall_impl; [exact Ht|]. intros e. apply role_event_incl. set_solver. }
  destruct r as [res|e]; [|by split].
  destruct (Result_IsZero res) eqn:Hz; cbn [negb].
  2: { wp_step. rewrite app_nil_r. split; [done|]. split; [done|]. intros [= ->]. done. }
  apply bool_decide_eq_true in Hz as ->. eapply wpM_mono; [|apply IH]. intros t' s' r' (-> & Hts & Hr').
  split; [done|]. split.
  - apply Forall_app. split; [done|]. eapply Forall_impl; [exact Hts|]. intros e. apply role_event_incl. set_solver.
  - intros Hok. constructor.
    + intros Hp. destruct (Hr eq_refl Hp) as (i & q & Hi & Hq & Hin). exists i, q. split_and!; [done..|]. apply elem_of_app. by left.
    + eapply Forall_impl; [exact (Hr' Hok)|]. intros p Hpp Hp. destruct (Hpp Hp) as (i & q & Hi & Hq & Hin). exists i, q.
      split_and!; [done..|]. apply elem_of_app. by right.
Qed.

(** C21: the Labels phase gives the label primary to the Pod of the current primary and replica to
    the others: it patches nothing but the role of listed, ready Pods, and when it ends without
    asking for another run it has set the role of every one of them. *)
Theorem pod_roles_follow_primary (m : MariaDB) :
  wpM reconcilePodLabels m (λ t m' r, m' = m ∧
    match st_CurrentPrimaryPodIndex (m_Status m) with
    | None => t = [] ∧ r = Ok (requeue_after (5 * Second))
    | Some primary => ∃ ans t', t = Ev (VBase (KListPods (WithMariaDBSelectorLabels m ∅) (Namespace (m_meta m)))) ans :: t' ∧
        match ans with
        | Ok pods => Forall (role_event primary pods) t' ∧ (r = Ok Result_zero → Forall (role_patched primary t') pods)
        | Err e => t' = [] ∧ r = Err (ErrWrap "error listing Pods" e)
        end
    end).
Proof.
  unfold reconcilePodLabels, listPods. do 2 wp_step. destruct (st_CurrentPrimaryPodIndex (m_Status m)) as [primary|].
  - do 3 wp_step; cbn [wrap_err app].
    + eapply wpM_mono; [|apply label_pods_spec]. intros t m' r (-> & Ht & Hr). split; [done|]. by exists (Ok a), t.
    + split; [done|]. by exists (Err e), [].
  - by wp_step.
Qed.
End roles.

(** ** The ports of a Service that exists *)
(** After an update the Service has the numbers it had and those that were asked for, and the
    next update changes no number. *)
Lemma updateServicePorts_numbers existing desired n :
  n ∈ csp_Port <$> svc_Ports (updateServicePorts existing desired) ↔
  n ∈ csp_Port <$> svc_Ports existing ∨ n ∈ csp_Port <$> svc_Ports desired.
Proof.
  unfold updateServicePorts. destruct (svc_Ports existing) as [|p ps] eqn:E.
  { cbn. unfold constant. set_solver. }
  rewrite <- (merge_ports_numbers (p :: ps) (svc_Ports desired) n).
  destruct (negb _ && negb _); cbn -[merge_ports]; unfold constant; [|done]. rewrite <- list_fmap_compose.
  by rewrite (list_fmap_ext (csp_Port ∘ _) csp_Port (merge_ports (p :: ps) (svc_Ports desired))).
Qed.

(** ** Examples *)
Definition vanswer (pods : list Pod) (slice : Slice) {X} (o : vop X) : X :=
  match o in vop X return X with
  | VBase o => friendly (MariaDB_zero meta_ex) pods 0 o
  | VGetService _ => Err (ErrApi NotFound)
  | VGetSlice _ => Ok slice
  | VGetPDB _ => Err (ErrApi NotFound)
  | _ => Ok tt
  end.
Definition slices_written (t : vtrace) : list Slice :=
  omap (λ e, match ev_op e with VCreateSlice _ s | VPatchSlice _ _ s => Some s | _ => None end) t.

Definition replicated : MariaDB :=
  { MariaDB_zero meta_ex with
    m_Spec -> sp_Replicas := 3;
    m_Spec -> sp_Port := 3306;
    m_Spec -> sp_Replication := Some { Replication_zero with rep_Enabled := true };
    m_Status -> st_CurrentPrimaryPodIndex := Some 1 }.
Definition pod_at (i : Z) (ip : string) (ready : bool) : Pod :=
  mkPod (PodName meta_ex i) (Namespace meta_ex) ∅ ∅ "node" "Running"
    [mkPodCondition "Ready" (if ready then "True" else "False")] ip "".
Definition old_slice : Slice := mkSlice meta_ex AddressTypeIPv4 (endpoint_of <$> [pod_at 1 "10.0.0.2" true; pod_at 2 "10.0.0.3" true]) [].
Definition endpoints_written (pods : list Pod) : list (list (string * bool)) :=
  (λ s, (λ e, (e_TargetName e, e_Ready e)) <$> sl_Endpoints s) <$>
  slices_written (run (Env _ (λ X _ o, vanswer pods old_slice o) (λ _, true)) (reconcileService replicated) []).1.

(** After a failover from mariadb-0 to mariadb-1: the old primary is recreated, and as long as it
    has no address the Service of the replicas goes on sending to the new primary. *)
Example stale_endpoints :
  endpoints_written [pod_at 0 "10.0.0.1" false; pod_at 1 "10.0.0.2" true; pod_at 2 "10.0.0.3" true] =
    [[(PodName meta_ex 0, false); (PodName meta_ex 2, true)]] ∧
  endpoints_written [pod_at 0 "" false; pod_at 1 "10.0.0.2" true; pod_at 2 "10.0.0.3" true] = [].
Proof. by vm_compute. Qed.

(** A port whose number changes is added beside the old one, under the same name. *)
Example renumbered_port :
  let m := { MariaDB_zero meta_ex with m_Spec -> sp_Port := 3306 } in
  let m' := { m with m_Spec -> sp_Port := 3307 } in
  let svc m := service_of (ObjectKey m) (mkServiceOpts ServiceTemplate_zero None true (mariadb_ports m) false None) in
  ValidateServicePorts (svc_Ports (svc m')) = Ok tt ∧
  ValidateServicePorts (svc_Ports (updateServicePorts (svc m) (svc m'))) =
    Err (ErrNew "port name is already taken by another port").
Proof. by vm_compute. Qed.
