(* ===== verification/MariaDBPhases.v ===== *)
(** * The remaining phases of the MariaDB reconciler

    Suspension, Secrets, ConfigMaps, RBAC, the restore of a logical backup, the initial SQL
    resources, metrics and connections: internal/controller/mariadb_controller.go and
    mariadb_controller_metrics.go with the reconcilers and builders they call
    (pkg/controller/secret, rbac, auth, deployment, servicemonitor).  The state is the MariaDB
    object in memory. *)

From Stdlib Require Import Ascii.
From S2P Require Import Prelude GoStrings StatefulSet Datastructures Conditions MariaDBTypes MaxScaleTypes.
From S2P Require Import Concurrency Kube Health ConditionSetters Status Pki StorageResize SqlResources.
From S2P Require Import MariaDBDefaults MariaDBInit MariaDBServices.

Local Open Scope Z_scope.
Local Open Scope go_scope.

(** ** Objects *)
Record Subject := mkSubject { sub_Kind : string; sub_Name : string; sub_Namespace : string }.
Record RoleRef := mkRoleRef { rr_Kind : string; rr_Name : string }.
Record PolicyRule := mkPolicyRule { rule_APIGroup : string; rule_Resource : string; rule_Verb : string }.

(** The Pod of the Job that restores is built by the environment. *)
Record Restore := mkRestore {
  rst_meta : ObjectMeta;
  rst_Source : RestoreSource;
  rst_MariaDBRef : MariaDBRef
}.
Record Connection := mkConnection {
  cn_meta : ObjectMeta;
  cn_Username : string;
  cn_PasswordSecretKeyRef : SecretKeySelector;
  cn_Database : option string;
  cn_MariaDBRef : option MariaDBRef;
  cn_MaxScaleRef : option string;
  cn_Template : ConnectionTemplate
}.

(** Of an object that is read, only what is used is an answer: the conditions of a Restore, a
    User or a Grant, the name of a ServiceAccount or a Role, the owners of a binding.
    Deployments and ServiceMonitors are opaque. *)
Inductive phop : Type → Type :=
  | HSvc {X} (o : vop X) : phop X
  | HIni {X} (o : iop X) : phop X
  | HGetSecret (key : NamespacedName) : phop (result (gmap string string))
  | HGeneratePassword : phop (result string)
  | HCreateSecret (key : NamespacedName) (owned : bool) (data : gmap string string) : phop (result unit)
  | HPatchSecret (key : NamespacedName) (data : gmap string string) : phop (result unit)
  | HGetServiceAccount (key : NamespacedName) : phop (result NamespacedName)
  | HCreateServiceAccount (meta : ObjectMeta) : phop (result unit)
  | HGetRole (key : NamespacedName) : phop (result string)
  | HCreateRole (meta : ObjectMeta) (rules : list PolicyRule) : phop (result unit)
  | HGetRoleBinding (key : NamespacedName) : phop (result unit)
  | HCreateRoleBinding (meta : ObjectMeta) (subject : Subject) (roleRef : RoleRef) : phop (result unit)
  | HGetClusterRoleBinding (key : NamespacedName) : phop (result (list string))
  | HCreateClusterRoleBinding (meta : ObjectMeta) (subject : Subject) (roleRef : RoleRef) : phop (result unit)
  | HGetRestore (key : NamespacedName) : phop (result (list Condition))
  | HCreateRestore (r : Restore) : phop (result unit)
  | HDeleteRestore (key : NamespacedName) : phop (result unit)
  | HGetDatabase (key : NamespacedName) : phop (result unit)
  | HCreateDatabase (d : Database) : phop (result unit)
  | HGetUser (key : NamespacedName) : phop (result (list Condition))
  | HCreateUser (u : User) : phop (result unit)
  | HGetGrant (key : NamespacedName) : phop (result (list Condition))
  | HCreateGrant (g : GrantResource) : phop (result unit)
  | HGetConnection (key : NamespacedName) : phop (result unit)
  | HCreateConnection (c : Connection) : phop (result unit)
  | HServiceMonitorExist : phop (result bool)
  | HTLSClientAnnotations : phop (result (gmap string string))
  | HBuildExporterDeployment (annotations : gmap string string) : phop (result string)
  | HGetDeployment (key : NamespacedName) : phop (result unit)
  | HCreateDeployment (key : NamespacedName) (d : string) : phop (result unit)
  | HPatchDeployment (key : NamespacedName) (d : string) : phop (result unit)
  | HBuildServiceMonitor : phop (result string)
  | HGetServiceMonitor (key : NamespacedName) : phop (result unit)
  | HCreateServiceMonitor (key : NamespacedName) (s : string) : phop (result unit)
  | HPatchServiceMonitor (key : NamespacedName) (s : string) : phop (result unit).

Abbreviation htrace := (list (event phop)).

(** ** api/v1alpha1/mariadb_keys.go *)
Definition DefaultConfigMapKeyRef (m : MariaDB) : SecretKeySelector :=
  mkSecretKeySelector (Name (m_meta m) +:+ "-config-default") "0-default.cnf".
Definition ReplConfigMapKeyRef (m : MariaDB) : SecretKeySelector :=
  mkSecretKeySelector (Name (m_meta m) +:+ "-probes") "replication.sh".
Definition RestoreKey (m : MariaDB) : NamespacedName := key_with_suffix m "-restore".
Definition PrimaryConnectioneKey (m : MariaDB) : NamespacedName := key_with_suffix m "-primary".
Definition SecondaryConnectioneKey (m : MariaDB) : NamespacedName := key_with_suffix m "-secondary".
Definition MetricsConfigSecretKeyRef (m : MariaDB) : GeneratedSecretKeyRef :=
  mkGeneratedSecretKeyRef (mkSecretKeySelector (Name (m_meta m) +:+ "-metrics-config") "exporter.cnf") true.
Definition MariadbSysUserKey (m : MariaDB) : NamespacedName := key_with_suffix m "-mariadb-sys".
Definition MariadbSysGrantKey (m : MariaDB) : NamespacedName := key_with_suffix m "-mariadb-sys-global-priv".
Definition MariadbDatabaseKey (m : MariaDB) : NamespacedName := key_with_suffix m "-database".
Definition MariadbUserKey (m : MariaDB) : NamespacedName := key_with_suffix m "-user".
Definition MariadbGrantKey (m : MariaDB) : NamespacedName := key_with_suffix m "-user-all".

Section phases.
Context `{MapRange} `{SliceSort} `{StatusConditions}.
Abbreviation C := (M MariaDB phop).
Definition hbase {S} {A} (m : M S op A) : M S phop A := hoistM (λ _ o, HSvc o) (vbase m).
Definition hsvc {S} {A} (m : M S vop A) : M S phop A := hoistM (λ _ o, HSvc o) m.
Definition hini {S} {A} (m : M S iop A) : M S phop A := hoistM (λ _ o, HIni o) m.
Definition SetControllerReference {S} (key : NamespacedName) : M S phop unit := call (HSvc (VSetControllerReference key)).
Definition meta_of (mariadb : MariaDB) (key : NamespacedName) : ObjectMeta :=
  WithMetadata (sp_InheritMetadata (m_Spec mariadb)) (NewMetadataBuilder key).

(** ** Suspend *)
Definition reconcileSuspend : C ctrl_Result :=
  mariadb <- get ;;
  if IsSuspended mariadb then ret (requeue_after (10 * Second)) else
  if m_Deleting mariadb then ret (requeue_after (10 * Second)) else
  ret Result_zero.

(** ** Secrets: pkg/controller/secret *)
Definition BuildSecret {S} (key : NamespacedName) (owned : bool) : M S phop unit :=
  if owned then wrap "error setting controller reference to Secret" (SetControllerReference key) else ret tt.

(** A generated Secret has no owner: it survives the MariaDB. *)
Definition ReconcilePassword {S} (key : NamespacedName) (secretKey : string) (generate : bool) : M S phop string :=
  r <- try (call (HGetSecret key)) ;;
  match r with
  | Ok data => ret (default "" (data !! secretKey))
  | Err err =>
      if negb generate then throw (ErrWrap "error reconciling password Secret" err) else
      if negb (IsNotFound err) then throw (ErrWrap "error reconciling password Secret" err) else
      password <- wrap "error generating password Secret" (call HGeneratePassword) ;;
      let owned := negb generate in
      wrap "error building password Secret" (BuildSecret key owned) ;;;
      wrap "error creating password Secret" (call (HCreateSecret key owned {[ secretKey := password ]})) ;;;
      ret password
  end.

Definition Secret_Reconcile {S} (key : NamespacedName) (data : gmap string string) : M S phop unit :=
  wrap "error building Secret" (BuildSecret key true) ;;;
  r <- try (call (HGetSecret key)) ;;
  match r with
  | Err err =>
      if negb (IsNotFound err) then throw (ErrWrap "error reconciling Secret" err)
      else call (HCreateSecret key true data)
  | Ok _ => call (HPatchSecret key data)
  end.

(** The Secrets of the spec that may have to be generated. *)
Definition password_refs (mariadb : MariaDB) : list GeneratedSecretKeyRef :=
  let spec := m_Spec mariadb in
  let galera := default Galera_zero (sp_Galera spec) in
  let basicAuth := default BasicAuth_zero (agent_BasicAuth (ga_Agent galera)) in
  (if negb (IsRootPasswordEmpty mariadb) then [sp_RootPasswordSecretKeyRef spec] else []) ++
  (match sp_PasswordSecretKeyRef spec with Some ref => [ref] | None => [] end) ++
  (if ga_Enabled galera && ba_Enabled basicAuth && negb (bool_decide (ba_PasswordSecretKeyRef basicAuth = SecretKeyRef_zero))
   then [ba_PasswordSecretKeyRef basicAuth] else []).

Definition reconcile_password_ref {S} (namespace : string) (ref : GeneratedSecretKeyRef) : M S phop string :=
  ReconcilePassword (mkNamespacedName (sks_Name (gsk_selector ref)) namespace)
    (sks_Key (gsk_selector ref)) (gsk_Generate ref).

Definition reconcileSecret : C ctrl_Result :=
  mariadb <- get ;;
  for_each (password_refs mariadb) (λ ref, reconcile_password_ref (Namespace (m_meta mariadb)) ref ;;; ret tt) ;;;
  ret Result_zero.

(** ** ConfigMaps *)
Definition defaultConfig (mariadb : MariaDB) : string :=
  Join ([ "[mariadb]"; "skip-name-resolve"; "temp-pool"; "ignore_db_dirs = 'lost+found'" ] ++
        (match sp_TimeZone (m_Spec mariadb) with Some tz => [ "default_time_zone = " +:+ tz ] | None => [] end) ++
        [ "" ]) newline.

(** pkg/controller/replication/controller.go *)
Definition probe_script : string := Join [
  "#!/bin/bash"; "";
  "if [[ $(mariadb -u root -p" +:+ dq "${MARIADB_ROOT_PASSWORD}" +:+ " -e " +:+
    dq "SHOW VARIABLES LIKE 'rpl_semi_sync_slave_enabled';" +:+ " --skip-column-names | grep -c " +:+ dq "ON" +:+ ") -eq 1 ]]; then";
  tab +:+ ("mariadb -u root -p" +:+ dq "${MARIADB_ROOT_PASSWORD}" +:+ " -e " +:+ dq "SHOW SLAVE STATUS\G" +:+
    " | grep -c " +:+ dq "Slave_IO_Running: Yes");
  "else";
  tab +:+ ("mariadb -u root -p" +:+ dq "${MARIADB_ROOT_PASSWORD}" +:+ " -e " +:+ dq "SELECT 1;");
  "fi"; "" ] newline.

Definition configMap (mariadb : MariaDB) (ref : SecretKeySelector) (text : string) : C unit :=
  hini (ConfigMap_Reconcile (mkNamespacedName (sks_Name ref) (Namespace (m_meta mariadb))) {[ sks_Key ref := text ]}).

Definition ReconcileProbeConfigMap (ref : SecretKeySelector) (mariadb : MariaDB) : C unit :=
  if negb (rep_Enabled (replication mariadb)) then ret tt else configMap mariadb ref probe_script.

Definition reconcileConfigMap : C ctrl_Result :=
  mariadb <- get ;;
  configMap mariadb (DefaultConfigMapKeyRef mariadb) (defaultConfig mariadb) ;;;
  match sp_MyCnf (m_Spec mariadb), sp_MyCnfConfigMapKeyRef (m_Spec mariadb) with
  | Some myCnf, Some ref => configMap mariadb ref myCnf
  | _, _ => ret tt
  end ;;;
  (if rep_Enabled (replication mariadb) && default false (rep_ProbesEnabled (replication mariadb))
   then ReconcileProbeConfigMap (ReplConfigMapKeyRef mariadb) mariadb else ret tt) ;;;
  ret Result_zero.

(** ** RBAC: pkg/controller/rbac *)
Definition RbacGroup : string := "k8s.mariadb.com".

Definition BuildServiceAccount {S} (key : NamespacedName) (meta : option Metadata) : M S phop ObjectMeta :=
  wrap "error setting controller reference to ServiceAccount" (SetControllerReference key) ;;;
  ret (WithMetadata meta (NewMetadataBuilder key)).
Definition ReconcileServiceAccount {S} (key : NamespacedName) (meta : option Metadata) : M S phop NamespacedName :=
  r <- try (call (HGetServiceAccount key)) ;;
  match r with
  | Ok sa => ret sa
  | Err err =>
      if negb (IsNotFound err) then throw (ErrWrap "error getting ServiceAccount" err) else
      sa <- wrap "error building ServiceAccount" (BuildServiceAccount key meta) ;;
      wrap "error creating ServiceAccount" (call (HCreateServiceAccount sa)) ;;;
      ret key
  end.

Definition BuildRole (mariadb : MariaDB) (key : NamespacedName) : C ObjectMeta :=
  wrap "error setting controller reference to Role" (SetControllerReference key) ;;;
  ret (meta_of mariadb key).
Definition agent_rules : list PolicyRule :=
  [ mkPolicyRule RbacGroup "mariadbs" "get"; mkPolicyRule "" "pods" "get" ].
Definition reconcileRole (key : NamespacedName) (mariadb : MariaDB) : C string :=
  r <- try (call (HGetRole key)) ;;
  match r with
  | Ok role => ret role
  | Err err =>
      if negb (IsNotFound err) then throw (ErrWrap "error getting Role" err) else
      role <- wrap "error building Role" (BuildRole mariadb key) ;;
      wrap "error creating Role" (call (HCreateRole role agent_rules)) ;;;
      ret (nn_Name key)
  end.

Definition subject_of (sa : NamespacedName) : Subject := mkSubject "ServiceAccount" (nn_Name sa) (nn_Namespace sa).
Definition BuildRoleBinding (mariadb : MariaDB) (key : NamespacedName) : C ObjectMeta :=
  wrap "error setting controller reference to RoleBinding" (SetControllerReference key) ;;;
  ret (meta_of mariadb key).
Definition reconcileRoleBinding (key : NamespacedName) (mariadb : MariaDB) (sa : NamespacedName)
    (roleRef : RoleRef) : C unit :=
  r <- try (call (HGetRoleBinding key)) ;;
  match r with
  | Ok _ => ret tt
  | Err err =>
      if negb (IsNotFound err) then throw (ErrWrap "error getting RoleBinding" err) else
      rb <- wrap "error building RoleBinding" (BuildRoleBinding mariadb key) ;;
      wrap "error creating RoleBinding" (call (HCreateRoleBinding rb (subject_of sa) roleRef))
  end.

(** [ownerReferences]: the UIDs of the owners. *)
Definition isOwnedBy (mariadb : MariaDB) (ownerReferences : list string) : bool :=
  existsb (λ uid, bool_decide (uid = UID (m_meta mariadb))) ownerReferences.
Definition BuildClusterRoleBinding (mariadb : MariaDB) (key : NamespacedName) : C ObjectMeta :=
  wrap "error setting controller reference to ClusterRoleBinding" (SetControllerReference key) ;;;
  ret (meta_of mariadb key).
Definition reconcileClusterRoleBinding (key : NamespacedName) (mariadb : MariaDB) (sa : NamespacedName)
    (roleRef : RoleRef) : C unit :=
  r <- try (call (HGetClusterRoleBinding key)) ;;
  match r with
  | Ok owners =>
      if negb (isOwnedBy mariadb owners) then throw (ErrNew "ClusterRoleBinding already exists") else ret tt
  | Err err =>
      if negb (IsNotFound err) then throw (ErrWrap "error getting ClusterRoleBinding" err) else
      crb <- wrap "error building ClusterRoleBinding" (BuildClusterRoleBinding mariadb key) ;;
      wrap "error creating ClusterRoleBinding" (call (HCreateClusterRoleBinding crb (subject_of sa) roleRef))
  end.

Definition agent_k8sAuth (mariadb : MariaDB) : KubernetesAuth :=
  default KubernetesAuth_zero (agent_KubernetesAuth (ga_Agent (default Galera_zero (sp_Galera (m_Spec mariadb))))).
Definition authDelegatorKey (mariadb : MariaDB) : NamespacedName :=
  mkNamespacedName (AuthDelegatorRoleNameOrDefault (agent_k8sAuth mariadb) mariadb +:+ ":auth-delegator")
    (Namespace (m_meta mariadb)).
Definition authDelegatorRoleRef : RoleRef := mkRoleRef "ClusterRole" "system:auth-delegator".

Definition ReconcileMariadbRBAC (mariadb : MariaDB) : C unit :=
  let key := spec_ServiceAccountKey (m_Spec mariadb) (m_meta mariadb) in
  sa <- wrap "error reconciling ServiceAccount" (ReconcileServiceAccount key (sp_InheritMetadata (m_Spec mariadb))) ;;
  if negb (IsGaleraEnabled mariadb) then ret tt else
  role <- wrap "error reconciling Role" (reconcileRole key mariadb) ;;
  wrap "error reconciling RoleBinding" (reconcileRoleBinding key mariadb sa (mkRoleRef "Role" role)) ;;;
  if ka_Enabled (agent_k8sAuth mariadb) then
    wrap "error reconciling system:auth-delegator ClusterRoleBinding"
      (reconcileClusterRoleBinding (authDelegatorKey mariadb) mariadb sa authDelegatorRoleRef)
  else ret tt.

Definition reconcileRBAC : C ctrl_Result :=
  mariadb <- get ;; ReconcileMariadbRBAC mariadb ;;; ret Result_zero.

(** ** Restore *)
(** [r.patchStatus] with a patcher that may fail: then nothing is sent. *)
Definition patchStatus_by (patcher : C unit) : C unit :=
  base <- get ;;
  patcher ;;;
  m <- get ;;
  call (HSvc (VBase (KPatchStatus base m))).
Definition update_status (f : MariaDBStatus → MariaDBStatus) : C unit :=
  modify (λ m, { m with m_Status := f (m_Status m) }).

Definition BuildRestore (mariadb : MariaDB) (key : NamespacedName) : C Restore :=
  let bootstrapFrom := default BootstrapFrom_zero (sp_BootstrapFrom (m_Spec mariadb)) in
  restoreSource <- wrap "error getting restore source" (lift (BootstrapFrom_RestoreSource bootstrapFrom)) ;;
  wrap "error setting controller reference to restore Job" (SetControllerReference key) ;;;
  ret (mkRestore (meta_of mariadb key) restoreSource (mkMariaDBRef (Name (m_meta mariadb)) "" "" true)).

Definition shouldReconcileRestore (mdb : MariaDB) : bool :=
  if IsUpdating mdb || IsResizingStorage mdb || IsSwitchingPrimary mdb || HasGaleraNotReadyCondition mdb then false
  else if HasRestoredBackup mdb then false
  else match sp_BootstrapFrom (m_Spec mdb) with
       | None => false
       | Some b => bool_decide (bf_BackupContentType b = BackupContentTypeLogical)
       end.

(** [Restore.IsComplete] *)
Definition Restore_IsComplete (conditions : list Condition) : bool :=
  IsStatusConditionTrue conditions ConditionTypeComplete.

Definition restore_patcher (mdb : MariaDB) (existingRestore : list Condition) : C unit :=
  if Restore_IsComplete existingRestore
  then call (HDeleteRestore (RestoreKey mdb)) ;;; update_status SetRestoredBackup
  else update_status SetRestoringBackup.

Definition reconcileRestore : C ctrl_Result :=
  mdb <- get ;;
  if negb (shouldReconcileRestore mdb) then ret Result_zero else
  if IsRestoringBackup mdb then
    existingRestore <- call (HGetRestore (RestoreKey mdb)) ;;
    patchStatus_by (restore_patcher mdb existingRestore) ;;;
    ret Result_zero
  else
    healthy <- wrap "error checking MariaDB health"
      (hbase (IsStatefulSetHealthy (ObjectKey mdb)
        [WithDesiredReplicas (sp_Replicas (m_Spec mdb)); WithPort (sp_Port (m_Spec mdb));
         WithEndpointPolicy EndpointPolicyAll])) ;;
    if negb (healthy : bool) then ret Result_zero else
    existing <- try (call (HGetRestore (RestoreKey mdb))) ;;
    if is_ok existing then ret Result_zero else
    wrap "error patching status" (patchStatus_by (update_status SetRestoringBackup)) ;;;
    mdb <- get ;;
    restore <- wrap "error building restore" (BuildRestore mdb (RestoreKey mdb)) ;;
    call (HCreateRestore restore) ;;;
    ret Result_zero.

(** ** SQL resources: pkg/builder/sql_builder.go *)
Record UserOpts := mkUserOpts {
  uo_Name : string;
  uo_Host : string;
  uo_PasswordSecretKeyRef : option SecretKeySelector;
  uo_PasswordHashSecretKeyRef : option SecretKeySelector;
  uo_PasswordPlugin : option PasswordPlugin;
  uo_MaxUserConnections : Z;
  uo_CleanupPolicy : option string;
  uo_Metadata : option Metadata;
  uo_MariaDBRef : MariaDBRef
}.
Record GrantOpts := mkGrantOpts {
  go_Privileges : list string;
  go_Database : string;
  go_Table : string;
  go_Username : string;
  go_Host : string;
  go_GrantOption : bool;
  go_CleanupPolicy : option string;
  go_Metadata : option Metadata;
  go_MariaDBRef : MariaDBRef
}.
Definition new_common (key : NamespacedName) (meta : option Metadata) (ref : MariaDBRef) (cleanup : option string) :
    sql_common :=
  mkSqlCommon (WithMetadata meta (NewMetadataBuilder key)) [] false ref None None cleanup [].

Definition BuildUser {S} (key : NamespacedName) (opts : UserOpts) : M S phop User :=
  let plugin := default (mkPasswordPlugin None None) (uo_PasswordPlugin opts) in
  let user := mkUser (new_common key (uo_Metadata opts) (uo_MariaDBRef opts) (uo_CleanupPolicy opts))
    (uo_PasswordSecretKeyRef opts) (uo_PasswordHashSecretKeyRef opts)
    (pp_PluginNameSecretKeyRef plugin) (pp_PluginArgSecretKeyRef plugin) None
    (if bool_decide (0 < uo_MaxUserConnections opts) then uo_MaxUserConnections opts else 0)
    (uo_Name opts) (uo_Host opts) in
  wrap "error setting controller reference to User" (SetControllerReference key) ;;;
  ret user.
Definition BuildGrant {S} (key : NamespacedName) (opts : GrantOpts) : M S phop GrantResource :=
  let grant := mkGrantResource (new_common key (go_Metadata opts) (go_MariaDBRef opts) (go_CleanupPolicy opts))
    (go_Privileges opts) (go_Database opts) (go_Table opts) (go_Username opts)
    (if negb (bool_decide (go_Host opts = "")) then Some (go_Host opts) else None) (go_GrantOption opts) [] in
  wrap "error setting controller reference to Grant" (SetControllerReference key) ;;;
  ret grant.
Definition BuildDatabase {S} (key : NamespacedName) (name : string) (meta : option Metadata) (ref : MariaDBRef) : M S phop Database :=
  wrap "error setting controller reference to Database" (SetControllerReference key) ;;;
  ret (mkDatabase (new_common key meta ref None) "" "" name).

(** ** pkg/controller/auth *)
Definition createUser {S} (key : NamespacedName) (userOpts : UserOpts) : M S phop unit :=
  user <- wrap "error building User" (BuildUser key userOpts) ;;
  call (HCreateUser user).
Definition createGrant {S} (key : NamespacedName) (grantOpts : GrantOpts) : M S phop unit :=
  grant <- wrap "error building Grant" (BuildGrant key grantOpts) ;;
  call (HCreateGrant grant).
Definition ReconcileUser {S} (key : NamespacedName) (userOpts : UserOpts) : M S phop unit :=
  r <- try (call (HGetUser key)) ;;
  match r with
  | Err err => if IsNotFound err then createUser key userOpts else throw err
  | Ok _ => ret tt
  end.
Definition ReconcileGrant {S} (key userKey : NamespacedName) (grantOpts : GrantOpts) : M S phop unit :=
  call (HGetUser userKey) ;;;
  r <- try (call (HGetGrant key)) ;;
  match r with
  | Err err => if IsNotFound err then createGrant key grantOpts else throw err
  | Ok _ => ret tt
  end.

(** [User.IsReady], [Grant.IsReady] *)
Definition object_ready (conditions : list Condition) : bool := IsStatusConditionTrue conditions ConditionTypeReady.

Definition waitForUser {S} (key : NamespacedName) : M S phop ctrl_Result :=
  r <- try (call (HGetUser key)) ;;
  match r with
  | Err err => if IsNotFound err then ret (requeue_after (10 * Second)) else throw err
  | Ok user => if negb (object_ready user) then ret (requeue_after (10 * Second)) else ret Result_zero
  end.

Definition ReconcileUserGrant {S} (key : NamespacedName) (userOpts : UserOpts)
    (grantOpts : list (NamespacedName * GrantOpts)) : M S phop ctrl_Result :=
  wrap "error reconciling User" (ReconcileUser key userOpts) ;;;
  then_if_zero (waitForUser key)
    (for_each grantOpts (λ '(grantKey, gops),
       if bool_decide (0 < length (go_Privileges gops))%nat
       then wrap "error reconciling Grant" (ReconcileGrant grantKey key gops) else ret tt) ;;;
     ret Result_zero).

(** ** The SQL phase *)
Definition mariadb_ref (mariadb : MariaDB) : MariaDBRef :=
  mkMariaDBRef (Name (m_meta mariadb)) (Namespace (m_meta mariadb)) "" false.

Definition reconcileDatabase (mariadb : MariaDB) : C unit :=
  match sp_Database (m_Spec mariadb) with
  | None => ret tt
  | Some name =>
      let key := MariadbDatabaseKey mariadb in
      r <- try (call (HGetDatabase key)) ;;
      match r with
      | Ok _ => ret tt
      | Err err =>
          if negb (IsNotFound err) then throw (ErrWrap "error getting database" err) else
          db <- wrap "error building database"
            (BuildDatabase key name (sp_InheritMetadata (m_Spec mariadb)) (mariadb_ref mariadb)) ;;
          call (HCreateDatabase db)
      end
  end.

Definition sysUserOpts (mariadb : MariaDB) : UserOpts :=
  mkUserOpts "mariadb.sys" "localhost" None None None 20 (Some CleanupPolicySkip)
    (sp_InheritMetadata (m_Spec mariadb)) (mariadb_ref mariadb).
Definition sysGrantOpts (mariadb : MariaDB) : GrantOpts :=
  mkGrantOpts ["SELECT"; "UPDATE"; "DELETE"] "mysql" "global_priv" "mariadb.sys" "localhost" false
    (Some CleanupPolicySkip) (sp_InheritMetadata (m_Spec mariadb)) (mariadb_ref mariadb).

(** The plugin, the hash or the password of the initial user, in this order. *)
Definition initialUserOpts (mariadb : MariaDB) : UserOpts :=
  let s := m_Spec mariadb in
  let plugin := is_some (sp_PasswordPlugin s) in
  let hash := is_some (sp_PasswordHashSecretKeyRef s) in
  mkUserOpts (default "" (sp_Username s)) "%"
    (if negb plugin && negb hash then gsk_selector <$> sp_PasswordSecretKeyRef s else None)
    (if negb plugin then sp_PasswordHashSecretKeyRef s else None)
    (sp_PasswordPlugin s) 20 None (sp_InheritMetadata s) (mariadb_ref mariadb).
Definition initialGrantOpts (mariadb : MariaDB) : GrantOpts :=
  let s := m_Spec mariadb in
  mkGrantOpts ["ALL PRIVILEGES"] (default "" (sp_Database s)) "*" (default "" (sp_Username s)) "%" false
    None (sp_InheritMetadata s) (mariadb_ref mariadb).

Definition reconcileUsers (mariadb : MariaDB) : C ctrl_Result :=
  then_if_zero
    (wrap "error reconciling mariadb.sys user auth" (ReconcileUserGrant (MariadbSysUserKey mariadb) (sysUserOpts mariadb)
      [(MariadbSysGrantKey mariadb, sysGrantOpts mariadb)]))
    (sysGrant <- wrap "error getting mariadb.sys Grant" (call (HGetGrant (MariadbSysGrantKey mariadb))) ;;
     if negb (object_ready sysGrant) then ret (requeue_after (1 * Second)) else
     if IsInitialUserEnabled mariadb then
       then_if_zero
         (wrap "error reconciling user auth" (ReconcileUserGrant (MariadbUserKey mariadb) (initialUserOpts mariadb)
           [(MariadbGrantKey mariadb, initialGrantOpts mariadb)]))
         (ret Result_zero)
     else ret Result_zero).

Definition reconcileSQL : C ctrl_Result :=
  mariadb <- get ;;
  if negb (IsReady mariadb) then ret (requeue_after (1 * Second)) else
  wrap "error reconciling database" (reconcileDatabase mariadb) ;;;
  then_if_zero (reconcileUsers mariadb) (ret Result_zero).

(** ** The Connection phase *)
(** [ConnectionOpts], with the name of the MariaDB or of the MaxScale; connections to external
    servers are not built this way. *)
Record ConnectionOpts := mkConnectionOpts {
  cno_Metadata : option Metadata;
  cno_MariaDB : option string;
  cno_MaxScale : option string;
  cno_Key : NamespacedName;
  cno_Username : string;
  cno_PasswordSecretKeyRef : SecretKeySelector;
  cno_Database : option string;
  cno_Template : ConnectionTemplate
}.
Definition BuildConnection {S} (opts : ConnectionOpts) : M S phop Connection :=
  let conn := mkConnection (WithMetadata (cno_Metadata opts) (NewMetadataBuilder (cno_Key opts)))
    (cno_Username opts) (cno_PasswordSecretKeyRef opts) (cno_Database opts)
    ((λ name, mkMariaDBRef name "" "" true) <$> cno_MariaDB opts)
    (if is_some (cno_MariaDB opts) then None else cno_MaxScale opts) (cno_Template opts) in
  wrap "error setting controller reference to Connection" (SetControllerReference (cno_Key opts)) ;;;
  ret conn.

(** Every error of the lookup counts as a missing Connection. *)
Definition reconcileConnectionTemplate (key : NamespacedName) (connTpl : ConnectionTemplate) : C unit :=
  mariadb <- get ;;
  existing <- try (call (HGetConnection key)) ;;
  if is_ok existing then ret tt else
  match sp_Username (m_Spec mariadb), sp_PasswordSecretKeyRef (m_Spec mariadb) with
  | Some username, Some password =>
      conn <- wrap "error building Connection" (BuildConnection (mkConnectionOpts
        (sp_InheritMetadata (m_Spec mariadb)) (Some (Name (m_meta mariadb))) None key username (gsk_selector password)
        (sp_Database (m_Spec mariadb)) connTpl)) ;;
      call (HCreateConnection conn)
  | _, _ => ret tt
  end.
Definition reconcileDefaultConnection : C unit :=
  mariadb <- get ;;
  match sp_Connection (m_Spec mariadb) with
  | None => ret tt
  | Some template => reconcileConnectionTemplate (ObjectKey mariadb) template
  end.

(** The template of the spec in memory is changed: the pointer is shared. *)
Definition set_service (name : string) (connTpl : ConnectionTemplate) : ConnectionTemplate :=
  { connTpl with ct_ServiceName := Some name }.
Definition primaryConnection : C unit :=
  mariadb <- get ;;
  match sp_PrimaryConnection (m_Spec mariadb) with
  | None => ret tt
  | Some connTpl =>
      let connTpl := set_service (nn_Name (PrimaryServiceKey mariadb)) connTpl in
      modify (λ m, { m with m_Spec -> sp_PrimaryConnection := Some connTpl }) ;;;
      reconcileConnectionTemplate (PrimaryConnectioneKey mariadb) connTpl
  end.
Definition secondaryConnection : C unit :=
  mariadb <- get ;;
  match sp_SecondaryConnection (m_Spec mariadb) with
  | None => ret tt
  | Some connTpl =>
      let connTpl := set_service (nn_Name (SecondaryServiceKey mariadb)) connTpl in
      modify (λ m, { m with m_Spec -> sp_SecondaryConnection := Some connTpl }) ;;;
      reconcileConnectionTemplate (SecondaryConnectioneKey mariadb) connTpl
  end.

Definition reconcileConnection : C ctrl_Result :=
  mariadb <- get ;;
  if negb (IsInitialUserEnabled mariadb) then ret Result_zero else
  if negb (IsReady mariadb) then ret (requeue_after (1 * Second)) else
  (if IsHAEnabled mariadb then primaryConnection ;;; secondaryConnection else ret tt) ;;;
  reconcileDefaultConnection ;;;
  ret Result_zero.

(** ** The Metrics phase *)
Definition exporterPrivileges : list string :=
  ["SELECT"; "PROCESS"; "REPLICATION CLIENT"; "REPLICA MONITOR"; "SLAVE MONITOR"].
Definition WithMetricsSelectorLabels (metricsKey : NamespacedName) (b : gmap string string) : gmap string string :=
  WithInstance (nn_Name metricsKey) (WithApp "exporter" b).
Definition MetricsPortName : string := "metrics".

Definition metrics_of (mariadb : MariaDB) : MariadbMetrics := default MariadbMetrics_zero (sp_Metrics (m_Spec mariadb)).

Definition reconcileMetricsPassword (mariadb : MariaDB) : C unit :=
  reconcile_password_ref (Namespace (m_meta mariadb)) (mt_PasswordSecretKeyRef (metrics_of mariadb)) ;;; ret tt.

Definition reconcileAuth (mariadb : MariaDB) : C ctrl_Result :=
  let key := MetricsKey mariadb in
  let metrics := metrics_of mariadb in
  ReconcileUserGrant key
    (mkUserOpts (mt_Username metrics) "" (Some (gsk_selector (mt_PasswordSecretKeyRef metrics))) None None 3 None
      (sp_InheritMetadata (m_Spec mariadb)) (mariadb_ref mariadb))
    [(key, mkGrantOpts exporterPrivileges "*" "*" (mt_Username metrics) "" false None
        (sp_InheritMetadata (m_Spec mariadb)) (mariadb_ref mariadb))].

Definition exporter_config (mariadb : MariaDB) (password : string) : string :=
  Join ([ "[client]"; "user=" +:+ mt_Username (metrics_of mariadb); "password=" +:+ password ] ++
        (if IsTLSEnabled mariadb
         then [ "tls=true"; "ssl-cert=/etc/pki/client.crt"; "ssl-key=/etc/pki/client.key"; "ssl-ca=/etc/pki/ca.crt" ]
         else []) ++ [ "" ]) newline.
Definition reconcileExporterConfig (mariadb : MariaDB) : C unit :=
  let secretKeyRef := gsk_selector (MetricsConfigSecretKeyRef mariadb) in
  password <- wrap "error getting metrics password Secret"
    (hbase (call (KSecretKey (gsk_selector (mt_PasswordSecretKeyRef (metrics_of mariadb))) (Namespace (m_meta mariadb))))) ;;
  Secret_Reconcile (mkNamespacedName (sks_Name secretKeyRef) (Namespace (m_meta mariadb)))
    {[ sks_Key secretKeyRef := exporter_config mariadb password ]}.

Variable Hash : string → string.

Definition getExporterUpdateAnnotations (mdb : MariaDB) : C (gmap string string) :=
  config <- wrap "error getting metrics config Secret"
    (hbase (call (KSecretKey (gsk_selector (MetricsConfigSecretKeyRef mdb)) (Namespace (m_meta mdb))))) ;;
  let podAnnotations := {[ "k8s.mariadb.com/config" := Hash config ]} in
  if IsTLSEnabled mdb then
    tlsAnnotations <- wrap "error getting TLS client annotations" (call HTLSClientAnnotations) ;;
    ret (tlsAnnotations ∪ podAnnotations)
  else ret podAnnotations.

(** pkg/controller/deployment: the replicas and the Pod template are patched. *)
Definition Deployment_Reconcile {S} (key : NamespacedName) (desiredDeploy : string) : M S phop unit :=
  r <- try (call (HGetDeployment key)) ;;
  match r with
  | Err err =>
      if negb (IsNotFound err) then throw (ErrWrap "error getting Deployment" err)
      else wrap "error creating Deployment" (call (HCreateDeployment key desiredDeploy))
  | Ok _ => call (HPatchDeployment key desiredDeploy)
  end.
Definition reconcileExporterDeployment (mariadb : MariaDB) : C unit :=
  podAnnotations <- wrap "error getting exporter Pod annotations" (getExporterUpdateAnnotations mariadb) ;;
  desiredDeploy <- wrap "error building exporter Deployment" (call (HBuildExporterDeployment podAnnotations)) ;;
  Deployment_Reconcile (MetricsKey mariadb) desiredDeploy.

Definition reconcileExporterService (mariadb : MariaDB) : C unit :=
  let key := MetricsKey mariadb in
  let selectorLabels := WithMetricsSelectorLabels key ∅ in
  let opts := mkServiceOpts { ServiceTemplate_zero with svt_Metadata := Some (mkMetadata selectorLabels ∅) }
    (Some selectorLabels) false [mkCoreServicePort MetricsPortName (ex_Port (mt_Exporter (metrics_of mariadb))) 0 None]
    false (sp_InheritMetadata (m_Spec mariadb)) in
  desiredSvc <- wrap "error building exporter Service" (hsvc (BuildService key opts)) ;;
  hsvc (Service_Reconcile desiredSvc).

(** pkg/controller/servicemonitor: the endpoints are patched. *)
Definition ServiceMonitor_Reconcile {S} (key : NamespacedName) (desiredSvcMonitor : string) : M S phop unit :=
  r <- try (call (HGetServiceMonitor key)) ;;
  match r with
  | Err err =>
      if negb (IsNotFound err) then throw (ErrWrap "error getting ServiceMonitor" err)
      else wrap "error creating ServiceMonitor" (call (HCreateServiceMonitor key desiredSvcMonitor))
  | Ok _ => call (HPatchServiceMonitor key desiredSvcMonitor)
  end.
Definition reconcileServiceMonitor (mariadb : MariaDB) : C unit :=
  desiredSvcMonitor <- wrap "error building Service Monitor" (call HBuildServiceMonitor) ;;
  ServiceMonitor_Reconcile (MetricsKey mariadb) desiredSvcMonitor.

Definition reconcileMetrics : C ctrl_Result :=
  mariadb <- get ;;
  if negb (AreMetricsEnabled mariadb) then ret Result_zero else
  exist <- call HServiceMonitorExist ;;
  if negb (exist : bool) then ret (requeue_after (10 * Second)) else
  if negb (IsReady mariadb) then ret (requeue_after (1 * Second)) else
  reconcileMetricsPassword mariadb ;;;
  then_if_zero (reconcileAuth mariadb)
    (reconcileExporterConfig mariadb ;;;
     reconcileExporterDeployment mariadb ;;;
     reconcileExporterService mariadb ;;;
     reconcileServiceMonitor mariadb ;;;
     ret Result_zero).
End phases.

(** ** Errors of a phase that the loop over the phases skips *)
Definition shouldSkipPhase (err : error) : bool :=
  if IsNotFound err then true else errors_Is err ErrSkipReconciliationPhase.
