(* ===== verification/MariaDBPhasesSafety.v ===== *)
(** * The remaining phases of the MariaDB reconciler: properties

    In which order accounts are set up, that passwords are generated once and never overwritten,
    who owns the binding of the agent, and how a restore is lost. *)

From S2P Require Import Prelude GoStrings StatefulSet Datastructures Conditions MariaDBTypes.
From S2P Require Import Concurrency Kube Health ConditionSetters Status Pki StorageResize SqlResources.
From S2P Require Import MariaDBDefaults MariaDBInit MariaDBServices MariaDBPhases.

Local Open Scope Z_scope.
Local Open Scope go_scope.

(** ** The initial accounts *)
Section accounts.
Context `{RANGE : MapRange} `{SORT : SliceSort} `{COND : StatusConditions}.

Definition user_ready (key : NamespacedName) (t : htrace) : Prop :=
  ∃ conditions, Ev (HGetUser key) (Ok conditions) ∈ t ∧ object_ready conditions = true.
Definition grant_ready (key : NamespacedName) (t : htrace) : Prop :=
  ∃ conditions, Ev (HGetGrant key) (Ok conditions) ∈ t ∧ object_ready conditions = true.

(** The acts: to create a User, a Grant or a Database, by its key. *)
Inductive account_act := MakeUser (key : NamespacedName) | MakeGrant (key : NamespacedName) | MakeDatabase (key : NamespacedName).
Definition common_key (c : sql_common) : NamespacedName := mkNamespacedName (Name (sc_meta c)) (Namespace (sc_meta c)).
Definition account_act_of (e : event phop) : option account_act :=
  match ev_op e with
  | HCreateUser u => Some (MakeUser (common_key (u_common u)))
  | HCreateGrant g => Some (MakeGrant (common_key (g_common g)))
  | HCreateDatabase d => Some (MakeDatabase (common_key (d_common d)))
  | _ => None
  end.
Definition account_needs (m : MariaDB) (a : account_act) (t : htrace) : Prop :=
  match a with
  | MakeUser key =>
      key = MariadbSysUserKey m ∨
      (IsInitialUserEnabled m = true ∧ key = MariadbUserKey m ∧ grant_ready (MariadbSysGrantKey m) t)
  | MakeGrant key =>
      (key = MariadbSysGrantKey m ∧ user_ready (MariadbSysUserKey m) t) ∨
      (IsInitialUserEnabled m = true ∧ key = MariadbGrantKey m ∧ user_ready (MariadbUserKey m) t)
  | MakeDatabase key => is_some (sp_Database (m_Spec m)) = true ∧ key = MariadbDatabaseKey m
  end.
Abbreviation account_safe m := (safe account_act_of (account_needs m)).
Abbreviation account_calm := (calm account_act_of).

Lemma user_ready_incl key t t' : t ⊆ t' → user_ready key t → user_ready key t'.
Proof. intros Hs (c & Hin & ?). exists c. auto. Qed.
Lemma grant_ready_incl key t t' : t ⊆ t' → grant_ready key t → grant_ready key t'.
Proof. intros Hs (c & Hin & ?). exists c. auto. Qed.
Lemma account_needs_incl m a t t' : t ⊆ t' → account_needs m a t → account_needs m a t'.
Proof.
  intros Hs. destruct a; cbn; [| |done].
  - intros [?|(? & ? & ?)]; [by left|right]. repeat split; try done. by eapply grant_ready_incl.
  - intros [[? ?]|(? & ? & ?)]; [left|right]; repeat split; try done; by eapply user_ready_incl.
Qed.

Lemma common_key_new key meta ref cleanup : common_key (new_common key meta ref cleanup) = key.
Proof. by destruct key, meta as [[]|]. Qed.

(** A step that is safe once what [a] needs was seen. *)
Definition safe_after (m : MariaDB) (a : account_act) (t : htrace) : Prop :=
  ∀ pre, account_needs m a pre → account_safe m pre t.
Lemma safe_after_calm m a t : Forall account_calm t → safe_after m a t.
Proof. intros Ht pre _. by apply safe_calm. Qed.
Lemma safe_after_act m a t e : Forall account_calm t → account_act_of e = Some a → safe_after m a (t ++ [e]).
Proof.
  intros Ht He pre Hpre. apply safe_app; [by apply safe_calm|]. apply safe_one. intros a' Ha'.
  rewrite He in Ha'. injection Ha' as <-. eapply account_needs_incl; [|exact Hpre]. set_solver.
Qed.

Lemma ReconcileUser_spec {S} m key opts (s : S) :
  wpM (ReconcileUser key opts) s (λ t s' _, s' = s ∧ safe_after m (MakeUser key) t).
Proof.
  unfold ReconcileUser, createUser, BuildUser, SetControllerReference.
  wp_auto; (split; [done|]); cbn [app]; try (apply safe_after_calm; by repeat constructor).
  all: apply (safe_after_act m _ [_; _]); [by repeat constructor|]; cbn; by rewrite common_key_new.
Qed.
Lemma ReconcileGrant_spec {S} m key userKey opts (s : S) :
  wpM (ReconcileGrant key userKey opts) s (λ t s' _, s' = s ∧ safe_after m (MakeGrant key) t).
Proof.
  unfold ReconcileGrant, createGrant, BuildGrant, SetControllerReference.
  wp_auto; (split; [done|]); cbn [app]; try (apply safe_after_calm; by repeat constructor).
  all: apply (safe_after_act m _ [_; _; _]); [by repeat constructor|]; cbn; by rewrite common_key_new.
Qed.
Lemma waitForUser_spec {S} key (s : S) :
  wpM (waitForUser key) s (λ t s' r, s' = s ∧ Forall account_calm t ∧ (r = Ok Result_zero → user_ready key t)).
Proof.
  unfold waitForUser. wp_auto; (split; [done|]); (split; [by repeat constructor|]); try done.
  intros _. exists a. split; [by left|]. by apply negb_false_iff.
Qed.

(** The user is created if it is missing, and its grant only once it was seen ready. *)
Lemma ReconcileUserGrant_spec {S} m key opts gkey gopts (s : S) :
  (∀ t, user_ready key t → account_needs m (MakeGrant gkey) t) →
  wpM (ReconcileUserGrant key opts [(gkey, gopts)]) s (λ t s' _, s' = s ∧ safe_after m (MakeUser key) t).
Proof.
  intros Hg. unfold ReconcileUserGrant. do 2 wp_step. eapply wpM_mono; [|apply (ReconcileUser_spec m)].
  intros t1 s1 [[]|e] [-> H1]; cbn [wrap_err]; [|done].
  apply wpM_then_if_zero. eapply wpM_mono; [|apply waitForUser_spec]. intros t2 s2 r (-> & Hc & Hr).
  assert (safe_after m (MakeUser key) (t1 ++ t2)) as H12.
  { intros pre Hpre. apply safe_app; [by apply H1|by apply safe_calm]. }
  split; [|done]. intros Hz. cbn [for_each]. wp_step. wp_step. eapply wpM_mono with
    (Q := λ t s' _, s' = s ∧ safe_after m (MakeGrant gkey) t).
  2: { destruct (bool_decide _); [|wp_step; split; [done|]; by apply safe_after_calm].
       wp_step. eapply wpM_mono; [|apply (ReconcileGrant_spec m)]. done. }
  intros t3 s3 r3 [-> H3].
  assert (safe_after m (MakeUser key) (t1 ++ t2 ++ t3)) as H123.
  { intros pre Hpre. rewrite (assoc_L (++)). apply safe_app; [by apply H12|]. apply H3, Hg.
    eapply user_ready_incl; [|by apply Hr]. set_solver. }
  destruct r3 as [[]|e]; [|done]. do 2 wp_step. by rewrite !app_nil_r.
Qed.

Lemma reconcileDatabase_spec m s :
  wpM (reconcileDatabase m) s (λ t s' _, s' = s ∧ ∀ pre, account_safe m pre t).
Proof.
  unfold reconcileDatabase, BuildDatabase, SetControllerReference. destruct (sp_Database (m_Spec m)) as [name|] eqn:Hd.
  2: { wp_step. split; [done|]. intros pre. by apply safe_calm. }
  assert (∀ pre, account_needs m (MakeDatabase (MariadbDatabaseKey m)) pre) as Hneeds by (intros pre; unfold account_needs; by rewrite Hd).
  wp_auto; (split; [done|]); intros pre; cbn [app]; try (apply safe_calm; by repeat constructor).
  all: apply (safe_after_act m (MakeDatabase (MariadbDatabaseKey m)) [_; _]); try apply Hneeds; [by repeat constructor|].
  all: cbn; by rewrite common_key_new.
Qed.

Lemma reconcileUsers_spec m s :
  wpM (reconcileUsers m) s (λ t s' _, s' = s ∧ ∀ pre, account_safe m pre t).
Proof.
  unfold reconcileUsers. apply wpM_then_if_zero. wp_step. eapply wpM_mono; [|apply (ReconcileUserGrant_spec m)].
  2: { intros t Ht. by left. }
  intros t s' r [-> Ht].
  assert (∀ pre, account_safe m pre t) as Hsafe by (intros pre; apply Ht; by left).
  split; [|by split]. intros _. do 3 wp_step.
  2: { split; [done|]. intros pre. apply safe_app; [done|]. apply safe_calm; by repeat constructor. }
  assert (∀ pre, account_safe m pre (t ++ [Ev (HGetGrant (MariadbSysGrantKey m)) (Ok a)])) as Hsafe2.
  { intros pre. apply safe_app; [done|]. apply safe_calm; by repeat constructor. }
  cbn [app]. wp_step; [by wp_step|]. wp_step; [|by wp_step].
  apply wpM_then_if_zero. wp_step. eapply wpM_mono; [|apply (ReconcileUserGrant_spec m)].
  2: { intros u Hu. by right. }
  intros t2 s2 r2 [-> H2].
  assert (∀ pre, account_safe m pre (t ++ Ev (HGetGrant (MariadbSysGrantKey m)) (Ok a) :: t2)) as Hsafe3.
  { intros pre. change (Ev ?o ?x :: t2) with ([Ev o x] ++ t2). rewrite (assoc_L (++)). apply safe_app; [done|].
    apply H2. right. split; [done|]. split; [done|]. exists a. split; [set_solver|by apply negb_false_iff]. }
  split; [|by split]. intros _. wp_step. by rewrite app_nil_r.
Qed.

(** C22: the SQL phase sets up the accounts of a ready MariaDB in order: nothing is asked for before it
    is ready; the Grant of mariadb.sys is created only after its User was seen ready, the initial
    User only after that Grant was, and the initial Grant only after the initial User was. *)
Theorem accounts_in_order (m : MariaDB) :
  wpM reconcileSQL m (λ t m' _, m' = m ∧ (IsReady m = false → t = []) ∧ account_safe m [] t).
Proof.
  unfold reconcileSQL. do 2 wp_step. destruct (IsReady m) eqn:Hready; cbn [negb].
  2: { wp_step. split; [done|]. split; [done|]. by apply safe_calm. }
  do 2 wp_step. eapply wpM_mono; [|apply reconcileDatabase_spec]. intros t1 s1 [[]|e] [-> H1]; cbn [wrap_err app]; [|by auto].
  apply wpM_then_if_zero. eapply wpM_mono; [|apply reconcileUsers_spec]. intros t2 s2 r2 [-> H2].
  assert (account_safe m [] (t1 ++ t2)) by by apply safe_app.
  split; [|done]. intros _. wp_step. by rewrite app_nil_r.
Qed.
End accounts.

(** ** Passwords *)
Section passwords.
Context `{RANGE : MapRange} `{SORT : SliceSort} `{COND : StatusConditions}.

Definition ref_secret (m : MariaDB) (ref : GeneratedSecretKeyRef) : NamespacedName :=
  mkNamespacedName (sks_Name (gsk_selector ref)) (Namespace (m_meta m)).

(** What may be done for a reference: read the Secret, and create it with a new password if it
    may be generated and was not found. *)
Inductive password_steps (m : MariaDB) (ref : GeneratedSecretKeyRef) : htrace → Prop :=
  | password_kept data : password_steps m ref [Ev (HGetSecret (ref_secret m ref)) (Ok data)]
  | password_unread err : password_steps m ref [Ev (HGetSecret (ref_secret m ref)) (Err err)]
  | password_not_generated err e : gsk_Generate ref = true → IsNotFound err = true →
      password_steps m ref [Ev (HGetSecret (ref_secret m ref)) (Err err); Ev HGeneratePassword (Err e)]
  | password_generated err password created : gsk_Generate ref = true → IsNotFound err = true →
      password_steps m ref
        [Ev (HGetSecret (ref_secret m ref)) (Err err); Ev HGeneratePassword (Ok password);
         Ev (HCreateSecret (ref_secret m ref) false {[ sks_Key (gsk_selector ref) := password ]}) created].
(** The Secret was found or created. *)
Definition password_there (m : MariaDB) (ref : GeneratedSecretKeyRef) (t : htrace) : Prop :=
  (∃ data, Ev (HGetSecret (ref_secret m ref)) (Ok data) ∈ t) ∨
  (∃ password, Ev HGeneratePassword (Ok password) ∈ t ∧
     Ev (HCreateSecret (ref_secret m ref) false {[ sks_Key (gsk_selector ref) := password ]}) (Ok tt) ∈ t).

Lemma reconcile_password_ref_spec {S} m ref (s : S) :
  wpM (reconcile_password_ref (Namespace (m_meta m)) ref) s (λ t s' r, s' = s ∧ password_steps m ref t ∧
    (is_ok r = true → password_there m ref t)).
Proof.
  unfold reconcile_password_ref, ReconcilePassword, BuildSecret. do 3 wp_step.
  { wp_step. split; [done|]. split; [apply password_kept|]. intros _. left. exists a. by left. }
  destruct (gsk_Generate ref) eqn:Hg; cbn [negb].
  2: { wp_step. split; [done|]. split; [apply password_unread|done]. }
  destruct (IsNotFound e) eqn:He; cbn [negb].
  2: { wp_step. split; [done|]. split; [apply password_unread|done]. }
  do 3 wp_step; cbn [wrap_err].
  2: { split; [done|]. split; [by apply password_not_generated|done]. }
  wp_auto; cbn [wrap_err app]; (split; [done|]); (split; [by apply (password_generated m ref)|]); [|done].
  intros _. right. exists a. split; [right; by left|]. destruct a0. right. right. by left.
Qed.

Lemma password_there_incl m ref t t' : t ⊆ t' → password_there m ref t → password_there m ref t'.
Proof. intros Hs [(d & ?)|(p & ? & ?)]; [left; exists d|right; exists p]; auto. Qed.

Lemma reconcile_passwords_spec {S} m refs (s : S) :
  wpM (for_each refs (λ ref, reconcile_password_ref (Namespace (m_meta m)) ref ;;; ret tt)) s (λ t s' r, s' = s ∧
    (∃ ts, t = concat ts ∧ Forall (λ t', ∃ ref, ref ∈ refs ∧ password_steps m ref t') ts) ∧
    (is_ok r = true → Forall (λ ref, password_there m ref t) refs)).
Proof.
  revert s. induction refs as [|ref refs IH]; intros s; cbn [for_each].
  { wp_step. split; [done|]. split; [by exists []|]. intros _. constructor. }
  do 2 wp_step. eapply wpM_mono; [|apply reconcile_password_ref_spec]. intros t s' r (-> & Ht & Hr).
  assert (∃ ts, t = concat ts ∧ Forall (λ t', ∃ r, r ∈ ref :: refs ∧ password_steps m r t') ts) as Hone.
  { exists [t]. cbn. rewrite app_nil_r. split; [done|]. constructor; [|done]. exists ref. split; [by left|done]. }
  destruct r as [pw|e]; [|done]. wp_step. rewrite app_nil_r. eapply wpM_mono; [|apply IH].
  intros t' s' r' (-> & (ts & -> & Hts) & Hr'). split; [done|]. split.
  - exists (t :: ts). split; [done|]. constructor; [exists ref; split; [by left|done]|].
    eapply Forall_impl; [exact Hts|]. intros u (x & ? & ?). exists x. split; [by right|done].
  - intros Hok. constructor; [eapply password_there_incl; [|by apply Hr]; set_solver|].
    eapply Forall_impl; [by apply Hr'|]. intros x. apply password_there_incl. set_solver.
Qed.

(** C23: the Secret phase never changes a Secret that exists: for each reference of the spec, one after
    the other, it reads the Secret and creates it, without an owner, with a newly generated password,
    only if it may be generated and was not found; when it succeeds, every Secret is there. *)
Theorem passwords_generated_once (m : MariaDB) :
  wpM reconcileSecret m (λ t m' r, m' = m ∧
    (∃ ts, t = concat ts ∧ Forall (λ t', ∃ ref, ref ∈ password_refs m ∧ password_steps m ref t') ts) ∧
    (is_ok r = true → Forall (λ ref, password_there m ref t) (password_refs m))).
Proof.
  unfold reconcileSecret. do 3 wp_step. eapply wpM_mono; [|apply reconcile_passwords_spec].
  intros t m' [[]|e] (-> & Ht & Hr); [|done]. wp_step. rewrite app_nil_r. auto.
Qed.
End passwords.

(** ** The permissions of the agents *)
Section rbac.
Context `{RANGE : MapRange} `{SORT : SliceSort} `{COND : StatusConditions}.

Definition delegates (m : MariaDB) (t : htrace) : Prop :=
  (∃ owners, Ev (HGetClusterRoleBinding (authDelegatorKey m)) (Ok owners) ∈ t ∧ UID (m_meta m) ∈ owners) ∨
  (∃ err sa, Ev (HGetClusterRoleBinding (authDelegatorKey m)) (Err err) ∈ t ∧ IsNotFound err = true ∧
     Ev (HCreateClusterRoleBinding (meta_of m (authDelegatorKey m)) (subject_of sa) authDelegatorRoleRef) (Ok tt) ∈ t ∧
     (Ev (HGetServiceAccount (spec_ServiceAccountKey (m_Spec m) (m_meta m))) (Ok sa) ∈ t ∨
      sa = spec_ServiceAccountKey (m_Spec m) (m_meta m))).

Lemma isOwnedBy_elem m owners : isOwnedBy m owners = true ↔ UID (m_meta m) ∈ owners.
Proof.
  unfold isOwnedBy. rewrite existsb_exists. setoid_rewrite bool_decide_eq_true. setoid_rewrite <- list_elem_of_In.
  split; [by intros (uid & ? & <-)|eauto].
Qed.

Lemma reconcileClusterRoleBinding_spec m sa s :
  wpM (reconcileClusterRoleBinding (authDelegatorKey m) m sa authDelegatorRoleRef) s (λ t s' r, r = Ok tt →
    (∃ owners, Ev (HGetClusterRoleBinding (authDelegatorKey m)) (Ok owners) ∈ t ∧ UID (m_meta m) ∈ owners) ∨
    (∃ err, Ev (HGetClusterRoleBinding (authDelegatorKey m)) (Err err) ∈ t ∧ IsNotFound err = true ∧
       Ev (HCreateClusterRoleBinding (meta_of m (authDelegatorKey m)) (subject_of sa) authDelegatorRoleRef) (Ok tt) ∈ t)).
Proof.
  unfold reconcileClusterRoleBinding, BuildClusterRoleBinding, SetControllerReference. do 3 wp_step.
  - destruct (isOwnedBy m a) eqn:Ho; cbn [negb]; wp_step; [|done]. intros _. left. exists a.
    split; [by left|by apply isOwnedBy_elem].
  - destruct (IsNotFound e) eqn:He; cbn [negb]; [|by wp_step].
    wp_auto; cbn [wrap_err app]; try done. intros _. right. exists e. destruct a0.
    split; [by left|]. split; [done|]. right. right. by left.
Qed.

Lemma ReconcileServiceAccount_spec {S} key meta (s : S) :
  wpM (ReconcileServiceAccount key meta) s (λ t s' r, s' = s ∧ ∀ sa, r = Ok sa →
    Ev (HGetServiceAccount key) (Ok sa) ∈ t ∨ sa = key).
Proof.
  unfold ReconcileServiceAccount, BuildServiceAccount, SetControllerReference.
  wp_auto; (split; [done|]); try done; intros sa [= <-]; [left; by left|by right].
Qed.

(** When the RBAC phase of a Galera cluster with Kubernetes authentication succeeds, the binding
    that lets its agents review tokens is its own: one it owns, or one it just created for its
    ServiceAccount because there was none. *)
Theorem agent_binding_is_owned (m : MariaDB) :
  wpM reconcileRBAC m (λ t _ r, is_ok r = true → IsGaleraEnabled m = true → ka_Enabled (agent_k8sAuth m) = true →
    delegates m t).
Proof.
  unfold reconcileRBAC, ReconcileMariadbRBAC. do 5 wp_step. eapply wpM_mono; [|apply ReconcileServiceAccount_spec].
  intros t1 s1 [sa|e] [-> H1]; cbn [wrap_err]; [|done]. specialize (H1 sa eq_refl).
  destruct (IsGaleraEnabled m); cbn [negb]; [|by do 2 wp_step].
  wp_step. wp_step. apply wp_true. intros t2 [s2 [role|e]]; cbn [wrap_err fst snd]; [|done].
  wp_step. wp_step. apply wp_true. intros t3 [s3 [[]|e]]; cbn [wrap_err fst snd]; [|done].
  destruct (ka_Enabled (agent_k8sAuth m)); [|by do 2 wp_step].
  wp_step. eapply wpM_mono; [|apply (reconcileClusterRoleBinding_spec m sa)].
  intros t4 s4 [[]|e] H4; cbn [wrap_err]; [|done]. wp_step. intros _ _ _.
  destruct (H4 eq_refl) as [(owners & Hin & Ho)|(err & Hin & He & Hc)].
  - left. exists owners. split; [|done]. set_solver.
  - right. exists err, sa. split; [set_solver|]. split; [done|]. split; [set_solver|].
    destruct H1 as [H1| ->]; [left; set_solver|by right].
Qed.
End rbac.

(** ** Restores *)
Section restore.
Context `{RANGE : MapRange} `{SORT : SliceSort} `{COND : StatusConditions}.

(** [n] reconciliations of the restore phase, one after the other, on the object in memory. *)
Fixpoint restore_runs (n : nat) : M MariaDB phop (list (result ctrl_Result)) :=
  match n with
  | O => ret []
  | S n => r <- try reconcileRestore ;; rs <- restore_runs n ;; ret (r :: rs)
  end.

Definition restore_answer (e : event phop) : option (result (list Condition)) :=
  match e with
  | Ev o r => match o in phop X return X → option (result (list Condition)) with
              | HGetRestore _ => Some
              | _ => λ _, None
              end r
  end.
(** Whoever looks for the Restore finds none. *)
Definition restore_is_gone (e : event phop) : Prop :=
  match restore_answer e with Some (Err err) => IsNotFound err = true | Some (Ok _) => False | None => True end.
Definition looks_for_restore (m : MariaDB) (e : event phop) : Prop :=
  ∃ r, e = Ev (HGetRestore (RestoreKey m)) r.
(** The phase failed, and the loop over the phases ignores it. *)
Definition silently_failed (r : result ctrl_Result) : Prop :=
  ∃ err, r = Err err ∧ shouldSkipPhase err = true.

Lemma stuck_run m : shouldReconcileRestore m = true → IsRestoringBackup m = true →
  wpA restore_is_gone reconcileRestore m (λ t m' r,
    m' = m ∧ Forall (looks_for_restore m) t ∧ silently_failed r).
Proof.
  intros Hs Hr. unfold reconcileRestore. apply wpA_bind, wpA_get. rewrite Hs, Hr. cbn [negb].
  apply wpA_bind, wpA_call. intros [existing|err] Hgone; [done|]. cbn in Hgone.
  split_and!; [done|by repeat constructor; eexists|]. exists err. split; [done|].
  unfold shouldSkipPhase. by rewrite Hgone.
Qed.

(** A MariaDB whose status says that a restore is going on while there is no Restore object stays
    so: however often the phase runs, it only looks for the Restore, creates none, changes
    nothing and fails with an error that the loop over the phases skips. *)
Theorem interrupted_restore_is_stuck n m :
  shouldReconcileRestore m = true → IsRestoringBackup m = true →
  wpA restore_is_gone (restore_runs n) m (λ t m' r,
    m' = m ∧ Forall (looks_for_restore m) t ∧
    ∃ rs, r = Ok rs ∧ length rs = n ∧ Forall silently_failed rs).
Proof.
  intros Hs Hr. induction n as [|n IH]; cbn [restore_runs].
  - apply wpA_ret. split_and!; [done|done|]. by exists [].
  - apply wpA_bind, wpA_try. eapply wpA_mono; [|by apply stuck_run]. intros t m' r (-> & Ht & Hf).
    apply wpA_bind. eapply wpA_mono; [|exact IH]. intros t' m' r' (-> & Ht' & rs & -> & <- & Hrs).
    apply wpA_ret. rewrite app_nil_r. split_and!; [done|by apply Forall_app|].
    exists (r :: rs). split_and!; [done|done|by constructor].
Qed.

(** The phase itself leads there: it says that a restore is going on before it creates the
    Restore.  Whenever the creation fails, the next run starts in the state above. *)
Lemma restoring_status m : shouldReconcileRestore m = true →
  shouldReconcileRestore { m with m_Status := SetRestoringBackup (m_Status m) } = true ∧
  IsRestoringBackup { m with m_Status := SetRestoringBackup (m_Status m) } = true.
Proof.
  unfold shouldReconcileRestore, IsUpdating, IsResizingStorage, IsSwitchingPrimary,
    HasGaleraNotReadyCondition, HasRestoredBackup, IsRestoringBackup, condition_false_because.
  cbn. unfold constant. cbn.
  rewrite !IsStatusConditionFalse_set, !IsStatusConditionTrue_set, !find_set_ne by done.
  repeat match goal with |- context [bool_decide (?a = ?b)] =>
    first [rewrite (bool_decide_false (a = b)) by done|rewrite (bool_decide_true (a = b)) by done] end.
  destruct (_ || _); [done|]. destruct (IsStatusConditionTrue _ _); [done|]. by destruct m.
Qed.

Definition failed_creation (t : htrace) : Prop := ∃ r e, Ev (HCreateRestore r) (Err e) ∈ t.
Definition restore_failure (e : event phop) : Prop :=
  match e with
  | Ev o r => match o in phop X return X → Prop with
              | HCreateRestore _ => λ r, is_ok r = false
              | _ => λ _, False
              end r
  end.
Lemma no_failed_creation t (Q : Prop) : Forall (λ e, ¬ restore_failure e) t → failed_creation t → Q.
Proof. rewrite Forall_forall. intros Ht (r & e & Hin). by destruct (Ht _ Hin). Qed.

Lemma health_check_reads {S} key opts (m : S) :
  wpM (hbase (IsStatefulSetHealthy key opts)) m (λ t m' _, m' = m ∧ Forall (λ e, ¬ restore_failure e) t).
Proof.
  unfold hbase, vbase. do 2 apply wpM_hoist. unfold IsStatefulSetHealthy. wp_auto.
  all: split; [done|]; cbn; repeat constructor; by intros [].
Qed.

Lemma failed_creation_gets_stuck m : IsRestoringBackup m = false →
  wpM reconcileRestore m (λ t m' _,
    failed_creation t → shouldReconcileRestore m' = true ∧ IsRestoringBackup m' = true).
Proof.
  intros Hr. unfold reconcileRestore, patchStatus_by, update_status, BuildRestore, SetControllerReference, hbase, vbase.
  wp_step. wp_step. wp_step; [wp_step; by apply no_failed_creation|]. rewrite Hr.
  wp_step. wp_step. eapply wpM_mono; [|apply health_check_reads].
  intros t m1 [healthy|e] [-> Ht]; cbn [wrap_err]; [|by apply no_failed_creation].
  assert (∀ u (Q : Prop), Forall (λ e, ¬ restore_failure e) u → failed_creation (t ++ u) → Q) as Hno.
  { intros u Q Hu. apply no_failed_creation. by apply Forall_app. }
  wp_auto.
  all: first [apply Hno; repeat constructor; by intros []
             |intros _; by apply restoring_status, negb_false_iff].
Qed.
End restore.

Definition restorable : MariaDB :=
  { MariaDB_zero meta_ex with
    m_Spec -> sp_BootstrapFrom := Some { BootstrapFrom_zero with bf_BackupContentType := BackupContentTypeLogical } }.
Lemma interrupted_restore_is_stuck_witness :
  let m := { restorable with m_Status := SetRestoringBackup (m_Status restorable) } in
  shouldReconcileRestore m = true ∧ IsRestoringBackup m = true ∧
  wpA restore_is_gone (restore_runs 3) m (λ t m' r,
    m' = m ∧ Forall (looks_for_restore m) t ∧
    ∃ rs, r = Ok rs ∧ length rs = 3%nat ∧ Forall silently_failed rs).
Proof.
  split_and!; [by vm_compute|by vm_compute|].
  apply interrupted_restore_is_stuck; by vm_compute.
Defined.
