(* ===== verification/MaxScaleDefaults.v ===== *)
(** * The defaults of a MaxScale

    [MaxScale.SetDefaults] of api/v1alpha1/maxscale_types.go with the defaults of each part of the
    spec, and what they guarantee: they only fill what is empty, and filling again changes nothing. *)

From S2P Require Import Prelude GoStrings StatefulSet Conditions MariaDBTypes GaleraConfig MaxScaleTypes.
From S2P Require Import MariaDBDefaults.

Local Open Scope Z_scope.

Definition zero_default {A} `{EqDecision A} (zero value default_value : A) : A :=
  if bool_decide (value = zero) then default_value else value.

(** ** The parts of the spec *)
Definition MaxScaleServer_SetDefaults (s : MaxScaleServer) : MaxScaleServer :=
  { s with mss_Port := zero_default 0 (mss_Port s) 3306;
           mss_Protocol := zero_default "" (mss_Protocol s) "MariaDBBackend" }.

Definition MaxScaleMonitor_SetDefaults (m : MaxScaleMonitor) (mxs : MaxScale) : MaxScaleMonitor :=
  { m with
    mon_Name := if bool_decide (mon_Name m = "") && negb (bool_decide (mon_Module m = ""))
                then mon_Module m +:+ "-monitor" else mon_Name m;
    mon_Interval := zero_default 0 (mon_Interval m) (2 * Second);
    mon_CooperativeMonitoring :=
      if mx_IsHAEnabled mxs then or_default (mon_CooperativeMonitoring m) (Some CooperativeMonitoringMajorityOfAll)
      else mon_CooperativeMonitoring m }.

Definition MaxScaleListener_SetDefaults (l : MaxScaleListener) (svc : MaxScaleService) : MaxScaleListener :=
  { l with lis_Name := zero_default "" (lis_Name l) (msv_Name svc +:+ "-listener");
           lis_Protocol := zero_default "" (lis_Protocol l) "MariaDBProtocol" }.
Definition MaxScaleService_SetDefaults (s : MaxScaleService) : MaxScaleService :=
  { s with msv_Listener := MaxScaleListener_SetDefaults (msv_Listener s) s }.

Definition MaxScaleAdmin_SetDefaults (a : MaxScaleAdmin) : MaxScaleAdmin :=
  mkMaxScaleAdmin (zero_default 0 (adm_Port a) 8989) (or_default (adm_GuiEnabled a) (Some true)).

Definition MaxScaleConfigSync_zero : MaxScaleConfigSync := mkMaxScaleConfigSync "" 0 0.
Definition MaxScaleConfigSync_SetDefaults (s : MaxScaleConfigSync) : MaxScaleConfigSync :=
  mkMaxScaleConfigSync (zero_default "" (cs_Database s) "mysql") (zero_default 0 (cs_Interval s) (5 * Second))
    (zero_default 0 (cs_Timeout s) (10 * Second)).
(** The quantity 100Mi. *)
Definition default_config_size : Z := 100 * 1024 * 1024.
Definition MaxScaleConfig_SetDefaults (c : MaxScaleConfig) (mxs : MaxScale) : MaxScaleConfig :=
  let vct := mxc_VolumeClaimTemplate c in
  { c with
    mxc_VolumeClaimTemplate := { vct with
      vt_Requests := if vt_Requests vct !! ResourceStorage is Some _ then vt_Requests vct
                     else <[ResourceStorage := default_config_size]> (vt_Requests vct);
      vt_AccessModes := match vt_AccessModes vct with [] => [ReadWriteOnce] | l => l end };
    mxc_Sync := if mx_IsHAEnabled mxs
                then Some (MaxScaleConfigSync_SetDefaults (default MaxScaleConfigSync_zero (mxc_Sync c)))
                else mxc_Sync c }.

(** maxscale_keys.go: the users and their passwords have the same names. *)
Definition auth_user (mxs : MaxScale) (suffix : string) : string := Name (mx_meta mxs) +:+ suffix.

Definition default_auth_metrics (a : MaxScaleAuth) (mxs : MaxScale) : MaxScaleAuth :=
  if mmt_Enabled (default MaxScaleMetrics_zero (mxs_Metrics (mx_Spec mxs))) then
    { a with
      au_MetricsUsername := zero_default "" (au_MetricsUsername a) "metrics";
      au_MetricsPasswordSecretKeyRef :=
        zero_default SecretKeyRef_zero (au_MetricsPasswordSecretKeyRef a) (mx_MetricsPasswordSecretKeyRef mxs) }
  else a.
Definition default_auth_sync (a : MaxScaleAuth) (mxs : MaxScale) : MaxScaleAuth :=
  if mx_IsHAEnabled mxs then
    { a with
      au_SyncUsername := or_default (au_SyncUsername a) (Some (auth_user mxs "-sync"));
      au_SyncPasswordSecretKeyRef := or_default (au_SyncPasswordSecretKeyRef a) (Some (mx_password_ref mxs "-sync"));
      au_SyncMaxConnections := or_default (au_SyncMaxConnections a) (Some (defaultConnections mxs)) }
  else a.
Definition MaxScaleAuth_SetDefaults (a : MaxScaleAuth) (mxs : MaxScale) : MaxScaleAuth :=
  let a := { a with
    au_Generate := if is_some (mxs_MariaDBRef (mx_Spec mxs)) then or_default (au_Generate a) (Some true)
                   else au_Generate a;
    au_AdminUsername := zero_default "" (au_AdminUsername a) "mariadb-operator";
    au_AdminPasswordSecretKeyRef :=
      zero_default SecretKeyRef_zero (au_AdminPasswordSecretKeyRef a) (AdminPasswordSecretKeyRef mxs);
    au_DeleteDefaultAdmin := or_default (au_DeleteDefaultAdmin a) (Some true) } in
  let a := default_auth_metrics a mxs in
  let a := { a with
    au_ClientUsername := zero_default "" (au_ClientUsername a) (auth_user mxs "-client");
    au_ClientPasswordSecretKeyRef :=
      zero_default SecretKeyRef_zero (au_ClientPasswordSecretKeyRef a) (mx_password_ref mxs "-client");
    au_ClientMaxConnections := zero_default 0 (au_ClientMaxConnections a) (defaultConnections mxs);
    au_ServerUsername := zero_default "" (au_ServerUsername a) (auth_user mxs "-server");
    au_ServerPasswordSecretKeyRef :=
      zero_default SecretKeyRef_zero (au_ServerPasswordSecretKeyRef a) (mx_password_ref mxs "-server");
    au_ServerMaxConnections := zero_default 0 (au_ServerMaxConnections a) (defaultConnections mxs);
    au_MonitorUsername := zero_default "" (au_MonitorUsername a) (auth_user mxs "-monitor");
    au_MonitorPasswordSecretKeyRef :=
      zero_default SecretKeyRef_zero (au_MonitorPasswordSecretKeyRef a) (mx_password_ref mxs "-monitor");
    au_MonitorMaxConnections := zero_default 0 (au_MonitorMaxConnections a) (defaultConnections mxs) } in
  default_auth_sync a mxs.

(** Only for a MariaDB that requires TLS. *)
Definition MaxScaleTLS_SetDefaults (t : MaxScaleTLS) (mdb : option MariaDB) : MaxScaleTLS :=
  match mdb with
  | Some mdb =>
      if negb (mtls_Enabled t) || negb (IsTLSRequired mdb) then t else
      { t with
        mtls_ReplicationSSLEnabled :=
          if rep_Enabled (replication mdb) then or_default (mtls_ReplicationSSLEnabled t) (Some true)
          else mtls_ReplicationSSLEnabled t;
        mtls_ServerCASecretRef := or_default (mtls_ServerCASecretRef t) (Some (sks_Name (TLSCABundleSecretKeyRef mdb)));
        mtls_ServerCertSecretRef := or_default (mtls_ServerCertSecretRef t) (Some (nn_Name (TLSClientCertSecretKey mdb))) }
  | None => t
  end.

(** [MaxScalePodTemplate.ServiceAccountKey] and [MaxScalePodTemplate.SetDefaults] *)
Definition mx_ServiceAccountKey (p : MaxScaleSpec) (objMeta : ObjectMeta) : NamespacedName :=
  mkNamespacedName (default (Name objMeta) (mxs_ServiceAccountName p)) (Namespace objMeta).
Definition MaxScalePodTemplate_SetDefaults (p : MaxScaleSpec) (objMeta : ObjectMeta) : MaxScaleSpec :=
  { p with
    mxs_ServiceAccountName := or_default (mxs_ServiceAccountName p) (Some (nn_Name (mx_ServiceAccountKey p objMeta)));
    mxs_Affinity := (λ a, AffinityConfig_SetDefaults a [Name objMeta]) <$> mxs_Affinity p }.

(** ** [MaxScale.SetDefaults] *)
Definition default_service : MaxScaleService :=
  mkMaxScaleService false "rw-router" ServiceRouterReadWriteSplit { MaxScaleListener_zero with lis_Port := 3306 } ∅.
Definition getAntiAffinityInstances (m : MaxScale) (mariadb : option MariaDB) : list string :=
  Name (mx_meta m) :: match mariadb with Some mdb => [Name (m_meta mdb)] | None => [] end.

Definition with_spec (m : MaxScale) (s : MaxScaleSpec) : MaxScale := { m with mx_Spec := s }.

(** Image, interval, servers, services, monitor and admin. *)
Definition default_mx_server (m : MaxScale) (env : OperatorEnv) : MaxScaleSpec :=
  let s := mx_Spec m in
  { s with
    mxs_Image := zero_default "" (mxs_Image s) (env_RelatedMaxscaleImage env);
    mxs_RequeueInterval := or_default (mxs_RequeueInterval s) (Some (30 * Second));
    mxs_Servers := fmap (M:=list) MaxScaleServer_SetDefaults <$> mxs_Servers s;
    mxs_Services := MaxScaleService_SetDefaults <$> match mxs_Services s with [] => [default_service] | l => l end;
    mxs_Monitor := MaxScaleMonitor_SetDefaults (mxs_Monitor s) m;
    mxs_Admin := MaxScaleAdmin_SetDefaults (mxs_Admin s);
    mxs_Config := MaxScaleConfig_SetDefaults (mxs_Config s) m;
    mxs_Auth := MaxScaleAuth_SetDefaults (mxs_Auth s) m }.

Definition default_mx_metrics (mt : MaxScaleMetrics) (env : OperatorEnv) (instances : list string) : MaxScaleMetrics :=
  if mmt_Enabled mt then
    { mt with mmt_Exporter := mkExporter
        (zero_default "" (ex_Image (mmt_Exporter mt)) (env_RelatedExporterMaxscaleImage env))
        (zero_default 0 (ex_Port (mmt_Exporter mt)) 9105)
        ((λ a, AffinityConfig_SetDefaults a instances) <$> ex_Affinity (mmt_Exporter mt)) }
  else mt.

Definition default_mx_tls (tls : option MaxScaleTLS) (mariadb : option MariaDB) : option MaxScaleTLS :=
  (λ t, MaxScaleTLS_SetDefaults t mariadb) <$>
  or_default tls (match mariadb with
                  | Some mdb => if IsTLSRequired mdb then Some { MaxScaleTLS_zero with mtls_Enabled := true } else None
                  | None => None
                  end).

Definition MaxScale_SetDefaults (m : MaxScale) (env : OperatorEnv) (mariadb : option MariaDB) : MaxScale :=
  let instances := getAntiAffinityInstances m mariadb in
  let s := default_mx_server m env in
  let s := { s with
    mxs_Metrics := (λ mt, default_mx_metrics mt env instances) <$> mxs_Metrics s;
    mxs_TLS := default_mx_tls (mxs_TLS s) mariadb;
    mxs_Affinity := (λ a, AffinityConfig_SetDefaults a instances) <$> mxs_Affinity s } in
  with_spec m (MaxScalePodTemplate_SetDefaults s (mx_meta m)).

(** ** Defaulting settles *)
Lemma mx_zero_default_idem {A} `{EqDecision A} (z x v : A) : zero_default z (zero_default z x v) v = zero_default z x v.
Proof. apply (zero_default_idem x z v). Qed.
#[local] Arguments zero_default : simpl never.
#[local] Arguments or_default : simpl never.
Create Rewrite HintDb settle.
#[local] Hint Rewrite @mx_zero_default_idem @or_default_idem : settle.

#[local] Ltac settle := cbn; unfold constant; autorewrite with settle; try reflexivity.

Lemma server_settles s : MaxScaleServer_SetDefaults (MaxScaleServer_SetDefaults s) = MaxScaleServer_SetDefaults s.
Proof. unfold MaxScaleServer_SetDefaults. settle. Qed.
Lemma service_settles s : MaxScaleService_SetDefaults (MaxScaleService_SetDefaults s) = MaxScaleService_SetDefaults s.
Proof. unfold MaxScaleService_SetDefaults, MaxScaleListener_SetDefaults. settle. Qed.
Lemma services_settle (l : list MaxScaleService) (or_one := λ l, match l with [] => [default_service] | s :: l => s :: l end) :
  MaxScaleService_SetDefaults <$> or_one (MaxScaleService_SetDefaults <$> or_one l) = MaxScaleService_SetDefaults <$> or_one l.
Proof.
  assert (∀ s l, or_one (MaxScaleService_SetDefaults <$> (s :: l)) = MaxScaleService_SetDefaults <$> (s :: l)) as Hor by done.
  assert (∃ s l', or_one l = s :: l') as (s & l' & ->) by (destruct l; unfold or_one; eauto). rewrite Hor.
  rewrite <-list_fmap_compose. apply list_fmap_ext. intros; apply service_settles.
Qed.
Lemma admin_settles a : MaxScaleAdmin_SetDefaults (MaxScaleAdmin_SetDefaults a) = MaxScaleAdmin_SetDefaults a.
Proof. unfold MaxScaleAdmin_SetDefaults. settle. Qed.
Lemma sync_settles s : MaxScaleConfigSync_SetDefaults (MaxScaleConfigSync_SetDefaults s) = MaxScaleConfigSync_SetDefaults s.
Proof. unfold MaxScaleConfigSync_SetDefaults. settle. Qed.

Lemma monitor_name_settles name module :
  let d n := if bool_decide (n = "") && negb (bool_decide (module = "")) then module +:+ "-monitor" else n in d (d name) = d name.
Proof.
  cbn. destruct (bool_decide_reflect (module = "")) as [->|Hm]; cbn; [by rewrite !andb_false_r|]. rewrite !andb_true_r.
  destruct (bool_decide_reflect (name = "")); [|by rewrite bool_decide_eq_false_2].
  rewrite bool_decide_eq_false_2; [done|]. by destruct module.
Qed.

(** The completed authentication, field by field. *)
Definition completed_auth (a : MaxScaleAuth) (m : MaxScale) : MaxScaleAuth :=
  let metrics := mx_AreMetricsEnabled m in
  let ha := mx_IsHAEnabled m in
  mkMaxScaleAuth
    (if is_some (mxs_MariaDBRef (mx_Spec m)) then or_default (au_Generate a) (Some true) else au_Generate a)
    (zero_default "" (au_AdminUsername a) "mariadb-operator")
    (zero_default SecretKeyRef_zero (au_AdminPasswordSecretKeyRef a) (AdminPasswordSecretKeyRef m))
    (or_default (au_DeleteDefaultAdmin a) (Some true))
    (if metrics then zero_default "" (au_MetricsUsername a) "metrics" else au_MetricsUsername a)
    (if metrics then zero_default SecretKeyRef_zero (au_MetricsPasswordSecretKeyRef a) (mx_MetricsPasswordSecretKeyRef m)
     else au_MetricsPasswordSecretKeyRef a)
    (zero_default "" (au_ClientUsername a) (auth_user m "-client"))
    (zero_default SecretKeyRef_zero (au_ClientPasswordSecretKeyRef a) (mx_password_ref m "-client"))
    (zero_default 0 (au_ClientMaxConnections a) (defaultConnections m))
    (zero_default "" (au_ServerUsername a) (auth_user m "-server"))
    (zero_default SecretKeyRef_zero (au_ServerPasswordSecretKeyRef a) (mx_password_ref m "-server"))
    (zero_default 0 (au_ServerMaxConnections a) (defaultConnections m))
    (zero_default "" (au_MonitorUsername a) (auth_user m "-monitor"))
    (zero_default SecretKeyRef_zero (au_MonitorPasswordSecretKeyRef a) (mx_password_ref m "-monitor"))
    (zero_default 0 (au_MonitorMaxConnections a) (defaultConnections m))
    (if ha then or_default (au_SyncUsername a) (Some (auth_user m "-sync")) else au_SyncUsername a)
    (if ha then or_default (au_SyncPasswordSecretKeyRef a) (Some (mx_password_ref m "-sync"))
     else au_SyncPasswordSecretKeyRef a)
    (if ha then or_default (au_SyncMaxConnections a) (Some (defaultConnections m)) else au_SyncMaxConnections a).
Lemma auth_completes a m : MaxScaleAuth_SetDefaults a m = completed_auth a m.
Proof.
  unfold MaxScaleAuth_SetDefaults, completed_auth, default_auth_sync, default_auth_metrics, mx_AreMetricsEnabled.
  by destruct (mx_IsHAEnabled m), (mmt_Enabled _).
Qed.

(** What the defaults of the parts read of the whole. *)
Definition same_context (m m' : MaxScale) : Prop :=
  mx_meta m' = mx_meta m ∧ mxs_Replicas (mx_Spec m') = mxs_Replicas (mx_Spec m) ∧
  mxs_MariaDBRef (mx_Spec m') = mxs_MariaDBRef (mx_Spec m) ∧ mx_AreMetricsEnabled m' = mx_AreMetricsEnabled m.

Section settles.
Context (m m' : MaxScale) (Hm : same_context m m').

Lemma context_HA : mx_IsHAEnabled m' = mx_IsHAEnabled m.
Proof. unfold mx_IsHAEnabled. by destruct Hm as (_ & -> & _). Qed.
Lemma monitor_settles mon :
  MaxScaleMonitor_SetDefaults (MaxScaleMonitor_SetDefaults mon m) m' = MaxScaleMonitor_SetDefaults mon m.
Proof.
  unfold MaxScaleMonitor_SetDefaults. rewrite context_HA. settle. f_equal; [apply monitor_name_settles|].
  destruct (mx_IsHAEnabled m); [apply or_default_idem|done].
Qed.
Lemma config_settles c :
  MaxScaleConfig_SetDefaults (MaxScaleConfig_SetDefaults c m) m' = MaxScaleConfig_SetDefaults c m.
Proof.
  unfold MaxScaleConfig_SetDefaults. rewrite context_HA. cbn. unfold constant. f_equal.
  - f_equal; [|by destruct (vt_AccessModes _)]. destruct (vt_Requests _ !! ResourceStorage) eqn:Hr; [by rewrite Hr|].
    by rewrite lookup_insert_eq.
  - destruct (mx_IsHAEnabled m); [cbn; by rewrite sync_settles|done].
Qed.
Lemma auth_settles a :
  MaxScaleAuth_SetDefaults (MaxScaleAuth_SetDefaults a m) m' = MaxScaleAuth_SetDefaults a m.
Proof.
  rewrite !auth_completes. unfold completed_auth. rewrite context_HA. destruct Hm as (Hmeta & Hrep & Href & Hmet).
  unfold mx_AreMetricsEnabled in *. rewrite Hmet, Href.
  unfold auth_user, AdminPasswordSecretKeyRef, mx_MetricsPasswordSecretKeyRef, mx_password_ref, defaultConnections.
  rewrite Hmeta, Hrep. f_equal; try apply mx_zero_default_idem; try apply or_default_idem.
  all: cbn [au_Generate au_MetricsUsername au_MetricsPasswordSecretKeyRef au_SyncUsername au_SyncPasswordSecretKeyRef au_SyncMaxConnections].
  all: match goal with |- context [if ?b then _ else _] => destruct b end;
    first [apply mx_zero_default_idem|apply or_default_idem|reflexivity].
Qed.
End settles.

Lemma affinity_settles a l l' : l ≠ [] →
  AffinityConfig_SetDefaults (AffinityConfig_SetDefaults a l) l' = AffinityConfig_SetDefaults a l.
Proof.
  intros Hl. assert (bool_decide (0 < length l)%nat = true) as Hlen by (apply bool_decide_eq_true; destruct l; [done|cbn; lia]).
  unfold AffinityConfig_SetDefaults. rewrite Hlen. destruct a as [o [t|] [[]|]]; cbn; try done; by rewrite andb_false_r.
Qed.
Lemma affinity_option_settles (a : option AffinityConfig) l l' : l ≠ [] →
  (λ a, AffinityConfig_SetDefaults a l') <$> ((λ a, AffinityConfig_SetDefaults a l) <$> a) =
  (λ a, AffinityConfig_SetDefaults a l) <$> a.
Proof. intros Hl. destruct a; cbn; [by rewrite affinity_settles|done]. Qed.
Lemma metrics_settles env l mt : l ≠ [] →
  default_mx_metrics (default_mx_metrics mt env l) env l = default_mx_metrics mt env l ∧
  mmt_Enabled (default_mx_metrics mt env l) = mmt_Enabled mt.
Proof.
  intros Hl. unfold default_mx_metrics. destruct mt as [[] ex]; [|done]. split; [|done].
  cbn. unfold constant. cbn. autorewrite with settle. by rewrite affinity_option_settles.
Qed.
Lemma tls_settles mdb tls : default_mx_tls (default_mx_tls tls mdb) mdb = default_mx_tls tls mdb.
Proof.
  assert (∀ t, MaxScaleTLS_SetDefaults (MaxScaleTLS_SetDefaults t mdb) mdb = MaxScaleTLS_SetDefaults t mdb) as Ht.
  { intros t. unfold MaxScaleTLS_SetDefaults. destruct mdb as [mdb|]; [|done].
    destruct t as [[] ? ? ? ? ? ? ? ? ? ? ?]; [|done]. cbn. destruct (IsTLSRequired mdb) eqn:Htls; cbn; [|done].
    unfold constant. cbn. destruct (rep_Enabled _); by autorewrite with settle. }
  unfold default_mx_tls. destruct (or_default tls _) as [t|] eqn:Hor; [exact (f_equal Some (Ht t))|].
  destruct mdb as [mdb|]; [|done]. by destruct tls, (IsTLSRequired mdb).
Qed.

(** The completed spec, field by field. *)
Definition completed_spec (m : MaxScale) (env : OperatorEnv) (mdb : option MariaDB) : MaxScaleSpec :=
  let s := mx_Spec m in
  let instances := getAntiAffinityInstances m mdb in
  mkMaxScaleSpec (mxs_CPULimit s) (mxs_MemoryLimit s)
    (or_default (mxs_ServiceAccountName s) (Some (nn_Name (mx_ServiceAccountKey s (mx_meta m)))))
    ((λ a, AffinityConfig_SetDefaults a [Name (mx_meta m)]) <$>
     ((λ a, AffinityConfig_SetDefaults a instances) <$> mxs_Affinity s))
    (mxs_Suspend s) (mxs_MariaDBRef s) (fmap (M:=list) MaxScaleServer_SetDefaults <$> mxs_Servers s)
    (zero_default "" (mxs_Image s) (env_RelatedMaxscaleImage env)) (mxs_InheritMetadata s)
    (MaxScaleService_SetDefaults <$> match mxs_Services s with [] => [default_service] | l => l end)
    (MaxScaleMonitor_SetDefaults (mxs_Monitor s) m) (MaxScaleAdmin_SetDefaults (mxs_Admin s))
    (MaxScaleConfig_SetDefaults (mxs_Config s) m) (MaxScaleAuth_SetDefaults (mxs_Auth s) m)
    ((λ mt, default_mx_metrics mt env instances) <$> mxs_Metrics s) (default_mx_tls (mxs_TLS s) mdb) (mxs_Connection s)
    (mxs_Replicas s) (mxs_PodDisruptionBudget s) (mxs_UpdateStrategy s) (mxs_KubernetesService s)
    (mxs_GuiKubernetesService s) (or_default (mxs_RequeueInterval s) (Some (30 * Second))).
Lemma SetDefaults_completes m env mdb : MaxScale_SetDefaults m env mdb = with_spec m (completed_spec m env mdb).
Proof. reflexivity. Qed.

(** The defaults of a MaxScale are its defaults, with and without a MariaDB: completing the spec
    again changes nothing; and a MaxScale with several replicas has everything its configuration needs
    to be shared between them: the settings, the user and its password. *)
Theorem maxscale_defaults_settle (m : MaxScale) (env : OperatorEnv) (mdb : option MariaDB) :
  let d := MaxScale_SetDefaults m env mdb in
  MaxScale_SetDefaults d env mdb = d ∧
  (mx_IsHAEnabled m = true →
   is_Some (mxc_Sync (mxs_Config (mx_Spec d))) ∧ is_Some (au_SyncUsername (mxs_Auth (mx_Spec d))) ∧
   is_Some (au_SyncPasswordSecretKeyRef (mxs_Auth (mx_Spec d)))).
Proof.
  cbn zeta. rewrite !SetDefaults_completes. set (C := completed_spec m env mdb). set (d := with_spec m C).
  assert (same_context m d) as Hctx.
  { split; [reflexivity|]. split; [reflexivity|]. split; [reflexivity|]. unfold mx_AreMetricsEnabled.
    change (mxs_Metrics (mx_Spec d)) with
      ((λ mt, default_mx_metrics mt env (getAntiAffinityInstances m mdb)) <$> mxs_Metrics (mx_Spec m)).
    destruct (mxs_Metrics (mx_Spec m)) as [mt|]; [|reflexivity]. by apply (metrics_settles env (getAntiAffinityInstances m mdb)). }
  split.
  - assert (completed_spec d env mdb = C) as ->; [|reflexivity]. unfold completed_spec at 1. cbn zeta.
    change (getAntiAffinityInstances d mdb) with (getAntiAffinityInstances m mdb).
    unfold C, completed_spec. f_equal; [..|apply or_default_idem].
    + unfold d, C, completed_spec. cbn [mx_Spec with_spec mxs_ServiceAccountName]. unfold constant. cbn [mxs_ServiceAccountName].
      by destruct (mxs_ServiceAccountName (mx_Spec m)).
    + change (mx_meta d) with (mx_meta m).
      rewrite !(affinity_option_settles (mxs_Affinity (mx_Spec m)) (getAntiAffinityInstances m mdb)) by done.
      change (mxs_Affinity (mx_Spec d)) with ((λ a, AffinityConfig_SetDefaults a [Name (mx_meta m)]) <$>
        ((λ a, AffinityConfig_SetDefaults a (getAntiAffinityInstances m mdb)) <$> mxs_Affinity (mx_Spec m))).
      by rewrite !(affinity_option_settles (mxs_Affinity (mx_Spec m)) (getAntiAffinityInstances m mdb)) by done.
    + change (mxs_Servers (mx_Spec d)) with (fmap (M:=list) MaxScaleServer_SetDefaults <$> mxs_Servers (mx_Spec m)).
      destruct (mxs_Servers (mx_Spec m)) as [l|]; [|done]. cbn. f_equal.
      rewrite <-list_fmap_compose. apply list_fmap_ext. intros; apply server_settles.
    + apply mx_zero_default_idem.
    + change (mxs_Services (mx_Spec d)) with
        (MaxScaleService_SetDefaults <$> match mxs_Services (mx_Spec m) with [] => [default_service] | l => l end).
      apply services_settle.
    + by apply monitor_settles.
    + apply admin_settles.
    + by apply config_settles.
    + by apply auth_settles.
    + change (mxs_Metrics (mx_Spec d)) with
        ((λ mt, default_mx_metrics mt env (getAntiAffinityInstances m mdb)) <$> mxs_Metrics (mx_Spec m)).
      apply fmap_idem. intros mt. by apply metrics_settles.
    + apply tls_settles.
  - intros Hha. change (mxc_Sync (mxs_Config (mx_Spec d))) with
      (if mx_IsHAEnabled m
       then Some (MaxScaleConfigSync_SetDefaults (default MaxScaleConfigSync_zero (mxc_Sync (mxs_Config (mx_Spec m)))))
       else mxc_Sync (mxs_Config (mx_Spec m))).
    change (mxs_Auth (mx_Spec d)) with (MaxScaleAuth_SetDefaults (mxs_Auth (mx_Spec m)) m).
    rewrite auth_completes, Hha. cbn [au_SyncUsername au_SyncPasswordSecretKeyRef completed_auth]. rewrite Hha.
    by destruct (au_SyncUsername _), (au_SyncPasswordSecretKeyRef _).
Qed.
