(* ===== verification/MaxScaleClient.v ===== *)
(** * The REST API of MaxScale

    pkg/maxscale/client and the type maxScaleAPI of internal/controller/maxscale_controller_api.go:
    the requests the operator sends to the REST API of a MaxScale, with the objects in their bodies.
    The HTTP client below is the environment: an answer is a decoded value, an error with its status
    code, or a failure of the request or of decoding. *)

From S2P Require Import Prelude GoStrings StatefulSet Datastructures Conditions MariaDBTypes GaleraConfig MaxScaleTypes.
From S2P Require Import Concurrency Kube StorageResize Certificate MariaDBInit MariaDBServices MariaDBPhases.

Local Open Scope Z_scope.
Local Open Scope go_scope.

(** ** Parameters: types.go *)
(** A duration stands for its text. *)
Inductive json := JStr (s : string) | JInt (z : Z) | JBool (b : bool) | JDuration (d : Z).
#[export] Instance json_eq_dec : EqDecision json.
Proof. solve_decision. Defined.

(** [strconv.ParseInt(p, 10, 32)] and [strconv.ParseBool] *)
Definition ParseInt32 (p : string) : option Z :=
  match Atoi p with
  | Ok z => if bool_decide (- 2 ^ 31 ≤ z < 2 ^ 31) then Some z else None
  | Err _ => None
  end.
Definition mx_ParseBool (p : string) : option bool :=
  if bool_decide (p ∈ ["1"; "t"; "T"; "TRUE"; "true"; "True"]) then Some true
  else if bool_decide (p ∈ ["0"; "f"; "F"; "FALSE"; "false"; "False"]) then Some false
  else None.

Definition Param_MarshalJSON (p : string) : json :=
  match ParseInt32 p with
  | Some i => JInt i
  | None =>
      match mx_ParseBool p with
      | Some b => JBool b
      | None =>
          if bool_decide (p = "yes") || bool_decide (p = "on") then JBool true
          else if bool_decide (p = "no") || bool_decide (p = "off") then JBool false
          else JStr p
      end
  end.

Abbreviation json_map := (gmap string json).

(** The fields of a structure, without the empty ones of those with [omitempty], and the
    parameters of the user under the other keys. *)
Definition marshal (fields : list (string * json)) (params : gmap string string) : json_map :=
  list_to_map fields ∪ (Param_MarshalJSON <$> params).
Definition omit_str (k s : string) : list (string * json) := if bool_decide (s = "") then [] else [(k, JStr s)].
Definition omit_bool (k : string) (b : bool) : list (string * json) := if b then [(k, JBool true)] else [].

Record SSLParameters := mkSSLParameters {
  ssl_SSL : bool;
  ssl_Cert : string;
  ssl_Key : string;
  ssl_CA : string;
  ssl_Version : string;
  ssl_VerifyPeerCertificate : bool;
  ssl_VerifyPeerHost : bool
}.
Definition SSLParameters_zero : SSLParameters := mkSSLParameters false "" "" "" "" false false.
Definition ssl_fields (s : SSLParameters) : list (string * json) :=
  omit_bool "ssl" (ssl_SSL s) ++ omit_str "ssl_cert" (ssl_Cert s) ++ omit_str "ssl_key" (ssl_Key s) ++
  omit_str "ssl_ca" (ssl_CA s) ++ omit_str "ssl_version" (ssl_Version s) ++
  omit_bool "ssl_verify_peer_certificate" (ssl_VerifyPeerCertificate s) ++
  omit_bool "ssl_verify_peer_host" (ssl_VerifyPeerHost s).

Record ServerParameters := mkServerParameters {
  srp_Address : string;
  srp_Port : Z;
  srp_Protocol : string;
  srp_SSL : SSLParameters;
  srp_ReplicationCustomOptions : string;
  srp_Params : gmap string string
}.
Definition ServerParameters_MarshalJSON (s : ServerParameters) : json_map :=
  marshal ([("address", JStr (srp_Address s)); ("port", JInt (srp_Port s)); ("protocol", JStr (srp_Protocol s))] ++
           ssl_fields (srp_SSL s) ++ omit_str "replication_custom_options" (srp_ReplicationCustomOptions s))
    (srp_Params s).

Record MonitorParameters := mkMonitorParameters {
  mop_User : string;
  mop_Password : string;
  mop_MonitorInterval : Z;
  mop_CooperativeMonitoringLocks : option string;
  mop_Params : gmap string string
}.
Definition MonitorParameters_MarshalJSON (m : MonitorParameters) : json_map :=
  marshal ([("user", JStr (mop_User m)); ("password", JStr (mop_Password m));
            ("monitor_interval", JDuration (mop_MonitorInterval m))] ++
           (match mop_CooperativeMonitoringLocks m with
            | Some l => [("cooperative_monitoring_locks", JStr l)]
            | None => []
            end)) (mop_Params m).

Record ServiceParameters := mkServiceParameters {
  svp'_User : string; svp'_Password : string; svp'_Params : gmap string string
}.
Definition ServiceParameters_MarshalJSON (s : ServiceParameters) : json_map :=
  marshal [("user", JStr (svp'_User s)); ("password", JStr (svp'_Password s))] (svp'_Params s).

Record ListenerParameters := mkListenerParameters {
  lip_Port : Z; lip_Protocol : string; lip_SSL : SSLParameters; lip_Params : gmap string string
}.
Definition ListenerParameters_MarshalJSON (l : ListenerParameters) : json_map :=
  marshal ([("port", JInt (lip_Port l)); ("protocol", JStr (lip_Protocol l))] ++ ssl_fields (lip_SSL l))
    (lip_Params l).

Record MaxScaleParameters := mkMaxScaleParameters {
  mxp_ConfigSyncCluster : string;
  mxp_ConfigSyncUser : string;
  mxp_ConfigSyncPassword : string;
  mxp_ConfigSyncDB : string;
  mxp_ConfigSyncInterval : Z;
  mxp_ConfigSyncTimeout : Z
}.
Definition MaxScaleParameters_MarshalJSON (m : MaxScaleParameters) : json_map :=
  marshal [("config_sync_cluster", JStr (mxp_ConfigSyncCluster m)); ("config_sync_user", JStr (mxp_ConfigSyncUser m));
           ("config_sync_password", JStr (mxp_ConfigSyncPassword m)); ("config_sync_db", JStr (mxp_ConfigSyncDB m));
           ("config_sync_interval", JDuration (mxp_ConfigSyncInterval m));
           ("config_sync_timeout", JDuration (mxp_ConfigSyncTimeout m))] ∅.
(** What is read of the attributes of MaxScale: the version of the configuration, if any. *)
Record MaxScaleAttributes := mkMaxScaleAttributes {
  mxa_ConfigSyncVersion : option Z;
  mxa_Parameters : MaxScaleParameters
}.

(** ** Objects *)
Inductive ObjectType :=
  | ObjectTypeUsers | ObjectTypeServers | ObjectTypeMonitors | ObjectTypeServices | ObjectTypeListeners
  | ObjectTypeMaxScale.
Record Relationships := mkRelationships {
  rel_Servers : option (list string);
  rel_Monitors : option (list string);
  rel_Services : option (list string);
  rel_Listeners : option (list string)
}.
Definition NewRelationshipsBuilder : Relationships := mkRelationships None None None None.
Definition WithServers (servers : list string) (b : Relationships) : Relationships := { b with rel_Servers := Some servers }.
Definition WithMonitors (monitors : list string) (b : Relationships) : Relationships := { b with rel_Monitors := Some monitors }.
Definition WithServices (services : list string) (b : Relationships) : Relationships := { b with rel_Services := Some services }.
Definition WithListeners (listeners : list string) (b : Relationships) : Relationships := { b with rel_Listeners := Some listeners }.

(** The attributes beside the parameters are the account and the password of a user, the module of a
    monitor and the router of a service. *)
Record Attributes := mkAttributes { at_Fields : json_map; at_Parameters : json_map }.
Record Object := mkObject {
  ob_ID : string;
  ob_Type : ObjectType;
  ob_Attributes : Attributes;
  ob_Relationships : option Relationships
}.
(** What is read of an object: its name and its state. *)
Record Data := mkData { d_ID : string; d_State : string }.

(** ** Operations *)
(** A client: the URL of the API, and the user and the password it authenticates with. *)
Record mxclient := mkClient { mc_Url : string; mc_User : string; mc_Password : string }.
#[export] Instance mxclient_eq_dec : EqDecision mxclient.
Proof. solve_decision. Defined.
Inductive http_method := POST | PATCH | PUT | DELETE.
#[export] Instance http_method_eq_dec : EqDecision http_method.
Proof. solve_decision. Defined.

Inductive xop : Type → Type :=
  | XPh {X} (o : phop X) : xop X
  | XCert {X} (o : certop X) : xop X
  | XSts {X} (o : stop X) : xop X
  (* the SQL client of a server of the spec; the ordinal in [o] is not used *)
  | XSql (srv : MaxScaleServer) {X} (o : op X) : xop X
  | XGetMaxScale (key : NamespacedName) : xop (result MaxScale)
  | XCreateMaxScale (m : MaxScale) : xop (result unit)
  | XPatchMaxScale (base m : MaxScale) : xop (result unit)
  | XPatchStatus (base m : MaxScale) : xop (result unit)
  | XDeleteAllPVCs (labels : gmap string string) (namespace : string) : xop (result unit)
  (* [mdbhttp.NewClient], with the CA, the certificate and the key of the client *)
  | XNewClient (url : string) (tls : option (string * string * string)) : xop (result unit)
  | XList (c : mxclient) (path : string) : xop (agent_reply (list Data))
  | XGet (c : mxclient) (path : string) : xop (agent_reply Data)
  | XGetAttributes (c : mxclient) (path : string) : xop (agent_reply MaxScaleAttributes)
  | XSend (c : mxclient) (m : http_method) (path : string) (query : gmap string string) (body : option Object) :
      xop (agent_reply unit).

Abbreviation xtrace := (list (event xop)).

Definition HasStatusCode (err : error) (statusCode : Z) : bool :=
  match err with ErrHttp code _ => bool_decide (code = statusCode) | _ => false end.
Definition mx_IsUnauthorized (err : error) : bool := HasStatusCode err 401.
Definition mx_IsNotFound (err : error) : bool := HasStatusCode err 404.

(** ** generic_client.go *)
Record Options := mkOptions { opt_query : gmap string string; opt_relationships : option Relationships }.
Definition Option_ := Options → Options.
Definition WithQuery (q : gmap string string) : Option_ := λ o, { o with opt_query := q }.
Definition WithForceQuery : Option_ := λ o, { o with opt_query := {[ "force" := "true" ]} }.
Definition WithRelationships (rels : Relationships) : Option_ := λ o, { o with opt_relationships := Some rels }.
Definition processOptions (options : list Option_) : Options :=
  foldl (λ o setOpt, setOpt o) (mkOptions ∅ None) options.

(** A kind of objects: its path and its type. *)
Record GenericClient := mkGenericClient { gc_path : string; gc_objectType : ObjectType }.
Definition UserClient : GenericClient := mkGenericClient "users/inet" ObjectTypeUsers.
Definition ServerClient : GenericClient := mkGenericClient "servers" ObjectTypeServers.
Definition MonitorClient : GenericClient := mkGenericClient "monitors" ObjectTypeMonitors.
Definition ServiceClient : GenericClient := mkGenericClient "services" ObjectTypeServices.
Definition ListenerClient : GenericClient := mkGenericClient "listeners" ObjectTypeListeners.

Definition resourcePath (k : GenericClient) (name : string) : string := gc_path k +:+ "/" +:+ name.
Definition stopPath (k : GenericClient) (name : string) : string := resourcePath k name +:+ "/stop".
Definition startPath (k : GenericClient) (name : string) : string := resourcePath k name +:+ "/start".

Section client.
Context {S : Type}.
Abbreviation C := (M S xop).

(** The request, and [handleResponse]. *)
Definition call_http {X} (e : xop (agent_reply X)) : C X := λ s, Vis e (λ r, Ret (s, of_agent r)).

Definition List_ (k : GenericClient) (c : mxclient) : C (list Data) := call_http (XList c (gc_path k)).
Definition ListIndex (k : GenericClient) (c : mxclient) : C (Index Data) :=
  l <- List_ k c ;; ret (NewIndex l d_ID).
(** An error counts as a missing object. *)
Definition api_AllExists (k : GenericClient) (c : mxclient) (ids : list string) : C bool :=
  r <- try (ListIndex k c) ;;
  ret (match r with Ok idx => AllExists idx ids | Err _ => false end).
Definition api_Get (k : GenericClient) (c : mxclient) (name : string) : C Data :=
  call_http (XGet c (resourcePath k name)).
Definition object_of (k : GenericClient) (name : string) (attributes : Attributes) (o : Options) : Object :=
  mkObject name (gc_objectType k) attributes (opt_relationships o).
Definition Create (k : GenericClient) (c : mxclient) (name : string) (attributes : Attributes)
    (options : list Option_) : C unit :=
  let opts := processOptions options in
  call_http (XSend c POST (gc_path k) (opt_query opts) (Some (object_of k name attributes opts))).
Definition Delete (k : GenericClient) (c : mxclient) (name : string) (options : list Option_) : C unit :=
  call_http (XSend c DELETE (resourcePath k name) (opt_query (processOptions options)) None).
Definition Patch (k : GenericClient) (c : mxclient) (name : string) (attributes : Attributes)
    (options : list Option_) : C unit :=
  let opts := processOptions options in
  call_http (XSend c PATCH (resourcePath k name) (opt_query opts) (Some (object_of k name attributes opts))).
Definition Put (k : GenericClient) (c : mxclient) (name : string) (options : list Option_) : C unit :=
  call_http (XSend c PUT (resourcePath k name) (opt_query (processOptions options)) None).
Definition Stop (k : GenericClient) (c : mxclient) (name : string) : C unit :=
  call_http (XSend c PUT (stopPath k name) ∅ None).
Definition Start (k : GenericClient) (c : mxclient) (name : string) : C unit :=
  call_http (XSend c PUT (startPath k name) ∅ None).

Definition SetMaintenance (c : mxclient) (name : string) : C unit :=
  Put ServerClient c (name +:+ "/set") [WithQuery {[ "state" := "maintenance" ]}].
Definition ClearMaintenance (c : mxclient) (name : string) : C unit :=
  Put ServerClient c (name +:+ "/clear") [WithQuery {[ "state" := "maintenance" ]}].
Definition defaultAdminUser : string := "admin".
Definition DeleteDefaultAdmin (c : mxclient) : C unit := Delete UserClient c defaultAdminUser [].
Definition mx_Get (c : mxclient) : C MaxScaleAttributes := call_http (XGetAttributes c "maxscale").
Definition mx_Patch (c : mxclient) (p : MaxScaleParameters) : C unit :=
  call_http (XSend c PATCH "maxscale" ∅
    (Some (mkObject "" ObjectTypeMaxScale (mkAttributes ∅ (MaxScaleParameters_MarshalJSON p)) None))).

(** ** maxScaleAPI *)
Definition xbase {A} (m : M S op A) : C A := hoistM (λ _ o, XPh (HSvc o)) (vbase m).
Definition secret_key (mxs : MaxScale) (ref : GeneratedSecretKeyRef) : C string :=
  xbase (call (KSecretKey (gsk_selector ref) (Namespace (mx_meta mxs)))).

Definition createAdminUser (c : mxclient) (username password : string) : C unit :=
  Create UserClient c username (mkAttributes {[ "account" := JStr "admin"; "password" := JStr password ]} ∅) [].
Definition api_patchUser (c : mxclient) (username password : string) : C unit :=
  Patch UserClient c username (mkAttributes {[ "account" := JStr ""; "password" := JStr password ]} ∅) [].

Definition PKIMountPath : string := "/etc/pki".
Definition pki_path (file : string) : string := PKIMountPath +:+ "/" +:+ file.
Definition ssl_parameters (mxs : MaxScale) (cert key : string) : SSLParameters :=
  mkSSLParameters true (pki_path cert) (pki_path key) (pki_path "ca.crt") "TLSv13"
    (ShouldVerifyPeerCertificate mxs) (ShouldVerifyPeerHost mxs).

Definition maxScaleReplicationCustomOptions (tls : MaxScaleTLS) : result string :=
  if negb (mtls_Enabled tls) then Err (ErrNew "MaxScale TLS must be enabled") else
  if negb (default false (mtls_ReplicationSSLEnabled tls)) then Ok "" else
  Ok ("MASTER_SSL=1,MASTER_SSL_CERT=" +:+ pki_path "server.crt" +:+ ",MASTER_SSL_KEY=" +:+ pki_path "server.key" +:+
      ",MASTER_SSL_CA=" +:+ pki_path "ca.crt").

Definition serverAttributes (mxs : MaxScale) (srv : MaxScaleServer) : result Attributes :=
  options ← (if mx_IsTLSEnabled mxs && IsReplicationSSLEnabled mxs
             then maxScaleReplicationCustomOptions (mx_tls mxs) else Ok "");
  Ok (mkAttributes ∅ (ServerParameters_MarshalJSON (mkServerParameters (mss_Address srv) (mss_Port srv) (mss_Protocol srv)
       (if mx_IsTLSEnabled mxs then ssl_parameters mxs "server.crt" "server.key" else SSLParameters_zero)
       options (mss_Params srv)))).

Definition createServer (mxs : MaxScale) (c : mxclient) (srv : MaxScaleServer) : C unit :=
  attrs <- wrap "error getting server attributes" (lift (serverAttributes mxs srv)) ;;
  Create ServerClient c (mss_Name srv) attrs [].
Definition deleteServer (c : mxclient) (name : string) : C unit := Delete ServerClient c name [WithForceQuery].
Definition patchServer (mxs : MaxScale) (c : mxclient) (srv : MaxScaleServer) : C unit :=
  attrs <- wrap "error getting server attributes" (lift (serverAttributes mxs srv)) ;;
  Patch ServerClient c (mss_Name srv) attrs [].
Definition updateServerState (c : mxclient) (srv : MaxScaleServer) : C unit :=
  if mss_Maintenance srv then SetMaintenance c (mss_Name srv) else ClearMaintenance c (mss_Name srv).

Section api.
Context `{MapRange}.

(** The servers of the spec that exist, in order. *)
Definition serverRelationships (mxs : MaxScale) (c : mxclient) : C Relationships :=
  idx <- ListIndex ServerClient c ;;
  ret (WithServers (sort_Strings (Keys (Filter idx (ServerIDs mxs)))) NewRelationshipsBuilder).

Definition monitorAttributes (mxs : MaxScale) : C Attributes :=
  let spec := mx_Spec mxs in
  let mon := mxs_Monitor spec in
  password <- wrap "error getting monitor password" (secret_key mxs (au_MonitorPasswordSecretKeyRef (mxs_Auth spec))) ;;
  let locks :=
    if mx_IsHAEnabled mxs && bool_decide (mon_Module mon = MonitorModuleMariadb)
    then or_default (mon_CooperativeMonitoring mon) (Some CooperativeMonitoringMajorityOfAll) else None in
  ret (mkAttributes {[ "module" := JStr (mon_Module mon) ]} (MonitorParameters_MarshalJSON
    (mkMonitorParameters (au_MonitorUsername (mxs_Auth spec)) password (mon_Interval mon) locks
       (default ∅ (mon_Params mon))))).
Definition createMonitor (mxs : MaxScale) (c : mxclient) (rels : Relationships) : C unit :=
  attrs <- wrap "error getting monitor attributes" (monitorAttributes mxs) ;;
  Create MonitorClient c (mon_Name (mxs_Monitor (mx_Spec mxs))) attrs [WithRelationships rels].
Definition patchMonitor (mxs : MaxScale) (c : mxclient) (rels : Relationships) : C unit :=
  attrs <- wrap "error getting monitor attributes" (monitorAttributes mxs) ;;
  Patch MonitorClient c (mon_Name (mxs_Monitor (mx_Spec mxs))) attrs [WithRelationships rels].
Definition updateMonitorState (mxs : MaxScale) (c : mxclient) : C unit :=
  let mon := mxs_Monitor (mx_Spec mxs) in
  if mon_Suspend mon then Stop MonitorClient c (mon_Name mon) else Start MonitorClient c (mon_Name mon).

Definition serviceAttributes (mxs : MaxScale) (svc : MaxScaleService) : C Attributes :=
  let auth := mxs_Auth (mx_Spec mxs) in
  password <- wrap "error getting server password" (secret_key mxs (au_ServerPasswordSecretKeyRef auth)) ;;
  ret (mkAttributes {[ "router" := JStr (msv_Router svc) ]} (ServiceParameters_MarshalJSON
    (mkServiceParameters (au_ServerUsername auth) password (msv_Params svc)))).
Definition createService (mxs : MaxScale) (c : mxclient) (svc : MaxScaleService) (rels : Relationships) : C unit :=
  attrs <- wrap "error getting service attributes" (serviceAttributes mxs svc) ;;
  Create ServiceClient c (msv_Name svc) attrs [WithRelationships rels].
Definition deleteService (c : mxclient) (name : string) : C unit := Delete ServiceClient c name [WithForceQuery].
Definition patchService (mxs : MaxScale) (c : mxclient) (svc : MaxScaleService) (rels : Relationships) : C unit :=
  attrs <- wrap "error getting service attributes" (serviceAttributes mxs svc) ;;
  Patch ServiceClient c (msv_Name svc) attrs [WithRelationships rels].
Definition updateServiceState (c : mxclient) (svc : MaxScaleService) : C unit :=
  if msv_Suspend svc then Stop ServiceClient c (msv_Name svc) else Start ServiceClient c (msv_Name svc).
Definition serviceRelationships (service : string) : Relationships := WithServices [service] NewRelationshipsBuilder.

Definition listenerAttributes (mxs : MaxScale) (l : MaxScaleListener) : Attributes :=
  mkAttributes ∅ (ListenerParameters_MarshalJSON (mkListenerParameters (lis_Port l) (lis_Protocol l)
    (if mx_IsTLSEnabled mxs then ssl_parameters mxs "listener.crt" "listener.key" else SSLParameters_zero)
    (lis_Params l))).
Definition createListener (mxs : MaxScale) (c : mxclient) (l : MaxScaleListener) (rels : Relationships) : C unit :=
  Create ListenerClient c (lis_Name l) (listenerAttributes mxs l) [WithRelationships rels].
Definition deleteListener (c : mxclient) (name : string) : C unit := Delete ListenerClient c name [WithForceQuery].
Definition patchListener (mxs : MaxScale) (c : mxclient) (l : MaxScaleListener) (rels : Relationships) : C unit :=
  Patch ListenerClient c (lis_Name l) (listenerAttributes mxs l) [WithRelationships rels].
Definition updateListenerState (c : mxclient) (l : MaxScaleListener) : C unit :=
  if lis_Suspend l then Stop ListenerClient c (lis_Name l) else Start ListenerClient c (lis_Name l).
End api.

(** Interval and timeout are not compared.  [Spec.Config.Sync] is dereferenced. *)
Definition isMaxScaleConfigSynced (mxs : MaxScale) (sync : MaxScaleConfigSync) (c : mxclient) : C bool :=
  data <- mx_Get c ;;
  let params := mxa_Parameters data in
  ret (bool_decide (mxp_ConfigSyncCluster params = mon_Name (mxs_Monitor (mx_Spec mxs))) &&
       bool_decide (mxp_ConfigSyncUser params = default "" (au_SyncUsername (mxs_Auth (mx_Spec mxs)))) &&
       bool_decide (mxp_ConfigSyncDB params = cs_Database sync)).

Definition patchMaxScaleConfigSync (mxs : MaxScale) (c : mxclient) : C unit :=
  let auth := mxs_Auth (mx_Spec mxs) in
  match mxc_Sync (mxs_Config (mx_Spec mxs)) with
  | None => throw (ErrNew "'spec.config.sync' must be set")
  | Some sync =>
      match au_SyncUsername auth, au_SyncPasswordSecretKeyRef auth with
      | Some username, Some ref =>
          password <- wrap "error getting sync password" (secret_key mxs ref) ;;
          mx_Patch c (mkMaxScaleParameters (mon_Name (mxs_Monitor (mx_Spec mxs))) username password (cs_Database sync)
            (cs_Interval sync) (cs_Timeout sync))
      | _, _ => throw (ErrNew "'Config sync credentials must be set")
      end
  end.
End client.
