(* ===== verification/MaxScaleConfig.v ===== *)
(** * The configuration file of MaxScale

    pkg/maxscale/config: the text of maxscale.cnf, with the defaults that depend on the limits of the
    container and the parameters of the user that the operator does not set itself. *)

From Stdlib Require Import Ascii.
From S2P Require Import Prelude GoStrings StatefulSet Conditions MariaDBTypes GaleraConfig MaxScaleTypes MaxScaleDefaults.
From S2P Require Import Concurrency Kube StorageResize Certificate MariaDBInit MariaDBServices MariaDBPhases MaxScaleClient.

Local Open Scope Z_scope.

(** ** defaults.go *)
Definition threads (mxs : MaxScale) : string :=
  if bool_decide (mxs_CPULimit (mx_Spec mxs) = 0) then "auto" else Itoa (mxs_CPULimit (mx_Spec mxs)).

(** A positive number rounded to the 53 bits of a float64, to the nearest and ties to even. *)
Definition round_float64 (z : Z) : Z :=
  let sh := Z.log2 z - 52 in
  if bool_decide (sh ≤ 0) then z else
  let q := Z.shiftr z sh in
  let r := z - Z.shiftl q sh in
  let half := Z.shiftl 1 (sh - 1) in
  let up := bool_decide (half < r) || (bool_decide (r = half) && Z.odd q) in
  Z.shiftl (if up then q + 1 else q) sh.
(** [int64(float64(memLimit) * 0.15)]: the float64 0.15 is this integer divided by 2 to the 55. *)
Definition fraction_mantissa : Z := 5404319552844595.
Definition queryClassCacheScaled (memLimit : Z) : Z :=
  Z.shiftr (round_float64 (round_float64 memLimit * fraction_mantissa)) 55.
Definition queryClassifierCacheSize (mxs : MaxScale) : string :=
  let memLimit := mxs_MemoryLimit (mx_Spec mxs) in
  if bool_decide (memLimit = 0) then "" else Itoa (queryClassCacheScaled memLimit).

(** ** config.go *)
Definition existingConfigKeys : list string :=
  ["threads"; "query_classifier_cache_size"; "persist_runtime_changes"; "load_persisted_configs"; "admin_host";
   "admin_port"; "admin_gui"; "admin_secure_gui"; "admin_ssl_key"; "admin_ssl_cert"; "admin_ssl_ca_cert"].
Definition configValueOrDefault (key : string) (params : gmap string string) (defaultVal : string) : string :=
  match params !! key with
  | Some v => if bool_decide (v = "") then defaultVal else v
  | None => defaultVal
  end.
Definition filterExistingConfig (params : gmap string string) : gmap string string :=
  filter (λ kv, kv.1 ∉ existingConfigKeys) params.

(** A template ranges over a map in the order of its keys. *)
Definition sorted_params (params : gmap string string) : list (string * string) :=
  merge_sort (λ a b, String.le a.1 b.1) (map_to_list params).
Definition cnf_line (key value : string) : string := key +:+ "=" +:+ value.
Definition cnf_bool (b : bool) : string := if b then "true" else "false".

Definition config_lines (mxs : MaxScale) : list string :=
  let params := mxc_Params (mxs_Config (mx_Spec mxs)) in
  let cache := configValueOrDefault "query_classifier_cache_size" params (queryClassifierCacheSize mxs) in
  [ "[maxscale]"; cnf_line "threads" (configValueOrDefault "threads" params (threads mxs)) ] ++
  (if bool_decide (cache = "") then [] else [ cnf_line "query_classifier_cache_size" cache ]) ++
  [ cnf_line "persist_runtime_changes" "true"; cnf_line "load_persisted_configs" "true";
    cnf_line "admin_host" (configValueOrDefault "admin_host" params "0.0.0.0");
    cnf_line "admin_port" (Itoa (adm_Port (mxs_Admin (mx_Spec mxs))));
    cnf_line "admin_gui" (cnf_bool (default true (adm_GuiEnabled (mxs_Admin (mx_Spec mxs)))));
    cnf_line "admin_secure_gui" (cnf_bool (mx_IsTLSEnabled mxs)) ] ++
  (if mx_IsTLSEnabled mxs
   then [ cnf_line "admin_ssl_key" (pki_path "admin.key"); cnf_line "admin_ssl_cert" (pki_path "admin.crt");
          cnf_line "admin_ssl_ca_cert" (pki_path "ca.crt") ]
   else []) ++
  ((λ '(k, v), cnf_line k v) <$> sorted_params (filterExistingConfig params)).
Definition Config (mxs : MaxScale) : string := foldr (λ l text, l +:+ newline +:+ text) "" (config_lines mxs).

Example scaled_memory : queryClassCacheScaled (2 ^ 30) = 161061273.
Proof. vm_compute. reflexivity. Qed.
Example scaled_large : queryClassCacheScaled (2 ^ 62 - 1) = 691752902764108160.
Proof. vm_compute. reflexivity. Qed.
