(* ===== verification/MaxScale.v ===== *)
(** * The MaxScale controller

    internal/controller/maxscale_controller.go and the files _api, _status, _tls and _metrics beside it.
    The state is the request: the MaxScale in memory with the clients of its API. *)

From Stdlib Require Import Ascii.
From S2P Require Import Prelude GoStrings StatefulSet Datastructures Conditions MariaDBTypes GaleraConfig MaxScaleTypes.
From S2P Require Import Concurrency Kube Sql Health ConditionSetters Pki Certificate MariaDBTLS StorageResize.
From S2P Require Import MariaDBDefaults MariaDBInit MariaDBServices MariaDBPhases MaxScaleDefaults MaxScaleClient MaxScaleConfig.

Local Open Scope Z_scope.
Local Open Scope go_scope.

#[export] Program Instance MaxScaleStatus_Conditioner `{StatusConditions} : Conditioner MaxScaleStatus := {|
  conditions := mxst_Conditions;
  set_condition c s := { s with mxst_Conditions := SetStatusCondition (mxst_Conditions s) c }
|}.
Next Obligation. done. Qed.

Record requestMaxScale := mkRequest {
  rq_mxs : MaxScale;
  rq_podClient : option mxclient;
  rq_podClientSet : option (gmap string mxclient)
}.

Section controller.
Context `{MapRange} `{SliceSort} `{StatusConditions} `{X509} (CLUSTER_NAME : string) (env : OperatorEnv).
(** [hash.HashJSON] of the servers, the monitor and the services of a spec; the encoding of these
    types does not fail. *)
Context (HashServers : option (list MaxScaleServer) → string) (HashMonitor : MaxScaleMonitor → string).
Context (HashServices : list MaxScaleService → string).
(** The options of the reconciler. *)
Context (SuspendEnabled : bool) (RequeueInterval : Z).
Abbreviation C := (M requestMaxScale xop).

Definition xph {A} (m : M requestMaxScale phop A) : C A := hoistM (λ _ o, XPh o) m.
Definition xsvc {A} (m : M requestMaxScale vop A) : C A := xph (hsvc m).
Definition xcert {A} (m : M requestMaxScale certop A) : C A := hoistM (λ _ o, XCert o) m.
Definition xsts {A} (m : M requestMaxScale stop A) : C A := hoistM (λ _ o, XSts o) m.
Definition xsql {A} (srv : MaxScaleServer) (m : M requestMaxScale op A) : C A := hoistM (λ _ o, XSql srv o) m.

Definition get_mxs : C MaxScale := rq <- get ;; ret (rq_mxs rq).
(** [r.patch] and [r.patchStatus]: the object in memory is changed whether or not the patch is
    accepted. *)
Definition patch (patcher : MaxScale → MaxScale) : C unit :=
  base <- get_mxs ;;
  modify (λ rq, { rq with rq_mxs := patcher base }) ;;;
  call (XPatchMaxScale base (patcher base)).
Definition mx_patchStatus (patcher : MaxScaleStatus → MaxScaleStatus) : C unit :=
  base <- get_mxs ;;
  let m := { base with mx_Status := patcher (mx_Status base) } in
  modify (λ rq, { rq with rq_mxs := m }) ;;;
  call (XPatchStatus base m).

(** ** SQL clients *)
(** The server whose database was opened. *)
Definition getSqlClient (mxs : MaxScale) (serverName : string) : C MaxScaleServer :=
  match mxc_Sync (mxs_Config (mx_Spec mxs)) with
  | None => throw (ErrNew "config sync must be enabled")
  | Some _ =>
      match au_SyncUsername (mxs_Auth (mx_Spec mxs)), au_SyncPasswordSecretKeyRef (mxs_Auth (mx_Spec mxs)) with
      | Some _, Some ref =>
          match ServerIndex mxs !! serverName with
          | None => throw (ErrNew "primary server not found in spec")
          | Some srv =>
              wrap "error getting sync password" (secret_key mxs ref) ;;;
              (if mx_IsTLSEnabled mxs
               then wrap "error getting CA bundle"
                      (xbase (call (KSecretKey (mx_TLSCABundleSecretKeyRef mxs) (Namespace (mx_meta mxs))))) ;;; ret tt
               else ret tt) ;;;
              xsql srv (call_reply (SqlOpen 0)) ;;;
              ret srv
          end
      | _, _ => throw (ErrNew "config sync credentials must be set")
      end
  end.
Definition getPrimarySqlClient (mxs : MaxScale) : C MaxScaleServer :=
  match GetPrimaryServer (mx_Status mxs) with
  | None => throw (ErrNew "primary server not found in status")
  | Some primaryName => getSqlClient mxs primaryName
  end.
Definition getReadySqlClient (mxs : MaxScale) : C MaxScaleServer :=
  match head (filter (λ srv, state_IsReady (ms_State srv) = true) (default [] (mxst_Servers (mx_Status mxs)))) with
  | None => throw (ErrNew "ready server not found in status")
  | Some srv => if bool_decide (ms_Name srv = "") then throw (ErrNew "ready server not found in status")
                else getSqlClient mxs (ms_Name srv)
  end.

(** ** Finalizer *)
Definition maxScaleFinalizerName : string := "maxscale.k8s.mariadb.com/finalizer".
Definition mx_add_finalizer (m : MaxScale) : MaxScale :=
  if bool_decide (maxScaleFinalizerName ∈ mx_Finalizers m) then m
  else { m with mx_Finalizers := mx_Finalizers m ++ [maxScaleFinalizerName] }.
Definition mx_remove_finalizer (m : MaxScale) : MaxScale :=
  { m with mx_Finalizers := filter (λ f, f ≠ maxScaleFinalizerName) (mx_Finalizers m) }.

(** Nothing that fails while the MaxScale is cleaned up keeps its finalizer. *)
Definition cleanup_maxscale (mxs : MaxScale) : C unit :=
  _r <- try (call (XDeleteAllPVCs (WithMaxScaleSelectorLabels (mx_meta mxs) ∅) (Namespace (mx_meta mxs)))) ;;
  if is_some (mxc_Sync (mxs_Config (mx_Spec mxs))) then
    sql <- try (getPrimarySqlClient mxs) ;;
    match sql with
    | Ok srv => _r <- try (xsql srv (DropMaxScaleConfig 0)) ;; ret tt
    | Err _ => ret tt
    end
  else ret tt.
Definition mx_reconcileFinalizer : C ctrl_Result :=
  mxs <- get_mxs ;;
  if negb (mx_Deleting mxs) then
    (if bool_decide (maxScaleFinalizerName ∈ mx_Finalizers mxs) then ret tt
     else wrap "error adding finalizer" (patch mx_add_finalizer)) ;;;
    ret Result_zero
  else
    cleanup_maxscale mxs ;;;
    wrap "error removing finalizer" (patch mx_remove_finalizer) ;;;
    ret Result_zero.

(** ** Spec *)
Definition mx_getMariaDB (ref : MariaDBRef) : C MariaDB :=
  mxs <- get_mxs ;;
  r <- try (xbase (call (KGetMariaDB (ref_key ref (Namespace (mx_meta mxs)))))) ;;
  match r with
  | Ok mdb => ret mdb
  | Err err =>
      patched <- try (mx_patchStatus (Ready_PatcherRefResolver (Some err) "MariaDB")) ;;
      wrap "error getting MariaDB" (lift (multierror (Err err) patched)) ;;;
      throw (ErrWrap "error getting MariaDB" err)
  end.

(** The server of a Pod: the one at its index in the spec, or a new one. *)
Definition mariadb_server (mdb : MariaDB) (servers : list MaxScaleServer) (i : Z) : MaxScaleServer :=
  match servers !! Z.to_nat i with
  | Some server => server
  | None => mkMaxScaleServer (PodName (m_meta mdb) i)
              (PodFQDNWithService CLUSTER_NAME (m_meta mdb) i (nn_Name (InternalServiceKey mdb)))
              (sp_Port (m_Spec mdb)) "" false ∅
  end.
Definition mariadb_servers (mdb : MariaDB) (servers : list MaxScaleServer) : list MaxScaleServer :=
  mariadb_server mdb servers <$> seqZ 0 (sp_Replicas (m_Spec mdb)).
Definition monitor_params : gmap string string :=
  list_to_map [("auto_failover", "true"); ("auto_rejoin", "true"); ("switchover_on_low_disk_space", "true")].

Definition mariadb_defaults (mdb : MariaDB) (mxs : MaxScale) : MaxScale :=
  let servers := mariadb_servers mdb (Servers mxs) in
  let galera := IsGaleraEnabled mdb in
  let mon := mxs_Monitor (mx_Spec mxs) in
  MaxScale_SetDefaults { mxs with mx_Spec := { mx_Spec mxs with
    mxs_Servers := Some servers;
    mxs_Monitor := { mon with
      mon_Module := if galera then MonitorModuleGalera else MonitorModuleMariadb;
      mon_Params := or_default (mon_Params mon) (if galera then None else Some monitor_params) } } } env (Some mdb).
Definition setMariadbDefaults (ref : MariaDBRef) : C unit :=
  mdb <- mx_getMariaDB ref ;; patch (mariadb_defaults mdb).
Definition mx_setSpecDefaults : C ctrl_Result :=
  mxs <- get_mxs ;;
  (match mxs_MariaDBRef (mx_Spec mxs) with
   | Some ref => wrap "error setting MariaDB defaults" (setMariadbDefaults ref)
   | None => ret tt
   end) ;;;
  wrap "error setting defaults" (patch (λ m, MaxScale_SetDefaults m env None)) ;;;
  ret Result_zero.

(** ** Suspend *)
Definition mx_reconcileSuspend : C ctrl_Result :=
  mxs <- get_mxs ;;
  if mx_IsSuspended mxs then ret (requeue_after (10 * Second)) else ret Result_zero.

(** ** Secret *)
Definition mx_password_refs (mxs : MaxScale) : list GeneratedSecretKeyRef :=
  let auth := mxs_Auth (mx_Spec mxs) in
  [ au_AdminPasswordSecretKeyRef auth; au_ClientPasswordSecretKeyRef auth; au_ServerPasswordSecretKeyRef auth;
    au_MonitorPasswordSecretKeyRef auth ] ++
  (match au_SyncPasswordSecretKeyRef auth with Some ref => [ref] | None => [] end) ++
  (if mx_AreMetricsEnabled mxs then [au_MetricsPasswordSecretKeyRef auth] else []).
Definition secret_of (mxs : MaxScale) (ref : GeneratedSecretKeyRef) (text : string) : C unit :=
  xph (Secret_Reconcile (mkNamespacedName (sks_Name (gsk_selector ref)) (Namespace (mx_meta mxs)))
    {[ sks_Key (gsk_selector ref) := text ]}).
Definition mx_reconcileSecret : C ctrl_Result :=
  mxs <- get_mxs ;;
  wrap "error reconciling config Secret" (secret_of mxs (ConfigSecretKeyRef mxs) (Config mxs)) ;;;
  for_each_result (mx_password_refs mxs) (λ ref,
    if bool_decide (sks_Name (gsk_selector ref) = "") || bool_decide (sks_Key (gsk_selector ref) = "")
    then ret (requeue_after (1 * Second)) else
    wrap "error reconciling password" (xph (reconcile_password_ref (Namespace (mx_meta mxs)) ref)) ;;;
    ret Result_zero).

(** ** TLS *)
Definition mx_certOpts (mxs : MaxScale) (caRef certRef issuerRef : option string) (certKey : NamespacedName)
    (names : list string) : list CertReconcilerOpt :=
  [ WithCABundle (mx_TLSCABundleSecretKeyRef mxs) (Namespace (mx_meta mxs));
    (* the CA of the admin interface, for both certificates *)
    WithCA (is_none caRef) (TLSAdminCASecretKey mxs);
    WithCert (is_none certRef) certKey names;
    WithServerCertKeyUsage; WithCertIssuerRef issuerRef; WithRelatedObject ].
Definition adminCertOpts (mxs : MaxScale) : list CertReconcilerOpt :=
  let tls := mx_tls mxs in
  mx_certOpts mxs (mtls_AdminCASecretRef tls) (mtls_AdminCertSecretRef tls) (mtls_AdminCertIssuerRef tls)
    (TLSAdminCertSecretKey mxs) (TLSAdminDNSNames CLUSTER_NAME mxs).
Definition listenerCertOpts (mxs : MaxScale) : list CertReconcilerOpt :=
  let tls := mx_tls mxs in
  mx_certOpts mxs (mtls_ListenerCASecretRef tls) (mtls_ListenerCertSecretRef tls) (mtls_ListenerCertIssuerRef tls)
    (TLSListenerCertSecretKey mxs) (TLSListenerDNSNames CLUSTER_NAME mxs).
(** The certificates of a MaxScale are renewed without asking anyone. *)
#[local] Instance mx_certHandler : CertHandler requestMaxScale := DefaultCertHandler requestMaxScale.
Definition mx_reconcileTLSCerts (mxs : MaxScale) : C unit :=
  let tls := mx_tls mxs in
  if is_none (mtls_ServerCASecretRef tls) || is_none (mtls_ServerCertSecretRef tls)
  then throw (ErrNew "'spec.tls.serverCASecretRef' and 'spec.tls.ServerCertSecretRef' fields must be set") else
  wrap "error reconciling admin cert" (xcert (Reconcile (adminCertOpts mxs))) ;;;
  wrap "error reconciling listener cert" (xcert (Reconcile (listenerCertOpts mxs))) ;;;
  ret tt.
Definition mx_ca_selectors (mxs : MaxScale) : list SecretKeySelector :=
  [ mx_TLSCABundleSecretKeyRef mxs;
    mkSecretKeySelector (nn_Name (TLSAdminCASecretKey mxs)) CACertKey;
    mkSecretKeySelector (nn_Name (TLSListenerCASecretKey mxs)) CACertKey;
    mkSecretKeySelector (nn_Name (mx_TLSServerCASecretKey mxs)) CACertKey ].
Definition mx_reconcileTLSCABundle (mxs : MaxScale) : C unit :=
  let ns := Namespace (mx_meta mxs) in
  let caBundleKeySelector := mx_TLSCABundleSecretKeyRef mxs in
  caBundles <- xcert (get_cas (mx_ca_selectors mxs) ns) ;;
  bundle <- wrap "error creating CA bundle" (xcert (pki (BundleCertificatePEMs caBundles true))) ;;
  xcert (SecretReconciler_Reconcile (mkNamespacedName (sks_Name caBundleKeySelector) ns)
    {[ sks_Key caBundleKeySelector := bundle ]}).
Definition mx_reconcileTLS : C ctrl_Result :=
  mxs <- get_mxs ;;
  if negb (mx_IsTLSEnabled mxs) then ret Result_zero else
  mx_reconcileTLSCerts mxs ;;;
  mx_reconcileTLSCABundle mxs ;;;
  ret Result_zero.

Definition TLSAdminCertAnnotation : string := "k8s.mariadb.com/admin-cert".
Definition TLSListenerCertAnnotation : string := "k8s.mariadb.com/listener-cert".
Definition mx_secret (mxs : MaxScale) (key : NamespacedName) (k : string) : C string :=
  xcert (SecretKeyRef (mkSecretKeySelector (nn_Name key) k) (Namespace (mx_meta mxs))).
Definition getTLSAdminAnnotations (mxs : MaxScale) : C (gmap string string) :=
  if negb (mx_IsTLSEnabled mxs) then ret ∅ else
  ca <- wrap "error getting CA bundle" (xcert (SecretKeyRef (mx_TLSCABundleSecretKeyRef mxs) (Namespace (mx_meta mxs)))) ;;
  adminCert <- wrap "error getting admin cert" (mx_secret mxs (TLSAdminCertSecretKey mxs) TLSCertKey) ;;
  ret (<[TLSAdminCertAnnotation := Hash adminCert]> {[ TLSCAAnnotation := Hash ca ]}).
(** The map of the code is ranged over in any order; one order is shown. *)
Definition mx_getTLSAnnotations (mxs : MaxScale) : C (gmap string string) :=
  if negb (mx_IsTLSEnabled mxs) then ret ∅ else
  annotations <- wrap "error getting client annotations" (getTLSAdminAnnotations mxs) ;;
  listener <- wrap "error getting Secret" (mx_secret mxs (TLSListenerCertSecretKey mxs) TLSCertKey) ;;
  server <- wrap "error getting Secret" (mx_secret mxs (mx_TLSServerCertSecretKey mxs) TLSCertKey) ;;
  ret (<[TLSServerCertAnnotation := Hash server]> (<[TLSListenerCertAnnotation := Hash listener]> annotations)).
Definition mx_getTLSStatus (mxs : MaxScale) : C (option MaxScaleTLSStatus) :=
  if negb (mx_IsTLSEnabled mxs) then ret None else
  let ns := Namespace (mx_meta mxs) in
  let status key := xcert (getCertificateStatus (mkSecretKeySelector (nn_Name key) TLSCertKey) ns) in
  bundle <- wrap "error getting CA bundle status" (xcert (getCertificateStatus (mx_TLSCABundleSecretKeyRef mxs) ns)) ;;
  admin <- wrap "error getting admin certificate status" (status (TLSAdminCertSecretKey mxs)) ;;
  listener <- wrap "error getting listener certificate status" (status (TLSListenerCertSecretKey mxs)) ;;
  server <- wrap "error getting server certificate status" (status (mx_TLSServerCertSecretKey mxs)) ;;
  ret (Some (mkMaxScaleTLSStatus bundle (head admin) (head listener) (head server))).

(** ** Auth *)
Definition mx_userOpts (mxs : MaxScale) (ref : MariaDBRef) (name : string) (password : GeneratedSecretKeyRef)
    (connections : Z) : UserOpts :=
  mkUserOpts name "" (Some (gsk_selector password)) None None connections None (mxs_InheritMetadata (mx_Spec mxs)) ref.
Definition mx_grantOpts (mxs : MaxScale) (ref : MariaDBRef) (privileges : list string) (database table username : string) :
    GrantOpts :=
  mkGrantOpts privileges database table username "%" false None (mxs_InheritMetadata (mx_Spec mxs)) ref.
Definition monitor_privileges (mxs : MaxScale) : list string :=
  if bool_decide (mon_Module (mxs_Monitor (mx_Spec mxs)) = MonitorModuleMariadb)
  then ["BINLOG ADMIN"; "CONNECTION ADMIN"; "EVENT"; "PROCESS"; "PROCESS"; "READ_ONLY ADMIN"; "RELOAD";
        "REPLICA MONITOR"; "REPLICATION CLIENT"; "REPLICATION SLAVE ADMIN"; "REPLICATION SLAVE"; "SELECT"; "SET USER";
        "SHOW DATABASES"; "SLAVE MONITOR"; "SUPER"]
  else ["SLAVE MONITOR"].
Definition monitorGrantOpts (key : NamespacedName) (mxs : MaxScale) (ref : MariaDBRef) : list (NamespacedName * GrantOpts) :=
  [(key, mx_grantOpts mxs ref (monitor_privileges mxs) "*" "*" (au_MonitorUsername (mxs_Auth (mx_Spec mxs))))].

(** A User with its Grants. *)
Definition auth_item : Type := NamespacedName * UserOpts * list (NamespacedName * GrantOpts).
Definition sync_item (mxs : MaxScale) (ref : MariaDBRef) : list auth_item :=
  let auth := mxs_Auth (mx_Spec mxs) in
  match mxc_Sync (mxs_Config (mx_Spec mxs)), au_SyncUsername auth, au_SyncPasswordSecretKeyRef auth,
        au_SyncMaxConnections auth with
  | Some sync, Some username, Some password, Some connections =>
      let key := mkNamespacedName username (Namespace (mx_meta mxs)) in
      [(key, mx_userOpts mxs ref username password connections,
        [(key, mx_grantOpts mxs ref ["SELECT"; "INSERT"; "UPDATE"; "CREATE"; "DROP"] (cs_Database sync)
                 "maxscale_config" username)])]
  | _, _, _, _ => []
  end.
Definition auth_items (mxs : MaxScale) (ref : MariaDBRef) : list auth_item :=
  let auth := mxs_Auth (mx_Spec mxs) in
  let key name := mkNamespacedName name (Namespace (mx_meta mxs)) in
  let server := au_ServerUsername auth in
  [ (key (au_ClientUsername auth),
     mx_userOpts mxs ref (au_ClientUsername auth) (au_ClientPasswordSecretKeyRef auth) (au_ClientMaxConnections auth),
     [(key (au_ClientUsername auth),
       mx_grantOpts mxs ref ["SELECT"; "INSERT"; "UPDATE"; "DELETE"] "*" "*" (au_ClientUsername auth))]);
    (key server, mx_userOpts mxs ref server (au_ServerPasswordSecretKeyRef auth) (au_ServerMaxConnections auth),
     [(key (server +:+ "-mysql"), mx_grantOpts mxs ref ["SELECT"] "mysql" "*" server);
      (key (server +:+ "-databases"), mx_grantOpts mxs ref ["SHOW DATABASES"] "*" "*" server)]);
    (key (au_MonitorUsername auth),
     mx_userOpts mxs ref (au_MonitorUsername auth) (au_MonitorPasswordSecretKeyRef auth) (au_MonitorMaxConnections auth),
     monitorGrantOpts (key (au_MonitorUsername auth)) mxs ref) ] ++ sync_item mxs ref.

Definition mx_reconcileAuth : C ctrl_Result :=
  mxs <- get_mxs ;;
  match mxs_MariaDBRef (mx_Spec mxs) with
  | None => ret Result_zero
  | Some ref =>
      if negb (default false (au_Generate (mxs_Auth (mx_Spec mxs)))) then ret Result_zero else
      for_each_result (auth_items mxs ref) (λ '(key, user, grants),
        wrap "error reconciling user auth" (xph (ReconcileUserGrant key user grants)))
  end.

(** ** ServiceAccount and StatefulSet *)
Definition mx_reconcileServiceAccount : C ctrl_Result :=
  mxs <- get_mxs ;;
  xph (ReconcileServiceAccount (mx_ServiceAccountKey (mx_Spec mxs) (mx_meta mxs)) (mxs_InheritMetadata (mx_Spec mxs))) ;;;
  ret Result_zero.

Definition maxscaleVolumeClaimTemplates (mxs : MaxScale) : list (VolumeClaimTemplate Z) :=
  [mkVct Z StorageVolume (vt_Requests (mxc_VolumeClaimTemplate (mxs_Config (mx_Spec mxs))))].
Definition BuildMaxscaleStatefulSet (mxs : MaxScale) (key : NamespacedName) (podAnnotations : gmap string string) :
    C StsObject :=
  podTemplate <- xsts (call (TPodTemplate podAnnotations)) ;;
  wrap "error setting controller reference to StatefulSet" (xph (SetControllerReference key)) ;;;
  ret (mkStsObject key (mxs_Replicas (mx_Spec mxs)) (default "RollingUpdate" (mxs_UpdateStrategy (mx_Spec mxs)))
         podTemplate (maxscaleVolumeClaimTemplates mxs) false 0 0).
Definition mx_reconcileStatefulSet : C ctrl_Result :=
  mxs <- get_mxs ;;
  podAnnotations <- (if mx_IsTLSEnabled mxs then wrap "error getting TLS annotations" (mx_getTLSAnnotations mxs)
                     else ret ∅) ;;
  desiredSts <- wrap "error building StatefulSet" (BuildMaxscaleStatefulSet mxs (mx_ObjectKey mxs) podAnnotations) ;;
  xsts (ReconcileWithUpdates desiredSts true) ;;;
  ret Result_zero.

(** ** PodDisruptionBudget *)
Definition mx_selector (mxs : MaxScale) : gmap string string := WithMaxScaleSelectorLabels (mx_meta mxs) ∅.
Definition reconcilePDBWithAvailability (mxs : MaxScale) (minAvailable maxUnavailable : option IntOrString) : C unit :=
  let key := mx_ObjectKey mxs in
  r <- try (xsvc (call (VGetPDB key))) ;;
  match r with
  | Ok _ => ret tt
  | Err _ =>
      pdb <- wrap "error building PodDisruptionBudget" (xsvc (BuildPodDisruptionBudget
        (mkPodDisruptionBudgetOpts (mxs_InheritMetadata (mx_Spec mxs)) key minAvailable maxUnavailable (mx_selector mxs)))) ;;
      xsvc (call (VCreatePDB pdb))
  end.
Definition mx_reconcilePodDisruptionBudget : C ctrl_Result :=
  mxs <- get_mxs ;;
  (match mxs_PodDisruptionBudget (mx_Spec mxs) with
   | Some pdb => reconcilePDBWithAvailability mxs (pdb_MinAvailable pdb) (pdb_MaxUnavailable pdb)
   | None => if mx_IsHAEnabled mxs then reconcilePDBWithAvailability mxs (Some (StrVal "50%")) None else ret tt
   end) ;;;
  ret Result_zero.

(** ** Services *)
Definition reconcile_svc (key : NamespacedName) (opts : ServiceOpts) (what : string) : C unit :=
  desiredSvc <- wrap what (xsvc (BuildService key opts)) ;; xsvc (Service_Reconcile desiredSvc).
Definition mx_reconcileInternalService (mxs : MaxScale) : C unit :=
  reconcile_svc (mx_InternalServiceKey mxs)
    (mkServiceOpts ServiceTemplate_zero (Some (mx_selector mxs)) false [] true (mxs_InheritMetadata (mx_Spec mxs)))
    "error building internal Service".
Definition admin_port (mxs : MaxScale) : CoreServicePort := mkCoreServicePort "admin" (adm_Port (mxs_Admin (mx_Spec mxs))) 0 None.
Definition listener_ports (mxs : MaxScale) : list CoreServicePort :=
  (λ l, mkCoreServicePort (lis_Name l) (lis_Port l) 0 None) <$> Listeners mxs.
Definition reconcileKubernetesService (mxs : MaxScale) : C unit :=
  reconcile_svc (mx_ObjectKey mxs)
    (mkServiceOpts (default ServiceTemplate_zero (mxs_KubernetesService (mx_Spec mxs))) (Some (mx_selector mxs)) false
       (admin_port mxs :: listener_ports mxs) false (mxs_InheritMetadata (mx_Spec mxs)))
    "error building Service".

Definition sort_by_name (pods : list Pod) : list Pod := sort_slice (λ p q, str_lt (pod_Name p) (pod_Name q)) pods.
Definition firstMaxScaleReadyPodIndex (mxs : MaxScale) : C Z :=
  list <- wrap "error listing Pods" (xbase (call (KListPods (mx_selector mxs) (Namespace (mx_meta mxs))))) ;;
  if bool_decide (list = []) then throw (ErrNew "no Pods were found") else
  match head (filter (λ p, PodReady p = true) (sort_by_name list)) with
  | Some p => lift (PodIndex (pod_Name p))
  | None => throw (ErrNew "no ready Pods were found")
  end.
Definition reconcileGuiKubernetesService (mxs : MaxScale) : C ctrl_Result :=
  if negb (default false (adm_GuiEnabled (mxs_Admin (mx_Spec mxs)))) then ret Result_zero else
  r <- try (firstMaxScaleReadyPodIndex mxs) ;;
  match r with
  | Err _ => ret (requeue_after (3 * Second))
  | Ok podIndex =>
      reconcile_svc (GuiServiceKey mxs)
        (mkServiceOpts (default ServiceTemplate_zero (mxs_GuiKubernetesService (mx_Spec mxs)))
           (Some (WithStatefulSetPod (mx_meta mxs) podIndex (mx_selector mxs))) false [admin_port mxs] false
           (mxs_InheritMetadata (mx_Spec mxs)))
        "error building GUI Service" ;;;
      ret Result_zero
  end.
Definition mx_reconcileService : C ctrl_Result :=
  mxs <- get_mxs ;;
  mx_reconcileInternalService mxs ;;;
  reconcileKubernetesService mxs ;;;
  reconcileGuiKubernetesService mxs.

Definition isStatefulSetReady (sts : StatefulSet) (mxs : MaxScale) : bool :=
  bool_decide (sts_ReadyReplicas sts = sts_Replicas sts) && bool_decide (sts_ReadyReplicas sts = mxs_Replicas (mx_Spec mxs)).
Definition ensureStatefulSetReady : C ctrl_Result :=
  mxs <- get_mxs ;;
  sts <- xbase (call (KGetStatefulSet (mx_ObjectKey mxs))) ;;
  if isStatefulSetReady sts mxs then ret Result_zero else ret (requeue_after (3 * Second)).

(** ** Clients: maxscale_controller_api.go *)
Definition getClientTLSOptions (mxs : MaxScale) : C (option (string * string * string)) :=
  if negb (mx_IsTLSEnabled mxs) then ret None else
  let key k := call (KSecretKey k (Namespace (mx_meta mxs))) in
  tlsCA <- wrap "error reading TLS CA bundle" (xbase (key (mx_TLSCABundleSecretKeyRef mxs))) ;;
  tlsCert <- wrap "error reading TLS cert"
    (xbase (key (mkSecretKeySelector (nn_Name (TLSAdminCertSecretKey mxs)) TLSCertKey))) ;;
  tlsKey <- wrap "error reading TLS cert"
    (xbase (key (mkSecretKeySelector (nn_Name (TLSAdminCertSecretKey mxs)) TLSKeyKey))) ;;
  ret (Some (tlsCA, tlsCert, tlsKey)).
Definition new_client (mxs : MaxScale) (url user password : string) : C mxclient :=
  tlsOpts <- wrap "error getting client TLS options" (getClientTLSOptions mxs) ;;
  wrap "error creating HTTP client" (call (XNewClient url tlsOpts)) ;;;
  ret (mkClient url user password).
Definition clientWithAPIUrl (mxs : MaxScale) (apiUrl : string) : C mxclient :=
  password <- wrap "error getting admin password" (secret_key mxs (au_AdminPasswordSecretKeyRef (mxs_Auth (mx_Spec mxs)))) ;;
  new_client mxs apiUrl (au_AdminUsername (mxs_Auth (mx_Spec mxs))) password.
Definition defaultClientWithPodIndex (mxs : MaxScale) (podIndex : Z) : C mxclient :=
  new_client mxs (PodAPIUrl CLUSTER_NAME mxs podIndex) defaultAdminUser "mariadb".
Definition clientWithPodIndex (mxs : MaxScale) (podIndex : Z) : C mxclient :=
  clientWithAPIUrl mxs (PodAPIUrl CLUSTER_NAME mxs podIndex).
Definition client_ (mxs : MaxScale) : C mxclient := clientWithAPIUrl mxs (APIUrl CLUSTER_NAME mxs).
Definition clientWitHealthyPod (mxs : MaxScale) : C mxclient :=
  podIndex <- wrap "error getting healthy Pod" (xbase (HealthyMaxScalePod (mx_meta mxs))) ;;
  clientWithPodIndex mxs podIndex.
(** The loop, over the clients made so far. *)
Fixpoint clients_by_pod (mxs : MaxScale) (l : list Z) (clientSet : gmap string mxclient) : C (gmap string mxclient) :=
  match l with
  | [] => ret clientSet
  | i :: l =>
      c <- wrap "error getting client for Pod" (clientWithPodIndex mxs i) ;;
      clients_by_pod mxs l (<[PodName (mx_meta mxs) i := c]> clientSet)
  end.
Definition mx_pods (mxs : MaxScale) : list Z := seqZ 0 (mxs_Replicas (mx_Spec mxs)).
Definition clientSetByPod (mxs : MaxScale) : C (gmap string mxclient) := clients_by_pod mxs (mx_pods mxs) ∅.

Definition setupClients : C ctrl_Result :=
  mxs <- get_mxs ;;
  podClient <- wrap "unable to get healthy Pod client" (clientWitHealthyPod mxs) ;;
  modify (λ rq, { rq with rq_podClient := Some podClient }) ;;;
  podClientSet <- wrap "error getting Pod client set" (clientSetByPod mxs) ;;
  modify (λ rq, { rq with rq_podClientSet := Some podClientSet }) ;;;
  ret Result_zero.

Definition forEachPod (fn : Z → string → mxclient → C ctrl_Result) : C ctrl_Result :=
  rq <- get ;;
  match rq_podClientSet rq with
  | None => throw (ErrNew "podClientSet must be set in request")
  | Some clientSet =>
      for_each_result (mx_pods (rq_mxs rq)) (λ i,
        let pod := PodName (mx_meta (rq_mxs rq)) i in
        match clientSet !! pod with
        | None => throw (ErrNew "MaxScale client for Pod not found")
        | Some c => fn i pod c
        end)
  end.

(** ** Admin *)
Definition reconcileAdminInPod (mxs : MaxScale) (podIndex : Z) (c : mxclient) : C unit :=
  let auth := mxs_Auth (mx_Spec mxs) in
  r <- try (api_Get UserClient c (au_AdminUsername auth)) ;;
  match r with
  | Ok _ => ret tt
  | Err err =>
      if negb (mx_IsUnauthorized err) && negb (mx_IsNotFound err)
      then throw (ErrWrap "error getting admin user" err) else
      defaultClient <- wrap "error getting MaxScale client" (defaultClientWithPodIndex mxs podIndex) ;;
      password <- wrap "error getting admin password" (secret_key mxs (au_AdminPasswordSecretKeyRef auth)) ;;
      wrap "error creating admin" (createAdminUser defaultClient (au_AdminUsername auth) password) ;;;
      if default false (au_DeleteDefaultAdmin auth)
      then wrap "error deleting default admin" (DeleteDefaultAdmin defaultClient) else ret tt
  end.
(** Every error of the lookup counts as a missing user. *)
Definition reconcileMetricsAdminInPod (mxs : MaxScale) (c : mxclient) : C unit :=
  let auth := mxs_Auth (mx_Spec mxs) in
  r <- try (api_Get UserClient c (au_MetricsUsername auth)) ;;
  if is_ok r then ret tt else
  password <- wrap "error getting metrics admin password" (secret_key mxs (au_MetricsPasswordSecretKeyRef auth)) ;;
  wrap "error creating metrics admin" (createAdminUser c (au_MetricsUsername auth) password).
Definition patchUser (mxs : MaxScale) (c : mxclient) (username : string) (ref : GeneratedSecretKeyRef) : C unit :=
  password <- wrap "error getting password" (secret_key mxs ref) ;; api_patchUser c username password.
Definition reconcileMetricsAdmin : C ctrl_Result :=
  rq <- get ;;
  let mxs := rq_mxs rq in
  let auth := mxs_Auth (mx_Spec mxs) in
  if negb (mx_AreMetricsEnabled mxs) then ret Result_zero else
  then_if_zero
    (forEachPod (λ _ _ c,
       wrap "error reconciling metrics admin in Pod" (reconcileMetricsAdminInPod mxs c) ;;; ret Result_zero))
    (match rq_podClient rq with
     | None => ret (requeue_after (1 * Second))
     | Some podClient =>
         r <- try (api_Get UserClient podClient (au_MetricsUsername auth)) ;;
         (if is_ok r then patchUser mxs podClient (au_MetricsUsername auth) (au_MetricsPasswordSecretKeyRef auth)
          else ret tt) ;;;
         ret Result_zero
     end).
Definition mx_reconcileAdmin : C ctrl_Result :=
  mxs <- get_mxs ;;
  then_if_zero
    (forEachPod (λ podIndex _ c,
       wrap "error reconciling API admin in Pod" (reconcileAdminInPod mxs podIndex c) ;;; ret Result_zero))
    reconcileMetricsAdmin.

(** ** Servers *)
(** The loops over the names of a difference; a name that is not in the index is logged. *)
Definition reconcile_added {A} (idx : Index A) (ids : list string) (f : string → A → C unit) : C unit :=
  for_each ids (λ id, match Get idx id with Ok x => f id x | Err _ => ret tt end).

Definition reconcileServers (podClient : option mxclient) : C ctrl_Result :=
  mxs <- get_mxs ;;
  match podClient with
  | None => ret (requeue_after (1 * Second))
  | Some c =>
      let currentIdx := ServerIndex mxs in
      previousIdx <- wrap "error getting server index" (ListIndex ServerClient c) ;;
      let diff := Diff currentIdx previousIdx in
      reconcile_added currentIdx (Added diff) (λ _ srv,
        wrap "error creating server" (createServer mxs c srv) ;;;
        wrap "error updating server state" (updateServerState c srv)) ;;;
      reconcile_added previousIdx (Deleted diff) (λ _ srv,
        wrap "error deleting server" (deleteServer c (d_ID srv))) ;;;
      reconcile_added currentIdx (Rest diff) (λ _ srv,
        wrap "error patching server" (patchServer mxs c srv) ;;;
        wrap "error updating server state" (updateServerState c srv)) ;;;
      ret Result_zero
  end.
Definition reconcileChangedServers : C ctrl_Result :=
  rq <- get ;;
  let serversHash := HashServers (mxs_Servers (mx_Spec (rq_mxs rq))) in
  if bool_decide (serversHash = mxst_ServersSpec (mx_Status (rq_mxs rq))) then ret Result_zero else
  then_if_zero (reconcileServers (rq_podClient rq))
    (mx_patchStatus (λ mss, { mss with mxst_ServersSpec := serversHash }) ;;; ret Result_zero).

(** ** Monitor *)
Definition reconcileMonitor (podClient : option mxclient) : C ctrl_Result :=
  mxs <- get_mxs ;;
  match podClient with
  | None => ret (requeue_after (1 * Second))
  | Some c =>
      r <- try (api_Get MonitorClient c (mon_Name (mxs_Monitor (mx_Spec mxs)))) ;;
      match r with
      | Err err =>
          if negb (mx_IsNotFound err) then throw (ErrWrap "error getting monitor" err) else
          rels <- wrap "error getting server relationships" (serverRelationships mxs c) ;;
          wrap "error creating monitor" (createMonitor mxs c rels) ;;; ret Result_zero
      | Ok _ =>
          rels <- wrap "error getting server relationships" (serverRelationships mxs c) ;;
          wrap "error patching monitor" (patchMonitor mxs c rels) ;;; ret Result_zero
      end
  end.
Definition reconcileChangedMonitor : C ctrl_Result :=
  rq <- get ;;
  let monitorHash := HashMonitor (mxs_Monitor (mx_Spec (rq_mxs rq))) in
  if bool_decide (monitorHash = mxst_MonitorSpec (mx_Status (rq_mxs rq))) then ret Result_zero else
  then_if_zero (reconcileMonitor (rq_podClient rq))
    (mx_patchStatus (λ mss, { mss with mxst_MonitorSpec := monitorHash }) ;;; ret Result_zero).
Definition reconcileMonitorState : C ctrl_Result :=
  mxs <- get_mxs ;;
  if negb SuspendEnabled then ret Result_zero else
  forEachPod (λ _ _ c, wrap "error updating monitor state" (updateMonitorState mxs c) ;;; ret Result_zero).

(** ** Initialization *)
Definition shouldInitialize (mxs : MaxScale) (c : mxclient) : C bool :=
  allExist <- wrap "error checking if all servers exist" (api_AllExists ServerClient c (ServerIDs mxs)) ;;
  if negb (allExist : bool) then ret true else
  allExist <- wrap "error checking if monitor exists"
    (api_AllExists MonitorClient c [mon_Name (mxs_Monitor (mx_Spec mxs))]) ;;
  ret (negb (allExist : bool)).
(** The servers and the monitor, with the client of the Pod. *)
Definition reconcileInitInPod (mxs : MaxScale) (c : mxclient) : C ctrl_Result :=
  should <- wrap "error checking initialization status" (shouldInitialize mxs c) ;;
  if negb (should : bool) then ret Result_zero else
  for_each_result [reconcileServers; reconcileMonitor] (λ reconcileFn, reconcileFn (Some c)).
Definition mx_reconcileInit : C ctrl_Result :=
  mxs <- get_mxs ;;
  forEachPod (λ _ _ c, wrap "error initializing Pod" (reconcileInitInPod mxs c)).

(** ** Config sync *)
Definition reconcileSyncInPod (mxs : MaxScale) (sync : MaxScaleConfigSync) (c : mxclient) : C bool :=
  isSynced <- wrap "error checking MaxScale config sync" (isMaxScaleConfigSynced mxs sync c) ;;
  if (isSynced : bool) then ret true else
  patchMaxScaleConfigSync mxs c ;;; ret false.
(** The Spec phase sets [Spec.Config.Sync] for high availability: the code would dereference a nil
    pointer. *)
Definition reconcileSync : C ctrl_Result :=
  mxs <- get_mxs ;;
  if negb (mx_IsHAEnabled mxs) then ret Result_zero else
  match mxc_Sync (mxs_Config (mx_Spec mxs)) with
  | None => throw (ErrNew "invalid memory address or nil pointer dereference")
  | Some sync =>
      forEachPod (λ _ _ c,
        isSynced <- wrap "error reconciling config sync in Pod" (reconcileSyncInPod mxs sync c) ;;
        ret (if (isSynced : bool) then Result_zero else requeue_after (cs_Interval sync)))
  end.

Definition ensurePrimaryServer : C ctrl_Result :=
  mxs <- get_mxs ;;
  if negb (is_some (mxst_Servers (mx_Status mxs))) then ret Result_zero else
  if is_some (GetPrimaryServer (mx_Status mxs)) then ret Result_zero else
  ret (requeue_after (1 * Second)).

(** ** Services and listeners *)
Definition reconcileServices (podClient : option mxclient) : C ctrl_Result :=
  mxs <- get_mxs ;;
  match podClient with
  | None => ret (requeue_after (1 * Second))
  | Some c =>
      let currentIdx := ServiceIndex mxs in
      previousIdx <- wrap "error getting service index" (ListIndex ServiceClient c) ;;
      let diff := Diff currentIdx previousIdx in
      rels <- wrap "error getting server relationships" (serverRelationships mxs c) ;;
      reconcile_added currentIdx (Added diff) (λ _ svc,
        wrap "error creating service" (createService mxs c svc rels)) ;;;
      reconcile_added previousIdx (Deleted diff) (λ _ svc,
        wrap "error deleting service" (deleteService c (d_ID svc))) ;;;
      reconcile_added currentIdx (Rest diff) (λ _ svc,
        wrap "error patching service" (patchService mxs c svc rels)) ;;;
      ret Result_zero
  end.
(** A listener without a service is skipped. *)
Definition with_service (mxs : MaxScale) (id : string) (f : Relationships → C unit) : C unit :=
  match ServiceForListener mxs id with
  | Ok svc => f (serviceRelationships svc)
  | Err _ => ret tt
  end.
Definition reconcileListeners (podClient : option mxclient) : C ctrl_Result :=
  mxs <- get_mxs ;;
  match podClient with
  | None => ret (requeue_after (1 * Second))
  | Some c =>
      let currentIdx := ListenerIndex mxs in
      previousIdx <- wrap "error getting listener index" (ListIndex ListenerClient c) ;;
      let diff := Diff currentIdx previousIdx in
      reconcile_added currentIdx (Added diff) (λ id l,
        with_service mxs id (λ rels, wrap "error creating listener" (createListener mxs c l rels))) ;;;
      reconcile_added previousIdx (Deleted diff) (λ _ l,
        wrap "error " (deleteListener c (d_ID l))) ;;;
      reconcile_added currentIdx (Rest diff) (λ id l,
        with_service mxs id (λ rels, wrap "error patching listener" (patchListener mxs c l rels))) ;;;
      ret Result_zero
  end.
Definition reconcileChangedServicesAndListeners : C ctrl_Result :=
  rq <- get ;;
  let servicesHash := HashServices (mxs_Services (mx_Spec (rq_mxs rq))) in
  if bool_decide (servicesHash = mxst_ServicesSpec (mx_Status (rq_mxs rq))) then ret Result_zero else
  then_if_zero (reconcileServices (rq_podClient rq))
    (then_if_zero (reconcileListeners (rq_podClient rq))
      (mx_patchStatus (λ mss, { mss with mxst_ServicesSpec := servicesHash }) ;;; ret Result_zero)).
Definition reconcileServiceState : C ctrl_Result :=
  mxs <- get_mxs ;;
  if negb SuspendEnabled then ret Result_zero else
  forEachPod (λ _ _ c,
    for_each (mxs_Services (mx_Spec mxs)) (λ svc, wrap "error updating service state" (updateServiceState c svc)) ;;;
    ret Result_zero).
Definition reconcileListenerState : C ctrl_Result :=
  mxs <- get_mxs ;;
  if negb SuspendEnabled then ret Result_zero else
  forEachPod (λ _ _ c,
    for_each (Listeners mxs) (λ l, wrap "error updating listener state" (updateListenerState c l)) ;;;
    ret Result_zero).

(** ** Connection *)
Definition mx_reconcileConnection : C ctrl_Result :=
  mxs <- get_mxs ;;
  match mxs_Connection (mx_Spec mxs) with
  | None => ret Result_zero
  | Some template =>
      let key := ConnectionKey mxs in
      existing <- try (xph (call (HGetConnection key))) ;;
      if is_ok existing then ret Result_zero else
      let auth := mxs_Auth (mx_Spec mxs) in
      conn <- wrap "error building Connection" (xph (BuildConnection (mkConnectionOpts (mxs_InheritMetadata (mx_Spec mxs))
        None (Some (Name (mx_meta mxs))) key (au_ClientUsername auth) (gsk_selector (au_ClientPasswordSecretKeyRef auth))
        None template))) ;;
      xph (call (HCreateConnection conn)) ;;;
      ret Result_zero
  end.

(** ** Metrics: maxscale_controller_metrics.go *)
Definition mx_exporter_config (mxs : MaxScale) (password : string) : string :=
  Join ([ "[maxscale_exporter]"; "maxscale_username=" +:+ au_MetricsUsername (mxs_Auth (mx_Spec mxs));
          "maxscale_password=" +:+ password ] ++
        (if mx_IsTLSEnabled mxs
         then [ "tls_insecure_skip_verify=false"; "tls_ca_cert_file=/etc/pki/ca.crt";
                "tls_private_key_file=/etc/pki/admin.key"; "tls_key_cert_file=/etc/pki/admin.crt" ]
         else []) ++ [ "" ]) newline.
Definition mx_reconcileExporterConfig (mxs : MaxScale) : C unit :=
  password <- wrap "error getting metrics password Secret"
    (secret_key mxs (au_MetricsPasswordSecretKeyRef (mxs_Auth (mx_Spec mxs)))) ;;
  secret_of mxs (mx_MetricsConfigSecretKeyRef mxs) (mx_exporter_config mxs password).
Definition getExporterPodAnnotations (mxs : MaxScale) : C (gmap string string) :=
  config <- wrap "error getting metrics config Secret" (secret_key mxs (mx_MetricsConfigSecretKeyRef mxs)) ;;
  let podAnnotations := {[ "k8s.mariadb.com/config" := Hash config ]} in
  if mx_IsTLSEnabled mxs then
    tlsAnnotations <- wrap "error getting TLS annotations" (getTLSAdminAnnotations mxs) ;;
    ret (tlsAnnotations ∪ podAnnotations)
  else ret podAnnotations.
Definition mx_reconcileExporterDeployment (mxs : MaxScale) : C unit :=
  podAnnotations <- wrap "error getting exporter Pod annotations" (getExporterPodAnnotations mxs) ;;
  desiredDeploy <- wrap "error building exporter Deployment" (xph (call (HBuildExporterDeployment podAnnotations))) ;;
  xph (Deployment_Reconcile (mx_MetricsKey mxs) desiredDeploy).
Definition mx_reconcileExporterService (mxs : MaxScale) : C unit :=
  let key := mx_MetricsKey mxs in
  let selectorLabels := WithMetricsSelectorLabels key ∅ in
  reconcile_svc key
    (mkServiceOpts { ServiceTemplate_zero with svt_Metadata := Some (mkMetadata selectorLabels ∅) } (Some selectorLabels)
       false [mkCoreServicePort MetricsPortName
                (ex_Port (mmt_Exporter (default MaxScaleMetrics_zero (mxs_Metrics (mx_Spec mxs))))) 0 None]
       false (mxs_InheritMetadata (mx_Spec mxs)))
    "error building exporter Service".
Definition mx_reconcileServiceMonitor (mxs : MaxScale) : C unit :=
  desiredSvcMonitor <- wrap "error building Service Monitor" (xph (call HBuildServiceMonitor)) ;;
  xph (ServiceMonitor_Reconcile (mx_MetricsKey mxs) desiredSvcMonitor).
Definition mx_IsReady (mxs : MaxScale) : bool :=
  IsStatusConditionTrue (mxst_Conditions (mx_Status mxs)) ConditionTypeReady.
Definition mx_reconcileMetrics : C ctrl_Result :=
  mxs <- get_mxs ;;
  if negb (mx_AreMetricsEnabled mxs) then ret Result_zero else
  exist <- xph (call HServiceMonitorExist) ;;
  if negb (exist : bool) then ret (requeue_after (10 * Second)) else
  if negb (mx_IsReady mxs) then ret (requeue_after (1 * Second)) else
  mx_reconcileExporterConfig mxs ;;;
  mx_reconcileExporterDeployment mxs ;;;
  mx_reconcileExporterService mxs ;;;
  mx_reconcileServiceMonitor mxs ;;;
  ret Result_zero.

(** ** Status: maxscale_controller_status.go *)
Definition d_IsMaster (d : Data) : bool := state_IsMaster (d_State d).
(** The values of an index, in the order a range visits them. *)
Definition index_values (idx : Index Data) : list Data := omap (λ k, idx !! k) (range_keys idx).
Definition resource_status (d : Data) : MaxScaleResourceStatus := mkMaxScaleResourceStatus (d_ID d) (d_State d).

Record serverStatus := mkServerStatus { ss_primary : string; ss_servers : list MaxScaleServerStatus }.
Definition getServerStatus (mxs : MaxScale) (c : mxclient) : C serverStatus :=
  idx <- wrap "error getting servers" (ListIndex ServerClient c) ;;
  let servers := index_values (Filter idx (ServerIDs mxs)) in
  ret (mkServerStatus (match head (filter (λ d, d_IsMaster d = true) servers) with Some d => d_ID d | None => "" end)
         ((λ d, mkMaxScaleServerStatus (d_ID d) (d_State d)) <$> servers)).
Definition getMonitorStatus (mxs : MaxScale) (c : mxclient) : C MaxScaleResourceStatus :=
  d <- wrap "error getting monitor" (api_Get MonitorClient c (mon_Name (mxs_Monitor (mx_Spec mxs)))) ;;
  ret (resource_status d).
Definition getServiceStatus (mxs : MaxScale) (c : mxclient) : C (list MaxScaleResourceStatus) :=
  idx <- wrap "error getting services" (ListIndex ServiceClient c) ;;
  ret (resource_status <$> index_values (Filter idx (ServiceIDs mxs))).
Definition getListenerStatus (mxs : MaxScale) (c : mxclient) : C (list MaxScaleResourceStatus) :=
  idx <- wrap "error getting listeners" (ListIndex ListenerClient c) ;;
  ret (resource_status <$> index_values (Filter idx (ListenerIDs mxs))).
Definition getMaxScaleConfigSyncVersion (c : mxclient) : C Z :=
  attrs <- wrap "error getting MaxScale status" (mx_Get c) ;;
  match mxa_ConfigSyncVersion attrs with
  | Some v => ret v
  | None => throw (ErrNew "MaxScale config sync not set")
  end.
Definition getDatabaseConfigSyncVersion (mxs : MaxScale) : C Z :=
  srv <- wrap "error getting primary SQL client" (getReadySqlClient mxs) ;;
  xsql srv (MaxScaleConfigSyncVersion 0).
Definition getConfigSyncStatus (mxs : MaxScale) (c : mxclient) : C (option MaxScaleConfigSyncStatus) :=
  if negb (mx_IsHAEnabled mxs) then ret None else
  mxsVersion <- try (getMaxScaleConfigSyncVersion c) ;;
  dbVersion <- try (getDatabaseConfigSyncVersion mxs) ;;
  lift (multierror (err_of mxsVersion) (err_of dbVersion)) ;;;
  mxsVersion <- lift mxsVersion ;; dbVersion <- lift dbVersion ;;
  ret (Some (mkMaxScaleConfigSyncStatus mxsVersion dbVersion)).

(** What could be read of the API; nothing is kept of what failed. *)
Record api_status := mkApiStatus {
  as_servers : option serverStatus;
  as_monitor : option MaxScaleResourceStatus;
  as_services : option (list MaxScaleResourceStatus);
  as_listeners : option (list MaxScaleResourceStatus);
  as_configSync : option MaxScaleConfigSyncStatus;
  as_tls : option MaxScaleTLSStatus
}.
Definition result_option {A} (r : result A) : option A := match r with Ok a => Some a | Err _ => None end.
Definition get_api_status (mxs : MaxScale) : C api_status :=
  c <- try (client_ mxs) ;;
  match c with
  | Err _ => ret (mkApiStatus None None None None None None)
  | Ok c =>
      servers <- try (getServerStatus mxs c) ;;
      monitor <- try (getMonitorStatus mxs c) ;;
      services <- try (getServiceStatus mxs c) ;;
      listeners <- try (getListenerStatus mxs c) ;;
      configSync <- try (getConfigSyncStatus mxs c) ;;
      tls <- try (mx_getTLSStatus mxs) ;;
      ret (mkApiStatus (result_option servers) (result_option monitor) (result_option services)
             (result_option listeners) (mjoin (result_option configSync)) (mjoin (result_option tls)))
  end.

Definition set_api_status (a : api_status) (mss : MaxScaleStatus) : MaxScaleStatus :=
  { mss with
    mxst_PrimaryServer := match as_servers a with
                          | Some s => if bool_decide (ss_primary s = "") then mxst_PrimaryServer mss else Some (ss_primary s)
                          | None => mxst_PrimaryServer mss
                          end;
    mxst_Servers := or_default (ss_servers <$> as_servers a) (mxst_Servers mss);
    mxst_Monitor := or_default (as_monitor a) (mxst_Monitor mss);
    mxst_Services := or_default (as_services a) (mxst_Services mss);
    mxst_Listeners := or_default (as_listeners a) (mxst_Listeners mss);
    mxst_ConfigSync := or_default (as_configSync a) (mxst_ConfigSync mss);
    mxst_TLS := or_default (as_tls a) (mxst_TLS mss) }.
Definition mx_status_patcher (mxs : MaxScale) (sts : StatefulSet) (a : api_status) (mss : MaxScaleStatus) : MaxScaleStatus :=
  let mss := { set_api_status a mss with mxst_Replicas := sts_ReadyReplicas sts } in
  let mss := SetReadyWithStatefulSet mss sts in
  if isStatefulSetReady sts mxs then SetReadyWithMaxScaleStatus mss (default [] (mxst_Servers mss)) else mss.
Definition mx_reconcileStatus : C ctrl_Result :=
  mxs <- get_mxs ;;
  if mx_IsSuspended mxs then mx_patchStatus SetReadySuspended ;;; ret Result_zero else
  sts <- xbase (call (KGetStatefulSet (mx_ObjectKey mxs))) ;;
  a <- get_api_status mxs ;;
  mx_patchStatus (mx_status_patcher mxs sts a) ;;;
  ret Result_zero.

Definition handleConfigSyncConflict : C unit :=
  mxs <- get_mxs ;;
  if negb (mx_IsHAEnabled mxs) then ret tt else
  let configSync := default (mkMaxScaleConfigSyncStatus 0 0) (mxst_ConfigSync (mx_Status mxs)) in
  if bool_decide (css_MaxScaleVersion configSync ≤ css_DatabaseVersion configSync) then ret tt else
  srv <- wrap "error getting primary SQL client" (getPrimarySqlClient mxs) ;;
  wrap "error truncating maxscale_config table" (xsql srv (TruncateMaxScaleConfig 0)).

(** ** The loop over the phases *)
(** The error of the patch is kept only if the object was not found. *)
Definition mx_handleError (err : error) : C unit :=
  handled <- try handleConfigSyncConflict ;;
  patched <- try (mx_patchStatus (Ready_PatcherFailed (Error err))) ;;
  let patchErr := match patched with Err e => if IsNotFound e then patched else Ok tt | Ok _ => Ok tt end in
  lift (multierror (multierror (Err err) handled) patchErr).
Definition mx_requeueResult (mxs : MaxScale) : ctrl_Result :=
  match mxs_RequeueInterval (mx_Spec mxs) with
  | Some interval => requeue_after interval
  | None => if bool_decide (0 < RequeueInterval) then requeue_after RequeueInterval else Result_zero
  end.
Fixpoint mx_run_phases (phases : list (string * C ctrl_Result)) : C ctrl_Result :=
  match phases with
  | [] => mxs <- get_mxs ;; ret (mx_requeueResult mxs)
  | (name, reconcile) :: phases =>
      r <- try reconcile ;;
      match r with
      | Err err =>
          if IsNotFound err then mx_run_phases phases else
          wrap ("error reconciling phase " +:+ name) (mx_handleError err) ;;;
          mx_run_phases phases
      | Ok result => if Result_IsZero result then mx_run_phases phases else ret result
      end
  end.

Definition mx_phases : list (string * C ctrl_Result) :=
  [ ("Finalizer", mx_reconcileFinalizer); ("Spec", mx_setSpecDefaults); ("Status", mx_reconcileStatus);
    ("Suspend", mx_reconcileSuspend); ("Secret", mx_reconcileSecret); ("TLS", mx_reconcileTLS);
    ("Auth", mx_reconcileAuth); ("ServiceAccount", mx_reconcileServiceAccount); ("StatefulSet", mx_reconcileStatefulSet);
    ("PodDisruptionBudget", mx_reconcilePodDisruptionBudget); ("Kubernetes Service", mx_reconcileService);
    ("StatefulSet Ready", ensureStatefulSetReady); ("Client", setupClients); ("Admin", mx_reconcileAdmin);
    ("Init", mx_reconcileInit); ("Sync", reconcileSync); ("Primary Server", ensurePrimaryServer);
    ("Servers", reconcileChangedServers); ("Monitor", reconcileChangedMonitor); ("Monitor State", reconcileMonitorState);
    ("Services and Listeners", reconcileChangedServicesAndListeners); ("Service State", reconcileServiceState);
    ("Listener State", reconcileListenerState); ("Connection", mx_reconcileConnection); ("Metrics", mx_reconcileMetrics) ].

(** The MaxScale read and the request made of it; an object that is gone is left alone. *)
Definition mx_Reconcile (key : NamespacedName) : C ctrl_Result :=
  r <- try (call (XGetMaxScale key)) ;;
  match r with
  | Err err => match IgnoreNotFound err with Some err => throw err | None => ret Result_zero end
  | Ok mxs =>
      modify (λ _, mkRequest mxs None None) ;;;
      mx_run_phases mx_phases
  end.
End controller.
