(* ===== verification/MaxScalePhase.v ===== *)
(** * The MaxScale phase of the MariaDB reconciler

    pkg/controller/maxscale with [BuildMaxScale] of pkg/builder: a MariaDB with [spec.maxScale] creates
    a MaxScale, and completes one that exists without ever changing what is set in it. *)

From S2P Require Import Prelude GoStrings StatefulSet Datastructures Conditions MariaDBTypes GaleraConfig MaxScaleTypes.
From S2P Require Import Concurrency Kube StorageResize MariaDBDefaults MariaDBInit MariaDBServices MariaDBPhases.
From S2P Require Import MaxScaleDefaults MaxScaleClient.

Local Open Scope Z_scope.
Local Open Scope go_scope.

(** [Spec.MaxScale] of a MariaDB, without [Enabled]. *)
Record MariaDBMaxScaleSpec := mkMariaDBMaxScaleSpec {
  mms_Image : string;
  mms_Services : list MaxScaleService;
  mms_Monitor : option MaxScaleMonitor;
  mms_Admin : option MaxScaleAdmin;
  mms_Config : option MaxScaleConfig;
  mms_Auth : option MaxScaleAuth;
  mms_Metrics : option MaxScaleMetrics;
  mms_TLS : option MaxScaleTLS;
  mms_Connection : option ConnectionTemplate;
  mms_Replicas : option Z;
  mms_PodDisruptionBudget : option PodDisruptionBudget;
  mms_UpdateStrategy : option string;
  mms_KubernetesService : option ServiceTemplate;
  mms_GuiKubernetesService : option ServiceTemplate;
  mms_RequeueInterval : option Z
}.

Definition maxscale_of (key : NamespacedName) (mdb : MariaDB) (s : MariaDBMaxScaleSpec) : MaxScale :=
  { MaxScale_zero (WithMetadata (sp_InheritMetadata (m_Spec mdb)) (NewMetadataBuilder key)) with
    mx_Spec := { MaxScaleSpec_zero with
      mxs_MariaDBRef := Some (mkMariaDBRef (Name (m_meta mdb)) (Namespace (m_meta mdb)) "" false);
      mxs_Image := mms_Image s;
      mxs_Services := mms_Services s;
      mxs_Monitor := default MaxScaleMonitor_zero (mms_Monitor s);
      mxs_Admin := default (mkMaxScaleAdmin 0 None) (mms_Admin s);
      mxs_Config := default MaxScaleConfig_zero (mms_Config s);
      mxs_Auth := default MaxScaleAuth_zero (mms_Auth s);
      mxs_Connection := mms_Connection s;
      mxs_Metrics := mms_Metrics s;
      mxs_TLS := or_default (mms_TLS s)
        (if IsTLSRequired mdb then Some { MaxScaleTLS_zero with mtls_Enabled := true } else None);
      mxs_Replicas := default 1 (mms_Replicas s);
      mxs_PodDisruptionBudget := mms_PodDisruptionBudget s;
      mxs_UpdateStrategy := mms_UpdateStrategy s;
      mxs_KubernetesService := mms_KubernetesService s;
      mxs_GuiKubernetesService := mms_GuiKubernetesService s;
      mxs_RequeueInterval := mms_RequeueInterval s } }.
Definition BuildMaxScale (key : NamespacedName) (mdb : MariaDB) (s : MariaDBMaxScaleSpec) : M MariaDB xop MaxScale :=
  wrap "error setting controller to MaxScale" (call (XPh (HSvc (VSetControllerReference key)))) ;;;
  ret (maxscale_of key mdb s).

(** A field of the existing spec is set only if it is zero and the desired one is not: a zero
    field takes the desired value.  The builder leaves the templates of the container and the Pod,
    the servers and the suspension zero. *)
Definition fill {A} `{EqDecision A} (zero existing desired : A) : A := zero_default zero existing desired.
Definition fill_list {A} (existing desired : list A) : list A := match existing with [] => desired | _ => existing end.
Definition fill_spec (e d : MaxScaleSpec) : MaxScaleSpec :=
  { e with
    mxs_MariaDBRef := or_default (mxs_MariaDBRef e) (mxs_MariaDBRef d);
    mxs_Image := fill "" (mxs_Image e) (mxs_Image d);
    mxs_Services := fill_list (mxs_Services e) (mxs_Services d);
    mxs_Monitor := fill MaxScaleMonitor_zero (mxs_Monitor e) (mxs_Monitor d);
    mxs_Admin := fill (mkMaxScaleAdmin 0 None) (mxs_Admin e) (mxs_Admin d);
    mxs_Config := fill MaxScaleConfig_zero (mxs_Config e) (mxs_Config d);
    mxs_Auth := fill MaxScaleAuth_zero (mxs_Auth e) (mxs_Auth d);
    mxs_Connection := or_default (mxs_Connection e) (mxs_Connection d);
    mxs_Metrics := or_default (mxs_Metrics e) (mxs_Metrics d);
    mxs_TLS := or_default (mxs_TLS e) (mxs_TLS d);
    mxs_Replicas := fill 0 (mxs_Replicas e) (mxs_Replicas d);
    mxs_PodDisruptionBudget := or_default (mxs_PodDisruptionBudget e) (mxs_PodDisruptionBudget d);
    mxs_UpdateStrategy := or_default (mxs_UpdateStrategy e) (mxs_UpdateStrategy d);
    mxs_KubernetesService := or_default (mxs_KubernetesService e) (mxs_KubernetesService d);
    mxs_GuiKubernetesService := or_default (mxs_GuiKubernetesService e) (mxs_GuiKubernetesService d);
    mxs_RequeueInterval := or_default (mxs_RequeueInterval e) (mxs_RequeueInterval d) }.

Definition MaxScale_Reconcile (mdbmxs : MariaDBMaxScaleSpec) : M MariaDB xop ctrl_Result :=
  mdb <- get ;;
  if negb (default false (sp_MaxScale (m_Spec mdb))) then ret Result_zero else
  let key := MaxScaleKey mdb in
  desiredMxs <- wrap "error building MaxScale" (BuildMaxScale key mdb mdbmxs) ;;
  r <- try (call (XGetMaxScale key)) ;;
  match r with
  | Err err => if negb (IsNotFound err) then throw err else call (XCreateMaxScale desiredMxs) ;;; ret Result_zero
  | Ok existingMxs =>
      call (XPatchMaxScale existingMxs
        { existingMxs with mx_Spec := fill_spec (mx_Spec existingMxs) (mx_Spec desiredMxs) }) ;;;
      ret Result_zero
  end.

(** ** What the phase writes *)
Lemma fill_fills {A} `{EqDecision A} (zero e d : A) :
  (e ≠ zero → fill zero e d = e) ∧ fill zero (fill zero e d) d = fill zero e d.
Proof.
  unfold fill, zero_default. split; [intros ?; by rewrite bool_decide_eq_false_2|].
  destruct (bool_decide_reflect (e = zero)) as [->|Hne]; [|by rewrite bool_decide_eq_false_2].
  by case_bool_decide.
Qed.
Lemma fill_list_idem {A} (e d : list A) : fill_list (fill_list e d) d = fill_list e d.
Proof. by destruct e, d. Qed.

(** The spec of an existing MaxScale, as an order: a later spec has everything an earlier one had set. *)
Definition keeps_set (e e' : MaxScaleSpec) : Prop :=
  (mxs_MariaDBRef e ≠ None → mxs_MariaDBRef e' = mxs_MariaDBRef e) ∧
  (mxs_Image e ≠ "" → mxs_Image e' = mxs_Image e) ∧
  (mxs_Services e ≠ [] → mxs_Services e' = mxs_Services e) ∧
  (mxs_Monitor e ≠ MaxScaleMonitor_zero → mxs_Monitor e' = mxs_Monitor e) ∧
  (mxs_Auth e ≠ MaxScaleAuth_zero → mxs_Auth e' = mxs_Auth e) ∧
  (mxs_Config e ≠ MaxScaleConfig_zero → mxs_Config e' = mxs_Config e) ∧
  (mxs_TLS e ≠ None → mxs_TLS e' = mxs_TLS e) ∧
  (mxs_Replicas e ≠ 0 → mxs_Replicas e' = mxs_Replicas e) ∧
  mxs_Servers e' = mxs_Servers e ∧ mxs_Suspend e' = mxs_Suspend e.
Lemma fill_spec_keeps e d : keeps_set e (fill_spec e d) ∧ fill_spec (fill_spec e d) d = fill_spec e d.
Proof.
  split.
  - repeat split; cbn; unfold constant; try (intros ?; by apply fill_fills).
    + intros H. by destruct (mxs_MariaDBRef e).
    + intros H. by destruct (mxs_Services e).
    + intros H. by destruct (mxs_TLS e).
  - unfold fill_spec. destruct e. cbn. unfold constant.
    f_equal; try apply fill_fills; try apply or_default_idem; try apply fill_list_idem.
Qed.

Inductive mx_write := Creates (m : MaxScale) | Patches (base m : MaxScale).
Definition mx_write_of (e : event xop) : option mx_write :=
  match ev_op e with
  | XCreateMaxScale m => Some (Creates m)
  | XPatchMaxScale base m => Some (Patches base m)
  | _ => None
  end.
Definition mx_write_justified (key : NamespacedName) (desired : MaxScale) (w : mx_write) (pre : xtrace) : Prop :=
  match w with
  | Creates m => m = desired ∧ ∃ err, IsNotFound err = true ∧ Ev (XGetMaxScale key) (Err err) ∈ pre
  | Patches base m => Ev (XGetMaxScale key) (Ok base) ∈ pre ∧ keeps_set (mx_Spec base) (mx_Spec m) ∧
      m = { base with mx_Spec := mx_Spec m } ∧ fill_spec (mx_Spec m) (mx_Spec desired) = mx_Spec m
  end.

(** The MaxScale phase creates the MaxScale only where there is none, and otherwise changes only fields
    that are not set, of the one it read; having done so, it finds nothing more to change. *)
Theorem maxscale_phase_only_fills (mdbmxs : MariaDBMaxScaleSpec) (mdb : MariaDB) :
  wpM (MaxScale_Reconcile mdbmxs) mdb (λ t mdb' _, mdb' = mdb ∧
    safe mx_write_of (mx_write_justified (MaxScaleKey mdb) (maxscale_of (MaxScaleKey mdb) mdb mdbmxs)) [] t).
Proof.
  unfold MaxScale_Reconcile, BuildMaxScale. do 2 wp_step. cbn [app].
  destruct (default false _); cbn [negb]; [|wp_step; split; [done|by apply safe_calm]].
  wp_step. wp_step. wp_step. wp_step. apply wpM_call. intros [[]|e]; cbn [wrap_err]; [|split; [done|by apply safe_calm; repeat constructor]].
  wp_step. cbn zeta. wp_step. wp_step. apply wpM_call. cbn [app]. intros answer.
  set (desired := maxscale_of _ _ _). set (pre := [Ev (XPh (HSvc (VSetControllerReference (MaxScaleKey mdb)))) (Ok tt); Ev (XGetMaxScale (MaxScaleKey mdb)) answer]).
  assert (∀ e w, mx_write_of e = Some w → mx_write_justified (MaxScaleKey mdb) desired w pre →
    safe mx_write_of (mx_write_justified (MaxScaleKey mdb) desired) [] (pre ++ [e])) as Hone.
  { intros e w He Hw. apply (safe_app _ _ []); [apply safe_calm; by repeat constructor|]. apply safe_one. cbn [app]. intros a Ha.
    rewrite He in Ha. by injection Ha as <-. }
  assert (safe mx_write_of (mx_write_justified (MaxScaleKey mdb) desired) [] pre) as Hpre
    by (apply safe_calm; by repeat constructor).
  destruct answer as [existing|err].
  - wp_step. apply wpM_call. intros r.
    assert (safe mx_write_of (mx_write_justified (MaxScaleKey mdb) desired) [] (pre ++ [Ev (XPatchMaxScale existing
      { existing with mx_Spec := fill_spec (mx_Spec existing) (mx_Spec desired) }) r])) as Hs.
    { eapply Hone; [done|]. split; [by right; left|]. destruct (fill_spec_keeps (mx_Spec existing) (mx_Spec desired)).
      split; [done|]. split; [done|done]. }
    destruct r; [wp_step|]; split; first [done|exact Hs].
  - destruct (IsNotFound err) eqn:Hnf; cbn [negb]; [|wp_step; split; [done|exact Hpre]].
    wp_step. apply wpM_call. intros r.
    assert (safe mx_write_of (mx_write_justified (MaxScaleKey mdb) desired) [] (pre ++ [Ev (XCreateMaxScale desired) r])) as Hs.
    { eapply Hone; [done|]. split; [done|]. exists err. split; [done|]. by right; left. }
    destruct r; [wp_step|]; split; first [done|exact Hs].
Qed.
