(* ===== verification/MaxScaleSafety.v ===== *)
(** * Properties of the MaxScale controller *)

From S2P Require Import Prelude GoStrings StatefulSet Datastructures Conditions MariaDBTypes GaleraConfig MaxScaleTypes.
From S2P Require Import Concurrency Kube Sql Health ConditionSetters Pki Certificate MariaDBTLS StorageResize.
From S2P Require Import MariaDBDefaults MariaDBInit MariaDBServices MariaDBPhases MaxScaleDefaults MaxScaleClient MaxScaleConfig MaxScale.

Local Open Scope Z_scope.
Local Open Scope go_scope.

(** ** The objects of a MaxScale *)
(** The state of the REST API: per name, the attributes an object was created with (the router of a
    service is one), its parameters, its relationships, and whether it is a server in maintenance. *)
Record api_object := mkApiObject {
  ao_Fields : json_map;
  ao_Parameters : json_map;
  ao_Relationships : option Relationships;
  ao_Maintenance : bool
}.
Abbreviation api_state := (gmap string api_object).

(** A request with its answer; of one that failed it is not known whether it was carried out. *)
Inductive request :=
  | RList (c : mxclient) (path : string) (l : list Data)
  | RSend (c : mxclient) (m : http_method) (path : string) (query : gmap string string) (body : option Object)
  | RFailed (c : mxclient) (path : string).
Definition request_of (e : event xop) : option request :=
  match ev_op e in xop X return X → option request with
  | XList c path => λ a, Some (match a with AgentOk l => RList c path l | _ => RFailed c path end)
  | XSend c m path q body => λ a, Some (match a with AgentOk _ => RSend c m path q body | _ => RFailed c path end)
  | _ => λ _, None
  end (ev_ans e).

Definition created (o : Object) : api_object :=
  mkApiObject (at_Fields (ob_Attributes o)) (at_Parameters (ob_Attributes o)) (ob_Relationships o) false.
Definition patched (o : Object) (a : api_object) : api_object :=
  { a with ao_Parameters := at_Parameters (ob_Attributes o) ∪ ao_Parameters a;
           ao_Relationships := or_default (ob_Relationships o) (ao_Relationships a) }.
Definition with_maintenance (b : bool) (a : api_object) : api_object := { a with ao_Maintenance := b }.
Definition maintenance_query : gmap string string := {[ "state" := "maintenance" ]}.

(** The REST API of a MaxScale is not part of the program: [rest k c r s s'] says that the request [r],
    answered with success to the client [c], takes the objects of the kind [k] from [s] to [s'], and
    the laws are what its documentation says of the requests on servers, services and listeners. A
    list names all the objects and changes nothing. A POST of an object of the right type creates it.
    A PATCH sets the parameters and the relationships given; a router is not among what it can change.
    A DELETE, forced or not, removes the object. [set] and [clear] with the state [maintenance] put a
    server into maintenance and take it out of it. Of every other request (another state, another
    query, another type of object) nothing is known. *)
Definition configured_kinds : list GenericClient := [ServerClient; ServiceClient; ListenerClient].
Class MaxScaleREST := {
  rest : GenericClient → mxclient → request → api_state → api_state → Prop;
  rest_read k c c' path l s s' : rest k c (RList c' path l) s s' → s' = s;
  rest_list k c l s s' : rest k c (RList c (gc_path k) l) s s' → ∀ n, is_Some (s !! n) ↔ n ∈ d_ID <$> l;
  rest_create k c o s s' : k ∈ configured_kinds → ob_Type o = gc_objectType k →
    rest k c (RSend c POST (gc_path k) ∅ (Some o)) s s' → s' = <[ob_ID o := created o]> s;
  rest_patch k c o s s' : k ∈ configured_kinds → ob_Type o = gc_objectType k →
    rest k c (RSend c PATCH (resourcePath k (ob_ID o)) ∅ (Some o)) s s' → s' = alter (patched o) (ob_ID o) s;
  rest_delete k c n q s s' : k ∈ configured_kinds → q = ∅ ∨ q = {[ "force" := "true" ]} →
    rest k c (RSend c DELETE (resourcePath k n) q None) s s' → s' = delete n s;
  rest_set c n s s' :
    rest ServerClient c (RSend c PUT (resourcePath ServerClient (n +:+ "/set")) maintenance_query None) s s' →
    s' = alter (with_maintenance true) n s;
  rest_clear c n s s' :
    rest ServerClient c (RSend c PUT (resourcePath ServerClient (n +:+ "/clear")) maintenance_query None) s s' →
    s' = alter (with_maintenance false) n s
}.

(** An API that does nothing but what is documented. *)
Inductive documented (k : GenericClient) : request → api_state → api_state → Prop :=
  | d_read c path l s : (path = gc_path k → ∀ n, is_Some (s !! n) ↔ n ∈ d_ID <$> l) → documented k (RList c path l) s s
  | d_create c o s : documented k (RSend c POST (gc_path k) ∅ (Some o)) s (<[ob_ID o := created o]> s)
  | d_patch c o s : documented k (RSend c PATCH (resourcePath k (ob_ID o)) ∅ (Some o)) s (alter (patched o) (ob_ID o) s)
  | d_delete c n q s : documented k (RSend c DELETE (resourcePath k n) q None) s (delete n s)
  | d_set c n s : documented k (RSend c PUT (resourcePath k (n +:+ "/set")) maintenance_query None) s
      (alter (with_maintenance true) n s)
  | d_clear c n s : documented k (RSend c PUT (resourcePath k (n +:+ "/clear")) maintenance_query None) s
      (alter (with_maintenance false) n s).

Lemma str_app_inj p a b : p +:+ a = p +:+ b → a = b.
Proof. induction p; cbn; [done|]. intros [= ?]. auto. Qed.
Lemma resourcePath_inj k a b : resourcePath k a = resourcePath k b → a = b.
Proof. unfold resourcePath. intros H%str_app_inj. by apply str_app_inj in H. Qed.

(** A text has at most one of the two endings. *)
Lemma ending_inj a b p q : a +:+ p = b +:+ q → String.rev p +:+ String.rev a = String.rev q +:+ String.rev b.
Proof. intros H%(f_equal String.rev). by rewrite !rev_app in H. Qed.
Lemma rev_inj a b : String.rev a = String.rev b → a = b.
Proof. intros H%(f_equal String.rev). by rewrite !rev_rev in H. Qed.
Lemma set_inj a b : a +:+ "/set" = b +:+ "/set" → a = b.
Proof. intros H%ending_inj%str_app_inj. by apply rev_inj. Qed.
Lemma clear_inj a b : a +:+ "/clear" = b +:+ "/clear" → a = b.
Proof. intros H%ending_inj%str_app_inj. by apply rev_inj. Qed.
Lemma set_not_clear a b : a +:+ "/set" ≠ b +:+ "/clear".
Proof. by intros H%ending_inj. Qed.
#[local] Ltac same_path := repeat match goal with
  | H : resourcePath _ _ = resourcePath _ _ |- _ => apply resourcePath_inj in H
  | H : _ +:+ "/set" = _ +:+ "/set" |- _ => apply set_inj in H
  | H : _ +:+ "/clear" = _ +:+ "/clear" |- _ => apply clear_inj in H
  | H : _ +:+ "/set" = _ +:+ "/clear" |- _ => by apply set_not_clear in H
  | H : _ +:+ "/clear" = _ +:+ "/set" |- _ => symmetry in H; by apply set_not_clear in H
  end.
Lemma documented_set k c n s s' :
  documented k (RSend c PUT (resourcePath k (n +:+ "/set")) maintenance_query None) s s' →
  s' = alter (with_maintenance true) n s.
Proof. inversion 1; subst; same_path. by subst. Qed.
Lemma documented_clear k c n s s' :
  documented k (RSend c PUT (resourcePath k (n +:+ "/clear")) maintenance_query None) s s' →
  s' = alter (with_maintenance false) n s.
Proof. inversion 1; subst; same_path. by subst. Qed.
#[local] Instance documented_rest : MaxScaleREST.
Proof.
  refine {| rest := λ k _, documented k |}; intros until s'; intros;
    solve [by eapply documented_set|by eapply documented_clear|
      match goal with H : documented _ _ _ _ |- _ => inversion H; subst end; same_path; subst; auto; congruence].
Defined.

(** The requests of a run, one after the other, when nobody else changes the objects meanwhile. *)
Inductive api_run `{MaxScaleREST} (k : GenericClient) (c : mxclient) : list request → api_state → api_state → Prop :=
  | api_done s : api_run k c [] s s
  | api_next r rs s s' s'' : rest k c r s s' → api_run k c rs s' s'' → api_run k c (r :: rs) s s''.
Definition requests (t : xtrace) : list request := omap request_of t.

Lemma requests_app t t' : requests (t ++ t') = requests t ++ requests t'.
Proof. apply omap_app. Qed.
Section rest.
Context {API : MaxScaleREST}.
Lemma api_run_app k c rs rs' s s'' :
  api_run k c (rs ++ rs') s s'' ↔ ∃ s', api_run k c rs s s' ∧ api_run k c rs' s' s''.
Proof.
  split.
  - revert s. induction rs as [|r rs IH]; intros s H; [exists s; by split; [constructor|]|].
    inversion H as [|r' rs0 s1 s2 s3 Hr Hrs]; subst. destruct (IH _ Hrs) as (s4 & ? & ?).
    exists s4. split; [by econstructor|done].
  - intros (s1 & H & H1). induction H as [|r rs0 s2 s3 s4 Hr Hrs IH]; [done|]. econstructor; [exact Hr|by apply IH].
Qed.

(** What a single request does. *)
Lemma run_one k c r s s' : api_run k c [r] s s' → rest k c r s s'.
Proof. intros H. inversion H as [|r0 rs0 s1 s2 s3 Hr Hrs]; subst. by inversion Hrs; subst. Qed.
Lemma run_cons k c r rs s s' : api_run k c (r :: rs) s s' → ∃ s1, rest k c r s s1 ∧ api_run k c rs s1 s'.
Proof. intros H. inversion H as [|r0 rs0 s1 s2 s3 Hr Hrs]; subst. eauto. Qed.
Lemma step_list k c l s s' :
  rest k c (RList c (gc_path k) l) s s' → s' = s ∧ ∀ n, is_Some (s !! n) ↔ n ∈ d_ID <$> l.
Proof. intros Hr. split; [by eapply rest_read|by eapply rest_list]. Qed.

Lemma wpM_call_http {S X} (e : xop (agent_reply X)) (s : S) Q :
  (∀ r, Q [Ev e r] s (of_agent r)) → wpM (call_http e) s Q.
Proof. done. Qed.

(** [m] changes the objects of the kind by [R], if it succeeds, and the state not at all. *)
Definition changes {S A} (k : GenericClient) (c : mxclient) (m : M S xop A) (R : api_state → api_state → Prop) : Prop :=
  ∀ s, wpM m s (λ t s' r, s' = s ∧ (is_ok r = true → ∀ st st', api_run k c (requests t) st st' → R st st')).

Lemma changes_mono {S A} k c (m : M S xop A) (R R' : api_state → api_state → Prop) :
  (∀ st st', R st st' → R' st st') → changes k c m R → changes k c m R'.
Proof. intros HR Hm s. eapply wpM_mono; [|apply Hm]. intros t s' r [? Hr]. split; [done|]. eauto. Qed.
Lemma changes_ret {S A} k c (a : A) (R : api_state → api_state → Prop) :
  (∀ st, R st st) → changes k c (ret (S := S) a) R.
Proof. intros HR s. wp_step. split; [done|]. intros _ st st' Hrun. inversion Hrun; subst. apply HR. Qed.
Lemma changes_wrap {S A} k c ctx (m : M S xop A) R : changes k c m R → changes k c (wrap ctx m) R.
Proof. intros Hm s. wp_step. eapply wpM_mono; [|apply Hm]. intros t s' [a|e] [? Hr]; split; [done|done|done|done]. Qed.
Lemma changes_then {S A B} k c (m : M S xop A) (m' : A → M S xop B) R R' :
  changes k c m R → (∀ a, changes k c (m' a) R') →
  changes k c (bind m m') (λ st st', ∃ st1, R st st1 ∧ R' st1 st').
Proof.
  intros Hm Hm' s. wp_step. eapply wpM_mono; [|apply Hm]. intros t s1 [a|e] [-> Hr]; [|done].
  eapply wpM_mono; [|apply Hm']. intros t' s2 r [-> Hr']. split; [done|]. intros Hok st st' Hrun.
  rewrite requests_app, api_run_app in Hrun. destruct Hrun as (st1 & H1 & H2). eauto.
Qed.
Lemma changes_http {S X} k c (e : xop (agent_reply X)) (R : api_state → api_state → Prop) :
  (∀ a st st', api_run k c (requests [Ev e (AgentOk a)]) st st' → R st st') → changes (S := S) k c (call_http e) R.
Proof. intros HR s. apply wpM_call_http. intros [a|code msg|msg]; (split; [done|]); intros Hok; [apply HR|done|done]. Qed.

(** A loop over different names, each step of which changes only the object of its name. *)
Definition only (R : option api_object → option api_object → Prop) (id : string) (st st' : api_state) : Prop :=
  (∀ n, n ≠ id → st' !! n = st !! n) ∧ R (st !! id) (st' !! id).
Definition only_all (R : string → option api_object → option api_object → Prop) (ids : list string) (st st' : api_state) : Prop :=
  (∀ n, n ∉ ids → st' !! n = st !! n) ∧ ∀ id, id ∈ ids → R id (st !! id) (st' !! id).
Lemma changes_for_each {S} k c ids (f : string → M S xop unit) R : NoDup ids →
  (∀ id, id ∈ ids → changes k c (f id) (only (R id) id)) → changes k c (for_each ids f) (only_all R ids).
Proof.
  intros Hnd Hf. induction Hnd as [|id ids Hid Hnd IH]; cbn [for_each].
  - apply changes_ret. intros st. split; [done|]. intros id Hin. by apply not_elem_of_nil in Hin.
  - eapply changes_mono; [|apply changes_then; [apply Hf; by left|intros _; apply IH; intros x Hx; apply Hf; by right]].
    intros st st' (st1 & [Hn HR] & [Hn' HR']). split.
    + intros n [? ?]%not_elem_of_cons. rewrite Hn' by done. by apply Hn.
    + intros x [->|Hx]%elem_of_cons; [by rewrite (Hn' id)|]. rewrite <-(Hn x) by (intros ->; done). by apply HR'.
Qed.

Lemma NewIndex_name {T} (items : list T) (getID : T → string) k x : NewIndex items getID !! k = Some x → getID x = k.
Proof.
  unfold NewIndex. rewrite NewIndex_lookup_app. destruct (last _) as [y|] eqn:Hl; [|by rewrite lookup_empty].
  intros [= <-]. apply last_Some_elem_of, list_elem_of_filter in Hl. tauto.
Qed.
Lemma NewIndex_dom {T} (items : list T) (getID : T → string) k :
  is_Some (NewIndex items getID !! k) ↔ k ∈ getID <$> items.
Proof.
  unfold NewIndex. rewrite NewIndex_lookup_app, lookup_empty, list_elem_of_fmap. split.
  - intros [x Hx]. destruct (last _) as [y|] eqn:Hl; [|done]. apply last_Some_elem_of, list_elem_of_filter in Hl as [<- ?]. eauto.
  - intros (x & -> & Hx). destruct (last _) as [y|] eqn:Hl; [by eexists|].
    apply last_None in Hl. assert (x ∈ filter (λ y, getID y = getID x) items) as Hin by by apply list_elem_of_filter.
    rewrite Hl in Hin. by apply not_elem_of_nil in Hin.
Qed.

Lemma Filter_dom `{MapRange} {T} (idx : Index T) keys k :
  is_Some (Filter idx keys !! k) ↔ is_Some (idx !! k) ∧ k ∈ keys.
Proof.
  unfold Filter. set (f := λ newIdx k', _).
  assert (∀ acc k', is_Some (f acc k' !! k) ↔ is_Some (acc !! k) ∨ (k = k' ∧ is_Some (idx !! k) ∧ k ∈ keys)) as Hstep.
  { intros acc k'. unfold f. pose proof (NewIndex_dom keys (λ s, s) k') as Hin. rewrite list_fmap_id in Hin.
    destruct (idx !! k') as [v|] eqn:Hv.
    - destruct (NewIndex keys _ !! k') as [x|] eqn:Hx.
      + assert (k' ∈ keys) by (apply Hin; by eexists). destruct (decide (k = k')) as [->|Hne].
        * rewrite lookup_insert_eq, Hv. split; eauto.
        * rewrite lookup_insert_ne by done. naive_solver.
      + split; [by left|]. intros [?|(-> & _ & [x Hk]%Hin)]; done.
    - split; [by left|]. intros [?|(-> & [x Hk] & _)]; [done|by rewrite Hv in Hk]. }
  assert (∀ l acc, is_Some (foldl f acc l !! k) ↔ is_Some (acc !! k) ∨ (k ∈ l ∧ is_Some (idx !! k) ∧ k ∈ keys)) as Hf.
  { induction l as [|k' l IH]; intros acc; cbn [foldl]; [set_solver|]. rewrite IH, Hstep. set_solver. }
  rewrite Hf, lookup_empty, range_keys_elem. split; [intros [[? [=]]|?]; tauto|tauto].
Qed.

(** ** The three loops over a difference of indices *)
Section index.
Context `{MapRange} {T : Type} (k : GenericClient) (c : mxclient) (cur : Index T)
  (ok : T → option api_object → api_object → Prop).

(** Exactly the objects of the index exist, as they should be given those there were. *)
Definition refines_index (st st' : api_state) : Prop :=
  ∀ id, match cur !! id with
        | Some x => ∃ o, st' !! id = Some o ∧ ok x (st !! id) o
        | None => st' !! id = None
        end.
Definition good (x : T) (a a' : option api_object) : Prop := ∃ o, a' = Some o ∧ ok x a o.
Definition good_at (id : string) (a a' : option api_object) : Prop := ∃ x, cur !! id = Some x ∧ good x a a'.

Lemma diff_refines l st st1 st2 st3 (d := Diff cur (NewIndex l d_ID)) :
  (∀ n, is_Some (st !! n) ↔ n ∈ d_ID <$> l) →
  only_all (λ id a a', a = None → good_at id a a') (Added d) st st1 →
  only_all (λ _ _ a, a = None) (Deleted d) st1 st2 →
  only_all (λ id a a', is_Some a → good_at id a a') (Rest d) st2 st3 →
  refines_index st st3.
Proof.
  intros Hl [Hn1 H1] [Hn2 H2] [Hn3 H3] id. set (idx := NewIndex l d_ID) in *.
  assert (is_Some (st !! id) ↔ is_Some (idx !! id)) as Hdom by by rewrite Hl, <-NewIndex_dom.
  pose proof (diff_correct cur idx) as [Hd _]. fold d in Hd. destruct (Hd id) as (HA & HD & HR).
  destruct (cur !! id) as [x|] eqn:Hx, (idx !! id) as [y|] eqn:Hy.
  - assert (st2 !! id = st !! id) as E by (rewrite Hn2, Hn1; [done|rewrite HA; naive_solver|rewrite HD; naive_solver]).
    destruct (H3 id) as (x' & Hx' & Ho); [by apply HR|rewrite E; by apply Hdom|]. rewrite E in Ho. by simplify_eq.
  - rewrite Hn3, Hn2; [|rewrite HD; intros [[? ?] _]; done|rewrite HR; intros [_ [? ?]]; done].
    destruct (H1 id) as (x' & Hx' & Ho); [by apply HA| |by simplify_eq].
    apply eq_None_not_Some. intros [? ?]%Hdom. done.
  - rewrite Hn3 by (rewrite HR; intros [[? ?] _]; done). by apply H2, HD.
  - rewrite Hn3, Hn2, Hn1; [|rewrite HA; intros [[? ?] _]; done|rewrite HD; intros [[? ?] _]; done|rewrite HR; intros [[? ?] _]; done].
    apply eq_None_not_Some. intros [? ?]%Hdom. done.
Qed.

(** The three loops lead to the objects of the index, if creating and patching lead to an object as it
    should be and deleting to none. *)
Lemma loops_refine l (create patch : string → T → M requestMaxScale xop unit) (del : Data → M requestMaxScale xop unit)
    (idx := NewIndex l d_ID) (d := Diff cur idx) :
  (∀ id x, cur !! id = Some x → changes k c (create id x) (only (λ a a', a = None → good x a a') id)) →
  (∀ id x, cur !! id = Some x → changes k c (patch id x) (only (λ a a', is_Some a → good x a a') id)) →
  (∀ x, changes k c (del x) (only (λ _ a', a' = None) (d_ID x))) →
  changes k c (reconcile_added cur (Added d) create ;;; reconcile_added idx (Deleted d) (λ _ x, del x) ;;;
               reconcile_added cur (Rest d) patch ;;; ret Result_zero)
    (λ st st', (∀ n, is_Some (st !! n) ↔ n ∈ d_ID <$> l) → refines_index st st').
Proof.
  intros Hc Hp Hx. pose proof (diff_correct cur idx) as [Hd Hs]. fold d in Hd, Hs. rewrite !Forall_cons in Hs.
  destruct Hs as ([_ Ha] & [_ Hdel] & [_ Hr] & _). unfold reconcile_added.
  eapply changes_mono; [|apply changes_then; [apply (changes_for_each _ _ _ _ (λ id a a', a = None → good_at id a a')); [done|]|
    intros _; apply changes_then; [apply (changes_for_each _ _ _ _ (λ _ _ a, a = None)); [done|]|
    intros _; apply changes_then; [apply (changes_for_each _ _ _ _ (λ id a a', is_Some a → good_at id a a')); [done|]|
    intros _; by apply (changes_ret _ _ _ eq)]]]].
  - intros st st' (st1 & H1 & st2 & H2 & st3 & H3 & <-) Hl. by apply (diff_refines l st st1 st2).
  - intros id [[x Hid] _]%Hd. unfold Get. rewrite Hid. eapply changes_mono; [|by apply Hc].
    intros st st' [? Hg]. split; [done|]. intros Hs'. exists x. auto.
  - intros id [[x Hid] _]%Hd. unfold Get. rewrite Hid. rewrite <-(NewIndex_name _ _ _ _ Hid). apply Hx.
  - intros id [[x Hid] _]%Hd. unfold Get. rewrite Hid. eapply changes_mono; [|by apply Hp].
    intros st st' [? Hg]. split; [done|]. intros Hs. exists x. auto.
Qed.

Lemma changes_delete {S} name : k ∈ configured_kinds →
  changes (S := S) k c (Delete k c name [WithForceQuery]) (only (λ _ a', a' = None) name).
Proof.
  intros Hk. apply changes_http. intros a st st' Hrun%run_one%rest_delete; [|done|by right]. subst st'.
  split; [|apply lookup_delete_eq].
  intros n Hn. by rewrite lookup_delete_ne by congruence.
Qed.
End index.
End rest.

#[local] Ltac kind := repeat first [apply list_elem_of_here|apply list_elem_of_further].

(** ** Servers *)
Section servers.
Context `{MapRange} {API : MaxScaleREST}.

(** A server of the API as the spec has it: the parameters of the operator and of the user, and
    whether it is in maintenance. *)
Definition as_in_spec (mxs : MaxScale) (srv : MaxScaleServer) (_ : option api_object) (a : api_object) : Prop :=
  ao_Maintenance a = mss_Maintenance srv ∧
  ∃ attrs, serverAttributes mxs srv = Ok attrs ∧ at_Parameters attrs ⊆ ao_Parameters a.

Lemma changes_state {S} c srv :
  changes (S := S) ServerClient c (updateServerState c srv)
    (λ st st', st' = alter (with_maintenance (mss_Maintenance srv)) (mss_Name srv) st).
Proof.
  unfold updateServerState, SetMaintenance, ClearMaintenance, Put. destruct (mss_Maintenance srv);
    apply changes_http; intros a st st' Hrun%run_one; [by apply rest_set in Hrun|by apply rest_clear in Hrun].
Qed.

Lemma changes_create {S} mxs c srv attrs : serverAttributes mxs srv = Ok attrs →
  changes (S := S) ServerClient c (createServer mxs c srv)
    (λ st st', st' = <[mss_Name srv := mkApiObject (at_Fields attrs) (at_Parameters attrs) None false]> st).
Proof.
  intros Ha. unfold createServer. rewrite Ha. intros s. do 3 wp_step. revert s.
  change (changes (S := S) ServerClient c (Create ServerClient c (mss_Name srv) attrs [])
    (λ st st', st' = <[mss_Name srv := mkApiObject (at_Fields attrs) (at_Parameters attrs) None false]> st)).
  apply changes_http. intros a st st' Hrun%run_one. apply rest_create in Hrun; [done|kind|done].
Qed.
Lemma changes_patch {S} mxs c srv attrs : serverAttributes mxs srv = Ok attrs →
  changes (S := S) ServerClient c (patchServer mxs c srv)
    (λ st st', st' = alter (λ a, { a with ao_Parameters := at_Parameters attrs ∪ ao_Parameters a }) (mss_Name srv) st).
Proof.
  intros Ha. unfold patchServer. rewrite Ha. intros s. do 3 wp_step. revert s.
  change (changes (S := S) ServerClient c (Patch ServerClient c (mss_Name srv) attrs [])
    (λ st st', st' = alter (λ a, { a with ao_Parameters := at_Parameters attrs ∪ ao_Parameters a }) (mss_Name srv) st)).
  apply changes_http. intros a st st' Hrun%run_one.
  apply (rest_patch ServerClient c (object_of _ _ _ (processOptions []))) in Hrun; [done|kind|done].
Qed.
Lemma serverAttributes_Ok mxs srv : ∃ attrs, serverAttributes mxs srv = Ok attrs.
Proof.
  unfold serverAttributes, maxScaleReplicationCustomOptions, mx_IsTLSEnabled. destruct (mtls_Enabled (mx_tls mxs)); cbn; [|eauto].
  destruct (IsReplicationSSLEnabled mxs); cbn; [destruct (default _ _); cbn|]; eauto.
Qed.

Lemma added_server {S} mxs c id srv : ServerIndex mxs !! id = Some srv →
  changes (S := S) ServerClient c
    (wrap "error creating server" (createServer mxs c srv) ;;;
     wrap "error updating server state" (updateServerState c srv))
    (only (λ a a', a = None → good (as_in_spec mxs) srv a a') id).
Proof.
  intros Hsrv. destruct (serverAttributes_Ok mxs srv) as [attrs Ha].
  pose proof (NewIndex_name _ _ _ _ Hsrv) as Hname. cbn in Hname.
  eapply changes_mono; [|apply changes_then; [apply changes_wrap, changes_create; exact Ha|
    intros _; apply changes_wrap, changes_state]]. rewrite Hname.
  intros st st' (st1 & -> & ->). split.
  - intros n Hn. by rewrite lookup_alter_ne, lookup_insert_ne by congruence.
  - rewrite lookup_alter_eq, lookup_insert_eq. eexists. split; [done|].
    split; [done|]. exists attrs. split; [done|]. apply (reflexivity (R := (⊆))).
Qed.
Lemma kept_server {S} mxs c id srv : ServerIndex mxs !! id = Some srv →
  changes (S := S) ServerClient c
    (wrap "error patching server" (patchServer mxs c srv) ;;;
     wrap "error updating server state" (updateServerState c srv))
    (only (λ a a', is_Some a → good (as_in_spec mxs) srv a a') id).
Proof.
  intros Hsrv. destruct (serverAttributes_Ok mxs srv) as [attrs Ha].
  pose proof (NewIndex_name _ _ _ _ Hsrv) as Hname. cbn in Hname.
  eapply changes_mono; [|apply changes_then; [apply changes_wrap, changes_patch; exact Ha|
    intros _; apply changes_wrap, changes_state]]. rewrite Hname.
  intros st st' (st1 & -> & ->). split.
  - intros n Hn. by rewrite !lookup_alter_ne by congruence.
  - intros [o Ho]. rewrite !lookup_alter_eq, Ho. eexists. split; [done|].
    split; [done|]. exists attrs. split; [done|]. cbn. apply map_union_subseteq_l.
Qed.

(** C11: when the reconciliation of the servers succeeds, the MaxScale has exactly the servers of the
    spec, each with the parameters of the spec and in maintenance exactly if the spec says so,
    whatever servers it had before and however they had been configured. What the requests do is what
    the documentation of the API says ([MaxScaleREST]). *)
Theorem servers_refine_spec (c : mxclient) (rq : requestMaxScale) :
  wpM (reconcileServers (Some c)) rq (λ t rq' r, rq' = rq ∧
    (is_ok r = true → ∀ st st', api_run ServerClient c (requests t) st st' →
     refines_index (ServerIndex (rq_mxs rq)) (as_in_spec (rq_mxs rq)) st st')).
Proof.
  unfold reconcileServers, get_mxs. do 4 wp_step. cbn [app].
  wp_step. wp_step. unfold ListIndex, List_. wp_step. apply wpM_call_http.
  intros [l|code msg|msg]; cbn [of_agent]; [|done|done]. wp_step.
  eapply wpM_mono; [|apply (loops_refine ServerClient c (ServerIndex (rq_mxs rq)) (as_in_spec (rq_mxs rq)) l _ _
    (λ x, wrap "error deleting server" (deleteServer c (d_ID x))))].
  - intros t rq' r [-> Hok]. split; [done|].
    intros Hr st st' Hrun. change (requests (?e :: ?t)) with (RList c "servers" l :: requests t) in Hrun.
    apply run_cons in Hrun as (st0 & [-> Hl]%(step_list ServerClient) & Hrun). by eapply Hok.
  - intros id srv Hsrv. by apply added_server.
  - intros id srv Hsrv. by apply kept_server.
  - intros x. apply changes_wrap, changes_delete. kind.
Qed.
End servers.

(** An API server on which nothing but the MariaDB exists. *)
Definition missing {T} : result T := Err (ErrApi NotFound).
Definition lonely_svc (m : MariaDB) {X} (o : vop X) : X :=
  match o in vop X return X with VBase o => friendly m [] 0 o | _ => missing end.
Definition lonely_sts (m : MariaDB) {X} (o : stop X) : X :=
  match o in stop X return X with TBase o => friendly m [] 0 o | _ => missing end.
Definition lonely_init (m : MariaDB) {X} (o : iop X) : X :=
  match o in iop X return X with IBase o => lonely_sts m o | _ => missing end.
Definition lonely_ph (m : MariaDB) {X} (o : phop X) : X :=
  match o in phop X return X with HSvc o => lonely_svc m o | HIni o => lonely_init m o | _ => missing end.
Definition lonely_cert (m : MariaDB) {X} (o : certop X) : X :=
  match o in certop X return X with
  | CBase o => friendly m [] 0 o
  | CPki o => match o in pkiop X return X with PkiNow => 0 | _ => missing end
  | CRecordEvent _ => tt
  | _ => missing
  end.
Definition lonely_x (m : MariaDB) {X} (o : xop X) : X :=
  match o in xop X return X with
  | XPh o => lonely_ph m o
  | XCert o => lonely_cert m o
  | XSts o => lonely_sts m o
  | XSql _ o => friendly m [] 0 o
  | XList _ _ | XGet _ _ | XGetAttributes _ _ | XSend _ _ _ _ _ => AgentFail "no route to host"
  | _ => missing
  end.

(** An API that lists these objects of the kind, and those servers. *)
Definition api_ex (path : string) (l servers : list Data) : env xop :=
  Env xop (λ X _ o, match o in xop X return X with
                    | XList _ p => AgentOk (if bool_decide (p = path) then l else servers)
                    | XSend _ _ _ _ _ => AgentOk tt
                    | o => lonely_x (MariaDB_zero meta_ex) o
                    end) (λ _, false).

(** The spec has [s1], in maintenance, and [s2]; the MaxScale has [s2], in maintenance, and [s3]. *)
Definition server_ex (name : string) (maintenance : bool) : MaxScaleServer :=
  mkMaxScaleServer name (name +:+ ".default") 3306 "MariaDBBackend" maintenance ∅.
Definition servers_rq_ex : requestMaxScale :=
  mkRequest { MaxScale_zero (mkObjectMeta "maxscale" "default" "" ∅ ∅) with
    mx_Spec -> mxs_Servers := Some [server_ex "s1" true; server_ex "s2" false] } None None.
Definition api_client_ex : mxclient := mkClient "https://maxscale" "admin" "secret".
Definition server_object_ex (name : string) (maintenance : bool) : api_object :=
  mkApiObject ∅ {[ "address" := JStr (name +:+ ".default"); "port" := JInt 3306; "protocol" := JStr "MariaDBBackend" ]}
    None maintenance.
Definition servers_before_ex : api_state :=
  {[ "s2" := server_object_ex "s2" true; "s3" := server_object_ex "s3" false ]}.
Definition servers_after_ex : api_state :=
  {[ "s1" := server_object_ex "s1" true; "s2" := server_object_ex "s2" false ]}.
Definition server_body_ex (name : string) : Object :=
  mkObject name ObjectTypeServers (mkAttributes ∅ (ao_Parameters (server_object_ex name false))) None.
Definition servers_trace_ex : xtrace :=
  let send m path q body := Ev (XSend api_client_ex m path q body) (AgentOk tt) in
  [Ev (XList api_client_ex "servers") (AgentOk [mkData "s2" "Maintenance"; mkData "s3" "Running"]);
   send POST "servers" ∅ (Some (server_body_ex "s1")); send PUT "servers/s1/set" maintenance_query None;
   send DELETE "servers/s3" {[ "force" := "true" ]} None;
   send PATCH "servers/s2" ∅ (Some (server_body_ex "s2")); send PUT "servers/s2/clear" maintenance_query None].
Lemma servers_refine_spec_witness :
  api_run ServerClient api_client_ex (requests servers_trace_ex) servers_before_ex servers_after_ex ∧
  refines_index (ServerIndex (rq_mxs servers_rq_ex)) (as_in_spec (rq_mxs servers_rq_ex)) servers_before_ex servers_after_ex.
Proof.
  assert (api_run ServerClient api_client_ex (requests servers_trace_ex) servers_before_ex servers_after_ex) as Hrun.
  { apply (api_next _ _ _ _ _ servers_before_ex).
    { apply d_read. intros _ n. rewrite <-elem_of_dom. unfold servers_before_ex. set_solver. }
    eapply api_next; [apply d_create|]. eapply api_next; [apply (d_set ServerClient api_client_ex "s1")|].
    eapply api_next; [apply (d_delete ServerClient api_client_ex "s3")|].
    eapply api_next; [apply (d_patch ServerClient api_client_ex (server_body_ex "s2"))|]. eapply api_next; [apply (d_clear ServerClient api_client_ex "s2")|].
    match goal with |- api_run _ _ [] ?s _ => replace s with servers_after_ex by by vm_compute end. apply api_done. }
  split; [exact Hrun|].
  pose proof (wp_sound _ _ (servers_refine_spec api_client_ex servers_rq_ex)
    (api_ex "servers" [mkData "s2" "Maintenance"; mkData "s3" "Running"] []) []) as Hw.
  destruct Hw as [_ Hok]. refine (Hok _ _ _ _); [by vm_compute|].
  match goal with |- api_run _ _ (requests ?t) _ _ => replace t with servers_trace_ex by by vm_compute end. exact Hrun.
Defined.

(** ** Services and listeners *)
Section services.
Context `{MapRange} {API : MaxScaleREST}.

(** A step that sends no request, before the one that does. *)
Lemma changes_after {S A B} k c (m : M S xop A) (f : A → M S xop B) (P : A → Prop) R :
  (∀ s, wpM m s (λ t s' r, s' = s ∧ requests t = [] ∧ ∀ a, r = Ok a → P a)) →
  (∀ a, P a → changes k c (f a) R) → changes k c (bind m f) R.
Proof.
  intros Hm Hf s. wp_step. eapply wpM_mono; [|apply Hm]. intros t s1 [a|e] (-> & Ht & Ha); [|done].
  eapply wpM_mono; [|apply Hf; eauto]. intros t' s' r. by rewrite requests_app, Ht.
Qed.

(** An object as a kind of spec wants it: relationships, and attributes of which the parameters are
    set and the other fields stay as the object had them, if there was one. *)
Definition as_wanted (P : Attributes → Prop) (rels : Relationships) (prev : option api_object) (a : api_object) : Prop :=
  ao_Relationships a = Some rels ∧ ∃ attrs, P attrs ∧ at_Parameters attrs ⊆ ao_Parameters a ∧
    ao_Fields a = match prev with Some b => ao_Fields b | None => at_Fields attrs end.
(** An object that did not exist. *)
Definition creates (P : Attributes → Prop) (rels : Relationships) (a a' : option api_object) : Prop :=
  a = None → ∃ o, a' = Some o ∧ as_wanted P rels a o.
Definition patches (P : Attributes → Prop) (rels : Relationships) (a a' : option api_object) : Prop :=
  is_Some a → ∃ o, a' = Some o ∧ as_wanted P rels a o.
Lemma changes_Create {S} k c name attrs rels (P : Attributes → Prop) : k ∈ configured_kinds → P attrs →
  changes (S := S) k c (Create k c name attrs [WithRelationships rels]) (only (creates P rels) name).
Proof.
  intros Hk HP. apply changes_http. intros a st st' Hrun%run_one%rest_create; [|done|done]. subst st'. split.
  - intros n Hn. by apply lookup_insert_ne.
  - intros ->. eexists. split; [apply lookup_insert_eq|]. split; [done|]. exists attrs.
    split; [done|]. split; [apply (reflexivity (R := (⊆)))|done].
Qed.
Lemma changes_Patch {S} k c name attrs rels (P : Attributes → Prop) : k ∈ configured_kinds → P attrs →
  changes (S := S) k c (Patch k c name attrs [WithRelationships rels]) (only (patches P rels) name).
Proof.
  intros Hk HP. apply changes_http. intros a st st' Hrun%run_one.
  apply (rest_patch k c (object_of k name attrs (processOptions [WithRelationships rels]))) in Hrun; [|done|done].
  subst st'. split.
  - intros n Hn. by apply lookup_alter_ne.
  - intros [o Ho]. cbn. rewrite lookup_alter_eq, Ho. eexists. split; [done|]. split; [done|]. exists attrs.
    split; [done|]. split; [cbn; apply map_union_subseteq_l|done].
Qed.

(** The attributes of a service: its router, and its parameters with some password. *)
Definition service_attributes (mxs : MaxScale) (svc : MaxScaleService) (attrs : Attributes) : Prop :=
  at_Fields attrs = {[ "router" := JStr (msv_Router svc) ]} ∧
  ∃ password, at_Parameters attrs = ServiceParameters_MarshalJSON
    (mkServiceParameters (au_ServerUsername (mxs_Auth (mx_Spec mxs))) password (msv_Params svc)).
Definition service_as_in_spec (mxs : MaxScale) (rels : Relationships) (svc : MaxScaleService) :
    option api_object → api_object → Prop :=
  as_wanted (service_attributes mxs svc) rels.

Lemma serviceAttributes_spec {S} mxs svc (s : S) :
  wpM (serviceAttributes mxs svc) s (λ t s' r, s' = s ∧ requests t = [] ∧
    ∀ attrs, r = Ok attrs → service_attributes mxs svc attrs).
Proof.
  unfold serviceAttributes, secret_key, xbase, vbase. wp_step. wp_step. do 2 apply wpM_hoist. apply wpM_call.
  intros [password|e]; cbn [wrap_err]; [|done]. wp_step. split; [done|]. split; [done|]. intros attrs [= <-].
  split; [done|]. by exists password.
Qed.
Lemma service_sent {S} mxs c svc ctx (send : Attributes → M S xop unit) R :
  (∀ attrs, service_attributes mxs svc attrs → changes ServiceClient c (send attrs) R) →
  changes (S := S) ServiceClient c (wrap ctx (attrs <- wrap "error getting service attributes" (serviceAttributes mxs svc) ;; send attrs)) R.
Proof.
  intros Hf. apply changes_wrap. eapply changes_after; [intros s; wp_step; eapply wpM_mono; [|apply serviceAttributes_spec]|exact Hf].
  intros t s' r (Hs & Ht & Hr). split; [exact Hs|]. split; [exact Ht|]. intros a Ha%wrap_err_Ok. exact (Hr a Ha).
Qed.
Lemma added_service {S} mxs c rels svc id : ServiceIndex mxs !! id = Some svc →
  changes (S := S) ServiceClient c (wrap "error creating service" (createService mxs c svc rels))
    (only (λ a a', a = None → good (service_as_in_spec mxs rels) svc a a') id).
Proof.
  intros <-%NewIndex_name. apply (service_sent mxs c). intros attrs Ha. apply changes_Create; [kind|done].
Qed.
Lemma kept_service {S} mxs c rels svc id : ServiceIndex mxs !! id = Some svc →
  changes (S := S) ServiceClient c (wrap "error patching service" (patchService mxs c svc rels))
    (only (λ a a', is_Some a → good (service_as_in_spec mxs rels) svc a a') id).
Proof.
  intros <-%NewIndex_name. apply (service_sent mxs c). intros attrs Ha. apply changes_Patch; [kind|done].
Qed.

(** The relationships name the servers of the spec that exist, each once. *)
Definition routes_to (mxs : MaxScale) (l : list Data) (rels : Relationships) : Prop :=
  ∃ names, rels = WithServers names NewRelationshipsBuilder ∧ NoDup names ∧
    ∀ n, n ∈ names ↔ is_Some (ServerIndex mxs !! n) ∧ n ∈ d_ID <$> l.

Lemma serverRelationships_spec {S} mxs c (s : S) :
  wpM (serverRelationships mxs c) s (λ t s' r, s' = s ∧
    ∀ rels, r = Ok rels → ∃ l, t = [Ev (XList c "servers") (AgentOk l)] ∧ routes_to mxs l rels).
Proof.
  unfold serverRelationships, ListIndex, List_. do 2 wp_step. apply wpM_call_http.
  intros [l|code msg|msg]; cbn [of_agent]; [|done|done]. do 2 wp_step. split; [done|].
  intros rels [= <-]. exists l. split; [done|]. eexists. split; [done|]. split; [apply sort_Strings_NoDup, range_keys_NoDup|].
  intros n. rewrite sort_Strings_elem. unfold Keys, ServerIDs. rewrite range_keys_elem, Filter_dom, NewIndex_dom.
  unfold Keys. rewrite range_keys_elem. tauto.
Qed.

(** C10: when the reconciliation of the services succeeds, the MaxScale has exactly the services of the
    spec, each with its parameters and with all the servers of the spec that existed then as its
    targets, whatever services it had before; a new one has the router of the spec, another the router
    it had. What the requests do is what the documentation of the API says ([MaxScaleREST]). *)
Theorem services_refine_spec (c : mxclient) (rq : requestMaxScale) :
  wpM (reconcileServices (Some c)) rq (λ t rq' r, rq' = rq ∧
    (is_ok r = true → ∃ l rels, Ev (XList c "servers") (AgentOk l) ∈ t ∧ routes_to (rq_mxs rq) l rels ∧
     ∀ st st', api_run ServiceClient c (requests t) st st' →
     refines_index (ServiceIndex (rq_mxs rq)) (service_as_in_spec (rq_mxs rq) rels) st st')).
Proof.
  unfold reconcileServices, get_mxs. do 4 wp_step. cbn [app].
  wp_step. wp_step. unfold ListIndex, List_. wp_step. apply wpM_call_http.
  intros [l|code msg|msg]; cbn [of_agent]; [|done|done]. wp_step.
  wp_step. wp_step. eapply wpM_mono; [|apply serverRelationships_spec].
  intros t0 rq0 [rels|e] [-> Hrels]; cbn [wrap_err]; [|done]. destruct (Hrels rels eq_refl) as (l' & -> & Hto).
  eapply wpM_mono; [|apply (loops_refine ServiceClient c (ServiceIndex (rq_mxs rq)) (service_as_in_spec (rq_mxs rq) rels) l _ _
    (λ x, wrap "error deleting service" (deleteService c (d_ID x))))].
  - intros t rq' r [-> Hok]. split; [done|]. intros Hr. exists l', rels. split; [set_solver|]. split; [done|].
    intros st st' Hrun. change (requests (?e :: ?e' ++ ?t)) with (RList c "services" l :: RList c "servers" l' :: requests t) in Hrun.
    apply run_cons in Hrun as (st0 & [-> Hl]%(step_list ServiceClient) & Hrun).
    apply run_cons in Hrun as (st1 & ->%rest_read & Hrun). by eapply Hok.
  - intros id svc Hsvc. by apply added_service.
  - intros id svc Hsvc. by apply kept_service.
  - intros x. apply changes_wrap, changes_delete. kind.
Qed.

(** A listener belongs to the service that has it, whose name the code looks up. *)
Definition listener_attributes (mxs : MaxScale) (lis : MaxScaleListener) (attrs : Attributes) : Prop :=
  attrs = listenerAttributes mxs lis.
Definition listener_as_in_spec (mxs : MaxScale) (lis : MaxScaleListener) (prev : option api_object) (a : api_object) : Prop :=
  ∃ svc, ServiceForListener mxs (lis_Name lis) = Ok svc ∧
    as_wanted (listener_attributes mxs lis) (serviceRelationships svc) prev a.

Lemma ServiceForListener_Ok mxs id lis : ListenerIndex mxs !! id = Some lis → ∃ svc, ServiceForListener mxs id = Ok svc.
Proof.
  intros Hl. assert (is_Some (ListenerIndex mxs !! id)) as Hin by by eexists.
  apply NewIndex_dom in Hin. unfold Listeners in Hin. rewrite <-list_fmap_compose in Hin.
  apply list_elem_of_fmap in Hin as (svc & -> & Hsvc). unfold ServiceForListener.
  destruct (list_find _ _) as [[i svc']|] eqn:Hf; [by eexists|]. apply list_find_None in Hf.
  rewrite Forall_forall in Hf. by destruct (Hf _ Hsvc).
Qed.
Lemma changes_listener {S} mxs c id lis (f : Relationships → M S xop unit) (R : Relationships → option api_object → option api_object → Prop) R' :
  ListenerIndex mxs !! id = Some lis →
  (∀ rels, changes ListenerClient c (f rels) (only (R rels) (lis_Name lis))) →
  (∀ svc a a', ServiceForListener mxs (lis_Name lis) = Ok svc → R (serviceRelationships svc) a a' → R' a a' : Prop) →
  changes ListenerClient c
    (match ServiceForListener mxs id with Ok svc => f (serviceRelationships svc) | Err _ => ret tt end) (only R' id).
Proof.
  intros Hl Hf HR. destruct (ServiceForListener_Ok _ _ _ Hl) as [svc Hsvc]. pose proof (NewIndex_name _ _ _ _ Hl) as Hname.
  rewrite Hsvc. eapply changes_mono; [|apply Hf]. rewrite Hname. intros st st' [Hn Hr]. split; [done|].
  eapply HR; [|done]. by rewrite Hname.
Qed.

(** When the reconciliation of the listeners succeeds, the MaxScale has exactly the listeners of the
    services of the spec, each with its parameters and with its service. *)
Theorem listeners_refine_spec (c : mxclient) (rq : requestMaxScale) :
  wpM (reconcileListeners (Some c)) rq (λ t rq' r, rq' = rq ∧
    (is_ok r = true → ∀ st st', api_run ListenerClient c (requests t) st st' →
     refines_index (ListenerIndex (rq_mxs rq)) (listener_as_in_spec (rq_mxs rq)) st st')).
Proof.
  unfold reconcileListeners, get_mxs. do 4 wp_step. cbn [app].
  wp_step. wp_step. unfold ListIndex, List_. wp_step. apply wpM_call_http.
  intros [l|code msg|msg]; cbn [of_agent]; [|done|done]. wp_step.
  eapply wpM_mono; [|apply (loops_refine ListenerClient c (ListenerIndex (rq_mxs rq)) (listener_as_in_spec (rq_mxs rq)) l _ _
    (λ x, wrap "error " (deleteListener c (d_ID x))))].
  - intros t rq' r [-> Hok]. split; [done|].
    intros Hr st st' Hrun. change (requests (?e :: ?t)) with (RList c "listeners" l :: requests t) in Hrun.
    apply run_cons in Hrun as (st0 & [-> Hl]%(step_list ListenerClient) & Hrun). by eapply Hok.
  - intros id lis Hlis. unfold with_service.
    eapply (changes_listener _ _ _ _ (λ rels, wrap _ (createListener _ c lis rels)));
      [done|intros rels; apply changes_wrap, (changes_Create _ _ _ _ _ (listener_attributes (rq_mxs rq) lis)); [kind|done]|].
    intros svc a a' Hsvc Ho Ha. destruct (Ho Ha) as (o & -> & Ho'). exists o. split; [done|]. by exists svc.
  - intros id lis Hlis. unfold with_service.
    eapply (changes_listener _ _ _ _ (λ rels, wrap _ (patchListener _ c lis rels)));
      [done|intros rels; apply changes_wrap, (changes_Patch _ _ _ _ _ (listener_attributes (rq_mxs rq) lis)); [kind|done]|].
    intros svc a a' Hsvc Ho Ha. destruct (Ho Ha) as (o & -> & Ho'). exists o. split; [done|]. by exists svc.
  - intros x. apply changes_wrap, changes_delete. kind.
Qed.
End services.

(** The spec has [rw] and [ro]; the MaxScale has [rw], with another router, and [old], and of the
    servers of the spec only [s2]. *)
Definition service_ex (name router : string) : MaxScaleService :=
  mkMaxScaleService false name router (mkMaxScaleListener false name 3306 "MariaDBProtocol" ∅) ∅.
Definition services_rq_ex : requestMaxScale :=
  mkRequest { rq_mxs servers_rq_ex with
    mx_Spec -> mxs_Services := [service_ex "rw" "readwritesplit"; service_ex "ro" "readconnroute"];
    mx_Spec -> mxs_Auth := { MaxScaleAuth_zero with au_ServerUsername := "server" } } None None.
Definition targets_ex : Relationships := WithServers ["s2"] NewRelationshipsBuilder.
Definition service_object_ex (router : string) (rels : option Relationships) : api_object :=
  mkApiObject {[ "router" := JStr router ]} {[ "user" := JStr "server"; "password" := JStr "secret" ]} rels false.
Definition service_body_ex (name router : string) : Object :=
  let o := service_object_ex router None in
  mkObject name ObjectTypeServices (mkAttributes (ao_Fields o) (ao_Parameters o)) (Some targets_ex).
Definition services_before_ex : api_state :=
  {[ "old" := service_object_ex "readconnroute" None; "rw" := service_object_ex "schemarouter" None ]}.
Definition services_after_ex : api_state :=
  {[ "ro" := service_object_ex "readconnroute" (Some targets_ex); "rw" := service_object_ex "schemarouter" (Some targets_ex) ]}.
Definition services_run_ex : xtrace * (requestMaxScale * result ctrl_Result) :=
  run (api_ex "services" [mkData "old" "Started"; mkData "rw" "Started"] [mkData "s2" "Running"; mkData "s3" "Running"])
    (reconcileServices (Some api_client_ex) services_rq_ex) [].
Lemma services_refine_spec_witness :
  is_ok services_run_ex.2.2 = true ∧
  api_run ServiceClient api_client_ex (requests services_run_ex.1) services_before_ex services_after_ex ∧
  ∃ l rels, routes_to (rq_mxs services_rq_ex) l rels ∧
    refines_index (ServiceIndex (rq_mxs services_rq_ex)) (service_as_in_spec (rq_mxs services_rq_ex) rels)
      services_before_ex services_after_ex.
Proof.
  assert (requests services_run_ex.1 =
    [RList api_client_ex "services" [mkData "old" "Started"; mkData "rw" "Started"];
     RList api_client_ex "servers" [mkData "s2" "Running"; mkData "s3" "Running"];
     RSend api_client_ex POST "services" ∅ (Some (service_body_ex "ro" "readconnroute"));
     RSend api_client_ex DELETE "services/old" {[ "force" := "true" ]} None;
     RSend api_client_ex PATCH "services/rw" ∅ (Some (service_body_ex "rw" "readwritesplit"))]) as E by by vm_compute.
  assert (api_run ServiceClient api_client_ex (requests services_run_ex.1) services_before_ex services_after_ex) as Hrun.
  { rewrite E. clear E. apply (api_next _ _ _ _ _ services_before_ex).
    { apply d_read. intros _ n. rewrite <-elem_of_dom. unfold services_before_ex. set_solver. }
    apply (api_next _ _ _ _ _ services_before_ex); [by apply d_read|].
    eapply api_next; [apply (d_create ServiceClient api_client_ex (service_body_ex "ro" "readconnroute"))|].
    eapply api_next; [apply (d_delete ServiceClient api_client_ex "old")|].
    eapply api_next; [apply (d_patch ServiceClient api_client_ex (service_body_ex "rw" "readwritesplit"))|].
    match goal with |- api_run _ _ [] ?s _ => replace s with services_after_ex by by vm_compute end. apply api_done. }
  split; [by vm_compute|]. split; [exact Hrun|].
  pose proof (wp_sound _ _ (services_refine_spec api_client_ex services_rq_ex)
    (api_ex "services" [mkData "old" "Started"; mkData "rw" "Started"] [mkData "s2" "Running"; mkData "s3" "Running"]) []) as Hw.
  destruct Hw as [_ Hok]. destruct Hok as (l & rels & _ & Hto & Hr); [by vm_compute|].
  exists l, rels. split; [exact Hto|]. apply Hr. exact Hrun.
Defined.

(** Parts of the controller without acts of some kind. *)
Section calm.
Context {act : Type} (act_of : event xop → option act).
Lemma calm_hoist {E : Type → Type} (f : ∀ X, E X → xop X) {S A} (m : M S E A) :
  (∀ X (o : E X) x, act_of (Ev (f X o) x) = None) → alwaysM (calm act_of) (hoistM f m).
Proof.
  intros Hf. apply alwaysM_hoist. intros s.
  induction (m s) as [a|X e k IH|k IH]; cbn; [done|intros x; split; [apply Hf|apply IH]|done].
Qed.
Lemma calm_http {S X} (e : xop (agent_reply X)) :
  (∀ x, act_of (Ev e x) = None) → alwaysM (calm act_of) (call_http (S := S) e).
Proof. intros He s x. split; [apply He|done]. Qed.
End calm.

Ltac mx_calm_step :=
  lazymatch goal with
  | |- alwaysM _ (hoistM _ _) => apply calm_hoist; intros; solve [reflexivity|cbv beta; auto]
  | |- alwaysM _ (call_http _) => apply calm_http; intros; cbn; try (case_bool_decide; [discriminate|]); reflexivity
  | |- alwaysM _ (for_each_result _ _) => apply alwaysM_for_each_result; intros ? ?
  | |- alwaysM _ (clients_by_pod _ _ _ _) => idtac
  | _ => always_step
  end.
Lemma clients_calm `{MapRange} {act : Type} (act_of : event xop → option act) CLUSTER_NAME mxs l set :
  (∀ X (o : phop X) x, act_of (Ev (XPh o) x) = None) → (∀ url tls x, act_of (Ev (XNewClient url tls) x) = None) →
  alwaysM (calm act_of) (clients_by_pod CLUSTER_NAME mxs l set).
Proof.
  intros Hph Hnew. revert set. induction l as [|i l IH]; intros set; cbn [clients_by_pod]; [apply alwaysM_ret|].
  apply alwaysM_bind; [repeat mx_calm_step; unfold calm; auto|intros c; apply IH].
Qed.
Ltac mx_calm := repeat
  lazymatch goal with
  | |- alwaysM _ (clients_by_pod _ _ _ _) => apply clients_calm; intros; reflexivity
  | _ => mx_calm_step
  end; try reflexivity.

(** ** What is destroyed *)
(** The default administrator and the volumes. *)
Inductive mx_act := DeletesAdmin (c : mxclient) | DeletesVolumes.
Definition mx_act_of (e : event xop) : option mx_act :=
  match ev_op e with
  | XSend c DELETE path _ _ =>
      if bool_decide (path = resourcePath UserClient defaultAdminUser) then Some (DeletesAdmin c) else None
  | XDeleteAllPVCs _ _ => Some DeletesVolumes
  | _ => None
  end.
Definition mx_needs (key : NamespacedName) (a : mx_act) (pre : xtrace) : Prop :=
  match a with
  | DeletesAdmin c => ∃ name password,
      Ev (XSend c POST (gc_path UserClient) ∅ (Some (mkObject name ObjectTypeUsers
        (mkAttributes {[ "account" := JStr "admin"; "password" := JStr password ]} ∅) None))) (AgentOk tt) ∈ pre
  | DeletesVolumes => ∃ m, Ev (XGetMaxScale key) (Ok m) ∈ pre ∧ mx_Deleting m = true
  end.

Section destroys.
Context `{MapRange} `{SliceSort} `{StatusConditions} `{X509} (CLUSTER_NAME : string) (env : OperatorEnv).
Context (HashServers : option (list MaxScaleServer) → string) (HashMonitor : MaxScaleMonitor → string).
Context (HashServices : list MaxScaleService → string) (SuspendEnabled : bool) (RequeueInterval : Z).
Context (key : NamespacedName).

Abbreviation calmM := (alwaysM (calm mx_act_of)).
Definition safeM {A} (m : M requestMaxScale xop A) : Prop :=
  ∀ s pre, wpM m s (λ t _ _, safe mx_act_of (mx_needs key) pre t).

Lemma safeM_calm {A} (m : M requestMaxScale xop A) : calmM m → safeM m.
Proof. intros Hm s pre. eapply wpM_mono; [|by apply alwaysM_wpM]. intros t ? ?. by apply safe_calm. Qed.
Lemma safe_then {A B} (m : M requestMaxScale xop A) (f : A → M requestMaxScale xop B) s pre :
  wpM m s (λ t _ _, safe mx_act_of (mx_needs key) pre t) → (∀ a, safeM (f a)) →
  wpM (bind m f) s (λ t _ _, safe mx_act_of (mx_needs key) pre t).
Proof.
  intros Hm Hf. wp_step. eapply wpM_mono; [|apply Hm]. intros t s' [a|e] Ht; [|exact Ht].
  eapply wpM_mono; [|apply Hf]. intros t' ? ?. by apply safe_app.
Qed.
Lemma safeM_bind {A B} (m : M requestMaxScale xop A) (f : A → M requestMaxScale xop B) :
  safeM m → (∀ a, safeM (f a)) → safeM (bind m f).
Proof. intros Hm Hf s pre. by apply safe_then. Qed.
Lemma safeM_try {A} (m : M requestMaxScale xop A) : safeM m → safeM (try m).
Proof. intros Hm s pre. wp_step. apply Hm. Qed.
Lemma safeM_wrap {A} ctx (m : M requestMaxScale xop A) : safeM m → safeM (wrap ctx m).
Proof. intros Hm s pre. wp_step. apply Hm. Qed.

Lemma reconcileAdminInPod_safe mxs i c : safeM (reconcileAdminInPod CLUSTER_NAME mxs i c).
Proof.
  unfold reconcileAdminInPod. apply safeM_bind; [apply safeM_calm; mx_calm|]. intros [d|err]; [apply safeM_calm; mx_calm|].
  destruct (negb _ && _); [apply safeM_calm; mx_calm|].
  apply safeM_bind; [apply safeM_calm; mx_calm|]. intros dc. apply safeM_bind; [apply safeM_calm; mx_calm|]. intros password.
  intros s pre. wp_step. wp_step. unfold createAdminUser, Create. apply wpM_call_http. cbn.
  intros [[]|code msg|msg]; cbn [of_agent wrap_err]; [|apply safe_calm; by repeat constructor..].
  match goal with |- wpM _ _ (λ t _ _, safe _ _ _ (?e :: _)) => set (ev := e) end.
  assert (∀ t, safe mx_act_of (mx_needs key) (pre ++ [ev]) t → safe mx_act_of (mx_needs key) pre (ev :: t)) as Hcons.
  { intros t Ht. apply (safe_app _ _ _ [ev]); [apply safe_calm; by repeat constructor|done]. }
  destruct (default false _); [|wp_step; apply Hcons, safe_calm; by constructor].
  wp_step. unfold DeleteDefaultAdmin, Delete. apply wpM_call_http. intros r. apply Hcons, safe_one.
  cbn. rewrite bool_decide_eq_true_2 by done. intros a [= <-]. cbn. eexists _, password. apply elem_of_app. right. by left.
Qed.

Lemma safeM_for_each_result {A} (l : list A) (f : A → M requestMaxScale xop ctrl_Result) :
  (∀ x, safeM (f x)) → safeM (for_each_result l f).
Proof.
  intros Hf. induction l as [|x l IH]; cbn [for_each_result]; [by apply safeM_calm, alwaysM_ret|].
  apply safeM_bind; [apply Hf|]. intros r. destruct (negb _); [by apply safeM_calm, alwaysM_ret|exact IH].
Qed.
Lemma mx_reconcileAdmin_safe : safeM (mx_reconcileAdmin CLUSTER_NAME).
Proof.
  unfold mx_reconcileAdmin. apply safeM_bind; [apply safeM_calm; mx_calm|]. intros mxs.
  apply safeM_bind; [|intros r; apply safeM_calm; mx_calm].
  unfold forEachPod. apply safeM_bind; [apply safeM_calm; mx_calm|]. intros rq.
  destruct (rq_podClientSet rq) as [set|]; [|apply safeM_calm; mx_calm]. apply safeM_for_each_result. intros i. cbn zeta.
  destruct (set !! _) as [c|]; [|apply safeM_calm; mx_calm].
  apply safeM_bind; [apply safeM_wrap, reconcileAdminInPod_safe|]. intros _. apply safeM_calm. mx_calm.
Qed.

Lemma reconcileInitInPod_calm mxs c : calmM (reconcileInitInPod mxs c).
Proof.
  unfold reconcileInitInPod. apply alwaysM_bind; [mx_calm|]. intros should. destruct (negb _); [mx_calm|].
  apply alwaysM_for_each_result. intros f Hf. repeat apply elem_of_cons in Hf as [->|Hf]; [mx_calm..|by apply not_elem_of_nil in Hf].
Qed.

(** The phases between the first and Admin, and those after Admin, destroy nothing. *)
Lemma other_phases_calm name m :
  (name, m) ∈ tail (mx_phases CLUSTER_NAME env HashServers HashMonitor HashServices SuspendEnabled) →
  safeM m.
Proof.
  unfold mx_phases. cbn [tail]. intros Hin.
  repeat (apply elem_of_cons in Hin as [[= -> ->]|Hin]; [|]); [..|by apply not_elem_of_nil in Hin].
  13: apply mx_reconcileAdmin_safe.
  all: apply safeM_calm; try (mx_calm; fail).
  unfold mx_reconcileInit, forEachPod. repeat first [apply reconcileInitInPod_calm|mx_calm_step].
Qed.
Lemma phase_safe name m phases s pre :
  wpM m s (λ t _ _, safe mx_act_of (mx_needs key) pre t) → safeM (mx_run_phases RequeueInterval phases) →
  wpM (mx_run_phases RequeueInterval ((name, m) :: phases)) s (λ t _ _, safe mx_act_of (mx_needs key) pre t).
Proof.
  intros Hm Hrest. cbn [mx_run_phases]. apply safe_then; [by wp_step|]. intros [r|err].
  - destruct (Result_IsZero r); [exact Hrest|apply safeM_calm; mx_calm].
  - destruct (IsNotFound err); [exact Hrest|]. apply safeM_bind; [apply safeM_calm; mx_calm|]. intros _. exact Hrest.
Qed.
Lemma phases_safe phases : (∀ name m, (name, m) ∈ phases → safeM m) → safeM (mx_run_phases RequeueInterval phases).
Proof.
  induction phases as [|[name m] phases IH]; intros Hp; [apply safeM_calm; cbn [mx_run_phases]; mx_calm|].
  intros s pre. apply phase_safe; [apply (Hp name); by left|]. apply IH. intros n m' Hin. apply (Hp n). by right.
Qed.
Lemma finalizer_safe s pre : Ev (XGetMaxScale key) (Ok (rq_mxs s)) ∈ pre →
  wpM mx_reconcileFinalizer s (λ t _ _, safe mx_act_of (mx_needs key) pre t).
Proof.
  intros Hin. unfold mx_reconcileFinalizer, get_mxs. do 4 wp_step. destruct (mx_Deleting (rq_mxs s)) eqn:Hd; cbn [negb].
  - apply safe_then; [|intros _; apply safeM_calm; mx_calm]. unfold cleanup_maxscale.
    apply safe_then; [wp_step; apply wpM_call|intros r; apply safeM_calm; mx_calm].
    intros r. apply safe_one. intros a [= <-]. by eexists.
  - eapply (safeM_calm _ _ s pre). Unshelve. mx_calm.
Qed.

(** C13: whatever the API servers and the databases answer, a reconciliation of a MaxScale deletes the
    volume claims only of a MaxScale that is being deleted, and the default administrator of a Pod only
    after it created another one there. *)
Theorem maxscale_destroys_with_cause rq :
  wpM (mx_Reconcile CLUSTER_NAME env HashServers HashMonitor HashServices SuspendEnabled RequeueInterval key) rq
    (λ t _ _, safe mx_act_of (mx_needs key) [] t).
Proof.
  unfold mx_Reconcile. apply (wpM_safe_bind _ _ _ _ _ _ (λ t _ r, ∀ m, r = Ok (Ok m) → Ev (XGetMaxScale key) (Ok m) ∈ t)); [mx_calm| |].
  { wp_step. apply wpM_call. intros [m|e] m' [= <-]; by left. }
  intros t s [m|err] Hm; [|apply safeM_calm; mx_calm].
  specialize (Hm m eq_refl). wp_step. wp_step. cbn [app].
  pose proof other_phases_calm as Hother. destruct (mx_phases _ _ _ _ _ _) as [|[name first] phases] eqn:Hphases; [done|].
  injection Hphases as <- <- Hphases. apply phase_safe; [by apply finalizer_safe|]. apply phases_safe.
  intros n m' Hin. eapply Hother. exact Hin.
Qed.
End destroys.

(** ** The status *)
Lemma NewIndex_elem {T} (items : list T) (getID : T → string) k x : NewIndex items getID !! k = Some x → x ∈ items.
Proof.
  unfold NewIndex. rewrite NewIndex_lookup_app. destruct (last _) as [y|] eqn:Hl; [|by rewrite lookup_empty].
  intros [= <-]. apply last_Some_elem_of, list_elem_of_filter in Hl. tauto.
Qed.
Lemma Filter_sub `{MapRange} {T} (idx : Index T) keys k x : Filter idx keys !! k = Some x → idx !! k = Some x.
Proof.
  unfold Filter. set (f := λ newIdx k', _).
  assert (∀ l acc, (∀ y, acc !! k = Some y → idx !! k = Some y) → ∀ y, foldl f acc l !! k = Some y → idx !! k = Some y) as Hf.
  { induction l as [|k' l IH]; intros acc Hacc; cbn [foldl]; [done|]. apply IH. unfold f. intros y.
    destruct (idx !! k') as [v|] eqn:Hv; [|apply Hacc]. destruct (NewIndex keys _ !! k'); [|apply Hacc].
    destruct (decide (k = k')) as [->|Hne]; [by rewrite lookup_insert_eq, Hv|rewrite lookup_insert_ne by done; apply Hacc]. }
  apply Hf. intros y. by rewrite lookup_empty.
Qed.

Section status.
Context `{MapRange} `{StatusConditions} `{X509} (CLUSTER_NAME : string).

Lemma MaxScaleStatus_only_conditions (mss : MaxScaleStatus) servers :
  SetReadyWithMaxScaleStatus mss servers =
    { mss with mxst_Conditions := mxst_Conditions (SetReadyWithMaxScaleStatus mss servers) } ∧
  (IsStatusConditionTrue (mxst_Conditions (SetReadyWithMaxScaleStatus mss servers)) ConditionTypeReady = true →
   Forall (λ srv, state_IsReady (ms_State srv) = true) servers).
Proof.
  induction servers as [|srv servers IH]; cbn [SetReadyWithMaxScaleStatus]; [by destruct mss|].
  destruct (state_IsReady _) eqn:Hr; [destruct IH; split; [done|by constructor; auto]|].
  destruct (state_InMaintenance _); (split; [by destruct mss|]);
    pose proof (is_true_set (T := MaxScaleStatus) ConditionTypeReady ConditionFalse) as Hs; cbn in Hs; cbn; rewrite Hs; done.
Qed.

(** A server of the spec that the API lists as the master. *)
Definition reported_master (mxs : MaxScale) (name : string) (t : xtrace) : Prop :=
  ∃ c l d, Ev (XList c (gc_path ServerClient)) (AgentOk l) ∈ t ∧ d ∈ l ∧ d_ID d = name ∧
    state_IsMaster (d_State d) = true ∧ is_Some (ServerIndex mxs !! name).
Definition primary_evidence (mxs : MaxScale) (servers : option serverStatus) (t : xtrace) : Prop :=
  ∀ st, servers = Some st → ss_primary st = "" ∨ reported_master mxs (ss_primary st) t.
Lemma primary_evidence_mono mxs servers t t' t'' :
  primary_evidence mxs servers t → primary_evidence mxs servers (t' ++ t ++ t'').
Proof.
  intros He st Hst. destruct (He st Hst) as [?|(c & l & d & Hin & ?)]; [by left|right].
  exists c, l, d. split; [|done]. rewrite !elem_of_app. tauto.
Qed.

Lemma getServerStatus_evidence mxs c :
  okM (getServerStatus mxs c) (λ st t, primary_evidence mxs (Some st) t).
Proof.
  unfold getServerStatus, ListIndex, List_. intros s. do 3 wp_step. apply wpM_call_http.
  intros [l|code msg|msg]; cbn [of_agent wrap_err]; [|by intros ? [=]..]. do 2 wp_step.
  intros st [= <-] st' [= <-]. cbn. set (servers := index_values _).
  destruct (head _) as [d|] eqn:Hd; [right|by left].
  apply head_Some_elem_of, list_elem_of_filter in Hd as [Hm Hd].
  unfold servers, index_values in Hd. apply list_elem_of_omap in Hd as (k & _ & Hk).
  assert (k ∈ ServerIDs mxs) as Hin by (eapply Filter_dom; by eexists).
  apply Filter_sub in Hk. pose proof (NewIndex_name _ _ _ _ Hk) as <-. apply NewIndex_elem in Hk.
  exists c, l, d. split; [by left|]. split; [done|]. split; [done|]. split; [exact Hm|].
  unfold ServerIDs, Keys in Hin. by apply range_keys_elem in Hin.
Qed.
Lemma okM_try {S} {E : Type → Type} {A} (m : M S E A) (Q : result A → list (event E) → Prop) :
  (∀ s, wpM m s (λ t _ r, Q r t)) → okM (try m) Q.
Proof. intros Hm s. apply wpM_try. eapply wpM_mono; [|apply Hm]. by intros t s' r HQ a [= <-]. Qed.

Lemma get_api_status_evidence mxs :
  okM (get_api_status CLUSTER_NAME mxs) (λ a t, primary_evidence mxs (as_servers a) t).
Proof.
  unfold get_api_status. apply (okM_bind _ _ (λ _ _, True)); [by apply okM_true|]. intros [c|e] t _; [|by apply okM_ret].
  apply (okM_bind _ _ (λ r t, primary_evidence mxs (result_option r) t)).
  { apply okM_try. intros s. eapply wpM_mono; [|apply getServerStatus_evidence]. intros u s' [st|e] Hr; cbn; [by apply Hr|].
    by intros ? [=]. }
  intros servers u Hu. do 5 (apply (okM_bind _ _ (λ _ _, True)); [by apply okM_true|]; intros ? ? _).
  apply okM_ret. cbn. by apply primary_evidence_mono.
Qed.

Definition sts_read (key : NamespacedName) (sts : StatefulSet) : event xop :=
  Ev (XPh (HSvc (VBase (KGetStatefulSet key)))) (Ok sts).
Definition mx_ready (m : MaxScale) : Prop := IsStatusConditionTrue (mxst_Conditions (mx_Status m)) ConditionTypeReady = true.
(** What a status may say, given what was seen. *)
Definition status_justified (mxs m : MaxScale) (t : xtrace) : Prop :=
  (mxst_PrimaryServer (mx_Status m) = mxst_PrimaryServer (mx_Status mxs) ∨
   ∃ name, mxst_PrimaryServer (mx_Status m) = Some name ∧ reported_master mxs name t) ∧
  (mx_ready m → ∃ sts, sts_read (mx_ObjectKey mxs) sts ∈ t ∧ sts_ReadyReplicas sts = sts_Replicas sts ∧
     (sts_Replicas sts = mxs_Replicas (mx_Spec mxs) →
      Forall (λ srv, state_IsReady (ms_State srv) = true) (default [] (mxst_Servers (mx_Status m))))).

Lemma SetReadyWithStatefulSet_ready (mss : MaxScaleStatus) sts :
  SetReadyWithStatefulSet mss sts =
    { mss with mxst_Conditions := mxst_Conditions (SetReadyWithStatefulSet mss sts) } ∧
  (IsStatusConditionTrue (mxst_Conditions (SetReadyWithStatefulSet mss sts)) ConditionTypeReady = negb (sts_not_ready sts)).
Proof.
  unfold SetReadyWithStatefulSet. destruct (sts_not_ready sts); (split; [by destruct mss|]).
  - pose proof (is_true_set (T := MaxScaleStatus) ConditionTypeReady ConditionFalse) as Hs. cbn in *. by rewrite Hs.
  - pose proof (is_true_set (T := MaxScaleStatus) ConditionTypeReady ConditionTrue) as Hs. cbn in *. by rewrite Hs.
Qed.
Lemma SetReadySuspended_not_ready (mss : MaxScaleStatus) :
  mxst_PrimaryServer (SetReadySuspended mss) = mxst_PrimaryServer mss ∧
  IsStatusConditionTrue (mxst_Conditions (SetReadySuspended mss)) ConditionTypeReady = false.
Proof.
  unfold SetReadySuspended. split; [done|].
  pose proof (is_true_set (T := MaxScaleStatus) ConditionTypeReady ConditionFalse) as Hs. cbn in *. by rewrite Hs.
Qed.

Lemma status_patcher_justified mxs sts a t :
  sts_read (mx_ObjectKey mxs) sts ∈ t → primary_evidence mxs (as_servers a) t →
  status_justified mxs { mxs with mx_Status := mx_status_patcher mxs sts a (mx_Status mxs) } t.
Proof.
  intros Hsts He. unfold mx_status_patcher.
  set (mss := { set_api_status a (mx_Status mxs) with mxst_Replicas := sts_ReadyReplicas sts }).
  destruct (SetReadyWithStatefulSet_ready mss sts) as [Hs Hr]. set (mss1 := SetReadyWithStatefulSet mss sts) in *.
  destruct (MaxScaleStatus_only_conditions mss1 (default [] (mxst_Servers mss1))) as [Hs2 Hr2].
  set (mss2 := SetReadyWithMaxScaleStatus mss1 _) in *.
  assert (mxst_PrimaryServer mss1 = mxst_PrimaryServer mss) as Hp1 by by rewrite Hs.
  assert (mxst_PrimaryServer mss2 = mxst_PrimaryServer mss) as Hp2 by by rewrite Hs2.
  assert (mxst_Servers mss2 = mxst_Servers mss1) as Hv2 by by rewrite Hs2.
  unfold status_justified, mx_ready. cbn [mx_Status].
  assert (∀ p, p = mxst_PrimaryServer mss → p = mxst_PrimaryServer (mx_Status mxs) ∨
    ∃ name, p = Some name ∧ reported_master mxs name t) as Hprimary.
  { intros p ->. unfold mss, set_api_status. cbn. destruct (as_servers a) as [st|]; [|by left].
    case_bool_decide as Hn; [by left|]. destruct (He st eq_refl) as [?|?]; [done|]. right. by eexists. }
  cbn [mx_Status]. destruct (isStatefulSetReady sts mxs) eqn:Hready.
  - apply andb_true_iff in Hready as [Hrep%bool_decide_eq_true _].
    split; [by apply Hprimary|]. intros Htrue. exists sts.
    split; [done|]. split; [done|]. intros _. change (Forall (λ srv, state_IsReady (ms_State srv) = true) (default [] (mxst_Servers mss2))).
    rewrite Hv2. by apply Hr2.
  - split; [by apply Hprimary|]. intros Htrue. exists sts.
    change (IsStatusConditionTrue (mxst_Conditions mss1) ConditionTypeReady = true) in Htrue. rewrite Hr in Htrue. unfold sts_not_ready in Htrue.
    apply negb_true_iff, orb_false_iff in Htrue as [_ Hrep%negb_false_iff%bool_decide_eq_true].
    split; [done|]. split; [done|]. intros Hspec. exfalso. unfold isStatefulSetReady in Hready.
    rewrite <-Hspec, !bool_decide_eq_true_2 in Hready by done. done.
Qed.

Definition status_sent (e : event xop) : option (MaxScale * MaxScale) :=
  match ev_op e with XPatchStatus base m => Some (base, m) | _ => None end.
Lemma sent_calm t base m x : Ev (XPatchStatus base m) x ∈ t → ¬ Forall (calm status_sent) t.
Proof. intros Hin Ht. rewrite Forall_forall in Ht. by apply Ht in Hin. Qed.
Lemma get_api_status_calm mxs : alwaysM (calm status_sent) (get_api_status CLUSTER_NAME mxs).
Proof. mx_calm. Qed.
Lemma keeps_http {S X} (e : xop (agent_reply X)) : keepsM eq (call_http (S := S) e).
Proof. intros s. by apply wpM_call_http. Qed.
Lemma get_api_status_keeps mxs : keepsM eq (get_api_status CLUSTER_NAME mxs).
Proof. repeat first [apply keeps_http|keeps_step]; done. Qed.

Lemma patchStatus_sent f rq :
  wpM (mx_patchStatus f) rq (λ t _ _, ∀ base m x, Ev (XPatchStatus base m) x ∈ t →
    base = rq_mxs rq ∧ m = { rq_mxs rq with mx_Status := f (mx_Status (rq_mxs rq)) }).
Proof.
  unfold mx_patchStatus, get_mxs. do 5 wp_step. cbn [app]. apply wpM_call. intros r base m x [Hin|Hin]%elem_of_cons;
    [|by apply not_elem_of_nil in Hin].
  apply (f_equal status_sent) in Hin. cbn in Hin. by injection Hin as -> ->.
Qed.

(** C12: the Status phase names another primary only if the API listed that server as the master and it is
    a server of the spec; and it calls the MaxScale ready only if every replica of its StatefulSet is,
    and, if these are as many as in the spec, every server in the status too. *)
Theorem maxscale_status_justified (rq : requestMaxScale) :
  wpM (mx_reconcileStatus CLUSTER_NAME) rq (λ t _ _,
    ∀ base m x, Ev (XPatchStatus base m) x ∈ t → base = rq_mxs rq ∧ status_justified (rq_mxs rq) m t).
Proof.
  unfold mx_reconcileStatus, get_mxs. do 4 wp_step. cbn [app]. destruct (mx_IsSuspended _) eqn:Hsus.
  - wp_step. eapply wpM_mono; [|apply patchStatus_sent]. intros t rq' r Ht.
    assert (∀ u base m x, Ev (XPatchStatus base m) x ∈ t → base = rq_mxs rq ∧ status_justified (rq_mxs rq) m u) as Hj.
    { intros u base m x [-> ->]%Ht. split; [done|].
      destruct (SetReadySuspended_not_ready (mx_Status (rq_mxs rq))) as [Hp Hr]. split; [by left|].
      intros Hready. unfold mx_ready in Hready.
      change (IsStatusConditionTrue (mxst_Conditions (SetReadySuspended (mx_Status (rq_mxs rq)))) ConditionTypeReady = true) in Hready.
      congruence. }
    destruct r; [|apply Hj]. wp_step. rewrite app_nil_r. apply Hj.
  - apply wpM_bind. unfold xbase, vbase. do 2 apply wpM_hoist. apply wpM_call. intros [sts|e].
    2: { intros base m x Hin. exfalso. eapply sent_calm; [exact Hin|by repeat constructor]. }
    apply wpM_bind. eapply wpM_mono; [|apply wpM_conj; [apply (alwaysM_wpM _ _ _ (get_api_status_calm _))|
      apply wpM_conj; [apply get_api_status_keeps|apply get_api_status_evidence]]].
    intros t rq' r (Hcalm & <- & He).
    destruct r as [a|e]; [|intros base m x [Hin|Hin]%elem_of_cons; exfalso; [by apply (f_equal status_sent) in Hin|by eapply sent_calm]].
    wp_step. eapply wpM_mono; [|apply patchStatus_sent]. intros u rq' r Hu.
    assert (∀ v base m x, Ev (XPatchStatus base m) x ∈ u → base = rq_mxs rq ∧
      status_justified (rq_mxs rq) m (sts_read (mx_ObjectKey (rq_mxs rq)) sts :: t ++ v)) as Hj.
    { intros v base m x [-> ->]%Hu. split; [done|]. apply status_patcher_justified; [by left|].
      change (_ :: t ++ v) with ([sts_read (mx_ObjectKey (rq_mxs rq)) sts] ++ t ++ v).
      apply primary_evidence_mono. by apply He. }
    assert (∀ v base m x, Ev (XPatchStatus base m) x ∈ sts_read (mx_ObjectKey (rq_mxs rq)) sts :: t ++ u →
      base = rq_mxs rq ∧ status_justified (rq_mxs rq) m (sts_read (mx_ObjectKey (rq_mxs rq)) sts :: t ++ v)) as Hk.
    { intros v base m x [Hin|[Hin|Hin]%elem_of_app]%elem_of_cons; [by apply (f_equal status_sent) in Hin| |by eapply Hj].
      exfalso. by eapply sent_calm. }
    destruct r; [wp_step; rewrite app_nil_r|]; apply Hk.
Qed.
End status.

(** ** How a reconciliation ends *)
Section errors.
Context `{MapRange} `{StatusConditions}.

(** The tables with the configuration that the Pods of a MaxScale share are ahead of the database. *)
Definition config_conflict (mxs : MaxScale) : Prop :=
  mx_IsHAEnabled mxs = true ∧ ∃ sync, mxst_ConfigSync (mx_Status mxs) = Some sync ∧
    css_DatabaseVersion sync < css_MaxScaleVersion sync.
Definition is_primary_server (mxs : MaxScale) (srv : MaxScaleServer) : Prop :=
  ∃ name, GetPrimaryServer (mx_Status mxs) = Some name ∧ ServerIndex mxs !! name = Some srv.

(** Reading a Secret, opening the database of a server of which [P] holds, and emptying the shared
    configuration there. *)
Definition sql_empties {X} (o : op X) : Prop :=
  match o with SqlOpen _ => True | SqlExec _ sql => sql = "TRUNCATE TABLE maxscale_config" | _ => False end.
Definition empties (P : MaxScaleServer → Prop) (e : event xop) : Prop :=
  match ev_op e with
  | XSql srv o => P srv ∧ sql_empties o
  | XPh (HSvc (VBase (KSecretKey _ _))) => True
  | _ => False
  end.
Lemma empties_imp (P Q : MaxScaleServer → Prop) e : (∀ srv, P srv → Q srv) → empties P e → empties Q e.
Proof. intros HPQ. unfold empties. destruct (ev_op e); try done. intros [? ?]. auto. Qed.

Lemma alwaysM_imp {S} {E : Type → Type} {A} (P Q : event E → Prop) (m : M S E A) :
  (∀ e, P e → Q e) → alwaysM P m → alwaysM Q m.
Proof.
  intros HPQ Hm s. specialize (Hm s). induction (m s) as [a|X e k IH|k IH]; cbn in *; [done| |].
  - intros x. destruct (Hm x). auto.
  - intros b. auto.
Qed.
Lemma getSqlClient_only mxs name :
  alwaysM (empties (λ srv, ServerIndex mxs !! name = Some srv)) (getSqlClient mxs name) ∧
  okM (getSqlClient mxs name) (λ srv _, ServerIndex mxs !! name = Some srv).
Proof.
  unfold getSqlClient. destruct (mxc_Sync _); [|split; [apply alwaysM_throw|apply okM_throw]].
  destruct (au_SyncUsername _); [|split; [apply alwaysM_throw|apply okM_throw]].
  destruct (au_SyncPasswordSecretKeyRef _); [|split; [apply alwaysM_throw|apply okM_throw]].
  destruct (ServerIndex mxs !! name) as [srv|] eqn:Hsrv; [|split; [apply alwaysM_throw|apply okM_throw]].
  split.
  - by always_auto.
  - do 3 (apply (okM_bind _ _ (λ _ _, True)); [by apply okM_true|]; intros ? ? _). by apply okM_ret.
Qed.
Lemma getPrimarySqlClient_only mxs :
  alwaysM (empties (is_primary_server mxs)) (getPrimarySqlClient mxs) ∧
  okM (getPrimarySqlClient mxs) (λ srv _, is_primary_server mxs srv).
Proof.
  unfold getPrimarySqlClient. destruct (GetPrimaryServer _) as [name|] eqn:Hp;
    [|split; [apply alwaysM_throw|apply okM_throw]].
  destruct (getSqlClient_only mxs name) as [Ha Ho]. split.
  - eapply alwaysM_imp; [|exact Ha]. intros e. apply empties_imp. intros srv Hsrv. by exists name.
  - eapply okM_mono; [|exact Ho]. intros srv t Hsrv. by exists name.
Qed.

(** What the handling of a conflict may do. *)
Definition resolves (mxs : MaxScale) : event xop → Prop :=
  empties (λ srv, config_conflict mxs ∧ is_primary_server mxs srv).
Lemma handleConfigSyncConflict_only (rq : requestMaxScale) :
  wpM handleConfigSyncConflict rq (λ t rq' _, rq' = rq ∧ Forall (resolves (rq_mxs rq)) t).
Proof.
  unfold handleConfigSyncConflict, get_mxs. do 4 wp_step. cbn [app].
  destruct (mx_IsHAEnabled _) eqn:Hha; cbn [negb]; [|by wp_step]. cbn zeta. case_bool_decide as Hv; [by wp_step|].
  assert (config_conflict (rq_mxs rq)) as Hc.
  { split; [done|]. destruct (mxst_ConfigSync _) as [sync|]; cbn in Hv; [|lia]. exists sync. split; [done|lia]. }
  destruct (getPrimarySqlClient_only (rq_mxs rq)) as [Ha Ho].
  assert (keepsM eq (getPrimarySqlClient (rq_mxs rq))) as Hk by (keeps_auto; done).
  wp_step. wp_step. eapply wpM_mono; [|apply wpM_conj; [apply Hk|apply wpM_conj; [apply (alwaysM_wpM _ _ _ Ha)|apply Ho]]].
  intros t rq' [srv|e] (<- & Ht & Hok); cbn [wrap_err].
  - specialize (Hok srv eq_refl). wp_step. unfold xsql, TruncateMaxScaleConfig, Exec. apply wpM_hoist. apply wpM_call_reply.
    intros r. split; [done|]. apply Forall_app. split; [|apply Forall_singleton; split; [by split|done]].
    eapply Forall_impl; [exact Ht|]. intros e. apply empties_imp. auto.
  - split; [done|]. eapply Forall_impl; [exact Ht|]. intros e'. apply empties_imp. auto.
Qed.

(** What is sent when a phase failed, the status that it says so in, and the error that is returned. *)
Definition handles_failure (cause : error) (mxs : MaxScale) (t : xtrace) (st : MaxScaleStatus) (e : error) : Prop :=
  (∃ handling ans, t = handling ++ [Ev (XPatchStatus mxs { mxs with mx_Status := st }) ans] ∧
     Forall (resolves mxs) handling) ∧
  (∃ c, FindStatusCondition (mxst_Conditions st) "Ready" = Some c ∧ c_Status c = ConditionFalse ∧ c_Message c = Error cause) ∧
  ∃ more, Error e = Error cause +:+ more.

Lemma multierror_text err r r' : ∃ e more, multierror (multierror (Err err) r) r' = Err e ∧ Error e = Error err +:+ more.
Proof.
  destruct r as [[]|e], r' as [[]|e']; cbn; eexists; [exists ""|exists (Error e')|exists (Error e)|exists (Error e +:+ Error e')];
    (split; [reflexivity|]); cbn; by rewrite ?str_app_nil_r, ?str_app_assoc.
Qed.
Lemma mx_handleError_outcome err (rq : requestMaxScale) :
  wpM (mx_handleError err) rq (λ t rq' r, ∃ st e, handles_failure err (rq_mxs rq) t st e ∧ r = Err e).
Proof.
  unfold mx_handleError. wp_step. wp_step. eapply wpM_mono; [|apply handleConfigSyncConflict_only].
  intros t rq' handled [-> Ht]. cbn [app].
  wp_step. wp_step. unfold mx_patchStatus, get_mxs. do 5 wp_step. cbn [app]. apply wpM_call. intros patched. apply wpM_lift.
  match goal with |- context [multierror (multierror (Err err) handled) ?x] => destruct (multierror_text err handled x) as (e & more & -> & Hm) end.
  eexists _, e. split; [|done]. split; [|split; [|by exists more]].
  - exists t. eexists. rewrite app_nil_r. split; [reflexivity|done].
  - eexists. split.
    + unfold Ready_PatcherFailed, SetReadyFailedWithMessage. change (mxst_Conditions ?s) with (conditions s).
      rewrite find_set_condition. by rewrite bool_decide_eq_true_2.
    + done.
Qed.

Section ends.
Context `{SliceSort} `{X509} (CLUSTER_NAME : string) (env : OperatorEnv).
Context (HashServers : option (list MaxScaleServer) → string) (HashMonitor : MaxScaleMonitor → string).
Context (HashServices : list MaxScaleService → string) (SuspendEnabled : bool) (RequeueInterval : Z).
Abbreviation the_phases := (mx_phases CLUSTER_NAME env HashServers HashMonitor HashServices SuspendEnabled).

(** The names of the phases, in their order. *)
Definition mx_phase_order : list string :=
  ["Finalizer"; "Spec"; "Status"; "Suspend"; "Secret"; "TLS"; "Auth"; "ServiceAccount"; "StatefulSet";
   "PodDisruptionBudget"; "Kubernetes Service"; "StatefulSet Ready"; "Client"; "Admin"; "Init"; "Sync";
   "Primary Server"; "Servers"; "Monitor"; "Monitor State"; "Services and Listeners"; "Service State";
   "Listener State"; "Connection"; "Metrics"].
Definition mx_ran (name : string) (t : xtrace) (rq' : requestMaxScale) (r : result ctrl_Result) : Prop :=
  ∃ p rq, (name, p) ∈ the_phases ∧ runs (p rq) t (rq', r).
Definition mx_went_on (name : string) (t : xtrace) : Prop :=
  ∃ rq' r, mx_ran name t rq' r ∧ (r = Ok Result_zero ∨ ∃ err, r = Err err ∧ IsNotFound err = true).
Definition mx_asked_again (name : string) (t : xtrace) (r : result ctrl_Result) : Prop :=
  ∃ res rq', r = Ok res ∧ res ≠ Result_zero ∧ mx_ran name t rq' (Ok res).
Definition mx_failed (name : string) (t : xtrace) (r : result ctrl_Result) : Prop :=
  ∃ t1 rq' cause t2 st e, t = t1 ++ t2 ∧ mx_ran name t1 rq' (Err cause) ∧ IsNotFound cause = false ∧
    handles_failure cause (rq_mxs rq') t2 st e ∧ r = Err (ErrWrap ("error reconciling phase " +:+ name) e).
Definition mx_pass_outcome (names : list string) (t : xtrace) (rq' : requestMaxScale) (r : result ctrl_Result) : Prop :=
  (∃ segs, t = concat segs ∧ Forall2 mx_went_on names segs ∧ r = Ok (mx_requeueResult RequeueInterval (rq_mxs rq'))) ∨
  ∃ segs name last, t = concat segs ++ last ∧ names !! length segs = Some name ∧
    Forall2 mx_went_on (take (length segs) names) segs ∧ (mx_asked_again name last r ∨ mx_failed name last r).

Lemma mx_pass_outcome_next name names seg t rq' r :
  mx_went_on name seg → mx_pass_outcome names t rq' r → mx_pass_outcome (name :: names) (seg ++ t) rq' r.
Proof.
  intros Hseg [(segs & -> & Hs & ->)|(segs & n & last & -> & Hn & Hs & Hr)].
  - left. exists (seg :: segs). by repeat constructor.
  - right. exists (seg :: segs), n, last. cbn. rewrite app_assoc.
    split; [done|]. split; [done|]. split; [by constructor|done].
Qed.
Lemma mx_run_phases_outcome ps t rq rq' r : ps ⊆ the_phases →
  runs (mx_run_phases RequeueInterval ps rq) t (rq', r) → mx_pass_outcome ps.*1 t rq' r.
Proof.
  revert rq t. induction ps as [|[name p] ps IH]; intros rq t Hps; cbn [mx_run_phases].
  - intros [-> [= -> ->]]. left. by exists [].
  - assert ((name, p) ∈ the_phases) as Hin by set_solver.
    intros (t1 & rq1 & r1 & (r' & -> & Hr)%runs_try & t2 & -> & Hk)%runs_bindM.
    assert (mx_ran name t1 rq1 r') as Hran by by exists p, rq.
    destruct r' as [res|err]; [destruct (Result_IsZero res) eqn:Hz|destruct (IsNotFound err) eqn:Hn].
    + apply mx_pass_outcome_next; [|apply (IH rq1); [set_solver|done]]. exists rq1, (Ok res). split; [done|]. left.
      unfold Result_IsZero in Hz. by apply bool_decide_eq_true in Hz as ->.
    + destruct Hk as [-> [= -> ->]]. rewrite app_nil_r. right. exists [], name, t1.
      split; [done|]. split; [done|]. split; [constructor|]. left. exists res, rq1. split; [done|]. split; [|done].
      intros ->. unfold Result_IsZero in Hz. by rewrite bool_decide_eq_false in Hz.
    + apply mx_pass_outcome_next; [|apply (IH rq1); [set_solver|done]]. exists rq1, (Err err). split; [done|]. right. by exists err.
    + right. exists [], name, (t1 ++ t2). split; [done|]. split; [done|]. split; [constructor|]. right.
      pose proof (mx_handleError_outcome err rq1) as Hw.
      assert (wpM (wrap ("error reconciling phase " +:+ name) (mx_handleError err) ;;; mx_run_phases RequeueInterval ps) rq1
        (λ t _ r, ∃ st e, handles_failure err (rq_mxs rq1) t st e ∧ r = Err (ErrWrap ("error reconciling phase " +:+ name) e))) as Hw'.
      { wp_step. wp_step. eapply wpM_mono; [|exact Hw]. intros t s' r' (st & e & Hh & ->). cbn [wrap_err]. by exists st, e. }
      apply (proj1 (wp_runs _ _) Hw') in Hk as (st & e & Hh & Hr'). cbn in Hh, Hr'.
      exists t1, rq1, err, t2, st, e. by split_and!.
Qed.

(** C20: every reconciliation of a MaxScale ends in one of these ways.  It cannot be read: the error is
    returned, unless the MaxScale is gone.  All the phases ran, in this order, each without a result
    to wait for or with an error that only says that an object is missing; the MaxScale is then looked
    at again after the interval of its spec, or of the operator.  The phases ran up to one that asked to
    be reconciled again, with its result.  Or up to one that failed: then the shared configuration is
    emptied, and nothing else done, if the MaxScale is highly available and its status has its Pods
    ahead of the database, and only on the primary server of that status; the status says in the ready
    condition why the phase failed; and the error names the phase and the cause. *)
Theorem maxscale_reconciliation_ends key rq :
  wpM (mx_Reconcile CLUSTER_NAME env HashServers HashMonitor HashServices SuspendEnabled RequeueInterval key) rq (λ t rq' r,
  (∃ err, t = [Ev (XGetMaxScale key) (Err err)] ∧ (IsNotFound err = true ∧ r = Ok Result_zero ∨ r = Err err)) ∨
  ∃ m t', t = Ev (XGetMaxScale key) (Ok m) :: t' ∧
  ( (∃ segs, t' = concat segs ∧ Forall2 mx_went_on mx_phase_order segs ∧
       r = Ok match mxs_RequeueInterval (mx_Spec (rq_mxs rq')) with
              | Some interval => requeue_after interval
              | None => if decide (0 < RequeueInterval) then requeue_after RequeueInterval else Result_zero
              end)
  ∨ ∃ segs name last, t' = concat segs ++ last ∧ mx_phase_order !! length segs = Some name ∧
      Forall2 mx_went_on (take (length segs) mx_phase_order) segs ∧ (mx_asked_again name last r ∨ mx_failed name last r))).
Proof.
  unfold mx_Reconcile. wp_step. wp_step. apply wpM_call. intros [m|err].
  - wp_step. wp_step. cbn [app]. apply wp_runs. intros t [rq' r] Ho%mx_run_phases_outcome; [|done]. cbn [fst snd].
    right. exists m, t. split; [done|]. change mx_phase_order with ((the_phases).*1).
    destruct Ho as [(segs & -> & Hs & ->)|Ho]; [left|by right].
    exists segs. split_and!; [done..|]. unfold mx_requeueResult. destruct (mxs_RequeueInterval _); [done|].
    by case_bool_decide; case_decide.
  - unfold IgnoreNotFound. destruct (IsNotFound err) eqn:Hn; wp_step; left; exists err; (split; [done|]); [by left|by right].
Qed.
End ends.
End errors.
