(* ===== verification/GaleraMonitor.v ===== *)
(** * internal/controller/statefulset_galera_controller.go: watching Galera clusters

    The monitor polls the health of a configured Galera cluster and, when it stays
    unhealthy for the whole timeout, resets the recovery status and marks the
    cluster not ready, which is what starts a recovery (GaleraRecovery.v).  An
    error of the Kubernetes API must not count as an unhealthy cluster. *)

From S2P Require Import Prelude GoStrings StatefulSet Datastructures Conditions MariaDBTypes.
From S2P Require Import RecoveryStatus Concurrency Kube Wait Sql Health ConditionSetters.
From S2P Require Import Version Replication Failover.

Local Open Scope Z_scope.
Local Open Scope go_scope.

Section monitor.
Context `{ScaledValue} `{StatusConditions}.

Definition shouldPerformClusterRecovery (mdb : MariaDB) : bool :=
  let galera := default Galera_zero (sp_Galera (m_Spec mdb)) in
  let recovery := default GaleraRecovery_zero (ga_Recovery galera) in
  if negb (ga_Enabled galera) || negb (gr_Enabled recovery) then false
  else if IsRestoringBackup mdb || IsResizingStorage mdb || negb (HasGaleraConfiguredCondition mdb) ||
          HasGaleraNotReadyCondition mdb then false
  else true.

Definition monitorResult (mdb : MariaDB) : ctrl_Result :=
  let recovery := mdb_recovery mdb in
  if negb (gr_Enabled recovery) then Result_zero
  else requeue_after (default (10 * Second) (gr_ClusterMonitorInterval recovery)).

(** The loop over the listed Pods: the first ready one that can be reached.  The
    client set is new, so every client is opened. *)
Fixpoint readyClient_loop (mariadb : MariaDB) (pods : list Pod) : M unit op Z :=
  match pods with
  | [] => throw (ErrNew "no Ready Pods were found")
  | p :: pods' =>
      if negb (PodReady p) then readyClient_loop mariadb pods' else
      index <- wrap "error getting Pod index" (lift (PodIndex (pod_Name p))) ;;
      r <- try (ClientForIndex mariadb false index) ;;
      match r with Ok client => ret client | Err _ => readyClient_loop mariadb pods' end
  end.

Definition readyClient (mariadb : MariaDB) : M unit op Z :=
  items <- wrap "error listing Pods"
    (call (KListPods (WithMariaDBSelectorLabels mariadb ∅) (Namespace (m_meta mariadb)))) ;;
  readyClient_loop mariadb items.

Definition isHealthy (stsObjMeta : ObjectMeta) : M unit op bool :=
  mdb <- wrap "error getting MariaDB"
    (MariaDBFromAnnotation (Annotations stsObjMeta) (Namespace stsObjMeta)) ;;
  if negb (shouldPerformClusterRecovery mdb) then ret true else
  r <- try (call (KGetStatefulSet (mkNamespacedName (Name stsObjMeta) (Namespace stsObjMeta)))) ;;
  if match r with Ok sts => bool_decide (sts_ReadyReplicas sts = 0) | Err _ => false end
  then ret false else
  client <- readyClient mdb ;;
  size <- GaleraClusterSize client ;;
  wrap "error checking min cluster size"
    (lift (HasMinClusterSize (mdb_recovery mdb) size mdb)).

(** [wait.PollUntilContextCancel] with a condition that may fail: an error ends the
    poll; a statement whose context is done reports that itself ([FailDeadline]). *)
Fixpoint pollHealth (attempts : nat) (stsObjMeta : ObjectMeta) : M unit op unit :=
  healthy <- isHealthy stsObjMeta ;;
  if (healthy : bool) then ret tt else
  match attempts with
  | O => throw DeadlineExceeded
  | S attempts' =>
      done <- choose ;;
      if (done : bool) then throw DeadlineExceeded else pollHealth attempts' stsObjMeta
  end.

(** [wait.Interrupted]: the context was done. *)
Definition wait_Interrupted (e : error) : bool := bool_decide (e = DeadlineExceeded).

Definition pollUntilHealthyWithTimeout (ctx : Z) (stsObjMeta : ObjectMeta) : M unit op bool :=
  r <- try (pollHealth (poll_attempts ctx) stsObjMeta) ;;
  match r with
  | Ok _ => ret true
  | Err err => if wait_Interrupted err then ret false else throw (ErrWrap "error polling health" err)
  end.

Definition monitor_Reconcile (req : NamespacedName) : M unit op ctrl_Result :=
  r <- try (call (KGetStatefulSet req)) ;;
  match r with
  | Err err => return_IgnoreNotFound err
  | Ok sts =>
      r <- try (MariaDBFromAnnotation (Annotations (sts_meta sts)) (Namespace (sts_meta sts))) ;;
      match r with
      | Err err =>
          if errors_Is err ErrMariaDBAnnotationNotFound then ret Result_zero
          else return_IgnoreNotFound err
      | Ok mariadb =>
          if negb (shouldPerformClusterRecovery mariadb) then ret (monitorResult mariadb) else
          let clusterHealthyTimeout :=
            default (30 * Second) (gr_ClusterHealthyTimeout (mdb_recovery mariadb)) in
          healthy <- wrap "error polling MariaDB health"
            (pollUntilHealthyWithTimeout clusterHealthyTimeout (sts_meta sts)) ;;
          if (healthy : bool) then ret (monitorResult mariadb) else
          wrap "error patching MariaDB"
            (on mariadb (patchStatus_m (λ m,
               SetGaleraNotReady { m_Status m with st_GaleraRecovery := None }))) ;;;
          ret (monitorResult mariadb)
      end
  end.
End monitor.

(** ** Properties *)
Section properties.
Context `{SCALED : ScaledValue} `{COND : StatusConditions}.

(** The MariaDB that the annotation of the StatefulSet names, as it was read. *)
Definition annotated (meta : ObjectMeta) (mdb : MariaDB) (t : trace) : Prop :=
  ∃ name, Annotations meta !! MariadbAnnotation = Some name ∧
    Ev (KGetMariaDB (mkNamespacedName name (Namespace meta))) (Ok mdb) ∈ t.
(** The Pod with the ordinal [i] was listed as a ready one of the cluster. *)
Definition listed_ready (mdb : MariaDB) (i : Z) (t : trace) : Prop :=
  ∃ pods pod, Ev (KListPods (WithMariaDBSelectorLabels mdb ∅) (Namespace (m_meta mdb))) (Ok pods) ∈ t ∧
    pod ∈ pods ∧ PodReady pod = true ∧ PodIndex (pod_Name pod) = Ok i.
Definition asks_size (i : Z) : op (reply string) := SqlQueryRow i statusVariableSql ["wsrep_cluster_size"].

(** What counts as evidence against the cluster of [mdb]: no ready Pod; a server of a ready Pod that
    reports fewer nodes than the minimum size of [mdb], one node if it has none, a share of its
    replicas rounded up if it is a percentage; or a server that did not say before the timeout. *)
Inductive evidence (meta : ObjectMeta) (mdb : MariaDB) (t : trace) : Prop :=
  | no_ready_pod sts : Ev (KGetStatefulSet (mkNamespacedName (Name meta) (Namespace meta))) (Ok sts) ∈ t →
      sts_ReadyReplicas sts = 0 → evidence meta mdb t
  | too_few_nodes i v n min : listed_ready mdb i t → Ev (asks_size i) (Reply v) ∈ t → Atoi v = Ok n →
      GetScaledValueFromIntOrPercent (default (IntVal 1) (gr_MinClusterSize (mdb_recovery mdb)))
        (sp_Replicas (m_Spec mdb)) true = Ok min → n < min → evidence meta mdb t
  | no_answer i : listed_ready mdb i t → Ev (asks_size i) (Fail FailDeadline) ∈ t → evidence meta mdb t.

(** Evidence against the cluster of the StatefulSet, whose MariaDB was read as one to recover. *)
Definition accused (meta : ObjectMeta) (t : trace) : Prop :=
  ∃ mdb, annotated meta mdb t ∧ shouldPerformClusterRecovery mdb = true ∧ evidence meta mdb t.
Definition unhealthy_seen (req : NamespacedName) (t : trace) : Prop :=
  ∃ sts, Ev (KGetStatefulSet req) (Ok sts) ∈ t ∧ accused (sts_meta sts) t.

Lemma listed_ready_incl mdb i (t t' : trace) : t ⊆ t' → listed_ready mdb i t → listed_ready mdb i t'.
Proof. intros Hs (pods & pod & ? & ?). exists pods, pod. auto. Qed.
Lemma evidence_incl meta mdb (t t' : trace) : t ⊆ t' → evidence meta mdb t → evidence meta mdb t'.
Proof.
  intros Hs [sts ? ?|i v n min Hl ? ? ? ?|i Hl ?].
  - by apply (no_ready_pod _ _ _ sts); [apply Hs|].
  - by apply (too_few_nodes _ _ _ i v n min); [eapply listed_ready_incl|apply Hs|..].
  - by apply (no_answer _ _ _ i); [eapply listed_ready_incl|apply Hs].
Qed.
Lemma accused_incl meta (t t' : trace) : t ⊆ t' → accused meta t → accused meta t'.
Proof.
  intros Hs (mdb & (name & ? & ?) & ? & He). exists mdb. split_and!; [by exists name; auto|done|by eapply evidence_incl].
Qed.
Lemma unhealthy_seen_incl req (t t' : trace) : t ⊆ t' → unhealthy_seen req t → unhealthy_seen req t'.
Proof. intros Hs (sts & ? & Ha). exists sts. split; [auto|by eapply accused_incl]. Qed.

Definition not_deadline (e : error) : Prop := e ≠ DeadlineExceeded.
Lemma readyClient_err m : errM not_deadline (readyClient m).
Proof.
  unfold readyClient. apply errM_bind; [by err_auto|]. intros items.
  induction items as [|p items IH]; cbn [readyClient_loop]; [by err_auto|].
  destruct (negb (PodReady p)); [done|]. apply errM_bind; [by err_auto|]. intros i.
  apply errM_bind_try. intros [c|e]; [by err_auto|done].
Qed.

Lemma Atoi_not_deadline v e : Atoi v = Err e → e ≠ DeadlineExceeded.
Proof. unfold Atoi. repeat case_match; by intros [= <-]. Qed.

(** The client is that of a listed, ready Pod. *)
Lemma readyClient_listed mdb : okM (readyClient mdb) (listed_ready mdb).
Proof.
  unfold readyClient. eapply okM_bind; [apply okM_wrap, okM_call with (Q := λ pods t,
    t = [Ev (KListPods (WithMariaDBSelectorLabels mdb ∅) (Namespace (m_meta mdb))) (Ok pods)]); done|].
  intros pods t ->. set (ev := Ev _ _).
  assert (∀ l, l ⊆ pods → okM (readyClient_loop mdb l) (λ i t', listed_ready mdb i ([ev] ++ t'))) as Hloop; [|by apply Hloop].
  induction l as [|p l IH]; intros Hl; cbn [readyClient_loop]; [apply okM_throw|].
  destruct (PodReady p) eqn:Hr; cbn [negb]; [|apply IH; set_solver]. intros s. do 3 wp_step.
  destruct (PodIndex (pod_Name p)) as [i|e] eqn:Hi; cbn [wrap_err]; [|done].
  wp_step. wp_step. unfold ClientForIndex. wp_auto.
  - intros i' [= <-]. exists pods, p. split_and!; [by left|set_solver|done..].
  - eapply wpM_mono; [|by apply IH; set_solver]. intros t' s' r Ht a' Ha.
    eapply listed_ready_incl; [|by apply Ht]. set_solver.
  - eapply wpM_mono; [|by apply IH; set_solver]. done.
Qed.

Definition blames (mdb : MariaDB) (meta : ObjectMeta) (t : trace) (r : result bool) : Prop :=
  r = Ok false ∨ r = Err DeadlineExceeded → evidence meta mdb t.

Lemma size_check_spec meta mdb s :
  wpM (client <- readyClient mdb ;; size <- GaleraClusterSize client ;;
       wrap "error checking min cluster size" (lift (HasMinClusterSize (mdb_recovery mdb) size mdb)))
    s (λ t _ r, blames mdb meta t r).
Proof.
  wp_step. eapply wpM_mono; [|apply wpM_conj; [apply readyClient_err|apply readyClient_listed]].
  intros t1 s1 [c|e] [Hc Hl].
  2: { intros [|[= ->]]; [done|]. by destruct (Hc _ eq_refl). }
  specialize (Hl c eq_refl).
  unfold GaleraClusterSize, StatusVariableInt, QueryRowInt, QueryRow. wp_step. wp_step. wp_step.
  - wp_step. destruct (Atoi a) as [n|e] eqn:Hn.
    2: { intros [|[= ->]]; [done|]. by destruct (Atoi_not_deadline _ _ Hn). }
    wp_step. wp_step. destruct (HasMinClusterSize _ n mdb) as [b|e] eqn:Hb; cbn [wrap_err]; intros [[= ->]|[=]].
    unfold HasMinClusterSize in Hb. apply result_bind_Ok in Hb as (min & Hmin & [= Hb]).
    apply bool_decide_eq_false in Hb. apply (too_few_nodes _ _ _ c a n min); [|set_solver|done|done|lia].
    eapply listed_ready_incl; [|exact Hl]. set_solver.
  - intros [|[= Hf]]; [done|]. apply (no_answer _ _ _ c); [eapply listed_ready_incl; [|exact Hl]; set_solver|].
    destruct f; [done|]. unfold asks_size. set_solver.
Qed.

Lemma MariaDBFromAnnotation_ok {S} (meta : ObjectMeta) :
  okM (MariaDBFromAnnotation (S:=S) (Annotations meta) (Namespace meta)) (λ mdb t, annotated meta mdb t).
Proof.
  intros s. unfold MariaDBFromAnnotation. destruct (Annotations meta !! MariadbAnnotation) as [name|] eqn:Hn; wp_auto.
  all: intros mdb [= <-]. exists name. split; [done|by left].
Qed.

(** An attempt that finds the cluster unhealthy, or runs into the deadline, has seen it. *)
Definition accuses (meta : ObjectMeta) (t : trace) (r : result bool) : Prop :=
  r = Ok false ∨ r = Err DeadlineExceeded → accused meta t.
Lemma isHealthy_spec meta s : wpM (isHealthy meta) s (λ t _ r, accuses meta t r).
Proof.
  unfold isHealthy. wp_step. wp_step. eapply wpM_mono; [|apply MariaDBFromAnnotation_ok].
  intros t0 s0 [mdb|e] Hm; cbn [wrap_err]; [|by intros [|]]. specialize (Hm mdb eq_refl).
  destruct (shouldPerformClusterRecovery mdb) eqn:Hshould; cbn [negb]; [|wp_step; by intros [|]].
  assert (∀ t r, (r = Ok false ∨ r = Err DeadlineExceeded → evidence meta mdb t) → accuses meta (t0 ++ t) r) as Hacc.
  { intros t r He Hr. exists mdb. split_and!; [|done|eapply evidence_incl; [|by apply He]; set_solver].
    destruct Hm as (name & Hn & Hin). exists name. split; [done|set_solver]. }
  wp_step. wp_step. wp_step.
  1: destruct (bool_decide _) eqn:Hz; [wp_step; apply Hacc; intros _|].
  - apply bool_decide_eq_true in Hz. by apply (no_ready_pod _ _ _ a); [left|].
  - eapply wpM_mono; [|apply size_check_spec]. intros t s' r Hb. apply (Hacc (_ :: t)). intros Hr.
    eapply evidence_incl; [|by apply Hb]. set_solver.
  - eapply wpM_mono; [|apply size_check_spec]. intros t s' r Hb. apply (Hacc (_ :: t)). intros Hr.
    eapply evidence_incl; [|by apply Hb]. set_solver.
Qed.

Lemma pollHealth_spec n meta s :
  wpM (pollHealth n meta) s (λ t _ r, r = Err DeadlineExceeded → accused meta t).
Proof.
  revert s. induction n as [|n IH]; intros s; cbn [pollHealth]; wp_step;
    (eapply wpM_mono; [|apply isHealthy_spec]); intros t s' [[]|e] Hb;
    try (intros [= ->]; apply Hb; by right); try (by wp_step).
  - wp_step. intros _. rewrite app_nil_r. apply Hb. by left.
  - assert (accused meta t) as Hu by (apply Hb; by left). wp_step. wp_step. wp_step.
    + wp_step. intros _. eapply accused_incl; [|exact Hu]. set_solver.
    + eapply wpM_mono; [|apply IH]. intros t' s'' r Hr Heq. eapply accused_incl; [|exact Hu]. set_solver.
Qed.

Definition marks_not_ready (e : event op) : Prop :=
  match ev_op e with KPatchStatus _ _ => True | _ => False end.

Lemma isHealthy_no_patch meta : alwaysM (λ e, ¬ marks_not_ready e) (isHealthy meta).
Proof.
  unfold isHealthy, readyClient. repeat lazymatch goal with
  | |- alwaysM _ (readyClient_loop _ ?l) => induction l as [|p l IHl]; cbn [readyClient_loop]
  | H : alwaysM ?P ?m |- alwaysM ?P ?m => exact H
  | |- alwaysM _ _ => always_step
  end; by intros [].
Qed.

Lemma pollHealth_no_patch n meta : alwaysM (λ e, ¬ marks_not_ready e) (pollHealth n meta).
Proof.
  induction n as [|n IH]; cbn [pollHealth]; (apply alwaysM_bind; [apply isHealthy_no_patch|intros b]);
    always_auto. exact IH.
Qed.

Lemma MariaDBFromAnnotation_no_patch {S} annotations ns :
  alwaysM (λ e, ¬ marks_not_ready e) (MariaDBFromAnnotation (S:=S) annotations ns).
Proof. always_auto; by intros []. Qed.

(** C31: the monitor marks a Galera cluster not ready, which starts a recovery, only after it has
    seen evidence against the cluster of its StatefulSet, in the MariaDB that it read for it and that
    is to be recovered: the StatefulSet has no ready Pod, the server of a ready Pod reports fewer
    nodes than the minimum size of that MariaDB, or it did not answer in time.  A failure of the
    Kubernetes API alone never does. *)
Theorem galera_monitor_sound req s :
  wpM (monitor_Reconcile req) s (λ t _ _, guarded marks_not_ready (unhealthy_seen req) t).
Proof.
  unfold monitor_Reconcile, return_IgnoreNotFound. wp_step. wp_step. wp_step.
  2: { destruct (IgnoreNotFound e); wp_step; apply guarded_none; by constructor; [intros []|]. }
  wp_step. wp_step. eapply wpM_mono; [|apply alwaysM_wpM, MariaDBFromAnnotation_no_patch].
  intros t1 s1 [mdb|e] H1.
  2: { destruct (errors_Is e _); [|destruct (IgnoreNotFound e)]; wp_step; apply guarded_none;
       (constructor; [by intros []|]); rewrite app_nil_r; done. }
  destruct (negb (shouldPerformClusterRecovery mdb)).
  { wp_step. apply guarded_none. constructor; [by intros []|]. by rewrite app_nil_r. }
  set (ev := Ev (KGetStatefulSet req) (Ok a)).
  assert (∀ t2, Forall (λ e, ¬ marks_not_ready e) t2 → Forall (λ e, ¬ marks_not_ready e) (ev :: t1 ++ t2)) as Hq.
  { intros t2 H2. constructor; [by intros []|]. by apply Forall_app_2. }
  wp_step. wp_step. unfold pollUntilHealthyWithTimeout. wp_step. wp_step.
  eapply wpM_mono; [|apply wpM_conj; [apply pollHealth_spec|apply alwaysM_wpM, pollHealth_no_patch]].
  intros t2 s2 r2 [Hp Hn]. specialize (Hq t2 Hn).
  destruct r2 as [[]|e]; [wp_step; cbn [wrap_err]; wp_step; apply guarded_none; by rewrite !app_nil_r|].
  destruct (wait_Interrupted e) eqn:He; wp_step; cbn [wrap_err]; [|apply guarded_none; by rewrite !app_nil_r].
  apply bool_decide_eq_true in He. specialize (Hp ltac:(by subst e)).
  wp_step. wp_step. intros x. cbn [fst snd].
  assert (guarded marks_not_ready (unhealthy_seen req)
    ((ev :: t1 ++ t2) ++ [Ev (KPatchStatus mdb { mdb with m_Status :=
       SetGaleraNotReady { m_Status mdb with st_GaleraRecovery := None } }) x])) as Hg.
  { apply guarded_app; [|done|].
    - intros u u' Hu. eapply unhealthy_seen_incl; [|exact Hu]. set_solver.
    - exists a. split; [by left|]. eapply accused_incl; [|exact Hp]. set_solver. }
  destruct x as [[]|e']; cbn [wrap_err]; rewrite ?app_nil_r; cbn [app] in *; by rewrite <- (assoc_L (++)) in Hg.
Qed.
End properties.
