(* ===== verification/GaleraRecovery.v ===== *)
(** * pkg/controller/galera: the Galera reconciler and its cluster recovery

    recovery.go, controller.go and clientset.go.  A recovery collects the state
    file of every Pod, and, when that does not name a Pod to bootstrap from,
    scales the cluster down and lets one Job per Pod find its position; it then
    bootstraps the cluster from the most advanced Pod and restarts the others.

    The state is the MariaDB object in memory together with the [recoveryStatus]
    built from it.  Both hold Go maps, and [newRecoveryStatus] copies the map
    headers of the status, not their contents: while a map is shared, a write
    through one is a write to the other ([gs_sharedState], [gs_sharedRecovered]).
    The agent's HTTP client (its constructor and the calls) is a parameter. *)

From S2P Require Import Prelude GoStrings StatefulSet Datastructures GaleraState.
From S2P Require Import Conditions MariaDBTypes RecoveryStatus Concurrency Kube Wait.
From S2P Require Import Sql Health ConditionSetters Version Replication.

Local Open Scope Z_scope.
Local Open Scope go_scope.

Record grec := mkGrec {
  gs_mdb : MariaDB;
  gs_rs : recoveryStatus;
  gs_sharedState : bool;
  gs_sharedRecovered : bool;
  gs_sql : gset Z
}.

Definition is_not_nil {A} (m : option A) : bool := if m is Some _ then true else false.

(** [rs := newRecoveryStatus(mariadb)] *)
Definition start_recovery (mdb : MariaDB) : grec :=
  let status := default GaleraRecoveryStatus_zero (st_GaleraRecovery (m_Status mdb)) in
  mkGrec mdb (newRecoveryStatus mdb)
    (is_not_nil (grs_State status)) (is_not_nil (grs_Recovered status)) ∅.

(** [rs.setState], [rs.setRecovered]: the write is seen by the object as well while
    the map is shared with it. *)
Definition write_shared (shared : bool) (f : GaleraRecoveryStatus → GaleraRecoveryStatus)
    (mdb : MariaDB) : MariaDB :=
  if shared then { mdb with m_Status -> st_GaleraRecovery :=
                     f <$> st_GaleraRecovery (m_Status mdb) } else mdb.
Definition gs_setState (pod : string) (state : GaleraState) (s : grec) : grec :=
  { s with gs_rs := setState (gs_rs s) pod (Some state);
           gs_mdb := write_shared (gs_sharedState s) (λ r, setState r pod (Some state)) (gs_mdb s) }.
Definition gs_setRecovered (pod : string) (bootstrap : Bootstrap) (s : grec) : grec :=
  { s with gs_rs := setRecovered (gs_rs s) pod (Some bootstrap);
           gs_mdb := write_shared (gs_sharedRecovered s)
                       (λ r, setRecovered r pod (Some bootstrap)) (gs_mdb s) }.

(** [rs.reset()] gives the status a new inner value. *)
Definition gs_reset (s : grec) : grec :=
  { s with gs_rs := reset (gs_rs s); gs_sharedState := false; gs_sharedRecovered := false }.

Section galera.
Context `{MapRange} `{SliceSort} `{StatusConditions} (CLUSTER_NAME : string).
Context (uuid_Parse : string → bool) (agent_NewClient : string → result unit).

(** ** clientset.go *)
Definition agent_validateIndex (mariadb : MariaDB) (index : Z) : result unit :=
  if bool_decide (0 ≤ index) && bool_decide (index < sp_Replicas (m_Spec mariadb)) then Ok tt
  else Err (ErrNew "index out of MariaDB replicas bounds").

Definition baseUrl (mariadb : MariaDB) (index : Z) : string :=
  (if IsTLSEnabled mariadb then "https" else "http") +:+ "://" +:+
  PodFQDNWithService CLUSTER_NAME (m_meta mariadb) index (nn_Name (InternalServiceKey mariadb)) +:+
  ":" +:+ Itoa (agent_Port (ga_Agent (default Galera_zero (sp_Galera (m_Spec mariadb))))).

(** The cache of clients only saves the calls of a constructor that always gives
    the same answer. *)
Definition agent_clientForIndex (mariadb : MariaDB) (index : Z) : result Z :=
  _ ← wrap_err "invalid index." (agent_validateIndex mariadb index);
  _ ← wrap_err "error creating client" (agent_NewClient (baseUrl mariadb index));
  Ok index.

Definition newAgentClientSet (mariadb : MariaDB) : result unit :=
  if negb (IsGaleraEnabled mariadb)
  then Err (ErrNew "'mariadb.spec.galera.enabled' should be enabled to create an agent agentClientSet")
  else Ok tt.

Section generic.
Context {S : Type}.

(** The secrets behind the options of the agent's client. *)
Definition r_newAgentClientSet (mariadb : MariaDB) : M S op unit :=
  let agent := ga_Agent (default Galera_zero (sp_Galera (m_Spec mariadb))) in
  let kubernetesAuth := default KubernetesAuth_zero (agent_KubernetesAuth agent) in
  let basicAuth := default BasicAuth_zero (agent_BasicAuth agent) in
  let ns := Namespace (m_meta mariadb) in
  (if ka_Enabled kubernetesAuth then ret tt
   else if ba_Enabled basicAuth &&
           negb (bool_decide (ba_PasswordSecretKeyRef basicAuth = SecretKeyRef_zero)) then
     _password <- wrap "error getting agent password"
       (call (KSecretKey (gsk_selector (ba_PasswordSecretKeyRef basicAuth)) ns)) ;;
     ret tt
   else ret tt) ;;;
  (if IsTLSEnabled mariadb then
     let name := nn_Name (TLSClientCertSecretKey mariadb) in
     _ca <- wrap "error reading TLS CA bundle" (call (KSecretKey (TLSCABundleSecretKeyRef mariadb) ns)) ;;
     _cert <- wrap "error reading TLS cert" (call (KSecretKey (mkSecretKeySelector name "tls.crt") ns)) ;;
     _key <- wrap "error reading TLS key" (call (KSecretKey (mkSecretKeySelector name "tls.key") ns)) ;;
     ret tt
   else ret tt) ;;;
  lift (newAgentClientSet mariadb).

(** galeraerrors.IsNotFound *)
Definition agent_IsNotFound (e : error) : bool :=
  match e with ErrHttp code _ => bool_decide (code = 404) | _ => false end.

Definition call_agent {X} (e : op (agent_reply X)) : M S op X :=
  r <- ask e ;; lift (of_agent r).

(** ** pkg/galera/client *)
Definition IsPodHealthy (sqlClient : Z) : M S op bool :=
  status <- wrap "error getting cluster status" (GaleraClusterStatus sqlClient) ;;
  ret (bool_decide (status = "Primary")).
Definition GaleraStateSynced : string := "Synced".
Definition IsPodSynced (sqlClient : Z) : M S op bool :=
  healthy <- wrap "error checking Pod health" (IsPodHealthy sqlClient) ;;
  if negb (healthy : bool) then ret false else
  state <- wrap "error getting local state" (GaleraLocalState sqlClient) ;;
  ret (bool_decide (state = GaleraStateSynced)).

(** ** recovery.go *)
Definition disableBootstrap (mariadb : MariaDB) : M S op unit :=
  wrap "error creating agent client set" (r_newAgentClientSet mariadb) ;;;
  for_each (seq_replicas mariadb) (λ i,
    agentClient <- wrap "error creating agent client" (lift (agent_clientForIndex mariadb i)) ;;
    r <- try (call_agent (AgentDisableBootstrap agentClient)) ;;
    match r with
    | Ok _ => ret tt
    | Err err => if agent_IsNotFound err then ret tt
                 else throw (ErrWrap "error disabling bootstrap in Pod" err)
    end).

Definition pollUntilPodHealthy (ctx : Z) (mariadb : MariaDB) (podKey : NamespacedName) : M S op unit :=
  i <- wrap "error getting index for Pod" (lift (PodIndex (nn_Name podKey))) ;;
  client <- wrap "error getting client for Pod" (lift (agent_clientForIndex mariadb i)) ;;
  PollWithMariaDB ctx (ObjectKey mariadb) (
    pod <- wrap "error getting Pod" (call (KGetPod podKey)) ;;
    if negb (bool_decide (pod_Phase pod = "Running")) then throw (ErrNew "Pod not running") else
    healthy <- wrap "error getting Galera health" (call_agent (AgentHealth client)) ;;
    if negb (healthy : bool) then throw (ErrNew "Galera not healthy") else ret tt).

Definition ensurePodHealthy (ctx : Z) (mariadb : MariaDB) (podKey : NamespacedName) : M S op unit :=
  r <- try (pollUntilPodHealthy (WithTimeout ctx (30 * Second)) mariadb podKey) ;;
  match r with
  | Ok _ => ret tt
  | Err _ =>
      _pod <- wrap "error getting Pod" (call (KGetPod podKey)) ;;
      wrap "error deleting Pod" (call (KDeletePod podKey)) ;;;
      pollUntilPodHealthy ctx mariadb podKey
  end.

Definition ensureJob (key : NamespacedName) : M S op unit :=
  r <- try (call (KGetJob key)) ;;
  match r with
  | Ok _ => ret tt
  | Err err => if IsNotFound err then call (KCreateRecoveryJob key) else throw err
  end.

Definition pollUntilPodDeleted (ctx : Z) (mariadb : MariaDB) (podKey : NamespacedName) : M S op unit :=
  PollWithMariaDB ctx (ObjectKey mariadb) (
    _pod <- wrap "error getting Pod" (call (KGetPod podKey)) ;;
    wrap "error deleting Pod" (call (KDeletePod podKey))).

Definition getJobLogs (key : NamespacedName) : M S op string :=
  job <- wrap "error getting Job" (call (KGetJob key)) ;;
  podList <- wrap "error listing Pods" (call (KListPods (job_Selector job) (job_Namespace job))) ;;
  match podList with
  | [] => throw (ErrNew "no Pods were found")
  | pod :: _ =>
      wrap "error getting Pod logs"
        (call (KPodLogs (mkNamespacedName (pod_Name pod) (job_Namespace job))))
  end.

Definition enableBootstrapWithSource (ctx : Z) (mariadb : MariaDB) (src : bootstrapSource) :
    M S op unit :=
  idx <- wrap "error getting index for Pod" (lift (PodIndex (src_pod src))) ;;
  client <- wrap "error getting client for Pod" (lift (agent_clientForIndex mariadb idx)) ;;
  let podKey := mkNamespacedName (src_pod src) (Namespace (m_meta mariadb)) in
  wrap "error enabling bootstrap in Pod"
    (PollWithMariaDB ctx (ObjectKey mariadb) (
       ensurePodHealthy ctx mariadb podKey ;;;
       call_agent (AgentEnableBootstrap client (src_bootstrap src)))).

Definition disableBootstrapInPod (ctx : Z) (mariadb : MariaDB) (podKey : NamespacedName) :
    M S op unit :=
  index <- wrap "error getting Pod index" (lift (PodIndex (nn_Name podKey))) ;;
  client <- wrap "error getting agent client" (lift (agent_clientForIndex mariadb index)) ;;
  wrap "error disabling bootstrap in Pod"
    (PollWithMariaDB ctx (ObjectKey mariadb) (
       ensurePodHealthy ctx mariadb podKey ;;;
       r <- try (call_agent (AgentDisableBootstrap client)) ;;
       match r with
       | Ok _ => ret tt
       | Err err => if agent_IsNotFound err then ret tt else throw err
       end)).

Definition patchStatefulSetReplicas (ctx : Z) (mariadb : MariaDB) (replicas : Z) : M S op unit :=
  let key := ObjectKey mariadb in
  sts <- wrap "error getting StatefulSet" (call (KGetStatefulSet key)) ;;
  wrap "error patching StatefulSet"
    (call (KPatchStatefulSet key { sts with sts_SpecReplicas := Some replicas })) ;;;
  PollWithMariaDB ctx key (
    sts <- wrap "error getting StatefulSet" (call (KGetStatefulSet key)) ;;
    if bool_decide (sts_Replicas sts = replicas) then ret tt
    else throw (ErrNew "waiting for StatefulSet Pods")).

Definition getPods (mariadb : MariaDB) : M S op (list Pod) :=
  items <- wrap "error listing Pods"
    (call (KListPods (WithMariaDBSelectorLabels mariadb ∅) (Namespace (m_meta mariadb)))) ;;
  ret (sortPodList (filter (λ p, pod_NodeName p ≠ "") items)).
End generic.

(** ** The goroutines: each leaves the value it hands to the recovery status *)
Definition fetchState (mariadb : MariaDB) (pod : Pod) : M (option GaleraState) op unit :=
  i <- wrap "error getting index for Pod" (lift (PodIndex (pod_Name pod))) ;;
  client <- wrap "error getting client for Pod" (lift (agent_clientForIndex mariadb i)) ;;
  let recoveryTimeout := default (5 * Minute) (gr_PodRecoveryTimeout (mdb_recovery mariadb)) in
  let podKey := mkNamespacedName (pod_Name pod) (pod_Namespace pod) in
  wrap "error getting Galera state for Pod"
    (PollWithMariaDB recoveryTimeout (ObjectKey mariadb) (
       ensurePodHealthy recoveryTimeout mariadb podKey ;;;
       r <- try (call_agent (AgentGetState client)) ;;
       match r with
       | Err err => if agent_IsNotFound err then ret tt
                    else throw (ErrWrap "error getting Galera state for Pod" err)
       | Ok galeraState => modify (λ _, Some galeraState)
       end)).

Definition recoverPod (mariadb : MariaDB) (pod : Pod) : M (option Bootstrap) op unit :=
  let recoveryJobKey := RecoveryJobKey mariadb (pod_Name pod) in
  wrap "error building recovery Job for Pod" (call (KBuildRecoveryJob recoveryJobKey (pod_Name pod))) ;;;
  wrap "error ensuring recovery Job for Pod" (ensureJob recoveryJobKey) ;;;
  let recoveryTimeout := default (5 * Minute) (gr_PodRecoveryTimeout (mdb_recovery mariadb)) in
  r <- try (PollWithMariaDB recoveryTimeout (ObjectKey mariadb) (
         job <- wrap "error getting recovery Job for Pod" (call (KGetJob recoveryJobKey)) ;;
         if negb (IsJobComplete (Some job)) then throw (ErrNew "recovery Job not complete") else
         logs <- wrap "error getting logs from recovery Job" (getJobLogs recoveryJobKey) ;;
         bootstrap <- wrap "error unmarshalling recovery logs from Job"
           (lift (Bootstrap_Unmarshal uuid_Parse logs)) ;;
         modify (λ _, Some bootstrap))) ;;
  _r <- try (call (KDeleteJob recoveryJobKey)) ;;
  wrap "error performing recovery in Pod" (lift r).

(** Start one goroutine per Pod, wait for all of them, hand their values over.  The
    writes go to the keys of different Pods, so their order does not matter
    ([fetched_states_order_irrelevant]). *)
Definition run_group {A} (pods : list Pod) (f : Pod → M (option A) op unit)
    (set : string → A → grec → grec) : M grec op unit := λ s,
  bind_prog (join ((λ p, f p None) <$> pods)) (λ rs,
  bind_prog (first_error rs.*2) (λ r,
  Ret (foldl (λ s '(p, v), match v with Some a => set (pod_Name p) a s | None => s end)
         s (zip pods rs.*1), r))).

Definition getGaleraState (pods : list Pod) : M grec op unit :=
  s <- get ;;
  run_group (filter (λ p, (rs_state (gs_rs s) (pod_Name p)).2 = false) pods)
    (fetchState (gs_mdb s)) gs_setState.

Definition recoverGaleraState (pods : list Pod) : M grec op unit :=
  s <- get ;;
  let mariadb := gs_mdb s in
  let recovery := mdb_recovery mariadb in
  let downscaleTimeout := default (5 * Minute) (gr_ClusterDownscaleTimeout recovery) in
  wrap "error downscaling cluster" (patchStatefulSetReplicas downscaleTimeout mariadb 0) ;;;
  r <- try (run_group (filter (λ p, (rs_recovered (gs_rs s) (pod_Name p)).2 = false) pods)
              (recoverPod mariadb) gs_setRecovered) ;;
  let upscaleTimeout := default (5 * Minute) (gr_ClusterUpscaleTimeout recovery) in
  _r <- try (patchStatefulSetReplicas upscaleTimeout mariadb (sp_Replicas (m_Spec mariadb))) ;;
  lift r.

(** ** Status *)
Definition gs_patchStatus (patcher : MariaDB → MariaDBStatus) : M grec op unit := λ s,
  let m' := { gs_mdb s with m_Status := patcher (gs_mdb s) } in
  Vis (KPatchStatus (gs_mdb s) m') (λ r, Ret ({ s with gs_mdb := m' }, r)).

(** The struct written to the status is a copy that shares the maps. *)
Definition patchRecoveryStatus : M grec op unit :=
  s <- get ;;
  let rs := galeraRecoveryStatus (gs_rs s) in
  modify (λ s, { s with gs_sharedState := is_not_nil (grs_State rs);
                        gs_sharedRecovered := is_not_nil (grs_Recovered rs) }) ;;;
  gs_patchStatus (λ m, { m_Status m with st_GaleraRecovery :=
    if bool_decide (rs = GaleraRecoveryStatus_zero) then None else Some rs }).

Definition resetRecovery : M grec op unit :=
  modify gs_reset ;;;
  patchRecoveryStatus.

Definition rs_setBootstrapping (pod : string) : M grec op unit :=
  now <- ask TimeNow ;;
  modify (λ s, { s with gs_rs := setBootstrapping now (gs_rs s) pod }).

Definition rs_bootstrapSource (forced : option string) : M grec op bootstrapSource :=
  s <- get ;;
  lift (get_bootstrapSource (gs_rs s) (gs_mdb s) forced).

(** ** recoverCluster *)
Definition recoverCluster (pods : list Pod) : M grec op unit :=
  s <- get ;;
  match gr_ForceClusterBootstrapInPod (mdb_recovery (gs_mdb s)) with
  | Some forced =>
      src <- wrap "error getting source to forcefully bootstrap" (rs_bootstrapSource (Some forced)) ;;
      rs_setBootstrapping (src_pod src) ;;;
      patchRecoveryStatus
  | None =>
      r1 <- try (getGaleraState pods) ;;
      r2 <- try patchRecoveryStatus ;;
      wrap "error getting state" (lift (multierror r1 r2)) ;;;
      src <- try (rs_bootstrapSource None) ;;
      match src with
      | Ok src =>
          rs_setBootstrapping (src_pod src) ;;;
          patchRecoveryStatus
      | Err _ =>
          r1 <- try (recoverGaleraState pods) ;;
          r2 <- try patchRecoveryStatus ;;
          wrap "error performing recovery" (lift (multierror r1 r2)) ;;;
          src <- wrap "error getting bootstrap source" (rs_bootstrapSource None) ;;
          rs_setBootstrapping (src_pod src) ;;;
          wrap "error patching recovery status" patchRecoveryStatus
      end
  end.

(** ** restartPods *)
Definition sql_clientForIndex (index : Z) : M grec op Z :=
  s <- get ;;
  c <- ClientForIndex (gs_mdb s) (bool_decide (index ∈ gs_sql s)) index ;;
  modify (λ s, { s with gs_sql := {[ index ]} ∪ gs_sql s }) ;;;
  ret c.

Definition pollUntilPodSynced (ctx : Z) (mariadb : MariaDB) (podKey : NamespacedName) : M grec op unit :=
  PollWithMariaDB ctx (ObjectKey mariadb) (
    _pod <- wrap "error getting Pod" (call (KGetPod podKey)) ;;
    podIndex <- wrap "error getting Pod index" (lift (PodIndex (nn_Name podKey))) ;;
    sqlClient <- wrap "error getting SQL client" (sql_clientForIndex podIndex) ;;
    synced <- wrap "error checking Pod sync" (IsPodSynced sqlClient) ;;
    if negb (synced : bool) then throw (ErrNew "Pod not synced") else ret tt).

(** The Pods in the order they are restarted: the bootstrap Pod first. *)
Definition restart_order (mariadb : MariaDB) (bootstrapPod : string) : list string :=
  bootstrapPod :: filter (λ name, name ≠ bootstrapPod)
                    (PodName (m_meta mariadb) <$> seq_replicas mariadb).

Definition restartPod (mariadb : MariaDB) (src : bootstrapSource) (name : string) : M grec op unit :=
  let podKey := mkNamespacedName name (Namespace (m_meta mariadb)) in
  let syncTimeout := default (5 * Minute) (gr_PodSyncTimeout (mdb_recovery mariadb)) in
  (if bool_decide (name = src_pod src)
   then wrap "error enabling bootstrap in Pod" (enableBootstrapWithSource syncTimeout mariadb src)
   else wrap "error disabling bootstrap in Pod" (disableBootstrapInPod syncTimeout mariadb podKey)) ;;;
  wrap "error restarting Pod"
    (PollWithMariaDB syncTimeout (ObjectKey mariadb) (
       wrap "error deleting Pod" (pollUntilPodDeleted syncTimeout mariadb podKey) ;;;
       wrap "error waiting for Pod to be synced" (pollUntilPodSynced syncTimeout mariadb podKey))).

Definition restartPods : M grec op unit :=
  s <- get ;;
  let mariadb := gs_mdb s in
  src <- wrap "error getting source to forcefully bootstrap"
    (rs_bootstrapSource (gr_ForceClusterBootstrapInPod (mdb_recovery mariadb))) ;;
  if bool_decide (src_pod src = "")
  then throw (ErrNew "unable to restart Pods. Cluster hasn't been bootstrapped") else
  for_each (restart_order mariadb (src_pod src)) (restartPod mariadb src) ;;;
  modify (λ s, { s with gs_rs := setPodsRestarted (gs_rs s) true }) ;;;
  wrap "error patching recovery status" patchRecoveryStatus.

(** ** reconcileRecovery *)
Definition reconcileRecovery_rs (pods : list Pod) : M grec op unit :=
  now <- ask TimeNow ;;
  s <- get ;;
  (if bootstrapTimeout now (gs_rs s) (gs_mdb s)
   then wrap "error resetting recovery" resetRecovery else ret tt) ;;;
  s <- get ;;
  (if negb (isBootstrapping (gs_rs s))
   then wrap "error recovering cluster" (recoverCluster pods) else ret tt) ;;;
  s <- get ;;
  if negb (podsRestarted (gs_rs s)) then wrap "error restarting Pods" restartPods else ret tt.

Definition reconcileRecovery : M MariaDB op ctrl_Result :=
  mariadb <- get ;;
  pods <- wrap "error getting Pods" (getPods mariadb) ;;
  if pods is [] then ret (requeue_after (5 * Second)) else
  wrap "error getting agent client" (r_newAgentClientSet mariadb) ;;;
  (λ m, bind_prog (reconcileRecovery_rs pods (start_recovery m))
          (λ '(s, r), Ret (gs_mdb s, match r with Ok _ => Ok Result_zero | Err e => Err e end))).

(** ** controller.go *)
Definition galera_shouldReconcileSwitchover (mdb : MariaDB) : bool :=
  if IsMaxScaleEnabled mdb || IsRestoringBackup mdb || IsUpdating mdb || IsResizingStorage mdb
  then false
  else match st_CurrentPrimaryPodIndex (m_Status mdb) with
       | None => false
       | Some currentPodIndex =>
           let desiredPodIndex :=
             default 0 (pg_PodIndex (ga_Primary (default Galera_zero (sp_Galera (m_Spec mdb))))) in
           negb (bool_decide (currentPodIndex = desiredPodIndex))
       end.

Definition galera_Reconcile : M MariaDB op ctrl_Result :=
  mariadb <- get ;;
  if negb (IsGaleraEnabled mariadb) then ret Result_zero else
  sts <- call (KGetStatefulSet (ObjectKey mariadb)) ;;
  result <- (if HasGaleraNotReadyCondition mariadb then reconcileRecovery else ret Result_zero) ;;
  if negb (Result_IsZero result) then ret result else
  mariadb <- get ;;
  (if negb (HasGaleraReadyCondition mariadb) &&
      bool_decide (sts_ReadyReplicas sts = sp_Replicas (m_Spec mariadb)) then
     disableBootstrap mariadb ;;;
     wrap "error patching Galera status"
       (patchStatus_m (λ m, SetGaleraConfigured (SetGaleraReady (m_Status m))))
   else ret tt) ;;;
  mariadb <- get ;;
  (if galera_shouldReconcileSwitchover mariadb then
     let toIndex := default 0 (pg_PodIndex (ga_Primary (default Galera_zero (sp_Galera (m_Spec mariadb))))) in
     wrap "error patching current primary status"
       (patchStatus_m (λ m, UpdateCurrentPrimary (m_Status m) m toIndex))
   else ret tt) ;;;
  ret Result_zero.
End galera.
