(* ===== verification/GaleraSafety.v ===== *)
(** * Properties of the Galera recovery

    What every run of the recovery does to the Pods, the agents and the status of
    the cluster, for all answers of the API server, the databases and the agents
    and all interleavings of the goroutines. *)

From S2P Require Import Prelude GoStrings StatefulSet Datastructures GaleraState.
From S2P Require Import Conditions MariaDBTypes RecoveryStatus Concurrency Kube Wait.
From S2P Require Import Sql Health ConditionSetters Version Replication Switchover.
From S2P Require Import GaleraRecovery.

Local Open Scope Z_scope.
Local Open Scope go_scope.

(** ** What a trace shows *)
Definition podKey (m : MariaDB) (name : string) : NamespacedName :=
  mkNamespacedName name (Namespace (m_meta m)).

(** The Pod was deleted by a request that succeeded. *)
Definition pod_deleted (m : MariaDB) (name : string) (t : trace) : Prop :=
  Ev (KDeletePod (podKey m name)) (Ok tt) ∈ t.

(** The server of the Pod said it is in the primary component and synced. *)
Definition pod_synced (name : string) (t : trace) : Prop :=
  ∃ i, PodIndex name = Ok i ∧
    Ev (SqlQueryRow i statusVariableSql ["wsrep_cluster_status"]) (Reply "Primary") ∈ t ∧
    Ev (SqlQueryRow i statusVariableSql ["wsrep_local_state_comment"]) (Reply "Synced") ∈ t.

(** The Pod was restarted, or the MariaDB no longer exists. *)
Definition pod_restarted (m : MariaDB) (name : string) (t : trace) : Prop :=
  gone (ObjectKey m) t ∨ (pod_deleted m name t ∧ pod_synced name t).

(** The agent of the source Pod accepted the position to bootstrap from. *)
Definition bootstrap_enabled (m : MariaDB) (src : bootstrapSource) (t : trace) : Prop :=
  gone (ObjectKey m) t ∨
  ∃ i, PodIndex (src_pod src) = Ok i ∧
    Ev (AgentEnableBootstrap i (src_bootstrap src)) (AgentOk tt) ∈ t.

Definition enables_only (src : bootstrapSource) (e : event op) : Prop :=
  match ev_op e with
  | AgentEnableBootstrap i b => PodIndex (src_pod src) = Ok i ∧ b = src_bootstrap src
  | _ => True
  end.

Definition deletes_only (name : string) (e : event op) : Prop :=
  match ev_op e with KDeletePod key => nn_Name key = name | _ => True end.
Definition deletes_other (name : string) (e : event op) : Prop :=
  match ev_op e with KDeletePod key => nn_Name key ≠ name | _ => False end.

Lemma pod_restarted_incl m name (t t' : trace) : t ⊆ t' → pod_restarted m name t → pod_restarted m name t'.
Proof.
  intros Hs [?|[? (i & ? & ? & ?)]]; [left; by eapply gone_incl|right]. split; [by apply Hs|].
  exists i. auto.
Qed.
Lemma bootstrap_enabled_incl m src (t t' : trace) :
  t ⊆ t' → bootstrap_enabled m src t → bootstrap_enabled m src t'.
Proof. intros Hs [?|(i & ? & ?)]; [left; by eapply gone_incl|right]. exists i. auto. Qed.

Section recovery.
Context `{RANGE : MapRange} `{SORT : SliceSort} `{COND : StatusConditions} (CLUSTER_NAME : string).
Context (uuid_Parse : string → bool) (agent_NewClient : string → result unit).

Lemma agent_clientForIndex_ok m i c : agent_clientForIndex CLUSTER_NAME agent_NewClient m i = Ok c → c = i.
Proof.
  unfold agent_clientForIndex. intros (? & _ & (? & _ & [= <-])%result_bind_Ok)%result_bind_Ok. done.
Qed.

(** ** Frames *)
Ltac poll_always :=
  repeat lazymatch goal with
  | |- alwaysM _ (PollWithMariaDB _ _ _) => apply alwaysM_poll; [intros ?|]
  | |- alwaysM _ _ => always_step
  end.
Ltac poll_keeps :=
  repeat lazymatch goal with
  | |- keepsM _ (PollWithMariaDB _ _ _) => apply keepsM_poll; [apply _|]
  | |- keepsM _ _ => keeps_step
  end.

Lemma ensurePodHealthy_deletes {S} ctx m name :
  alwaysM (deletes_only name) (ensurePodHealthy CLUSTER_NAME agent_NewClient (S:=S) ctx m (podKey m name)).
Proof. poll_always; done. Qed.

(** ** Restarting one Pod *)
Lemma pollUntilPodDeleted_ok {S} ctx m name :
  okM (pollUntilPodDeleted (S:=S) ctx m (podKey m name)) (λ _ t, gone (ObjectKey m) t ∨ pod_deleted m name t).
Proof.
  apply okM_poll; [unfold pod_deleted; set_solver|].
  eapply okM_bind; [by apply (okM_true _ (λ _ _, True))|]. intros _ t _.
  apply okM_wrap, okM_call. intros []. unfold pod_deleted. set_solver.
Qed.

Lemma StatusVariable_ok {S} c var : okM (S:=S) (StatusVariable c var) (λ v t,
  Ev (SqlQueryRow c statusVariableSql [var]) (Reply v) ∈ t).
Proof. apply okM_call_reply. set_solver. Qed.

Lemma IsPodSynced_ok {S} c : okM (S:=S) (IsPodSynced c) (λ b t, b = true →
  Ev (SqlQueryRow c statusVariableSql ["wsrep_cluster_status"]) (Reply "Primary") ∈ t ∧
  Ev (SqlQueryRow c statusVariableSql ["wsrep_local_state_comment"]) (Reply "Synced") ∈ t).
Proof.
  unfold IsPodSynced. apply (okM_bind _ _ (λ b t, b = true →
    Ev (SqlQueryRow c statusVariableSql ["wsrep_cluster_status"]) (Reply "Primary") ∈ t)).
  - apply okM_wrap. eapply okM_bind; [apply okM_wrap, StatusVariable_ok|]. intros v t Ht.
    apply okM_ret. intros ->%bool_decide_eq_true. set_solver.
  - intros [] t Ht; [|by apply okM_ret].
    eapply okM_bind; [apply okM_wrap, StatusVariable_ok|]. intros v t' Ht'.
    apply okM_ret. intros ->%bool_decide_eq_true. specialize (Ht eq_refl). set_solver.
Qed.

Lemma sql_clientForIndex_ok i : okM (sql_clientForIndex i) (λ c _, c = i).
Proof.
  intros s. unfold sql_clientForIndex, ClientForIndex. wp_auto; cbn; naive_solver.
Qed.

Lemma pollUntilPodSynced_ok ctx m name :
  okM (pollUntilPodSynced ctx m (podKey m name)) (λ _ t, gone (ObjectKey m) t ∨ pod_synced name t).
Proof.
  apply okM_poll; [intros t t' (i & ? & ? & ?); exists i; set_solver|].
  eapply okM_bind; [by apply (okM_true _ (λ _ _, True))|]. intros _ t1 _.
  apply (okM_bind _ _ (λ i t, PodIndex name = Ok i)); [by apply okM_wrap, okM_lift|]. intros i t2 Hi.
  eapply okM_bind; [apply okM_wrap, sql_clientForIndex_ok|]. intros c t3 ->.
  eapply okM_bind; [apply okM_wrap, IsPodSynced_ok|]. intros [] t4 Ht; [|apply okM_throw].
  apply okM_ret. destruct (Ht eq_refl). exists i. split; [done|]. set_solver.
Qed.

Lemma enableBootstrap_ok {S} ctx m src :
  okM (S:=S) (enableBootstrapWithSource CLUSTER_NAME agent_NewClient ctx m src) (λ _ t, bootstrap_enabled m src t).
Proof.
  unfold enableBootstrapWithSource.
  apply (okM_bind _ _ (λ i t, PodIndex (src_pod src) = Ok i)); [by apply okM_wrap, okM_lift|]. intros i t1 Hi.
  apply (okM_bind _ _ (λ c t, c = i)).
  { apply okM_wrap, okM_lift. intros c. apply agent_clientForIndex_ok. }
  intros c t2 ->. apply okM_wrap. eapply okM_mono; [|apply (okM_poll _ _ _ (λ t,
    Ev (AgentEnableBootstrap i (src_bootstrap src)) (AgentOk tt) ∈ t))].
  - intros _ t [Hg|He]; [left; eapply gone_incl; [|exact Hg]|right; exists i; split; [done|]]; set_solver.
  - set_solver.
  - eapply okM_bind; [by apply (okM_true _ (λ _ _, True))|]. intros _ t3 _.
    intros s. unfold call_agent. wp_step. wp_step. wp_step. destruct x as [[]| |]; cbn; try done.
    intros _ _. set_solver.
Qed.

Lemma restartPod_ok m src name :
  okM (restartPod CLUSTER_NAME agent_NewClient m src name) (λ _ t,
    pod_restarted m name t ∧ (name = src_pod src → bootstrap_enabled m src t)).
Proof.
  unfold restartPod. apply (okM_bind _ _ (λ _ t, name = src_pod src → bootstrap_enabled m src t)).
  - case_bool_decide as Hn; apply okM_wrap; [|by apply okM_true].
    eapply okM_mono; [|apply enableBootstrap_ok]. auto.
  - intros [] t1 H1. apply okM_wrap. eapply okM_mono; [|apply (okM_poll _ _ _ (pod_restarted m name))].
    + intros u t2 H2. split; [|intros Hn; eapply bootstrap_enabled_incl; [|by apply H1]; set_solver].
      destruct H2 as [Hg|H2]; [left; eapply gone_incl; [|exact Hg]; set_solver|].
      eapply pod_restarted_incl; [|exact H2]. set_solver.
    + intros t t' Ht. eapply pod_restarted_incl; [|exact Ht]. set_solver.
    + eapply okM_bind; [apply okM_wrap, pollUntilPodDeleted_ok|]. intros [] t2 H2.
      eapply okM_mono; [|apply okM_wrap, pollUntilPodSynced_ok]. intros u2 t3 H3.
      destruct H2 as [Hg|Hd]; [left; eapply gone_incl; [|exact Hg]; set_solver|].
      destruct H3 as [Hg|(i & Hi & Hp & Hsy)]; [left; eapply gone_incl; [|exact Hg]; set_solver|right].
      split; [unfold pod_deleted in *; set_solver|]. exists i. set_solver.
Qed.

Lemma restartPod_deletes m src name :
  alwaysM (deletes_only name) (restartPod CLUSTER_NAME agent_NewClient m src name).
Proof.
  unfold restartPod. case_bool_decide as Hn; [subst name|]; poll_always; done.
Qed.

Lemma restartPod_enables m src name :
  alwaysM (enables_only src) (restartPod CLUSTER_NAME agent_NewClient m src name).
Proof.
  poll_always; try done. cbn. split; [|done].
  match goal with Hc : agent_clientForIndex _ _ _ _ = Ok _ |- _ => apply agent_clientForIndex_ok in Hc end.
  congruence.
Qed.

(** The loop leaves the object and the recovery status alone. *)
Definition same_status (s s' : grec) : Prop := gs_rs s' = gs_rs s ∧ gs_mdb s' = gs_mdb s.
#[local] Instance same_status_preorder : PreOrder same_status.
Proof. unfold same_status. split; [done|]. intros s1 s2 s3 [-> ->] [-> ->]. done. Qed.

Lemma restartPod_keeps m src name :
  keepsM same_status (restartPod CLUSTER_NAME agent_NewClient m src name).
Proof. poll_keeps; done. Qed.

Definition no_patch (e : event op) : Prop :=
  match ev_op e with KPatchStatus _ _ => False | _ => True end.
Lemma restartPod_no_patch m src name :
  alwaysM no_patch (restartPod CLUSTER_NAME agent_NewClient m src name).
Proof. poll_always; done. Qed.

(** ** Restarting all Pods *)
Definition restart_source (s : grec) : result bootstrapSource :=
  get_bootstrapSource (gs_rs s) (gs_mdb s) (gr_ForceClusterBootstrapInPod (mdb_recovery (gs_mdb s))).

Lemma restart_order_all m src i : 0 ≤ i < sp_Replicas (m_Spec m) →
  PodName (m_meta m) i ∈ restart_order m src.
Proof.
  intros Hi. unfold restart_order. destruct (decide (PodName (m_meta m) i = src)) as [<-|Hne]; [by left|right].
  apply list_elem_of_filter. split; [done|]. apply list_elem_of_fmap. exists i. split; [done|].
  apply elem_of_seqZ. lia.
Qed.

(** A status that says all Pods were restarted. *)
Definition says_restarted (e : event op) : Prop :=
  match ev_op e with
  | KPatchStatus _ m' => ∃ rs, st_GaleraRecovery (m_Status m') = Some rs ∧ grs_PodsRestarted rs = Some true
  | _ => False
  end.

Lemma restart_loop m src names s :
  wpM (for_each names (restartPod CLUSTER_NAME agent_NewClient m src)) s (λ t s' r,
    same_status s s' ∧ Forall no_patch t ∧ Forall (enables_only src) t ∧
    (r = Ok tt → ∀ name, name ∈ names → pod_restarted m name t)).
Proof.
  apply wpM_conj; [apply keepsM_for_each; [apply _|intros; apply restartPod_keeps]|].
  apply wpM_conj; [apply alwaysM_wpM, alwaysM_for_each; intros; apply restartPod_no_patch|].
  apply wpM_conj; [apply alwaysM_wpM, alwaysM_for_each; intros; apply restartPod_enables|].
  apply wpM_for_each with (I := λ l t _, ∃ done_, names = done_ ++ l ∧
    ∀ name, name ∈ done_ → pod_restarted m name t).
  - exists []. split; [done|]. intros name Hname. by apply elem_of_nil in Hname.
  - intros name l t s' (done_ & -> & Hd). eapply wpM_mono; [|apply restartPod_ok].
    intros t' s'' [[]|e] Ht; [|done]. exists (done_ ++ [name]). rewrite <- (assoc_L (++)). split; [done|].
    intros n [Hn|Hn%list_elem_of_singleton]%elem_of_app; [|subst n].
    + eapply pod_restarted_incl; [|by apply Hd]. set_solver.
    + destruct (Ht tt eq_refl) as [Hr _]. eapply pod_restarted_incl; [|exact Hr]. set_solver.
  - intros t s' (done_ & -> & Hd) _. by rewrite app_nil_r.
Qed.

Lemma restart_loop_first m src rest s :
  wpM (for_each (src_pod src :: rest) (restartPod CLUSTER_NAME agent_NewClient m src)) s (λ t _ _,
    guarded (deletes_other (src_pod src))
      (λ t1, bootstrap_enabled m src t1 ∧ pod_restarted m (src_pod src) t1) t).
Proof.
  cbn [for_each]. wp_step.
  eapply wpM_mono; [|apply wpM_conj; [apply restartPod_ok|apply alwaysM_wpM, restartPod_deletes]].
  intros t s' r [Hok Hd].
  assert (Forall (λ e, ¬ deletes_other (src_pod src) e) t) as Hn.
  { eapply Forall_impl; [exact Hd|]. intros [X o a]. unfold deletes_only, deletes_other. cbn. destruct o; cbn; tauto. }
  destruct r as [[]|e]; [|by apply guarded_none].
  destruct (Hok tt eq_refl) as [Hr Hb]. apply wp_true. intros t2 sr. apply guarded_app; [|done|auto].
  intros u u' [H1 H2]. split; [eapply bootstrap_enabled_incl; [|exact H1]|eapply pod_restarted_incl; [|exact H2]];
    set_solver.
Qed.

(** The object after the recovery status was written to it. *)
Definition with_recovery (m : MariaDB) (rs : recoveryStatus) : MariaDB :=
  { m with m_Status := { m_Status m with st_GaleraRecovery :=
      if bool_decide (rs = GaleraRecoveryStatus_zero) then None else Some rs } }.

Lemma wpM_patchRecoveryStatus s (Q : trace → grec → result unit → Prop) :
  (∀ r m', m' = with_recovery (gs_mdb s) (gs_rs s) →
     Q [Ev (KPatchStatus (gs_mdb s) m') r]
       (mkGrec m' (gs_rs s) (is_not_nil (grs_State (gs_rs s))) (is_not_nil (grs_Recovered (gs_rs s)))
          (gs_sql s)) r) →
  wpM patchRecoveryStatus s Q.
Proof. intros HQ. destruct s. unfold patchRecoveryStatus. do 4 wp_step. intros r. by apply HQ. Qed.

Lemma restartPods_spec s src : restart_source s = Ok src → src_pod src ≠ "" →
  wpM (restartPods CLUSTER_NAME agent_NewClient) s (λ t s' r,
    Forall (enables_only src) t ∧
    guarded (deletes_other (src_pod src))
      (λ t1, bootstrap_enabled (gs_mdb s) src t1 ∧ pod_restarted (gs_mdb s) (src_pod src) t1) t ∧
    guarded says_restarted
      (λ t1, ∀ name, name ∈ restart_order (gs_mdb s) (src_pod src) → pod_restarted (gs_mdb s) name t1) t ∧
    (r = Ok tt → podsRestarted (gs_rs s') = true ∧ grs_Bootstrap (gs_rs s') = grs_Bootstrap (gs_rs s))).
Proof.
  intros Hsrc Hne. unfold restartPods. wp_step. wp_step. wp_step. wp_step. unfold rs_bootstrapSource.
  wp_step. wp_step. wp_step. unfold restart_source in Hsrc. rewrite Hsrc. cbn [wrap_err app].
  rewrite bool_decide_false by done. wp_step.
  eapply wpM_mono; [|apply wpM_conj; [apply restart_loop|apply restart_loop_first]].
  intros t s1 r [([Hrs Hm] & Hnp & Hen & Hall) Hg].
  assert (Forall (λ e, ¬ says_restarted e) t) as Hns.
  { eapply Forall_impl; [exact Hnp|]. intros [X o a]. unfold no_patch, says_restarted. cbn. destruct o; cbn; tauto. }
  destruct r as [[]|e]; [|split_and!; [done|done|by apply guarded_none|done]].
  specialize (Hall eq_refl). wp_step. wp_step. wp_step. apply wpM_patchRecoveryStatus. cbn [app].
  intros x m' Hm'. split_and!.
  - apply Forall_app_2; [done|]. by constructor.
  - apply guarded_append; [done|]. apply guarded_none. constructor; [by intros []|done].
  - apply guarded_app; [|done|done]. intros u u' Hu name Hname.
    eapply pod_restarted_incl; [|by apply Hu]. set_solver.
  - intros _. cbn. by rewrite Hrs.
Qed.


(** The status says that the Pods were restarted only after every Pod of the
    cluster was deleted and then reported itself synced (or the MariaDB is gone). *)
Theorem galera_restart_complete s :
  wpM (restartPods CLUSTER_NAME agent_NewClient) s (λ t _ _,
    guarded says_restarted
      (λ t1, is_ok (restart_source s) = true ∧
         ∀ i, 0 ≤ i < sp_Replicas (m_Spec (gs_mdb s)) →
           pod_restarted (gs_mdb s) (PodName (m_meta (gs_mdb s)) i) t1) t).
Proof.
  destruct (restart_source s) as [src|e] eqn:Hsrc;
    [destruct (decide (src_pod src = "")) as [Hempty|Hne]|].
  - unfold restartPods, rs_bootstrapSource. do 7 wp_step. unfold restart_source in Hsrc. rewrite Hsrc.
    cbn [wrap_err]. rewrite bool_decide_true by done. wp_step. by apply guarded_none.
  - eapply wpM_mono; [|by apply restartPods_spec]. intros t s' r (_ & _ & Hg & _).
    eapply guarded_mono; [|exact Hg]. intros u Hu. split; [done|]. intros i Hi. by apply Hu, restart_order_all.
  - unfold restartPods, rs_bootstrapSource. do 7 wp_step. unfold restart_source in Hsrc. rewrite Hsrc.
    by apply guarded_none.
Qed.

(** ** The recovery status and the object share their maps *)

(** The object's status and the recovery status are the same value, and the write of
    a Pod's state goes to both. *)
Definition shared (s : grec) : Prop :=
  gs_sharedState s = true ∧ st_GaleraRecovery (m_Status (gs_mdb s)) = Some (gs_rs s) ∧
  grs_State (gs_rs s) ≠ None.

Lemma newRecoveryStatus_eq m rs : st_GaleraRecovery (m_Status m) = Some rs → newRecoveryStatus m = rs.
Proof. intros Hrs. unfold newRecoveryStatus. rewrite Hrs. destruct rs as [[] [] [] []]; done. Qed.

Lemma start_shared m rs : st_GaleraRecovery (m_Status m) = Some rs → grs_State rs ≠ None →
  shared (start_recovery m).
Proof.
  intros Hrs Hst. unfold shared. cbn. rewrite (newRecoveryStatus_eq m rs) by done. rewrite Hrs. cbn.
  split_and!; [|done..]. by destruct (grs_State rs).
Qed.

Lemma setState_shared pod st s : shared s → shared (gs_setState pod st s).
Proof.
  intros (Hs & Hrs & Hst). unfold shared, gs_setState, write_shared. cbn. rewrite Hs. cbn. by rewrite Hrs.
Qed.

Lemma with_recovery_same m rs : st_GaleraRecovery (m_Status m) = Some rs → grs_State rs ≠ None →
  with_recovery m rs = m.
Proof.
  intros Hrs Hst. unfold with_recovery. rewrite bool_decide_false by (intros ->; done).
  destruct m as [? ? [] ?]. cbn in *. by rewrite Hrs.
Qed.

(** A group of goroutines that hand over values with [set]. *)
Lemma run_group_spec {A} pods (f : Pod → M (option A) op unit) set s
    (P : event op → Prop) (I : grec → Prop) :
  (∀ p, p ∈ pods → alwaysM P (f p)) → (∀ pod a s, I s → I (set pod a s)) → I s →
  wpM (run_group pods f set) s (λ t s' _, Forall P t ∧ I s').
Proof.
  intros HP Hset HI. unfold wpM, run_group. apply wp_bind.
  eapply wp_mono; [|apply always_wp, always_join]; cycle 1.
  { apply Forall_fmap, Forall_forall. intros p Hp. by apply HP. }
  intros t rs Ht. apply wp_bind. eapply wp_mono; [|apply wp_first_error]. intros t' r [-> _]. cbn.
  rewrite app_nil_r. split; [done|]. generalize (zip pods rs.*1). intros l. clear - Hset HI.
  revert s HI. induction l as [|[p [a|]] l IH]; intros s HI; cbn; auto.
Qed.

Lemma fetchState_no_patch m pod :
  alwaysM no_patch (fetchState CLUSTER_NAME agent_NewClient m pod).
Proof. poll_always; done. Qed.

(** When the status already has the states of some Pods, the states a later
    reconciliation fetches are written into the map it shares with the object before
    the object is copied: the patch that should save them carries no change. *)
Theorem fetched_states_not_patched m rs pods :
  st_GaleraRecovery (m_Status m) = Some rs → grs_State rs ≠ None →
  wpM (_r <- try (getGaleraState CLUSTER_NAME agent_NewClient pods) ;; patchRecoveryStatus)
    (start_recovery m) (λ t _ _, Forall (λ e,
      match ev_op e with KPatchStatus base m' => m' = base | _ => True end) t).
Proof.
  intros Hrs Hst. wp_step. wp_step. unfold getGaleraState. wp_step. wp_step.
  eapply wpM_mono; [|apply (run_group_spec _ _ _ _ no_patch shared)].
  - intros t s' r [Hnp (_ & Heq & Hne)]. cbn [app]. apply wpM_patchRecoveryStatus. intros x m' ->.
    apply Forall_app_2.
    + eapply Forall_impl; [exact Hnp|]. intros [X o a]. unfold no_patch. cbn. by destruct o.
    + constructor; [|done]. cbn. by apply with_recovery_same.
  - intros p _. apply fetchState_no_patch.
  - intros pod st s'. apply setState_shared.
  - by apply (start_shared m rs).
Qed.

(** ** Recovery Jobs *)

(** The numbers of replicas the recovery asked for, in order. *)
Definition scale_of (e : event op) : option (option Z) :=
  match ev_op e with KPatchStatefulSet _ sts => Some (sts_SpecReplicas sts) | _ => None end.
Definition scales (t : trace) : list (option Z) := omap scale_of t.
Lemma scales_app t t' : scales (t ++ t') = scales t ++ scales t'.
Proof. apply omap_app. Qed.
Definition no_scale (e : event op) : Prop := scale_of e = None.
Lemma scales_none (t : trace) : Forall no_scale t → scales t = [].
Proof. induction 1 as [|e t He _ IH]; [done|]. unfold scales in *. cbn. by rewrite He. Qed.

(** The StatefulSet was seen without Pods, or the MariaDB is gone. *)
Definition downscaled (m : MariaDB) (t : trace) : Prop :=
  gone (ObjectKey m) t ∨ ∃ sts, Ev (KGetStatefulSet (ObjectKey m)) (Ok sts) ∈ t ∧ sts_Replicas sts = 0.
Definition get_failed (m : MariaDB) (t : trace) : Prop :=
  ∃ e, Ev (KGetStatefulSet (ObjectKey m)) (Err e) ∈ t.

Definition starts_job (e : event op) : Prop :=
  match ev_op e with KBuildRecoveryJob _ _ | KCreateRecoveryJob _ => True | _ => False end.

Lemma patchReplicas_spec {S} ctx m n (s : S) :
  wpM (patchStatefulSetReplicas ctx m n) s (λ t _ r,
    (scales t = [Some n] ∨ (scales t = [] ∧ get_failed m t)) ∧
    (r = Ok tt → scales t = [Some n] ∧ (gone (ObjectKey m) t ∨
       ∃ sts, Ev (KGetStatefulSet (ObjectKey m)) (Ok sts) ∈ t ∧ sts_Replicas sts = n))).
Proof.
  unfold patchStatefulSetReplicas. wp_step. wp_step. wp_step; cbn [wrap_err].
  2: { split; [right; split; [done|]; exists e; set_solver|done]. }
  wp_step. wp_step. wp_step; cbn [wrap_err]; [|by split; [left|]].
  eapply wpM_mono; [|apply wpM_conj; [apply (okM_poll _ _ _ (λ t,
      ∃ sts, Ev (KGetStatefulSet (ObjectKey m)) (Ok sts) ∈ t ∧ sts_Replicas sts = n))|
    apply (alwaysM_wpM no_scale)]].
  - intros t s' r [Hok Hns%scales_none]. cbn [app].
    assert (scales (Ev (KGetStatefulSet (ObjectKey m)) (Ok a)
      :: Ev (KPatchStatefulSet (ObjectKey m) {| sts_meta := sts_meta a; sts_SpecReplicas := Some n;
           sts_Replicas := sts_Replicas a; sts_ReadyReplicas := sts_ReadyReplicas a;
           sts_UpdateRevision := sts_UpdateRevision a |}) (Ok a0) :: t) = [Some n]) as Hsc.
    { unfold scales in *. cbn. by rewrite Hns. }
    split; [by left|]. intros ->. split; [exact Hsc|].
    destruct (Hok tt eq_refl) as [Hg|(sts & Hsts & Hn)]; [left; eapply gone_incl; [|exact Hg]; set_solver|right].
    exists sts. set_solver.
  - intros t t' (sts & ? & ?). exists sts. set_solver.
  - apply (okM_bind _ _ (λ sts t, Ev (KGetStatefulSet (ObjectKey m)) (Ok sts) ∈ t)).
    { apply okM_wrap, okM_call. set_solver. }
    intros sts t Ht. case_bool_decide as Hn; [|apply okM_throw]. apply okM_ret.
    exists sts. rewrite app_nil_r. done.
  - poll_always; done.
Qed.

Lemma recoverPod_no_scale m pod : alwaysM no_scale (recoverPod uuid_Parse m pod).
Proof. poll_always; done. Qed.

(** A recovery Job, which mounts the volume of a Pod, is built and created only
    after the StatefulSet was scaled to zero and seen without Pods (or the MariaDB is
    gone); and a recovery that started a Job or returns without an error has asked for
    the original number of replicas again, whether the Jobs succeeded or not, unless the
    StatefulSet could not even be read. *)
Theorem galera_jobs_after_downscale pods s :
  wpM (recoverGaleraState uuid_Parse pods) s (λ t _ r,
    guarded starts_job (downscaled (gs_mdb s)) t ∧
    (r = Ok tt ∨ Exists starts_job t →
       scales t = [Some 0; Some (sp_Replicas (m_Spec (gs_mdb s)))] ∨
       (scales t = [Some 0] ∧ get_failed (gs_mdb s) t))).
Proof.
  unfold recoverGaleraState. wp_step. wp_step. cbn [app]. wp_step. wp_step.
  eapply wpM_mono; [|apply wpM_conj; [apply patchReplicas_spec|apply (alwaysM_wpM (λ e, ¬ starts_job e))]].
  2: { poll_always; by intros []. }
  intros t1 s1 r1 [[H1 Hok1] Hn1].
  destruct r1 as [[]|e]; cbn [wrap_err];
    [|split; [by apply guarded_none|intros [?|He]; [done|]; by apply Forall_not_Exists in Hn1]].
  destruct (Hok1 eq_refl) as [Hsc Hd]. wp_step. wp_step.
  eapply wpM_mono; [|apply (run_group_spec _ _ _ _ no_scale (λ _, True))]; [|by intros; apply recoverPod_no_scale|done|done].
  intros t2 s2 r2 [Hns%scales_none _]. wp_step. wp_step.
  eapply wpM_mono; [|apply patchReplicas_spec]. intros t3 s3 r3 [H3 _]. wp_step. cbn.
  rewrite app_nil_r. split.
  - apply guarded_app; [|done|exact Hd]. intros u u' [Hg|(sts & Hs & Hr)];
      [left; eapply gone_incl; [|exact Hg]; set_solver|right; exists sts; set_solver].
  - intros _. rewrite !scales_app, Hsc, Hns. destruct H3 as [->|[-> (e & He)]]; [by left|right].
    split; [done|]. exists e. set_solver.
Qed.

(** ** The outcome of a recovery *)
Definition bootstrapping (s : grec) : Prop := isBootstrapping (gs_rs s) = true.

Lemma bootstrap_and_patch pod s :
  wpM (rs_setBootstrapping pod ;;; patchRecoveryStatus) s (λ _ s' r, r = Ok tt → bootstrapping s').
Proof.
  unfold rs_setBootstrapping. do 4 wp_step. by apply wpM_patchRecoveryStatus.
Qed.

Lemma recoverCluster_ok pods s :
  wpM (recoverCluster CLUSTER_NAME uuid_Parse agent_NewClient pods) s (λ _ s' r, r = Ok tt → bootstrapping s').
Proof.
  unfold recoverCluster. apply wpM_skip; [|done]. intros s0 s1.
  destruct (gr_ForceClusterBootstrapInPod _) as [forced|].
  - apply wpM_skip; [|done]. intros src s2. apply bootstrap_and_patch.
  - do 3 (apply wpM_skip; [|done]; intros ? ?). apply wpM_skip; [|done]. intros [src|e] s2.
    + apply bootstrap_and_patch.
    + do 4 (apply wpM_skip; [|done]; intros ? ?). unfold rs_setBootstrapping. do 5 wp_step.
      apply wpM_patchRecoveryStatus. done.
Qed.

Lemma restartPods_ok s :
  wpM (restartPods CLUSTER_NAME agent_NewClient) s (λ _ s' r, r = Ok tt →
    podsRestarted (gs_rs s') = true ∧ grs_Bootstrap (gs_rs s') = grs_Bootstrap (gs_rs s)).
Proof.
  destruct (restart_source s) as [src|e] eqn:Hsrc;
    [destruct (decide (src_pod src = "")) as [Hempty|Hne]|].
  2: { eapply wpM_mono; [|by apply restartPods_spec]. by intros t s' r (_ & _ & _ & Hok). }
  all: unfold restartPods, rs_bootstrapSource; do 7 wp_step; unfold restart_source in Hsrc; rewrite Hsrc;
    cbn [wrap_err]; try done.
  rewrite bool_decide_true by done. by wp_step.
Qed.

(** A recovery that returns without an error has decided from which Pod to
    bootstrap and has restarted all Pods. *)
Theorem galera_recovery_outcome pods s :
  wpM (reconcileRecovery_rs CLUSTER_NAME uuid_Parse agent_NewClient pods) s (λ _ s' r, r = Ok tt →
    isBootstrapping (gs_rs s') = true ∧ podsRestarted (gs_rs s') = true).
Proof.
  unfold reconcileRecovery_rs. apply wpM_skip; [|done]. intros now sa. apply wpM_skip; [|done].
  intros sb sc. apply wpM_skip; [|done]. intros [] s0. wp_step. wp_step.
  wp_step. destruct (negb (isBootstrapping _)) eqn:Hb.
  - wp_step. eapply wpM_mono; [|apply recoverCluster_ok]. intros t s1 [[]|e] Hbs; cbn [wrap_err]; [|done].
    specialize (Hbs eq_refl). wp_step. wp_step. destruct (negb (podsRestarted (gs_rs s1))) eqn:Hr.
    + wp_step. eapply wpM_mono; [|apply restartPods_ok]. intros t' s' [[]|e] Hok; cbn [wrap_err]; [|done].
      intros _. destruct (Hok eq_refl) as [Hp Hbb]. split; [|done]. unfold bootstrapping, isBootstrapping in *.
      by rewrite Hbb.
    + wp_step. intros _. split; [done|]. by apply negb_false_iff.
  - wp_step. wp_step. wp_step. apply negb_false_iff in Hb. destruct (negb (podsRestarted _)) eqn:Hr.
    + wp_step. eapply wpM_mono; [|apply restartPods_ok]. intros t' s' [[]|e] Hok; cbn [wrap_err]; [|done].
      intros _. destruct (Hok eq_refl) as [Hp Hbb]. split; [|done]. unfold isBootstrapping in *.
      by rewrite Hbb.
    + wp_step. intros _. split; [done|]. by apply negb_false_iff.
Qed.

Definition same_meta (s s' : grec) : Prop := m_meta (gs_mdb s') = m_meta (gs_mdb s).
#[local] Instance same_meta_preorder : PreOrder same_meta.
Proof. unfold same_meta. split; [done|]. intros x y z. congruence. Qed.




End recovery.

(** ** A second reconciliation that fetches the state of another Pod *)
Definition rs_first : GaleraRecoveryStatus :=
  mkGaleraRecoveryStatus (Some {[ PodName meta_ex 0 := Some (mkGaleraState "2.1" "a" 7 false) ]})
    None None None.
Definition mdb_galera : MariaDB :=
  { MariaDB_zero meta_ex with
    m_Spec -> sp_Replicas := 3;
    m_Spec -> sp_Galera := Some { Galera_zero with ga_Enabled := true };
    m_Status -> st_GaleraRecovery := Some rs_first }.
Definition galera_pods : list Pod :=
  (λ i, ready_pod (mkNamespacedName (PodName meta_ex i) (Namespace meta_ex))) <$> [0; 1].
Definition fetch_run : trace * (grec * result unit) :=
  run healthy_cluster
    ((_r <- try (getGaleraState "cluster.local" (λ _, Ok tt) galera_pods) ;; patchRecoveryStatus)
       (start_recovery mdb_galera)) [].

(** The new state is known in memory, and the patch that should save it is empty. *)
Lemma fetched_states_not_patched_witness :
  fetch_run.2.2 = Ok tt ∧
  (rs_state (gs_rs fetch_run.2.1) (PodName meta_ex 1)).2 = true ∧
  rs_state rs_first (PodName meta_ex 1) = (None, false) ∧
  Forall (λ e, match ev_op e with KPatchStatus base m' => m' = base | _ => True end) fetch_run.1.
Proof.
  split; [vm_compute; reflexivity|]. split; [vm_compute; reflexivity|]. split; [vm_compute; reflexivity|].
  apply (wpM_sound _ _ _ (fetched_states_not_patched "cluster.local" (λ _, Ok tt) mdb_galera rs_first
    galera_pods eq_refl ltac:(discriminate)) healthy_cluster []).
Defined.
