(* ===== verification/MariaDBReconcile.v ===== *)
(** * The reconciliation of a MariaDB

    [MariaDBReconciler.Reconcile] of internal/controller/mariadb_controller.go: the phases that the
    other files model, in the order of the source, and the loop over them. *)

From S2P Require Import Prelude GoStrings StatefulSet Datastructures Conditions MariaDBTypes MaxScaleTypes.
From S2P Require Import Concurrency Kube Health ConditionSetters PhysicalBackup Pki Certificate MariaDBTLS Version.
From S2P Require Import Replication Status StorageResize MariaDBDefaults MariaDBInit MariaDBServices MariaDBPhases.
From S2P Require Import MaxScaleDefaults MaxScaleClient MaxScalePhase GaleraRecovery.

Local Open Scope Z_scope.
Local Open Scope go_scope.

(** The operations of all the phases. *)
Inductive rop : Type → Type :=
  | RX {X} (o : xop X) : rop X
  | RPb {X} (o : pbop X) : rop X.

Section reconciler.
Context `{MapRange} `{SliceSort} `{StatusConditions} `{X509} `{DockerReference} `{VersionLib}.
Context (CLUSTER_NAME : string) (env : OperatorEnv).
Context (uuid_Parse : string → bool) (agent_NewClient : string → result unit).
(** [Spec.MaxScale] of the MariaDB, of which [sp_MaxScale] says whether it is enabled. *)
Context (mdbmxs : MariaDBMaxScaleSpec).
Abbreviation C := (M MariaDB rop).

Definition r_x {A} (m : M MariaDB xop A) : C A := hoistM (λ _ o, RX o) m.
Definition r_pb {A} (m : M MariaDB pbop A) : C A := hoistM (λ _ o, RPb o) m.
Definition r_ph {A} (m : M MariaDB phop A) : C A := hoistM (λ _ o, RX (XPh o)) m.
Definition r_svc {A} (m : M MariaDB vop A) : C A := hoistM (λ _ o, RX (XPh (HSvc o))) m.
Definition r_init {A} (m : M MariaDB iop A) : C A := hoistM (λ _ o, RX (XPh (HIni o))) m.
Definition r_cert {A} (m : M MariaDB certop A) : C A := hoistM (λ _ o, RX (XCert o)) m.
Definition r_sts {A} (m : M MariaDB stop A) : C A := hoistM (λ _ o, RX (XSts o)) m.
Definition r_base {A} (m : M MariaDB op A) : C A := hoistM (λ _ o, RX (XPh (HSvc (VBase o)))) m.

(** The replication reconciler opens its clients anew, and closes them when it returns. *)
Definition r_repl {A} (m : M repl_state op A) : M MariaDB op A := λ mdb,
  bind_prog (m (mkReplState mdb ∅)) (λ '(s, r), Ret (rp_mdb s, r)).

(** ** The phases *)
Definition mariadb_phases : list (string * C ctrl_Result) :=
  [ ("Spec", r_pb (setSpecDefaults env));
    ("Status", r_cert (reconcileStatus CLUSTER_NAME (env_MariadbDefaultVersion env)));
    ("Suspend", r_ph reconcileSuspend);
    ("Secret", r_ph reconcileSecret);
    ("ConfigMap", r_ph reconcileConfigMap);
    ("TLS", r_cert (reconcileTLS CLUSTER_NAME));
    ("RBAC", r_ph reconcileRBAC);
    ("Init", r_init reconcileInit);
    ("Storage", r_sts reconcileStorage);
    ("StatefulSet", r_sts reconcileStatefulSet);
    ("PodDisruptionBudget", r_svc reconcilePodDisruptionBudget);
    ("Service", r_svc reconcileService);
    ("Replication", r_base (r_repl (Replication.Reconcile CLUSTER_NAME (env_MariadbDefaultVersion env))));
    ("Labels", r_svc reconcilePodLabels);
    ("Galera", r_base (galera_Reconcile CLUSTER_NAME uuid_Parse agent_NewClient));
    ("Restore", r_ph reconcileRestore);
    ("MaxScale", r_x (MaxScale_Reconcile mdbmxs));
    ("SQL", r_ph reconcileSQL);
    ("Metrics", r_ph (reconcileMetrics Hash));
    ("Connection", r_ph reconcileConnection) ].

(** ** The loop *)
Definition requeueResult (mdb : MariaDB) : ctrl_Result :=
  if IsTLSEnabled mdb then requeue_after (5 * Minute) else Result_zero.

Definition patch_failed (name : string) (err : error) : C unit :=
  r_base (patchStatus_with (set_status (λ m,
    Ready_PatcherFailed ("Error reconciling " +:+ name +:+ ": " +:+ Error err) (m_Status m)))).

Fixpoint run_phases (phases : list (string * C ctrl_Result)) : C ctrl_Result :=
  match phases with
  | [] => mdb <- get ;; ret (requeueResult mdb)
  | (name, reconcile) :: phases =>
      r <- try reconcile ;;
      match r with
      | Err err =>
          if shouldSkipPhase err then run_phases phases else
          r <- try (patch_failed name err) ;;
          let patchErr := match r with Err e => if IsNotFound e then Ok tt else r | Ok _ => r end in
          wrap ("error reconciling " +:+ name) (lift (multierror (Err err) patchErr)) ;;;
          run_phases phases
      | Ok result => if Result_IsZero result then run_phases phases else ret result
      end
  end.

(** A MariaDB that is gone is left alone. *)
Definition MariaDB_Reconcile (key : NamespacedName) : prog rop (result ctrl_Result) :=
  Vis (RX (XPh (HSvc (VBase (KGetMariaDB key))))) (λ r,
    match r with
    | Err err => Ret match IgnoreNotFound err with Some err => Err err | None => Ok Result_zero end
    | Ok mariadb => bind_prog (run_phases mariadb_phases mariadb) (λ '(_, r), Ret r)
    end).
End reconciler.
