(* ===== verification/MariaDBReconcileSafety.v ===== *)
(** * What a reconciliation of a MariaDB does

    The loop over the phases as a relation between their runs, the MariaDBs that are only observed,
    the phases that move the primary, and the ways in which a reconciliation ends. *)

From S2P Require Import Prelude GoStrings StatefulSet Datastructures Conditions MariaDBTypes MaxScaleTypes.
From S2P Require Import Concurrency Kube Wait Health ConditionSetters PhysicalBackup Pki Certificate MariaDBTLS Version.
From S2P Require Import Replication Switchover Status StorageResize MariaDBDefaults MariaDBInit MariaDBServices MariaDBPhases.
From S2P Require Import MaxScaleDefaults MaxScaleClient MaxScaleSafety MaxScalePhase GaleraRecovery MariaDBReconcile PkiExample.

Local Open Scope Z_scope.

Abbreviation rtrace := (list (event rop)).

Section loop.
Context `{MapRange} `{SliceSort} `{StatusConditions}.
Abbreviation C := (M MariaDB rop).

(** A phase that lets the loop go on. *)
Definition passes (r : result ctrl_Result) : Prop :=
  r = Ok Result_zero ∨ ∃ err, r = Err err ∧ shouldSkipPhase err = true.

Definition failed_status (name : string) (err : error) (m : MariaDB) : MariaDB :=
  { m with m_Status :=
      Ready_PatcherFailed ("Error reconciling " +:+ name +:+ ": " +:+ Error err) (m_Status m) }.
(** The error of the phase, and that of the patch unless the MariaDB is gone. *)
Definition phase_error (err : error) (patched : result unit) : result unit :=
  multierror (Err err) (match patched with Err e => if IsNotFound e then Ok tt else patched | Ok _ => patched end).

Definition api {X} (o : op X) : rop X := RX (XPh (HSvc (VBase o))).

(** One pass over the phases: the runs of the phases that let it go on, one after the other, up to
    the end of the list, a phase that asks for a requeue, or a phase that fails. *)
Inductive pass : list (string * C ctrl_Result) → MariaDB → rtrace → MariaDB → result ctrl_Result → Prop :=
  | pass_end m : pass [] m [] m (Ok (requeueResult m))
  | pass_next name p ps m t1 m1 r1 t2 m2 r :
      runs (p m) t1 (m1, r1) → passes r1 → pass ps m1 t2 m2 r →
      pass ((name, p) :: ps) m (t1 ++ t2) m2 r
  | pass_requeue name p ps m t m1 res :
      runs (p m) t (m1, Ok res) → res ≠ Result_zero →
      pass ((name, p) :: ps) m t m1 (Ok res)
  | pass_failed name p ps m t m1 err patched err' :
      runs (p m) t (m1, Err err) → shouldSkipPhase err = false →
      phase_error err patched = Err err' →
      pass ((name, p) :: ps) m (t ++ [Ev (api (KPatchStatus m1 (failed_status name err m1))) patched])
        (failed_status name err m1) (Err (ErrWrap ("error reconciling " +:+ name) err')).

Lemma runs_patch_failed name err m t m' r :
  runs (patch_failed name err m) t (m', r) ↔
  t = [Ev (api (KPatchStatus m (failed_status name err m))) r] ∧ m' = failed_status name err m.
Proof.
  cbn. split.
  - intros (x & t' & -> & -> & [=]). by subst.
  - intros [-> ->]. eauto.
Qed.

Lemma passes_zero r : passes r ↔ match r with
  | Ok res => Result_IsZero res = true
  | Err err => shouldSkipPhase err = true
  end.
Proof.
  unfold passes, Result_IsZero. destruct r as [res|err]; [rewrite bool_decide_eq_true|]; naive_solver.
Qed.

Lemma phase_error_Err err patched : ∃ err', phase_error err patched = Err err'.
Proof. unfold phase_error. destruct patched as [[]|e]; cbn; [eauto|]. destruct (IsNotFound e); eauto. Qed.

(** The handling of a failed phase never returns to the loop. *)
Lemma runs_failed name err ps m t m' r : runs ((
    r <- try (patch_failed name err) ;;
    wrap ("error reconciling " +:+ name) (lift (phase_error err r)) ;;;
    run_phases ps)%go m) t (m', r) ↔
  ∃ patched err', t = [Ev (api (KPatchStatus m (failed_status name err m))) patched] ∧
    m' = failed_status name err m ∧ phase_error err patched = Err err' ∧
    r = Err (ErrWrap ("error reconciling " +:+ name) err').
Proof.
  rewrite runs_bindM. split.
  - intros (t1 & s1 & r1 & (p & -> & [-> ->]%runs_patch_failed)%runs_try & t2 & -> & Hr).
    destruct (phase_error_Err err p) as [err' Hp]. rewrite Hp in Hr. cbn in Hr. destruct Hr as [-> [= -> ->]]. eauto 8.
  - intros (p & err' & -> & -> & Hp & ->). eexists _, _, (Ok p). split; [apply runs_try; eauto using runs_patch_failed|].
    + exists p. split; [done|]. by apply runs_patch_failed.
    + exists []. split; [done|]. rewrite Hp. done.
Qed.

Lemma run_phases_pass ps m t m' r :
  runs (run_phases ps m) t (m', r) ↔ pass ps m t m' r.
Proof.
  split.
  - revert m t. induction ps as [|[name p] ps IH]; intros m t; cbn [run_phases].
    + intros [-> [= -> ->]]. apply pass_end.
    + intros (t1 & m1 & r1 & (r' & -> & Hr)%runs_try & t2 & -> & Hk)%runs_bindM.
      destruct r' as [res|err]; [destruct (Result_IsZero res) eqn:Hz|destruct (shouldSkipPhase err) eqn:Hs].
      * eapply pass_next; [exact Hr|by apply passes_zero|by apply IH].
      * destruct Hk as [-> [= -> ->]]. rewrite app_nil_r. apply pass_requeue; [done|].
        intros ->. unfold Result_IsZero in Hz. by rewrite bool_decide_eq_false in Hz.
      * eapply pass_next; [exact Hr|by apply passes_zero|by apply IH].
      * apply runs_failed in Hk as (patched & err' & -> & -> & Hp & ->). by eapply pass_failed.
  - induction 1 as [m|name p ps m t1 m1 r1 t2 m2 r Hr Hp _ IH|name p ps m t m1 res Hr Hz
                   |name p ps m t m1 err patched err' Hr Hs Hp]; cbn [run_phases]; [done|..]; apply runs_bindM;
      (eexists _, _, (Ok _); split; [apply runs_try; eauto|]).
    + exists t2. split; [done|]. apply passes_zero in Hp. by destruct r1; rewrite Hp.
    + exists []. rewrite app_nil_r. split; [done|]. unfold Result_IsZero. by rewrite bool_decide_false.
    + eexists. split; [done|]. rewrite Hs. apply runs_failed. eauto 8.
Qed.

(** One phase of the loop, as a rule. *)
Lemma wpM_phase name p ps m (Q : rtrace → MariaDB → result ctrl_Result → Prop) :
  wpM p m (λ t1 m1 r1,
    (passes r1 → wpM (run_phases ps) m1 (λ t2 m2 r, Q (t1 ++ t2) m2 r)) ∧
    (∀ res, r1 = Ok res → res ≠ Result_zero → Q t1 m1 (Ok res)) ∧
    (∀ err patched err', r1 = Err err → shouldSkipPhase err = false →
       Q (t1 ++ [Ev (api (KPatchStatus m1 (failed_status name err m1))) patched]) (failed_status name err m1) (Err err'))) →
  wpM (run_phases ((name, p) :: ps)) m Q.
Proof.
  intros Hp. apply wp_runs. intros t [m' r] Hr%run_phases_pass. cbn [fst snd].
  inversion Hr as [|? ? ? ? t1 m1 r1 t2 m2 ? Hr1 Hps Hpass|? ? ? ? ? m1 res Hr1 Hz|? ? ? ? ? m1 err patched err' Hr1 Hs He];
    subst; apply (proj1 (wp_runs _ _) Hp) in Hr1 as (Hnext & Hreq & Hfail).
  - specialize (Hnext Hps). apply (proj1 (wp_runs _ _) Hnext t2 (m', r)). by apply run_phases_pass.
  - by apply Hreq.
  - by apply Hfail.
Qed.
End loop.

Section reconcile.
Context `{MapRange} `{SliceSort} `{StatusConditions} `{X509} `{DockerReference} `{VersionLib}.
Context (CLUSTER_NAME : string) (env : OperatorEnv).
Context (uuid_Parse : string → bool) (agent_NewClient : string → result unit) (mdbmxs : MariaDBMaxScaleSpec).
Abbreviation reconcile := (MariaDB_Reconcile CLUSTER_NAME env uuid_Parse agent_NewClient mdbmxs).
Abbreviation the_phases := (mariadb_phases CLUSTER_NAME env uuid_Parse agent_NewClient mdbmxs).

(** ** MariaDBs that are only observed *)
Definition op_observes {X} (o : op X) : Prop :=
  match o with
  | KDeletePod _ | KPatchPod _ | KPatchStatefulSet _ _ | KCreateRecoveryJob _ | KDeleteJob _ | KReconcilePassword _ _
  | SqlExec _ _ | AgentEnableBootstrap _ _ | AgentDisableBootstrap _ => False
  | _ => True
  end.
Definition certop_observes {X} (o : certop X) : Prop :=
  match o with
  | CBase o => op_observes o
  | CGetSecret _ | CCertificateExist | CGetCMCertificate _ | CGetConfigMapKey _ _ => True
  | _ => False
  end.
Definition pbop_observes {X} (o : pbop X) : Prop :=
  match o with
  | PBase o => op_observes o
  | PGetBackup _ | PListSnapshots _ _ => True
  | _ => False
  end.
(** The event reads, or patches the MariaDB itself. *)
Definition observes (e : event rop) : Prop :=
  match ev_op e with
  | RX (XPh (HSvc (VBase o))) => op_observes o
  | RX (XCert o) => certop_observes o
  | RPb o => pbop_observes o
  | _ => False
  end.

(** The MariaDB that a reconciliation is about: the answer of its first operation. *)
Definition xop_mariadb {X} (o : xop X) : X → option MariaDB :=
  match o in xop X return X → option MariaDB with
  | XPh o =>
      match o in phop X return X → option MariaDB with
      | HSvc o =>
          match o in vop X return X → option MariaDB with
          | VBase o =>
              match o in op X return X → option MariaDB with
              | KGetMariaDB _ => λ x, match x with Ok m => Some m | Err _ => None end
              | _ => λ _, None
              end
          | _ => λ _, None
          end
      | _ => λ _, None
      end
  | _ => λ _, None
  end.
Definition reads_mariadb (t : rtrace) : option MariaDB :=
  match t with
  | Ev o x :: _ => match o in rop X return X → option MariaDB with RX o => xop_mariadb o | RPb _ => λ _, None end x
  | [] => None
  end.

(** What makes the Suspend phase stop. *)
Definition set_aside (m : MariaDB) : bool := IsSuspended m || m_Deleting m.
Definition as_aside (m m' : MariaDB) : Prop := set_aside m' = set_aside m.
#[local] Instance as_aside_preorder : PreOrder as_aside.
Proof. unfold as_aside. split; [done|]. intros x y z. congruence. Qed.

Lemma SetDefaults_aside m m' : MariaDB_SetDefaults m env = Ok m' → as_aside m m'.
Proof.
  unfold MariaDB_SetDefaults, default_galera. intros (m1 & Hg & [= <-])%result_bind_Ok.
  assert (as_aside m m1) as Hm1.
  { destruct (sp_Galera _) as [g|]; [destruct (ga_Enabled g)|]; [|by simplify_eq..].
    by apply result_bind_Ok in Hg as (g' & _ & [= <-]). }
  etrans; [exact Hm1|]. unfold default_rest, PodTemplate_SetDefaults. by repeat case_match.
Qed.

Lemma keepsM_eq {S} {E : Type → Type} {A} (R : S → S → Prop) `{!PreOrder R} (m : M S E A) :
  keepsM eq m → keepsM R m.
Proof. intros Hm s. eapply wpM_mono; [|apply Hm]. by intros t s' r <-. Qed.

Ltac keeps_phase := repeat lazymatch goal with
  | |- keepsM _ (replicationStatus_loop _ _ _) => apply keepsM_eq; [apply _|apply replicationStatus_loop_keeps]
  | |- keepsM _ (for_each_result _ _) => apply keepsM_for_each_result; [apply _|intros ?]
  | |- keepsM _ (PollUntilSuccessOrContextCancel _ _) => apply keepsM_poll_until; [apply _|]
  | |- keepsM _ _ => keeps_step
  end.

Lemma keepsM_from {S E A} (R : S → S → Prop) `{!PreOrder R} (m : M S E A) s s1 :
  keepsM R m → R s s1 → wpM m s1 (λ _ s' _, R s s').
Proof. intros Hm Hs. eapply wpM_mono; [|apply Hm]. intros t s' r Hr. by etrans. Qed.

Lemma setSpecDefaults_frame (R : MariaDB → MariaDB → Prop) `{!PreOrder R} :
  (∀ m m', MariaDB_SetDefaults m env = Ok m' → R m m') →
  (∀ m b, R m { m with m_Spec -> sp_BootstrapFrom := Some b }) →
  keepsM R (setSpecDefaults env).
Proof.
  intros Hd Hb. unfold setSpecDefaults, spec_patcher. apply keepsM_bind; [done|keeps_phase|intros base].
  apply keepsM_bind; [done| |intros _].
  - intros m. do 3 wp_step. destruct (MariaDB_SetDefaults m env) as [m1|e] eqn:Hm; wp_step; [|done].
    wp_step. wp_step. apply (keepsM_from R); [|by apply Hd]. keeps_phase. apply Hb.
  - keeps_phase.
Qed.

Lemma setSpecDefaults_aside : keepsM as_aside (setSpecDefaults env).
Proof. apply setSpecDefaults_frame; [apply _|apply SetDefaults_aside|done]. Qed.

Lemma reconcileStatus_aside dv : keepsM as_aside (reconcileStatus CLUSTER_NAME dv).
Proof.
  keeps_phase; first [done|by intros ? ?|unfold defaultPrimary, setMaxScalePrimary; by repeat case_match].
Qed.

Lemma setSpecDefaults_observes : alwaysM (λ e, observes (hoist_event (λ _ o, RPb o) e)) (setSpecDefaults env).
Proof. by always_auto. Qed.

Lemma replicationStatus_loop_observes P mdb l acc :
  (∀ i x, P (Ev (SqlOpen i) x)) → (∀ i q a x, P (Ev (SqlQueryRow i q a) x)) → 
  alwaysM P (replicationStatus_loop mdb l acc).
Proof.
  intros. revert acc. induction l as [|i l IH]; intros acc; cbn [replicationStatus_loop]; [apply alwaysM_ret|].
  apply alwaysM_bind; [always_auto; auto|]. intros [c|e]; [|apply IH].
  apply alwaysM_bind; [always_auto; auto|]. intros [st|e]; apply IH.
Qed.
Lemma reconcileStatus_observes dv :
  alwaysM (λ e, observes (hoist_event (λ _ o, RX (XCert o)) e)) (reconcileStatus CLUSTER_NAME dv).
Proof.
  repeat lazymatch goal with
  | |- alwaysM _ (replicationStatus_loop _ _ _) => apply replicationStatus_loop_observes
  | |- alwaysM _ _ => always_step
  end; try done. 
Qed.

Ltac zero_result := repeat (apply (okM_bind _ _ (λ _ _, True)); [by apply okM_true|intros ? ? _]); by apply okM_ret.
Lemma setSpecDefaults_zero : okM (setSpecDefaults env) (λ res _, res = Result_zero).
Proof. unfold setSpecDefaults. zero_result. Qed.
Lemma reconcileStatus_zero dv : okM (reconcileStatus CLUSTER_NAME dv) (λ res _, res = Result_zero).
Proof.
  unfold reconcileStatus. apply (okM_bind _ _ (λ _ _, True)); [by apply okM_true|intros m ? _].
  destruct (IsSuspended m); zero_result.
Qed.

Definition aside_outcome (t : rtrace) (r : result ctrl_Result) : Prop :=
  Forall observes t ∧ ∀ res, r = Ok res → res = requeue_after (10 * Second).

Lemma suspend_stops ps m : set_aside m = true →
  wpM (run_phases (("Suspend", r_ph reconcileSuspend) :: ps)) m (λ t _ r, aside_outcome t r).
Proof.
  unfold set_aside. intros Hm. apply wpM_phase. unfold r_ph. apply wpM_hoist. unfold reconcileSuspend.
  assert (∀ res, Ok (requeue_after (10 * Second)) = Ok res → aside_outcome [] (Ok res)) as Hout.
  { intros res Hres. split; [constructor|]. congruence. }
  wp_auto; (split_and!; [|by eauto|done]); intros [Hz|(? & [=] & _)]; by vm_compute in Hz.
Qed.

Lemma observing_phase name (p : M MariaDB rop ctrl_Result) ps m :
  keepsM as_aside p → alwaysM observes p → okM p (λ res _, res = Result_zero) →
  (∀ m', set_aside m' = true → wpM (run_phases ps) m' (λ t _ r, aside_outcome t r)) →
  set_aside m = true → wpM (run_phases ((name, p) :: ps)) m (λ t _ r, aside_outcome t r).
Proof.
  intros Hk Ho Hz Hps Hm. apply wpM_phase.
  eapply wpM_mono; [|apply wpM_conj; [apply Hk|apply wpM_conj; [apply (alwaysM_wpM _ _ m Ho)|apply Hz]]].
  intros t m' r (Ha & Ht & Hr). split_and!.
  - intros _. eapply wpM_mono; [|apply Hps; unfold as_aside in Ha; congruence].
    intros t' m'' r' [Ht' Hr']. split; [by apply Forall_app|done].
  - intros res -> Hne. by destruct Hne; apply Hr.
  - intros err patched err' _ _. split; [|done]. apply Forall_app. split; [done|]. by repeat constructor.
Qed.

Lemma aside_pass m : set_aside m = true → wpM (run_phases the_phases) m (λ t _ r, aside_outcome t r).
Proof.
  unfold mariadb_phases.
  apply observing_phase; [apply keepsM_hoist, setSpecDefaults_aside|apply alwaysM_hoist, setSpecDefaults_observes|
    intros m1; apply wpM_hoist, setSpecDefaults_zero|].
  intros m1 Hm1.
  apply observing_phase; [apply keepsM_hoist, reconcileStatus_aside|apply alwaysM_hoist, reconcileStatus_observes|
    intros m2; apply wpM_hoist, reconcileStatus_zero| |done].
  intros m2 Hm2. by apply suspend_stops.
Qed.

(** C5: a reconciliation of a MariaDB that is suspended or being deleted only observes: it reads, and
    patches the MariaDB itself.  It ends with an error or with the request to look again in ten seconds,
    which no phase after the third can undo, because none runs. *)
Theorem suspended_mariadb_only_observed key :
  wp (reconcile key) (λ t r, ∀ m, reads_mariadb t = Some m → set_aside m = true →
    Forall observes t ∧ ∀ res, r = Ok res → res = requeue_after (10 * Second)).
Proof.
  unfold MariaDB_Reconcile. intros [m|err]; [|by cbn]. apply wp_bind. destruct (set_aside m) eqn:Hm.
  2: { apply wp_true. intros t [m' r]. cbn. intros m1 [= <-]. congruence. }
  generalize (aside_pass m Hm). unfold wpM. apply wp_mono.
  intros t [m' r] [Ht Hr] m1 [= <-] _. rewrite app_nil_r. split; [by constructor|done].
Qed.

(** ** The phases that move the primary *)
Definition current (m : MariaDB) : option Z := st_CurrentPrimaryPodIndex (m_Status m).
Definition same_current (m m' : MariaDB) : Prop := current m' = current m.
#[local] Instance same_current_preorder : PreOrder same_current.
Proof. unfold same_current. split; [done|]. intros x y z. congruence. Qed.

(** The primary stays or becomes [i], and the spec stays. *)
Definition may_move (i : Z) (m m' : MariaDB) : Prop :=
  m_Spec m' = m_Spec m ∧ (current m' = current m ∨ current m' = Some i).
#[local] Instance may_move_preorder i : PreOrder (may_move i).
Proof.
  unfold may_move. split; [by split; [|left]|]. intros x y z [Hs [Hc|Hc]] [Hs' [Hc'|Hc']]; split; try congruence;
    rewrite Hc'; auto.
Qed.
Lemma may_move_same i m m' : m_Spec m' = m_Spec m → same_current m m' → may_move i m m'.
Proof. intros Hs Hc. split; [done|by left]. Qed.

(** The Pod the spec names as the primary of a Galera cluster. *)
Definition galera_PodIndex (m : MariaDB) : Z :=
  default 0 (pg_PodIndex (ga_Primary (default Galera_zero (sp_Galera (m_Spec m))))).
Definition asked_primary (m : MariaDB) (i : Z) : Prop :=
  (rep_Enabled (replication m) = true ∧ i = primary_PodIndex m) ∨ (IsGaleraEnabled m = true ∧ i = galera_PodIndex m).

Definition repl_may_move (i : Z) (s s' : repl_state) : Prop := may_move i (rp_mdb s) (rp_mdb s').
#[local] Instance repl_may_move_preorder i : PreOrder (repl_may_move i).
Proof. unfold repl_may_move. split; [by intros s|]. intros x y z ? ?. by etrans. Qed.

Lemma run_goroutines_keeps i l f : keepsM (repl_may_move i) (run_goroutines l f).
Proof.
  intros s. unfold wpM, run_goroutines. apply wp_bind, wp_true. intros t [u|e]; (split; [done|by left]).
Qed.
Lemma patchStatus_keeps i f :
  (∀ m, st_CurrentPrimaryPodIndex (f m) = current m ∨ st_CurrentPrimaryPodIndex (f m) = Some i) →
  keepsM (repl_may_move i) (patchStatus f).
Proof. intros Hf s r. cbn. split; [done|]. apply (Hf (rp_mdb s)). Qed.

Lemma keepsM_for_each_elem {S E A} (R : S → S → Prop) `{!PreOrder R} (l : list A) (f : A → M S E unit) :
  (∀ x, x ∈ l → keepsM R (f x)) → keepsM R (for_each l f).
Proof.
  induction l as [|x l IH]; intros Hf; cbn [for_each]; [by apply keepsM_ret|].
  apply keepsM_bind; [done|apply Hf; by left|]. intros _. apply IH. intros y Hy. apply Hf. by right.
Qed.

Ltac keeps_repl := repeat lazymatch goal with
  | |- keepsM _ (run_goroutines _ _) => apply run_goroutines_keeps
  | |- keepsM _ (Replication.patchStatus _) => apply patchStatus_keeps; intros ?
  | |- keepsM _ (PollUntilSuccessOrContextCancel _ _) => apply keepsM_poll_until; [apply _|]
  | |- keepsM _ _ => keeps_step
  end.

Lemma phases_keep i p : p ∈ phases CLUSTER_NAME (env_MariadbDefaultVersion env) → keepsM (repl_may_move i) p.2.
Proof.
  unfold phases. intros Hp. set_unfold. destruct_or! Hp; subst p; cbn [snd]; keeps_repl; by split; [|left].
Qed.

Abbreviation repl_reconcile := (Replication.Reconcile CLUSTER_NAME (env_MariadbDefaultVersion env)).

(** The primary stays or becomes the one that the spec asks for. *)
Definition repl_moves (s s' : repl_state) : Prop :=
  repl_may_move (primary_PodIndex (rp_mdb s)) s s'.
Lemma PodIndex_spec m m' : m_Spec m' = m_Spec m → primary_PodIndex m' = primary_PodIndex m.
Proof. unfold primary_PodIndex, primary, replication, MariaDB_Replication. by intros ->. Qed.
#[local] Instance repl_moves_preorder : PreOrder repl_moves.
Proof.
  unfold repl_moves. split; [by intros s|]. intros x y z Hxy Hyz. etrans; [exact Hxy|].
  destruct Hxy as [Hs _]. by rewrite <-(PodIndex_spec (rp_mdb x) (rp_mdb y)).
Qed.

Lemma reconcileSwitchover_moves : keepsM repl_moves (reconcileSwitchover CLUSTER_NAME (env_MariadbDefaultVersion env)).
Proof.
  intros s. unfold reconcileSwitchover. wp_step. wp_step. destruct (shouldReconcileSwitchover _); cbn [negb]; [|by wp_step].
  apply (keepsM_from (repl_may_move (primary_PodIndex (rp_mdb s)))); [|done].
  apply keepsM_bind; [apply _| |intros _; apply keepsM_bind; [apply _| |intros _]].
  - apply keepsM_wrap, patchStatus_keeps. intros m. by left.
  - apply keepsM_for_each_elem; [apply _|]. intros p Hp. unfold run_phase.
    apply keepsM_bind; [apply _|by apply keepsM_try, phases_keep|]. intros r. keeps_repl.
  - apply keepsM_wrap, patchStatus_keeps. intros m. by right.
Qed.

Lemma reconcileReplication_moves : keepsM repl_moves (reconcileReplication CLUSTER_NAME (env_MariadbDefaultVersion env)).
Proof. keeps_repl; by split; [|left]. Qed.

Lemma repl_reconcile_moves s : wpM repl_reconcile s (λ _ s' _, s' = s ∨ rep_Enabled (replication (rp_mdb s)) = true ∧ repl_moves s s').
Proof.
  unfold Replication.Reconcile. wp_step. wp_step. destruct (rep_Enabled _); cbn [negb]; [|wp_step; by left].
  eapply wpM_mono; [intros t s' r Hr; right; split; [done|exact Hr]|].
  apply (keepsM_from repl_moves); [|done].
  repeat lazymatch goal with
  | |- keepsM _ (reconcileSwitchover _ _) => apply reconcileSwitchover_moves
  | |- keepsM _ (reconcileReplication _ _) => apply reconcileReplication_moves
  | |- keepsM _ _ => keeps_step
  end.
Qed.

(** Galera. *)
Definition grec_same (s s' : grec) : Prop := m_Spec (gs_mdb s') = m_Spec (gs_mdb s) ∧ same_current (gs_mdb s) (gs_mdb s').
#[local] Instance grec_same_preorder : PreOrder grec_same.
Proof. unfold grec_same. split; [done|]. intros x y z [? ?] [? ?]. split; [congruence|by etrans]. Qed.

Lemma write_shared_same shared f m :
  m_Spec (write_shared shared f m) = m_Spec m ∧ same_current m (write_shared shared f m).
Proof. unfold write_shared. by destruct shared. Qed.
Lemma foldl_same {A} (f : grec → A → grec) l s : (∀ s a, grec_same s (f s a)) → grec_same s (foldl f s l).
Proof. intros Hf. revert s. induction l as [|a l IH]; intros s; cbn; [done|]. by rewrite <-IH. Qed.
Lemma recovery_same pods : keepsM grec_same (reconcileRecovery_rs CLUSTER_NAME uuid_Parse agent_NewClient pods).
Proof.
  keeps_phase. all: try (by split). all: try (by intros ? ?; split).
  all: intros s; unfold wpM; cbn beta; apply wp_bind, wp_true; intros t rs; apply wp_bind, wp_true; intros t' r;
    apply (foldl_same _ _ s); intros s' [p [x|]]; [|done];
    apply write_shared_same.
Qed.


(** The current primary, and the spec, or the primary that the spec asks for. *)
Definition galera_moves (m m' : MariaDB) : Prop := may_move (galera_PodIndex m) m m'.
#[local] Instance galera_moves_preorder : PreOrder galera_moves.
Proof.
  unfold galera_moves. split; [by intros m|]. intros x y z Hxy Hyz. etrans; [exact Hxy|].
  destruct Hxy as [Hs _]. unfold galera_PodIndex in *. by rewrite <-Hs.
Qed.

Lemma keepsM_get_bind {S E A} (R : S → S → Prop) (f : S → M S E A) :
  (∀ s, wpM (f s) s (λ _ s' _, R s s')) → keepsM R (bind get f).
Proof. intros Hf s. apply wpM_bind, wpM_get, Hf. Qed.

Lemma reconcileRecovery_moves : keepsM galera_moves (reconcileRecovery CLUSTER_NAME uuid_Parse agent_NewClient).
Proof.
  keeps_phase. intros m. apply wp_bind. eapply wp_mono; [|apply (recovery_same _ (start_recovery m))].
  intros t [s r] [Hs Hc]. by apply may_move_same.
Qed.

Lemma galera_moves_spec m : wpM (galera_Reconcile CLUSTER_NAME uuid_Parse agent_NewClient) m
  (λ _ m' _, m' = m ∨ IsGaleraEnabled m = true ∧ galera_moves m m').
Proof.
  unfold galera_Reconcile. wp_step. wp_step. destruct (IsGaleraEnabled m); cbn [negb]; [|wp_step; by left].
  eapply wpM_mono; [intros t s' r Hr; right; split; [done|exact Hr]|].
  apply (keepsM_from galera_moves); [|done].
  apply keepsM_bind; [apply _|keeps_phase|intros sts].
  apply keepsM_bind; [apply _|case_match; [apply reconcileRecovery_moves|keeps_phase]|intros res].
  destruct (negb _); [keeps_phase|]. apply keepsM_bind; [apply _|keeps_phase|intros m2].
  apply keepsM_bind; [apply _|keeps_phase|intros _].
  { intros m3 r. by split; [|left]. }
  apply keepsM_get_bind. intros m3. fold (galera_PodIndex m3).
  wp_auto; try done. by intros [[]|e]; (split; [done|by right]).
Qed.

(** The phases that have nothing to do with the primary. *)
Lemma SetDefaults_current m m' : MariaDB_SetDefaults m env = Ok m' → same_current m m'.
Proof.
  unfold MariaDB_SetDefaults, default_galera. intros (m1 & Hg & [= <-])%result_bind_Ok.
  destruct (sp_Galera _) as [g|]; [destruct (ga_Enabled g)|]; [|by simplify_eq..].
  by apply result_bind_Ok in Hg as (g' & _ & [= <-]).
Qed.
Lemma setSpecDefaults_current : keepsM same_current (setSpecDefaults env).
Proof. apply setSpecDefaults_frame; [apply _|apply SetDefaults_current|done]. Qed.
Lemma get_cas_keeps {S} (R : S → S → Prop) `{!PreOrder R} selectors ns : keepsM R (get_cas selectors ns).
Proof.
  induction selectors as [|sel l IH]; cbn [get_cas];
    repeat lazymatch goal with |- keepsM _ (get_cas _ _) => exact IH | |- keepsM _ _ => keeps_step end.
Qed.
Lemma append_blocks_keeps {S} (R : S → S → Prop) `{!PreOrder R} skip b blocks :
  keepsM (E := pkiop) R (append_blocks skip b blocks).
Proof.
  revert b. induction blocks as [|block l IH]; intros b; cbn [append_blocks];
    repeat lazymatch goal with |- keepsM _ (append_blocks _ _ _) => apply IH | |- keepsM _ _ => keeps_step end.
Qed.
Lemma append_pems_keeps {S} (R : S → S → Prop) `{!PreOrder R} skip b pems :
  keepsM (E := pkiop) R (append_pems skip b pems).
Proof.
  revert b. induction pems as [|pem l IH]; intros b; cbn [append_pems];
    repeat lazymatch goal with
    | |- keepsM _ (append_pems _ _ _) => apply IH
    | |- keepsM _ (append_blocks _ _ _) => apply append_blocks_keeps, _
    | |- keepsM _ _ => keeps_step
    end.
Qed.
Ltac keeps_loops := repeat lazymatch goal with
  | |- keepsM _ (get_cas _ _) => apply get_cas_keeps, _
  | |- keepsM _ (append_pems _ _ _) => apply append_pems_keeps, _
  | |- keepsM _ (for_each_result _ _) => apply keepsM_for_each_result; [apply _|intros ?]
  | |- keepsM _ (PollUntilSuccessOrContextCancel _ _) => apply keepsM_poll_until; [apply _|]
  | |- keepsM _ HandleExpiredCert => unfold HandleExpiredCert, MariaDBTLS.certHandler
  | |- keepsM _ (ShouldRenewCert _) => unfold ShouldRenewCert, MariaDBTLS.certHandler
  | |- keepsM _ _ => keeps_step
  end.

Lemma reconcileTLS_current : keepsM same_current (reconcileTLS CLUSTER_NAME).
Proof. by keeps_loops. Qed.
Lemma reconcileInit_current : keepsM same_current reconcileInit.
Proof. by keeps_loops. Qed.
Lemma reconcileStorage_current : keepsM same_current reconcileStorage.
Proof. by keeps_loops. Qed.
Lemma reconcileStatefulSet_current : keepsM same_current reconcileStatefulSet.
Proof. by keeps_loops. Qed.
Lemma reconcilePodDisruptionBudget_current : keepsM same_current reconcilePodDisruptionBudget.
Proof. by keeps_loops. Qed.
Lemma reconcileService_current : keepsM same_current reconcileService.
Proof. by keeps_loops. Qed.
Lemma reconcilePodLabels_current : keepsM same_current reconcilePodLabels.
Proof. by keeps_loops. Qed.
Lemma MaxScale_Reconcile_current : keepsM same_current (MaxScale_Reconcile mdbmxs).
Proof. by keeps_loops. Qed.
Lemma other_phases_current p :
  p ∈ [reconcileSuspend; reconcileSecret; reconcileConfigMap; reconcileRBAC; reconcileRestore; reconcileSQL;
       reconcileMetrics Hash; reconcileConnection] → keepsM same_current p.
Proof. intros Hp. set_unfold. destruct_or! Hp; subst p; by keeps_loops. Qed.

(** The status phase, without a MaxScale and with a primary already in the status. *)
Definition undisturbed (m m' : MariaDB) : Prop :=
  sp_MaxScaleRef (m_Spec m) = None → current m ≠ None → m_Spec m' = m_Spec m ∧ same_current m m'.
#[local] Instance undisturbed_preorder : PreOrder undisturbed.
Proof.
  unfold undisturbed, same_current. split; [done|]. intros x y z Hxy Hyz Hr Hc.
  destruct (Hxy Hr Hc) as [Hs Hc']. destruct Hyz as [Hs' Hc'']; [congruence..|]. split; congruence.
Qed.
Lemma reconcileStatus_undisturbed dv : keepsM undisturbed (reconcileStatus CLUSTER_NAME dv).
Proof.
  keeps_phase; try done; try by intros m r _ _.
  all: intros Hr Hc.
  - unfold defaultPrimary, same_current, current in *. destruct (st_CurrentPrimaryPodIndex _) eqn:Hi; [by rewrite Hi|done].
  - unfold setMaxScalePrimary. by rewrite Hr.
  - split; [done|]. unfold same_current, current, Ready_PatcherRefResolver. by repeat case_match.
  - split; [done|]. unfold same_current, current. by repeat case_match.
  - split; [done|]. apply SetReadyWithMariaDB_primary.
Qed.

Definition moved_as_asked (m m' : MariaDB) : Prop := ∃ i, current m' = Some i ∧ asked_primary m' i.
Definition primary_kept (name : string) (p : M MariaDB rop ctrl_Result) : Prop :=
  ∀ m, sp_MaxScaleRef (m_Spec m) = None → current m ≠ None →
  wpM p m (λ _ m' _, current m' = current m ∨ (name = "Replication" ∨ name = "Galera") ∧ moved_as_asked m m').

Lemma unrelated_phase name {E : Type → Type} (f : ∀ X, E X → rop X) (p : M MariaDB E ctrl_Result) :
  keepsM same_current p → primary_kept name (hoistM f p).
Proof. intros Hp m _ _. apply wpM_hoist. eapply wpM_mono; [|apply Hp]. by left. Qed.

Lemma status_phase name dv : primary_kept name (r_cert (reconcileStatus CLUSTER_NAME dv)).
Proof.
  intros m Hr Hc. apply wpM_hoist. eapply wpM_mono; [|apply reconcileStatus_undisturbed].
  intros t m' r Hm. left. by apply Hm.
Qed.

Lemma asked_same_spec m m' : m_Spec m' = m_Spec m →
  (rep_Enabled (replication m) = true → asked_primary m' (primary_PodIndex m)) ∧
  (IsGaleraEnabled m = true → asked_primary m' (galera_PodIndex m)).
Proof.
  intros Hs. split; intros Hen; [left|right].
  - rewrite (PodIndex_spec _ _ Hs). split; [|done]. revert Hen. unfold replication, MariaDB_Replication. by rewrite Hs.
  - revert Hen. unfold IsGaleraEnabled, galera_PodIndex. by rewrite Hs.
Qed.

Lemma replication_phase : primary_kept "Replication" (r_base (r_repl repl_reconcile)).
Proof.
  intros m Hr Hc. apply wpM_hoist. unfold wpM, r_repl. apply wp_bind.
  eapply wp_mono; [|apply (repl_reconcile_moves (mkReplState m ∅))].
  intros t [s r]. cbn [fst snd]. intros [->|[Hen [Hs [Hm|Hm]]]]; [by left..|right]. split; [by left|].
  exists (primary_PodIndex m). split; [done|by apply asked_same_spec].
Qed.

Lemma galera_phase : primary_kept "Galera" (r_base (galera_Reconcile CLUSTER_NAME uuid_Parse agent_NewClient)).
Proof.
  intros m Hr Hc. apply wpM_hoist. eapply wpM_mono; [|apply galera_moves_spec].
  intros t m' r [->|[Hen [Hs [Hm|Hm]]]]; [by left..|right]. split; [by right|].
  exists (galera_PodIndex m). split; [done|by apply asked_same_spec].
Qed.

(** C4: the phases of a reconciliation move the primary only to where the spec asks.  Without a MaxScale
    that decides it, and once the status names a primary, no phase but those of replication and Galera
    names another, whatever becomes of it, and these only the Pod of the spec of the cluster they manage. *)
Theorem primary_moves_where_asked name p m :
  (name, p) ∈ the_phases → sp_MaxScaleRef (m_Spec m) = None → current m ≠ None →
  wpM p m (λ _ m' _, current m' = current m ∨
    (name = "Replication" ∨ name = "Galera") ∧ ∃ i, current m' = Some i ∧ asked_primary m' i).
Proof.
  intros Hp Hr Hc. cut (primary_kept name p); [intros Hk; by apply Hk|]. clear Hr Hc.
  unfold mariadb_phases in Hp. repeat (apply elem_of_cons in Hp as [[= -> ->]|Hp]); [..|by apply elem_of_nil in Hp].
  all: first [apply status_phase|apply replication_phase|apply galera_phase|apply unrelated_phase].
  all: first [apply setSpecDefaults_current|apply reconcileTLS_current|apply reconcileInit_current|
    apply reconcileStorage_current|apply reconcileStatefulSet_current|apply reconcilePodDisruptionBudget_current|
    apply reconcileService_current|apply reconcilePodLabels_current|apply MaxScale_Reconcile_current|
    apply other_phases_current; set_unfold; tauto].
Qed.

(** ** How a reconciliation ends *)
(** TLS, once enabled, stays so. *)
Definition tls_kept (m m' : MariaDB) : Prop := IsTLSEnabled m = true → IsTLSEnabled m' = true.
#[local] Instance tls_kept_preorder : PreOrder tls_kept.
Proof. unfold tls_kept. split; [by intros m|]. intros x y z. auto. Qed.
Lemma tls_kept_spec m m' : m_Spec m' = m_Spec m → tls_kept m m'.
Proof. unfold tls_kept, IsTLSEnabled. by intros ->. Qed.

Lemma SetDefaults_tls m m' : MariaDB_SetDefaults m env = Ok m' → tls_kept m m'.
Proof.
  unfold MariaDB_SetDefaults, default_galera. intros (m1 & Hg & [= <-])%result_bind_Ok Htls.
  assert (IsTLSEnabled (default_server m env) = true) as Hs.
  { revert Htls. unfold IsTLSEnabled, default_server. cbn. by destruct (sp_TLS _). }
  assert (IsTLSEnabled m1 = true) as Hm1.
  { destruct (sp_Galera _) as [g|]; [destruct (ga_Enabled g)|]; [|by simplify_eq..].
    by apply result_bind_Ok in Hg as (g' & _ & [= <-]). }
  exact Hm1.
Qed.
Lemma set_primary_index_tls i m : tls_kept m (Failover.set_primary_index i m).
Proof.
  unfold tls_kept, Failover.set_primary_index, MariaDB_Replication. intros Htls.
  destruct (sp_Replication (m_Spec m)); exact Htls.
Qed.
Ltac keeps_tls := keeps_loops; first
  [ done
  | intros m r; cbn; first [by apply tls_kept_spec|apply set_primary_index_tls]
  | apply tls_kept_spec; solve [reflexivity|by repeat case_match]
  | by intros Htls ].
Lemma reconcileStatus_tls dv : keepsM tls_kept (reconcileStatus CLUSTER_NAME dv).
Proof.
  keeps_phase; try done; first [intros m r; cbn; by apply tls_kept_spec|
    apply tls_kept_spec; unfold defaultPrimary, setMaxScalePrimary; by repeat case_match].
Qed.
Lemma phase_keeps_tls name p : (name, p) ∈ the_phases → keepsM tls_kept p.
Proof.
  unfold mariadb_phases. intros Hp.
  repeat (apply elem_of_cons in Hp as [[= -> ->]|Hp]); [..|by apply elem_of_nil in Hp].
  1: apply keepsM_hoist, setSpecDefaults_frame; [apply _|apply SetDefaults_tls|intros m b Htls; exact Htls].
  1: apply keepsM_hoist, reconcileStatus_tls.
  11: { intros m. apply wpM_hoist. unfold wpM, r_repl. apply wp_bind.
    eapply wp_mono; [|apply (repl_reconcile_moves (mkReplState m ∅))].
    intros t [s r]. cbn [fst snd]. by intros [->|[_ [Hs _]]]; apply tls_kept_spec. }
  12: { intros m. apply wpM_hoist. eapply wpM_mono; [|apply galera_moves_spec].
    by intros t m' r [->|[_ [Hs _]]]; apply tls_kept_spec. }
  all: by keeps_tls.
Qed.

(** The names of the phases, in their order. *)
Definition phase_order : list string :=
  ["Spec"; "Status"; "Suspend"; "Secret"; "ConfigMap"; "TLS"; "RBAC"; "Init"; "Storage"; "StatefulSet";
   "PodDisruptionBudget"; "Service"; "Replication"; "Labels"; "Galera"; "Restore"; "MaxScale"; "SQL"; "Metrics";
   "Connection"].
(** What the phase of that name may do, the MariaDB it leaves, and its result. *)
Definition ran (name : string) (t : rtrace) (m' : MariaDB) (r : result ctrl_Result) : Prop :=
  ∃ p m, (name, p) ∈ the_phases ∧ runs (p m) t (m', r).
(** The phase had nothing to wait for, or lacks an object, or asked to be skipped. *)
Definition went_on (name : string) (t : rtrace) : Prop :=
  ∃ m' r, ran name t m' r ∧
    (r = Ok Result_zero ∨ ∃ err, r = Err err ∧ (IsNotFound err = true ∨ errors_Is err ErrSkipReconciliationPhase = true)).
Definition asked_again (name : string) (t : rtrace) (r : result ctrl_Result) : Prop :=
  ∃ res m', r = Ok res ∧ res ≠ Result_zero ∧ ran name t m' (Ok res).
(** The phase failed, and the last operation is a patch of the status that says which phase it was and
    why, as does the error that is returned. *)
Definition reported_failure (name : string) (t : rtrace) (r : result ctrl_Result) : Prop :=
  ∃ t1 m' cause st ans c e,
    ran name t1 m' (Err cause) ∧ IsNotFound cause = false ∧ errors_Is cause ErrSkipReconciliationPhase = false ∧
    t = t1 ++ [Ev (api (KPatchStatus m' { m' with m_Status := st })) ans] ∧
    FindStatusCondition (st_Conditions st) "Ready" = Some c ∧ c_Status c = ConditionFalse ∧
    c_Message c = "Error reconciling " +:+ name +:+ ": " +:+ Error cause ∧
    r = Err e ∧ ∃ more, Error e = "error reconciling " +:+ name +:+ ": " +:+ Error cause +:+ more.

Lemma phase_error_text err patched err' : phase_error err patched = Err err' → ∃ more, Error err' = Error err +:+ more.
Proof.
  unfold phase_error. destruct patched as [[]|e]; cbn; [|destruct (IsNotFound e); cbn]; intros [= <-].
  1,2: exists ""; by rewrite str_app_nil_r. by exists (Error e).
Qed.
Lemma failed_reported name t1 m' err patched err' :
  ran name t1 m' (Err err) → shouldSkipPhase err = false → phase_error err patched = Err err' →
  reported_failure name (t1 ++ [Ev (api (KPatchStatus m' (failed_status name err m'))) patched])
    (Err (ErrWrap ("error reconciling " +:+ name) err')).
Proof.
  unfold shouldSkipPhase. intros Hr Hs Hp. destruct (IsNotFound err) eqn:Hn; [done|].
  eexists t1, m', err, _, patched, _, _. split; [exact Hr|]. split; [exact Hn|]. split; [exact Hs|].
  split; [reflexivity|]. split; [|split; [|split; [|split; [reflexivity|]]]].
  - unfold Ready_PatcherFailed, SetReadyFailedWithMessage. change (st_Conditions ?s) with (conditions s).
    rewrite find_set_condition. by rewrite bool_decide_eq_true_2.
  - done.
  - done.
  - apply phase_error_text in Hp as [more Hm]. exists more. cbn [Error]. rewrite Hm. by rewrite <-!str_app_assoc.
Qed.

(** The end of a pass over some of the phases, from a MariaDB that it leaves with the last result. *)
Definition pass_outcome (names : list string) (t : rtrace) (m' : MariaDB) (r : result ctrl_Result) : Prop :=
  (∃ segs, t = concat segs ∧ Forall2 went_on names segs ∧ r = Ok (requeueResult m')) ∨
  ∃ segs name last, t = concat segs ++ last ∧ names !! length segs = Some name ∧
    Forall2 went_on (take (length segs) names) segs ∧ (asked_again name last r ∨ reported_failure name last r).

Lemma pass_outcome_next name names seg t m' r :
  went_on name seg → pass_outcome names t m' r → pass_outcome (name :: names) (seg ++ t) m' r.
Proof.
  intros Hseg [(segs & -> & Hs & ->)|(segs & n & last & -> & Hn & Hs & Hr)].
  - left. exists (seg :: segs). by repeat constructor.
  - right. exists (seg :: segs), n, last. cbn. rewrite app_assoc.
    split; [done|]. split; [done|]. split; [by constructor|done].
Qed.
Lemma pass_ends ps m t m' r :
  ps ⊆ the_phases → pass ps m t m' r → pass_outcome ps.*1 t m' r ∧ (IsTLSEnabled m = true → r ≠ Ok Result_zero).
Proof.
  intros Hps Hpass. induction Hpass as [m|name p ps m t1 m1 r1 t2 m2 r Hr Hp _ IH|name p ps m t m1 res Hr Hz
    |name p ps m t m1 err patched err' Hr Hs Hp].
  - split; [left; by exists []|]. unfold requeueResult. by intros ->.
  - destruct IH as [Ho Htls]; [set_solver|]. assert ((name, p) ∈ the_phases) as Hin by set_solver. split.
    + cbn. apply pass_outcome_next; [|exact Ho]. exists m1, r1. split; [by exists p, m|].
      destruct Hp as [->|(err & -> & Hs)]; [by left|right]. exists err. split; [done|]. unfold shouldSkipPhase in Hs.
      destruct (IsNotFound err); [by left|by right].
    + intros Hm. apply Htls. pose proof (phase_keeps_tls _ _ Hin m) as Hk.
      exact (proj1 (wp_runs _ _) Hk _ _ Hr Hm).
  - assert ((name, p) ∈ the_phases) as Hin by set_solver. split; [|by intros _ [= ->]].
    right. exists [], name, t. split; [done|]. split; [done|]. split; [constructor|]. left. exists res, m1. by split_and!; [..|exists p, m].
  - assert ((name, p) ∈ the_phases) as Hin by set_solver. split; [|done].
    right. eexists [], name, _. split; [done|]. split; [done|]. split; [constructor|]. right.
    by eapply failed_reported; [exists p, m| |].
Qed.

(** C6: every reconciliation of a MariaDB ends in one of these ways.  The MariaDB cannot be read: the
    error is returned, unless the MariaDB is gone, which ends it well.  All the phases ran, in this
    order, each without a result to wait for or with an error that only says that an object is missing
    or that the phase is to be skipped; then nothing more is due, or a look at the certificates in five
    minutes.  The phases ran up to one that asked to be reconciled again, with its result.  Or up to
    one that failed: then the status says which it was and why, in the ready condition, and so does the
    error.  And a MariaDB with TLS is never left to itself. *)
Theorem reconciliation_ends key : wp (reconcile key) (λ t r,
  (∃ err, t = [Ev (api (KGetMariaDB key)) (Err err)] ∧ (IsNotFound err = true ∧ r = Ok Result_zero ∨ r = Err err)) ∨
  ∃ m t', t = Ev (api (KGetMariaDB key)) (Ok m) :: t' ∧ (IsTLSEnabled m = true → r ≠ Ok Result_zero) ∧
  ( (∃ segs, t' = concat segs ∧ Forall2 went_on phase_order segs ∧
       (r = Ok Result_zero ∨ r = Ok (requeue_after (5 * 60 * Second))))
  ∨ ∃ segs name last, t' = concat segs ++ last ∧ phase_order !! length segs = Some name ∧
      Forall2 went_on (take (length segs) phase_order) segs ∧ (asked_again name last r ∨ reported_failure name last r))).
Proof.
  unfold MariaDB_Reconcile. intros [m|err].
  - apply wp_bind, wp_runs. intros t [m' r] [Ho Htls]%run_phases_pass%pass_ends; [|done].
    right. exists m, t. split; [by rewrite app_nil_r|]. split; [exact Htls|]. change phase_order with ((the_phases).*1).
    destruct Ho as [(segs & -> & Hs & ->)|Ho]; [left|by right].
    exists segs. split_and!; [done..|]. unfold requeueResult. destruct (IsTLSEnabled m'); [by right|by left].
  - cbn [wp]. left. exists err. split; [done|]. unfold IgnoreNotFound. destruct (IsNotFound err); [by left|by right].
Qed.
End reconcile.

(** ** Examples *)
#[local] Existing Instance MariaDBDefaults.plain_reference.
Definition maxscale_spec_ex : MariaDBMaxScaleSpec :=
  mkMariaDBMaxScaleSpec "" [] None None None None None None None None None None None None None.
Definition the_phases_ex : list (string * M MariaDB rop ctrl_Result) :=
  mariadb_phases "cluster.local" (env_ex "") (λ _, true) (λ _, Ok tt) maxscale_spec_ex.
(** A Galera cluster whose user asked for another primary. *)
Definition moving_ex : MariaDB :=
  { cluster_ex old_agent None with
    m_Status -> st_CurrentPrimaryPodIndex := Some 0 }.
Lemma primary_moves_where_asked_witness :
  (∃ p, ("Galera", p) ∈ the_phases_ex) ∧ sp_MaxScaleRef (m_Spec moving_ex) = None ∧ current moving_ex ≠ None ∧
  ∀ p, ("Galera", p) ∈ the_phases_ex →
    wpM p moving_ex (λ _ m' _, current m' = Some 0 ∨
      ("Galera" = "Replication" ∨ "Galera" = "Galera") ∧ ∃ i, current m' = Some i ∧ asked_primary m' i).
Proof.
  split_and!; [|done|done|].
  - eexists. apply list_elem_of_lookup. by exists 14%nat.
  - intros p Hp. by apply (primary_moves_where_asked "cluster.local" (env_ex "") (λ _, true) (λ _, Ok tt) maxscale_spec_ex).
Defined.

Definition suspended_ex : MariaDB := { cluster_ex old_agent None with m_Spec -> sp_Suspend := true }.
(** Nothing but the MariaDB exists. *)
Definition lonely_pb (m : MariaDB) {X} (o : pbop X) : X :=
  match o in pbop X return X with PBase o => friendly m [] 0 o | _ => missing end.
Definition lonely (m : MariaDB) : env rop :=
  Env rop (λ X _ o, match o in rop X return X with RX o => lonely_x m o | RPb o => lonely_pb m o end) (λ _, false).
Definition run_ex (m : MariaDB) : rtrace * result ctrl_Result :=
  run (lonely m) (MariaDB_Reconcile "cluster.local" (env_ex "") (λ _, true) (λ _, Ok tt) maxscale_spec_ex (ObjectKey m)) [].

(** The suspended MariaDB is read and patched twice, by the Spec and by the Status phase. *)
Example suspended_run : length (run_ex suspended_ex).1 = 3%nat ∧ (run_ex suspended_ex).2 = Ok (requeue_after (10 * Second)).
Proof. by vm_compute. Qed.
Lemma suspended_mariadb_only_observed_witness :
  set_aside suspended_ex = true ∧ reads_mariadb (run_ex suspended_ex).1 = Some suspended_ex ∧
  Forall observes (run_ex suspended_ex).1.
Proof.
  split_and!; [done|by vm_compute|].
  pose proof (wp_sound _ _ (suspended_mariadb_only_observed "cluster.local" (env_ex "") (λ _, true) (λ _, Ok tt)
    maxscale_spec_ex (ObjectKey suspended_ex)) (lonely suspended_ex) []) as Hrun.
  apply (Hrun suspended_ex); by vm_compute.
Defined.
