(* ===== verification/GaleraNode.v ===== *)
(** * The containers of a Galera Pod: the init container and the agent

    cmd/init, which prepares the files a node starts from, and cmd/agent with
    pkg/galera/agent, the HTTP server the operator recovers a cluster through, over the file
    manager of pkg/galera/filemanager.  Files are the environment's: a read is answered with
    whatever the file holds at that moment, and [files] is what the writes and removals of a
    trace make of a file system.  A request is answered with a status and a body; the router
    (go-chi), the rate limiter and the basic authentication it is built from are not part of the
    repository. *)

From Stdlib Require Import Ascii.
From S2P Require Import Prelude GoStrings GoPath StatefulSet Datastructures GaleraState Conditions MariaDBTypes.
From S2P Require Import GaleraConfig Concurrency Kube Wait Sql Health GaleraRecovery.

Local Open Scope Z_scope.
Local Open Scope go_scope.

(** ** The answer of the TokenReview API *)
Record TokenReviewStatus := mkTokenReviewStatus { tr_Authenticated : bool; tr_Username : string }.

Inductive nop : Type → Type :=
  | NBase {X} (o : op X) : nop X
  | NGetPodEnv : nop (result PodEnvironment)
  | NGetK8sClient : nop (result unit)
  | NStat (path : string) : nop (result unit)
  | NReadFile (path : string) : nop (result string)
  | NWriteFile (path bytes : string) : nop (result unit)
  | NRemove (path : string) : nop (result unit)
  | NTokenReview (token : string) : nop (result TokenReviewStatus)
  (* whether the limiter lets the request through *)
  | NRateLimit (requests duration : Z) : nop bool.

Abbreviation ntrace := (list (event nop)).
Abbreviation N := (M unit nop).

Definition base {A} (m : M unit op A) : N A := hoistM (λ _ o, NBase o) m.

(** What an operation that succeeded leaves of the files. *)
Definition file_event (e : event nop) (fs : gmap string string) : gmap string string :=
  let 'Ev o x := e in
  match o in nop X return X → gmap string string with
  | NWriteFile path bytes => λ r, match r with Ok _ => <[path := bytes]> fs | Err _ => fs end
  | NRemove path => λ r, match r with Ok _ => delete path fs | Err _ => fs end
  | _ => λ _, fs
  end x.
Definition files (t : ntrace) (fs : gmap string string) : gmap string string :=
  foldl (λ fs e, file_event e fs) fs t.

(** ** pkg/galera/state and the names of the files *)
Definition GaleraStateFileName : string := "grastate.dat".
Definition GaleraPrimaryComponentStateFileName : string := "gvwstate.dat".
Definition BootstrapFileName : string := "1-bootstrap.cnf".
Definition BootstrapFile : string := "[galera]" +:+ newline +:+ "wsrep_new_cluster=" +:+ quote_s +:+ "ON" +:+ quote_s.
Definition ConfigFileName : string := "0-galera.cnf".
Definition wsrepSSTPidFile : string := "wsrep_sst.pid".
Definition sstInProgressFile : string := "sst_in_progress".

(** ** pkg/galera/filemanager *)
Record FileManager := mkFileManager { fm_configDir : string; fm_stateDir : string }.

Definition state_path (f : FileManager) (name : string) : string := path_Join (fm_stateDir f) name.
Definition config_path (f : FileManager) (name : string) : string := path_Join (fm_configDir f) name.

Definition NewFileManager (configDir stateDir : string) : N FileManager :=
  wrap "error reading config directory" (call (NStat configDir)) ;;;
  wrap "error reading state directory" (call (NStat stateDir)) ;;;
  ret (mkFileManager configDir stateDir).

Definition WriteStateFile (f : FileManager) (name bytes : string) : N unit :=
  call (NWriteFile (state_path f name) bytes).
Definition ReadStateFile (f : FileManager) (name : string) : N string := call (NReadFile (state_path f name)).
Definition DeleteStateFile (f : FileManager) (name : string) : N unit := call (NRemove (state_path f name)).

Definition file_exists (path : string) : N bool :=
  r <- try (call (NStat path)) ;;
  match r with
  | Ok _ => ret true
  | Err err => if os_IsNotExist err then ret false else throw err
  end.
Definition StateFileExists (f : FileManager) (name : string) : N bool := file_exists (state_path f name).

Definition WriteConfigFile (f : FileManager) (name bytes : string) : N unit :=
  call (NWriteFile (config_path f name) bytes).
Definition ReadConfigFile (f : FileManager) (name : string) : N string := call (NReadFile (config_path f name)).
Definition DeleteConfigFile (f : FileManager) (name : string) : N unit := call (NRemove (config_path f name)).
Definition ConfigFileExists (f : FileManager) (name : string) : N bool := file_exists (config_path f name).

(** ** cmd/init *)
Section init.
Context `{MapRange} (CLUSTER_NAME : string).
(** The attempts a poll makes before the process is told to stop: a signal may come at any time. *)
Variable attempts : nat.
Variables configDir stateDir : string.

Definition hasGaleraState (fm : FileManager) : N bool :=
  stateExists <- wrap "error checking Galera state file" (StateFileExists fm GaleraStateFileName) ;;
  primaryComponentExists <- wrap "error checking Galera primary component file"
    (StateFileExists fm GaleraPrimaryComponentStateFileName) ;;
  ret (stateExists || primaryComponentExists).

Definition cleanupStateFile (fm : FileManager) (file : string) : N unit :=
  exists_ <- wrap "error checking if file exists" (StateFileExists fm file) ;;
  if (exists_ : bool) then
    r <- try (DeleteStateFile fm file) ;;
    match r with
    | Ok _ => ret tt
    | Err err => if os_IsNotExist err then ret tt else throw (ErrWrap "error deleting file" err)
    end
  else ret tt.

Definition cleanupStateForVolumeSnapshot (fm : FileManager) (mdb : MariaDB) : N unit :=
  let bootstrapFrom := default BootstrapFrom_zero (sp_BootstrapFrom (m_Spec mdb)) in
  if HasGaleraConfiguredCondition mdb || negb (is_some (bf_VolumeSnapshotRef bootstrapFrom))
  then ret tt
  else for_each [GaleraStateFileName; GaleraPrimaryComponentStateFileName] (cleanupStateFile fm).

Definition cleanupPreviousSST (fm : FileManager) : N unit :=
  for_each [wsrepSSTPidFile; sstInProgressFile] (cleanupStateFile fm).

Definition configureGalera (fm : FileManager) (env : PodEnvironment) (mdb : MariaDB) : N unit :=
  configBytes <- wrap "error getting Galera config" (lift (ConfigFile_Marshal CLUSTER_NAME mdb env)) ;;
  wrap "error writing Galera config" (WriteConfigFile fm ConfigFileName configBytes).

Definition updateGaleraConfig (fm : FileManager) (env : PodEnvironment) : N unit :=
  configBytes <- wrap "error getting existing Galera config" (ReadConfigFile fm ConfigFileName) ;;
  updatedBytes <- wrap "error updating existing Galera config" (lift (UpdateConfig configBytes env)) ;;
  wrap "error writing existing Galera config" (WriteConfigFile fm ConfigFileName updatedBytes).

Definition configureGaleraBootstrap (fm : FileManager) (mdb : MariaDB) (podIndex : Z) : N unit :=
  hasState <- wrap "error checking Galera state" (hasGaleraState fm) ;;
  if HasGaleraConfiguredCondition mdb || hasState || negb (bool_decide (podIndex = 0))
  then ret tt
  else wrap "error configuring Galera bootstrap" (WriteConfigFile fm BootstrapFileName BootstrapFile).

Definition getPreviousPodName (mdb : MariaDB) (podIndex : Z) : result string :=
  if bool_decide (podIndex = 0) then Err (ErrNew "Pod is the first Pod")
  else Ok (PodName (m_meta mdb) (podIndex - 1)).

Definition waitForPodReady (key : NamespacedName) : N unit :=
  poll_loop attempts
    (pod <- call (NBase (KGetPod key)) ;;
     if negb (PodReady pod) then throw (ErrNew "Pod not ready") else ret tt).

Definition waitForPreviousPod (fm : FileManager) (env : PodEnvironment) (mdb : MariaDB) (podIndex : Z) : N unit :=
  hasState <- wrap "error checking Galera state" (hasGaleraState fm) ;;
  if HasGaleraConfiguredCondition mdb || hasState || bool_decide (podIndex = 0)
  then ret tt
  else
    previousPodName <- wrap "error getting previous Pod" (lift (getPreviousPodName mdb podIndex)) ;;
    wrap "error waiting for previous Pod to be ready"
      (waitForPodReady (mkNamespacedName previousPodName (PodNamespace env))).

(** An error is the exit status 1.  The error of [configureGaleraBootstrap] is only logged. *)
Definition init_Run : N unit :=
  env <- call NGetPodEnv ;;
  fm <- NewFileManager configDir stateDir ;;
  call NGetK8sClient ;;;
  podIndex <- lift (PodIndex (PodEnv_PodName env)) ;;
  mdb <- try (call (NBase (KGetMariaDB (mkNamespacedName (MariadbName env) (PodNamespace env))))) ;;
  match mdb with
  | Err _ => updateGaleraConfig fm env
  | Ok mdb =>
      cleanupStateForVolumeSnapshot fm mdb ;;;
      configureGalera fm env mdb ;;;
      try (configureGaleraBootstrap fm mdb podIndex) ;;;
      waitForPreviousPod fm env mdb podIndex ;;;
      cleanupPreviousSST fm
  end.
End init.

(** ** pkg/http: responses *)
Inductive body := NoBody | StateBody (g : GaleraState) | ErrorBody (e : error).
Record response := mkResponse { rs_code : Z; rs_body : body }.
Definition StatusOK : Z := 200.
Definition StatusBadRequest : Z := 400.
Definition StatusUnauthorized : Z := 401.
Definition StatusForbidden : Z := 403.
Definition StatusNotFound : Z := 404.
Definition StatusTooManyRequests : Z := 429.
Definition StatusInternalServerError : Z := 500.

Definition WriteOK (b : body) : response := mkResponse StatusOK b.
Definition WriteError (e : error) : response := mkResponse StatusInternalServerError (ErrorBody e).

(** ** pkg/galera/agent/handler/galera.go *)
Section handlers.
Variable uuid_Parse : string → bool.
Variable fm : FileManager.

Definition handle_GetState : N response :=
  bytes <- try (ReadStateFile fm GaleraStateFileName) ;;
  match bytes with
  | Err err =>
      if os_IsNotExist err then ret (mkResponse StatusNotFound (ErrorBody (ErrNew "galera state not found")))
      else ret (WriteError (ErrWrap "error reading galera state" err))
  | Ok bytes =>
      if bool_decide (bytes = "") then ret (mkResponse StatusNotFound (ErrorBody (ErrNew "galera state empty")))
      else match GaleraState_Unmarshal uuid_Parse bytes with
           | Err err => ret (WriteError (ErrWrap "error unmarshalling galera state" err))
           | Ok galeraState => ret (WriteOK (StateBody galeraState))
           end
  end.

Definition handle_IsBootstrapEnabled : N response :=
  exists_ <- try (ConfigFileExists fm BootstrapFileName) ;;
  match exists_ with
  | Err err => ret (WriteError (ErrWrap "error checking bootstrap config" err))
  | Ok true => ret (mkResponse StatusOK NoBody)
  | Ok false => ret (mkResponse StatusNotFound NoBody)
  end.

(** The body of a request: absent, or what the JSON decoder makes of it. *)
Definition decodeAndValidateBootstrap (b : option (result Bootstrap)) : result (option Bootstrap) :=
  match b with
  | None => Ok None
  | Some decoded =>
      bootstrap ← wrap_err "error decoding bootstrap" decoded;
      wrap_err "invalid bootstrap" (Bootstrap_Validate uuid_Parse bootstrap) ≫= λ _,
      Ok (Some bootstrap)
  end.

(** The state with the position of the bootstrap. *)
Definition safe_state (bootstrap : option Bootstrap) (g : GaleraState) : GaleraState :=
  let g := { g with gs_SafeToBootstrap := true } in
  match bootstrap with
  | Some b => { g with gs_UUID := bs_UUID b; gs_Seqno := bs_Seqno b }
  | None => g
  end.

Definition setSafeToBootstrap (bootstrap : option Bootstrap) : N unit :=
  bytes <- try (ReadStateFile fm GaleraStateFileName) ;;
  match bytes with
  | Err err =>
      if os_IsNotExist err then throw (ErrNew "galera state does not exist")
      else throw (ErrWrap "error reading galera state" err)
  | Ok bytes =>
      galeraState <- wrap "error unmarshalling galera state" (lift (GaleraState_Unmarshal uuid_Parse bytes)) ;;
      bytes <- wrap "error marshaling galera state"
        (lift (GaleraState_Marshal uuid_Parse (safe_state bootstrap galeraState))) ;;
      wrap "error writing galera state" (WriteStateFile fm GaleraStateFileName bytes)
  end.

Definition handle_EnableBootstrap (b : option (result Bootstrap)) : N response :=
  match decodeAndValidateBootstrap b with
  | Err err => ret (mkResponse StatusBadRequest (ErrorBody err))
  | Ok bootstrap =>
      r <- try (setSafeToBootstrap bootstrap) ;;
      match r with
      | Err err => ret (WriteError (ErrWrap "error setting safe to bootstrap" err))
      | Ok _ =>
          r <- try (WriteConfigFile fm BootstrapFileName BootstrapFile) ;;
          match r with
          | Err err => ret (WriteError (ErrWrap "error writing bootstrap config" err))
          | Ok _ => ret (mkResponse StatusOK NoBody)
          end
      end
  end.

Definition handle_DisableBootstrap : N response :=
  r <- try (DeleteConfigFile fm BootstrapFileName) ;;
  match r with
  | Err err =>
      if os_IsNotExist err then ret (mkResponse StatusNotFound (ErrorBody (ErrNew "bootstrap config not found")))
      else ret (WriteError (ErrWrap "error deleting bootstrap config" err))
  | Ok _ => ret (mkResponse StatusOK NoBody)
  end.
End handlers.

(** ** pkg/galera/agent/client *)
Definition handleResponse {A} (res : response) (v : body → option A) : agent_reply A :=
  if bool_decide (400 ≤ rs_code res) then
    match rs_body res with
    | ErrorBody e => AgentHttp (rs_code res) (Error e)
    | _ => AgentFail "error decoding body into error"
    end
  else match v (rs_body res) with Some a => AgentOk a | None => AgentFail "error decoding body" end.

Definition client_GetState (res : response) : agent_reply GaleraState :=
  handleResponse res (λ b, match b with StateBody g => Some g | _ => None end).
Definition client_IsBootstrapEnabled (res : response) : agent_reply bool :=
  if bool_decide (rs_code res = StatusOK) then AgentOk true
  else if bool_decide (rs_code res = StatusNotFound) then AgentOk false
  else match handleResponse res (λ _, Some tt) with
       | AgentOk _ => AgentOk false
       | AgentHttp code msg => AgentHttp code msg
       | AgentFail msg => AgentFail msg
       end.
Definition client_unit (res : response) : agent_reply unit := handleResponse res (λ _, Some tt).
Definition client_Health (res : response) : agent_reply bool := AgentOk (bool_decide (rs_code res = StatusOK)).

(** ** pkg/galera/agent/handler/probe.go: [self] is the server of the Pod. *)
Section probes.
Variable self : Z.
Variable mariadbKey : NamespacedName.

Definition NewLocalClientWithPodEnv (env : PodEnvironment) : N Z :=
  port <- wrap "error getting port" (lift (PodEnv_Port env)) ;;
  isTLSEnabled <- wrap "error checking whether TLS is enabled in environment" (lift (PodEnv_IsTLSEnabled env)) ;;
  (if (isTLSEnabled : bool) then
     wrap "error reading CA certificate" (call (NReadFile (TLSCACertPath env))) ;;; ret tt
   else ret tt) ;;;
  call_reply (NBase (SqlOpen self)) ;;;
  ret self.

(** A MariaDB that cannot be read is the zero value. *)
Definition probe_mariadb : N MariaDB :=
  mdb <- try (call (NBase (KGetMariaDB mariadbKey))) ;;
  ret (match mdb with Ok mdb => mdb | Err _ => MariaDB_zero (mkObjectMeta "" "" "" ∅ ∅) end).

(** Run [k] on the client of a healthy Pod. *)
Definition with_healthy_pod (k : Z → N response) : N response :=
  env <- try (call NGetPodEnv) ;;
  match env with
  | Err err => ret (WriteError (ErrWrap "error getting environment" err))
  | Ok env =>
      sqlClient <- try (NewLocalClientWithPodEnv env) ;;
      match sqlClient with
      | Err err => ret (WriteError (ErrWrap "error getting SQL client" err))
      | Ok sqlClient =>
          healthy <- try (base (IsPodHealthy sqlClient)) ;;
          match healthy with
          | Err _ => ret (WriteError (ErrNew "error getting Pod health"))
          | Ok healthy =>
              if negb healthy then ret (WriteError (ErrNew "Pod not healthy")) else k sqlClient
          end
      end
  end.

Definition Liveness : N response :=
  mdb <- probe_mariadb ;;
  if HasGaleraNotReadyCondition mdb then ret (WriteOK NoBody)
  else with_healthy_pod (λ _, ret (WriteOK NoBody)).

Definition GaleraStateDonor : string := "Donor/Desynced".

Definition Readiness : N response :=
  mdb <- probe_mariadb ;;
  with_healthy_pod (λ sqlClient,
    state <- try (base (GaleraLocalState sqlClient)) ;;
    match state with
    | Err _ => ret (WriteError (ErrNew "error getting Pod state"))
    | Ok state =>
        if bool_decide (state = GaleraStateSynced) then ret (WriteOK NoBody)
        else
          let galera := default Galera_zero (sp_Galera (m_Spec mdb)) in
          let availableWhenDonor := default false (ga_AvailableWhenDonor galera) in
          if availableWhenDonor && bool_decide (state = GaleraStateDonor) then ret (WriteOK NoBody)
          else ret (WriteError (ErrNew "Pod in non ready state"))
    end).
End probes.

(** ** pkg/kubernetes/auth *)
Record Trusted := mkTrusted { ServiceAccountName : string; ServiceAccountNamespace : string }.
Definition Trusted_String (t : Trusted) : string :=
  "system:serviceaccount:" +:+ ServiceAccountNamespace t +:+ ":" +:+ ServiceAccountName t.

(** A request: the value of a missing header is empty. *)
Inductive method := GET | PUT | DELETE | OtherMethod (name : string).
#[export] Instance method_eq_dec : EqDecision method.
Proof. solve_decision. Defined.
Record request := mkRequest {
  rq_Method : method;
  rq_Path : string;
  rq_Authorization : string;
  rq_Body : option (result Bootstrap)
}.

Definition authToken (r : request) : result string :=
  if bool_decide (rq_Authorization r = "") then Err (ErrNew "Authorization header not found")
  else match Split (rq_Authorization r) "Bearer " with
       | [_; token] => Ok token
       | _ => Err (ErrNew "invalid Authorization header")
       end.

Definition unauthorized : response := mkResponse StatusUnauthorized (ErrorBody (ErrNew "unauthorized")).
Definition forbidden : response := mkResponse StatusForbidden (ErrorBody (ErrNew "forbidden")).

Definition KubernetesAuth_Handler (trusted : Trusted) (next : request → N response) (r : request) : N response :=
  match authToken r with
  | Err _ => ret unauthorized
  | Ok token =>
      tokenReview <- try (call (NTokenReview token)) ;;
      match tokenReview with
      | Err _ => ret unauthorized
      | Ok status =>
          if negb (tr_Authenticated status) then ret unauthorized
          else if bool_decide (tr_Username status = "") then ret unauthorized
          else if negb (bool_decide (Trusted_String trusted = tr_Username status)) then ret forbidden
          else next r
      end
  end.

(** ** pkg/galera/agent/router *)
Record RouterOptions := mkRouterOptions {
  ro_RateLimitRequests : option Z;
  ro_RateLimitDuration : option Z;
  ro_KubernetesAuth : bool;
  ro_KubernetesTrusted : option Trusted;
  ro_BasicAuth : bool;
  ro_BasicAuthCreds : option (gmap string string)
}.
Definition RouterOptions_zero : RouterOptions := mkRouterOptions None None false None false None.

Definition WithRateLimit (requests duration : Z) (o : RouterOptions) : RouterOptions :=
  if negb (bool_decide (requests = 0)) && negb (bool_decide (duration = 0)) then
    { o with ro_RateLimitRequests := Some requests; ro_RateLimitDuration := Some duration }
  else o.
Definition WithKubernetesAuth (auth : bool) (trusted : Trusted) (o : RouterOptions) : RouterOptions :=
  { o with ro_KubernetesAuth := auth; ro_KubernetesTrusted := Some trusted }.
Definition WithBasicAuth (auth : bool) (user pass : string) (o : RouterOptions) : RouterOptions :=
  { o with ro_BasicAuth := auth; ro_BasicAuthCreds := Some {[ user := pass ]} }.

Section router.
Variable uuid_Parse : string → bool.
(** [middleware.BasicAuth]: whether the credentials of a request are among the given ones. *)
Variable basic_auth : gmap string string → request → bool.
(** The answer of the router to a request no route matches. *)
Variable chi_fallback : response.

(** The status 401 of [middleware.BasicAuth] and the status 429 of [httprate]. *)
Definition basicAuthFailed : response := mkResponse StatusUnauthorized NoBody.
Definition tooManyRequests : response := mkResponse StatusTooManyRequests (ErrorBody (ErrNew "Too Many Requests")).

Definition galera_routes (fm : FileManager) (r : request) : N response :=
  if bool_decide (rq_Path r = "/api/galera/state") && bool_decide (rq_Method r = GET)
  then handle_GetState uuid_Parse fm
  else if bool_decide (rq_Path r = "/api/galera/bootstrap") || bool_decide (rq_Path r = "/api/galera/bootstrap/") then
    match rq_Method r with
    | GET => handle_IsBootstrapEnabled fm
    | PUT => handle_EnableBootstrap uuid_Parse fm (rq_Body r)
    | DELETE => handle_DisableBootstrap fm
    | OtherMethod _ => ret chi_fallback
    end
  else ret chi_fallback.

Definition with_auth (opts : RouterOptions) (next : request → N response) (r : request) : N response :=
  match ro_KubernetesAuth opts, ro_KubernetesTrusted opts with
  | true, Some trusted => KubernetesAuth_Handler trusted next r
  | _, _ =>
      match ro_BasicAuth opts, ro_BasicAuthCreds opts with
      | true, Some creds => if basic_auth creds r then next r else ret basicAuthFailed
      | _, _ => next r
      end
  end.

Definition apiRouter (opts : RouterOptions) (fm : FileManager) (r : request) : N response :=
  match ro_RateLimitRequests opts, ro_RateLimitDuration opts with
  | Some requests, Some duration =>
      allowed <- ask (NRateLimit requests duration) ;;
      if (allowed : bool) then with_auth opts (galera_routes fm) r else ret tooManyRequests
  | _, _ => with_auth opts (galera_routes fm) r
  end.

Definition NewGaleraRouter (opts : RouterOptions) (fm : FileManager) (r : request) : N response :=
  if bool_decide (rq_Path r = "/health") && bool_decide (rq_Method r = GET) then ret (mkResponse StatusOK NoBody)
  else if bool_decide (rq_Path r = "/api") || HasPrefix (rq_Path r) "/api/" then apiRouter opts fm r
  else ret chi_fallback.

Definition NewProbeRouter (self : Z) (mariadbKey : NamespacedName) (r : request) : N response :=
  if bool_decide (rq_Method r = GET) then
    if bool_decide (rq_Path r = "/health") then ret (mkResponse StatusOK NoBody)
    else if bool_decide (rq_Path r = "/liveness") then Liveness self mariadbKey
    else if bool_decide (rq_Path r = "/readiness") then Readiness self mariadbKey
    else ret chi_fallback
  else ret chi_fallback.
End router.

(** ** cmd/agent: the flags and the options of the API server *)
Record AgentFlags := mkAgentFlags {
  rateLimitRequests : Z;
  rateLimitDuration : Z;
  kubernetesAuth : bool;
  kubernetesTrustedName : string;
  kubernetesTrustedNamespace : string;
  basicAuth : bool;
  basicAuthUsername : string;
  basicAuthPasswordPath : string
}.

Definition getAPIServer_routerOpts (f : AgentFlags) : N RouterOptions :=
  let opts := WithRateLimit (rateLimitRequests f) (rateLimitDuration f) RouterOptions_zero in
  if kubernetesAuth f && negb (bool_decide (kubernetesTrustedName f = "")) &&
     negb (bool_decide (kubernetesTrustedNamespace f = "")) then
    ret (WithKubernetesAuth (kubernetesAuth f)
           (mkTrusted (kubernetesTrustedName f) (kubernetesTrustedNamespace f)) opts)
  else if basicAuth f && negb (bool_decide (basicAuthUsername f = "")) &&
          negb (bool_decide (basicAuthPasswordPath f = "")) then
    basicAuthPassword <- call (NReadFile (basicAuthPasswordPath f)) ;;
    ret (WithBasicAuth (basicAuth f) (basicAuthUsername f) basicAuthPassword opts)
  else ret opts.
