(* ===== verification/GaleraNodeSafety.v ===== *)
(** * The containers of a Galera Pod: properties

    What the init container may do to the files of a node, when it lets the node start, what the
    agent serves back of what it was told, and to whom it answers. *)

From Stdlib Require Import Ascii.
From S2P Require Import Prelude GoStrings GoPath StatefulSet Datastructures GaleraState Conditions MariaDBTypes.
From S2P Require Import GaleraConfig Concurrency Kube Wait Sql Health GaleraRecovery GaleraNode.

Local Open Scope Z_scope.
Local Open Scope go_scope.

(** ** Paths *)
Lemma path_Join_name d d' n n' :
  plain_name n = true → plain_name n' = true → path_Join d n = path_Join d' n' → n = n'.
Proof.
  intros Hn Hn' Heq. by rewrite <- (last_element_path_Join d n), <- (last_element_path_Join d' n'), Heq.
Qed.

(** ** The init container *)
Section init.
Context `{MapRange} (CLUSTER_NAME : string) (attempts : nat) (configDir stateDir : string).
Let fm := mkFileManager configDir stateDir.

Definition mdb_key (env : PodEnvironment) : NamespacedName :=
  mkNamespacedName (MariadbName env) (PodNamespace env).

(** A file that was looked for and not found, or found. *)
Definition absent (path : string) (t : ntrace) : Prop :=
  ∃ err, os_IsNotExist err = true ∧ Ev (NStat path) (Err err) ∈ t.
Definition present (path : string) (t : ntrace) : Prop := Ev (NStat path) (Ok tt) ∈ t.

Definition galera_state_absent (f : FileManager) (t : ntrace) : Prop :=
  absent (state_path f GaleraStateFileName) t ∧ absent (state_path f GaleraPrimaryComponentStateFileName) t.
Definition galera_state_present (f : FileManager) (t : ntrace) : Prop :=
  present (state_path f GaleraStateFileName) t ∨ present (state_path f GaleraPrimaryComponentStateFileName) t.

Lemma absent_incl path t t' : t ⊆ t' → absent path t → absent path t'.
Proof. intros Ht (err & He & Hin). exists err. auto. Qed.

Lemma galera_state_absent_incl f t t' : t ⊆ t' → galera_state_absent f t → galera_state_absent f t'.
Proof. intros Ht [H1 H2]. split; by eapply absent_incl. Qed.

Lemma file_exists_spec path s : wpM (file_exists path) s (λ t _ r,
  (∃ ans, t = [Ev (NStat path) ans]) ∧
  match r with Ok true => present path t | Ok false => absent path t | Err _ => True end).
Proof.
  unfold file_exists. wp_step. wp_step. wp_step.
  - destruct a. wp_step. split; [eauto|]. unfold present. set_solver.
  - destruct (os_IsNotExist e) eqn:He; wp_step; (split; [eauto|]); [|done].
    exists e. split; [done|]. set_solver.
Qed.

Lemma hasGaleraState_spec f s : wpM (hasGaleraState f) s (λ t _ r,
  Forall (λ e, ∃ p ans, e = Ev (NStat p) ans) t ∧
  match r with
  | Ok true => galera_state_present f t | Ok false => galera_state_absent f t | Err _ => True
  end).
Proof.
  unfold hasGaleraState, StateFileExists. wp_step. wp_step. eapply wpM_mono; [|apply file_exists_spec].
  intros t1 s1 [b1|e1] [[a1 ->] Hb1]; cbn [wrap_err]; [|split; [constructor; eauto|done]].
  wp_step. wp_step. eapply wpM_mono; [|apply file_exists_spec].
  intros t2 s2 [b2|e2] [[a2 ->] Hb2]; cbn [wrap_err]; [|split; [repeat constructor; eauto|done]].
  wp_step. split; [repeat constructor; eauto|]. cbn [app].
  destruct b1; cbn [orb]; [left; apply elem_of_cons; left; by apply list_elem_of_singleton in Hb1|].
  destruct b2; [right; by apply list_elem_of_further|].
  split; (eapply absent_incl; [|eassumption]).
  - intros e. rewrite !elem_of_cons, elem_of_nil. tauto.
  - by apply list_subseteq_cons.
Qed.

(** *** The bootstrap file *)
Definition writes_bootstrap (e : event nop) : Prop :=
  ∃ bytes ans, e = Ev (NWriteFile (config_path fm BootstrapFileName) bytes) ans.

(** A node that starts a new cluster: the first Pod of a MariaDB that has not been configured
    before, on a volume without the state of a cluster. *)
Definition new_cluster (t : ntrace) : Prop := ∃ env mdb,
  Ev NGetPodEnv (Ok env) ∈ t ∧ Ev (NBase (KGetMariaDB (mdb_key env))) (Ok mdb) ∈ t ∧
  PodIndex (PodEnv_PodName env) = Ok 0 ∧ HasGaleraConfiguredCondition mdb = false ∧
  galera_state_absent fm t.

Definition quiet (e : event nop) : Prop := ¬ writes_bootstrap e.

Lemma config_is_not_bootstrap bytes ans : quiet (Ev (NWriteFile (config_path fm ConfigFileName) bytes) ans).
Proof.
  intros (bytes' & ans' & Heq). injection Heq as Hp _. apply path_Join_name in Hp; done.
Qed.

Ltac quiet_auto := always_auto; try (intros (?&?&[=]); fail); try apply config_is_not_bootstrap; auto.

Lemma cleanupStateFile_quiet f file : alwaysM quiet (cleanupStateFile f file).
Proof. quiet_auto. Qed.
Lemma cleanupStateForVolumeSnapshot_quiet f mdb : alwaysM quiet (cleanupStateForVolumeSnapshot f mdb).
Proof. quiet_auto. Qed.
Lemma cleanupPreviousSST_quiet f : alwaysM quiet (cleanupPreviousSST f).
Proof. quiet_auto. Qed.
Lemma configureGalera_quiet env mdb : alwaysM quiet (configureGalera CLUSTER_NAME fm env mdb).
Proof. quiet_auto. Qed.
Lemma updateGaleraConfig_quiet env : alwaysM quiet (updateGaleraConfig fm env).
Proof. quiet_auto. Qed.
Lemma waitForPodReady_quiet key : alwaysM quiet (waitForPodReady attempts key).
Proof. unfold waitForPodReady. induction attempts as [|n IH]; cbn [poll_loop]; quiet_auto. Qed.
Lemma waitForPreviousPod_quiet env mdb i : alwaysM quiet (waitForPreviousPod attempts fm env mdb i).
Proof.
  repeat first [apply waitForPodReady_quiet | always_step]; intros (? & ? & [=]).
Qed.

Lemma configureGaleraBootstrap_guarded mdb i s :
  wpM (configureGaleraBootstrap fm mdb i) s (λ t _ _,
    guarded writes_bootstrap (λ u, galera_state_absent fm u ∧ HasGaleraConfiguredCondition mdb = false ∧ i = 0) t).
Proof.
  unfold configureGaleraBootstrap. wp_step. wp_step. eapply wpM_mono; [|apply hasGaleraState_spec].
  intros t1 s1 r [Hq Hr].
  assert (Forall quiet t1) as Hq'.
  { eapply Forall_impl; [exact Hq|]. intros e (p & ans & ->) (? & ? & [=]). }
  destruct r as [b|e]; cbn [wrap_err]; [|by apply guarded_none].
  wp_step; [wp_step; rewrite app_nil_r; by apply guarded_none|].
  rewrite !orb_false_iff, negb_false_iff, bool_decide_eq_true in Heqb0. destruct Heqb0 as [[Hc ->] ->].
  wp_step. apply wpM_call. intros ans. apply guarded_app; [|done|done].
  intros t t' (Ha & ?). split; [|done]. eapply galera_state_absent_incl; [|exact Ha]. set_solver.
Qed.

(** C16: the init container writes the file that makes a node bootstrap a new cluster only on
    the first Pod of a MariaDB that has not been configured before, and only after finding no
    Galera state on its volume: a node that has belonged to a cluster never forks a new one. *)
Theorem init_bootstraps_only_a_new_cluster :
  wpM (init_Run CLUSTER_NAME attempts configDir stateDir) tt (λ t _ _, guarded writes_bootstrap new_cluster t).
Proof.
  unfold init_Run.
  apply (wpM_guarded_bind _ _ _ _ _ (λ env t, Ev NGetPodEnv (Ok env) ∈ t)); [quiet_auto|apply okM_call; set_solver|].
  intros env t1 ? Henv.
  apply (wpM_guarded_bind _ _ _ _ _ (λ f _, f = fm)).
  { quiet_auto. }
  { intros s. unfold NewFileManager. wp_auto; by intros ? [= <-]. }
  intros ? t2 ? ->.
  apply (wpM_guarded_bind _ _ _ _ _ (λ _ _, True)); [quiet_auto|by apply okM_true|]. intros _ t3 ? _.
  apply (wpM_guarded_bind _ _ _ _ _ (λ i _, PodIndex (PodEnv_PodName env) = Ok i)); [quiet_auto|by apply okM_lift|].
  intros i t4 ? Hi.
  apply (wpM_guarded_bind _ _ _ _ _ (λ r t, Ev (NBase (KGetMariaDB (mdb_key env))) r ∈ t)); [quiet_auto| |].
  { intros s. wp_step. apply wpM_call. intros r _ [= <-]. set_solver. }
  intros [mdb|e] t5 ? Hmdb; [|eapply wpM_mono; [|apply alwaysM_wpM, updateGaleraConfig_quiet]; intros ? ? ?; by apply guarded_none].
  apply (wpM_guarded_bind _ _ _ _ _ (λ _ _, True)); [apply cleanupStateForVolumeSnapshot_quiet|by apply okM_true|].
  intros _ t6 ? _.
  apply (wpM_guarded_bind _ _ _ _ _ (λ _ _, True)); [apply configureGalera_quiet|by apply okM_true|].
  intros _ t7 ? _. wp_step. wp_step. eapply wpM_mono; [|apply configureGaleraBootstrap_guarded].
  intros t8 ? r Hg. cbn [app].
  assert (alwaysM quiet (waitForPreviousPod attempts fm env mdb i ;;; cleanupPreviousSST fm)) as Hrest
    by (apply alwaysM_bind; [apply waitForPreviousPod_quiet|intros; apply cleanupPreviousSST_quiet]).
  eapply wpM_mono; [|apply (alwaysM_wpM _ _ _ Hrest)]. intros t9 ? ? Ht9.
  apply guarded_append; [|by apply guarded_none].
  eapply guarded_mono; [|exact Hg]. intros u (Ha & Hc & ->). exists env, mdb.
  repeat setoid_rewrite elem_of_app. split_and!; [tauto..|].
  eapply galera_state_absent_incl; [|exact Ha]. set_solver.
Qed.

(** *** Joining the cluster *)
(** What a node that is started by the init container has seen: no operator to ask, or the
    MariaDB it belongs to, and of it that the cluster has been configured, that the volume has
    the state of a node, that this is the first Pod or that the previous one is ready. *)
Definition may_start (t : ntrace) : Prop := ∃ env, Ev NGetPodEnv (Ok env) ∈ t ∧
  ((∃ e, Ev (NBase (KGetMariaDB (mdb_key env))) (Err e) ∈ t) ∨
   ∃ mdb i, Ev (NBase (KGetMariaDB (mdb_key env))) (Ok mdb) ∈ t ∧ PodIndex (PodEnv_PodName env) = Ok i ∧
     (HasGaleraConfiguredCondition mdb = true ∨ galera_state_present fm t ∨ i = 0 ∨
      ∃ pod, Ev (NBase (KGetPod (mkNamespacedName (PodName (m_meta mdb) (i - 1)) (PodNamespace env)))) (Ok pod) ∈ t ∧
        PodReady pod = true)).

Lemma waitForPodReady_ok key : okM (waitForPodReady attempts key) (λ _ t,
  ∃ pod, Ev (NBase (KGetPod key)) (Ok pod) ∈ t ∧ PodReady pod = true).
Proof.
  apply (okM_poll_loop attempts _ (λ t, ∃ pod, Ev (NBase (KGetPod key)) (Ok pod) ∈ t ∧ PodReady pod = true)).
  { intros t t' (pod & Hin & Hr). exists pod. set_solver. }
  intros s. wp_step. wp_step; [|done]. wp_step; wp_step; [done|]. intros _ _. exists a. split; [set_solver|].
  by apply negb_false_iff.
Qed.

Lemma waitForPreviousPod_ok env mdb i : okM (waitForPreviousPod attempts fm env mdb i) (λ _ t,
  HasGaleraConfiguredCondition mdb = true ∨ galera_state_present fm t ∨ i = 0 ∨
  ∃ pod, Ev (NBase (KGetPod (mkNamespacedName (PodName (m_meta mdb) (i - 1)) (PodNamespace env)))) (Ok pod) ∈ t ∧
    PodReady pod = true).
Proof.
  intros s. unfold waitForPreviousPod. wp_step. wp_step. eapply wpM_mono; [|apply hasGaleraState_spec].
  intros t1 s1 [b|e] [_ Hb]; cbn [wrap_err]; [|done]. wp_step.
  - wp_step. intros _ _. rewrite app_nil_r. apply orb_true_iff in Heqb0 as [[?| ->]%orb_true_iff|Hi]; [by left|auto|].
    apply bool_decide_eq_true in Hi. auto.
  - unfold getPreviousPodName. rewrite !orb_false_iff in Heqb0. destruct Heqb0 as [_ ->].
    do 4 wp_step. eapply wpM_mono; [|apply waitForPodReady_ok]. intros t2 s2 [[]|e] Hr; cbn [wrap_err]; [|done].
    intros _ _. destruct (Hr tt eq_refl) as (pod & Hin & Hp). do 3 right. exists pod. set_solver.
Qed.

(** The init container lets a node start only when it may: on a cluster that is being
    created, a Pod that has no state yet and is not the first one starts after the previous Pod
    has been seen ready, so that the nodes join one after the other. *)
Theorem init_waits_for_previous_pod :
  okM (init_Run CLUSTER_NAME attempts configDir stateDir) (λ _ t, may_start t).
Proof.
  unfold init_Run.
  apply (okM_bind _ _ (λ env t, Ev NGetPodEnv (Ok env) ∈ t)); [apply okM_call; set_solver|]. intros env t1 Henv.
  apply (okM_bind _ _ (λ f _, f = fm)).
  { intros s. unfold NewFileManager. wp_auto; by intros ? [= <-]. }
  intros ? t2 ->.
  apply (okM_bind _ _ (λ _ _, True)); [by apply okM_true|]. intros _ t3 _.
  apply (okM_bind _ _ (λ i _, PodIndex (PodEnv_PodName env) = Ok i)); [by apply okM_lift|]. intros i t4 Hi.
  apply (okM_bind _ _ (λ r t, Ev (NBase (KGetMariaDB (mdb_key env))) r ∈ t)).
  { intros s. wp_step. apply wpM_call. intros r _ [= <-]. set_solver. }
  intros [mdb|e] t5 Hmdb.
  2: { apply okM_true. intros _ t6. exists env. repeat setoid_rewrite elem_of_app. eauto 10. }
  apply (okM_bind _ _ (λ _ _, True)); [by apply okM_true|]. intros _ t6 _.
  apply (okM_bind _ _ (λ _ _, True)); [by apply okM_true|]. intros _ t7 _.
  apply (okM_bind _ _ (λ _ _, True)); [by apply okM_true|]. intros _ t8 _.
  eapply okM_bind; [apply waitForPreviousPod_ok|]. intros ? t9 Hwait. apply okM_true. intros _ t10.
  exists env. split; [set_solver|]. right. exists mdb, i. split_and!; [set_solver|done|].
  unfold galera_state_present, present in *. repeat setoid_rewrite elem_of_app.
  destruct Hwait as [?|[[?|?]|[?|(pod & ? & ?)]]]; [tauto..|]. do 3 right. exists pod. tauto.
Qed.
End init.

(** ** The agent *)
(** Runs in which nothing but the agent writes its files: what is read is what the file
    system, changed by the events before, holds. *)
Definition reads (e : event nop) (fs : gmap string string) : Prop :=
  let 'Ev o x := e in
  match o in nop X return X → Prop with
  | NReadFile path => λ r, match r with Ok b => fs !! path = Some b | Err err => os_IsNotExist err = true → fs !! path = None end
  | NStat path => λ r, match r with Ok _ => True | Err err => os_IsNotExist err = true → fs !! path = None end
  | NRemove path => λ r, match r with Ok _ => True | Err err => os_IsNotExist err = true → fs !! path = None end
  | _ => λ _, True
  end x.
Fixpoint consistent (fs : gmap string string) (t : ntrace) : Prop :=
  match t with
  | [] => True
  | e :: t => reads e fs ∧ consistent (file_event e fs) t
  end.

(** An input or output error while a file was read. *)
Definition read_failed (path : string) (t : ntrace) : Prop :=
  ∃ err, os_IsNotExist err = false ∧ Ev (NReadFile path) (Err err) ∈ t.

Section agent.
Variable uuid_Parse : string → bool.
Variable fm : FileManager.
Abbreviation grastate := (state_path fm GaleraStateFileName).
Abbreviation bootstrap_cnf := (config_path fm BootstrapFileName).

Lemma grastate_not_bootstrap : grastate ≠ bootstrap_cnf.
Proof. intros Heq%path_Join_name; done. Qed.

(** The state a bootstrap of which is enabled can be written and read back. *)
Definition state_ok (g : GaleraState) : Prop :=
  field_ok (gs_Version g) ∧ field_ok (gs_UUID g) ∧ in_int (gs_Seqno g) = true.

(** What a successful request to enable the bootstrap has done. *)
Lemma EnableBootstrap_OK b s : wpM (handle_EnableBootstrap uuid_Parse fm b) s (λ t _ r, ∃ res, r = Ok res ∧
  (rs_code res = StatusOK → ∃ bootstrap text g text',
    decodeAndValidateBootstrap uuid_Parse b = Ok bootstrap ∧
    GaleraState_Unmarshal uuid_Parse text = Ok g ∧
    GaleraState_Marshal uuid_Parse (safe_state bootstrap g) = Ok text' ∧
    t = [Ev (NReadFile grastate) (Ok text); Ev (NWriteFile grastate text') (Ok tt);
         Ev (NWriteFile bootstrap_cnf BootstrapFile) (Ok tt)])).
Proof.
  unfold handle_EnableBootstrap, setSafeToBootstrap, ReadStateFile, WriteStateFile, WriteConfigFile.
  destruct (decodeAndValidateBootstrap uuid_Parse b) as [bootstrap|e]; [|wp_step; by eexists].
  wp_auto; (eexists; split; [done|]); try done.
  intros _. destruct a2, a3. by exists bootstrap, a, a0, a1.
Qed.

Lemma GetState_result s : wpM (handle_GetState uuid_Parse fm) s (λ t _ r, ∃ ans res,
  t = [Ev (NReadFile grastate) ans] ∧ r = Ok res ∧
  match ans with
  | Err err => os_IsNotExist err = false ∨ rs_code res = StatusNotFound
  | Ok text => ∀ g, GaleraState_Unmarshal uuid_Parse text = Ok g → res = WriteOK (StateBody g)
  end).
Proof.
  unfold handle_GetState, ReadStateFile. do 3 wp_step.
  - case_bool_decide as Ha; [subst|]; wp_auto; do 2 eexists; (split; [done|]); (split; [done|]);
      cbn beta iota; intros g Hg; [discriminate Hg|congruence..].
  - destruct (os_IsNotExist e) eqn:He; wp_step; do 2 eexists; (split; [done|]); (split; [done|]); cbn; auto.
Qed.

(** C27: enabling the bootstrap of a node and asking for its state: the agent answers
    with the version the node had, the position it was given and [safe_to_bootstrap] set, and the
    bootstrap file is in place, unless the state file could not be read. *)
Theorem enabled_bootstrap_is_served b (fs : gmap string string) bootstrap text g :
  decodeAndValidateBootstrap uuid_Parse b = Ok bootstrap →
  fs !! grastate = Some text → GaleraState_Unmarshal uuid_Parse text = Ok g →
  state_ok (safe_state bootstrap g) →
  wpM (r1 <- handle_EnableBootstrap uuid_Parse fm b ;; r2 <- handle_GetState uuid_Parse fm ;; ret (r1, r2)) tt
    (λ t _ r, ∃ r1 r2, r = Ok (r1, r2) ∧
      (consistent fs t → rs_code r1 = StatusOK →
        (client_GetState r2 = AgentOk (safe_state bootstrap g) ∨ read_failed grastate t) ∧
        files t fs !! bootstrap_cnf = Some BootstrapFile)).
Proof.
  intros Hb Htext Hg (Hv & Hu & Hz). wp_step. eapply wpM_mono; [|apply EnableBootstrap_OK].
  intros t1 s1 r (r1 & -> & H1). wp_step. eapply wpM_mono; [|apply GetState_result].
  intros t2 s2 r (ans & r2 & -> & -> & H2). wp_step. exists r1, r2. split; [done|].
  intros Hc Hr1. destruct (H1 Hr1) as (bootstrap' & text0 & g' & text' & Hb' & Hg' & Hm & ->).
  rewrite Hb in Hb'. injection Hb' as <-. pose proof grastate_not_bootstrap as Hne.
  cbn [app] in *. destruct Hc as (Hread & _ & _ & Hread2 & _). cbn in Hread, Hread2.
  rewrite Htext in Hread. injection Hread as <-. rewrite Hg in Hg'. injection Hg' as <-.
  rewrite lookup_insert_ne in Hread2 by done. rewrite lookup_insert_eq in Hread2.
  split.
  - destruct ans as [text2|err].
    + left. injection Hread2 as <-. rewrite (H2 (safe_state bootstrap g)); [done|].
      by eapply GaleraState_Marshal_Unmarshal.
    + right. exists err. split; [destruct (os_IsNotExist err); [by specialize (Hread2 eq_refl)|done]|].
      do 3 right. by left.
  - cbn. by rewrite lookup_insert_eq.
Qed.
End agent.

(** *** Authentication *)
Section authentication.
Variable uuid_Parse : string → bool.
Variable basic_auth : gmap string string → request → bool.
Variable chi_fallback : response.

Definition touches_files (e : event nop) : Prop :=
  ∃ p, (∃ ans, e = Ev (NStat p) ans) ∨ (∃ ans, e = Ev (NReadFile p) ans) ∨
       (∃ b ans, e = Ev (NWriteFile p b) ans) ∨ (∃ ans, e = Ev (NRemove p) ans).

(** The API server has vouched that the token of the request belongs to the trusted account. *)
Definition vouched (trusted : Trusted) (r : request) (t : ntrace) : Prop := ∃ token,
  authToken r = Ok token ∧
  Ev (NTokenReview token) (Ok (mkTokenReviewStatus true (Trusted_String trusted))) ∈ t.

Lemma KubernetesAuth_guarded trusted next r s :
  wpM (KubernetesAuth_Handler trusted next r) s (λ t _ _, guarded touches_files (vouched trusted r) t).
Proof.
  unfold KubernetesAuth_Handler. destruct (authToken r) as [token|e] eqn:Ht; [|wp_step; apply guarded_nil].
  assert (∀ ans, ¬ touches_files (Ev (NTokenReview token) ans)) as Hn.
  { intros ans (p & [[? [=]]|[[? [=]]|[(? & ? & [=])|[? [=]]]]]). }
  do 3 wp_step; [destruct a as [authenticated username]; cbn [tr_Authenticated tr_Username]|
    wp_step; apply guarded_none; by repeat constructor].
  destruct authenticated; cbn [negb]; [|wp_step; apply guarded_none; by repeat constructor].
  case_bool_decide; [wp_step; apply guarded_none; by repeat constructor|].
  case_bool_decide as Hu; cbn [negb]; [|wp_step; apply guarded_none; by repeat constructor].
  eapply wpM_mono; [|apply wpM_True]. intros t _ _ _. apply (guarded_app _ _ [_]); [| |].
  - intros u u' (tok & ? & Hin). exists tok. split; [done|]. apply elem_of_app. by left.
  - by repeat constructor.
  - exists token. split; [done|]. rewrite Hu. by apply list_elem_of_singleton.
Qed.

(** C26: an agent that is started with Kubernetes authentication reads and changes the files
    of the node only after the API server has reviewed the token of the request and vouched that it
    belongs to the trusted ServiceAccount, whatever the rate limit, the method and the path. *)
Theorem agent_serves_only_the_trusted (f : AgentFlags) (fm : FileManager) (r : request) :
  kubernetesAuth f = true → kubernetesTrustedName f ≠ "" → kubernetesTrustedNamespace f ≠ "" →
  wpM (opts <- getAPIServer_routerOpts f ;;
       NewGaleraRouter uuid_Parse basic_auth chi_fallback opts fm r) tt
    (λ t _ _, guarded touches_files
      (vouched (mkTrusted (kubernetesTrustedName f) (kubernetesTrustedNamespace f)) r) t).
Proof.
  intros Hk Hn Hns. unfold getAPIServer_routerOpts. rewrite Hk, !bool_decide_false by done. cbn [andb negb].
  do 2 wp_step. set (trusted := mkTrusted _ _). unfold NewGaleraRouter.
  destruct (bool_decide _ && bool_decide _); [wp_step; apply guarded_nil|].
  destruct (bool_decide _ || _); [|wp_step; apply guarded_nil]. unfold apiRouter.
  assert (∀ o s, wpM (with_auth basic_auth (WithKubernetesAuth true trusted o) (galera_routes uuid_Parse chi_fallback fm) r) s
    (λ t _ _, guarded touches_files (vouched trusted r) t)) as Hauth by (intros; apply KubernetesAuth_guarded).
  set (opts := WithRateLimit _ _ _).
  destruct (ro_RateLimitRequests _) as [requests|]; [|apply Hauth].
  destruct (ro_RateLimitDuration _) as [duration|]; [|apply Hauth].
  do 2 wp_step.
  assert (Forall (λ e, ¬ touches_files e) [Ev (NRateLimit requests duration) x]) as Hl.
  { repeat constructor. intros (p & [[? [=]]|[[? [=]]|[(? & ? & [=])|[? [=]]]]]). }
  destruct x; [|wp_step; by apply guarded_none].
  eapply wpM_mono; [|apply Hauth]. intros t ? ? Ht. apply (guarded_prepend _ _ [_] _ Hl).
  eapply guarded_mono; [|exact Ht]. intros u (tok & ? & ?). exists tok. split; [done|]. apply elem_of_app. by right.
Qed.
End authentication.

(** *** Probes *)
Section probes.
Variable self : Z.
Variable key : NamespacedName.

Definition answered (variable value : string) (t : ntrace) : Prop :=
  Ev (NBase (SqlQueryRow self statusVariableSql [variable])) (Reply value) ∈ t.
Definition observed (mdb : MariaDB) (t : ntrace) : Prop := Ev (NBase (KGetMariaDB key)) (Ok mdb) ∈ t.

Lemma answered_incl v x t t' : t ⊆ t' → answered v x t → answered v x t'.
Proof. unfold answered. auto. Qed.

(** A response that is always given, of which [Q] holds when it says OK. *)
Definition ok_response (Q : ntrace → Prop) (t : ntrace) (_ : unit) (r : result response) : Prop :=
  ∃ res, r = Ok res ∧ (rs_code res = StatusOK → Q t).

Lemma with_healthy_pod_spec k s (Q : ntrace → Prop) :
  (∀ t s', answered "wsrep_cluster_status" "Primary" t → wpM (k self) s' (ok_response (λ t', Q (t ++ t')))) →
  wpM (with_healthy_pod self k) s (ok_response Q).
Proof.
  intros Hk. unfold with_healthy_pod. do 3 wp_step; [|wp_step; by eexists].
  wp_step. wp_step. eapply (wpM_mono _ _ (λ t _ r, r = Ok self ∨ ∃ e, r = Err e)).
  2: { unfold NewLocalClientWithPodEnv. wp_auto; eauto. }
  intros t1 s1 r [->|[e ->]]; [|wp_step; by eexists].
  wp_step. wp_step. apply wpM_hoist. unfold IsPodHealthy, GaleraClusterStatus, StatusVariable, QueryRow.
  do 3 wp_step; cbn [wrap_err]; [|wp_step; by eexists].
  wp_step. case_bool_decide as Hp; cbn [negb]; [|wp_step; by eexists]. subst a0.
  specialize (Hk (Ev NGetPodEnv (Ok a) :: t1 ++ [Ev (NBase (SqlQueryRow self statusVariableSql ["wsrep_cluster_status"])) (Reply "Primary")]) s1).
  eapply wpM_mono; [|apply Hk; unfold answered; set_solver].
  intros t2 ? r (res & -> & Hr). exists res. split; [done|]. intros Hc. specialize (Hr Hc).
  cbn in *. by rewrite <- (assoc_L (++)) in Hr.
Qed.

Lemma probe_mariadb_spec s : wpM (probe_mariadb key) s (λ t _ r, ∃ mdb, r = Ok mdb ∧
  (observed mdb t ∨ mdb = MariaDB_zero (mkObjectMeta "" "" "" ∅ ∅))).
Proof.
  unfold probe_mariadb. do 3 wp_step; wp_step; eexists; (split; [done|]); [left|by right].
  unfold observed. set_solver.
Qed.

(** The probes always answer.  The liveness probe says OK only of a node of the primary
    component, or while the MariaDB is marked as having a Galera cluster to recover; the readiness
    probe only of a node of the primary component that is synced, or a donor where the MariaDB
    makes donors available. *)
Theorem probes_report_the_node :
  wpM (Liveness self key) tt (ok_response (λ t,
    answered "wsrep_cluster_status" "Primary" t ∨
    ∃ mdb, observed mdb t ∧ HasGaleraNotReadyCondition mdb = true)) ∧
  wpM (Readiness self key) tt (ok_response (λ t,
    answered "wsrep_cluster_status" "Primary" t ∧
    (answered "wsrep_local_state_comment" GaleraStateSynced t ∨
     answered "wsrep_local_state_comment" GaleraStateDonor t ∧
     ∃ mdb galera, observed mdb t ∧ sp_Galera (m_Spec mdb) = Some galera ∧
       ga_AvailableWhenDonor galera = Some true))).
Proof.
  split.
  - unfold Liveness. wp_step. eapply wpM_mono; [|apply probe_mariadb_spec].
    intros t1 s1 r (mdb & -> & Hmdb). destruct (HasGaleraNotReadyCondition mdb) eqn:Hn.
    + wp_step. eexists. split; [done|]. intros _. right. exists mdb. rewrite app_nil_r.
      destruct Hmdb as [?| ->]; [done|]. by vm_compute in Hn.
    + apply (with_healthy_pod_spec _ _ (λ t, _ (t1 ++ t))). intros t s' Ht. wp_step. eexists. split; [done|].
      intros _. left. eapply answered_incl; [|exact Ht]. set_solver.
  - unfold Readiness. wp_step. eapply wpM_mono; [|apply probe_mariadb_spec].
    intros t1 s1 r (mdb & -> & Hmdb). apply (with_healthy_pod_spec _ _ (λ t, _ (t1 ++ t))). intros t s' Ht.
    wp_step. wp_step. apply wpM_hoist. unfold GaleraLocalState, StatusVariable, QueryRow.
    wp_step; [|wp_step; by eexists]. set (tail := hoist_event _ <$> _).
    assert (∀ t', answered "wsrep_cluster_status" "Primary" (t1 ++ t ++ t')) as Hprim.
    { intros t'. eapply answered_incl; [|exact Ht]. set_solver. }
    assert (answered "wsrep_local_state_comment" a (t1 ++ t ++ tail ++ [])) as Hstate.
    { unfold answered. repeat setoid_rewrite elem_of_app. right; right; left. by apply list_elem_of_singleton. }
    case_bool_decide as Hs; [subst a; wp_step; eexists; split; [done|]; intros _; auto|].
    case_match eqn:Hd; [|wp_step; by eexists].
    apply andb_true_iff in Hd as [Ha Hd%bool_decide_eq_true]. subst a.
    wp_step. eexists. split; [done|]. intros _. split; [done|]. right. split; [done|].
    destruct (sp_Galera (m_Spec mdb)) as [galera|] eqn:Hga; [|done]. cbn in Ha.
    destruct (ga_AvailableWhenDonor galera) as [[]|] eqn:Had; [|done|done].
    exists mdb, galera. split_and!; [|done|done]. destruct Hmdb as [?| ->]; [|done].
    unfold observed in *. set_solver.
Qed.
End probes.

(** ** Witnesses *)
Definition fm_ex : FileManager := mkFileManager "/etc/mysql/mariadb.conf.d" "/var/lib/mysql".
Definition node_state : GaleraState := mkGaleraState "2.1" "05f061bd-02a3-11ee-857c-aa370ff6666b" 9 false.
Definition is_uuid (s : string) : bool := bool_decide (String.length s = 36%nat).
Definition node_state_text : string :=
  match GaleraState_Marshal is_uuid node_state with Ok t => t | Err _ => "" end.
Definition recovered_ex : Bootstrap := mkBootstrap "15d9a0ef-02b1-11ee-9499-decd8e34642e" 12.

Lemma enabled_bootstrap_is_served_witness :
  wpM (r1 <- handle_EnableBootstrap is_uuid fm_ex (Some (Ok recovered_ex)) ;;
       r2 <- handle_GetState is_uuid fm_ex ;; ret (r1, r2)) tt
    (λ t _ r, ∃ r1 r2, r = Ok (r1, r2) ∧
      (consistent {[ "/var/lib/mysql/grastate.dat" := node_state_text ]} t → rs_code r1 = StatusOK →
        (client_GetState r2 = AgentOk (mkGaleraState "2.1" "15d9a0ef-02b1-11ee-9499-decd8e34642e" 12 true) ∨
         read_failed "/var/lib/mysql/grastate.dat" t) ∧
        files t {[ "/var/lib/mysql/grastate.dat" := node_state_text ]} !! "/etc/mysql/mariadb.conf.d/1-bootstrap.cnf" =
          Some BootstrapFile)).
Proof.
  apply (enabled_bootstrap_is_served is_uuid fm_ex (Some (Ok recovered_ex))
    {[ "/var/lib/mysql/grastate.dat" := node_state_text ]} (Some recovered_ex) node_state_text node_state).
  - reflexivity.
  - reflexivity.
  - vm_compute. reflexivity.
  - split; [|split]; [refine (bool_decide_unpack _ _); vm_compute; exact I..|reflexivity].
Defined.

Definition flags_ex : AgentFlags := mkAgentFlags 0 0 true "mariadb-galera" "default" false "" "".
Definition bootstrap_request : request :=
  mkRequest PUT "/api/galera/bootstrap" "Bearer abc" (Some (Ok recovered_ex)).

Lemma agent_serves_only_the_trusted_witness :
  wpM (opts <- getAPIServer_routerOpts flags_ex ;;
       NewGaleraRouter is_uuid (λ _ _, false) (mkResponse 404 NoBody) opts fm_ex bootstrap_request) tt
    (λ t _ _, guarded touches_files (vouched (mkTrusted "mariadb-galera" "default") bootstrap_request) t).
Proof.
  apply (agent_serves_only_the_trusted is_uuid (λ _ _, false) (mkResponse 404 NoBody) flags_ex fm_ex);
    [reflexivity|discriminate|discriminate].
Defined.

(** The init container of the first Pod of a new cluster, when the bootstrap file cannot be written:
    the error is logged and the node starts, without a cluster to join and without being told
    to bootstrap one. *)
Definition first_pod_env : PodEnvironment := { galera_env with PodEnv_PodName := "mariadb-galera-0" }.
Definition first_pod_answers {X} (o : nop X) : X :=
  match o in nop X return X with
  | NBase o => friendly (galera_mdb gcache) [] 0 o
  | NGetPodEnv => Ok first_pod_env
  | NGetK8sClient => Ok tt
  | NStat path => if bool_decide (path ∈ ["/etc/mysql/mariadb.conf.d"; "/var/lib/mysql"]) then Ok tt
                  else Err (ErrSentinel os_ErrNotExist)
  | NReadFile _ => Err (ErrSentinel os_ErrNotExist)
  | NWriteFile path _ => if bool_decide (path = "/etc/mysql/mariadb.conf.d/1-bootstrap.cnf")
                         then Err (ErrNew "no space left on device") else Ok tt
  | NRemove _ => Ok tt
  | NTokenReview _ => Ok (mkTokenReviewStatus false "")
  | NRateLimit _ _ => true
  end.
Definition first_pod : env nop := Env nop (λ _ _ o, first_pod_answers o) (λ _, true).
Example failed_bootstrap_is_not_reported :
  let '(t, (_, r)) := run first_pod (init_Run "" 3 "/etc/mysql/mariadb.conf.d" "/var/lib/mysql" tt) [] in
  r = Ok tt ∧ files t ∅ !! "/etc/mysql/mariadb.conf.d/1-bootstrap.cnf" = None.
Proof. vm_compute. split; reflexivity. Qed.
