(* ===== verification/Inmutable.v ===== *)
(** * pkg/webhook: fields that may not change

    The traversal of a spec by reflection that rejects an update of a field tagged
    [webhook:"inmutable"], or of one tagged [webhook:"inmutableinit"] once it is set.  A Go value,
    as package reflect shows it, is a tree, in which a nil slice or map is [GNil]. *)

From S2P Require Import Prelude GoStrings.

Local Open Scope Z_scope.

(** [reflect.StructField]: the name, and the tags [json] and [webhook]. *)
Record StructField := mkStructField { fd_Name : string; fd_json : string; fd_webhook : string }.
#[export] Instance StructField_eq_dec : EqDecision StructField.
Proof. solve_decision. Defined.

(** [reflect.Value] *)
Inductive gval :=
  | GStr (s : string)
  | GInt (z : Z)
  | GBool (b : bool)
  | GMap (m : gmap string string)
  | GNil
  | GPtr (v : gval)
  | GSlice (vs : list gval)
  | GStruct (fs : list (StructField * gval)).

Section gval_ind.
Context (P : gval → Prop).
Hypothesis HStr : ∀ s, P (GStr s).
Hypothesis HInt : ∀ z, P (GInt z).
Hypothesis HBool : ∀ b, P (GBool b).
Hypothesis HMap : ∀ m, P (GMap m).
Hypothesis HNil : P GNil.
Hypothesis HPtr : ∀ v, P v → P (GPtr v).
Hypothesis HSlice : ∀ vs, Forall P vs → P (GSlice vs).
Hypothesis HStruct : ∀ fs, Forall (λ fv, P fv.2) fs → P (GStruct fs).

Fixpoint gval_nested_ind (v : gval) : P v :=
  let elems := fix elems (vs : list gval) : Forall P vs :=
    match vs with
    | [] => Forall_nil_2 _
    | v :: vs => Forall_cons_2 _ _ _ (gval_nested_ind v) (elems vs)
    end in
  let fields := fix fields (fs : list (StructField * gval)) : Forall (λ fv, P fv.2) fs :=
    match fs with
    | [] => Forall_nil_2 _
    | fv :: fs => Forall_cons_2 _ fv _ (gval_nested_ind fv.2) (fields fs)
    end in
  match v with
  | GStr s => HStr s
  | GInt z => HInt z
  | GBool b => HBool b
  | GMap m => HMap m
  | GNil => HNil
  | GPtr v => HPtr v (gval_nested_ind v)
  | GSlice vs => HSlice vs (elems vs)
  | GStruct fs => HStruct fs (fields fs)
  end.
End gval_ind.

(** [reflect.DeepEqual], on values of one type. *)
Fixpoint DeepEqual (v w : gval) : bool :=
  let elems := fix elems vs ws := match vs, ws with
    | [], [] => true
    | v :: vs, w :: ws => DeepEqual v w && elems vs ws
    | _, _ => false
    end in
  let fields := fix fields (fs gs : list (StructField * gval)) := match fs, gs with
    | [], [] => true
    | (f, v) :: fs, (g, w) :: gs => bool_decide (f = g) && DeepEqual v w && fields fs gs
    | _, _ => false
    end in
  match v, w with
  | GStr s, GStr t => bool_decide (s = t)
  | GInt y, GInt z => bool_decide (y = z)
  | GBool a, GBool b => bool_decide (a = b)
  | GMap l, GMap m => bool_decide (l = m)
  | GNil, GNil => true
  | GPtr v, GPtr w => DeepEqual v w
  | GSlice vs, GSlice ws => elems vs ws
  | GStruct fs, GStruct gs => fields fs gs
  | _, _ => false
  end.

(** [Value.IsZero] *)
Fixpoint IsZero (v : gval) : bool :=
  match v with
  | GStr s => bool_decide (s = "")
  | GInt z => bool_decide (z = 0)
  | GBool b => negb b
  | GNil => true
  | GMap _ | GPtr _ | GSlice _ => false
  | GStruct fs => forallb (λ fv, IsZero fv.2) fs
  end.

Definition isNilOrZero (v : gval) : bool :=
  match v with GNil => true | GPtr _ => false | _ => IsZero v end.
Definition isValidStruct (v : gval) : bool :=
  if isNilOrZero v then false else
  match v with GStruct _ | GPtr (GStruct _) => true | _ => false end.

(** The name that the tag [json] gives, and the path to a field. *)
Definition jsonField (f : StructField) : string := default "" (head (Split (fd_json f) ",")).
Definition appendField (f : StructField) (path : list string) : list string :=
  if bool_decide (jsonField f = "") then path else path ++ [jsonField f].
Definition inmutableFieldError (f : StructField) (path : list string) : string :=
  let path := if negb (bool_decide (jsonField f = "")) && bool_decide (0 < length path)%nat
              then String.concat "." (path ++ [jsonField f]) else fd_Name f in
  "'" +:+ path +:+ "' field is inmutable".

Definition isLower (c : Ascii.ascii) : bool :=
  let n := Z.of_N (Ascii.N_of_ascii c) in bool_decide (97 ≤ n) && bool_decide (n ≤ 122).
Definition isUnexported (s : string) : bool :=
  match s with EmptyString => false | String c _ => isLower c end.

Definition inmutableTagValue : string := "inmutable".
Definition inmutableInitTagValue : string := "inmutableinit".

Definition validateInmutableValue (f : StructField) (v old : gval) (path : list string) : list string :=
  if isUnexported (fd_Name f) then [] else
  if bool_decide (fd_webhook f = inmutableTagValue) then
    if negb (DeepEqual v old) then [inmutableFieldError f path] else []
  else if bool_decide (fd_webhook f = inmutableInitTagValue) then
    if negb (isNilOrZero old) && negb (DeepEqual v old) then [inmutableFieldError f path] else []
  else [].

(** The fields behind [reflect.Indirect], of a valid struct. *)
Definition fields_of (v : gval) : option (list (StructField * gval)) :=
  if negb (isValidStruct v) then None else
  match v with GStruct fs | GPtr (GStruct fs) => Some fs | _ => None end.

Fixpoint validateInmutable (f : StructField) (v old : gval) (path : list string) {struct v} : list string :=
  let nested f v old path := if isValidStruct v then validateInmutable f v old (appendField f path) else [] in
  let elems := fix elems f vs olds := match vs, olds with
    | v :: vs, old :: olds => nested f v old path ++ elems f vs olds
    | _, _ => []
    end in
  let fields := fix fields (fs ofs : list (StructField * gval)) := match fs, ofs with
    | (f, v) :: fs, (_, old) :: ofs =>
        nested f v old path ++
        (match v, old with GSlice vs, GSlice olds => elems f vs olds | _, _ => [] end) ++
        validateInmutableValue f v old path ++ fields fs ofs
    | _, _ => []
    end in
  match fields_of old with
  | None => validateInmutableValue f v old path
  | Some ofs =>
      match v with
      | GPtr (GStruct fs) => fields fs ofs
      | GStruct fs => if isValidStruct v then fields fs ofs else validateInmutableValue f v old path
      | _ => validateInmutableValue f v old path
      end
  end.

(** An update is refused with the errors of all fields. *)
Definition inmutable_ValidateUpdate (name : string) (spec old : gval) : result unit :=
  match validateInmutable (mkStructField "Spec" "spec,omitempty" "") spec old ["spec"] with
  | [] => Ok tt
  | errs => Err (ErrNew (name +:+ " is invalid: " +:+ String.concat ", " errs))
  end.

(** ** Equality *)
Lemma DeepEqual_spec v w : DeepEqual v w = true ↔ v = w.
Proof.
  revert w. induction v as [s|z|b|m| |v IH|vs IH|fs IH] using gval_nested_ind; intros [t|y|c|l| |w|ws|gs]; cbn; try done;
    try (rewrite bool_decide_eq_true; naive_solver).
  - rewrite IH. naive_solver.
  - revert ws. induction IH as [|v vs Hv _ IHvs]; intros [|w ws]; try done. rewrite andb_true_iff, Hv, IHvs. naive_solver.
  - revert gs. induction IH as [|[f v] fs Hv _ IHfs]; intros [|[g w] gs]; try done. cbn in Hv.
    rewrite !andb_true_iff, bool_decide_eq_true, Hv, IHfs. naive_solver.
Qed.
Lemma DeepEqual_false v w : DeepEqual v w = false ↔ v ≠ w.
Proof. rewrite <-DeepEqual_spec. by destruct (DeepEqual v w). Qed.

(** ** The traversal, unfolded *)
Definition nested_errors (f : StructField) (v old : gval) (path : list string) : list string :=
  if isValidStruct v then validateInmutable f v old (appendField f path) else [].
Fixpoint elem_errors (f : StructField) (vs olds : list gval) (path : list string) : list string :=
  match vs, olds with
  | v :: vs, old :: olds => nested_errors f v old path ++ elem_errors f vs olds path
  | _, _ => []
  end.
Definition slice_errors (f : StructField) (v old : gval) (path : list string) : list string :=
  match v, old with GSlice vs, GSlice olds => elem_errors f vs olds path | _, _ => [] end.
Fixpoint field_errors (fs ofs : list (StructField * gval)) (path : list string) : list string :=
  match fs, ofs with
  | (f, v) :: fs, (_, old) :: ofs =>
      nested_errors f v old path ++ slice_errors f v old path ++ validateInmutableValue f v old path ++
      field_errors fs ofs path
  | _, _ => []
  end.

Ltac fold_field_errors :=
  let fs := fresh "fs" in let ofs := fresh "ofs" in let IH := fresh "IH" in let IHv := fresh "IHv" in
  match goal with |- ?F ?l ?k = field_errors _ _ ?path =>
    enough (∀ fs ofs, F fs ofs = field_errors fs ofs path) by auto end;
  clear; intros fs; induction fs as [|[g v] fs IH]; intros [|[h w] ofs]; try done;
  cbn -[isValidStruct]; f_equal; rewrite IH; f_equal;
  destruct v as [| | | | | |vs|], w as [| | | | | |ws|]; try done; cbn -[isValidStruct];
  revert ws; induction vs as [|v vs IHv]; intros [|w ws]; try done; cbn -[isValidStruct]; f_equal; apply IHv.

Lemma fields_of_eq v :
  fields_of v = match v with
                | GPtr (GStruct fs) => Some fs
                | GStruct fs => if IsZero v then None else Some fs
                | _ => None
                end.
Proof. unfold fields_of, isValidStruct, isNilOrZero. destruct v as [| | | | |[]| |]; try done; by destruct (IsZero _). Qed.

Lemma validateInmutable_eq f v old path :
  validateInmutable f v old path =
  match fields_of v, fields_of old with
  | Some fs, Some ofs => field_errors fs ofs path
  | _, _ => validateInmutableValue f v old path
  end.
Proof.
  rewrite (fields_of_eq v).
  destruct v as [s|z|b|m| |v|vs|fs]; cbn [validateInmutable]; destruct (fields_of old) as [ofs|]; try done.
  - destruct v; try done. fold_field_errors.
  - by destruct v.
  - unfold isValidStruct, isNilOrZero. destruct (IsZero (GStruct fs)); [done|]. fold_field_errors.
  - by destruct (IsZero _).
Qed.

(** ** What the traversal guarantees

    [compared f v old f' v' old']: from the values [v] and [old] of [f] the traversal gets to the
    values [v'] and [old'] of [f']. *)
Inductive compared : StructField → gval → gval → StructField → gval → gval → Prop :=
  | compared_leaf f v old : fields_of v = None ∨ fields_of old = None → compared f v old f v old
  | compared_field f v old fs ofs i g w h ow :
      fields_of v = Some fs → fields_of old = Some ofs → fs !! i = Some (g, w) → ofs !! i = Some (h, ow) →
      compared f v old g w ow
  | compared_nested f v old fs ofs i g w h ow g' w' ow' :
      fields_of v = Some fs → fields_of old = Some ofs → fs !! i = Some (g, w) → ofs !! i = Some (h, ow) →
      isValidStruct w = true → compared g w ow g' w' ow' → compared f v old g' w' ow'
  | compared_elem f v old fs ofs i g ws h ows j w ow g' w' ow' :
      fields_of v = Some fs → fields_of old = Some ofs →
      fs !! i = Some (g, GSlice ws) → ofs !! i = Some (h, GSlice ows) → ws !! j = Some w → ows !! j = Some ow →
      isValidStruct w = true → compared g w ow g' w' ow' → compared f v old g' w' ow'.

(** A field is respected by an update. *)
Definition respected (f : StructField) (v old : gval) : Prop :=
  isUnexported (fd_Name f) = true ∨
  (fd_webhook f = inmutableTagValue → v = old) ∧
  (fd_webhook f = inmutableInitTagValue → isNilOrZero old = true ∨ v = old).

Lemma validateInmutableValue_spec f v old path : validateInmutableValue f v old path = [] ↔ respected f v old.
Proof.
  unfold validateInmutableValue, respected. destruct (isUnexported _); [by split; auto|].
  assert (inmutableTagValue ≠ inmutableInitTagValue) as Hne by done.
  pose proof (DeepEqual_spec v old) as HD.
  destruct (bool_decide_reflect (fd_webhook f = inmutableTagValue)) as [->|];
    [|destruct (bool_decide_reflect (fd_webhook f = inmutableInitTagValue)) as [->|]].
  - destruct (DeepEqual v old); cbn; (split; [done || intros _; right|]).
    + by split; [tauto|].
    + done.
    + intros [?|[H _]]; [done|]. by apply HD in H.
  - destruct (isNilOrZero old); cbn; [split; [intros _; right; split; auto; by intros ?%symmetry|done]|].
    destruct (DeepEqual v old); cbn; (split; [done || intros _; right|]).
    + split; [by intros ?%symmetry|tauto].
    + done.
    + intros [?|[_ H]]; [done|]. destruct H as [?|H]; [done..|]. by apply HD in H.
  - split; [intros _; right; by split|done].
Qed.

(** The values directly inside a value. *)
Definition child (w v : gval) : Prop :=
  match v with
  | GPtr v => w = v
  | GSlice vs => w ∈ vs
  | GStruct fs => ∃ f, (f, w) ∈ fs
  | _ => False
  end.
Lemma child_wf : well_founded child.
Proof.
  intros v. induction v as [| | | | |v IH|vs IH|fs IH] using gval_nested_ind; apply Acc_intro; intros w Hw; cbn in Hw;
    try (exfalso; exact Hw).
  - by rewrite Hw.
  - rewrite Forall_forall in IH. by apply IH.
  - destruct Hw as [f Hw]. rewrite Forall_forall in IH. apply (IH _ Hw).
Qed.
Lemma tc_child_wf : well_founded (tc child).
Proof.
  intros v. induction (child_wf v) as [v _ IH]. apply Acc_intro. intros w Hw.
  induction Hw as [w v Hw|w x v Hw _ IHw]; [by apply IH|]. apply (Acc_inv (IHw IH)). by apply tc_once.
Qed.
Lemma fields_of_inside v fs g w : fields_of v = Some fs → (g, w) ∈ fs → tc child w v.
Proof.
  rewrite fields_of_eq. destruct v as [| | | | |v| |fs']; try done.
  - destruct v as [| | | | | | |fs']; try done. intros [= ->] Hw.
    apply (tc_l _ _ (GStruct fs)); [by exists g|]. by apply tc_once.
  - destruct (IsZero _); [done|]. intros [= ->] Hw. apply tc_once. by exists g.
Qed.

Lemma app_nil_iff {A} (l k : list A) : l ++ k = [] ↔ l = [] ∧ k = [].
Proof. destruct l; naive_solver. Qed.
Lemma elem_errors_nil f vs olds path :
  elem_errors f vs olds path = [] ↔
  ∀ j v old, vs !! j = Some v → olds !! j = Some old → nested_errors f v old path = [].
Proof.
  revert olds. induction vs as [|v vs IH]; intros [|old olds]; cbn.
  1-3: by split; [intros _ j w ow Hj Hj'; rewrite ?lookup_nil in Hj, Hj'|].
  rewrite app_nil_iff, IH. split.
  - intros [H0 H] [|j] w ow; cbn; [naive_solver|apply H].
  - intros H. split; [by apply (H 0%nat)|]. intros j. apply (H (S j)).
Qed.
Lemma field_errors_nil fs ofs path :
  field_errors fs ofs path = [] ↔
  ∀ i f v g old, fs !! i = Some (f, v) → ofs !! i = Some (g, old) →
    nested_errors f v old path = [] ∧ slice_errors f v old path = [] ∧ respected f v old.
Proof.
  revert ofs. induction fs as [|[f v] fs IH]; intros [|[g old] ofs]; cbn.
  1-3: by split; [intros _ i h w k ow Hi Hi'; rewrite ?lookup_nil in Hi, Hi'|].
  rewrite !app_nil_iff, validateInmutableValue_spec, IH. split.
  - intros (H1 & H2 & H3 & H) [|i]; cbn; [naive_solver|apply H].
  - intros H. destruct (H 0%nat f v g old) as (? & ? & ?); [done..|]. do 3 (split; [done|]). intros i. apply (H (S i)).
Qed.

(** The errors of a value are empty when those of the values inside it are, and its fields are respected. *)
Lemma validateInmutable_fields f v old path fs ofs :
  fields_of v = Some fs → fields_of old = Some ofs →
  validateInmutable f v old path = [] ↔
  ∀ i g w h ow, fs !! i = Some (g, w) → ofs !! i = Some (h, ow) →
    respected g w ow ∧
    (isValidStruct w = true → validateInmutable g w ow (appendField g path) = []) ∧
    (∀ ws ows j x ox, w = GSlice ws → ow = GSlice ows → ws !! j = Some x → ows !! j = Some ox →
       isValidStruct x = true → validateInmutable g x ox (appendField g path) = []).
Proof.
  intros Hv Ho. rewrite validateInmutable_eq, Hv, Ho, field_errors_nil. unfold nested_errors.
  split; intros H i g w h ow Hi Hi'; destruct (H i g w h ow Hi Hi') as (H1 & H2 & H3).
  - split; [done|]. split; [by intros Hs; rewrite Hs in H1|].
    intros ws ows j x ox -> -> Hj Hj' Hs. cbn in H2. rewrite elem_errors_nil in H2.
    specialize (H2 _ _ _ Hj Hj'). unfold nested_errors in H2. by rewrite Hs in H2.
  - destruct (isValidStruct w) eqn:Hs; (split; [by auto|]); (split; [|done]);
      destruct w as [| | | | | |ws|], ow as [| | | | | |ows|]; try done; cbn; rewrite elem_errors_nil;
      intros j x ox Hj Hj'; unfold nested_errors; destruct (isValidStruct x) eqn:Hx; try done; by eapply H3.
Qed.

Lemma compared_inv f v old fs ofs (P : StructField → gval → gval → Prop) :
  fields_of v = Some fs → fields_of old = Some ofs →
  (∀ f' v' old', compared f v old f' v' old' → P f' v' old') ↔
  ∀ i g w h ow, fs !! i = Some (g, w) → ofs !! i = Some (h, ow) →
    P g w ow ∧
    (isValidStruct w = true → ∀ f' v' old', compared g w ow f' v' old' → P f' v' old') ∧
    (∀ ws ows j x ox, w = GSlice ws → ow = GSlice ows → ws !! j = Some x → ows !! j = Some ox →
       isValidStruct x = true → ∀ f' v' old', compared g x ox f' v' old' → P f' v' old').
Proof.
  intros Hv Ho. split.
  - intros H i g w h ow Hi Hi'. split; [by eapply H, compared_field|].
    split; [intros; by eapply H, compared_nested|]. intros ws ows j x ox -> -> Hj Hj' Hx f' v' old' Hc.
    by eapply H, compared_elem.
  - intros H f' v' old' Hc. destruct Hc; simplify_eq.
    + naive_solver.
    + by edestruct H as (Ha & _).
    + edestruct H as (_ & Ha & _); [done..|]. by apply Ha.
    + edestruct H as (_ & _ & Ha); [done..|]. by eapply Ha.
Qed.

Lemma validateInmutable_nil f v old path :
  validateInmutable f v old path = [] ↔
  ∀ f' v' old', compared f v old f' v' old' → respected f' v' old'.
Proof.
  revert f old path. induction (tc_child_wf v) as [v _ IH]. intros f old path.
  destruct (fields_of v) as [fs|] eqn:Hv; [destruct (fields_of old) as [ofs|] eqn:Ho|].
  - rewrite (validateInmutable_fields _ _ _ _ fs ofs), (compared_inv f v old fs ofs) by done.
    assert (∀ i g w, fs !! i = Some (g, w) → tc child w v) as Hin.
    { intros i g w Hi. eapply fields_of_inside; [done|]. by eapply list_elem_of_lookup_2. }
    assert (∀ i g ws j x, fs !! i = Some (g, GSlice ws) → ws !! j = Some x → tc child x v) as Hin'.
    { intros i g ws j x Hi Hj. apply (tc_l _ _ (GSlice ws)); [by eapply list_elem_of_lookup_2|]. by eapply Hin. }
    split; intros H i g w h ow Hi Hi'; destruct (H i g w h ow Hi Hi') as (H1 & H2 & H3); (split; [done|]); split.
    + intros Hs. apply (IH w (Hin _ _ _ Hi) g ow (appendField g path)). by apply H2.
    + intros ws ows j x ox -> -> Hj Hj' Hx. apply (IH x (Hin' _ _ _ _ _ Hi Hj) g ox (appendField g path)).
      by eapply H3.
    + intros Hs. apply IH; [by eapply Hin|]. by apply H2.
    + intros ws ows j x ox -> -> Hj Hj' Hx. apply IH; [by eapply Hin'|]. by eapply H3.
  - rewrite validateInmutable_eq, Hv, Ho, validateInmutableValue_spec. split.
    + intros H f' v' old' Hc. by destruct Hc; simplify_eq.
    + intros H. apply H, compared_leaf. auto.
  - rewrite validateInmutable_eq, Hv, validateInmutableValue_spec. split.
    + intros H f' v' old' Hc. by destruct Hc; simplify_eq.
    + intros H. apply H, compared_leaf. auto.
Qed.

(** ** Updates that the traversal lets through *)
Lemma inmutable_ValidateUpdate_ok name spec old :
  inmutable_ValidateUpdate name spec old = Ok tt ↔
  validateInmutable (mkStructField "Spec" "spec,omitempty" "") spec old ["spec"] = [].
Proof. unfold inmutable_ValidateUpdate. by destruct (validateInmutable _ _ _ _). Qed.

(** A field whose update passes, with everything inside it. *)
Definition settled (fv fo : StructField * gval) : Prop :=
  respected fv.1 fv.2 fo.2 ∧
  (isValidStruct fv.2 = true → ∀ path, validateInmutable fv.1 fv.2 fo.2 path = []) ∧
  (∀ ws ows j x ox, fv.2 = GSlice ws → fo.2 = GSlice ows → ws !! j = Some x → ows !! j = Some ox →
     isValidStruct x = true → ∀ path, validateInmutable fv.1 x ox path = []).

Lemma validateInmutable_settled f v old path fs ofs :
  fields_of v = Some fs → fields_of old = Some ofs → Forall2 settled fs ofs → validateInmutable f v old path = [].
Proof.
  intros Hv Ho Hs. rewrite (validateInmutable_fields f v old path fs ofs Hv Ho). intros i g w h ow Hi Hi'.
  destruct (Forall2_lookup_lr _ _ _ _ _ _ Hs Hi Hi') as (H1 & H2 & H3). split; [done|]. split; [by intros; apply H2|].
  intros ws ows j x ox Hw How Hj Hj' Hx. by eapply H3.
Qed.

Lemma respected_same f v : respected f v v.
Proof. right. auto. Qed.
Lemma respected_untagged n j v old : respected (mkStructField n j "") v old.
Proof. right. by split. Qed.
Lemma respected_init n j v old :
  isNilOrZero old = true ∨ v = old → respected (mkStructField n j inmutableInitTagValue) v old.
Proof. intros H. right. by split. Qed.

Lemma validateInmutable_same f v path : validateInmutable f v v path = [].
Proof.
  rewrite validateInmutable_nil. intros f' v' old' Hc.
  assert (v' = old') as ->; [|apply respected_same].
  remember v as old eqn:Hv in Hc at 2. revert Hv. induction Hc; intros ->; simplify_eq; auto.
Qed.
Lemma settled_same fv : settled fv fv.
Proof.
  split; [apply respected_same|]. split; [intros; apply validateInmutable_same|].
  intros ws ows j x ox Hw How Hj Hj' _ path. rewrite Hw in How. injection How as <-. rewrite Hj in Hj'.
  injection Hj' as <-. apply validateInmutable_same.
Qed.

(** A value one of whose sides has no fields, and is not a slice. *)
Definition no_slice (v : gval) : bool := match v with GSlice _ => false | _ => true end.
Lemma settled_leaf f g v old :
  respected f v old → fields_of v = None ∨ fields_of old = None → no_slice v || no_slice old = true →
  settled (f, v) (g, old).
Proof.
  intros Hr Hf Hn. split; [done|]. split; cbn [fst snd].
  - intros _ path. rewrite validateInmutable_eq. apply (validateInmutableValue_spec _ _ _ path) in Hr.
    destruct Hf as [->| ->]; [done|]. by destruct (fields_of v).
  - by intros ws ows j x ox -> ->.
Qed.

Lemma settled_struct f g fs ofs :
  respected f (GStruct fs) (GStruct ofs) → Forall2 settled fs ofs → settled (f, GStruct fs) (g, GStruct ofs).
Proof.
  intros Hr Hs. split; [done|]. split; cbn [fst snd]; [|done].
  intros Hv path. destruct (fields_of (GStruct ofs)) as [ofs'|] eqn:Ho.
  - eapply validateInmutable_settled; [|done|].
    + unfold fields_of. by rewrite Hv.
    + rewrite fields_of_eq in Ho. destruct (IsZero _); by simplify_eq.
  - rewrite validateInmutable_eq, Ho. apply (validateInmutableValue_spec _ _ _ path) in Hr. rewrite Hr. by destruct (fields_of (GStruct fs)).
Qed.
Lemma settled_pointer f g fs ofs :
  respected f (GPtr (GStruct fs)) (GPtr (GStruct ofs)) → Forall2 settled fs ofs →
  settled (f, GPtr (GStruct fs)) (g, GPtr (GStruct ofs)).
Proof.
  intros Hr Hs. split; [done|]. split; cbn [fst snd]; [|done].
  intros _ path. by eapply validateInmutable_settled.
Qed.

(** ** Values without tags *)
Inductive tagfree : gval → Prop :=
  | tf_str s : tagfree (GStr s)
  | tf_int z : tagfree (GInt z)
  | tf_bool b : tagfree (GBool b)
  | tf_map m : tagfree (GMap m)
  | tf_nil : tagfree GNil
  | tf_ptr v : tagfree v → tagfree (GPtr v)
  | tf_slice vs : Forall tagfree vs → tagfree (GSlice vs)
  | tf_struct fs : Forall (λ fv, fd_webhook fv.1 = "" ∧ tagfree fv.2) fs → tagfree (GStruct fs).

Lemma tagfree_fields v fs i g w : tagfree v → fields_of v = Some fs → fs !! i = Some (g, w) →
  fd_webhook g = "" ∧ tagfree w.
Proof.
  rewrite fields_of_eq. intros Hv Hfs Hi.
  assert (tagfree (GStruct fs)) as Ht.
  { destruct v as [| | | | |v| |fs']; try done; [|by destruct (IsZero _); simplify_eq].
    destruct v; try done. simplify_eq. by inversion Hv. }
  inversion Ht as [| | | | | | |? Hf]; subst. by apply (Forall_lookup_1 _ _ _ _ Hf Hi).
Qed.
Lemma tagfree_compared f v old f' v' old' :
  compared f v old f' v' old' → fd_webhook f = "" → tagfree v → fd_webhook f' = "".
Proof.
  induction 1; intros Hf Hv; [done|..]; edestruct tagfree_fields as [Hg Hw]; eauto.
  inversion Hw as [| | | | | |? Hws|]; subst. by apply IHcompared; [|eapply Forall_lookup_1].
Qed.
Lemma validateInmutable_tagfree f v old path : fd_webhook f = "" → tagfree v → validateInmutable f v old path = [].
Proof.
  intros Hf Hv. rewrite validateInmutable_nil. intros f' v' old' Hc. right.
  by rewrite (tagfree_compared _ _ _ _ _ _ Hc Hf Hv).
Qed.
Lemma settled_tagfree f v fo : fd_webhook f = "" → tagfree v → settled (f, v) fo.
Proof.
  intros Hf Hv. split; [right; cbn; by rewrite Hf|]. split; cbn [fst snd].
  - intros _ path. by apply validateInmutable_tagfree.
  - intros ws ows j x ox -> _ Hj _ _ path. inversion Hv as [| | | | | |? Hws|]; subst.
    apply validateInmutable_tagfree; [done|]. by eapply Forall_lookup_1.
Qed.

(** ** Structs that are set, and tagged fields that are respected *)
Lemma IsZero_struct f v fs : (f, v) ∈ fs → IsZero v = false → IsZero (GStruct fs) = false.
Proof.
  intros Hin Hv. destruct (IsZero (GStruct fs)) eqn:Hz; [|done]. cbn in Hz. rewrite forallb_forall in Hz.
  apply list_elem_of_In in Hin. apply Hz in Hin. cbn in Hin. congruence.
Qed.
Lemma fields_of_struct f v fs : (f, v) ∈ fs → IsZero v = false → fields_of (GStruct fs) = Some fs.
Proof. intros Hin Hv. rewrite fields_of_eq. by rewrite (IsZero_struct f v). Qed.
Lemma respected_inmutable n j v old : isUnexported n = false →
  respected (mkStructField n j inmutableTagValue) v old → v = old.
Proof. intros Hn [H'|[H' _]]; [|by apply H']. cbn in H'. congruence. Qed.
Lemma respected_inmutableinit n j v old : isUnexported n = false →
  respected (mkStructField n j inmutableInitTagValue) v old → isNilOrZero old = false → v = old.
Proof. intros Hn [H'|[_ H']] Ho; [cbn in H'; congruence|]. destruct (H' eq_refl); congruence. Qed.

(** C29: the immutability webhook accepts an update exactly when it respects every field the
    traversal gets to: whatever the shape of the spec, a field tagged [inmutable] that is compared
    has its old value, one tagged [inmutableinit] has its old value unless that was unset, and
    nothing else is refused.  The fields of a nested struct are compared only when the new struct
    and the old one are both set. *)
Theorem inmutable_update_spec name spec old :
  inmutable_ValidateUpdate name spec old = Ok tt ↔
  ∀ f v old', compared (mkStructField "Spec" "spec,omitempty" "") spec old f v old' → respected f v old'.
Proof. by rewrite inmutable_ValidateUpdate_ok, validateInmutable_nil. Qed.
