(* ===== verification/SpecValues.v ===== *)
(** * The specs of the resources as reflection shows them

    The tree of [Inmutable] of a spec: the fields of the Go struct with their json and webhook
    tags, in the order of the source.  A field that the model does not keep is not in the tree, and
    a part the model keeps as an opaque text is a leaf.  A nil and an empty slice or map, which the
    model does not tell apart, are both nil. *)

From S2P Require Import Prelude GoStrings StatefulSet Conditions MariaDBTypes Inmutable.

Local Open Scope Z_scope.

(** ** Values *)
Definition field (name json : string) (v : gval) : StructField * gval := (mkStructField name json "", v).
Definition inmutable (name json : string) (v : gval) : StructField * gval :=
  (mkStructField name json inmutableTagValue, v).
Definition inmutableinit (name json : string) (v : gval) : StructField * gval :=
  (mkStructField name json inmutableInitTagValue, v).
#[global] Arguments field _ _ _ : simpl never.
#[global] Arguments inmutable _ _ _ : simpl never.
#[global] Arguments inmutableinit _ _ _ : simpl never.
Definition pointer {A} (f : A → gval) (o : option A) : gval := match o with Some a => GPtr (f a) | None => GNil end.
Definition slice {A} (f : A → gval) (l : list A) : gval := match l with [] => GNil | _ => GSlice (f <$> l) end.
Definition strings (m : gmap string string) : gval := if decide (m = ∅) then GNil else GMap m.

(** ** Common types *)
Definition Duration_val (d : Z) : gval := GStruct [field "Duration" "-" (GInt d)].
Definition Time_val (t : Z) : gval := GStruct [field "Time" "-" (GInt t)].
Definition IntOrString_val (v : IntOrString) : gval :=
  match v with
  | IntVal i => GStruct [field "Type" "" (GInt 0); field "IntVal" "" (GInt i); field "StrVal" "" (GStr "")]
  | StrVal s => GStruct [field "Type" "" (GInt 1); field "IntVal" "" (GInt 0); field "StrVal" "" (GStr s)]
  end.
Definition LocalObjectReference_val (name : string) : gval := GStruct [field "Name" "name,omitempty" (GStr name)].
Definition ObjectReference_val (r : ObjectReference) : gval :=
  GStruct [field "Name" "name,omitempty" (GStr (or_Name r));
           field "Namespace" "namespace,omitempty" (GStr (or_Namespace r))].
Definition TypedLocalObjectReference_val (r : TypedLocalObjectReference) : gval :=
  GStruct [field "Name" "name,omitempty" (GStr (tlor_Name r)); field "Kind" "kind,omitempty" (GStr (tlor_Kind r))].
Definition SecretKeySelector_val (s : SecretKeySelector) : gval :=
  GStruct [field "LocalObjectReference" ",inline" (LocalObjectReference_val (sks_Name s));
           field "Key" "key" (GStr (sks_Key s))].
Definition GeneratedSecretKeyRef_val (r : GeneratedSecretKeyRef) : gval :=
  GStruct [field "SecretKeySelector" ",inline" (SecretKeySelector_val (gsk_selector r));
           field "Generate" "generate,omitempty" (GBool (gsk_Generate r))].
Definition Metadata_val (m : Metadata) : gval :=
  GStruct [field "Labels" "labels,omitempty" (strings (md_Labels m));
           field "Annotations" "annotations,omitempty" (strings (md_Annotations m))].

(** A map of quantities is compared by the texts of its values. *)
Definition VolumeClaimTemplate_val (v : VolumeClaimTemplateSpec) : gval :=
  GStruct [field "PersistentVolumeClaimSpec" ",inline" (GStruct
             [field "AccessModes" "accessModes,omitempty" (slice GStr (vt_AccessModes v));
              field "Resources" "resources,omitempty"
                (GStruct [field "Requests" "requests,omitempty" (strings (Itoa <$> vt_Requests v))]);
              field "StorageClassName" "storageClassName,omitempty" (pointer GStr (vt_StorageClassName v))]);
           field "Metadata" "metadata,omitempty" (pointer Metadata_val (vt_Metadata v))].
Definition LabelSelectorRequirement_val (r : LabelSelectorRequirement) : gval :=
  GStruct [field "Key" "key" (GStr (lsr_Key r)); field "Operator" "operator" (GStr (lsr_Operator r));
           field "Values" "values,omitempty" (slice GStr (lsr_Values r))].
Definition PodAffinityTerm_val (t : PodAffinityTerm) : gval :=
  GStruct [field "LabelSelector" "labelSelector,omitempty" (GPtr (GStruct
             [field "MatchExpressions" "matchExpressions,omitempty"
                (slice LabelSelectorRequirement_val (pat_MatchExpressions t))]));
           field "TopologyKey" "topologyKey" (GStr (pat_TopologyKey t))].
Definition AffinityConfig_val (a : AffinityConfig) : gval :=
  GStruct [field "Affinity" ",inline" (GStruct
             [field "PodAntiAffinity" "podAntiAffinity,omitempty" (pointer (λ terms, GStruct
                [field "RequiredDuringSchedulingIgnoredDuringExecution"
                   "requiredDuringSchedulingIgnoredDuringExecution,omitempty" (slice PodAffinityTerm_val terms)])
                (aff_PodAntiAffinity a));
              field "NodeAffinity" "nodeAffinity,omitempty" (GStr (aff_Affinity a))]);
           inmutable "AntiAffinityEnabled" "antiAffinityEnabled,omitempty" (pointer GBool (aff_AntiAffinityEnabled a))].
Definition StorageVolumeSource_val (v : StorageVolumeSource) : gval :=
  let claim := match v with PersistentVolumeClaimSource name => Some name | _ => None end in
  let emptyDir := match v with EmptyDirSource => true | _ => false end in
  let other := match v with OtherVolumeSource spec => Some spec | _ => None end in
  GStruct [field "EmptyDir" "emptyDir,omitempty" (if emptyDir then GPtr (GStruct []) else GNil);
           field "Other" "" (pointer GStr other);
           field "PersistentVolumeClaim" "persistentVolumeClaim,omitempty"
             (pointer (λ name, GStruct [field "ClaimName" "claimName" (GStr name)]) claim)].
Definition BackupStagingStorage_val (s : BackupStagingStorage) : gval :=
  GStruct [field "PersistentVolumeClaim" "persistentVolumeClaim,omitempty" (pointer GStr (bss_PersistentVolumeClaim s));
           field "Volume" "volume,omitempty" (pointer StorageVolumeSource_val (bss_Volume s))].
Definition ServiceTemplate_val (t : ServiceTemplate) : gval :=
  GStruct [field "Type" "type,omitempty" (GStr (svt_Type t));
           field "Metadata" "metadata,omitempty" (pointer Metadata_val (svt_Metadata t));
           field "LoadBalancerIP" "loadBalancerIP,omitempty" (pointer GStr (svt_LoadBalancerIP t));
           field "LoadBalancerSourceRanges" "loadBalancerSourceRanges,omitempty"
             (slice GStr (svt_LoadBalancerSourceRanges t));
           field "ExternalTrafficPolicy" "externalTrafficPolicy,omitempty" (pointer GStr (svt_ExternalTrafficPolicy t));
           field "SessionAffinity" "sessionAffinity,omitempty" (pointer GStr (svt_SessionAffinity t));
           field "AllocateLoadBalancerNodePorts" "allocateLoadBalancerNodePorts,omitempty"
             (pointer GBool (svt_AllocateLoadBalancerNodePorts t))].
Definition PodDisruptionBudget_val (p : PodDisruptionBudget) : gval :=
  GStruct [field "MinAvailable" "minAvailable,omitempty" (pointer IntOrString_val (pdb_MinAvailable p));
           field "MaxUnavailable" "maxUnavailable,omitempty" (pointer IntOrString_val (pdb_MaxUnavailable p))].
Definition ConnectionTemplate_val (c : ConnectionTemplate) : gval :=
  GStruct [field "Template" "" (GStr (ct_Template c));
           field "ServiceName" "serviceName,omitempty" (pointer GStr (ct_ServiceName c))].
Definition Exporter_val (e : Exporter) : gval :=
  GStruct [field "Image" "image,omitempty" (GStr (ex_Image e)); field "Port" "port,omitempty" (GInt (ex_Port e));
           field "Affinity" "affinity,omitempty" (pointer AffinityConfig_val (ex_Affinity e))].

(** ** The MariaDB *)
Definition Replication_val (r : Replication) : gval :=
  GStruct [field "ReplicationSpec" ",inline" (GStruct
    [field "Primary" "primary,omitempty" (pointer (λ p, GStruct
       [field "PodIndex" "podIndex,omitempty" (pointer GInt (pr_PodIndex p));
        field "AutomaticFailover" "automaticFailover,omitempty" (pointer GBool (pr_AutomaticFailover p));
        field "AutomaticFailoverDelay" "automaticFailoverDelay,omitempty"
          (pointer Duration_val (pr_AutomaticFailoverDelay p))]) (rep_Primary r));
     field "Replica" "replica,omitempty" (pointer (λ p, GStruct
       [field "WaitPoint" "waitPoint,omitempty" (pointer GStr (rr_WaitPoint p));
        field "Gtid" "gtid,omitempty" (pointer GStr (rr_Gtid p));
        field "ReplPasswordSecretKeyRef" "replPasswordSecretKeyRef,omitempty"
          (pointer GeneratedSecretKeyRef_val (rr_ReplPasswordSecretKeyRef p));
        field "ConnectionTimeout" "connectionTimeout,omitempty" (pointer Duration_val (rr_ConnectionTimeout p));
        field "ConnectionRetries" "connectionRetries,omitempty" (pointer GInt (rr_ConnectionRetries p));
        field "SyncTimeout" "syncTimeout,omitempty" (pointer Duration_val (rr_SyncTimeout p))]) (rep_Replica r));
     field "SyncBinlog" "syncBinlog,omitempty" (pointer GInt (rep_SyncBinlog r));
     field "ProbesEnabled" "probesEnabled,omitempty" (pointer GBool (rep_ProbesEnabled r))]);
    field "Enabled" "enabled,omitempty" (GBool (rep_Enabled r))].

Definition GaleraAgent_val (a : GaleraAgent) : gval :=
  GStruct [field "Image" "image,omitempty" (GStr (agent_Image a)); field "Port" "port,omitempty" (GInt (agent_Port a));
           field "ProbePort" "probePort,omitempty" (GInt (agent_ProbePort a));
           field "KubernetesAuth" "kubernetesAuth,omitempty" (pointer (λ k, GStruct
             [field "Enabled" "enabled,omitempty" (GBool (ka_Enabled k));
              field "AuthDelegatorRoleName" "authDelegatorRoleName,omitempty" (GStr (ka_AuthDelegatorRoleName k))])
             (agent_KubernetesAuth a));
           field "BasicAuth" "basicAuth,omitempty" (pointer (λ b, GStruct
             [field "Enabled" "enabled,omitempty" (GBool (ba_Enabled b));
              field "Username" "username,omitempty" (GStr (ba_Username b));
              field "PasswordSecretKeyRef" "passwordSecretKeyRef,omitempty"
                (GeneratedSecretKeyRef_val (ba_PasswordSecretKeyRef b))]) (agent_BasicAuth a));
           field "GracefulShutdownTimeout" "gracefulShutdownTimeout,omitempty"
             (pointer Duration_val (agent_GracefulShutdownTimeout a))].
Definition GaleraRecovery_val (r : GaleraRecovery) : gval :=
  GStruct [field "Enabled" "enabled" (GBool (gr_Enabled r));
           field "MinClusterSize" "minClusterSize,omitempty" (pointer IntOrString_val (gr_MinClusterSize r));
           field "ClusterMonitorInterval" "clusterMonitorInterval,omitempty"
             (pointer Duration_val (gr_ClusterMonitorInterval r));
           field "ClusterHealthyTimeout" "clusterHealthyTimeout,omitempty"
             (pointer Duration_val (gr_ClusterHealthyTimeout r));
           field "ClusterBootstrapTimeout" "clusterBootstrapTimeout,omitempty"
             (pointer Duration_val (gr_ClusterBootstrapTimeout r));
           field "ClusterUpscaleTimeout" "clusterUpscaleTimeout,omitempty"
             (pointer Duration_val (gr_ClusterUpscaleTimeout r));
           field "ClusterDownscaleTimeout" "clusterDownscaleTimeout,omitempty"
             (pointer Duration_val (gr_ClusterDownscaleTimeout r));
           field "PodRecoveryTimeout" "podRecoveryTimeout,omitempty" (pointer Duration_val (gr_PodRecoveryTimeout r));
           field "PodSyncTimeout" "podSyncTimeout,omitempty" (pointer Duration_val (gr_PodSyncTimeout r));
           field "ForceClusterBootstrapInPod" "forceClusterBootstrapInPod,omitempty"
             (pointer GStr (gr_ForceClusterBootstrapInPod r))].
Definition GaleraConfig_val (c : GaleraConfig) : gval :=
  GStruct [inmutableinit "ReuseStorageVolume" "reuseStorageVolume,omitempty" (pointer GBool (gc_ReuseStorageVolume c));
           inmutableinit "VolumeClaimTemplate" "volumeClaimTemplate,omitempty"
             (pointer VolumeClaimTemplate_val (gc_VolumeClaimTemplate c))].
Definition Galera_val (g : Galera) : gval :=
  GStruct [field "GaleraSpec" ",inline" (GStruct
    [field "Primary" "primary,omitempty" (GStruct
       [field "PodIndex" "podIndex,omitempty" (pointer GInt (pg_PodIndex (ga_Primary g)));
        field "AutomaticFailover" "automaticFailover,omitempty" (pointer GBool (pg_AutomaticFailover (ga_Primary g)))]);
     field "SST" "sst,omitempty" (GStr (ga_SST g));
     field "AvailableWhenDonor" "availableWhenDonor,omitempty" (pointer GBool (ga_AvailableWhenDonor g));
     field "GaleraLibPath" "galeraLibPath,omitempty" (GStr (ga_GaleraLibPath g));
     field "ReplicaThreads" "replicaThreads,omitempty" (GInt (ga_ReplicaThreads g));
     field "ProviderOptions" "providerOptions,omitempty" (strings (ga_ProviderOptions g));
     field "Agent" "agent,omitempty" (GaleraAgent_val (ga_Agent g));
     field "Recovery" "recovery,omitempty" (pointer GaleraRecovery_val (ga_Recovery g));
     field "InitContainer" "initContainer,omitempty" (GStruct
       [field "ContainerTemplate" ",inline" (GStr (gi_ContainerTemplate (ga_InitContainer g)));
        field "Image" "image" (GStr (gi_Image (ga_InitContainer g)));
        field "ImagePullPolicy" "imagePullPolicy,omitempty" (GStr (gi_ImagePullPolicy (ga_InitContainer g)))]);
     field "Config" "config,omitempty" (GaleraConfig_val (ga_Config g))]);
    field "Enabled" "enabled,omitempty" (GBool (ga_Enabled g))].

Definition BootstrapFrom_val (b : BootstrapFrom) : gval :=
  GStruct [inmutableinit "BackupRef" "backupRef,omitempty" (pointer TypedLocalObjectReference_val (bf_BackupRef b));
           inmutableinit "VolumeSnapshotRef" "volumeSnapshotRef,omitempty"
             (pointer LocalObjectReference_val (bf_VolumeSnapshotRef b));
           inmutableinit "BackupContentType" "backupContentType,omitempty" (GStr (bf_BackupContentType b));
           inmutableinit "S3" "s3,omitempty" (pointer GStr (bf_S3 b));
           inmutableinit "Volume" "volume,omitempty" (pointer StorageVolumeSource_val (bf_Volume b));
           inmutable "TargetRecoveryTime" "targetRecoveryTime,omitempty" (pointer Time_val (bf_TargetRecoveryTime b));
           inmutable "StagingStorage" "stagingStorage,omitempty" (pointer BackupStagingStorage_val (bf_StagingStorage b));
           field "RestoreJob" "restoreJob,omitempty" (pointer GStr (bf_RestoreJob b))].
Definition Storage_val (s : Storage) : gval :=
  GStruct [inmutableinit "Ephemeral" "ephemeral,omitempty" (pointer GBool (sto_Ephemeral s));
           field "Size" "size,omitempty" (pointer (λ q, GStruct [field "i" "" (GInt q)]) (sto_Size s));
           inmutable "StorageClassName" "storageClassName,omitempty" (GStr (sto_StorageClassName s));
           field "ResizeInUseVolumes" "resizeInUseVolumes,omitempty" (pointer GBool (sto_ResizeInUseVolumes s));
           field "WaitForVolumeResize" "waitForVolumeResize,omitempty" (pointer GBool (sto_WaitForVolumeResize s));
           field "VolumeClaimTemplate" "volumeClaimTemplate,omitempty"
             (pointer VolumeClaimTemplate_val (sto_VolumeClaimTemplate s))].
Definition MariadbMetrics_val (m : MariadbMetrics) : gval :=
  GStruct [field "Enabled" "enabled,omitempty" (GBool (mt_Enabled m));
           field "Exporter" "exporter" (Exporter_val (mt_Exporter m));
           inmutableinit "Username" "username,omitempty" (GStr (mt_Username m));
           field "PasswordSecretKeyRef" "passwordSecretKeyRef,omitempty"
             (GeneratedSecretKeyRef_val (mt_PasswordSecretKeyRef m))].
Definition TLS_val (t : TLS) : gval :=
  let ref := pointer LocalObjectReference_val in
  GStruct [field "Enabled" "enabled" (GBool (tls_Enabled t));
           field "Required" "required,omitempty" (pointer GBool (tls_Required t));
           field "ServerCASecretRef" "serverCASecretRef,omitempty" (ref (tls_ServerCASecretRef t));
           field "ServerCertSecretRef" "serverCertSecretRef,omitempty" (ref (tls_ServerCertSecretRef t));
           field "ServerCertIssuerRef" "serverCertIssuerRef,omitempty" (ref (tls_ServerCertIssuerRef t));
           field "ClientCASecretRef" "clientCASecretRef,omitempty" (ref (tls_ClientCASecretRef t));
           field "ClientCertSecretRef" "clientCertSecretRef,omitempty" (ref (tls_ClientCertSecretRef t));
           field "ClientCertIssuerRef" "clientCertIssuerRef,omitempty" (ref (tls_ClientCertIssuerRef t));
           field "GaleraSSTEnabled" "galeraSSTEnabled,omitempty" (pointer GBool (tls_GaleraSSTEnabled t))].
Definition UpdateStrategy_val (u : UpdateStrategy) : gval :=
  GStruct [field "Type" "type,omitempty" (GStr (us_Type u));
           field "RollingUpdate" "rollingUpdate,omitempty" (pointer GStr (us_RollingUpdate u));
           field "AutoUpdateDataPlane" "autoUpdateDataPlane,omitempty" (pointer GBool (us_AutoUpdateDataPlane u))].
Definition PasswordPlugin_val (p : PasswordPlugin) : gval :=
  GStruct [field "PluginNameSecretKeyRef" "pluginNameSecretKeyRef,omitempty"
             (pointer SecretKeySelector_val (pp_PluginNameSecretKeyRef p));
           field "PluginArgSecretKeyRef" "pluginArgSecretKeyRef,omitempty"
             (pointer SecretKeySelector_val (pp_PluginArgSecretKeyRef p))].

Definition PodTemplate_val (serviceAccountName : option string) (affinity : option AffinityConfig) : gval :=
  GStruct [inmutableinit "ServiceAccountName" "serviceAccountName,omitempty" (pointer GStr serviceAccountName);
           field "Affinity" "affinity,omitempty" (pointer AffinityConfig_val affinity)].
Definition SuspendTemplate_val (suspend : bool) : gval := GStruct [field "Suspend" "suspend,omitempty" (GBool suspend)].

Definition MariaDBSpec_val (s : MariaDBSpec) : gval :=
  GStruct [field "PodTemplate" ",inline" (PodTemplate_val (sp_ServiceAccountName s) (sp_Affinity s));
           field "SuspendTemplate" ",inline" (SuspendTemplate_val (sp_Suspend s));
           field "Image" "image,omitempty" (GStr (sp_Image s));
           field "InheritMetadata" "inheritMetadata,omitempty" (pointer Metadata_val (sp_InheritMetadata s));
           inmutableinit "RootPasswordSecretKeyRef" "rootPasswordSecretKeyRef,omitempty"
             (GeneratedSecretKeyRef_val (sp_RootPasswordSecretKeyRef s));
           inmutableinit "RootEmptyPassword" "rootEmptyPassword,omitempty" (pointer GBool (sp_RootEmptyPassword s));
           inmutable "Database" "database,omitempty" (pointer GStr (sp_Database s));
           inmutable "Username" "username,omitempty" (pointer GStr (sp_Username s));
           field "PasswordSecretKeyRef" "passwordSecretKeyRef,omitempty"
             (pointer GeneratedSecretKeyRef_val (sp_PasswordSecretKeyRef s));
           field "PasswordHashSecretKeyRef" "passwordHashSecretKeyRef,omitempty"
             (pointer SecretKeySelector_val (sp_PasswordHashSecretKeyRef s));
           field "PasswordPlugin" "passwordPlugin,omitempty" (pointer PasswordPlugin_val (sp_PasswordPlugin s));
           field "MyCnf" "myCnf,omitempty" (pointer GStr (sp_MyCnf s));
           field "MyCnfConfigMapKeyRef" "myCnfConfigMapKeyRef,omitempty"
             (pointer SecretKeySelector_val (sp_MyCnfConfigMapKeyRef s));
           inmutable "TimeZone" "timeZone,omitempty" (pointer GStr (sp_TimeZone s));
           field "BootstrapFrom" "bootstrapFrom,omitempty" (pointer BootstrapFrom_val (sp_BootstrapFrom s));
           field "Storage" "storage" (Storage_val (sp_Storage s));
           field "Metrics" "metrics,omitempty" (pointer MariadbMetrics_val (sp_Metrics s));
           field "TLS" "tls,omitempty" (pointer TLS_val (sp_TLS s));
           field "Replication" "replication,omitempty" (pointer Replication_val (sp_Replication s));
           field "Galera" "galera,omitempty" (pointer Galera_val (sp_Galera s));
           field "MaxScaleRef" "maxScaleRef,omitempty" (pointer ObjectReference_val (sp_MaxScaleRef s));
           field "MaxScale" "maxScale,omitempty"
             (pointer (λ enabled, GStruct [field "Enabled" "enabled,omitempty" (GBool enabled)]) (sp_MaxScale s));
           field "Replicas" "replicas,omitempty" (GInt (sp_Replicas s));
           field "Port" "port,omitempty" (GInt (sp_Port s));
           field "ServicePorts" "servicePorts,omitempty" (slice (λ p, GStruct
             [field "Name" "name" (GStr (svp_Name p)); field "Port" "port" (GInt (svp_Port p))]) (sp_ServicePorts s));
           field "PodDisruptionBudget" "podDisruptionBudget,omitempty"
             (pointer PodDisruptionBudget_val (sp_PodDisruptionBudget s));
           field "UpdateStrategy" "updateStrategy,omitempty" (UpdateStrategy_val (sp_UpdateStrategy s));
           field "Service" "service,omitempty" (pointer ServiceTemplate_val (sp_Service s));
           inmutable "Connection" "connection,omitempty" (pointer ConnectionTemplate_val (sp_Connection s));
           field "PrimaryService" "primaryService,omitempty" (pointer ServiceTemplate_val (sp_PrimaryService s));
           inmutable "PrimaryConnection" "primaryConnection,omitempty"
             (pointer ConnectionTemplate_val (sp_PrimaryConnection s));
           field "SecondaryService" "secondaryService,omitempty" (pointer ServiceTemplate_val (sp_SecondaryService s));
           inmutable "SecondaryConnection" "secondaryConnection,omitempty"
             (pointer ConnectionTemplate_val (sp_SecondaryConnection s))].

(** ** Parts without tags *)
Lemma tagfree_pointer {A} (f : A → gval) o : (∀ a, tagfree (f a)) → tagfree (pointer f o).
Proof. intros Hf. destruct o; cbn; constructor. apply Hf. Qed.
Lemma tagfree_slice {A} (f : A → gval) l : (∀ a, tagfree (f a)) → tagfree (slice f l).
Proof.
  intros Hf. destruct l as [|a l]; cbn; [constructor|]. apply tf_slice. apply Forall_cons; split; [done|].
  apply Forall_fmap, Forall_true. intros b. apply Hf.
Qed.
Lemma tagfree_strings m : tagfree (strings m).
Proof. unfold strings. destruct (decide _); constructor. Qed.

Ltac tagfree_step :=
  match goal with
  | |- tagfree (pointer _ _) => apply tagfree_pointer; intros ?
  | |- tagfree (slice _ _) => apply tagfree_slice; intros ?
  | |- tagfree (strings _) => apply tagfree_strings
  | |- tagfree (GPtr _) => apply tf_ptr
  | |- tagfree (GStruct _) => apply tf_struct
  | |- tagfree GNil => apply tf_nil
  | |- tagfree (GStr _) => apply tf_str
  | |- tagfree (GInt _) => apply tf_int
  | |- tagfree (GBool _) => apply tf_bool
  | |- tagfree (match ?x with _ => _ end) => destruct x
  | |- Forall _ [] => apply Forall_nil_2
  | |- Forall _ (_ :: _) => apply Forall_cons_2
  | |- fd_webhook _ = "" ∧ _ => split; [reflexivity|unfold field; cbn [snd]]
  | |- tagfree (?f _) => unfold f; cbv beta zeta
  end.
Ltac solve_tagfree := repeat (cbv beta zeta; tagfree_step).

Lemma Replication_val_tagfree r : tagfree (Replication_val r).
Proof. solve_tagfree. Qed.
Lemma GaleraAgent_val_tagfree a : tagfree (GaleraAgent_val a).
Proof. solve_tagfree. Qed.
Lemma GaleraRecovery_val_tagfree r : tagfree (GaleraRecovery_val r).
Proof. solve_tagfree. Qed.
Lemma VolumeClaimTemplate_val_tagfree v : tagfree (VolumeClaimTemplate_val v).
Proof. solve_tagfree. Qed.
Lemma TLS_val_tagfree t : tagfree (TLS_val t).
Proof. solve_tagfree. Qed.
Lemma UpdateStrategy_val_tagfree u : tagfree (UpdateStrategy_val u).
Proof. solve_tagfree. Qed.
Lemma SecretKeySelector_val_tagfree s : tagfree (SecretKeySelector_val s).
Proof. solve_tagfree. Qed.
Lemma GeneratedSecretKeyRef_val_tagfree r : tagfree (GeneratedSecretKeyRef_val r).
Proof. solve_tagfree. Qed.
Lemma StorageVolumeSource_val_tagfree v : tagfree (StorageVolumeSource_val v).
Proof. solve_tagfree. Qed.

(** ** Injectivity *)
Lemma pointer_inj {A} (f : A → gval) `{!Inj (=) (=) f} : Inj (=) (=) (pointer f).
Proof. intros [a|] [b|]; cbn; try done. intros [= ?%(inj f)]. congruence. Qed.
#[export] Instance pointer_GStr_inj : Inj (=) (=) (pointer GStr).
Proof. apply pointer_inj. by intros a b [= ->]. Qed.
#[export] Instance pointer_GBool_inj : Inj (=) (=) (pointer GBool).
Proof. apply pointer_inj. by intros a b [= ->]. Qed.
Lemma secret_ref_inj : Inj (=) (=) GeneratedSecretKeyRef_val.
Proof. intros [[n k] g] [[n' k'] g'] [= -> -> ->]. done. Qed.
Lemma secret_ref_set r : r ≠ SecretKeyRef_zero → isNilOrZero (GeneratedSecretKeyRef_val r) = false.
Proof.
  intros Hr. destruct (isNilOrZero _) eqn:Hz; [|done]. destruct Hr. destruct r as [[n k] g].
  unfold GeneratedSecretKeyRef_val, SecretKeySelector_val, LocalObjectReference_val, field in Hz. cbn in Hz.
  rewrite !andb_true_iff, !bool_decide_eq_true in Hz. destruct g; [by destruct Hz as (_ & ? & _)|].
  by destruct Hz as (((-> & _) & -> & _) & _).
Qed.
Lemma connection_inj : Inj (=) (=) (pointer ConnectionTemplate_val).
Proof. apply pointer_inj. intros [s t] [s' t'] [= -> ?]. f_equal. by apply (inj (pointer GStr)). Qed.
