(* ===== verification/MariaDBWebhook.v ===== *)
(** * internal/webhook: admission of the MariaDB

    The defaulting and validating webhooks of the MariaDB resource (mariadb_webhook.go, webhook.go):
    what is accepted when it is created and when it is updated. *)

From S2P Require Import Prelude GoStrings StatefulSet Datastructures Conditions MariaDBTypes GaleraConfig Inmutable SpecValues.

Local Open Scope Z_scope.

(** [field.Invalid]: the value it also prints is not part of the model. *)
Definition Invalid (path detail : string) : error := ErrNew (path +:+ ": Invalid value: " +:+ detail).

(** [PodDisruptionBudget.Validate], of api/v1alpha1/base_types.go *)
Definition PodDisruptionBudget_Validate (p : PodDisruptionBudget) : result unit :=
  if is_some (pdb_MinAvailable p) && negb (is_some (pdb_MaxUnavailable p)) then Ok tt
  else if negb (is_some (pdb_MinAvailable p)) && is_some (pdb_MaxUnavailable p) then Ok tt
  else Err (ErrNew "either minAvailable or maxUnavailable must be specified").

(** An error of a part of the spec, reported at its path. *)
Definition invalid_at (path : string) (r : result unit) : result unit :=
  match r with Ok tt => Ok tt | Err e => Err (Invalid path (Error e)) end.

(** [for _, fn := range validateFns]: the first error. *)
Fixpoint first_error (rs : list (result unit)) : result unit :=
  match rs with [] => Ok tt | r :: rs => r ≫= λ _, first_error rs end.
Definition validate_all {A} (validateFns : list (A → result unit)) (obj : A) : result unit :=
  first_error ((λ fn, fn obj) <$> validateFns).

(** ** webhook.go *)
Record tlsValidationItem := mkTlsValidationItem {
  caSecretRef : option string;
  caFieldPath : string;
  certSecretRef : option string;
  certFieldPath : string;
  certIssuerRef : option string;
  certIssuerFieldPath : string
}.
Definition validateTLSCert (item : tlsValidationItem) : result unit :=
  if is_some (certSecretRef item) && is_some (certIssuerRef item)
  then Err (Invalid "spec.tls" ("'" +:+ certFieldPath item +:+ "' and '" +:+ certIssuerFieldPath item +:+
         "' are mutually exclusive. Only one of them must be set at a time."))
  else if negb (is_some (caSecretRef item)) && is_some (certSecretRef item)
  then Err (Invalid "spec.tls" ("'" +:+ caFieldPath item +:+ "' must be set when '" +:+ certFieldPath item +:+ "' is set"))
  else Ok tt.

(** ** Defaulting *)
Definition MariaDB_Default (mariadb : MariaDB) : MariaDB :=
  match sp_Replication (m_Spec mariadb) with
  | Some r => if rep_Enabled r
              then { mariadb with m_Spec -> sp_Replication := Some (ReplicationSpec_FillWithDefaults r) } else mariadb
  | None => mariadb
  end.

(** ** Validation *)
Section validation.
Context `{ScaledValue}.

Definition validateHA (mariadb : MariaDB) : result unit :=
  if rep_Enabled (replication mariadb) && IsGaleraEnabled mariadb
  then Err (ErrNew "you may only enable one HA method at a time, either 'spec.replication' or 'spec.galera'")
  else if negb (IsHAEnabled mariadb) && bool_decide (1 < sp_Replicas (m_Spec mariadb))
  then Err (Invalid "spec.replicas"
              "Multiple replicas can only be specified when 'spec.replication' or 'spec.galera' are configured")
  else if IsHAEnabled mariadb && bool_decide (sp_Replicas (m_Spec mariadb) ≤ 1)
  then Err (Invalid "spec.replicas"
              "Multiple replicas must be specified when 'spec.replication' or 'spec.galera' are configured")
  else Ok tt.

Definition validateMaxScale (mariadb : MariaDB) : result unit :=
  if is_some (sp_MaxScaleRef (m_Spec mariadb)) && is_some (sp_MaxScale (m_Spec mariadb))
  then Err (Invalid "spec.maxScaleRef" "'spec.maxScaleRef' and 'spec.maxScale' cannot be specified simultaneously")
  else Ok tt.

Definition out_of_replicas (mariadb : MariaDB) (podIndex : Z) : bool :=
  bool_decide (podIndex < 0) || bool_decide (sp_Replicas (m_Spec mariadb) ≤ podIndex).

Definition validateGalera (mariadb : MariaDB) : result unit :=
  let galera := default Galera_zero (sp_Galera (m_Spec mariadb)) in
  if negb (ga_Enabled galera) then Ok tt else
  if (match pg_PodIndex (ga_Primary galera) with Some i => out_of_replicas mariadb i | None => false end)
  then Err (Invalid "spec.galera.primary.podIndex" "'spec.galera.primary.podIndex' out of 'spec.replicas' bounds") else
  (if bool_decide (ga_SST galera = "") then Ok tt
   else invalid_at "spec.galera.sst" (SST_Validate (ga_SST galera))) ≫= λ _,
  if bool_decide (ga_ReplicaThreads galera < 0)
  then Err (Invalid "spec.galera.replicaThreads" "'spec.galera.replicaThreads' must be at least 1") else
  if is_some (ga_ProviderOptions galera !! WsrepOptISTRecvAddr)
  then Err (Invalid "spec.galera.providerOptions" "'spec.galera.providerOptions' cannot contain: ist.recv_addr") else
  invalid_at "spec.galera.agent" (GaleraAgent_Validate (ga_Agent galera)) ≫= λ _,
  match ga_Recovery galera with
  | None => Ok tt
  | Some recovery => invalid_at "spec.galera.recovery" (GaleraRecovery_Validate recovery mariadb)
  end.

Definition validateReplication (mariadb : MariaDB) : result unit :=
  if negb (rep_Enabled (replication mariadb)) then Ok tt else
  if out_of_replicas mariadb (primary_PodIndex mariadb)
  then Err (Invalid "spec.replication.primary.podIndex"
              "'spec.replication.primary.podIndex' out of 'spec.replicas' bounds") else
  invalid_at "spec.replication.replica" (ReplicaReplication_Validate (replica mariadb)).

Definition validateBootstrapFrom (mariadb : MariaDB) : result unit :=
  match sp_BootstrapFrom (m_Spec mariadb) with
  | None => Ok tt
  | Some b => invalid_at "spec.bootstrapFrom" (BootstrapFrom_Validate b)
  end.

Definition validatePodDisruptionBudget (mariadb : MariaDB) : result unit :=
  match sp_PodDisruptionBudget (m_Spec mariadb) with
  | None => Ok tt
  | Some p => invalid_at "spec.podDisruptionBudget" (PodDisruptionBudget_Validate p)
  end.

Definition validateStorage (mariadb : MariaDB) : result unit :=
  invalid_at "spec.storage" (Storage_Validate (sp_Storage (m_Spec mariadb)) mariadb).

Definition validateUpdateStorage (mariadb old : MariaDB) : result unit :=
  validateStorage mariadb ≫= λ _,
  match GetSize (sp_Storage (m_Spec mariadb)), GetSize (sp_Storage (m_Spec old)) with
  | Some currentSize, Some oldSize =>
      if bool_decide (currentSize < oldSize) then Err (Invalid "spec.storage" "Storage size cannot be decreased")
      else Ok tt
  | _, _ => Ok tt
  end.

Definition validateRootPassword (mariadb : MariaDB) : result unit :=
  if IsRootPasswordEmpty mariadb && IsRootPasswordDefined mariadb
  then Err (Invalid "spec.rootEmptyPassword"
              "'spec.rootEmptyPassword' must be disabled when 'spec.rootPasswordSecretKeyRef' is specified")
  else Ok tt.

Definition validateTLS (mariadb : MariaDB) : result unit :=
  let tls := default TLS_zero (sp_TLS (m_Spec mariadb)) in
  if negb (tls_Enabled tls) then Ok tt else
  first_error (validateTLSCert <$>
    [mkTlsValidationItem (tls_ServerCASecretRef tls) "spec.tls.serverCASecretRef"
       (tls_ServerCertSecretRef tls) "spec.tls.serverCertSecretRef"
       (tls_ServerCertIssuerRef tls) "spec.tls.serverCertIssuerRef";
     mkTlsValidationItem (tls_ClientCASecretRef tls) "spec.tls.clientCASecretRef"
       (tls_ClientCertSecretRef tls) "spec.tls.clientCertSecretRef"
       (tls_ClientCertIssuerRef tls) "spec.tls.clientCertIssuerRef"]).

(** The fields it reads of the replication are filled with defaults, so never nil. *)
Definition primary_AutomaticFailover (mariadb : MariaDB) : bool :=
  default false (pr_AutomaticFailover (primary mariadb)).

Context `{StatusConditions}.

Definition validatePrimarySwitchover (mariadb old : MariaDB) : result unit :=
  if rep_Enabled (replication old) && IsSwitchingPrimary old then
    if negb (bool_decide (primary_PodIndex old = primary_PodIndex mariadb))
    then Err (Invalid "spec.replication.primary.podIndex"
                "'spec.replication.primary.podIndex' cannot be updated during a primary switchover")
    else if negb (Bool.eqb (primary_AutomaticFailover old) (primary_AutomaticFailover mariadb)) &&
            primary_AutomaticFailover mariadb
    then Err (Invalid "spec.replication.primary.automaticFailover"
                "'spec.replication.primary.automaticFailover' cannot be enabled during a primary switchover")
    else Ok tt
  else Ok tt.

Definition MariaDB_ValidateCreate (mariadb : MariaDB) : result unit :=
  validate_all [validateHA; validateGalera; validateReplication; validateBootstrapFrom; validatePodDisruptionBudget;
                validateStorage; validateRootPassword; validateMaxScale; validateTLS] mariadb.

Definition MariaDB_ValidateUpdate (old mariadb : MariaDB) : result unit :=
  inmutable_ValidateUpdate (Name (m_meta mariadb)) (MariaDBSpec_val (m_Spec mariadb)) (MariaDBSpec_val (m_Spec old))
    ≫= λ _,
  validate_all [validateHA; validateGalera; validateReplication; validateBootstrapFrom; validatePodDisruptionBudget;
                validateStorage; validateRootPassword; validateTLS] mariadb ≫= λ _,
  validatePrimarySwitchover mariadb old ≫= λ _,
  validateUpdateStorage mariadb old.
End validation.
