(* ===== verification/MariaDBWebhookSafety.v ===== *)
(** * What the admission of the MariaDB guarantees

    The MariaDBs that an accepted creation and accepted updates lead to, and whether the operator's
    own updates are accepted. *)

From S2P Require Import Prelude GoStrings StatefulSet Datastructures Conditions MariaDBTypes GaleraConfig.
From S2P Require Import Inmutable SpecValues MariaDBWebhook.

Local Open Scope Z_scope.

(** ** Accepted objects *)
Lemma first_error_Ok rs : first_error rs = Ok tt ↔ Forall (λ r, r = Ok tt) rs.
Proof.
  induction rs as [|[[]|e] rs IH]; cbn; [done| |].
  - rewrite IH, Forall_cons. naive_solver.
  - rewrite Forall_cons. naive_solver.
Qed.
Lemma validate_all_Ok {A} (fns : list (A → result unit)) obj :
  validate_all fns obj = Ok tt ↔ Forall (λ fn, fn obj = Ok tt) fns.
Proof. unfold validate_all. by rewrite first_error_Ok, Forall_fmap. Qed.
Lemma invalid_at_Ok path r : invalid_at path r = Ok tt ↔ r = Ok tt.
Proof. by destruct r as [[]|]. Qed.

(** A guard that returns an error, and a check that is followed by others. *)
Lemma guard_Ok (b : bool) e r : (if b then Err e else r) = Ok tt ↔ b = false ∧ r = Ok tt.
Proof. destruct b; naive_solver. Qed.
Lemma check_Ok (r k : result unit) : r ≫= (λ _, k) = Ok tt ↔ r = Ok tt ∧ k = Ok tt.
Proof. destruct r as [[]|]; cbn; naive_solver. Qed.

Lemma and_iff_compat (A A' B B' : Prop) : (A ↔ A') → (B ↔ B') → A ∧ B ↔ A' ∧ B'.
Proof. tauto. Qed.

Section admission.
Context `{ScaledValue} `{StatusConditions}.

(** The part of the validation that reads one object, at its creation and at each update. *)
Record valid (m : MariaDB) : Prop := {
  valid_HA : validateHA m = Ok tt;
  valid_Galera : validateGalera m = Ok tt;
  valid_Replication : validateReplication m = Ok tt;
  valid_BootstrapFrom : validateBootstrapFrom m = Ok tt;
  valid_PDB : validatePodDisruptionBudget m = Ok tt;
  valid_Storage : validateStorage m = Ok tt;
  valid_RootPassword : validateRootPassword m = Ok tt;
  valid_TLS : validateTLS m = Ok tt
}.

Lemma ValidateCreate_valid m : MariaDB_ValidateCreate m = Ok tt ↔ valid m ∧ validateMaxScale m = Ok tt.
Proof.
  unfold MariaDB_ValidateCreate. rewrite validate_all_Ok, !Forall_cons, Forall_nil. split.
  - intros (?&?&?&?&?&?&?&?&?&_). by repeat split.
  - intros [[] ?]. by repeat split.
Qed.
Lemma ValidateUpdate_valid old m :
  MariaDB_ValidateUpdate old m = Ok tt ↔
  validateInmutable (mkStructField "Spec" "spec,omitempty" "") (MariaDBSpec_val (m_Spec m))
    (MariaDBSpec_val (m_Spec old)) ["spec"] = [] ∧
  valid m ∧ validatePrimarySwitchover m old = Ok tt ∧ validateUpdateStorage m old = Ok tt.
Proof.
  unfold MariaDB_ValidateUpdate. rewrite <-inmutable_ValidateUpdate_ok with (name := Name (m_meta m)).
  split.
  - intros ([] & Hi & ([] & Hv & ([] & Hs & Hu)%result_bind_Ok)%result_bind_Ok)%result_bind_Ok.
    apply validate_all_Ok in Hv. rewrite !Forall_cons, Forall_nil in Hv.
    destruct Hv as (?&?&?&?&?&?&?&?&_). by repeat split.
  - intros (-> & Hv & Hs & Hu). cbn -[validate_all].
    assert (validate_all [validateHA; validateGalera; validateReplication; validateBootstrapFrom;
      validatePodDisruptionBudget; validateStorage; validateRootPassword; validateTLS] m = Ok tt) as ->.
    { apply validate_all_Ok. destruct Hv. by repeat constructor. }
    cbn. by rewrite Hs.
Qed.

(** What a valid MariaDB satisfies. *)
Record well_formed (m : MariaDB) : Prop := {
  (** one method of high availability, with more than one replica; otherwise at most one *)
  wf_one_HA : rep_Enabled (replication m) = true → IsGaleraEnabled m = false;
  wf_replicas : IsHAEnabled m = true ↔ 1 < sp_Replicas (m_Spec m);
  (** the primary is one of the replicas *)
  wf_replication_primary : rep_Enabled (replication m) = true → 0 ≤ primary_PodIndex m < sp_Replicas (m_Spec m);
  wf_galera_primary g i : sp_Galera (m_Spec m) = Some g → ga_Enabled g = true → pg_PodIndex (ga_Primary g) = Some i →
    0 ≤ i < sp_Replicas (m_Spec m);
  (** one authentication method of the agent, which Galera nodes cannot be told to listen elsewhere *)
  wf_agent g : sp_Galera (m_Spec m) = Some g → ga_Enabled g = true →
    ga_ProviderOptions g !! WsrepOptISTRecvAddr = None ∧
    ¬ (ka_Enabled (default KubernetesAuth_zero (agent_KubernetesAuth (ga_Agent g))) = true ∧
       ba_Enabled (default BasicAuth_zero (agent_BasicAuth (ga_Agent g))) = true);
  (** a volume of its own, of some size, unless it is ephemeral and alone *)
  wf_storage : IsEphemeralStorageEnabled m = false →
    sto_Size (sp_Storage (m_Spec m)) ≠ Some 0 ∧
    (sto_Size (sp_Storage (m_Spec m)) ≠ None ∨ sto_VolumeClaimTemplate (sp_Storage (m_Spec m)) ≠ None);
  wf_ephemeral : IsEphemeralStorageEnabled m = true → IsHAEnabled m = false;
  (** a certificate comes with its CA, or from an issuer *)
  wf_certs : IsTLSEnabled m = true → ∀ tls, sp_TLS (m_Spec m) = Some tls →
    tls_ServerCertSecretRef tls ≠ None → tls_ServerCertIssuerRef tls = None ∧ tls_ServerCASecretRef tls ≠ None;
  wf_password : IsRootPasswordEmpty m = true → IsRootPasswordDefined m = false
}.

Lemma validateHA_Ok m : validateHA m = Ok tt →
  (rep_Enabled (replication m) = true → IsGaleraEnabled m = false) ∧
  (IsHAEnabled m = true ↔ 1 < sp_Replicas (m_Spec m)).
Proof.
  unfold validateHA, IsHAEnabled. destruct (rep_Enabled _), (IsGaleraEnabled m); cbn; try done;
    repeat case_bool_decide; intros Hok; try done; split; try done; split; try done; lia.
Qed.
Lemma out_of_replicas_false m i : out_of_replicas m i = false ↔ 0 ≤ i < sp_Replicas (m_Spec m).
Proof. unfold out_of_replicas. rewrite orb_false_iff, !bool_decide_eq_false. lia. Qed.

Lemma validateGalera_Ok m g : sp_Galera (m_Spec m) = Some g → ga_Enabled g = true →
  validateGalera m = Ok tt ↔
  (∀ i, pg_PodIndex (ga_Primary g) = Some i → 0 ≤ i < sp_Replicas (m_Spec m)) ∧
  (ga_SST g ≠ "" → SST_Validate (ga_SST g) = Ok tt) ∧ 0 ≤ ga_ReplicaThreads g ∧
  ga_ProviderOptions g !! WsrepOptISTRecvAddr = None ∧ GaleraAgent_Validate (ga_Agent g) = Ok tt ∧
  (∀ r, ga_Recovery g = Some r → GaleraRecovery_Validate r m = Ok tt).
Proof.
  intros Hg He. unfold validateGalera. rewrite Hg. cbn. rewrite He. cbn.
  rewrite guard_Ok, check_Ok, !guard_Ok, check_Ok, invalid_at_Ok, bool_decide_eq_false.
  apply and_iff_compat; [|apply and_iff_compat; [|repeat apply and_iff_compat]].
  - destruct (pg_PodIndex _) as [i|]; [|naive_solver]. rewrite out_of_replicas_false. naive_solver.
  - case_bool_decide; [naive_solver|]. rewrite invalid_at_Ok. naive_solver.
  - lia.
  - destruct (_ !! _); naive_solver.
  - done.
  - destruct (ga_Recovery g); [rewrite invalid_at_Ok|]; naive_solver.
Qed.

Lemma validateTLSCert_Ok item : validateTLSCert item = Ok tt →
  certSecretRef item ≠ None → certIssuerRef item = None ∧ caSecretRef item ≠ None.
Proof. unfold validateTLSCert. by destruct (certSecretRef item), (certIssuerRef item), (caSecretRef item). Qed.

Lemma valid_well_formed m : valid m → well_formed m.
Proof.
  intros [Hha Hga Hrep _ _ Hsto Hpw Htls]. apply validateHA_Ok in Hha as [Hone Hreps].
  apply invalid_at_Ok in Hsto. unfold Storage_Validate in Hsto. split.
  - done.
  - done.
  - intros He. unfold validateReplication in Hrep. rewrite He in Hrep. cbn in Hrep.
    apply guard_Ok in Hrep as [Hr _]. by apply out_of_replicas_false.
  - intros g i Hg He. apply (validateGalera_Ok m g Hg He) in Hga as [Hi _]. apply Hi.
  - intros g Hg He. apply (validateGalera_Ok m g Hg He) in Hga as (_ & _ & _ & Hopt & Hag & _). split; [done|].
    unfold GaleraAgent_Validate in Hag. intros [Hk Hb]. by rewrite Hk, Hb in Hag.
  - unfold IsEphemeralStorageEnabled. intros He. rewrite He in Hsto. cbn in Hsto.
    destruct (sto_Size _) as [size|], (sto_VolumeClaimTemplate _); try done; cbn in Hsto; try case_bool_decide; naive_solver.
  - unfold IsEphemeralStorageEnabled. intros He. rewrite He in Hsto. cbn in Hsto. by destruct (IsHAEnabled m).
  - intros He tls Htl. unfold IsTLSEnabled in He. unfold validateTLS in Htls. rewrite Htl in He, Htls.
    cbn -[validateTLSCert] in He, Htls. rewrite He in Htls. cbn -[validateTLSCert] in Htls. apply check_Ok in Htls as [Hs _].
    by apply (validateTLSCert_Ok _ Hs).
  - intros He. unfold validateRootPassword in Hpw. rewrite He in Hpw. by destruct (IsRootPasswordDefined m).
Qed.

(** ** Fields that stay *)
(** A valid storage is set. *)
Lemma valid_storage_set m : validateStorage m = Ok tt → IsZero (Storage_val (sp_Storage (m_Spec m))) = false.
Proof.
  intros Hs%invalid_at_Ok. unfold Storage_Validate in Hs. destruct (sto_Ephemeral (sp_Storage (m_Spec m))) eqn:He.
  { eapply IsZero_struct; [apply list_elem_of_here|]. by rewrite He. }
  cbn in Hs. unfold Storage_val, field, inmutable, inmutableinit. rewrite He. cbn. destruct (sto_Size _); [done|]. destruct (sto_VolumeClaimTemplate _); [|done].
  cbn. by rewrite !andb_false_r.
Qed.
Lemma storage_fields s : IsZero (Storage_val s) = false →
  ∃ fs, Storage_val s = GStruct fs ∧ fields_of (Storage_val s) = Some fs.
Proof. intros Hz. eexists. split; [done|]. by rewrite fields_of_eq, Hz. Qed.
Lemma valid_spec_fields m : validateStorage m = Ok tt →
  ∃ fs, MariaDBSpec_val (m_Spec m) = GStruct fs ∧ fields_of (MariaDBSpec_val (m_Spec m)) = Some fs.
Proof.
  intros Hs%valid_storage_set. eexists. split; [done|]. eapply fields_of_struct; [|exact Hs].
  do 15 apply list_elem_of_further. apply list_elem_of_here.
Qed.

(** What an accepted update leaves alone. *)
Record kept (old m : MariaDB) : Prop := {
  kept_storage_class : sto_StorageClassName (sp_Storage (m_Spec m)) = sto_StorageClassName (sp_Storage (m_Spec old));
  kept_database : sp_Database (m_Spec m) = sp_Database (m_Spec old);
  kept_username : sp_Username (m_Spec m) = sp_Username (m_Spec old);
  kept_timezone : sp_TimeZone (m_Spec m) = sp_TimeZone (m_Spec old);
  kept_connections : sp_Connection (m_Spec m) = sp_Connection (m_Spec old) ∧
    sp_PrimaryConnection (m_Spec m) = sp_PrimaryConnection (m_Spec old) ∧
    sp_SecondaryConnection (m_Spec m) = sp_SecondaryConnection (m_Spec old);
  (** once set *)
  kept_ephemeral e : sto_Ephemeral (sp_Storage (m_Spec old)) = Some e → sto_Ephemeral (sp_Storage (m_Spec m)) = Some e;
  kept_empty_password e : sp_RootEmptyPassword (m_Spec old) = Some e → sp_RootEmptyPassword (m_Spec m) = Some e;
  kept_root_password : IsRootPasswordDefined old = true →
    sp_RootPasswordSecretKeyRef (m_Spec m) = sp_RootPasswordSecretKeyRef (m_Spec old)
}.
Lemma kept_refl m : kept m m.
Proof. by split. Qed.
Lemma kept_trans m1 m2 m3 : kept m1 m2 → kept m2 m3 → kept m1 m3.
Proof.
  intros [] []. split; try (by etrans); [naive_solver congruence|auto|auto|].
  intros Hd. rewrite kept_root_password1; [auto|]. unfold IsRootPasswordDefined. by rewrite kept_root_password0.
Qed.

Lemma update_keeps old m :
  validateStorage old = Ok tt → MariaDB_ValidateUpdate old m = Ok tt → kept old m.
Proof.
  intros Hold (Hi & Hv & _)%ValidateUpdate_valid.
  pose proof (valid_storage_set _ (valid_Storage _ Hv)) as Hz. pose proof (valid_storage_set _ Hold) as Hz'.
  destruct (valid_spec_fields _ (valid_Storage _ Hv)) as (fs & Efs & Hfs).
  destruct (valid_spec_fields _ Hold) as (ofs & Eofs & Hofs).
  rewrite (validateInmutable_fields _ _ _ _ fs ofs Hfs Hofs) in Hi. injection Efs as <-. injection Eofs as <-.
  (* the storage *)
  destruct (Hi 15%nat _ _ _ _ eq_refl eq_refl) as (_ & Hsto & _). cbn [fst snd] in Hsto.
  assert (isValidStruct (Storage_val (sp_Storage (m_Spec m))) = true) as Hvs.
  { unfold isValidStruct, isNilOrZero. by rewrite Hz. }
  specialize (Hsto Hvs).
  destruct (storage_fields _ Hz) as (fs & Efs & Hfst), (storage_fields _ Hz') as (ofs & Eofs & Hofst).
  rewrite (validateInmutable_fields _ _ _ _ fs ofs Hfst Hofst) in Hsto. injection Efs as <-. injection Eofs as <-.
  split.
  - destruct (Hsto 2%nat _ _ _ _ eq_refl eq_refl) as (Hr & _). apply respected_inmutable in Hr; [|done]. congruence.
  - destruct (Hi 6%nat _ _ _ _ eq_refl eq_refl) as (Hr & _). apply respected_inmutable in Hr; [|done]. by simplify_eq.
  - destruct (Hi 7%nat _ _ _ _ eq_refl eq_refl) as (Hr & _). apply respected_inmutable in Hr; [|done]. by simplify_eq.
  - destruct (Hi 13%nat _ _ _ _ eq_refl eq_refl) as (Hr & _). apply respected_inmutable in Hr; [|done]. by simplify_eq.
  - destruct (Hi 28%nat _ _ _ _ eq_refl eq_refl) as (Hr1 & _), (Hi 30%nat _ _ _ _ eq_refl eq_refl) as (Hr2 & _),
      (Hi 32%nat _ _ _ _ eq_refl eq_refl) as (Hr3 & _).
    apply respected_inmutable in Hr1, Hr2, Hr3; [|done..]. split_and!; by apply connection_inj.
  - intros e He. destruct (Hsto 0%nat _ _ _ _ eq_refl eq_refl) as (Hr & _).
    apply respected_inmutableinit in Hr; [|done|by rewrite He]. apply (inj _) in Hr. congruence.
  - intros e He. destruct (Hi 5%nat _ _ _ _ eq_refl eq_refl) as (Hr & _).
    apply respected_inmutableinit in Hr; [|done|by rewrite He]. apply (inj _) in Hr. congruence.
  - intros Hd. destruct (Hi 4%nat _ _ _ _ eq_refl eq_refl) as (Hr & _). apply secret_ref_inj.
    eapply respected_inmutableinit; [|exact Hr|]; [done|]. unfold IsRootPasswordDefined in Hd.
    by apply negb_true_iff, bool_decide_eq_false, secret_ref_set in Hd.
Qed.

(** ** Histories: the updates of the spec that the webhook accepts, and any update of the status *)
Inductive admission_step : MariaDB → MariaDB → Prop :=
  | spec_updated old m : MariaDB_ValidateUpdate old m = Ok tt → admission_step old m
  | status_updated m st : admission_step m { m with m_Status := st }.

Lemma admission_history m0 m : valid m0 → rtc admission_step m0 m → valid m ∧ kept m0 m.
Proof.
  intros Hv Hs. revert Hv. induction Hs as [m|m0 m1 m Hstep _ IH]; intros Hv; [split; [done|apply kept_refl]|].
  assert (valid m1 ∧ kept m0 m1) as [Hv1 Hk1].
  { destruct Hstep as [old m' Hu|m' st].
    - split; [by apply ValidateUpdate_valid in Hu as (_ & ? & _)|]. apply update_keeps; [apply Hv|done].
    - split; [by destruct Hv; split|by split]. }
  destruct (IH Hv1) as [? Hk]. split; [done|]. by eapply kept_trans.
Qed.

(** C8: whatever updates of the spec the webhook accepts after it accepted the creation, and
    whatever the operator writes in the status, the MariaDB is well formed (one method of high
    availability with enough replicas, a primary among them, one authentication of the agent,
    storage that is there unless it is ephemeral and alone) and still has the storage class, the
    initial database and user, the time zone and the connections it was created with, and the
    ephemeral storage and root password once they are set. *)
Theorem admitted_mariadb m0 m :
  MariaDB_ValidateCreate m0 = Ok tt → rtc admission_step m0 m → well_formed m ∧ kept m0 m.
Proof.
  intros [Hv _]%ValidateCreate_valid Hs. destruct (admission_history m0 m Hv Hs) as [Hm Hk].
  split; [by apply valid_well_formed|done].
Qed.

(** ** During a switchover *)
Lemma switchover_update old m :
  rep_Enabled (replication old) = true → IsSwitchingPrimary old = true →
  MariaDB_ValidateUpdate old m = Ok tt →
  primary_PodIndex m = primary_PodIndex old ∧
  (primary_AutomaticFailover m = true → primary_AutomaticFailover old = true).
Proof.
  intros He Hsw (_ & _ & Hp & _)%ValidateUpdate_valid. unfold validatePrimarySwitchover in Hp. rewrite He, Hsw in Hp.
  cbn in Hp. apply guard_Ok in Hp as [Hi Hp]. apply guard_Ok in Hp as [Ha _].
  apply negb_false_iff, bool_decide_eq_true in Hi. split; [done|]. intros Hm. rewrite Hm in Ha.
  by destruct (primary_AutomaticFailover old).
Qed.

(** While the status says that the primary is being switched, no sequence of accepted updates
    that keep the replication enabled moves the primary that the spec asks for, nor enables the
    automatic failover. *)
Theorem switchover_freezes_primary m0 m :
  rep_Enabled (replication m0) = true → IsSwitchingPrimary m0 = true →
  rtc (λ old m, MariaDB_ValidateUpdate old m = Ok tt ∧ m_Status m = m_Status old ∧ rep_Enabled (replication m) = true) m0 m →
  primary_PodIndex m = primary_PodIndex m0 ∧
  (primary_AutomaticFailover m = true → primary_AutomaticFailover m0 = true).
Proof.
  intros He Hsw Hs. revert He Hsw. induction Hs as [m|m0 m1 m (Hu & Hst & He1) _ IH]; intros He Hsw; [done|].
  destruct (switchover_update _ _ He Hsw Hu) as [Hi Ha]. destruct IH as [Hi' Ha'].
  - done.
  - unfold IsSwitchingPrimary. by rewrite Hst.
  - split; [congruence|auto].
Qed.
End admission.

(** ** Examples *)
Definition replicated : MariaDB :=
  { MariaDB_zero (mkObjectMeta "mariadb" "default" "" ∅ ∅) with
    m_Spec -> sp_Replicas := 3;
    m_Spec -> sp_Replication := Some { Replication_zero with rep_Enabled := true };
    m_Spec -> sp_Storage := { Storage_zero with sto_Size := Some 10; sto_StorageClassName := "fast" } }.
Definition moved (i : Z) (m : MariaDB) : MariaDB :=
  { m with m_Spec -> sp_Replication := Some { Replication_zero with rep_Enabled := true;
      rep_Primary := Some (mkPrimaryReplication (Some i) None None) } }.

(** The primary is moved by hand, and the volumes are made larger. *)
Lemma admitted_mariadb_witness :
  let m := { moved 2 replicated with m_Spec -> sp_Storage := { Storage_zero with sto_Size := Some 20; sto_StorageClassName := "fast" } } in
  well_formed m ∧ kept replicated m.
Proof.
  cbn zeta. apply admitted_mariadb; [by vm_compute|].
  eapply rtc_l; [apply (spec_updated replicated (moved 2 replicated)); by vm_compute|].
  apply rtc_once. apply spec_updated. by vm_compute.
Defined.

Definition switching : MariaDB :=
  { replicated with m_Status -> st_CurrentPrimaryPodIndex := Some 0;
    m_Status -> st_Conditions := [mkCondition ConditionTypePrimarySwitched ConditionFalse ConditionReasonSwitchPrimary ""] }.
Lemma switchover_freezes_primary_witness :
  let m := { switching with m_Spec -> sp_Image := "mariadb:11.8" } in
  primary_PodIndex m = 0 ∧ (primary_AutomaticFailover m = true → primary_AutomaticFailover switching = true).
Proof.
  apply (switchover_freezes_primary switching); [by vm_compute..|]. apply rtc_once. by vm_compute.
Defined.

(** The updates that are refused: a larger class of storage, a primary that is not there, a
    smaller volume, and another primary during a switchover. *)
Example refused_updates :
  let update f := MariaDB_ValidateUpdate replicated (f replicated) in
  update (λ m, { m with m_Spec -> sp_Storage := { sp_Storage (m_Spec m) with sto_StorageClassName := "slow" } }) =
    Err (ErrNew "mariadb is invalid: 'spec.storage.storageClassName' field is inmutable") ∧
  update (moved 3) = Err (Invalid "spec.replication.primary.podIndex"
                            "'spec.replication.primary.podIndex' out of 'spec.replicas' bounds") ∧
  update (λ m, { m with m_Spec -> sp_Storage := { sp_Storage (m_Spec m) with sto_Size := Some 5 } }) =
    Err (Invalid "spec.storage" "Storage size cannot be decreased") ∧
  MariaDB_ValidateUpdate switching (moved 1 switching) =
    Err (Invalid "spec.replication.primary.podIndex"
           "'spec.replication.primary.podIndex' cannot be updated during a primary switchover").
Proof. by vm_compute. Qed.

(** The check of the size sees one update at a time: through a template without a request, the size
    of the volumes decreases in two accepted updates.  The same goes for a tagged field of a part
    that is removed and added again. *)
Example size_decreased_in_two_updates :
  let sized n m := { m with m_Spec -> sp_Storage := { Storage_zero with sto_Size := n; sto_StorageClassName := "fast";
                       sto_VolumeClaimTemplate := Some VolumeClaimTemplateSpec_zero } } in
  MariaDB_ValidateUpdate replicated (sized None replicated) = Ok tt ∧
  MariaDB_ValidateUpdate (sized None replicated) (sized (Some 5) replicated) = Ok tt.
Proof. by vm_compute. Qed.
