(* ===== verification/WebhookDefaults.v ===== *)
(** * The operator's own update of the spec passes the webhook

    The first phase of the reconciliation of a MariaDB sets the defaults of the spec and patches
    the object, and the webhook validates that patch like any other update.  Here: the parts of the
    spec, which their defaults leave as the webhook has seen them, up to what a field tagged
    inmutableinit allows.  WebhookPatch.v puts them together. *)

From S2P Require Import Prelude GoStrings StatefulSet Datastructures Conditions MariaDBTypes GaleraConfig.
From S2P Require Import StorageResize MariaDBDefaults Inmutable SpecValues MariaDBWebhook MariaDBWebhookSafety.

Local Open Scope Z_scope.

(** ** The parts of the spec *)
Lemma settled_init_unset n j v o : isNilOrZero o = true → fields_of o = None → no_slice v || no_slice o = true →
  settled (inmutableinit n j v) (inmutableinit n j o).
Proof. intros Ho Hf Hn. apply settled_leaf; [apply respected_init; auto|auto|done]. Qed.
Lemma settled_init_pointer {A} n j (f : A → gval) o d :
  settled (inmutableinit n j (pointer f (or_default o d))) (inmutableinit n j (pointer f o)).
Proof. destruct o; [apply settled_same|]. cbn [or_default]. by apply settled_init_unset; [| |rewrite orb_true_r]. Qed.
Lemma settled_field n j v o : tagfree v → settled (field n j v) (field n j o).
Proof. intros Hv. by apply settled_tagfree. Qed.

Ltac settle := repeat first [apply Forall2_nil_2 | apply Forall2_cons_2; [first [apply settled_same|idtac]|]].

Lemma Affinity_settled n j o l :
  settled (field n j (pointer AffinityConfig_val ((λ a, AffinityConfig_SetDefaults a l) <$> o)))
    (field n j (pointer AffinityConfig_val o)).
Proof.
  destruct o as [a|]; [|apply settled_same]. cbn.
  assert (aff_AntiAffinityEnabled (AffinityConfig_SetDefaults a l) = aff_AntiAffinityEnabled a) as E.
  { unfold AffinityConfig_SetDefaults. by destruct (_ && _). }
  apply settled_pointer; [apply respected_untagged|]. rewrite E. settle. apply settled_field. solve_tagfree.
Qed.

Lemma GaleraConfig_settled n j c :
  settled (field n j (GaleraConfig_val (GaleraConfig_SetDefaults c))) (field n j (GaleraConfig_val c)).
Proof.
  apply settled_struct; [apply respected_untagged|]. destruct c as [[[]|] [v|]]; cbn; settle; by apply settled_init_unset.
Qed.

Lemma Storage_settled n j s :
  settled (field n j (Storage_val (Storage_SetDefaults s))) (field n j (Storage_val s)).
Proof.
  apply settled_struct; [apply respected_untagged|].
  rewrite Storage_SetDefaults_eq. cbn. apply Forall2_cons_2.
  { destruct (sto_Ephemeral s); [apply settled_same|]. by apply settled_init_unset. }
  settle; apply settled_field; solve_tagfree.
Qed.

Lemma Metrics_settled n j (m : MariaDB) env o :
  settled (field n j (pointer MariadbMetrics_val (default_metrics m env <$> o))) (field n j (pointer MariadbMetrics_val o)).
Proof.
  destruct o as [[[] ex u p]|]; [|apply settled_same..]. cbn -[AffinityConfig_SetDefaults].
  apply settled_pointer; [apply respected_untagged|]. cbn -[AffinityConfig_SetDefaults]. unfold constant.
  settle.
  - apply settled_struct; [apply respected_untagged|]. cbn -[AffinityConfig_SetDefaults].
    settle; [apply settled_field; constructor..|]. apply Affinity_settled.
  - case_bool_decide as Hu; [|apply settled_same]. rewrite Hu. by apply settled_init_unset.
  - apply settled_field. solve_tagfree.
Qed.

Lemma PodTemplate_settled n j s s' meta :
  sp_ServiceAccountName s' = sp_ServiceAccountName s → sp_Affinity s' = sp_Affinity s →
  settled (field n j (PodTemplate_val (sp_ServiceAccountName (PodTemplate_SetDefaults s' meta))
                        (sp_Affinity (PodTemplate_SetDefaults s' meta))))
    (field n j (PodTemplate_val (sp_ServiceAccountName s) (sp_Affinity s))).
Proof.
  intros E1 E2. apply settled_struct; [apply respected_untagged|]. cbn -[or_default AffinityConfig_SetDefaults].
  unfold constant. rewrite E1, E2. apply Forall2_cons_2; [apply settled_init_pointer|].
  apply Forall2_cons_2; [apply Affinity_settled|]. apply Forall2_nil_2.
Qed.

(** The volume the defaults give the source is its own, if it has one. *)
Definition volume_kept (b : BootstrapFrom) (stagingPVCKey : NamespacedName) : Prop :=
  bf_Volume b = None ∨ bf_Volume (BootstrapFrom_SetDefaults b stagingPVCKey) = bf_Volume b.

Lemma BootstrapFrom_defaults b key :
  ∃ v, BootstrapFrom_SetDefaults b key =
         mkBootstrapFrom (bf_BackupRef b) (bf_VolumeSnapshotRef b) (default_BackupContentType b) (bf_S3 b) v
           (bf_TargetRecoveryTime b) (bf_StagingStorage b) (bf_RestoreJob b) ∧
       (v = bf_Volume b ∨ default_BackupContentType b = BackupContentTypePhysical ∧ bf_S3 b ≠ None).
Proof.
  unfold BootstrapFrom_SetDefaults. generalize (default_BackupContentType b) as t. intros t.
  destruct b as [ref snapshot type s3 v time staging job]. cbn. unfold constant.
  case_bool_decide; [destruct s3|]; eexists; (split; [reflexivity|]); cbn; by auto.
Qed.
Lemma default_BackupContentType_set b : bf_BackupContentType b ≠ "" → default_BackupContentType b = bf_BackupContentType b.
Proof.
  intros Hb. unfold default_BackupContentType.
  destruct (bf_BackupRef b); rewrite !(bool_decide_false _ Hb), ?andb_false_r; by rewrite (bool_decide_false _ Hb).
Qed.

(** A source that was completed: nothing that was set has changed. *)
Definition unset_or_same {A} (x x' : option A) : Prop := x = None ∨ x' = x.
Record source_completed (b b' : BootstrapFrom) : Prop := {
  sc_ref : bf_BackupRef b' = bf_BackupRef b;
  sc_snapshot : unset_or_same (bf_VolumeSnapshotRef b) (bf_VolumeSnapshotRef b');
  sc_type : bf_BackupContentType b' = default_BackupContentType b;
  sc_s3 : unset_or_same (bf_S3 b) (bf_S3 b');
  sc_volume : unset_or_same (bf_Volume b) (bf_Volume b');
  sc_time : bf_TargetRecoveryTime b' = bf_TargetRecoveryTime b;
  sc_staging : bf_StagingStorage b' = bf_StagingStorage b;
  sc_job : bf_RestoreJob b' = bf_RestoreJob b
}.
Lemma settled_init_option {A} n j (f : A → gval) x x' : unset_or_same x x' →
  settled (inmutableinit n j (pointer f x')) (inmutableinit n j (pointer f x)).
Proof. intros [->| ->]; [|apply settled_same]. apply settled_init_unset; [done..|]. by rewrite orb_true_r. Qed.
Lemma source_settled n j b b' : source_completed b b' →
  settled (field n j (pointer BootstrapFrom_val (Some b'))) (field n j (pointer BootstrapFrom_val (Some b))).
Proof.
  intros [Er Es Et E3 Ev Ett Est Ej]. apply settled_pointer; [apply respected_untagged|].
  unfold BootstrapFrom_val. rewrite Er, Et, Ett, Est, Ej. settle; try by apply settled_init_option.
  destruct (decide (bf_BackupContentType b = "")) as [->|Hb]; [by apply settled_init_unset|].
  rewrite default_BackupContentType_set by done. apply settled_same.
Qed.

(** ** Galera *)
Section galera.
Context `{DockerReference}.

(** What the defaults leave of Galera, or set. *)
Record galera_defaulted (g g' : Galera) (mdb : MariaDB) (env : OperatorEnv) : Prop := {
  gd_Enabled : ga_Enabled g' = ga_Enabled g;
  gd_Primary : ga_Primary g' = PrimaryGalera_SetDefaults (ga_Primary g);
  gd_SST : ga_SST g' = if bool_decide (ga_SST g = "") then SSTMariaBackup else ga_SST g;
  gd_ReplicaThreads : ga_ReplicaThreads g' = if bool_decide (ga_ReplicaThreads g = 0) then 1 else ga_ReplicaThreads g;
  gd_ProviderOptions : ga_ProviderOptions g' = ga_ProviderOptions g;
  gd_Config : ga_Config g' = GaleraConfig_SetDefaults (ga_Config g);
  gd_Recovery : ga_Recovery g' = (λ r, if gr_Enabled r then GaleraRecovery_SetDefaults r else r) <$>
    or_default (ga_Recovery g) (Some { GaleraRecovery_zero with gr_Enabled := true });
  gd_auth : ∃ only, CurrentNamespaceOnly env = Ok only ∧
    agent_KubernetesAuth (ga_Agent g') = (default_auth only (ga_Agent g)).1 ∧
    agent_BasicAuth (ga_Agent g') = (λ b, BasicAuth_SetDefaults b mdb) <$> (default_auth only (ga_Agent g)).2
}.

Lemma GaleraAgent_SetDefaults_auth a mdb env a' : GaleraAgent_SetDefaults a mdb env = Ok a' →
  ∃ only, CurrentNamespaceOnly env = Ok only ∧
    agent_KubernetesAuth a' = (default_auth only a).1 ∧
    agent_BasicAuth a' = (λ b, BasicAuth_SetDefaults b mdb) <$> (default_auth only a).2.
Proof.
  unfold GaleraAgent_SetDefaults. intros (only & Ho%wrap_err_Ok & Ha)%result_bind_Ok. exists only. split; [done|].
  destruct (default_auth only a) as [k b]. by simplify_eq.
Qed.

Lemma Galera_SetDefaults_spec g mdb env g' :
  Galera_SetDefaults g mdb env = Ok g' → galera_defaulted g g' mdb env.
Proof.
  unfold Galera_SetDefaults. intros (a & Ha%wrap_err_Ok%GaleraAgent_SetDefaults_auth & Hg)%result_bind_Ok.
  destruct (default false _).
  - unfold bump_images in Hg. apply result_bind_Ok in Hg as (i & _ & (j & _ & Hg)%result_bind_Ok).
    injection Hg as <-. by destruct g.
  - injection Hg as <-. by destruct g.
Qed.

Lemma Galera_settled n j g mdb env g' : galera_defaulted g g' mdb env →
  settled (field n j (pointer Galera_val (Some g'))) (field n j (pointer Galera_val (Some g))).
Proof.
  intros []. apply settled_pointer; [apply respected_untagged|].
  apply Forall2_cons_2; [|rewrite gd_Enabled0; settle].
  apply settled_struct; [apply respected_untagged|]. rewrite gd_Config0.
  do 9 (apply Forall2_cons_2; [apply settled_field; solve_tagfree|]).
  apply Forall2_cons_2; [apply GaleraConfig_settled|apply Forall2_nil_2].
Qed.
End galera.

(** ** Validity of the defaulted object *)
Section validity.
Context `{ScaledValue}.

Lemma default_recovery_valid r m m' :
  m_meta m' = m_meta m → sp_Replicas (m_Spec m') = sp_Replicas (m_Spec m) → 1 ≤ sp_Replicas (m_Spec m) →
  GaleraRecovery_Validate r m = Ok tt →
  GaleraRecovery_Validate (if gr_Enabled r then GaleraRecovery_SetDefaults r else r) m' = Ok tt.
Proof.
  intros Hm Hr H1. destruct (gr_Enabled r) eqn:He; unfold GaleraRecovery_Validate; rewrite ?Hm, ?Hr; [|by rewrite He].
  cbn. rewrite He. cbn. unfold default. destruct (gr_MinClusterSize r) as [size|]; cbn; [done|].
  rewrite scaled_int. cbn. intros ->. by rewrite !bool_decide_false by lia.
Qed.

(** A logical backup and a snapshot are not both given. *)
Definition one_kind (b : BootstrapFrom) : Prop :=
  bf_VolumeSnapshotRef b ≠ None → ∀ ref, bf_BackupRef b = Some ref → tlor_Kind ref = PhysicalBackupKind.

Lemma true_and (P : Prop) : true = true ∧ P ↔ P.
Proof. naive_solver. Qed.
Definition type_agrees (type t : string) : bool := bool_decide (type = "") || bool_decide (type = t).
(** The validation of a source, guard by guard. *)
Lemma BootstrapFrom_Validate_Ok b :
  BootstrapFrom_Validate b = Ok tt ↔
  is_some (bf_BackupRef b) || is_some (bf_VolumeSnapshotRef b) || is_some (bf_S3 b) || is_some (bf_Volume b) = true ∧
  bf_BackupContentType b ∈ [""; BackupContentTypeLogical; BackupContentTypePhysical] ∧
  (∀ ref, bf_BackupRef b = Some ref →
     tlor_Kind ref ∈ [""; BackupKind] ∧ type_agrees (bf_BackupContentType b) BackupContentTypeLogical = true ∨
     tlor_Kind ref = PhysicalBackupKind ∧ type_agrees (bf_BackupContentType b) BackupContentTypePhysical = true) ∧
  (bf_VolumeSnapshotRef b ≠ None → type_agrees (bf_BackupContentType b) BackupContentTypePhysical = true ∧
     bf_S3 b = None ∧ bf_Volume b = None ∧ bf_RestoreJob b = None).
Proof.
  unfold BootstrapFrom_Validate, type_agrees. destruct (_ || _ || _ || _) eqn:Hs; cbn [negb]; [|naive_solver].
  rewrite !check_Ok, true_and. apply and_iff_compat; [|apply and_iff_compat].
  - rewrite !elem_of_cons, elem_of_nil. case_bool_decide as Ht; cbn; [tauto|].
    rewrite wrap_err_Ok. unfold BackupContentType_Validate. repeat case_bool_decide; cbn; naive_solver.
  - destruct (bf_BackupRef b) as [ref|]; [|naive_solver].
    transitivity (tlor_Kind ref ∈ [""; BackupKind] ∧
        bool_decide (bf_BackupContentType b = "") || bool_decide (bf_BackupContentType b = BackupContentTypeLogical) = true ∨
        tlor_Kind ref = PhysicalBackupKind ∧
        bool_decide (bf_BackupContentType b = "") || bool_decide (bf_BackupContentType b = BackupContentTypePhysical) = true);
      [|naive_solver].
    rewrite !elem_of_cons, elem_of_nil. destruct (bool_decide_reflect (tlor_Kind ref = "")) as [->|H1]; cbn.
    { destruct (bool_decide (bf_BackupContentType b = "")), (bool_decide (bf_BackupContentType b = BackupContentTypeLogical)); naive_solver. }
    destruct (bool_decide_reflect (tlor_Kind ref = BackupKind)) as [->|H2]; cbn.
    { destruct (bool_decide (bf_BackupContentType b = "")), (bool_decide (bf_BackupContentType b = BackupContentTypeLogical)); naive_solver. }
    destruct (bool_decide_reflect (tlor_Kind ref = PhysicalBackupKind)) as [->|H3]; [|naive_solver].
    destruct (bool_decide (bf_BackupContentType b = "")), (bool_decide (bf_BackupContentType b = BackupContentTypePhysical)); naive_solver.
  - destruct (bf_VolumeSnapshotRef b); cbn; [|naive_solver]. rewrite !guard_Ok.
    destruct (bool_decide (bf_BackupContentType b = "")), (bool_decide (bf_BackupContentType b = BackupContentTypePhysical)),
      (bf_S3 b), (bf_Volume b), (bf_RestoreJob b); cbn; naive_solver.
Qed.

(** The type that the source itself gives. *)
Lemma default_type b : bf_BackupContentType b = "" →
  default_BackupContentType b =
  match bf_BackupRef b with
  | Some ref =>
      if bool_decide (tlor_Kind ref = BackupKind) then BackupContentTypeLogical
      else if bool_decide (tlor_Kind ref = PhysicalBackupKind) then BackupContentTypePhysical
      else if is_some (bf_VolumeSnapshotRef b) then BackupContentTypePhysical else BackupContentTypeLogical
  | None => if is_some (bf_VolumeSnapshotRef b) then BackupContentTypePhysical else BackupContentTypeLogical
  end.
Proof.
  intros Hb. unfold default_BackupContentType. rewrite Hb. cbn.
  destruct (bf_BackupRef b) as [[n k]|], (bf_VolumeSnapshotRef b); cbn; repeat case_bool_decide; subst; done.
Qed.

Lemma physical_not_logical : PhysicalBackupKind ∉ [""; BackupKind].
Proof. rewrite !not_elem_of_cons. split_and!; [done..|]. apply not_elem_of_nil. Qed.
Lemma type_listed t : t = BackupContentTypeLogical ∨ t = BackupContentTypePhysical →
  t ∈ [""; BackupContentTypeLogical; BackupContentTypePhysical].
Proof. rewrite !elem_of_cons. tauto. Qed.
Lemma default_type_agrees b : BootstrapFrom_Validate b = Ok tt → one_kind b →
  default_BackupContentType b ∈ [""; BackupContentTypeLogical; BackupContentTypePhysical] ∧
  (∀ ref, bf_BackupRef b = Some ref →
     tlor_Kind ref ∈ [""; BackupKind] ∧ default_BackupContentType b = BackupContentTypeLogical ∨
     tlor_Kind ref = PhysicalBackupKind ∧ default_BackupContentType b = BackupContentTypePhysical) ∧
  (bf_VolumeSnapshotRef b ≠ None → default_BackupContentType b = BackupContentTypePhysical).
Proof.
  intros (_ & Ht & Href & Hsnap)%BootstrapFrom_Validate_Ok Hone. unfold type_agrees in *.
  destruct (decide (bf_BackupContentType b = "")) as [Hb|Hb].
  - rewrite default_type by done. destruct (bf_BackupRef b) as [ref|] eqn:Hr.
    + destruct (Href ref eq_refl) as [[Hk _]|[Hk _]].
      * assert (bf_VolumeSnapshotRef b = None) as ->.
        { destruct (bf_VolumeSnapshotRef b) eqn:Hs; [|done]. unfold one_kind in Hone. rewrite Hs in Hone.
          rewrite (Hone ltac:(done) ref Hr) in Hk. by apply physical_not_logical in Hk. }
        assert (tlor_Kind ref ≠ PhysicalBackupKind) by (intros E; rewrite E in Hk; by apply physical_not_logical in Hk).
        rewrite (bool_decide_false (tlor_Kind ref = PhysicalBackupKind)) by done.
        destruct (bool_decide (tlor_Kind ref = BackupKind)); cbn; (split; [apply type_listed; auto|]);
          (split; [intros ? [= <-]; auto|done]).
      * rewrite Hk. cbn. split; [apply type_listed; auto|]. split; [intros ? [= <-]; auto|done].
    + destruct (bf_VolumeSnapshotRef b); cbn; (split; [apply type_listed; auto|done]).
  - rewrite default_BackupContentType_set by done. rewrite (bool_decide_false _ Hb) in Href, Hsnap. cbn in Href, Hsnap.
    split; [done|]. setoid_rewrite bool_decide_eq_true in Href. rewrite bool_decide_eq_true in Hsnap. naive_solver.
Qed.

Lemma default_bootstrap_valid b key :
  BootstrapFrom_Validate b = Ok tt → one_kind b → BootstrapFrom_Validate (BootstrapFrom_SetDefaults b key) = Ok tt.
Proof.
  intros Hb Hone. destruct (default_type_agrees b Hb Hone) as (Ht & Hr & Hs).
  apply BootstrapFrom_Validate_Ok in Hb as (Hsrc & _ & _ & Hsnap). apply BootstrapFrom_Validate_Ok.
  destruct (BootstrapFrom_defaults b key) as (v & -> & Hv). cbn -[type_agrees default_BackupContentType].
  assert (∀ t, type_agrees t t = true) as Hagree.
  { intros t. unfold type_agrees. by rewrite (bool_decide_true (t = t)), orb_true_r. }
  split_and!; [|done| |].
  - destruct Hv as [->|[_ Hs3]]; [done|]. destruct (bf_S3 b); [|done]. by rewrite !orb_true_r.
  - intros ref Href. destruct (Hr ref Href) as [[? ->]|[? ->]]; [left|right]; auto.
  - intros Hn. destruct (Hsnap Hn) as (_ & H3 & Hvn & Hj). rewrite (Hs Hn), H3, Hj. split_and!; [done..| |done].
    destruct Hv as [->|[_ Hs3]]; [done|]. by rewrite H3 in Hs3.
Qed.
End validity.

(** ** The whole spec *)
Section patch.
Context `{DockerReference} `{ScaledValue} `{StatusConditions}.

(** The authentication of the agent that the defaults add, in an operator of one namespace, is not
    a second one. *)
Definition one_auth (m : MariaDB) (env : OperatorEnv) : Prop :=
  CurrentNamespaceOnly env = Ok true → ∀ g, sp_Galera (m_Spec m) = Some g → ga_Enabled g = true →
    agent_BasicAuth (ga_Agent g) = None →
    ka_Enabled (default KubernetesAuth_zero (agent_KubernetesAuth (ga_Agent g))) = false.

Definition galera_defaults (m : MariaDB) (env : OperatorEnv) (ga : option Galera) : Prop :=
  ga = sp_Galera (m_Spec m) ∧ IsGaleraEnabled m = false ∨
  ∃ g g', sp_Galera (m_Spec m) = Some g ∧ ga_Enabled g = true ∧ galera_defaulted g g' (default_server m env) env ∧
    ga = Some g'.

Lemma MariaDB_SetDefaults_spec m env m' : MariaDB_SetDefaults m env = Ok m' →
  ∃ ga, galera_defaults m env ga ∧
    m' = default_rest { default_server m env with m_Spec -> sp_Galera := ga }.
Proof.
  unfold MariaDB_SetDefaults. intros (m2 & Hg & [= <-])%result_bind_Ok. unfold default_galera in Hg.
  assert (sp_Galera (m_Spec (default_server m env)) = sp_Galera (m_Spec m)) as E by (by destruct m as [? []]).
  rewrite E in Hg. unfold galera_defaults, IsGaleraEnabled.
  assert ({ default_server m env with m_Spec -> sp_Galera := sp_Galera (m_Spec m) } = default_server m env) as Hsame
    by (by destruct m as [? []]).
  destruct (sp_Galera (m_Spec m)) as [g|] eqn:Hga.
  - destruct (ga_Enabled g) eqn:He.
    + apply result_bind_Ok in Hg as (g' & Hg'%wrap_err_Ok & [= <-]). exists (Some g').
      split; [|done]. right. exists g, g'. split_and!; try done. by apply Galera_SetDefaults_spec.
    + injection Hg as <-. exists (Some g). split; [by left|]. by rewrite Hsame.
  - injection Hg as <-. exists None. split; [by left|]. by rewrite Hsame.
Qed.

Lemma settled_validated f v g old path : settled (f, v) (g, old) → validateInmutable f v old path = [].
Proof.
  intros (Hr & Hn & _). destruct (isValidStruct v) eqn:Hv; [by apply Hn|].
  rewrite validateInmutable_eq. unfold fields_of at 1. rewrite Hv. by apply validateInmutableValue_spec.
Qed.

Lemma galera_field_settled n j m env ga : galera_defaults m env ga →
  settled (field n j (pointer Galera_val ga)) (field n j (pointer Galera_val (sp_Galera (m_Spec m)))).
Proof.
  intros [[-> _]|(g & g' & Hg & _ & Hd & ->)]; [apply settled_same|]. rewrite Hg. by eapply Galera_settled.
Qed.
Lemma secret_ref_settled n j (b : bool) r r' :
  settled (inmutableinit n j (GeneratedSecretKeyRef_val (if bool_decide (r = SecretKeyRef_zero) && b then r' else r)))
    (inmutableinit n j (GeneratedSecretKeyRef_val r)).
Proof. case_bool_decide as Hr; [|apply settled_same]. destruct b; [|apply settled_same]. subst. by apply settled_init_unset. Qed.

(** The defaults, with whatever source. *)
Lemma sent_settled m env m1 src :
  MariaDB_SetDefaults m env = Ok m1 →
  settled (field "BootstrapFrom" "bootstrapFrom,omitempty" (pointer BootstrapFrom_val src))
    (field "BootstrapFrom" "bootstrapFrom,omitempty" (pointer BootstrapFrom_val (sp_BootstrapFrom (m_Spec m)))) →
  validateInmutable (mkStructField "Spec" "spec,omitempty" "")
    (MariaDBSpec_val (m_Spec { m1 with m_Spec -> sp_BootstrapFrom := src })) (MariaDBSpec_val (m_Spec m)) ["spec"] = [].
Proof.
  intros (ga & Hga & ->)%MariaDB_SetDefaults_spec Hsrc.
  apply settled_validated with (g := mkStructField "Spec" "spec,omitempty" "").
  apply settled_struct; [apply respected_untagged|].
  apply Forall2_cons_2; [by apply PodTemplate_settled|].
  do 3 (apply Forall2_cons_2; [first [apply settled_same|apply settled_field; solve_tagfree]|]).
  apply Forall2_cons_2; [apply secret_ref_settled|].
  apply Forall2_cons_2; [apply settled_init_pointer|].
  do 8 (apply Forall2_cons_2; [first [apply settled_same|apply settled_field; solve_tagfree]|]).
  apply Forall2_cons_2; [exact Hsrc|].
  apply Forall2_cons_2; [apply Storage_settled|].
  apply Forall2_cons_2; [apply Metrics_settled|].
  do 2 (apply Forall2_cons_2; [first [apply settled_same|apply settled_field; solve_tagfree]|]).
  apply Forall2_cons_2; [by eapply galera_field_settled|].
  do 13 (apply Forall2_cons_2; [first [apply settled_same|apply settled_field; solve_tagfree]|]).
  apply Forall2_nil_2.
Qed.
End patch.
