(* ===== verification/WebhookPatch.v ===== *)
(** * The defaulted object is valid

    The operator's own update of the spec, continued: what the Spec phase sends for a valid MariaDB,
    its defaults and the source it took from a backup, and when the webhook accepts that patch; and
    objects it accepts at creation whose patch it refuses. *)

From S2P Require Import Prelude GoStrings StatefulSet Datastructures Conditions MariaDBTypes GaleraConfig.
From S2P Require Import MaxScaleTypes Concurrency Kube Health PhysicalBackup StorageResize MariaDBDefaults Failover Inmutable SpecValues MariaDBWebhook MariaDBWebhookSafety WebhookDefaults.

Local Open Scope Z_scope.

Section patch.
Context `{DockerReference} `{ScaledValue} `{StatusConditions} `{SliceSort}.

(** The validity of the parts. *)
Lemma galera_defaults_enabled m env ga : galera_defaults m env ga →
  ga_Enabled (default Galera_zero ga) = IsGaleraEnabled m.
Proof.
  unfold IsGaleraEnabled. intros [[-> _]|(g & g' & Hg & He & Hd & ->)]; [done|]. rewrite Hg. cbn. by rewrite (gd_Enabled _ _ _ _ Hd).
Qed.

Lemma default_agent_valid m env g g' : sp_Galera (m_Spec m) = Some g → ga_Enabled g = true → one_auth m env →
  galera_defaulted g g' (default_server m env) env →
  GaleraAgent_Validate (ga_Agent g) = Ok tt → GaleraAgent_Validate (ga_Agent g') = Ok tt.
Proof.
  intros Hg He Hone Hd. destruct (gd_auth _ _ _ _ Hd) as (only & Ho & Hk & Hb). unfold GaleraAgent_Validate.
  rewrite Hk, Hb. clear Hk Hb Hd. unfold default_auth.
  assert (∀ b, ba_Enabled (BasicAuth_SetDefaults b (default_server m env)) = ba_Enabled b) as Hba.
  { intros b. unfold BasicAuth_SetDefaults. by destruct (ba_Enabled b) eqn:E. }
  destruct only; cbn.
  - destruct (agent_BasicAuth (ga_Agent g)) as [b|] eqn:Hab; cbn; [by rewrite Hba|].
    intros _. by rewrite (Hone Ho g Hg He Hab).
  - destruct (agent_KubernetesAuth (ga_Agent g)), (agent_BasicAuth (ga_Agent g)); cbn; rewrite ?Hba; done.
Qed.

Lemma default_galera_valid m m' env g g' :
  sp_Galera (m_Spec m) = Some g → ga_Enabled g = true → one_auth m env →
  galera_defaulted g g' (default_server m env) env → 1 < sp_Replicas (m_Spec m) →
  m_meta m' = m_meta m → sp_Replicas (m_Spec m') = sp_Replicas (m_Spec m) → sp_Galera (m_Spec m') = Some g' →
  validateGalera m = Ok tt → validateGalera m' = Ok tt.
Proof.
  intros Hg He Hone Hd Hr Hm Hr' Hg' Hv. apply (validateGalera_Ok m g Hg He) in Hv as (Hp & Hs & Ht & Ho & Ha & Hrec).
  apply (validateGalera_Ok m' g' Hg'); [by rewrite (gd_Enabled _ _ _ _ Hd)|].
  pose proof (default_agent_valid _ _ _ _ Hg He Hone Hd Ha) as Ha'. destruct Hd as [_ Ep Es Et Eo _ Er _].
  rewrite Ep, Es, Et, Eo, Er, Hr'. clear Ep Es Et Eo Er. split_and!; try done.
  - cbn. destruct (pg_PodIndex (ga_Primary g)); cbn; intros i [= <-]; [by apply Hp|lia].
  - case_bool_decide; [intros _; reflexivity|]. by apply Hs.
  - case_bool_decide; [done|]. done.
  - intros r. destruct (ga_Recovery g) as [r0|]; cbn -[GaleraRecovery_SetDefaults].
    + intros [= <-]. eapply default_recovery_valid; [done..|lia|]. by apply Hrec.
    + intros [= <-]. unfold GaleraRecovery_Validate. cbn. rewrite scaled_int, Hr'. cbn.
      by rewrite !bool_decide_false by lia.
Qed.

Lemma default_storage_valid s m m' : IsHAEnabled m' = IsHAEnabled m →
  Storage_Validate s m = Ok tt → Storage_Validate (Storage_SetDefaults s) m' = Ok tt.
Proof.
  intros Hha Hv. pose proof (defaulted_size s) as Hsz. revert Hv Hsz. unfold Storage_Validate.
  rewrite Storage_SetDefaults_eq. cbn -[shouldUpdateVolumeClaimTemplate]. rewrite Hha.
  assert (sto_Size s = None → shouldUpdateVolumeClaimTemplate s = false) as Hno.
  { intros Hs. unfold shouldUpdateVolumeClaimTemplate. by rewrite Hs. }
  destruct (default false (sto_Ephemeral s)); cbn -[shouldUpdateVolumeClaimTemplate].
  - destruct (IsHAEnabled m); cbn -[shouldUpdateVolumeClaimTemplate]; [done|].
    destruct (sto_Size s) as [n|]; [done|]. by rewrite Hno.
  - destruct (sto_Size s) as [n|]; cbn -[shouldUpdateVolumeClaimTemplate]; [|by rewrite Hno].
    case_bool_decide; [done|]. intros _ Hsz. rewrite (Hsz n eq_refl). by rewrite bool_decide_false by lia.
Qed.

Lemma default_size s old : Storage_Validate s old = Ok tt →
  ∀ n n', GetSize s = Some n → GetSize (Storage_SetDefaults s) = Some n' → n ≤ n'.
Proof.
  intros Hv n n' Hn Hn'. pose proof (defaulted_size s) as Hsz. unfold GetSize in *.
  rewrite Storage_SetDefaults_eq in Hn', Hsz. cbn -[shouldUpdateVolumeClaimTemplate vt_size] in Hn', Hsz.
  destruct (sto_Size s) as [k|] eqn:Hk.
  - specialize (Hsz k eq_refl). destruct (if shouldUpdateVolumeClaimTemplate s then _ else _); [|done].
    cbn -[vt_size] in Hsz, Hn'. rewrite Hsz in Hn'. injection Hn' as <-. clear Hsz.
    unfold Storage_Validate in Hv. rewrite Hk in Hv.
    destruct (default false (sto_Ephemeral s)); [destruct (IsHAEnabled old); done|]. cbn -[vt_size] in Hv.
    case_bool_decide; [done|]. destruct (sto_VolumeClaimTemplate s); cbn -[vt_size] in Hv, Hn; [|by injection Hn as <-].
    destruct (vt_size _); [|by injection Hn as <-]. case_bool_decide; [done|]. injection Hn as <-. lia.
  - assert (shouldUpdateVolumeClaimTemplate s = false) as E by (unfold shouldUpdateVolumeClaimTemplate; by rewrite Hk).
    rewrite E in Hn'. assert (Some n = Some n') as [= ->] by (by rewrite <-Hn, <-Hn'). lia.
Qed.

(** The defaults change nothing that the other validations read. *)
Record same_context (m m' : MariaDB) : Prop := {
  sx_meta : m_meta m' = m_meta m;
  sx_status : m_Status m' = m_Status m;
  sx_replicas : sp_Replicas (m_Spec m') = sp_Replicas (m_Spec m);
  sx_replication : sp_Replication (m_Spec m') = sp_Replication (m_Spec m);
  sx_pdb : sp_PodDisruptionBudget (m_Spec m') = sp_PodDisruptionBudget (m_Spec m);
  sx_storage : sp_Storage (m_Spec m') = Storage_SetDefaults (sp_Storage (m_Spec m));
  sx_bootstrap : sp_BootstrapFrom (m_Spec m') =
    (λ b, BootstrapFrom_SetDefaults b (PhysicalBackupStagingPVCKey m)) <$> sp_BootstrapFrom (m_Spec m);
  sx_tls : sp_TLS (m_Spec m') = or_default (sp_TLS (m_Spec m)) (Some { TLS_zero with tls_Enabled := true });
  sx_empty : sp_RootEmptyPassword (m_Spec m') = or_default (sp_RootEmptyPassword (m_Spec m)) (Some false);
  sx_password : IsRootPasswordEmpty m = true →
    sp_RootPasswordSecretKeyRef (m_Spec m') = sp_RootPasswordSecretKeyRef (m_Spec m)
}.
Lemma defaults_context m env m' : MariaDB_SetDefaults m env = Ok m' → same_context m m'.
Proof.
  intros (ga & _ & ->)%MariaDB_SetDefaults_spec. split; try reflexivity. intros He. cbn. unfold constant.
  by rewrite He, andb_false_r.
Qed.

(** The defaults, with another source: what the Spec phase sends. *)
Definition with_source (m : MariaDB) (src : option BootstrapFrom) : MariaDB := { m with m_Spec -> sp_BootstrapFrom := src }.
Lemma with_source_same m : with_source m (sp_BootstrapFrom (m_Spec m)) = m.
Proof. by destruct m as [? [] ? ?]. Qed.

Lemma sent_valid m env m1 src : valid m → one_auth m env → MariaDB_SetDefaults m env = Ok m1 →
  (∀ b, src = Some b → BootstrapFrom_Validate b = Ok tt) → valid (with_source m1 src).
Proof.
  intros Hv Hauth Hd Hsrc. pose proof (defaults_context _ _ _ Hd) as [Em Est Er Erep Epdb Esto _ Etls Eemp Epw].
  apply MariaDB_SetDefaults_spec in Hd as (ga & Hga & Hm').
  assert (sp_Galera (m_Spec m1) = ga) as Ega by by rewrite Hm'. clear Hm'. set (m' := with_source m1 src).
  change (m_meta m1) with (m_meta m') in Em. change (m_Status m1) with (m_Status m') in Est.
  change (sp_Replicas (m_Spec m1)) with (sp_Replicas (m_Spec m')) in Er.
  change (sp_Replication (m_Spec m1)) with (sp_Replication (m_Spec m')) in Erep.
  change (sp_PodDisruptionBudget (m_Spec m1)) with (sp_PodDisruptionBudget (m_Spec m')) in Epdb.
  change (sp_Storage (m_Spec m1)) with (sp_Storage (m_Spec m')) in Esto.
  change (sp_TLS (m_Spec m1)) with (sp_TLS (m_Spec m')) in Etls.
  change (sp_RootEmptyPassword (m_Spec m1)) with (sp_RootEmptyPassword (m_Spec m')) in Eemp.
  change (sp_RootPasswordSecretKeyRef (m_Spec m1)) with (sp_RootPasswordSecretKeyRef (m_Spec m')) in Epw.
  change (sp_Galera (m_Spec m1)) with (sp_Galera (m_Spec m')) in Ega.
  assert (replication m' = replication m) as Erepl by (unfold replication, MariaDB_Replication; cbn -[m']; by rewrite Erep).
  assert (IsGaleraEnabled m' = IsGaleraEnabled m) as Eg.
  { unfold IsGaleraEnabled at 1. rewrite Ega. by eapply galera_defaults_enabled. }
  assert (IsHAEnabled m' = IsHAEnabled m) as Eha by (unfold IsHAEnabled; by rewrite Erepl, Eg).
  destruct Hv as [Hha Hgal Hrep Hboot Hpdb Hsto Hpw Htls]. split.
  - unfold validateHA in *. by rewrite Erepl, Eg, Eha, Er.
  - apply validateHA_Ok in Hha as [_ Hreps]. destruct Hga as [[-> Hno]|(g & g' & Hg & He & Hgd & ->)].
    + unfold validateGalera. rewrite <-Eg in Hno. unfold IsGaleraEnabled in Hno. by rewrite Hno.
    + apply (default_galera_valid m m' env g g'); try done. apply Hreps. unfold IsHAEnabled, IsGaleraEnabled. rewrite Hg. cbn.
      by rewrite He, orb_true_r.
  - unfold validateReplication, out_of_replicas, primary_PodIndex, primary, replica in *. by rewrite Erepl, Er.
  - unfold validateBootstrapFrom. change (sp_BootstrapFrom (m_Spec m')) with src.
    destruct src as [b|]; [|done]. apply invalid_at_Ok. by apply Hsrc.
  - unfold validatePodDisruptionBudget in *. by rewrite Epdb.
  - apply invalid_at_Ok in Hsto. apply invalid_at_Ok. rewrite Esto. by eapply default_storage_valid.
  - unfold validateRootPassword, IsRootPasswordEmpty, IsRootPasswordDefined in *. rewrite Eemp.
    destruct (sp_RootEmptyPassword (m_Spec m)) as [[]|]; cbn in *; [|done..]. by rewrite Epw.
  - unfold validateTLS in *. rewrite Etls. by destruct (sp_TLS (m_Spec m)).
Qed.

(** What the Spec phase sends passes the webhook, if its source does. *)
Lemma sent_accepted m env m1 src :
  valid m → one_auth m env → MariaDB_SetDefaults m env = Ok m1 →
  (∀ b, src = Some b → BootstrapFrom_Validate b = Ok tt) →
  settled (field "BootstrapFrom" "bootstrapFrom,omitempty" (pointer BootstrapFrom_val src))
    (field "BootstrapFrom" "bootstrapFrom,omitempty" (pointer BootstrapFrom_val (sp_BootstrapFrom (m_Spec m)))) →
  MariaDB_ValidateUpdate m (with_source m1 src) = Ok tt.
Proof.
  intros Hv Hauth Hd Hsrc Hset. pose proof (defaults_context _ _ _ Hd) as [Em Est Er Erep Epdb Esto _ Etls Eemp Epw].
  pose proof (sent_valid _ _ _ _ Hv Hauth Hd Hsrc) as Hv'.
  apply ValidateUpdate_valid. split_and!; [by eapply sent_settled|done| |].
  - change (sp_Replication (m_Spec m1)) with (sp_Replication (m_Spec (with_source m1 src))) in Erep.
    assert (replication (with_source m1 src) = replication m) as Erepl.
    { unfold replication, MariaDB_Replication. cbn -[with_source]. by rewrite Erep. }
    unfold validatePrimarySwitchover, primary_PodIndex, primary_AutomaticFailover, primary. rewrite Erepl.
    rewrite bool_decide_true by done. rewrite Bool.eqb_reflx. by destruct (_ && _).
  - unfold validateUpdateStorage. rewrite (valid_Storage _ Hv'). cbn [mbind result_bind].
    change (sp_Storage (m_Spec (with_source m1 src))) with (sp_Storage (m_Spec m1)). rewrite Esto.
    pose proof (valid_Storage _ Hv) as Hs. apply invalid_at_Ok in Hs. pose proof (default_size _ _ Hs) as Hle.
    destruct (GetSize (Storage_SetDefaults _)) as [n'|], (GetSize _) as [n|]; try done.
    rewrite bool_decide_false; [done|]. specialize (Hle n n' eq_refl eq_refl). lia.
Qed.

(** ** The defaults that are refused *)
Lemma volume_source_inj : Inj (=) (=) StorageVolumeSource_val.
Proof. intros [c| |o] [c'| |o']; cbn; intros E; inversion E; by subst. Qed.
#[local] Instance pointer_volume_inj : Inj (=) (=) (pointer StorageVolumeSource_val).
Proof. apply pointer_inj, volume_source_inj. Qed.

Lemma source_fields b : ∃ fs, BootstrapFrom_val b = GStruct fs ∧ fields_of (pointer BootstrapFrom_val (Some b)) = Some fs.
Proof. by eexists. Qed.
Lemma accepted_volume m m' b b' :
  validateStorage m = Ok tt → validateStorage m' = Ok tt →
  sp_BootstrapFrom (m_Spec m) = Some b → sp_BootstrapFrom (m_Spec m') = Some b' →
  validateInmutable (mkStructField "Spec" "spec,omitempty" "") (MariaDBSpec_val (m_Spec m'))
    (MariaDBSpec_val (m_Spec m)) ["spec"] = [] →
  bf_Volume b = None ∨ bf_Volume b' = bf_Volume b.
Proof.
  intros Hs Hs' Hb Hb' Hi.
  destruct (valid_spec_fields _ Hs') as (fs & Efs & Hfs), (valid_spec_fields _ Hs) as (ofs & Eofs & Hofs).
  rewrite (validateInmutable_fields _ _ _ _ fs ofs Hfs Hofs) in Hi. injection Efs as <-. injection Eofs as <-.
  destruct (Hi 14%nat _ _ _ _ eq_refl eq_refl) as (_ & Hsrc & _). cbn [fst snd] in Hsrc. rewrite Hb, Hb' in Hsrc.
  specialize (Hsrc eq_refl).
  destruct (source_fields b') as (fs & Efs & Hfs'), (source_fields b) as (ofs & Eofs & Hofs').
  rewrite (validateInmutable_fields _ _ _ _ fs ofs Hfs' Hofs') in Hsrc. injection Efs as <-. injection Eofs as <-.
  destruct (Hsrc 4%nat _ _ _ _ eq_refl eq_refl) as (Hr & _).
  destruct (bf_Volume b) as [v|] eqn:Hv; [right|by left].
  apply respected_inmutableinit in Hr; [|done..]. by apply (inj _) in Hr.
Qed.

Lemma default_type_not_empty b : default_BackupContentType b ≠ "".
Proof.
  destruct (decide (bf_BackupContentType b = "")) as [Hb|Hb]; [|by rewrite default_BackupContentType_set].
  rewrite default_type by done. destruct (bf_BackupRef b); [|by destruct (is_some _)].
  repeat case_bool_decide; try done; by destruct (is_some _).
Qed.
Lemma defaulted_one_kind b key :
  BootstrapFrom_Validate (BootstrapFrom_SetDefaults b key) = Ok tt → one_kind b.
Proof.
  destruct (BootstrapFrom_defaults b key) as (v & -> & _).
  intros (_ & _ & Hr & Hs)%BootstrapFrom_Validate_Ok Hn ref Href. cbn -[type_agrees] in Hr, Hs.
  destruct (Hr ref Href) as [[_ Hl]|[Hk _]]; [|done]. destruct (Hs Hn) as [Hp _].
  pose proof (default_type_not_empty b) as Hne. unfold type_agrees in Hl, Hp.
  rewrite (bool_decide_false (default_BackupContentType b = "")) in Hl, Hp by done. cbn in Hl, Hp.
  apply bool_decide_eq_true in Hl, Hp. rewrite Hl in Hp. done.
Qed.

Lemma defaulted_one_auth m env m' :
  MariaDB_SetDefaults m env = Ok m' → validateGalera m' = Ok tt → one_auth m env.
Proof.
  intros (ga & Hga & Em')%MariaDB_SetDefaults_spec Hv Ho g Hg He Hb.
  assert (sp_Galera (m_Spec m') = ga) as Ega by by rewrite Em'. clear Em'.
  destruct Hga as [[-> Hno]|(g0 & g' & Hg0 & He0 & Hd & ->)].
  { unfold IsGaleraEnabled in Hno. rewrite Hg in Hno. cbn in Hno. congruence. }
  assert (g0 = g) as -> by congruence.
  apply (validateGalera_Ok m' g' Ega) in Hv as (_ & _ & _ & _ & Ha & _); [|by rewrite (gd_Enabled _ _ _ _ Hd)].
  destruct (gd_auth _ _ _ _ Hd) as (only & Ho' & Hk & Hba). assert (only = true) as -> by congruence.
  unfold default_auth in Hk, Hba. rewrite Hb in Hba. cbn in Hk, Hba. unfold GaleraAgent_Validate in Ha.
  rewrite Hk, Hba in Ha. cbn in Ha. by destruct (ka_Enabled _).
Qed.

(** The sources that the Spec phase sends, by what it found of the backup they name. *)
Definition completed_source (key : NamespacedName) (b b' : BootstrapFrom) (found : option PhysicalBackup) : Prop :=
  let b1 := BootstrapFrom_SetDefaults b key in
  match found with
  | None => b' = b1
  | Some backup =>
      BootstrapFrom_IsDefaulted b1 = false ∧ (∃ ref, bf_BackupRef b1 = Some ref ∧ tlor_Kind ref = PhysicalBackupKind) ∧
      ∃ b2, b' = BootstrapFrom_SetDefaults b2 key ∧
        if is_some (pst_VolumeSnapshot (pb_Storage (pb_Spec backup)))
        then ∃ snapshot, b2 = BootstrapFrom_SetDefaultsWithVolumeSnapshotRef b1 snapshot
        else BootstrapFrom_SetDefaultsWithPhysicalBackup b1 backup = Ok b2
  end.

(** When the source that is sent is accepted. *)
Definition source_accepted (key : NamespacedName) (b : BootstrapFrom) (found : option PhysicalBackup) : Prop :=
  volume_kept b key ∧ one_kind b ∧
  (∀ backup, found = Some backup → pst_VolumeSnapshot (pb_Storage (pb_Spec backup)) ≠ None → bf_RestoreJob b = None).
Lemma SetDefaults_completed b key : volume_kept b key → source_completed b (BootstrapFrom_SetDefaults b key).
Proof.
  unfold volume_kept. destruct (BootstrapFrom_defaults b key) as (v & -> & _). cbn [bf_Volume]. intros Hv.
  split; cbn; first [done|by right|exact Hv].
Qed.

(** A source that is still looked up names a physical backup and nothing else. *)
Lemma pending_source b key ref :
  BootstrapFrom_Validate b = Ok tt → BootstrapFrom_IsDefaulted (BootstrapFrom_SetDefaults b key) = false →
  bf_BackupRef (BootstrapFrom_SetDefaults b key) = Some ref → tlor_Kind ref = PhysicalBackupKind →
  bf_BackupRef b = Some ref ∧ default_BackupContentType b = BackupContentTypePhysical ∧
  bf_S3 b = None ∧ bf_Volume b = None ∧ bf_VolumeSnapshotRef b = None ∧
  BootstrapFrom_SetDefaults b key = { b with bf_BackupContentType := BackupContentTypePhysical }.
Proof.
  intros Hv Hnd Href Hk. assert (bf_VolumeSnapshotRef b = None) as Hs.
  { destruct (BootstrapFrom_defaults b key) as (v & E & _). rewrite E in Hnd. cbn in Hnd. apply orb_false_iff in Hnd as [_ Hs].
    by destruct (bf_VolumeSnapshotRef b). }
  assert (bf_BackupRef b = Some ref) as Hr.
  { destruct (BootstrapFrom_defaults b key) as (v & E & _). by rewrite E in Href. }
  destruct (default_type_agrees b Hv) as (_ & Hty & _); [by intros Hn|].
  destruct (Hty ref Hr) as [[Hl _]|[_ Ht]]; [rewrite Hk in Hl; by apply physical_not_logical in Hl|].
  cut (bf_S3 b = None ∧ bf_Volume b = None ∧
       BootstrapFrom_SetDefaults b key = { b with bf_BackupContentType := BackupContentTypePhysical }); [tauto|].
  unfold BootstrapFrom_SetDefaults in Hnd |- *. rewrite Ht in Hnd |- *. clear - Hnd. destruct b as [? ? ? [] [] ? ? ?]; done.
Qed.

(** The sent source is accepted, by its validation and by the comparison with the old one, exactly when... *)
Lemma completed_source_accepted key b b' found :
  BootstrapFrom_Validate b = Ok tt → completed_source key b b' found →
  (BootstrapFrom_Validate b' = Ok tt ∧ unset_or_same (bf_Volume b) (bf_Volume b') ↔ source_accepted key b found) ∧
  (source_accepted key b found → source_completed b b').
Proof.
  intros Hv Hc. unfold completed_source in Hc. cbn zeta in Hc. destruct found as [backup|].
  - destruct Hc as (Hnd & (ref & Href & Hk) & b2 & -> & Hb2).
    destruct (pending_source b key ref Hv Hnd Href Hk) as (Hr & Ht & H3 & Hvol & Hs & E). rewrite E in Hb2.
    assert (volume_kept b key) as Hvk by by left. assert (one_kind b) as Hone by by intros Hn.
    clear E Hnd Href Hv. destruct b as [ref0 sn ty s3 vol time staging job]. cbn in Hr, H3, Hvol, Hs. subst ref0 s3 vol sn.
    assert (∀ v s3 sn, sn = None ∨ s3 = None ∧ v = None ∧ job = None →
      BootstrapFrom_Validate (mkBootstrapFrom (Some ref) sn BackupContentTypePhysical s3 v time staging job) = Ok tt) as Hok.
    { intros v s3 sn Hsn. apply BootstrapFrom_Validate_Ok. cbn. split_and!; [done|set_solver| |].
      - intros ref' [= <-]. right. by split.
      - intros Hn. by destruct Hsn as [?|(-> & -> & ->)]. }
    destruct (pst_VolumeSnapshot (pb_Storage (pb_Spec backup))) as [vs|] eqn:Hst; cbn [is_some] in Hb2.
    + destruct Hb2 as [snapshot ->].
      match goal with |- context [BootstrapFrom_SetDefaults ?b2 key] => replace (BootstrapFrom_SetDefaults b2 key) with
        (mkBootstrapFrom (Some ref) (Some snapshot) BackupContentTypePhysical None None time staging job) end.
      2: { unfold BootstrapFrom_SetDefaults. by rewrite default_BackupContentType_set. }
      split.
      * split.
        -- intros [(_ & _ & _ & Hj)%BootstrapFrom_Validate_Ok _]. split; [done|]. split; [done|]. intros bk _ _. by apply Hj.
        -- intros (_ & _ & Hj). split; [|by left]. apply Hok. right. split_and!; [done..|]. apply (Hj backup eq_refl). congruence.
      * intros _. split; first [done|by left|by right].
    + apply result_bind_Ok in Hb2 as (v & _ & [= <-]).
      match goal with |- context [BootstrapFrom_SetDefaults ?b2 key] =>
        assert (∃ v', BootstrapFrom_SetDefaults b2 key = mkBootstrapFrom (Some ref) None BackupContentTypePhysical
          (pst_S3 (pb_Storage (pb_Spec backup))) v' time staging job) as [v' ->] end.
      { unfold BootstrapFrom_SetDefaults. rewrite default_BackupContentType_set by done. cbn. unfold constant.
        destruct (pst_S3 _); by eexists. }
      split.
      * split; [|intros _; split; [apply Hok|]; by left]. intros _. split; [done|]. split; [done|]. intros bk [= <-]. congruence.
      * intros _. split; first [done|by left|by right].
  - subst b'. split.
    + split.
      * intros [Hv' Hvol]. split; [exact Hvol|]. split; [by eapply defaulted_one_kind|done].
      * intros (Hvk & Hone & _). split; [by apply default_bootstrap_valid|exact Hvk].
    + intros (Hvk & _). by apply SetDefaults_completed.
Qed.

(** ** The patch of the Spec phase *)
Definition backup_found (e : event pbop) : option PhysicalBackup :=
  match ev_op e in pbop X return X → option PhysicalBackup with
  | PGetBackup _ => λ r, match r with Ok backup => Some backup | Err _ => None end
  | _ => λ _, None
  end (ev_ans e).
Definition found (t : list (event pbop)) : option PhysicalBackup := head (omap backup_found t).
Definition patches_mariadb (e : event pbop) : option (MariaDB * MariaDB) :=
  match ev_op e with PBase (KPatchMariaDB base m) => Some (base, m) | _ => None end.

Lemma source_looked_up b backup (m : MariaDB) :
  wpM (source_from_backup b backup) m (λ t m' r, m' = m ∧
    Forall (λ e, backup_found e = None ∧ patches_mariadb e = None) t ∧
    ∀ b2, r = Ok b2 →
      if is_some (pst_VolumeSnapshot (pb_Storage (pb_Spec backup)))
      then ∃ snapshot, b2 = BootstrapFrom_SetDefaultsWithVolumeSnapshotRef b snapshot
      else BootstrapFrom_SetDefaultsWithPhysicalBackup b backup = Ok b2).
Proof.
  unfold source_from_backup. destruct (is_some _).
  - wp_step. wp_step. eapply wpM_mono; [|apply wpM_conj; [apply (keepsM_getTarget backup (bf_TargetRecoveryTime b))|
      apply (alwaysM_wpM (λ e, backup_found e = None ∧ patches_mariadb e = None)); by always_auto]].
    intros t m' [target|e] [<- Ht]; cbn [wrap_err]; [|done]. wp_step. rewrite app_nil_r. split; [done|]. split; [done|].
    intros b2 [= <-]. by exists target.
  - wp_step. split; [done|]. split; [constructor|]. by intros b2 ->.
Qed.

Lemma spec_patcher_sent env m :
  wpM (spec_patcher env) m (λ t m' r, Forall (λ e, patches_mariadb e = None) t ∧
    (r = Ok tt → ∃ m1 src, MariaDB_SetDefaults m env = Ok m1 ∧ m' = with_source m1 src ∧
       match sp_BootstrapFrom (m_Spec m) with
       | None => src = None
       | Some b => ∃ b', src = Some b' ∧ completed_source (PhysicalBackupStagingPVCKey m) b b' (found t)
       end)).
Proof.
  unfold spec_patcher. wp_step. wp_step. wp_step. destruct (MariaDB_SetDefaults m env) as [m1|e] eqn:Hd; wp_step;
    [|by split; [constructor|]]. wp_step. wp_step. cbn [app].
  pose proof (sx_bootstrap _ _ (defaults_context _ _ _ Hd)) as Eb. pose proof (sx_meta _ _ (defaults_context _ _ _ Hd)) as Em.
  assert (PhysicalBackupStagingPVCKey m1 = PhysicalBackupStagingPVCKey m) as Ekey
    by (destruct m, m1; cbn in Em; by subst).
  unfold pending_backup. rewrite Eb. destruct (sp_BootstrapFrom (m_Spec m)) as [b|]; cbn [fmap option_fmap option_map].
  2: { wp_step. split; [constructor|]. intros _. exists m1, None. split; [done|]. split; [|done].
       rewrite <-(with_source_same m1) at 1. by rewrite Eb. }
  set (b1 := BootstrapFrom_SetDefaults b _) in *.
  assert (∀ t, found t = None → ∃ m0 src, Ok m1 = Ok m0 ∧ m1 = with_source m0 src ∧
    ∃ b', src = Some b' ∧ completed_source (PhysicalBackupStagingPVCKey m) b b' (found t)) as Hnone.
  { intros t ->. exists m1, (Some b1). split; [done|]. split; [|by exists b1].
    rewrite <-(with_source_same m1) at 1. by rewrite Eb. }
  destruct (BootstrapFrom_IsDefaulted b1) eqn:Hnd; [wp_step; split; [constructor|]; intros _; by apply (Hnone [])|].
  case_bool_decide as Hk; [|wp_step; split; [constructor|]; intros _; by apply (Hnone [])].
  wp_step. apply wpM_call. intros [backup|e]; [|by split; [apply Forall_singleton|]].
  wp_step. eapply wpM_mono; [|apply source_looked_up]. intros t m' [b2|e] (-> & Ht & Hb2).
  2: { split; [|done]. cbn. apply Forall_cons. split; [done|]. eapply Forall_impl; [exact Ht|]. by intros ? []. }
  specialize (Hb2 b2 eq_refl). unfold set_bootstrap. wp_step. rewrite app_nil_r. split.
  { cbn. apply Forall_cons. split; [done|]. eapply Forall_impl; [exact Ht|]. by intros ? []. }
  intros _. exists m1, (Some (BootstrapFrom_SetDefaults b2 (PhysicalBackupStagingPVCKey m1))). split; [done|]. split; [done|].
  eexists. split; [done|]. rewrite Ekey. unfold completed_source. cbn zeta. change (found _) with (Some backup). fold b1.
  split; [done|]. split.
  - revert Hk. destruct (bf_BackupRef b1) as [ref|]; [by exists ref|done].
  - by exists b2.
Qed.

Lemma found_patch t base m ans : found (t ++ [Ev (PBase (KPatchMariaDB base m)) ans]) = found t.
Proof. unfold found. rewrite omap_app. cbn. by rewrite app_nil_r. Qed.
Lemma sent_exactly m env m1 src fnd : valid m → MariaDB_SetDefaults m env = Ok m1 →
  match sp_BootstrapFrom (m_Spec m) with
  | None => src = None
  | Some b => ∃ b', src = Some b' ∧ completed_source (PhysicalBackupStagingPVCKey m) b b' fnd
  end →
  MariaDB_ValidateUpdate m (with_source m1 src) = Ok tt ↔
  one_auth m env ∧ ∀ b, sp_BootstrapFrom (m_Spec m) = Some b → source_accepted (PhysicalBackupStagingPVCKey m) b fnd.
Proof.
  intros Hv Hd Hsrc.
  assert (∀ b, sp_BootstrapFrom (m_Spec m) = Some b → BootstrapFrom_Validate b = Ok tt) as Hb.
  { intros b Hb. pose proof (valid_BootstrapFrom _ Hv) as Hboot. unfold validateBootstrapFrom in Hboot. rewrite Hb in Hboot.
    by apply invalid_at_Ok in Hboot. }
  split.
  - intros (Hi & Hv' & _)%ValidateUpdate_valid. split; [eapply defaulted_one_auth; [exact Hd|exact (valid_Galera _ Hv')]|].
    intros b Eb. rewrite Eb in Hsrc. destruct Hsrc as (b' & -> & Hc).
    apply (completed_source_accepted _ b b'); [by apply Hb|done|]. split.
    + pose proof (valid_BootstrapFrom _ Hv') as Hboot. unfold validateBootstrapFrom in Hboot. cbn in Hboot.
      by apply invalid_at_Ok in Hboot.
    + apply (accepted_volume m (with_source m1 (Some b'))); try done; [apply Hv|apply Hv'].
  - intros [Hauth Hok]. destruct (sp_BootstrapFrom (m_Spec m)) as [b|] eqn:Eb.
    + destruct Hsrc as (b' & -> & Hc). specialize (Hok b eq_refl).
      destruct (completed_source_accepted _ b b' fnd (Hb b eq_refl) Hc) as [Hiff Hcomp].
      apply (sent_accepted m env); [done..| |].
      * intros ? [= <-]. by apply Hiff.
      * rewrite Eb. by apply source_settled, Hcomp.
    + subst src. apply (sent_accepted m env); [done..| |]; [done|]. rewrite Eb. apply settled_same.
Qed.

(** C7: the first thing the operator does with a MariaDB is to complete its spec, with the defaults and
    with what it finds of the physical backup that the bootstrap source names, and to patch it; and the
    webhook validates that patch.  For a MariaDB that the webhook has accepted, whatever the API server
    answers, it accepts the patch exactly when the defaults keep the volume that the user gave the
    source, the source does not name a snapshot and a logical backup, it has no template for a restore
    Job if the backup found is made of snapshots, and an operator of one namespace does not add its
    authentication to the one of the user. *)
Theorem operator_patch_accepted m env : valid m →
  wpM (setSpecDefaults env) m (λ t _ _, ∀ base m' x, Ev (PBase (KPatchMariaDB base m')) x ∈ t →
    base = m ∧
    (MariaDB_ValidateUpdate m m' = Ok tt ↔
     one_auth m env ∧
     ∀ b, sp_BootstrapFrom (m_Spec m) = Some b → source_accepted (PhysicalBackupStagingPVCKey m) b (found t))).
Proof.
  intros Hv. unfold setSpecDefaults. wp_step. wp_step. wp_step. eapply wpM_mono; [|apply spec_patcher_sent].
  assert (∀ t, Forall (λ e, patches_mariadb e = None) t → ∀ base m' x, Ev (PBase (KPatchMariaDB base m')) x ∉ t) as Hno.
  { intros t Ht base m' x Hin. rewrite Forall_forall in Ht. by apply Ht in Hin. }
  intros t m0 [[]|e] [Ht Hsent]; [|intros base m' x Hin; by apply Hno in Hin].
  destruct (Hsent eq_refl) as (m1 & src & Hd & -> & Hsrc). clear Hsent. wp_step. wp_step.
  wp_step. apply wpM_call. intros ans.
  assert (∀ base m' x, Ev (PBase (KPatchMariaDB base m')) x ∈ t ++ [Ev (PBase (KPatchMariaDB m (with_source m1 src))) ans] →
    base = m ∧ (MariaDB_ValidateUpdate m m' = Ok tt ↔ one_auth m env ∧ ∀ b, sp_BootstrapFrom (m_Spec m) = Some b →
      source_accepted (PhysicalBackupStagingPVCKey m) b
        (found (t ++ [Ev (PBase (KPatchMariaDB m (with_source m1 src))) ans])))) as Hend.
  { intros base m' x [Hin|Hin%list_elem_of_singleton]%elem_of_app; [by apply Hno in Hin|].
    apply (f_equal patches_mariadb) in Hin. cbn in Hin. injection Hin as -> ->. split; [done|].
    rewrite found_patch. by eapply sent_exactly. }
  destruct ans as [[]|e]; [wp_step|]; exact Hend.
Qed.

(** ** The update of a failover *)
Lemma set_primary_index_spec i m : ∃ r, sp_Replication (m_Spec (set_primary_index i m)) = Some r ∧
  rep_Enabled r = rep_Enabled (replication m) ∧ primary_PodIndex (set_primary_index i m) = i ∧
  replica (set_primary_index i m) = replica m ∧
  primary_AutomaticFailover (set_primary_index i m) = primary_AutomaticFailover m.
Proof.
  eexists. split; [reflexivity|]. split; [reflexivity|].
  unfold primary_PodIndex, primary_AutomaticFailover, replica, primary, replication, MariaDB_Replication. cbn. unfold constant. cbn.
  destruct (sp_Replication (m_Spec m)) as [[[[[]]|] [[]|] ? ? ?]|]; cbn; split_and!;
    try done; unfold ReplicaReplication_FillWithDefaults; cbn; by rewrite ?or_default_idem.
Qed.

(** The patch of a failover, outside a switchover, is accepted exactly when the new primary is one
    of the replicas. *)
Lemma failover_patch_accepted i m :
  valid m → rep_Enabled (replication m) = true → IsSwitchingPrimary m = false →
  (MariaDB_ValidateUpdate m (set_primary_index i m) = Ok tt ↔ 0 ≤ i < sp_Replicas (m_Spec m)).
Proof.
  intros Hv He Hsw. destruct (set_primary_index_spec i m) as (r & Hr & Hre & Hi & Hrep & _).
  set (m' := set_primary_index i m) in *.
  assert (rep_Enabled (replication m') = true) as He'.
  { change (rep_Enabled (default Replication_zero (sp_Replication (m_Spec m'))) = true). rewrite Hr. cbn. congruence. }
  assert (IsHAEnabled m' = IsHAEnabled m) as Eha by (unfold IsHAEnabled; by rewrite He, He').
  assert (Hsto : validateStorage m' = validateStorage m).
  { unfold validateStorage, Storage_Validate. by rewrite Eha. }
  rewrite ValidateUpdate_valid. split.
  - intros (_ & [_ _ Hvr _ _ _ _ _] & _). unfold validateReplication in Hvr. rewrite He', Hi in Hvr. cbn in Hvr.
    apply guard_Ok in Hvr as [Ho _]. by apply out_of_replicas_false in Ho.
  - intros Hb. split_and!.
    + apply settled_validated with (g := mkStructField "Spec" "spec,omitempty" "").
      apply settled_struct; [apply respected_untagged|].
      do 18 (apply Forall2_cons_2; [apply settled_same|]).
      apply Forall2_cons_2; [apply settled_field; solve_tagfree|].
      do 14 (apply Forall2_cons_2; [apply settled_same|]). apply Forall2_nil_2.
    + destruct Hv as [Hha Hga Hvr Hboot Hpdb Hst Hpw Htls]. split; try done.
      unfold validateReplication in *. rewrite He', Hi. rewrite He in Hvr. cbn in *. apply guard_Ok in Hvr as [_ Hvr].
      apply guard_Ok. split; [by apply out_of_replicas_false|]. by rewrite Hrep.
    + unfold validatePrimarySwitchover. by rewrite Hsw, andb_false_r.
    + unfold validateUpdateStorage. rewrite Hsto, (valid_Storage _ Hv). cbn [mbind result_bind].
      change (GetSize (sp_Storage (m_Spec m'))) with (GetSize (sp_Storage (m_Spec m))).
      destruct (GetSize _); [|done]. by rewrite bool_decide_false by lia.
Qed.
End patch.

(** ** Examples *)
Definition cluster_with (bootstrap : option BootstrapFrom) : MariaDB :=
  { cluster_ex old_agent bootstrap with m_Spec -> sp_Storage := { Storage_zero with sto_Size := Some 10 } }.
Definition defaulted (m : MariaDB) (env : OperatorEnv) : MariaDB :=
  match MariaDB_SetDefaults (H := plain_reference) m env with Ok m' => m' | Err _ => m end.

(** Three MariaDBs whose creation is accepted and whose defaults are then refused: an S3 source of a
    physical backup with a volume, although the API says that the first takes precedence; a
    snapshot with a logical backup; and a Kubernetes authentication in an operator of one namespace. *)
Example accepted_then_refused :
  let physical_s3 := { BootstrapFrom_zero with bf_S3 := Some "bucket"; bf_BackupContentType := BackupContentTypePhysical;
                       bf_Volume := Some (PersistentVolumeClaimSource "backups") } in
  let snapshot := { BootstrapFrom_zero with bf_VolumeSnapshotRef := Some "snapshot";
                    bf_BackupRef := Some (mkTypedLocalObjectReference "backup" BackupKind) } in
  let authenticated := { cluster_ex { old_agent with agent_KubernetesAuth := Some (mkKubernetesAuth true "") } None with
                         m_Spec -> sp_Storage := { Storage_zero with sto_Size := Some 10 } } in
  let patch m := MariaDB_ValidateUpdate m (defaulted m (env_ex "operators")) in
  Forall (λ m, MariaDB_ValidateCreate m = Ok tt) [cluster_with (Some physical_s3); cluster_with (Some snapshot); authenticated] ∧
  patch (cluster_with (Some physical_s3)) = Err (ErrNew "mariadb is invalid: 'spec.bootstrapFrom.volume' field is inmutable") ∧
  is_ok (patch (cluster_with (Some snapshot))) = false ∧
  is_ok (patch authenticated) = false.
Proof. split; [by repeat constructor|]. by vm_compute. Qed.

(** A bootstrap source that names a physical backup made of VolumeSnapshots, with a template for the
    restore Job: its creation is accepted, and the patch, which adds the snapshot, is refused. *)
Definition snapshot_backup : PhysicalBackup :=
  mkPhysicalBackup (mkObjectMeta "physicalbackup" "operators" "" ∅ ∅)
    (mkPhysicalBackupSpec None (mkMariaDBRef "mariadb" "" "" true) "" None
      (mkPhysicalBackupStorage None None None (Some "class")) None 0 None 0 None)
    (mkPhysicalBackupStatus [] None None None).
Definition ready_snapshot : VolumeSnapshot :=
  mkVolumeSnapshot "physicalbackup-20250101000000" "operators" None
    (Some (mkVolumeSnapshotStatus (Some "content") (Some 0) (Some true) None)).
Definition snapshot_env (m : MariaDB) : env pbop :=
  Env pbop (λ X _ o, match o in pbop X return X with
    | PBase o => friendly m [] 0 o
    | PGetBackup _ => Ok snapshot_backup
    | PListJobs _ _ => Ok []
    | PListSnapshots _ _ => Ok [ready_snapshot]
    | PGetSnapshot _ => Ok ready_snapshot
    | PVolumeSnapshotExist => Ok true
    | _ => Ok tt
    end) (λ _, false).
Definition restored_ex (restoreJob : option string) : MariaDB :=
  cluster_with (Some { BootstrapFrom_zero with
    bf_BackupRef := Some (mkTypedLocalObjectReference "physicalbackup" PhysicalBackupKind); bf_RestoreJob := restoreJob }).
Definition spec_run_ex (restoreJob : option string) : list (event pbop) * (MariaDB * result ctrl_Result) :=
  let m := restored_ex restoreJob in
  run (snapshot_env m) (setSpecDefaults (H := plain_reference) (env_ex "operators") m) [].
Definition patched_ex (restoreJob : option string) : MariaDB := (spec_run_ex restoreJob).2.1.

Example restore_job_refused :
  MariaDB_ValidateCreate (restored_ex (Some "args")) = Ok tt ∧
  (bf_VolumeSnapshotRef <$> sp_BootstrapFrom (m_Spec (patched_ex (Some "args")))) = Some (Some "physicalbackup-20250101000000") ∧
  is_ok (MariaDB_ValidateUpdate (restored_ex (Some "args")) (patched_ex (Some "args"))) = false ∧
  MariaDB_ValidateUpdate (restored_ex None) (patched_ex None) = Ok tt.
Proof. by vm_compute. Qed.

Lemma operator_patch_accepted_witness :
  let m := restored_ex (Some "args") in
  found (spec_run_ex (Some "args")).1 = Some snapshot_backup ∧
  (MariaDB_ValidateUpdate m (patched_ex (Some "args")) = Ok tt ↔
   one_auth m (env_ex "operators") ∧
   ∀ b, sp_BootstrapFrom (m_Spec m) = Some b →
     source_accepted (PhysicalBackupStagingPVCKey m) b (found (spec_run_ex (Some "args")).1)).
Proof.
  cbn zeta. split; [by vm_compute|].
  assert (valid (restored_ex (Some "args"))) as Hv by (split; by vm_compute).
  pose proof (wp_sound _ _ (operator_patch_accepted (H := plain_reference) _ (env_ex "operators") Hv)
    (snapshot_env (restored_ex (Some "args"))) []) as Hrun.
  destruct (Hrun (restored_ex (Some "args")) (patched_ex (Some "args")) (Ok tt)) as [_ Hiff]; [|exact Hiff].
  apply list_elem_of_lookup. exists 3%nat. by vm_compute.
Defined.
