(* ===== verification/ResourceWebhooks.v ===== *)
(** * internal/webhook: admission of the SQL resources and of the physical backups

    The validating webhooks of the User, the Grant, the Database and the PhysicalBackup, and what an
    accepted update of them cannot change. *)

From S2P Require Import Prelude GoStrings StatefulSet Conditions MariaDBTypes MaxScaleTypes Kube Sql Backup PhysicalBackup.
From S2P Require Import SqlResources Inmutable SpecValues MariaDBWebhook MariaDBWebhookSafety.

Local Open Scope Z_scope.

(** ** The specs *)
Definition MariaDBRef_val (r : MariaDBRef) : gval :=
  GStruct [field "ObjectReference" ",inline" (GStruct
             [field "Name" "name,omitempty" (GStr (ref_Name r));
              field "Namespace" "namespace,omitempty" (GStr (ref_Namespace r))]);
           field "Kind" "kind,omitempty" (GStr (ref_Kind r));
           field "WaitForIt" "waitForIt" (GBool (ref_WaitForIt r))].
Definition SQLTemplate_val (c : sql_common) : gval :=
  GStruct [field "RequeueInterval" "requeueInterval,omitempty" (pointer Duration_val (sc_RequeueInterval c));
           field "RetryInterval" "retryInterval,omitempty" (pointer Duration_val (sc_RetryInterval c));
           field "CleanupPolicy" "cleanupPolicy,omitempty" (pointer GStr (sc_CleanupPolicy c))].
Definition TLSRequirements_val (t : TLSRequirements) : gval :=
  GStruct [field "SSL" "ssl,omitempty" (pointer GBool (tr_SSL t)); field "X509" "x509,omitempty" (pointer GBool (tr_X509 t));
           field "Issuer" "issuer,omitempty" (pointer GStr (tr_Issuer t));
           field "Subject" "subject,omitempty" (pointer GStr (tr_Subject t))].

Definition UserSpec_val (u : User) : gval :=
  GStruct [field "SQLTemplate" ",inline" (SQLTemplate_val (u_common u));
           inmutable "MariaDBRef" "mariaDbRef" (MariaDBRef_val (sc_MariaDBRef (u_common u)));
           field "PasswordSecretKeyRef" "passwordSecretKeyRef,omitempty"
             (pointer SecretKeySelector_val (u_PasswordSecretKeyRef u));
           field "PasswordHashSecretKeyRef" "passwordHashSecretKeyRef,omitempty"
             (pointer SecretKeySelector_val (u_PasswordHashSecretKeyRef u));
           field "PasswordPlugin" "passwordPlugin,omitempty"
             (PasswordPlugin_val (mkPasswordPlugin (u_PluginNameSecretKeyRef u) (u_PluginArgSecretKeyRef u)));
           field "Require" "require,omitempty" (pointer TLSRequirements_val (u_Require u));
           field "MaxUserConnections" "maxUserConnections,omitempty" (GInt (u_MaxUserConnections u));
           inmutable "Name" "name,omitempty" (GStr (u_Name u));
           inmutable "Host" "host,omitempty" (GStr (u_Host u))].
Definition GrantSpec_val (g : GrantResource) : gval :=
  GStruct [field "SQLTemplate" ",inline" (SQLTemplate_val (g_common g));
           inmutable "MariaDBRef" "mariaDbRef" (MariaDBRef_val (sc_MariaDBRef (g_common g)));
           field "Privileges" "privileges" (slice GStr (g_Privileges g));
           inmutable "Database" "database,omitempty" (GStr (g_Database g));
           inmutable "Table" "table,omitempty" (GStr (g_Table g));
           inmutable "Username" "username" (GStr (g_Username g));
           inmutable "Host" "host,omitempty" (pointer GStr (g_Host g));
           inmutable "GrantOption" "grantOption,omitempty" (GBool (g_GrantOption g))].
Definition DatabaseSpec_val (d : Database) : gval :=
  GStruct [field "SQLTemplate" ",inline" (SQLTemplate_val (d_common d));
           inmutable "MariaDBRef" "mariaDbRef" (MariaDBRef_val (sc_MariaDBRef (d_common d)));
           inmutable "CharacterSet" "characterSet,omitempty" (GStr (d_CharacterSet d));
           inmutable "Collate" "collate,omitempty" (GStr (d_Collate d));
           inmutable "Name" "name,omitempty" (GStr (d_Name d))].
Definition PhysicalBackupStorage_val (s : PhysicalBackupStorage) : gval :=
  GStruct [field "S3" "s3,omitempty" (pointer GStr (pst_S3 s));
           field "PersistentVolumeClaim" "persistentVolumeClaim,omitempty" (pointer GStr (pst_PersistentVolumeClaim s));
           field "Volume" "volume,omitempty" (pointer StorageVolumeSource_val (pst_Volume s));
           field "VolumeSnapshot" "volumeSnapshot,omitempty" (pointer GStr (pst_VolumeSnapshot s))].
Definition PhysicalBackupSpec_val (s : PhysicalBackupSpec) : gval :=
  GStruct [field "PhysicalBackupPodTemplate" ",inline" (GStruct
             [inmutableinit "ServiceAccountName" "serviceAccountName,omitempty" (pointer GStr (pb_ServiceAccountName s))]);
           inmutable "MariaDBRef" "mariaDbRef" (MariaDBRef_val (pb_MariaDBRef s));
           field "Compression" "compression,omitempty" (GStr (pb_Compression s));
           inmutable "StagingStorage" "stagingStorage,omitempty" (pointer BackupStagingStorage_val (pb_StagingStorage s));
           inmutable "Storage" "storage" (PhysicalBackupStorage_val (pb_Storage s));
           field "Schedule" "schedule,omitempty" (pointer (λ c, GStruct
             [inmutable "Cron" "cron" (GStr (pbs_Cron c)); field "Suspend" "suspend" (GBool (pbs_Suspend c));
              field "Immediate" "immediate,omitempty" (pointer GBool (pbs_Immediate c))]) (pb_Schedule s));
           field "MaxRetention" "maxRetention,omitempty" (Duration_val (pb_MaxRetention s));
           field "Timeout" "timeout,omitempty" (pointer Duration_val (pb_Timeout s));
           field "BackoffLimit" "backoffLimit,omitempty" (GInt (pb_BackoffLimit s));
           field "SuccessfulJobsHistoryLimit" "successfulJobsHistoryLimit,omitempty"
             (pointer GInt (pb_SuccessfulJobsHistoryLimit s))].

(** ** Validation *)
Definition validateCleanupPolicy (c : sql_common) : result unit :=
  match sc_CleanupPolicy c with
  | Some policy => invalid_at "spec.cleanupPolicy" (CleanupPolicy_Validate policy)
  | None => Ok tt
  end.

(** user_webhook.go *)
Definition validatePasswordPlugin (u : User) : result unit :=
  if is_some (u_PluginArgSecretKeyRef u) && negb (is_some (u_PluginNameSecretKeyRef u))
  then Err (Invalid "spec.passwordPlugin.pluginArgSecretKeyRef"
              "'spec.passwordPlugin.pluginArgSecretKeyRef' can only be set when 'spec.passwordPlugin.pluginNameSecretKeyRef' is set")
  else Ok tt.
Definition validatePassword (u : User) : result unit :=
  validatePasswordPlugin u ≫= λ _,
  let definedPasswordMethods :=
    filter (λ v, v = true)
      [is_some (u_PasswordSecretKeyRef u); is_some (u_PasswordHashSecretKeyRef u); is_some (u_PluginNameSecretKeyRef u)] in
  if bool_decide (1 < length definedPasswordMethods)%nat
  then Err (Invalid "spec.passwordSecretKeyRef" ("Only one of 'spec.passwordSecretKeyRef', 'spec.passwordHashSecretKeyRef', or " +:+
              "'spec.passwordPlugin.pluginNameSecretKeyRef' can be defined"))
  else Ok tt.
Definition validateUserCleanupPolicy (u : User) : result unit := validateCleanupPolicy (u_common u).
Definition validateRequire (u : User) : result unit :=
  match u_Require u with
  | Some require => invalid_at "spec.require" (TLSRequirements_Validate require)
  | None => Ok tt
  end.
Definition User_ValidateCreate : User → result unit :=
  validate_all [validatePassword; validateUserCleanupPolicy; validateRequire].
Definition User_ValidateUpdate (old u : User) : result unit :=
  inmutable_ValidateUpdate (Name (sc_meta (u_common u))) (UserSpec_val u) (UserSpec_val old) ≫= λ _,
  validate_all [validatePassword; validateUserCleanupPolicy; validateRequire] u.

(** grant_webhook.go *)
Definition Grant_ValidateCreate (g : GrantResource) : result unit := validateCleanupPolicy (g_common g).
Definition Grant_ValidateUpdate (old g : GrantResource) : result unit :=
  inmutable_ValidateUpdate (Name (sc_meta (g_common g))) (GrantSpec_val g) (GrantSpec_val old) ≫= λ _,
  validateCleanupPolicy (g_common g).

(** database_webhook.go *)
Definition Database_ValidateCreate (d : Database) : result unit := validateCleanupPolicy (d_common d).
Definition Database_ValidateUpdate (old d : Database) : result unit :=
  inmutable_ValidateUpdate (Name (sc_meta (d_common d))) (DatabaseSpec_val d) (DatabaseSpec_val old) ≫= λ _,
  validateCleanupPolicy (d_common d).

(** physicalbackup_webhook.go *)
Section physicalbackup.
Context `{Cron}.
Definition validatePhysicalBackup (b : PhysicalBackup) : result unit :=
  match PhysicalBackup_Validate b with
  | Ok _ => Ok tt
  | Err e => Err (Invalid "spec" ("invalid PhysicalBackup: " +:+ Error e))
  end.
Definition PhysicalBackup_ValidateCreate (b : PhysicalBackup) : result unit := validatePhysicalBackup b.
Definition PhysicalBackup_ValidateUpdate (old b : PhysicalBackup) : result unit :=
  inmutable_ValidateUpdate (Name (pb_meta b)) (PhysicalBackupSpec_val (pb_Spec b)) (PhysicalBackupSpec_val (pb_Spec old))
    ≫= λ _, validatePhysicalBackup b.
End physicalbackup.

(** ** What an update cannot change *)
Lemma inmutable_fields name fs ofs i n j v h ow :
  fields_of (GStruct fs) = Some fs → fields_of (GStruct ofs) = Some ofs →
  inmutable_ValidateUpdate name (GStruct fs) (GStruct ofs) = Ok tt →
  fs !! i = Some (inmutable n j v) → ofs !! i = Some (h, ow) → isUnexported n = false → v = ow.
Proof.
  intros Hf Ho Hi Hv How Hn. apply inmutable_ValidateUpdate_ok in Hi.
  rewrite (validateInmutable_fields _ _ _ _ fs ofs Hf Ho) in Hi.
  destruct (Hi i _ _ _ _ Hv How) as (Hr & _). by apply respected_inmutable in Hr.
Qed.

(** A reference that names a MariaDB makes a spec that is set. *)
Lemma ref_set r : ref_Name r ≠ "" → IsZero (MariaDBRef_val r) = false.
Proof.
  intros Hr. unfold MariaDBRef_val. eapply IsZero_struct; [apply list_elem_of_here|].
  eapply IsZero_struct; [apply list_elem_of_here|]. cbn. by apply bool_decide_eq_false.
Qed.
Lemma ref_fields r fv fs : ref_Name r ≠ "" →
  let spec := fv :: inmutable "MariaDBRef" "mariaDbRef" (MariaDBRef_val r) :: fs in fields_of (GStruct spec) = Some spec.
Proof. intros Hr. cbn zeta. eapply fields_of_struct; [apply list_elem_of_further, list_elem_of_here|by apply ref_set]. Qed.
Lemma ref_inj : Inj (=) (=) MariaDBRef_val.
Proof. intros [n ns k w] [n' ns' k' w'] E. unfold MariaDBRef_val, field in E. by simplify_eq. Qed.

(** An accepted update leaves the object in the database what it was: a User is still the same
    account of the same MariaDB; a Grant is still about the same
    account, database and table; a Database has the same name, character set and collation.  The
    account that a finalizer drops later is so the one that was created. *)
Theorem updated_resource_same_object :
  (∀ old u, ref_Name (sc_MariaDBRef (u_common old)) ≠ "" → ref_Name (sc_MariaDBRef (u_common u)) ≠ "" →
     Name (sc_meta (u_common u)) = Name (sc_meta (u_common old)) → User_ValidateUpdate old u = Ok tt →
     sc_MariaDBRef (u_common u) = sc_MariaDBRef (u_common old) ∧ User_AccountName u = User_AccountName old) ∧
  (∀ old g, ref_Name (sc_MariaDBRef (g_common old)) ≠ "" → ref_Name (sc_MariaDBRef (g_common g)) ≠ "" →
     Grant_ValidateUpdate old g = Ok tt →
     sc_MariaDBRef (g_common g) = sc_MariaDBRef (g_common old) ∧ Grant_AccountName g = Grant_AccountName old ∧
     g_Database g = g_Database old ∧ g_Table g = g_Table old ∧ g_GrantOption g = g_GrantOption old) ∧
  (∀ old d, ref_Name (sc_MariaDBRef (d_common old)) ≠ "" → ref_Name (sc_MariaDBRef (d_common d)) ≠ "" →
     Name (sc_meta (d_common d)) = Name (sc_meta (d_common old)) → Database_ValidateUpdate old d = Ok tt →
     sc_MariaDBRef (d_common d) = sc_MariaDBRef (d_common old) ∧ DatabaseNameOrDefault d = DatabaseNameOrDefault old ∧
     d_CharacterSet d = d_CharacterSet old ∧ d_Collate d = d_Collate old).
Proof.
  split_and!.
  - intros old u Ho Hu Hm ([] & Hi & _)%result_bind_Ok.
    pose proof (λ i n j v h ow, inmutable_fields _ _ _ i n j v h ow (ref_fields _ _ _ Hu) (ref_fields _ _ _ Ho) Hi) as Hf.
    pose proof (Hf 1%nat _ _ _ _ _ eq_refl eq_refl eq_refl) as E1. pose proof (Hf 7%nat _ _ _ _ _ eq_refl eq_refl eq_refl) as [= E2].
    pose proof (Hf 8%nat _ _ _ _ _ eq_refl eq_refl eq_refl) as [= E3]. split; [by apply ref_inj|].
    unfold User_AccountName, UsernameOrDefault, User_HostnameOrDefault. by rewrite E2, E3, Hm.
  - intros old g Ho Hg ([] & Hi & _)%result_bind_Ok.
    pose proof (λ i n j v h ow, inmutable_fields _ _ _ i n j v h ow (ref_fields _ _ _ Hg) (ref_fields _ _ _ Ho) Hi) as Hf.
    pose proof (Hf 1%nat _ _ _ _ _ eq_refl eq_refl eq_refl) as E1. pose proof (Hf 3%nat _ _ _ _ _ eq_refl eq_refl eq_refl) as [= E3].
    pose proof (Hf 4%nat _ _ _ _ _ eq_refl eq_refl eq_refl) as [= E4]. pose proof (Hf 5%nat _ _ _ _ _ eq_refl eq_refl eq_refl) as [= E5].
    pose proof (Hf 6%nat _ _ _ _ _ eq_refl eq_refl eq_refl) as E6. pose proof (Hf 7%nat _ _ _ _ _ eq_refl eq_refl eq_refl) as [= E7].
    apply (inj _) in E6. split_and!; try done; [by apply ref_inj|].
    unfold Grant_AccountName, Grant_HostnameOrDefault. by rewrite E5, E6.
  - intros old d Ho Hd Hm ([] & Hi & _)%result_bind_Ok.
    pose proof (λ i n j v h ow, inmutable_fields _ _ _ i n j v h ow (ref_fields _ _ _ Hd) (ref_fields _ _ _ Ho) Hi) as Hf.
    pose proof (Hf 1%nat _ _ _ _ _ eq_refl eq_refl eq_refl) as E1. pose proof (Hf 2%nat _ _ _ _ _ eq_refl eq_refl eq_refl) as [= E2].
    pose proof (Hf 3%nat _ _ _ _ _ eq_refl eq_refl eq_refl) as [= E3]. pose proof (Hf 4%nat _ _ _ _ _ eq_refl eq_refl eq_refl) as [= E4].
    split_and!; try done; [by apply ref_inj|]. unfold DatabaseNameOrDefault. by rewrite E4, Hm.
Qed.

(** A User whose connections are limited, and a Grant with one more privilege. *)
Definition common_ex (name : string) : sql_common :=
  mkSqlCommon (mkObjectMeta name "default" "" ∅ ∅) [] false (mkMariaDBRef "mariadb" "" "" true) None None None [].
Definition user_ex (max : Z) : User :=
  mkUser (common_ex "app") (Some (mkSecretKeySelector "app" "password")) None None None None max "" "".
Definition grant_ex (privileges : list string) : GrantResource :=
  mkGrantResource (common_ex "app") privileges "shop" "*" "app" None false [].
Lemma updated_resource_same_object_witness :
  User_AccountName (user_ex 20) = User_AccountName (user_ex 10) ∧
  g_Database (grant_ex ["SELECT"; "INSERT"]) = g_Database (grant_ex ["SELECT"]).
Proof.
  destruct updated_resource_same_object as (Hu & Hg & _). split.
  - apply (Hu (user_ex 10)); by vm_compute.
  - apply (Hg (grant_ex ["SELECT"])); by vm_compute.
Defined.
Example renamed_user_is_refused :
  User_ValidateUpdate (user_ex 10) { user_ex 10 with u_Name := "root" } =
    Err (ErrNew "app is invalid: 'spec.name' field is inmutable").
Proof. by vm_compute. Qed.
