(* ===== verification/MaxScaleWebhook.v ===== *)
(** * internal/webhook: admission of the MaxScale

    The validating webhook of the MaxScale resource (maxscale_webhook.go): its spec as reflection
    shows it, what is accepted, and how the routers and ports of the services are compared. *)

From S2P Require Import Prelude GoStrings StatefulSet Datastructures Conditions MariaDBTypes MaxScaleTypes Inmutable SpecValues.
From S2P Require Import MariaDBWebhook MariaDBWebhookSafety ResourceWebhooks.

Local Open Scope Z_scope.

(** ** The spec *)
Definition MaxScaleServer_val (s : MaxScaleServer) : gval :=
  GStruct [field "Name" "name" (GStr (mss_Name s)); field "Address" "address" (GStr (mss_Address s));
           field "Port" "port,omitempty" (GInt (mss_Port s)); field "Protocol" "protocol,omitempty" (GStr (mss_Protocol s));
           field "Maintenance" "maintenance,omitempty" (GBool (mss_Maintenance s));
           field "Params" "params,omitempty" (strings (mss_Params s))].
(** A slice that may be nil, unlike an empty one. *)
Definition nilable {A} (f : A → gval) (l : option (list A)) : gval :=
  match l with Some l => GSlice (f <$> l) | None => GNil end.
Definition MaxScaleMonitor_val (m : MaxScaleMonitor) : gval :=
  GStruct [field "SuspendTemplate" ",inline" (SuspendTemplate_val (mon_Suspend m));
           field "Name" "name" (GStr (mon_Name m));
           inmutableinit "Module" "module" (GStr (mon_Module m));
           field "Interval" "interval,omitempty" (Duration_val (mon_Interval m));
           field "CooperativeMonitoring" "cooperativeMonitoring,omitempty" (pointer GStr (mon_CooperativeMonitoring m));
           field "Params" "params,omitempty" (match mon_Params m with Some p => strings p | None => GNil end)].
Definition MaxScaleListener_val (l : MaxScaleListener) : gval :=
  GStruct [field "SuspendTemplate" ",inline" (SuspendTemplate_val (lis_Suspend l));
           field "Name" "name" (GStr (lis_Name l));
           inmutable "Port" "port,omitempty" (GInt (lis_Port l));
           field "Protocol" "protocol,omitempty" (GStr (lis_Protocol l));
           field "Params" "params,omitempty" (strings (lis_Params l))].
Definition MaxScaleService_val (s : MaxScaleService) : gval :=
  GStruct [field "SuspendTemplate" ",inline" (SuspendTemplate_val (msv_Suspend s));
           field "Name" "name" (GStr (msv_Name s));
           inmutable "Router" "router" (GStr (msv_Router s));
           field "Listener" "listener" (MaxScaleListener_val (msv_Listener s));
           field "Params" "params,omitempty" (strings (msv_Params s))].
Definition MaxScaleConfig_val (c : MaxScaleConfig) : gval :=
  GStruct [field "Params" "params,omitempty" (strings (mxc_Params c));
           field "VolumeClaimTemplate" "volumeClaimTemplate" (VolumeClaimTemplate_val (mxc_VolumeClaimTemplate c));
           field "Sync" "sync,omitempty" (pointer (λ s, GStruct
             [field "Database" "database,omitempty" (GStr (cs_Database s));
              field "Interval" "interval,omitempty" (Duration_val (cs_Interval s));
              field "Timeout" "timeout,omitempty" (Duration_val (cs_Timeout s))]) (mxc_Sync c))].
Definition MaxScaleAuth_val (a : MaxScaleAuth) : gval :=
  let secret := GeneratedSecretKeyRef_val in
  GStruct [inmutableinit "Generate" "generate,omitempty" (pointer GBool (au_Generate a));
           inmutableinit "AdminUsername" "adminUsername,omitempty" (GStr (au_AdminUsername a));
           inmutableinit "AdminPasswordSecretKeyRef" "adminPasswordSecretKeyRef,omitempty" (secret (au_AdminPasswordSecretKeyRef a));
           inmutableinit "DeleteDefaultAdmin" "deleteDefaultAdmin,omitempty" (pointer GBool (au_DeleteDefaultAdmin a));
           inmutableinit "MetricsUsername" "metricsUsername,omitempty" (GStr (au_MetricsUsername a));
           field "MetricsPasswordSecretKeyRef" "metricsPasswordSecretKeyRef,omitempty" (secret (au_MetricsPasswordSecretKeyRef a));
           inmutableinit "ClientUsername" "clientUsername,omitempty" (GStr (au_ClientUsername a));
           field "ClientPasswordSecretKeyRef" "clientPasswordSecretKeyRef,omitempty" (secret (au_ClientPasswordSecretKeyRef a));
           inmutableinit "ClientMaxConnections" "clientMaxConnections,omitempty" (GInt (au_ClientMaxConnections a));
           inmutableinit "ServerUsername" "serverUsername,omitempty" (GStr (au_ServerUsername a));
           field "ServerPasswordSecretKeyRef" "serverPasswordSecretKeyRef,omitempty" (secret (au_ServerPasswordSecretKeyRef a));
           inmutableinit "ServerMaxConnections" "serverMaxConnections,omitempty" (GInt (au_ServerMaxConnections a));
           inmutableinit "MonitorUsername" "monitorUsername,omitempty" (GStr (au_MonitorUsername a));
           field "MonitorPasswordSecretKeyRef" "monitorPasswordSecretKeyRef,omitempty" (secret (au_MonitorPasswordSecretKeyRef a));
           inmutableinit "MonitorMaxConnections" "monitorMaxConnections,omitempty" (GInt (au_MonitorMaxConnections a));
           inmutableinit "SyncUsername" "syncUsername,omitempty" (pointer GStr (au_SyncUsername a));
           field "SyncPasswordSecretKeyRef" "syncPasswordSecretKeyRef,omitempty" (pointer secret (au_SyncPasswordSecretKeyRef a));
           inmutableinit "SyncMaxConnections" "syncMaxConnections,omitempty" (pointer GInt (au_SyncMaxConnections a))].
Definition MaxScaleTLS_val (t : MaxScaleTLS) : gval :=
  let ref := pointer LocalObjectReference_val in
  GStruct [field "Enabled" "enabled" (GBool (mtls_Enabled t));
           field "AdminCASecretRef" "adminCASecretRef,omitempty" (ref (mtls_AdminCASecretRef t));
           field "AdminCertSecretRef" "adminCertSecretRef,omitempty" (ref (mtls_AdminCertSecretRef t));
           field "AdminCertIssuerRef" "adminCertIssuerRef,omitempty" (ref (mtls_AdminCertIssuerRef t));
           field "ListenerCASecretRef" "listenerCASecretRef,omitempty" (ref (mtls_ListenerCASecretRef t));
           field "ListenerCertSecretRef" "listenerCertSecretRef,omitempty" (ref (mtls_ListenerCertSecretRef t));
           field "ListenerCertIssuerRef" "listenerCertIssuerRef,omitempty" (ref (mtls_ListenerCertIssuerRef t));
           field "ServerCASecretRef" "serverCASecretRef,omitempty" (ref (mtls_ServerCASecretRef t));
           field "ServerCertSecretRef" "serverCertSecretRef,omitempty" (ref (mtls_ServerCertSecretRef t));
           field "VerifyPeerCertificate" "verifyPeerCertificate,omitempty" (pointer GBool (mtls_VerifyPeerCertificate t));
           field "VerifyPeerHost" "verifyPeerHost,omitempty" (pointer GBool (mtls_VerifyPeerHost t));
           field "ReplicationSSLEnabled" "replicationSSLEnabled,omitempty" (pointer GBool (mtls_ReplicationSSLEnabled t))].
Definition MaxScaleSpec_val (s : MaxScaleSpec) : gval :=
  GStruct [field "ContainerTemplate" ",inline" (GStruct
             [field "Resources" "resources,omitempty" (GStruct
                [field "Cpu" "" (GInt (mxs_CPULimit s)); field "Memory" "" (GInt (mxs_MemoryLimit s))])]);
           field "MaxScalePodTemplate" ",inline" (PodTemplate_val (mxs_ServiceAccountName s) (mxs_Affinity s));
           field "SuspendTemplate" ",inline" (SuspendTemplate_val (mxs_Suspend s));
           inmutable "MariaDBRef" "mariaDbRef,omitempty" (pointer MariaDBRef_val (mxs_MariaDBRef s));
           field "Servers" "servers" (nilable MaxScaleServer_val (mxs_Servers s));
           field "Image" "image,omitempty" (GStr (mxs_Image s));
           field "InheritMetadata" "inheritMetadata,omitempty" (pointer Metadata_val (mxs_InheritMetadata s));
           field "Services" "services,omitempty" (slice MaxScaleService_val (mxs_Services s));
           field "Monitor" "monitor,omitempty" (MaxScaleMonitor_val (mxs_Monitor s));
           field "Admin" "admin,omitempty" (GStruct
             [field "Port" "port" (GInt (adm_Port (mxs_Admin s)));
              field "GuiEnabled" "guiEnabled,omitempty" (pointer GBool (adm_GuiEnabled (mxs_Admin s)))]);
           field "Config" "config,omitempty" (MaxScaleConfig_val (mxs_Config s));
           field "Auth" "auth,omitempty" (MaxScaleAuth_val (mxs_Auth s));
           field "Metrics" "metrics,omitempty" (pointer (λ m, GStruct
             [field "Enabled" "enabled,omitempty" (GBool (mmt_Enabled m));
              field "Exporter" "exporter" (Exporter_val (mmt_Exporter m))]) (mxs_Metrics s));
           field "TLS" "tls,omitempty" (pointer MaxScaleTLS_val (mxs_TLS s));
           field "Connection" "connection,omitempty" (pointer ConnectionTemplate_val (mxs_Connection s));
           field "Replicas" "replicas,omitempty" (GInt (mxs_Replicas s));
           field "PodDisruptionBudget" "podDisruptionBudget,omitempty"
             (pointer PodDisruptionBudget_val (mxs_PodDisruptionBudget s));
           field "UpdateStrategy" "updateStrategy,omitempty" (pointer GStr (mxs_UpdateStrategy s));
           field "KubernetesService" "kubernetesService,omitempty" (pointer ServiceTemplate_val (mxs_KubernetesService s));
           field "GuiKubernetesService" "guiKubernetesService,omitempty"
             (pointer ServiceTemplate_val (mxs_GuiKubernetesService s));
           field "RequeueInterval" "requeueInterval,omitempty" (pointer Duration_val (mxs_RequeueInterval s))].

(** ** Validation *)
Definition MonitorModule_Validate (m : string) : result unit :=
  if bool_decide (m ∈ [MonitorModuleMariadb; MonitorModuleGalera]) then Ok tt
  else Err (ErrNew ("unsupported value: '" +:+ m +:+ "'")).

Definition validateAuth (maxscale : MaxScale) : result unit :=
  if default false (au_Generate (mxs_Auth (mx_Spec maxscale))) && negb (is_some (mxs_MariaDBRef (mx_Spec maxscale)))
  then Err (Invalid "spec.auth.generate.enabled" "'spec.auth.generate' can only be enabled when 'spec.mariaDbRef' is set")
  else Ok tt.

Definition validateServerSources (maxscale : MaxScale) : result unit :=
  if negb (is_some (mxs_MariaDBRef (mx_Spec maxscale))) && negb (is_some (mxs_Servers (mx_Spec maxscale)))
  then Err (Invalid "spec.mariaDbRef" "'spec.mariaDbRef' or 'spec.servers' must be defined")
  else Ok tt.
Definition validateCreateServerSources (maxscale : MaxScale) : result unit :=
  validateServerSources maxscale ≫= λ _,
  if is_some (mxs_MariaDBRef (mx_Spec maxscale)) && is_some (mxs_Servers (mx_Spec maxscale))
  then Err (Invalid "spec.mariaDbRef" "'spec.mariaDbRef' and 'spec.servers' cannot be specified simultaneously")
  else Ok tt.

Definition validateServers (maxscale : MaxScale) : result unit :=
  let servers := Servers maxscale in
  if negb (bool_decide (size (ServerIndex maxscale) = length servers))
  then Err (Invalid "spec.servers" "server names must be unique") else
  let addresses : gset string := foldl (λ addresses srv, {[mss_Address srv]} ∪ addresses) ∅ servers in
  if negb (bool_decide (size addresses = length servers))
  then Err (Invalid "spec.servers" "server addresses must be unique")
  else Ok tt.

Definition validateMonitor (maxscale : MaxScale) : result unit :=
  let module := mon_Module (mxs_Monitor (mx_Spec maxscale)) in
  if negb (is_some (mxs_MariaDBRef (mx_Spec maxscale))) && bool_decide (module = "")
  then Err (Invalid "spec.monitor.module" "'spec.monitor.module' must be provided when 'spec.mariaDbRef' is not defined")
  else if negb (bool_decide (module = "")) then invalid_at "spec.monitor.module" (MonitorModule_Validate module)
  else Ok tt.

Definition validateServices (maxscale : MaxScale) : result unit :=
  let services := mxs_Services (mx_Spec maxscale) in
  if negb (bool_decide (size (ServiceIndex maxscale) = length services))
  then Err (Invalid "spec.services" "service names must be unique") else
  let ports : gset Z := foldl (λ ports svc, {[lis_Port (msv_Listener svc)]} ∪ ports) ∅ services in
  if negb (bool_decide (size ports = length services))
  then Err (Invalid "spec.services" "service listener ports must be unique")
  else Ok tt.

Definition validateMaxScalePodDisruptionBudget (maxscale : MaxScale) : result unit :=
  match mxs_PodDisruptionBudget (mx_Spec maxscale) with
  | None => Ok tt
  | Some p => invalid_at "spec.podDisruptionBudget" (PodDisruptionBudget_Validate p)
  end.

Definition validateMaxScaleTLS (maxscale : MaxScale) : result unit :=
  let tls := mx_tls maxscale in
  if negb (mtls_Enabled tls) then Ok tt else
  first_error (validateTLSCert <$>
    [mkTlsValidationItem (mtls_AdminCASecretRef tls) "spec.tls.adminCASecretRef"
       (mtls_AdminCertSecretRef tls) "spec.tls.adminCertSecretRef"
       (mtls_AdminCertIssuerRef tls) "spec.tls.adminCertIssuerRef";
     mkTlsValidationItem (mtls_ListenerCASecretRef tls) "spec.tls.listenerCASecretRef"
       (mtls_ListenerCertSecretRef tls) "spec.tls.listenerCertSecretRef"
       (mtls_ListenerCertIssuerRef tls) "spec.tls.listenerCertIssuerRef";
     mkTlsValidationItem (mtls_ServerCASecretRef tls) "spec.tls.serverCASecretRef"
       (mtls_ServerCertSecretRef tls) "spec.tls.serverCertSecretRef" None ""]).

Definition MaxScale_ValidateCreate : MaxScale → result unit :=
  validate_all [validateAuth; validateCreateServerSources; validateServers; validateMonitor; validateServices;
                validateMaxScalePodDisruptionBudget; validateMaxScaleTLS].
Definition MaxScale_ValidateUpdate (old maxscale : MaxScale) : result unit :=
  inmutable_ValidateUpdate (Name (mx_meta maxscale)) (MaxScaleSpec_val (mx_Spec maxscale)) (MaxScaleSpec_val (mx_Spec old))
    ≫= λ _,
  validate_all [validateAuth; validateServerSources; validateServers; validateMonitor; validateServices;
                validateMaxScalePodDisruptionBudget; validateMaxScaleTLS] maxscale.

(** ** Uniqueness *)
Section sizes.
Context `{Countable K}.
Lemma size_list_to_set_le (l : list K) : (size (list_to_set l : gset K) ≤ length l)%nat.
Proof.
  induction l as [|x l IH]; [done|]. cbn [list_to_set length].
  pose proof (size_union_alt ({[x]} : gset K) (list_to_set l)) as E. rewrite size_singleton in E.
  assert (size ((list_to_set l : gset K) ∖ {[x]}) ≤ size (list_to_set l : gset K))%nat by (apply subseteq_size; set_solver).
  lia.
Qed.
Lemma size_list_to_set_NoDup (l : list K) : size (list_to_set l : gset K) = length l ↔ NoDup l.
Proof.
  split; [|apply size_list_to_set]. induction l as [|x l IH]; [constructor|]. cbn [list_to_set length]. intros Hs.
  pose proof (size_list_to_set_le l). destruct (decide (x ∈ l)) as [Hx|Hx].
  - replace ({[x]} ∪ list_to_set l : gset K) with (list_to_set l : gset K) in Hs by set_solver. lia.
  - constructor; [done|]. apply IH. rewrite size_union in Hs by set_solver. rewrite size_singleton in Hs. lia.
Qed.
Lemma collected {A} (f : A → K) (l : list A) (X : gset K) :
  foldl (λ X a, {[f a]} ∪ X) X l = list_to_set (f <$> l) ∪ X.
Proof. revert X. induction l as [|a l IH]; intros X; cbn; [set_solver|]. rewrite IH. set_solver. Qed.
End sizes.

Lemma dom_NewIndex {A} (l : list A) (f : A → string) : dom (NewIndex l f) = list_to_set (f <$> l).
Proof.
  unfold NewIndex. rewrite <-(union_empty_r_L (list_to_set (f <$> l))), <-(dom_empty_L (D := gset string) (A := A)).
  generalize (∅ : gmap string A) as idx. induction l as [|a l IH]; intros idx; cbn; [set_solver|].
  rewrite IH, dom_insert_L. set_solver.
Qed.
Lemma size_NewIndex {A} (l : list A) (f : A → string) : size (NewIndex l f) = length l ↔ NoDup (f <$> l).
Proof.
  rewrite <-(length_fmap f l), <-size_list_to_set_NoDup, <-dom_NewIndex, size_dom. done.
Qed.

Lemma validateServers_NoDup m : validateServers m = Ok tt ↔
  NoDup (mss_Name <$> Servers m) ∧ NoDup (mss_Address <$> Servers m).
Proof.
  unfold validateServers. rewrite !guard_Ok, !negb_false_iff, !bool_decide_eq_true, collected, union_empty_r_L.
  unfold ServerIndex. rewrite size_NewIndex, <-(length_fmap mss_Address), size_list_to_set_NoDup. naive_solver.
Qed.
Lemma validateServices_NoDup m : validateServices m = Ok tt ↔
  NoDup (msv_Name <$> mxs_Services (mx_Spec m)) ∧ NoDup (lis_Port ∘ msv_Listener <$> mxs_Services (mx_Spec m)).
Proof.
  unfold validateServices.
  rewrite !guard_Ok, !negb_false_iff, !bool_decide_eq_true, (collected (lis_Port ∘ msv_Listener)), union_empty_r_L.
  unfold ServiceIndex. rewrite size_NewIndex, <-(length_fmap (lis_Port ∘ msv_Listener)), size_list_to_set_NoDup. naive_solver.
Qed.

(** ** Accepted objects *)
Record valid_maxscale (m : MaxScale) : Prop := {
  vm_auth : default false (au_Generate (mxs_Auth (mx_Spec m))) = true → mxs_MariaDBRef (mx_Spec m) ≠ None;
  vm_sources : mxs_MariaDBRef (mx_Spec m) ≠ None ∨ mxs_Servers (mx_Spec m) ≠ None;
  vm_servers : NoDup (mss_Name <$> Servers m) ∧ NoDup (mss_Address <$> Servers m);
  vm_services : NoDup (msv_Name <$> mxs_Services (mx_Spec m)) ∧
    NoDup (lis_Port ∘ msv_Listener <$> mxs_Services (mx_Spec m));
  vm_module : mon_Module (mxs_Monitor (mx_Spec m)) ∈ [MonitorModuleMariadb; MonitorModuleGalera] ∨
    mon_Module (mxs_Monitor (mx_Spec m)) = "" ∧ mxs_MariaDBRef (mx_Spec m) ≠ None
}.

Lemma validators_valid m :
  validateAuth m = Ok tt → validateServerSources m = Ok tt → validateServers m = Ok tt → validateMonitor m = Ok tt →
  validateServices m = Ok tt → valid_maxscale m.
Proof.
  intros Ha Hs Hsrv Hm Hsvc. split; [| |by apply validateServers_NoDup|by apply validateServices_NoDup|].
  - unfold validateAuth in Ha. intros Hg. rewrite Hg in Ha. by destruct (mxs_MariaDBRef _).
  - unfold validateServerSources in Hs. destruct (mxs_MariaDBRef _); [by left|]. right. by destruct (mxs_Servers _).
  - unfold validateMonitor in Hm. apply guard_Ok in Hm as [Hr Hm].
    destruct (bool_decide_reflect (mon_Module (mxs_Monitor (mx_Spec m)) = "")) as [He|He]; cbn in Hm.
    + right. split; [done|]. rewrite andb_true_r in Hr. by destruct (mxs_MariaDBRef _).
    + left. apply invalid_at_Ok in Hm. unfold MonitorModule_Validate in Hm. by case_bool_decide.
Qed.

Lemma slice_lookup {A} (f : A → gval) (l : list A) : slice f l = GNil ∧ l = [] ∨ slice f l = GSlice (f <$> l).
Proof. destruct l; [by left|by right]. Qed.

(** A spec with services is set, and its services are the eighth field. *)
Lemma services_fields s svc i : mxs_Services s !! i = Some svc →
  ∃ fs, MaxScaleSpec_val s = GStruct fs ∧ fields_of (MaxScaleSpec_val s) = Some fs.
Proof.
  intros Hi. eexists. split; [done|].
  eapply (fields_of_struct _ (slice MaxScaleService_val (mxs_Services s)));
    [do 7 apply list_elem_of_further; apply list_elem_of_here|]. by destruct (mxs_Services s).
Qed.
Lemma service_fields s : msv_Name s ≠ "" →
  ∃ fs, MaxScaleService_val s = GStruct fs ∧ fields_of (MaxScaleService_val s) = Some fs.
Proof.
  intros Hn. eexists. split; [done|]. eapply fields_of_struct; [apply list_elem_of_further, list_elem_of_here|].
  cbn. by apply bool_decide_eq_false.
Qed.
Lemma listener_fields l : lis_Port l ≠ 0 →
  ∃ fs, MaxScaleListener_val l = GStruct fs ∧ fields_of (MaxScaleListener_val l) = Some fs.
Proof.
  intros Hp. eexists. split; [done|]. eapply fields_of_struct; [do 2 apply list_elem_of_further; apply list_elem_of_here|].
  cbn. by apply bool_decide_eq_false.
Qed.
Lemma fields_valid v fs : fields_of v = Some fs → isValidStruct v = true.
Proof. unfold fields_of. by destruct (isValidStruct v). Qed.

(** The services are compared by their position. *)
Lemma services_by_position old m i s s' :
  MaxScale_ValidateUpdate old m = Ok tt →
  mxs_Services (mx_Spec old) !! i = Some s → mxs_Services (mx_Spec m) !! i = Some s' →
  msv_Name s ≠ "" → msv_Name s' ≠ "" →
  msv_Router s' = msv_Router s ∧
  (lis_Port (msv_Listener s) ≠ 0 → lis_Port (msv_Listener s') ≠ 0 → lis_Port (msv_Listener s') = lis_Port (msv_Listener s)).
Proof.
  intros ([] & Hi%inmutable_ValidateUpdate_ok & _)%result_bind_Ok Ho Hm Hn Hn'.
  destruct (services_fields _ _ _ Hm) as (fs & Efs & Hfs), (services_fields _ _ _ Ho) as (ofs & Eofs & Hofs).
  rewrite (validateInmutable_fields _ _ _ _ fs ofs Hfs Hofs) in Hi. injection Efs as <-. injection Eofs as <-.
  destruct (Hi 7%nat _ _ _ _ eq_refl eq_refl) as (_ & _ & Hsl). clear Hi Hfs Hofs. cbn [fst snd] in Hsl.
  destruct (service_fields _ Hn') as (fs & Efs & Hfs), (service_fields _ Hn) as (ofs & Eofs & Hofs).
  destruct (slice_lookup MaxScaleService_val (mxs_Services (mx_Spec m))) as [[_ E]|E]; [by rewrite E in Hm|].
  destruct (slice_lookup MaxScaleService_val (mxs_Services (mx_Spec old))) as [[_ E']|E']; [by rewrite E' in Ho|].
  specialize (Hsl _ _ i (MaxScaleService_val s') (MaxScaleService_val s) E E').
  rewrite !list_lookup_fmap, Hm, Ho in Hsl. specialize (Hsl eq_refl eq_refl (fields_valid _ _ Hfs)).
  rewrite (validateInmutable_fields _ _ _ _ fs ofs Hfs Hofs) in Hsl. injection Efs as <-. injection Eofs as <-. split.
  - destruct (Hsl 2%nat _ _ _ _ eq_refl eq_refl) as (Hr & _). apply respected_inmutable in Hr; [|done]. by simplify_eq.
  - intros Hp Hp'. destruct (Hsl 3%nat _ _ _ _ eq_refl eq_refl) as (_ & Hl & _). cbn [fst snd] in Hl.
    destruct (listener_fields _ Hp') as (fs & Efs & Hlf), (listener_fields _ Hp) as (ofs & Eofs & Hlo).
    specialize (Hl (fields_valid _ _ Hlf)). rewrite (validateInmutable_fields _ _ _ _ fs ofs Hlf Hlo) in Hl.
    injection Efs as <-. injection Eofs as <-.
    destruct (Hl 2%nat _ _ _ _ eq_refl eq_refl) as (Hr & _). apply respected_inmutable in Hr; [|done]. by simplify_eq.
Qed.

(** C14: a MaxScale that the webhook accepts, at its creation or in an update, has servers with
    names and addresses of their own, services with names and ports of their own, a MariaDB or a list
    of servers (never both when it is created; the list may be an empty one, which is not nil: see
    [empty_servers_accepted]), a monitor it knows, and generates credentials for a MariaDB only; and
    an update leaves the service at each position its router and its port. *)
Theorem accepted_maxscale m :
  (MaxScale_ValidateCreate m = Ok tt → valid_maxscale m ∧
     (mxs_MariaDBRef (mx_Spec m) = None ∨ mxs_Servers (mx_Spec m) = None)) ∧
  (∀ old, MaxScale_ValidateUpdate old m = Ok tt → valid_maxscale m ∧
     ∀ i s s', mxs_Services (mx_Spec old) !! i = Some s → mxs_Services (mx_Spec m) !! i = Some s' →
       msv_Name s ≠ "" → msv_Name s' ≠ "" → lis_Port (msv_Listener s) ≠ 0 → lis_Port (msv_Listener s') ≠ 0 →
       msv_Router s' = msv_Router s ∧ lis_Port (msv_Listener s') = lis_Port (msv_Listener s)).
Proof.
  split.
  - intros Hc. apply validate_all_Ok in Hc. rewrite !Forall_cons in Hc. destruct Hc as (Ha & Hs & Hsrv & Hm & Hsvc & _).
    unfold validateCreateServerSources in Hs. apply check_Ok in Hs as [Hs Hx]. split; [by apply validators_valid|].
    apply guard_Ok in Hx as [Hx _].
    destruct (mxs_MariaDBRef _); [right; by destruct (mxs_Servers _)|by left].
  - intros old Hu. split.
    + apply result_bind_Ok in Hu as ([] & _ & Hv). apply validate_all_Ok in Hv. rewrite !Forall_cons in Hv.
      destruct Hv as (Ha & Hs & Hsrv & Hm & Hsvc & _). by apply validators_valid.
    + intros i s s' Ho Hm Hn Hn' Hp Hp'. destruct (services_by_position _ _ _ _ _ Hu Ho Hm Hn Hn') as [? Hl]. auto.
Qed.

(** A service other than the last cannot be removed: the next one takes its position, and has
    another port. *)
Lemma removed_service_refused old m i :
  valid_maxscale old → mxs_Services (mx_Spec m) = delete i (mxs_Services (mx_Spec old)) →
  (S i < length (mxs_Services (mx_Spec old)))%nat →
  Forall (λ s, msv_Name s ≠ "" ∧ lis_Port (msv_Listener s) ≠ 0) (mxs_Services (mx_Spec old)) →
  MaxScale_ValidateUpdate old m ≠ Ok tt.
Proof.
  intros Hv Hd Hlen Hall Hu.
  destruct (lookup_lt_is_Some_2 (mxs_Services (mx_Spec old)) i) as [s Hs]; [lia|].
  destruct (lookup_lt_is_Some_2 (mxs_Services (mx_Spec old)) (S i)) as [s' Hs']; [done|].
  assert (mxs_Services (mx_Spec m) !! i = Some s') as Hm by (rewrite Hd, list_lookup_delete_ge; [done|lia]).
  destruct (Forall_lookup_1 _ _ _ _ Hall Hs) as [Hn Hp], (Forall_lookup_1 _ _ _ _ Hall Hs') as [Hn' Hp'].
  destruct (services_by_position _ _ _ _ _ Hu Hs Hm Hn Hn') as [_ Hport]. specialize (Hport Hp Hp').
  destruct (vm_services _ Hv) as [_ Hnd].
  enough (i = S i) by lia. eapply NoDup_lookup; [exact Hnd| |].
  - rewrite list_lookup_fmap, Hs. done.
  - rewrite list_lookup_fmap, Hs'. cbn. by rewrite Hport.
Qed.

(** ** Examples *)
Definition service_ex (name router : string) (port : Z) : MaxScaleService :=
  mkMaxScaleService false name router (mkMaxScaleListener false (name +:+ "-listener") port "MariaDBProtocol" ∅) ∅.
Definition maxscale_ex (services : list MaxScaleService) : MaxScale :=
  { MaxScale_zero (mkObjectMeta "maxscale" "default" "" ∅ ∅) with
    mx_Spec -> mxs_MariaDBRef := Some (mkMariaDBRef "mariadb" "" "" true);
    mx_Spec -> mxs_Services := services }.
Definition split_and_read : list MaxScaleService :=
  [service_ex "rw" ServiceRouterReadWriteSplit 3306; service_ex "ro" "readconnroute" 3307].

Lemma accepted_maxscale_witness :
  valid_maxscale (maxscale_ex split_and_read) ∧
  msv_Router (service_ex "read" "readconnroute" 3307) = msv_Router (service_ex "ro" "readconnroute" 3307).
Proof.
  split; [by apply accepted_maxscale; vm_compute|].
  eapply (accepted_maxscale (maxscale_ex [service_ex "rw" ServiceRouterReadWriteSplit 3306; service_ex "read" "readconnroute" 3307])
    ) with (old := maxscale_ex split_and_read) (i := 1%nat); by vm_compute.
Defined.

(** The second service can be removed, the first cannot. *)
Example removed_services :
  MaxScale_ValidateUpdate (maxscale_ex split_and_read) (maxscale_ex [service_ex "rw" ServiceRouterReadWriteSplit 3306]) = Ok tt ∧
  MaxScale_ValidateUpdate (maxscale_ex split_and_read) (maxscale_ex [service_ex "ro" "readconnroute" 3307]) =
    Err (ErrNew "maxscale is invalid: 'spec.services.router' field is inmutable, 'spec.services.listener.port' field is inmutable").
Proof. by vm_compute. Qed.

(** A list of servers that is empty but not nil passes for a source of servers: the MaxScale is
    accepted, and has nothing to route to. Without the list it is refused. *)
Definition servers_ex (servers : option (list MaxScaleServer)) : MaxScale :=
  { MaxScale_zero (mkObjectMeta "maxscale" "default" "" ∅ ∅) with
    mx_Spec -> mxs_Servers := servers;
    mx_Spec -> mxs_Monitor := { MaxScaleMonitor_zero with mon_Module := MonitorModuleMariadb } }.
Example empty_servers_accepted :
  MaxScale_ValidateCreate (servers_ex (Some [])) = Ok tt ∧
  Servers (servers_ex (Some [])) = [] ∧
  MaxScale_ValidateCreate (servers_ex None) =
    Err (Invalid "spec.mariaDbRef" "'spec.mariaDbRef' or 'spec.servers' must be defined").
Proof. by vm_compute. Qed.
